(* ===== verification/_CoqProject ===== *)
-Q . S2P
Prelude.v
Json.v
Text.v
Ip.v
Route.v
Dest.v
RateLimit.v
Srs.v
RuleSets.v
Users.v
Connections.v
Relay.v
DnsWire.v
FakeIp.v
DnsRouter.v
Codec.v
Vless.v
Vision.v
Sniff.v
Groups.v
Dial.v
Inbound.v
Tunnel.v
RsqProtocol.v
RsqTraffic.v
Brutal.v
RsqAuth.v
RsqUdpFragment.v
Obfs.v
RsqControl.v
RsqSession.v
RsqUdp.v
Hysteria.v
RsqPool.v
Config.v
Subscription.v
Engine.v
Vmess.v
Hello.v
Tls13.v
Reality.v
ShadowTls.v
Outbounds.v
Derp.v
Tun.v
Listener.v
WireGuard.v
Control.v
Tailscale.v
QuicBlock.v
Process.v
