(* ===== verification/Prelude.v ===== *)
(** * rsbox: a proxy platform, modelled and verified

    rsbox accepts connections on local and on server inbounds, decides by rules
    which outbound carries each of them, and relays bytes and datagrams.  Its own
    tunnel protocols, RSQ, RST and Hysteria2, run over QUIC.  This library translates
    the code under [src/crates] into functions and step relations and proves what the
    parts promise each other.

    ** The program's parts and the files that model them

    _Shared._  [Prelude]: results ([Ok], [Err] with the text of the outermost error,
    [Panic]), machine integers, bytes, reads from buffers, lists.  [Json]: the values
    of [serde_json].  [Text], [Ip]: what the code uses of [core::str] and
    [core::net], among it the parsers and printers of numbers and addresses.

    _Configuration and life cycle._  [Config]: [rsb-config/src/lib.rs], the readers of
    inbounds and outbounds ([rsq/mod.rs], [rst/mod.rs], [hysteria2/mod.rs], the
    [new] of the clients).  [Subscription]: [rsb-core/src/subscription.rs],
    [rsq/share.rs], [rst/share.rs].  [Engine]: [registry.rs], [build.rs],
    [engine.rs], [reload.rs].

    _Routing._  [Route]: [rsb-route/src/lib.rs] (rules, compiled rule sets,
    [RuleRouter::route]).  [Srs]: the binary rule sets of [srs.rs].  [RuleSets]:
    [geo.rs], [rule_cache.rs] and the loaders.

    _Names._  [DnsWire], [FakeIp], [DnsRouter]: [rsb-dns/src] and [dns_inbound.rs].

    _Users and traffic._  [Users]: [user_registry.rs].  [Connections]:
    [connection_manager.rs].  [RateLimit]: [rate_limit.rs].  [Relay]:
    [UserRelaySession] and the relay half that charges a user.

    _Outbounds._  [Groups]: [OutboundManager], [group.rs], [fallback.rs],
    [urltest.rs].  [Dial]: [runtime.rs], [proxy_stream.rs] and the dialling part of
    [inbound_proxy.rs].

    _Local inbounds._  [Inbound], [Tunnel]: SOCKS5, HTTP CONNECT and plain HTTP of
    [inbound_proxy.rs] and its pumps.  [Listener]: its accept loop with its limits.
    [Sniff]: [sniff.rs].  [Tun]: [tun_mode.rs], [original_dest.rs] and the routes of
    [platform/linux.rs], down to netlink messages.

    _Control._  [Control]: [services/api.rs] with its gRPC listener
    [api_grpc.rs], [rsb-api/src/lib.rs], [ssm_api.rs],
    [multiplexer.rs] and the authorisation of [services/listen.rs].

    _RSQ._  [RsqProtocol], [RsqTraffic], [RsqAuth], [RsqUdpFragment], [Obfs],
    [RsqControl], [Brutal]: one file of [rsq/] each ([Obfs] with its twins in [rst/]
    and [hysteria2/]).  [RsqSession]: both ends of a connection.  [RsqUdp]: UDP
    sessions.  [RsqPool]: the session an outbound keeps.

    _RST and Hysteria2._  [Hysteria]: both protocols, which differ in names and in the
    points of its [Flavour].  [Dest]: [rst/dest.rs].

    _Other protocols._  [Codec], [Vless], [Vision]: address and datagram codecs, the
    VLESS and Trojan servers, XTLS Vision.  [Vmess]: [vmess_aead.rs], [vmess.rs].
    [Hello]: the ClientHellos of [utls/hello.rs] and the session ids of REALITY.
    [Tls13]: the hand-written TLS of [utls/tls13.rs] with [reality_cert.rs].
    [Reality]: [reality_mirror.rs], [reality_inbound.rs], [reality.rs].  [ShadowTls]:
    [shadowtls/].  [Outbounds]: the outbounds that speak these protocols and SOCKS5, HTTP
    CONNECT, direct and TUIC ([direct.rs], [socks.rs], [http_outbound.rs], [trojan.rs],
    [vless.rs], [tuic.rs], [chain_outbound.rs]), the links they dial over
    ([detour.rs], [transport.rs]).  [Derp]: the relay of [services/derp.rs].  [WireGuard]:
    [rsb-wireguard/src/lib.rs] and [wireguard_outbound.rs].  [Tailscale]:
    [tailscale_noise.rs], [tailscale_control.rs] and [tailscale_embedded.rs].

    _The machine._  [Process]: the process behind a connection ([rsb-core/src/process.rs]);
    [QuicBlock]: the QUIC switch of browsers ([quic_block.rs]).

    A target read by an inbound is routed ([Route]) and dialled ([Dial]) through the
    outbound the manager and its groups ([Groups]) choose; names are resolved by
    [DnsRouter]; what is copied is charged to a user ([Relay], over [Connections] and
    [Users]).  [Engine] builds these parts from the options ([Config], completed by
    [Subscription]) and replaces inbounds and users on a reload; [Control] acts on it.

    ** How code becomes definitions

    A pure function is a function.  Code that mutates state takes and returns it
    ([ConnectionManager], [UdpReassembler], the DNS routers' store); shared cells
    ([Arc], atomics) are entries of a store under a name or a number.  A fallible
    function returns [result]; a slice index out of range, an allocation beyond
    [isize::MAX] and an empty random range are [Panic].  A stream is the list of its
    bytes where only the bytes matter, and a list of reads where their boundaries do.
    Integers are [Z], reduced at their width where the source's type does so; the
    release profile has no overflow checks, so arithmetic wraps and shift counts are
    taken modulo the width.  [f64] is binary64 through [SpecFloat].  Where tasks
    interleave (admission, relay halves, the RSQ session, the connect gate, groups)
    a step relation has one step per shared access, and claims are about every
    reachable state.

    What is not in the repository is an argument with its documented law: HMAC-SHA256
    ([HmacSha256]), BLAKE2b ([Blake2b512]), SHA-224 and UUIDs ([UserCrypto]), the
    ciphers, hashes and signatures of VMess and TLS ([VmessCrypto], [RealityCrypto],
    [TlsCrypto], [ShadowCrypto]), zlib ([Zlib]), the regular expressions ([Regex]), the [http] and [url] crates
    ([HttpHeader], [UrlCrate]), files and HTTP ([Files], [RuleSets.World]), the DNS
    network ([DnsNet]), boringtun ([Boringtun]), the routes of the kernel ([RouteKernel]), the JSON of the choices ([CacheCodec]),
    sockets, clocks, random draws, name lookup.  Each claim with
    such a law, or with any hypothesis, has a witness at a concrete instance.

    ** What the theorems show

    - round trips: frames, handshakes, datagrams, obfuscation, share links, names and
      addresses are read back as they were written ([frame_roundtrip],
      [rsq_tcp_handshake], [rsq_auth_handshake], [rsq_udp_delivered],
      [obfs_roundtrip], [parse_response_correct], [rsq_link_imported], [h3_tcp_handshake]),
      with the cuts of a stream at which they fail;
    - no input of the network makes the decoders panic ([decoders_safe]), or exactly
      these do ([parse_srs_outcomes]);
    - routing is the first matching rule ([route_first_match]), and the indexed
      lookup of a rule set is its linear scan ([rule_set_lookup_is_scan]);
    - who is let in: [auth_verify_spec], [auth_replay_rejected], [h3_auth_decision],
      [forbidden_dest_blocks], [rst_destination_guard], [vmess_accept_sound],
      [reality_gatekeeping], [api_access];
    - whole connections, both ends of the program composed: [vmess_handshake],
      [reality_connection], [shadow_handshake], [vless_request_served],
      [socks_client_served], [http_client_served], [tuic_request_served];
    - streams that frame what they carry deliver it, and where they do not:
      [tls_stream_delivery], [utls_suites], [shadow_delivery], [v2_records];
    - the packet relay: who is registered, what reaches whom, what is left behind:
      [derp_framing], [derp_registry], [derp_delivery], [derp_stale_peers],
      [mesh_bounces];
    - limits under interleaving: [admission_bounded], [quota_overshoot],
      [active_connections_bounded], [listener_limits];
    - the whole machine's traffic: [tun_routes_transaction], [tun_tcp_flow],
      [tun_udp_flow], [tun_dns_misdirected]; WireGuard's peers: [wg_allowed_block],
      [wg_destinations], [wg_empty_datagram];
    - Tailscale: [initiation_sent], [state_survives]; browsers' files: [quic_restored];
      processes: [process_found];
    - control: [selection_survives], [ssm_refinement], [refresh_takes_effect];
    - life cycles: sessions ([session_lifecycle], [dials_share_session],
      [probe_race_kills_outbound], [connect_gate]), the control
      stream, groups ([fallback_cascade]), building and reloading
      ([rsbox_new_sound], [reload_outcomes], [reload_equals_restart],
      [merge_keeps_valid]).

    ** Fuel and bounds

    Loops over bytes, lines or reads carry the length of what they consume as fuel,
    and theorems that they return are proved with that fuel, never assumed.  DNS
    lookups through the registry and dials through groups carry the depth of the
    chain; that a chain can be endless is itself a theorem.  The stack
    is unbounded except where input decides how deep the code recurses: the reader of rule
    sets ([parse_srs_on]) takes the room it has.  No other bound is imposed: lists, maps and counters are unbounded unless the source bounds them.

    ** Not modelled

    QUIC, HTTP/3 and the TLS of rustls (quinn, h3, rustls): a connection is a pair of
    streams that carry bytes unchanged.  Operating-system integration other than the
    routes and process tables of Linux (devices, system proxies, macOS), the gRPC form of the V2Ray
    statistics and the command line, which call the parts above; protocols outside the
    registry of this build whose work is done by a library (SSH, AnyTLS, Shadowsocks); the vendored libraries; and the files no [lib.rs] declares,
    which are not part of the program. *)
From stdpp Require Import base tactics gmap list strings countable.
From Stdlib Require Import ZArith Lia.
From Stdlib Require Import Strings.Byte.

Local Open Scope Z_scope.

(** ** Fallible code *)

(** A Rust computation of type [anyhow::Result<A>].  [Err] carries the text
    [Display] shows for the outermost error (the code under study inspects
    that text); [Panic] is a Rust panic (slice index out of range, [Buf::get_*]
    on a short buffer, a failed [expect]). *)
Inductive result (A : Type) : Type :=
| Ok (a : A)
| Err (msg : string)
| Panic (msg : string).
Arguments Ok {A} a.
Arguments Err {A} msg.
Arguments Panic {A} msg.

#[export] Instance result_ret : MRet result := fun A a => Ok a.
#[export] Instance result_bind : MBind result := fun A B f m =>
  match m with Ok a => f a | Err e => Err e | Panic e => Panic e end.
#[export] Instance result_fmap : FMap result := fun A B f m =>
  match m with Ok a => Ok (f a) | Err e => Err e | Panic e => Panic e end.

#[export] Instance result_eq_dec {A} `{EqDecision A} : EqDecision (result A).
Proof. solve_decision. Defined.

(** [Result::context] replaces the displayed message of an error. *)
Definition context {A} (msg : string) (r : result A) : result A :=
  match r with Ok a => Ok a | Err _ => Err msg | Panic e => Panic e end.

(** [Option::context] turns an absent value into an error. *)
Definition ok_or {A} (msg : string) (o : option A) : result A :=
  match o with Some a => Ok a | None => Err msg end.

Definition is_ok {A} (r : result A) : bool :=
  match r with Ok _ => true | _ => false end.

Definition is_panic {A} (r : result A) : bool :=
  match r with Panic _ => true | _ => false end.

(** [str::contains] on message texts. *)
Fixpoint str_contains (s pat : string) : bool :=
  String.prefix pat s ||
  match s with
  | EmptyString => false
  | String _ s' => str_contains s' pat
  end.

(** ** Machine integers *)

Definition wrap (w v : Z) : Z := v `mod` 2 ^ w.
Definition u16 (v : Z) : Z := wrap 16 v.
Definition u32 (v : Z) : Z := wrap 32 v.
Definition u64 (v : Z) : Z := wrap 64 v.
Definition u64_max : Z := 2 ^ 64 - 1.
Definition in_u8 (v : Z) : Prop := 0 <= v < 2 ^ 8.
Definition in_u16 (v : Z) : Prop := 0 <= v < 2 ^ 16.
Definition in_u32 (v : Z) : Prop := 0 <= v < 2 ^ 32.
Definition in_u64 (v : Z) : Prop := 0 <= v < 2 ^ 64.

(** [u64::saturating_mul], [usize::saturating_sub], [u64::abs_diff]. *)
Definition saturating_mul64 (a b : Z) : Z := Z.min (a * b) u64_max.
Definition saturating_sub (a b : Z) : Z := Z.max (a - b) 0.
Definition abs_diff (a b : Z) : Z := Z.abs (a - b).

(** [Ord::clamp]; panics when the bounds are crossed. *)
Definition clamp (v lo hi : Z) : result Z :=
  if hi <? lo then Panic "assertion failed: min <= max"
  else Ok (Z.min (Z.max v lo) hi).

(** ** Bytes *)

(** The value of a byte and the cast [as u8]. *)
Definition bz (b : byte) : Z := Z.of_N (Byte.to_N b).
Definition u8 (v : Z) : byte :=
  default x00 (Byte.of_N (Z.to_N (wrap 8 v))).

#[export] Instance byte_eq_dec : EqDecision byte := Byte.byte_eq_dec.
#[export] Program Instance byte_countable : Countable byte :=
  inj_countable Byte.to_N Byte.of_N _.
Next Obligation. intros b. apply Byte.of_to_N. Qed.
#[export] Instance byte_inhabited : Inhabited byte := populate x00.

Lemma bz_range b : 0 <= bz b < 256.
Proof.
  unfold bz. pose proof (Byte.to_N_bounded b) as H. lia.
Qed.

Lemma bz_u8 v : bz (u8 v) = v `mod` 256.
Proof.
  unfold bz, u8, wrap. change (2 ^ 8) with 256.
  pose proof (Z.mod_pos_bound v 256 ltac:(lia)) as Hm.
  destruct (Byte.of_N (Z.to_N (v `mod` 256))) as [b|] eqn:E; simpl.
  - apply Byte.to_of_N in E. rewrite E. lia.
  - apply Byte.of_N_None_iff in E. lia.
Qed.

Lemma bz_inj a b : bz a = bz b -> a = b.
Proof.
  unfold bz. intros H%N2Z.inj.
  apply (f_equal Byte.of_N) in H. rewrite !Byte.of_to_N in H. congruence.
Qed.

Lemma u8_bz b : u8 (bz b) = b.
Proof. apply bz_inj. rewrite bz_u8. apply Z.mod_small, bz_range. Qed.

Lemma bz_u8_small v : 0 <= v < 256 -> bz (u8 v) = v.
Proof. intros H. rewrite bz_u8. by apply Z.mod_small. Qed.

(** Bitwise operators on [u8]. *)
Definition bxor (a b : byte) : byte := u8 (Z.lxor (bz a) (bz b)).
Definition bor (a b : byte) : byte := u8 (Z.lor (bz a) (bz b)).

Lemma bz_testbit_high b i : 8 <= i -> Z.testbit (bz b) i = false.
Proof.
  intros Hi. pose proof (bz_range b).
  destruct (decide (bz b = 0)) as [->|]; [apply Z.bits_0|].
  apply Z.bits_above_log2; [lia|].
  apply Z.log2_lt_pow2; [lia|].
  assert (2 ^ 8 <= 2 ^ i) by (apply Z.pow_le_mono_r; lia). lia.
Qed.

Lemma testbit_high_bound v n :
  0 <= v -> 0 <= n -> (forall i, n <= i -> Z.testbit v i = false) -> v < 2 ^ n.
Proof.
  intros Hv Hn H. destruct (decide (v = 0)) as [->|]; [apply Z.pow_pos_nonneg; lia|].
  apply Z.log2_lt_pow2; [lia|].
  destruct (Z.lt_ge_cases (Z.log2 v) n) as [|Hge]; [done|].
  specialize (H _ Hge). rewrite Z.bit_log2 in H by lia. done.
Qed.

Lemma bz_bxor a b : bz (bxor a b) = Z.lxor (bz a) (bz b).
Proof.
  unfold bxor. apply bz_u8_small. pose proof (bz_range a). pose proof (bz_range b).
  assert (0 <= Z.lxor (bz a) (bz b)) by (apply Z.lxor_nonneg; lia).
  split; [done|]. apply (testbit_high_bound _ 8); [done|lia|].
  intros i Hi. by rewrite Z.lxor_spec, !bz_testbit_high.
Qed.

Lemma bz_bor a b : bz (bor a b) = Z.lor (bz a) (bz b).
Proof.
  unfold bor. apply bz_u8_small. pose proof (bz_range a). pose proof (bz_range b).
  assert (0 <= Z.lor (bz a) (bz b)) by (apply Z.lor_nonneg; lia).
  split; [done|]. apply (testbit_high_bound _ 8); [done|lia|].
  intros i Hi. by rewrite Z.lor_spec, !bz_testbit_high.
Qed.

Lemma bxor_cancel a k : bxor (bxor a k) k = a.
Proof.
  apply bz_inj. rewrite !bz_bxor.
  by rewrite Z.lxor_assoc, Z.lxor_nilpotent, Z.lxor_0_r.
Qed.

(** ** Byte buffers ([bytes::Buf], [BytesMut], slices) *)

(** The length of a slice as a [usize]. *)
Definition zlen {A} (l : list A) : Z := Z.of_nat (length l).

(** [&l[..n]], [&l[n..]] and [l[n]]; all panic out of range. *)
Definition slice_to {A} (l : list A) (n : Z) : result (list A) :=
  if zlen l <? n then Panic "range end index out of range"
  else Ok (take (Z.to_nat n) l).
Definition slice_from {A} (l : list A) (n : Z) : result (list A) :=
  if zlen l <? n then Panic "range start index out of range"
  else Ok (drop (Z.to_nat n) l).
Definition index {A} (l : list A) (n : Z) : result A :=
  match l !! Z.to_nat n with
  | Some a => Ok a
  | None => Panic "index out of bounds"
  end.

(** Big-endian integers: [BufMut::put_u16/u32/u64] append [be_encode n v]. *)
Fixpoint be_encode (n : nat) (v : Z) : list byte :=
  match n with
  | O => []
  | S n' => u8 (Z.shiftr v (8 * Z.of_nat n')) :: be_encode n' v
  end.
Definition be_decode (l : list byte) : Z :=
  foldl (fun acc b => acc * 256 + bz b) 0 l.

(** [Buf::get_u8] and [Buf::get_u16/u32/u64]: panic on a short buffer. *)
Definition get_u8 (buf : list byte) : result (byte * list byte) :=
  match buf with
  | b :: rest => Ok (b, rest)
  | [] => Panic "advance out of bounds"
  end.
Definition get_be (n : nat) (buf : list byte) : result (Z * list byte) :=
  if (length buf <? n)%nat then Panic "advance out of bounds"
  else Ok (be_decode (take n buf), drop n buf).

(** [RngCore::fill_bytes] on a buffer of [n] bytes, drawn from the random
    source [rnd]. *)
Definition fill_bytes (rnd : nat -> byte) (n : nat) : list byte :=
  map rnd (seq 0 n).

Lemma length_fill_bytes rnd n : length (fill_bytes rnd n) = n.
Proof. unfold fill_bytes. by rewrite length_map, length_seq. Qed.

Lemma zlen_nonneg {A} (l : list A) : 0 <= zlen l.
Proof. unfold zlen. lia. Qed.

Lemma zlen_app {A} (l k : list A) : zlen (l ++ k) = zlen l + zlen k.
Proof. unfold zlen. rewrite length_app. lia. Qed.

Lemma zlen_cons {A} (x : A) (l : list A) : zlen (x :: l) = 1 + zlen l.
Proof. unfold zlen. simpl. lia. Qed.

Lemma zlen_nil {A} : zlen (@nil A) = 0.
Proof. done. Qed.

Lemma zlen_fill_bytes rnd n : zlen (fill_bytes rnd n) = Z.of_nat n.
Proof. unfold zlen. by rewrite length_fill_bytes. Qed.

Lemma zlen_drop {A} (l : list A) n :
  0 <= n <= zlen l -> zlen (drop (Z.to_nat n) l) = zlen l - n.
Proof. unfold zlen. rewrite length_drop. lia. Qed.

Lemma zlen_take {A} (l : list A) n :
  0 <= n <= zlen l -> zlen (take (Z.to_nat n) l) = n.
Proof. unfold zlen. rewrite length_take. lia. Qed.

Lemma slice_to_ok {A} (l : list A) n :
  n <= zlen l -> slice_to l n = Ok (take (Z.to_nat n) l).
Proof. intros H. unfold slice_to. by rewrite (proj2 (Z.ltb_ge _ _) H). Qed.

Lemma slice_from_ok {A} (l : list A) n :
  n <= zlen l -> slice_from l n = Ok (drop (Z.to_nat n) l).
Proof. intros H. unfold slice_from. by rewrite (proj2 (Z.ltb_ge _ _) H). Qed.

Lemma slice_to_app {A} (l k : list A) : slice_to (l ++ k) (zlen l) = Ok l.
Proof.
  rewrite slice_to_ok by (rewrite zlen_app; pose proof (zlen_nonneg k); lia).
  unfold zlen. by rewrite Nat2Z.id, take_app_length.
Qed.

Lemma slice_from_app {A} (l k : list A) : slice_from (l ++ k) (zlen l) = Ok k.
Proof.
  rewrite slice_from_ok by (rewrite zlen_app; pose proof (zlen_nonneg k); lia).
  unfold zlen. by rewrite Nat2Z.id, drop_app_length.
Qed.

Lemma slice_to_app_eq {A} (l k : list A) n : zlen l = n -> slice_to (l ++ k) n = Ok l.
Proof. intros <-. apply slice_to_app. Qed.

Lemma slice_from_app_eq {A} (l k : list A) n : zlen l = n -> slice_from (l ++ k) n = Ok k.
Proof. intros <-. apply slice_from_app. Qed.

Lemma index_lookup {A} (l : list A) n :
  0 <= n < zlen l -> exists a, index l n = Ok a /\ l !! Z.to_nat n = Some a.
Proof.
  intros H. unfold index, zlen in *.
  destruct (lookup_lt_is_Some_2 l (Z.to_nat n)) as [a Ha]; [lia|].
  exists a. by rewrite Ha.
Qed.

Lemma index_app {A} (l k : list A) (x : A) : index (l ++ x :: k) (zlen l) = Ok x.
Proof. unfold index, zlen. by rewrite Nat2Z.id, list_lookup_middle. Qed.

Lemma length_be_encode n v : length (be_encode n v) = n.
Proof. induction n; simpl; congruence. Qed.

Lemma foldl_be_encode n v acc :
  foldl (fun acc b => acc * 256 + bz b) acc (be_encode n v)
  = acc * 2 ^ (8 * Z.of_nat n) + v `mod` 2 ^ (8 * Z.of_nat n).
Proof.
  revert acc. induction n as [|n IH]; intros acc; simpl.
  { rewrite Z.mod_1_r. lia. }
  rewrite IH, bz_u8, Z.shiftr_div_pow2 by lia.
  replace (8 * Z.of_nat (S n)) with (8 * Z.of_nat n + 8) by lia.
  rewrite Z.pow_add_r by lia. change (2 ^ 8) with 256.
  set (p := 2 ^ (8 * Z.of_nat n)).
  assert (0 < p) by (apply Z.pow_pos_nonneg; lia).
  rewrite Z.rem_mul_r by lia. ring.
Qed.

Lemma be_decode_encode n v :
  0 <= v < 2 ^ (8 * Z.of_nat n) -> be_decode (be_encode n v) = v.
Proof.
  intros H. unfold be_decode. rewrite foldl_be_encode, Z.mod_small by done. lia.
Qed.

Lemma get_be_encode n v rest :
  0 <= v < 2 ^ (8 * Z.of_nat n) ->
  get_be n (be_encode n v ++ rest) = Ok (v, rest).
Proof.
  intros H. unfold get_be.
  rewrite (proj2 (Nat.ltb_ge _ _)) by (rewrite length_app, length_be_encode; lia).
  rewrite <-(length_be_encode n v) at 1 3.
  by rewrite take_app_length, drop_app_length, be_decode_encode.
Qed.

#[global] Arguments be_encode : simpl never.
#[global] Arguments be_decode : simpl never.
#[global] Arguments get_be : simpl never.
#[global] Arguments fill_bytes : simpl never.

Lemma get_be_ok n buf :
  (n <= length buf)%nat -> get_be n buf = Ok (be_decode (take n buf), drop n buf).
Proof. intros H. unfold get_be. by rewrite (proj2 (Nat.ltb_ge _ _)). Qed.

(** ** Text *)

(** A Rust [str] is a byte sequence that is valid UTF-8; string literals
    become their bytes. *)
Definition str (s : string) : list byte := String.list_byte_of_string s.

Definition in_range (lo hi : Z) (b : byte) : bool := (lo <=? bz b) && (bz b <=? hi).
Definition utf8_cont (b : byte) : bool := in_range 128 191 b.

(** Validity as [std::str::from_utf8] decides it: no overlong forms, no
    surrogates, nothing above U+10FFFF. *)
Fixpoint utf8_valid (l : list byte) : bool :=
  match l with
  | [] => true
  | b0 :: l1 =>
    if bz b0 <? 128 then utf8_valid l1
    else match l1 with
    | [] => false
    | b1 :: l2 =>
      if in_range 194 223 b0 then utf8_cont b1 && utf8_valid l2
      else match l2 with
      | [] => false
      | b2 :: l3 =>
        if in_range 224 239 b0 then
          (if bz b0 =? 224 then in_range 160 191 b1
           else if bz b0 =? 237 then in_range 128 159 b1
           else utf8_cont b1) && utf8_cont b2 && utf8_valid l3
        else match l3 with
        | [] => false
        | b3 :: l4 =>
          if in_range 240 244 b0 then
            (if bz b0 =? 240 then in_range 144 191 b1
             else if bz b0 =? 244 then in_range 128 143 b1
             else utf8_cont b1) && utf8_cont b2 && utf8_cont b3 && utf8_valid l4
          else false
        end
      end
    end
  end.

Definition from_utf8 (l : list byte) : result (list byte) :=
  if utf8_valid l then Ok l else Err "invalid utf-8".

Lemma utf8_ascii l : Forall (fun b => bz b < 128) l -> utf8_valid l = true.
Proof.
  induction 1 as [|b l Hb _ IH]; [done|]. cbn [utf8_valid]. by rewrite (proj2 (Z.ltb_lt _ _) Hb).
Qed.

Lemma from_utf8_valid l : utf8_valid l = true -> from_utf8 l = Ok l.
Proof. unfold from_utf8. by intros ->. Qed.

(** ** Automation *)

(** Case analysis on the scrutinee of the leftmost blocking match, keeping the
    equation, then cleanup. *)
Ltac case_step :=
  match goal with
  | H : context [match ?x with _ => _ end] |- _ =>
      lazymatch x with context [match _ with _ => _ end] => fail | _ => idtac end;
      destruct x eqn:?; simplify_eq/=
  | |- context [match ?x with _ => _ end] =>
      lazymatch x with context [match _ with _ => _ end] => fail | _ => idtac end;
      destruct x eqn:?; simplify_eq/=
  end.

(** Turn the boolean tests of the code into propositions. *)
Ltac bool_props :=
  repeat match goal with
  | H : (_ <? _)%Z = true |- _ => apply Z.ltb_lt in H
  | H : (_ <? _)%Z = false |- _ => apply Z.ltb_ge in H
  | H : (_ <=? _)%Z = true |- _ => apply Z.leb_le in H
  | H : (_ <=? _)%Z = false |- _ => apply Z.leb_gt in H
  | H : (_ =? _)%Z = true |- _ => apply Z.eqb_eq in H
  | H : (_ =? _)%Z = false |- _ => apply Z.eqb_neq in H
  | H : (_ <? _)%nat = true |- _ => apply Nat.ltb_lt in H
  | H : (_ <? _)%nat = false |- _ => apply Nat.ltb_ge in H
  | H : (_ && _)%bool = true |- _ => apply andb_true_iff in H as [? ?]
  | H : negb _ = true |- _ => apply negb_true_iff in H
  | H : negb _ = false |- _ => apply negb_false_iff in H
  end.

Create HintDb rsbox discriminated.
#[export] Hint Resolve bz_range zlen_nonneg length_be_encode length_fill_bytes : rsbox.
Create Rewrite HintDb rsbox_len.
#[export] Hint Rewrite @zlen_app @zlen_cons @zlen_nil length_be_encode
  length_fill_bytes : rsbox_len.

(** ** Lists *)

Lemma zip_fmap_snd {A B C} (f : B -> C) (l : list A) (k : list B) :
  zip l (f <$> k) = prod_map id f <$> zip l k.
Proof. revert k. induction l as [|x l IH]; intros [|y k]; [done..|]. simpl. by rewrite IH. Qed.

(** ** Bit packing *)

Lemma testbit_above x k i : 0 <= x < 2 ^ k -> k <= i -> Z.testbit x i = false.
Proof.
  intros Hx Hi. destruct (decide (x = 0)) as [->|]; [apply Z.bits_0|].
  destruct (decide (k < 0)); [rewrite Z.pow_neg_r in Hx; lia|].
  apply Z.bits_above_log2; [lia|].
  assert (Z.log2 x < k) by (apply Z.log2_lt_pow2; lia). lia.
Qed.

(** Disjoint fields: or-ing a low field into a shifted high one adds them. *)
Lemma lor_shiftl_add t x k :
  0 <= k -> 0 <= x < 2 ^ k -> Z.lor (Z.shiftl t k) x = t * 2 ^ k + x.
Proof.
  intros Hk Hx.
  assert (Hd : Z.land (Z.shiftl t k) x = 0).
  { apply Z.bits_inj'. intros i Hi. rewrite Z.land_spec, Z.bits_0.
    destruct (Z.lt_ge_cases i k).
    - by rewrite Z.shiftl_spec_low.
    - rewrite (testbit_above x k) by lia. apply andb_false_r. }
  rewrite <-Z.shiftl_mul_pow2, Z.add_nocarry_lxor, Z.lxor_lor by done. done.
Qed.

Lemma lor_high_low t x k :
  0 <= k -> 0 <= x < 2 ^ k -> Z.lor x (t * 2 ^ k) = t * 2 ^ k + x.
Proof.
  intros Hk Hx. rewrite <-(lor_shiftl_add t x k), Z.shiftl_mul_pow2 by done.
  apply Z.lor_comm.
Qed.
