(* ===== verification/Json.v ===== *)
(** * JSON configuration values

    The part of [serde_json::Value] the configuration code reads: constructors,
    [get] on objects and the [as_*] accessors.  Text is UTF-8 bytes. *)
From stdpp Require Import base tactics list strings.
From Stdlib Require Import ZArith.
From Stdlib Require Import Strings.Byte Floats.SpecFloat.
From S2P Require Import Prelude.

Local Open Scope Z_scope.

(** [serde_json::Number]: a non-negative integer, a negative integer or a
    double. *)
Inductive Number :=
| PosInt (n : Z)
| NegInt (n : Z)
| Float (f : spec_float).

#[warnings="-register-all"]
Inductive Value :=
| Null
| Bool (b : bool)
| Num (n : Number)
| Str (s : list byte)
| Array (l : list Value)
| Object (fields : list (list byte * Value)).

Fixpoint assoc {A} (k : list byte) (l : list (list byte * A)) : option A :=
  match l with
  | [] => None
  | (k', v) :: l' => if bool_decide (k' = k) then Some v else assoc k l'
  end.

(** [Value::get] with a string index: [None] unless an object has the key. *)
Definition get (v : Value) (k : string) : option Value :=
  match v with
  | Object fields => assoc (str k) fields
  | _ => None
  end.

Definition as_str (v : Value) : option (list byte) :=
  match v with Str s => Some s | _ => None end.
Definition as_bool (v : Value) : option bool :=
  match v with Bool b => Some b | _ => None end.
Definition as_u64 (v : Value) : option Z :=
  match v with Num (PosInt n) => Some n | _ => None end.
Definition as_array (v : Value) : option (list Value) :=
  match v with Array l => Some l | _ => None end.
Definition as_object (v : Value) : option Value :=
  match v with Object _ => Some v | _ => None end.

(** [Option::or_else] and [Option::unwrap_or]. *)
Definition or_else {A} (a b : option A) : option A :=
  match a with Some x => Some x | None => b end.

(** [str::to_ascii_lowercase]. *)
Definition lower_byte (b : byte) : byte :=
  if in_range 65 90 b then u8 (bz b + 32) else b.
Definition to_ascii_lowercase (s : list byte) : list byte := map lower_byte s.

(** ** Doubles *)

(** [n as f64] for an integer, [f64 * f64] (binary64, round to nearest even)
    and the saturating cast [as u64]. *)
Definition f64_of_Z (n : Z) : spec_float := binary_normalize 53 1024 n 0 false.
Definition f64_mul : spec_float -> spec_float -> spec_float := SFmul 53 1024.
Definition f64_to_u64 (f : spec_float) : Z :=
  match f with
  | S754_finite false m e =>
      Z.min u64_max (if 0 <=? e then Zpos m * 2 ^ e else Zpos m / 2 ^ (- e))
  | S754_infinity false => u64_max
  | _ => 0
  end.

(** [Value::as_f64]. *)
Definition as_f64 (v : Value) : option spec_float :=
  match v with
  | Num (PosInt n) | Num (NegInt n) => Some (f64_of_Z n)
  | Num (Float f) => Some f
  | _ => None
  end.

(** [Map::insert] and [Map::remove] of an object. *)
Fixpoint set_assoc {A} (k : list byte) (v : A) (l : list (list byte * A)) : list (list byte * A) :=
  match l with
  | [] => [(k, v)]
  | (k', v') :: l => if bool_decide (k' = k) then (k, v) :: l else (k', v') :: set_assoc k v l
  end.
Fixpoint del_assoc {A} (k : list byte) (l : list (list byte * A)) : list (list byte * A) :=
  match l with
  | [] => []
  | (k', v') :: l => if bool_decide (k' = k) then l else (k', v') :: del_assoc k l
  end.

Lemma assoc_set {A} k (v : A) l : assoc k (set_assoc k v l) = Some v.
Proof.
  induction l as [|[k' v'] l IH]; cbn [set_assoc assoc]; [by rewrite bool_decide_eq_true_2|]. case_bool_decide as E; cbn [assoc].
  - by rewrite bool_decide_eq_true_2.
  - by rewrite bool_decide_eq_false_2.
Qed.
Lemma assoc_set_ne {A} k k' (v : A) l : k <> k' -> assoc k' (set_assoc k v l) = assoc k' l.
Proof.
  intros Hne. induction l as [|[q w] l IH]; cbn [set_assoc assoc]; [by rewrite bool_decide_eq_false_2|].
  destruct (bool_decide (q = k)) eqn:E; cbn [assoc].
  - apply bool_decide_eq_true in E as ->. by rewrite !(bool_decide_eq_false_2 (k = k')).
  - by rewrite IH.
Qed.
