(* ===== verification/Text.v ===== *)
(** * Text and addresses of the Rust standard library

    What the routing and configuration code uses of [core::str] and [core::net]:
    searching, splitting and trimming UTF-8 text, decimal parsing, and the
    parser and printer of IP addresses.  Text is UTF-8 bytes. *)
From stdpp Require Import base tactics list strings.
From Stdlib Require Import ZArith Lia.
From Stdlib Require Import Strings.Byte.
From S2P Require Import Prelude Json.

Local Open Scope Z_scope.

(** ** Searching and splitting *)

(** [str::starts_with], [str::ends_with] and [str::contains]. *)
Fixpoint starts_with (s pat : list byte) : bool :=
  match pat, s with
  | [], _ => true
  | _ :: _, [] => false
  | p :: pat', c :: s' => bool_decide (p = c) && starts_with s' pat'
  end.
Definition ends_with (s pat : list byte) : bool := starts_with (rev s) (rev pat).
Fixpoint contains (s pat : list byte) : bool :=
  starts_with s pat ||
  match s with
  | [] => false
  | _ :: s' => contains s' pat
  end.

(** [str::split_once] and [str::rsplit_once] at an ASCII character. *)
Fixpoint split_once (c : byte) (s : list byte) : option (list byte * list byte) :=
  match s with
  | [] => None
  | b :: s' =>
      if bool_decide (b = c) then Some ([], s')
      else prod_map (cons b) id <$> split_once c s'
  end.
Fixpoint rsplit_once (c : byte) (s : list byte) : option (list byte * list byte) :=
  match s with
  | [] => None
  | b :: s' =>
      match rsplit_once c s' with
      | Some (l, r) => Some (b :: l, r)
      | None => if bool_decide (b = c) then Some ([], s') else None
      end
  end.

(** [str::split] at an ASCII character: always at least one piece. *)
Fixpoint split (c : byte) (s : list byte) : list (list byte) :=
  match s with
  | [] => [[]]
  | b :: s' =>
      if bool_decide (b = c) then [] :: split c s'
      else match split c s' with
           | [] => [[b]]
           | p :: ps => (b :: p) :: ps
           end
  end.

(** [str::trim_start_matches] with an ASCII character. *)
Fixpoint trim_start_matches (c : byte) (s : list byte) : list byte :=
  match s with
  | [] => []
  | b :: s' => if bool_decide (b = c) then trim_start_matches c s' else s
  end.

(** The encodings of the characters with the Unicode property White_Space. *)
Definition white_space : list (list byte) :=
  [[x09]; [x0a]; [x0b]; [x0c]; [x0d]; [x20]; [xc2; x85]; [xc2; xa0];
   [xe1; x9a; x80]] ++
  map (fun b => [xe2; x80; b])
    [x80; x81; x82; x83; x84; x85; x86; x87; x88; x89; x8a; xa8; xa9; xaf] ++
  [[xe2; x81; x9f]; [xe3; x80; x80]].

(** One space character taken off the front, if there is one. *)
Fixpoint strip_one (seqs : list (list byte)) (s : list byte) : option (list byte) :=
  match seqs with
  | [] => None
  | w :: ws => if starts_with s w then Some (drop (length w) s) else strip_one ws s
  end.
Fixpoint strip_all (seqs : list (list byte)) (fuel : nat) (s : list byte) : list byte :=
  match fuel with
  | O => s
  | S fuel' =>
      match strip_one seqs s with
      | Some s' => strip_all seqs fuel' s'
      | None => s
      end
  end.
Definition trim_start (s : list byte) : list byte := strip_all white_space (length s) s.
Definition trim_end (s : list byte) : list byte :=
  rev (strip_all (map (@rev byte) white_space) (length s) (rev s)).
Definition trim (s : list byte) : list byte := trim_end (trim_start s).

(** [str::lines]: pieces between line feeds, a carriage return before the feed
    dropped, and no empty piece after a final feed. *)
Fixpoint lines_go (acc s : list byte) : list (list byte) :=
  match s with
  | [] => match acc with [] => [] | _ => [rev acc] end
  | b :: s' =>
      if bool_decide (b = x0a) then
        rev (match acc with
             | c :: acc' => if bool_decide (c = x0d) then acc' else acc
             | [] => []
             end) :: lines_go [] s'
      else lines_go (b :: acc) s'
  end.
Definition lines (s : list byte) : list (list byte) := lines_go [] s.

Definition eq_ignore_ascii_case (a b : list byte) : bool :=
  bool_decide (to_ascii_lowercase a = to_ascii_lowercase b).

Definition is_ascii_digit (b : byte) : bool := in_range 48 57 b.

(** [Path::file_name] on Unix: the last component, when it is a name. *)
Definition file_name (path : list byte) : option (list byte) :=
  match last (List.filter (fun c => negb (bool_decide (c = [])) && negb (bool_decide (c = [x2e])))
               (split x2f path)) with
  | Some c => if bool_decide (c = [x2e; x2e]) then None else Some c
  | None => None
  end.

(** ** Numbers *)

(** [char::to_digit]. *)
Definition to_digit (radix : Z) (b : byte) : option Z :=
  let d := if in_range 48 57 b then Some (bz b - 48)
           else if in_range 97 122 b then Some (bz b - 87)
           else if in_range 65 90 b then Some (bz b - 55)
           else None in
  match d with
  | Some v => if v <? radix then Some v else None
  | None => None
  end.

(** [<uN>::from_str]: an optional plus sign, then one or more digits, below
    [2 ^ w]. *)
Fixpoint parse_digits (w acc : Z) (s : list byte) : option Z :=
  match s with
  | [] => Some acc
  | b :: s' =>
      match to_digit 10 b with
      | None => None
      | Some d => let acc := acc * 10 + d in
          if acc <? 2 ^ w then parse_digits w acc s' else None
      end
  end.
Definition parse_uint (w : Z) (s : list byte) : option Z :=
  match s with
  | [] => None
  | [b] => if bool_decide (b = x2b) || bool_decide (b = x2d) then None
           else parse_digits w 0 s
  | b :: s' => if bool_decide (b = x2b) then parse_digits w 0 s' else parse_digits w 0 s
  end.

(** Decimal and hexadecimal [Display] of unsigned integers. *)
Definition digit_char (d : Z) : byte := u8 (if d <? 10 then 48 + d else 87 + d).
Fixpoint digits_go (radix : Z) (fuel : nat) (v : Z) (acc : list byte) : list byte :=
  match fuel with
  | O => acc
  | S fuel' =>
      let acc := digit_char (v `mod` radix) :: acc in
      if v <? radix then acc else digits_go radix fuel' (v / radix) acc
  end.
Definition show_uint (v : Z) : list byte := digits_go 10 40 v [].
Definition show_hex (v : Z) : list byte := digits_go 16 40 v [].

(** ** Laws of splitting *)

Lemma split_once_Some c s l r : split_once c s = Some (l, r) -> s = l ++ c :: r /\ c ∉ l.
Proof.
  revert l. induction s as [|b s IH]; intros l H; [done|]. simpl in H. case_bool_decide.
  - simplify_eq. split; [done|apply not_elem_of_nil].
  - destruct (split_once c s) as [[l' r']|]; simplify_eq/=.
    destruct (IH l' eq_refl) as [-> Hn]. split; [done|].
    rewrite not_elem_of_cons. split; [by intros ->|done].
Qed.

Lemma split_once_None c s : split_once c s = None -> c ∉ s.
Proof.
  induction s as [|b s IH]; intros H; [apply not_elem_of_nil|]. simpl in H. case_bool_decide; [done|].
  destruct (split_once c s) as [[l' r']|]; [done|].
  rewrite not_elem_of_cons. split; [by intros ->|by apply IH].
Qed.

Lemma split_once_app c l r : c ∉ l -> split_once c (l ++ c :: r) = Some (l, r).
Proof.
  induction l as [|b l IH]; simpl; intros Hn; [by rewrite bool_decide_eq_true_2|].
  apply not_elem_of_cons in Hn as [? ?]. by rewrite bool_decide_eq_false_2, IH by done.
Qed.

Lemma starts_with_spec s pat : starts_with s pat = true <-> exists t, s = pat ++ t.
Proof.
  revert s. induction pat as [|p pat IH]; intros s; simpl.
  { destruct s as [|c s]; (split; [intros _; by eexists|done]). }
  destruct s as [|c s]; [split; [done|by intros [t Ht]]|].
  cbn [starts_with]. rewrite andb_true_iff, bool_decide_eq_true, IH. split.
  - intros [-> [t ->]]. by exists t.
  - intros [t Ht]. simplify_eq/=. split; [done|by exists t].
Qed.

Lemma contains_spec s pat : contains s pat = true <-> exists l r, s = l ++ pat ++ r.
Proof.
  induction s as [|c s IH]; cbn [contains]; rewrite orb_true_iff, starts_with_spec.
  - split; [intros [[t Ht]|]; [by exists [], t|done]|].
    intros (l & r & Heq). left. symmetry in Heq.
    apply app_nil in Heq as [-> Heq]. by exists r.
  - rewrite IH. split.
    + intros [[t ->]|(l & r & ->)]; [by exists [], t|by exists (c :: l), r].
    + intros ([|c' l] & r & Heq); [left; by exists r|right].
      simplify_eq/=. by exists l, r.
Qed.

(** ** Trimming and lines of printable ASCII text *)

Definition printable (b : byte) : Prop := 33 <= bz b <= 126.

Lemma strip_one_printable seqs s : Forall printable s ->
  forallb (fun w => match w with b :: _ => negb (in_range 33 126 b) | [] => false end) seqs = true ->
  strip_one seqs s = None.
Proof.
  intros Hs. induction seqs as [|w seqs IH]; intros Hw; [done|]. simpl in *. bool_props.
  destruct w as [|b w]; [done|]. destruct (starts_with s (b :: w)) eqn:E; [|by apply IH].
  apply starts_with_spec in E as [t ->]. inversion_clear Hs as [|? ? Hb _].
  unfold printable in Hb. exfalso. revert H. unfold in_range.
  rewrite (proj2 (Z.leb_le _ _)), (proj2 (Z.leb_le _ _)) by lia. done.
Qed.

Lemma strip_all_printable seqs fuel s : Forall printable s ->
  forallb (fun w => match w with b :: _ => negb (in_range 33 126 b) | [] => false end) seqs = true ->
  strip_all seqs fuel s = s.
Proof. intros Hs Hw. destruct fuel; [done|]. simpl. by rewrite strip_one_printable. Qed.

Lemma trim_printable s : Forall printable s -> trim s = s.
Proof.
  intros Hs. unfold trim, trim_end, trim_start.
  rewrite (strip_all_printable white_space) by (done || by vm_compute).
  rewrite strip_all_printable; [by rewrite rev_involutive| |by vm_compute].
  by apply Forall_rev.
Qed.

Lemma lines_go_single s : Forall printable s -> forall acc, acc <> [] \/ s <> [] ->
  lines_go acc s = [rev acc ++ s].
Proof.
  induction 1 as [|b s Hb Hs IH]; intros acc Hn; simpl.
  { destruct acc; [naive_solver|]. by rewrite app_nil_r. }
  rewrite bool_decide_eq_false_2 by (intros ->; by destruct Hb).
  rewrite IH by (by left). simpl. by rewrite <-app_assoc.
Qed.

Lemma lines_single s : Forall printable s -> s <> [] -> lines s = [s].
Proof. intros Hs Hn. apply (lines_go_single s Hs []). by right. Qed.

(** ** Text patterns *)

(** [str::strip_prefix] and [str::split_once] with a text pattern. *)
Definition strip_prefix (s pat : list byte) : option (list byte) :=
  if starts_with s pat then Some (drop (length pat) s) else None.
Fixpoint split_once_str (pat s : list byte) : option (list byte * list byte) :=
  if starts_with s pat then Some ([], drop (length pat) s)
  else match s with
  | [] => None
  | b :: s' => prod_map (cons b) id <$> split_once_str pat s'
  end.

Lemma starts_with_app pat t : starts_with (pat ++ t) pat = true.
Proof. apply starts_with_spec. by exists t. Qed.

Lemma strip_prefix_app pat t : strip_prefix (pat ++ t) pat = Some t.
Proof. unfold strip_prefix. by rewrite starts_with_app, drop_app_length. Qed.

(** A first occurrence is found where the pattern cannot start earlier. *)
Lemma split_once_str_app pat l r : pat <> [] ->
  (forall i, (i < length l)%nat -> starts_with (drop i (l ++ pat ++ r)) pat = false) ->
  split_once_str pat (l ++ pat ++ r) = Some (l, r).
Proof.
  intros Hp. induction l as [|b l IH]; intros Hn.
  - destruct pat as [|p pat]; [done|]. cbn [app]. 
    assert (H : starts_with (p :: pat ++ r) (p :: pat) = true) by apply (starts_with_app (p :: pat)).
    cbn [split_once_str]. rewrite H. cbn [length drop]. by rewrite drop_app_length.
  - cbn [app split_once_str]. pose proof (Hn 0%nat ltac:(simpl; lia)) as H0. cbn [drop app] in H0.
    rewrite H0, IH; [done|]. intros i Hi. apply (Hn (S i)). simpl. lia.
Qed.

(** ** Numbers are read back *)

Definition is_digit (b : byte) : Prop := 48 <= bz b <= 57.

Lemma digit_char_digit d : 0 <= d < 10 -> is_digit (digit_char d) /\ to_digit 10 (digit_char d) = Some d.
Proof.
  intros Hd. unfold is_digit, to_digit, digit_char, in_range. rewrite (proj2 (Z.ltb_lt d 10)) by lia.
  rewrite bz_u8_small by lia. split; [lia|]. rewrite (proj2 (Z.leb_le 48 (48 + d))), (proj2 (Z.leb_le (48 + d) 57)) by lia.
  cbn [andb]. replace (48 + d - 48) with d by lia. by rewrite (proj2 (Z.ltb_lt d 10)) by lia.
Qed.

Lemma digits_go_digits fuel : forall v acc, 0 <= v -> Forall is_digit acc -> Forall is_digit (digits_go 10 fuel v acc).
Proof.
  induction fuel as [|fuel IH]; intros v acc Hv Ha; cbn [digits_go]; [done|].
  assert (Hd : Forall is_digit (digit_char (v `mod` 10) :: acc)).
  { constructor; [|done]. apply digit_char_digit, Z.mod_pos_bound. lia. }
  case_match; [done|]. apply IH; [apply Z.div_pos; lia|done].
Qed.
Lemma show_uint_digits v : 0 <= v -> Forall is_digit (show_uint v).
Proof. intros Hv. by apply digits_go_digits; [|constructor]. Qed.

Lemma digits_go_nonempty fuel v b acc : digits_go 10 fuel v (b :: acc) <> [].
Proof.
  revert v b acc. induction fuel as [|fuel IH]; intros v b acc; cbn [digits_go]; [done|].
  destruct (v <? 10); [done|]. apply IH.
Qed.
Lemma show_uint_nonempty v : show_uint v <> [].
Proof.
  unfold show_uint. change (digits_go 10 40 v [])
    with (if v <? 10 then [digit_char (v `mod` 10)] else digits_go 10 39 (v / 10) [digit_char (v `mod` 10)]).
  destruct (v <? 10); [done|]. apply digits_go_nonempty.
Qed.

Lemma parse_digits_go w fuel : forall v tail, 0 <= v < 10 ^ Z.of_nat fuel -> v < 2 ^ w ->
  fuel <> O -> parse_digits w 0 (digits_go 10 fuel v tail) = parse_digits w v tail.
Proof.
  induction fuel as [|fuel IH]; intros v tail Hv Hw Hf; [done|]. cbn [digits_go].
  pose proof (Z.mod_pos_bound v 10 ltac:(lia)) as Hm. pose proof (Z.div_mod v 10 ltac:(lia)) as Hdm.
  destruct (digit_char_digit (v `mod` 10) Hm) as [_ Hd].
  destruct (Z.ltb_spec v 10) as [Hlt|Hge].
  - cbn [parse_digits]. rewrite Hd. rewrite Z.mod_small in * by lia. cbn [Z.mul Z.add].
    by rewrite (proj2 (Z.ltb_lt _ _)) by lia.
  - rewrite Nat2Z.inj_succ, Z.pow_succ_r in Hv by lia.
    assert (Hq : 0 <= v / 10 < 10 ^ Z.of_nat fuel)
      by (split; [apply Z.div_pos; lia|apply Z.div_lt_upper_bound; lia]).
    destruct fuel as [|fuel]; [cbn in Hq; lia|].
    rewrite IH by (done || lia). cbn [parse_digits]. rewrite Hd.
    replace (v / 10 * 10 + v `mod` 10) with v by lia. by rewrite (proj2 (Z.ltb_lt _ _)) by lia.
Qed.

Lemma parse_show_uint w v : 0 <= v < 2 ^ w -> w <= 64 -> parse_uint w (show_uint v) = Some v.
Proof.
  intros Hv Hw. assert (2 ^ w <= 2 ^ 64) by (apply Z.pow_le_mono_r; lia).
  pose proof (show_uint_digits v ltac:(lia)) as Hd. pose proof (show_uint_nonempty v) as Hne.
  assert (Hp : parse_digits w 0 (show_uint v) = Some v).
  { unfold show_uint. rewrite parse_digits_go; [done| |lia|done]. split; [lia|].
    change (10 ^ Z.of_nat 40) with 10000000000000000000000000000000000000000.
    change (2 ^ 64) with 18446744073709551616 in *. lia. }
  destruct (show_uint v) as [|b s] eqn:E; [done|]. apply Forall_cons in Hd as [Hb _]. unfold is_digit in Hb.
  assert (b <> x2b /\ b <> x2d) as [H1 H2] by (split; intros ->; vm_compute in Hb; destruct Hb as [Hb _]; by destruct Hb).
  unfold parse_uint. destruct s; rewrite !bool_decide_eq_false_2 by done; done.
Qed.
