(* ===== verification/Ip.v ===== *)
(** * IP addresses

    [core::net]: addresses, the classification methods the code calls, and the
    standard library's parser and printer of textual addresses (reading functions
    take the remaining input and return it; [None] leaves the input untouched,
    as [Parser::read_atomically] does). *)
From stdpp Require Import base tactics list strings.
From Stdlib Require Import ZArith Lia.
From Stdlib Require Import Strings.Byte.
From S2P Require Import Prelude Json Text.

Local Open Scope Z_scope.

(** An address is its [u32] or [u128] value. *)
Inductive IpAddr :=
| V4 (a : Z)
| V6 (a : Z).

#[export] Instance ip_eq_dec : EqDecision IpAddr.
Proof. solve_decision. Defined.

Definition ip_wf (ip : IpAddr) : Prop :=
  match ip with
  | V4 a => 0 <= a < 2 ^ 32
  | V6 a => 0 <= a < 2 ^ 128
  end.

Record SocketAddr := mkSocketAddr {
  sa_ip : IpAddr;
  sa_port : Z;
}.

(** Octet [i] (from the left) of an address of [n] octets, and segment [i] of
    an IPv6 address. *)
Definition octet (n i a : Z) : Z := Z.land (Z.shiftr a (8 * (n - 1 - i))) 255.
Definition segment (i a : Z) : Z := Z.land (Z.shiftr a (16 * (7 - i))) 65535.
Definition octets4 (a : Z) : list Z := map (fun i => octet 4 i a) [0; 1; 2; 3].
Definition segments (a : Z) : list Z := map (fun i => segment i a) [0; 1; 2; 3; 4; 5; 6; 7].

Definition is_unspecified (ip : IpAddr) : bool :=
  match ip with V4 a => a =? 0 | V6 a => a =? 0 end.

(** [Ipv6Addr::to_ipv4_mapped]. *)
Definition to_ipv4_mapped (a : Z) : option Z :=
  if Z.shiftr a 32 =? 65535 then Some (Z.land a (2 ^ 32 - 1)) else None.

(** ** Parsing *)

Definition read_given_char (c : byte) (s : list byte) : option (list byte) :=
  match s with
  | b :: s' => if bool_decide (b = c) then Some s' else None
  | [] => None
  end.

Lemma read_given_char_hit c s : read_given_char c (c :: s) = Some s.
Proof. simpl. by rewrite bool_decide_eq_true_2. Qed.

(** The digit loop of [Parser::read_number]: stops at the first non-digit. *)
Fixpoint read_number_loop (radix max : Z) (max_digits : nat) (count : nat) (acc : Z)
    (s : list byte) : option (nat * Z * list byte) :=
  match s with
  | [] => Some (count, acc, [])
  | b :: s' =>
      match to_digit radix b with
      | None => Some (count, acc, s)
      | Some d =>
          let acc := acc * radix + d in
          if max <? acc then None
          else if (max_digits <? S count)%nat then None
          else read_number_loop radix max max_digits (S count) acc s'
      end
  end.
Definition read_number (radix max : Z) (max_digits : nat) (allow_zero_prefix : bool)
    (s : list byte) : option (Z * list byte) :=
  let has_leading_zero := match s with b :: _ => bool_decide (b = x30) | [] => false end in
  match read_number_loop radix max max_digits 0 0 s with
  | None => None
  | Some (count, v, rest) =>
      if (count =? 0)%nat then None
      else if negb allow_zero_prefix && has_leading_zero && (1 <? count)%nat then None
      else Some (v, rest)
  end.

(** [Parser::read_separator]. *)
Definition read_separator {A} (sep : byte) (index : nat)
    (inner : list byte -> option (A * list byte)) (s : list byte)
  : option (A * list byte) :=
  match index with
  | O => inner s
  | S _ => match read_given_char sep s with Some s' => inner s' | None => None end
  end.

Definition read_octet : list byte -> option (Z * list byte) := read_number 10 255 3 false.
Definition read_group : list byte -> option (Z * list byte) := read_number 16 65535 4 true.

Definition read_ipv4_addr (s : list byte) : option (Z * list byte) :=
  '(o0, s) ← read_separator x2e 0 read_octet s;
  '(o1, s) ← read_separator x2e 1 read_octet s;
  '(o2, s) ← read_separator x2e 2 read_octet s;
  '(o3, s) ← read_separator x2e 3 read_octet s;
  Some (((o0 * 256 + o1) * 256 + o2) * 256 + o3, s).

(** [read_groups] of [Parser::read_ipv6_addr] from slot [i] of [limit]: the
    groups read, whether they end in a dotted quad, and the rest. *)
Fixpoint read_groups (limit : nat) (i : nat) (fuel : nat) (s : list byte)
  : list Z * bool * list byte :=
  match fuel with
  | O => ([], false, s)
  | S fuel' =>
      let ipv4 := if (i <? limit - 1)%nat then read_separator x3a i read_ipv4_addr s else None in
      match ipv4 with
      | Some (v4, rest) => ([Z.shiftr v4 16; Z.land v4 65535], true, rest)
      | None =>
          match read_separator x3a i read_group s with
          | None => ([], false, s)
          | Some (g, rest) =>
              let '(gs, v4, rest) := read_groups limit (S i) fuel' rest in
              (g :: gs, v4, rest)
          end
      end
  end.

Definition of_segments (gs : list Z) : Z := foldl (fun acc g => acc * 65536 + g) 0 gs.

Definition read_ipv6_addr (s : list byte) : option (Z * list byte) :=
  let '(head, head_ipv4, s) := read_groups 8 0 8 s in
  if (length head =? 8)%nat then Some (of_segments head, s)
  else if (head_ipv4 : bool) then None
  else
    s ← read_given_char x3a s;
    s ← read_given_char x3a s;
    let limit := (8 - (length head + 1))%nat in
    let '(tail, _, s) := read_groups limit 0 limit s in
    Some (of_segments (head ++ replicate (8 - length head - length tail) 0 ++ tail), s).

(** [<IpAddr as FromStr>::from_str]. *)
Definition parse_ip (s : list byte) : option IpAddr :=
  let r := match read_ipv4_addr s with
    | Some (a, rest) => Some (V4 a, rest)
    | None => match read_ipv6_addr s with
      | Some (a, rest) => Some (V6 a, rest)
      | None => None
      end
    end in
  match r with
  | Some (ip, []) => Some ip
  | _ => None
  end.

(** ** Printing *)

(** Segments or octets separated by a character. *)
Fixpoint join (sep : byte) (l : list (list byte)) : list byte :=
  match l with
  | [] => []
  | [x] => x
  | x :: l' => x ++ sep :: join sep l'
  end.

Definition show_ipv4 (a : Z) : list byte := join x2e (map show_uint (octets4 a)).

(** The first longest run of zero segments: [(start, len)]. *)
Fixpoint zero_run (i : nat) (cur longest : nat * nat) (segs : list Z) : nat * nat :=
  match segs with
  | [] => longest
  | g :: segs' =>
      if g =? 0 then
        let cur := (if (cur.2 =? 0)%nat then i else cur.1, S cur.2) in
        zero_run (S i) cur (if (longest.2 <? cur.2)%nat then cur else longest) segs'
      else zero_run (S i) (0%nat, 0%nat) longest segs'
  end.

Definition show_ipv6 (a : Z) : list byte :=
  match to_ipv4_mapped a with
  | Some v4 => str "::ffff:" ++ show_ipv4 v4
  | None =>
      let segs := segments a in
      let '(start, len) := zero_run 0 (0%nat, 0%nat) (0%nat, 0%nat) segs in
      if (1 <? len)%nat then
        join x3a (map show_hex (take start segs)) ++ str "::"
          ++ join x3a (map show_hex (drop (start + len) segs))
      else join x3a (map show_hex segs)
  end.

Definition show_ip (ip : IpAddr) : list byte :=
  match ip with V4 a => show_ipv4 a | V6 a => show_ipv6 a end.

(** ** What is printed is parsed back *)

(** The next character, if any, is not a digit of the radix. *)
Definition stops (radix : Z) (rest : list byte) : Prop :=
  match rest with [] => True | b :: _ => to_digit radix b = None end.

Lemma read_number_loop_app radix max md rest s : stops radix rest ->
  forall count acc count' v,
  read_number_loop radix max md count acc s = Some (count', v, []) ->
  read_number_loop radix max md count acc (s ++ rest) = Some (count', v, rest).
Proof.
  intros Hstop. induction s as [|b s IH]; intros count acc count' v H.
  { simplify_eq/=. destruct rest; simpl; [done|]. simpl in Hstop. by rewrite Hstop. }
  simpl in *. repeat case_step; eauto.
Qed.

Lemma read_number_app radix max md z s rest v :
  stops radix rest -> read_number radix max md z s = Some (v, []) ->
  read_number radix max md z (s ++ rest) = Some (v, rest).
Proof.
  intros Hstop. unfold read_number.
  destruct (read_number_loop radix max md 0 0 s) as [[[c v'] r]|] eqn:E; [|done].
  destruct (c =? 0)%nat eqn:Ec; [done|]. intros H.
  assert (r = []) as -> by (repeat case_step; done).
  destruct s as [|b s]; [simplify_eq/=|].
  rewrite (read_number_loop_app _ _ _ rest _ Hstop _ _ _ _ E), Ec. simpl in *.
  repeat case_step; done.
Qed.

Fixpoint all_below (n : nat) (v : Z) (f : Z -> bool) : bool :=
  match n with O => true | S n' => f v && all_below n' (v + 1) f end.

Lemma all_below_spec (n : nat) (f : Z -> bool) lo :
  all_below n lo f = true -> forall v, lo <= v < lo + Z.of_nat n -> f v = true.
Proof.
  revert lo. induction n as [|n IH]; intros lo H v Hv; [lia|].
  simpl in H. bool_props. destruct (decide (v = lo)) as [->|]; [done|].
  apply (IH (lo + 1)); [done|lia].
Qed.

Lemma read_show_octet o : 0 <= o < 256 -> read_octet (show_uint o) = Some (o, []).
Proof.
  intros H.
  pose (f o := match read_octet (show_uint o) with Some (v, []) => v =? o | _ => false end).
  assert (Hf : f o = true) by (apply (all_below_spec 256 f 0); [by vm_compute|lia]).
  unfold f in Hf. destruct (read_octet (show_uint o)) as [[v [|]]|]; [|done..].
  apply Z.eqb_eq in Hf. by subst.
Qed.

Definition hex_check (g : Z) : bool :=
  match read_group (show_hex g) with
  | Some (v, []) => (v =? g) && forallb (in_range 48 102) (show_hex g)
  | _ => false
  end.

Lemma hex_check_all : all_below (256 * 256) 0 hex_check = true.
Proof. vm_cast_no_check (eq_refl true). Qed.

Lemma show_hex_checks g : 0 <= g < 65536 ->
  read_group (show_hex g) = Some (g, []) /\
  Forall (fun b => 48 <= bz b <= 102) (show_hex g) /\ show_hex g <> [].
Proof.
  intros H. pose proof (all_below_spec _ _ _ hex_check_all g H) as Hc.
  unfold hex_check in Hc.
  destruct (read_group (show_hex g)) as [[v [|]]|] eqn:E; [|done..].
  bool_props. subst v. split_and!; [done| |by intros Hn; rewrite Hn in E].
  apply Forall_forall. intros b Hb%list_elem_of_In. eapply forallb_forall in Hb; [|done].
  unfold in_range in Hb. bool_props. lia.
Qed.

Lemma read_octet_app o rest : 0 <= o < 256 -> stops 10 rest ->
  read_octet (show_uint o ++ rest) = Some (o, rest).
Proof. intros. by apply read_number_app, read_show_octet. Qed.

Lemma read_group_app g rest : 0 <= g < 65536 -> stops 16 rest ->
  read_group (show_hex g ++ rest) = Some (g, rest).
Proof. intros. by apply read_number_app, show_hex_checks. Qed.

Lemma land_ones_mod x k : 0 <= k -> Z.land x (2 ^ k - 1) = x `mod` 2 ^ k.
Proof. intros H. rewrite <-Z.land_ones by done. by rewrite Z.ones_equiv. Qed.

Lemma octet_range n i a : 0 <= octet n i a < 256.
Proof.
  unfold octet. change 255 with (2 ^ 8 - 1). rewrite land_ones_mod by lia.
  apply Z.mod_pos_bound. lia.
Qed.

Lemma octet_div n i a : 0 <= n - 1 - i -> octet n i a = (a / 2 ^ (8 * (n - 1 - i))) `mod` 256.
Proof.
  intros H. unfold octet. change 255 with (2 ^ 8 - 1).
  by rewrite land_ones_mod, Z.shiftr_div_pow2 by lia.
Qed.

Lemma segment_div i a : i <= 7 -> segment i a = (a / 2 ^ (16 * (7 - i))) `mod` 65536.
Proof.
  intros H. unfold segment. change 65535 with (2 ^ 16 - 1).
  by rewrite land_ones_mod, Z.shiftr_div_pow2 by lia.
Qed.

Lemma segments_range a : Forall (fun g => 0 <= g < 65536) (segments a).
Proof.
  unfold segments. simpl.
  repeat constructor; rewrite segment_div by lia; apply Z.mod_pos_bound; lia.
Qed.

Lemma octets4_value a : 0 <= a < 2 ^ 32 ->
  ((octet 4 0 a * 256 + octet 4 1 a) * 256 + octet 4 2 a) * 256 + octet 4 3 a = a.
Proof.
  intros H. rewrite !octet_div by lia. simpl.
  change (2 ^ 24) with 16777216. change (2 ^ 16) with 65536. change (2 ^ 8) with 256.
  change (2 ^ 0) with 1. change (2 ^ 32) with 4294967296 in H.
  Z.to_euclidean_division_equations. lia.
Qed.

Lemma of_segments_value a : 0 <= a < 2 ^ 128 -> of_segments (segments a) = a.
Proof.
  intros H. unfold of_segments, segments. cbn [map foldl].
  rewrite !segment_div by lia. set (q k := a / 2 ^ k).
  assert (Hs : forall k k', 0 <= k -> k' = k + 16 -> q k = q k' * 65536 + q k `mod` 65536).
  { intros k k' Hk ->. unfold q. rewrite Z.pow_add_r, <-Z.div_div by lia.
    change (2 ^ 16) with 65536. rewrite Z.mul_comm. apply Z.div_mod. lia. }
  assert (q 0 = a) by (unfold q; apply Z.div_1_r).
  assert (q 128 = 0) by (unfold q; apply Z.div_small; done).
  pose proof (Hs 0 16 ltac:(lia) eq_refl); pose proof (Hs 16 32 ltac:(lia) eq_refl);
  pose proof (Hs 32 48 ltac:(lia) eq_refl); pose proof (Hs 48 64 ltac:(lia) eq_refl);
  pose proof (Hs 64 80 ltac:(lia) eq_refl); pose proof (Hs 80 96 ltac:(lia) eq_refl);
  pose proof (Hs 96 112 ltac:(lia) eq_refl); pose proof (Hs 112 128 ltac:(lia) eq_refl).
  change (a / 2 ^ (16 * (7 - 0))) with (q 112); change (a / 2 ^ (16 * (7 - 1))) with (q 96);
  change (a / 2 ^ (16 * (7 - 2))) with (q 80); change (a / 2 ^ (16 * (7 - 3))) with (q 64);
  change (a / 2 ^ (16 * (7 - 4))) with (q 48); change (a / 2 ^ (16 * (7 - 5))) with (q 32);
  change (a / 2 ^ (16 * (7 - 6))) with (q 16); change (a / 2 ^ (16 * (7 - 7))) with (q 0).
  clearbody q. lia.
Qed.

Lemma read_show_ipv4 a rest : 0 <= a < 2 ^ 32 -> stops 10 rest ->
  read_ipv4_addr (show_ipv4 a ++ rest) = Some (a, rest).
Proof.
  intros Ha Hs. unfold read_ipv4_addr, show_ipv4, octets4. cbn [map join].
  rewrite <-!app_assoc. cbn [app]. rewrite <-?app_assoc. cbn [read_separator app].
  repeat (rewrite read_octet_app by (apply octet_range || done);
    cbn [mbind option_bind read_separator read_given_char];
    rewrite ?bool_decide_eq_true_2 by done; rewrite <-?app_assoc; cbn [app]).
  by rewrite octets4_value.
Qed.

Lemma read_number_loop_prefix radix max md s : forall count acc count' v r,
  read_number_loop radix max md count acc s = Some (count', v, r) ->
  exists p, s = p ++ r /\ Forall (fun b => is_Some (to_digit radix b)) p.
Proof.
  induction s as [|b s IH]; intros count acc count' v r H; simpl in H.
  { exists []. split; [by simplify_eq/=|done]. }
  destruct (to_digit radix b) as [d|] eqn:Ed.
  - repeat case_step; try done. apply IH in H as (p & -> & Hp).
    exists (b :: p). split; [done|]. constructor; [by rewrite Ed|done].
  - exists []. split; [by simplify_eq/=|done].
Qed.

Lemma read_number_prefix radix max md z s v r :
  read_number radix max md z s = Some (v, r) ->
  exists p, s = p ++ r /\ Forall (fun b => is_Some (to_digit radix b)) p.
Proof.
  unfold read_number.
  destruct (read_number_loop radix max md 0 0 s) as [[[c v'] r']|] eqn:E; [|done].
  intros H. assert (r' = r) as -> by (repeat case_step; done).
  by eapply read_number_loop_prefix.
Qed.

(** Text after a group: nothing, or a colon. *)
Definition after_group (rest : list byte) : Prop :=
  match rest with [] => True | b :: _ => b = x3a \/ b = x5d end.

Lemma after_group_stops radix rest : after_group rest -> stops radix rest.
Proof. destruct rest as [|b rest]; [done|]. by intros [-> | ->]. Qed.

(** A hexadecimal group is not the start of a dotted quad. *)
Lemma read_ipv4_group g rest : 0 <= g < 65536 -> after_group rest ->
  read_ipv4_addr (show_hex g ++ rest) = None.
Proof.
  intros Hg Hr. destruct (show_hex_checks g Hg) as (_ & Hdot & _).
  assert (Forall (fun b => b <> x2e) (show_hex g)) as Hdot' by (eapply Forall_impl; [exact Hdot|]; intros b Hb ->; by destruct Hb).
  clear Hdot. rename Hdot' into Hdot.
  unfold read_ipv4_addr. cbn [read_separator].
  destruct (read_octet (show_hex g ++ rest)) as [[o r]|] eqn:E; [|done].
  cbn [mbind option_bind].
  apply read_number_prefix in E as (p & Heq & Hp).
  assert (match r with [] => True | b :: _ => b <> x2e end) as Hnd.
  { apply app_eq_inv in Heq as [(k & Hk & ->)|(k & -> & Hk)].
    - destruct k as [|b k]; [|].
      + destruct rest; [done|]. simpl in *. subst. by destruct Hr as [-> | ->].
      + rewrite Hk in Hdot. apply Forall_app in Hdot as [_ Hdot]. by inversion Hdot.
    - destruct k as [|b k].
      + simpl in Hk. subst rest. destruct r; [done|]. simpl in *. by destruct Hr as [-> | ->].
      + subst rest. simpl in Hr. apply Forall_app in Hp as [_ Hp]. inversion Hp as [|? ? Hx].
        subst. destruct Hr as [-> | ->]; by destruct Hx. }
  destruct r as [|b r]; [done|]. cbn [read_given_char].
  by rewrite bool_decide_eq_false_2.
Qed.

(** Groups as [read_groups] meets them from slot [i] on. *)
Fixpoint gtext (i : nat) (gs : list Z) : list byte :=
  match gs with
  | [] => []
  | g :: gs' => (match i with O => [] | S _ => [x3a] end) ++ show_hex g ++ gtext (S i) gs'
  end.

Lemma gtext_join gs : join x3a (map show_hex gs) = gtext 0 gs.
Proof.
  destruct gs as [|g gs]; [done|]. cbn [gtext app]. generalize 0%nat as i.
  revert g. induction gs as [|g' gs IH]; intros g i; [by rewrite app_nil_r|].
  cbn [map join gtext app]. f_equal. f_equal. apply IH.
Qed.

Lemma after_gtext i gs rest : after_group rest -> after_group (gtext (S i) gs ++ rest).
Proof. destruct gs; [done|by left]. Qed.

(** Where the reader stops: the slots are full, or there is no text left or a
    double colon. *)
Definition groups_end (fuel : nat) (gs : list Z) (rest : list byte) : Prop :=
  after_group rest /\ (length gs <= fuel)%nat /\
  ((length gs < fuel)%nat ->
   match rest with [] => True | b :: r => b = x5d \/ exists r', r = x3a :: r' end).

Lemma read_groups_end limit i fuel rest : groups_end fuel [] rest ->
  read_groups limit i fuel rest = ([], false, rest).
Proof.
  intros (Ha & _ & He). destruct fuel as [|fuel]; [done|].
  specialize (He ltac:(simpl; lia)).
  assert (H4 : read_separator x3a i read_ipv4_addr rest = None /\
    read_separator x3a i read_group rest = None).
  { destruct rest as [|b r]; [by destruct i|]. destruct He as [-> | [r' ->]]; [by destruct i|].
    simpl in Ha. by destruct Ha as [-> | ->]; destruct i. }
  destruct H4 as [H4 H6]. cbn [read_groups]. rewrite H4, H6. by destruct (i <? _)%nat.
Qed.

Definition sep_text (i : nat) : list byte := match i with O => [] | S _ => [x3a] end.

Lemma read_separator_text {A} i (inner : list byte -> option (A * list byte)) t :
  read_separator x3a i inner (sep_text i ++ t) = inner t.
Proof. by destruct i. Qed.

Lemma read_groups_hex limit i fuel g t : 0 <= g < 65536 -> after_group t ->
  read_groups limit i (S fuel) (sep_text i ++ show_hex g ++ t)
  = let '(gs, v4, rest) := read_groups limit (S i) fuel t in (g :: gs, v4, rest).
Proof.
  intros Hg Ht. cbn [read_groups]. rewrite !read_separator_text, read_ipv4_group, read_group_app
    by (done || by apply after_group_stops).
  by destruct (i <? _)%nat.
Qed.

Lemma read_groups_quad limit i fuel a t : 0 <= a < 2 ^ 32 -> stops 10 t ->
  (i < limit - 1)%nat ->
  read_groups limit i (S fuel) (sep_text i ++ show_ipv4 a ++ t)
  = ([Z.shiftr a 16; Z.land a 65535], true, t).
Proof.
  intros Ha Ht Hi. cbn [read_groups]. rewrite (proj2 (Nat.ltb_lt _ _)) by done.
  by rewrite read_separator_text, read_show_ipv4.
Qed.

Lemma read_groups_text limit rest : forall gs i fuel,
  Forall (fun g => 0 <= g < 65536) gs -> groups_end fuel gs rest ->
  read_groups limit i fuel (gtext i gs ++ rest) = (gs, false, rest).
Proof.
  induction gs as [|g gs IH]; intros i fuel Hgs He.
  { by apply read_groups_end. }
  inversion_clear Hgs as [|? ? Hg Hgs']. destruct He as (Ha & Hl & He). simpl in Hl, He.
  destruct fuel as [|fuel]; [lia|].
  cbn [gtext]. rewrite <-!app_assoc. fold (sep_text i).
  rewrite read_groups_hex, IH by (done || by apply after_gtext || (split_and!; [done|lia|];
    intros; apply He; lia)). done.
Qed.

(** A span of zero segments of [full] that ends at or before position [i]. *)
Definition zero_span (full : list Z) (i : nat) (sp : nat * nat) : Prop :=
  (sp.1 + sp.2 <= i)%nat /\ forall j, (sp.1 <= j < sp.1 + sp.2)%nat -> full !! j = Some 0.

Lemma zero_run_span full : forall segs i cur longest,
  drop i full = segs -> (i + length segs = length full)%nat ->
  zero_span full i cur -> (cur.2 = 0%nat \/ (cur.1 + cur.2)%nat = i) ->
  zero_span full i longest ->
  zero_span full (length full) (zero_run i cur longest segs).
Proof.
  assert (Hmono : forall i i' sp, (i <= i')%nat -> zero_span full i sp -> zero_span full i' sp).
  { intros i i' sp Hi [? ?]. split; [lia|done]. }
  induction segs as [|g segs IH]; intros i cur longest Hd Hl Hc Hce Hlo; simpl in *.
  { by eapply Hmono; [|exact Hlo]; lia. }
  assert (Hg : full !! i = Some g).
  { by rewrite <-(Nat.add_0_r i), <-lookup_drop, Hd. }
  assert (Hd' : drop (S i) full = segs).
  { replace (S i) with (i + 1)%nat by lia. by rewrite <-drop_drop, Hd. }
  destruct (Z.eqb_spec g 0) as [->|].
  - set (cur' := (if (cur.2 =? 0)%nat then i else cur.1, S cur.2)).
    assert (Hc' : zero_span full (S i) cur' /\ (cur'.1 + cur'.2)%nat = S i).
    { unfold cur', zero_span in *. destruct Hc as [Hc1 Hc2]. simpl.
      destruct (Nat.eqb_spec cur.2 0) as [E|E].
      - rewrite E. split; [split; [lia|]|lia]. intros j Hj. by replace j with i by lia.
      - destruct Hce as [|Hce]; [done|]. split; [split; [lia|]|lia].
        intros j Hj. destruct (decide (j = i)) as [->|]; [done|]. apply Hc2. lia. }
    apply IH; [done|lia|apply Hc'|right; apply Hc'|].
    case_match; [apply Hc'|]. eapply Hmono; [|done]. lia.
  - apply IH; [done|lia| |by left|eapply Hmono; [|done]; lia].
    split; simpl; [lia|]. intros j Hj. lia.
Qed.

Lemma zero_run_splits a : let segs := segments a in
  let '(start, len) := zero_run 0 (0%nat, 0%nat) (0%nat, 0%nat) segs in
  (start + len <= 8)%nat /\
  segs = take start segs ++ replicate len 0 ++ drop (start + len) segs.
Proof.
  cbv zeta. set (segs := segments a).
  assert (Hnone : zero_span segs 0 (0%nat, 0%nat)) by (split; simpl; [lia|intros; lia]).
  pose proof (zero_run_span segs segs 0 _ _ eq_refl eq_refl Hnone (or_introl eq_refl) Hnone) as Hs.
  destruct (zero_run _ _ _ _) as [st len]. destruct Hs as [Hle Hz]. simpl in Hle, Hz.
  split; [exact Hle|]. rewrite <-(take_drop st segs) at 1. f_equal.
  rewrite <-(take_drop len (drop st segs)) at 1. rewrite drop_drop. f_equal.
  symmetry. apply replicate_as_Forall_2.
  { rewrite length_take, length_drop. unfold segs in *. simpl in *. lia. }
  apply Forall_lookup. intros j x Hj. apply lookup_take_Some in Hj as [Hj Hlt].
  rewrite lookup_drop, Hz in Hj by lia. congruence.
Qed.

(** What may follow an IPv6 address: nothing, or the closing bracket. *)
Definition closes (rest : list byte) : Prop :=
  match rest with [] => True | b :: _ => b = x5d end.

Lemma closes_stops radix rest : closes rest -> stops radix rest.
Proof. destruct rest; [done|]. by intros ->. Qed.
Lemma closes_after rest : closes rest -> after_group rest.
Proof. destruct rest; [done|]. by right. Qed.
Lemma closes_end fuel gs rest : closes rest -> (length gs <= fuel)%nat -> groups_end fuel gs rest.
Proof.
  intros Hc Hl. split_and!; [by apply closes_after|done|]. intros _. destruct rest; [done|by left].
Qed.

Lemma read_show_mapped v4 rest : 0 <= v4 < 2 ^ 32 -> closes rest ->
  read_ipv6_addr (str "::ffff:" ++ show_ipv4 v4 ++ rest) = Some (65535 * 2 ^ 32 + v4, rest).
Proof.
  intros H4 Hc. unfold read_ipv6_addr.
  change (str "::ffff:") with (x3a :: x3a :: show_hex 65535 ++ [x3a]).
  rewrite <-!app_comm_cons, <-app_assoc. cbn [app].
  rewrite read_groups_end by (split_and!; [by left|simpl; lia|eauto]).
  cbn [length Nat.eqb Nat.add Nat.sub].
  do 2 (rewrite read_given_char_hit; cbn [mbind option_bind]).
  pose proof (read_groups_hex 7 0 6 65535 (x3a :: show_ipv4 v4 ++ rest)) as Hh.
  pose proof (read_groups_quad 7 1 5 v4 rest) as Hq. cbn [sep_text app] in Hh, Hq.
  rewrite Hh, Hq by (done || lia || by left || by apply closes_stops).
  cbn [length Nat.sub replicate app]. f_equal. f_equal.
  unfold of_segments. cbn [foldl]. change 65535 with (2 ^ 16 - 1) at 2.
  rewrite land_ones_mod, Z.shiftr_div_pow2 by lia.
  change (2 ^ 32) with (2 ^ 16 * 2 ^ 16). change (2 ^ 16) with 65536.
  pose proof (Z.div_mod v4 65536 ltac:(lia)). lia.
Qed.

Lemma read_show_ipv6 a rest : 0 <= a < 2 ^ 128 -> closes rest ->
  read_ipv6_addr (show_ipv6 a ++ rest) = Some (a, rest).
Proof.
  intros Ha Hc. unfold show_ipv6, to_ipv4_mapped.
  destruct (Z.eqb_spec (Z.shiftr a 32) 65535) as [Hm|_].
  { rewrite land_ones_mod, <-app_assoc by lia.
    rewrite read_show_mapped by (done || apply Z.mod_pos_bound; lia).
    rewrite Z.shiftr_div_pow2 in Hm by lia. rewrite <-Hm, Z.mul_comm, <-Z.div_mod; done. }
  pose proof (zero_run_splits a) as Hsp. pose proof (segments_range a) as Hr.
  pose proof (of_segments_value a Ha) as Hv. cbv zeta in *.
  assert (Hlen : length (segments a) = 8%nat) by done.
  set (segs := segments a) in *. clearbody segs.
  destruct (zero_run _ _ _ _) as [st len]. destruct Hsp as [Hle Hsp].
  unfold read_ipv6_addr. rewrite !gtext_join. destruct (Nat.ltb_spec 1 len) as [H1|H1].
  - rewrite <-!app_assoc, read_groups_text.
    + rewrite length_take, Nat.min_l by lia.
      destruct (Nat.eqb_spec st 8); [lia|]. change (str "::") with [x3a; x3a].
      do 2 (cbn [app]; rewrite read_given_char_hit; cbn [mbind option_bind]).
      rewrite read_groups_text.
      * rewrite length_drop, Hlen. replace (8 - st - (8 - (st + len)))%nat with len by lia.
        by rewrite <-Hsp, Hv.
      * by apply Forall_drop.
      * apply closes_end; [done|rewrite length_drop; lia].
    + by apply Forall_take.
    + split_and!; [by left|rewrite length_take; lia|intros _; right; by eexists].
  - rewrite read_groups_text; [|done|].
    + by rewrite Hlen, Nat.eqb_refl, Hv.
    + apply closes_end; [done|lia].
Qed.

Lemma read_ipv4_show_ipv6 a : read_ipv4_addr (show_ipv6 a) = None.
Proof.
  unfold show_ipv6. destruct (to_ipv4_mapped a); [done|].
  pose proof (segments_range a) as Hr. set (segs := segments a) in *.
  assert (Hlen : length segs = 8%nat) by done. clearbody segs.
  destruct (zero_run _ _ _ _) as [st len]. rewrite !gtext_join.
  destruct (1 <? len)%nat.
  - destruct (take st segs) as [|g gs] eqn:E; [done|].
    assert (Hg : Forall (fun g => 0 <= g < 65536) (g :: gs)) by (rewrite <-E; by apply Forall_take).
    inversion_clear Hg. cbn [gtext app]. rewrite <-app_assoc.
    apply read_ipv4_group; [done|]. destruct gs; by left.
  - destruct segs as [|g segs]; [done|]. inversion_clear Hr. cbn [gtext app].
    apply read_ipv4_group; [done|]. destruct segs; [done|by left].
Qed.

(** Every address is printed as text that parses back to it. *)
Lemma parse_show_ip ip : ip_wf ip -> parse_ip (show_ip ip) = Some ip.
Proof.
  unfold parse_ip. destruct ip as [a|a]; cbn [ip_wf show_ip]; intros H.
  - rewrite <-(app_nil_r (show_ipv4 a)), read_show_ipv4; [done|exact H|exact I].
  - rewrite read_ipv4_show_ipv6, <-(app_nil_r (show_ipv6 a)), (read_show_ipv6 a [] H); done.
Qed.

(** ** What is parsed is an address *)

Lemma to_digit_nonneg radix b d : to_digit radix b = Some d -> 0 <= d.
Proof.
  unfold to_digit, in_range. intros H.
  destruct (48 <=? bz b) eqn:E1; destruct (bz b <=? 57) eqn:E2; simpl in H;
    repeat case_step; bool_props; simplify_eq; lia.
Qed.

Lemma read_number_loop_range radix max md s : 0 <= radix -> forall count acc count' v r,
  0 <= acc <= max -> read_number_loop radix max md count acc s = Some (count', v, r) ->
  0 <= v <= max.
Proof.
  intros Hr. induction s as [|b s IH]; intros count acc count' v r Ha H; simpl in H.
  { by simplify_eq. }
  destruct (to_digit radix b) as [d|] eqn:Ed; [|by simplify_eq].
  apply to_digit_nonneg in Ed. repeat case_step; try done. bool_props.
  apply IH in H; [done|]. nia.
Qed.

Lemma read_number_range radix max md z s v r : 0 <= radix -> 0 <= max ->
  read_number radix max md z s = Some (v, r) -> 0 <= v <= max.
Proof.
  intros Hr Hm. unfold read_number.
  destruct (read_number_loop radix max md 0 0 s) as [[[c v'] r']|] eqn:E; [|done].
  apply read_number_loop_range in E; [|lia..]. intros H. repeat case_step; simplify_eq; done.
Qed.

Lemma read_separator_inv {A} sep i (inner : list byte -> option (A * list byte)) s p :
  read_separator sep i inner s = Some p -> exists s', inner s' = Some p.
Proof. destruct i; simpl; [eauto|]. destruct (read_given_char sep s); [eauto|done]. Qed.

Lemma read_ipv4_range s a r : read_ipv4_addr s = Some (a, r) -> 0 <= a < 2 ^ 32.
Proof.
  unfold read_ipv4_addr. intros H.
  repeat match goal with
  | H : context [read_separator ?c ?i ?f ?s] |- _ =>
      let E := fresh "E" in
      destruct (read_separator c i f s) as [[? ?]|] eqn:E; [|done];
      apply read_separator_inv in E as [? E]; apply read_number_range in E; [|lia..];
      cbn [mbind option_bind] in H
  end.
  simplify_eq. change (2 ^ 32) with 4294967296. lia.
Qed.

Lemma read_groups_range limit : forall fuel i s gs v4 r,
  read_groups limit i fuel s = (gs, v4, r) ->
  Forall (fun g => 0 <= g < 65536) gs /\ ((i + fuel = limit)%nat -> (length gs <= fuel)%nat).
Proof.
  induction fuel as [|fuel IH]; intros i s gs v4 r H.
  { cbn [read_groups] in H. simplify_eq. split; [done|simpl; lia]. }
  cbn [read_groups] in H.
  destruct (if (i <? limit - 1)%nat then _ else None) as [[a rest]|] eqn:E4.
  { destruct (Nat.ltb_spec i (limit - 1)) as [Hi|]; [|done].
    apply read_separator_inv in E4 as [s' E4]. apply read_ipv4_range in E4.
    simplify_eq. change (2 ^ 32) with (2 ^ 16 * 65536) in E4.
    rewrite Z.shiftr_div_pow2 by lia. change 65535 with (2 ^ 16 - 1).
    rewrite land_ones_mod by lia. change (2 ^ 16) with 65536 in *.
    split; [|simpl; lia].
    repeat constructor; try apply Z.mod_pos_bound; try apply Z.div_pos; try lia.
    apply Z.div_lt_upper_bound; lia. }
  destruct (read_separator x3a i read_group s) as [[g rest]|] eqn:Eg.
  - apply read_separator_inv in Eg as [s' Eg]. apply read_number_range in Eg; [|lia..].
    destruct (read_groups limit (S i) fuel rest) as [[gs' v'] r'] eqn:E. simplify_eq.
    apply IH in E as [? Hl]. split; [constructor; [lia|done]|].
    intros. simpl. pose proof (Hl ltac:(lia)). lia.
  - simplify_eq. split; [done|simpl; lia].
Qed.

Lemma of_segments_range gs : Forall (fun g => 0 <= g < 65536) gs ->
  0 <= of_segments gs < 65536 ^ Z.of_nat (length gs).
Proof.
  induction gs as [|g gs IH] using rev_ind; intros H; [done|].
  apply Forall_app in H as [H Hg]. inversion_clear Hg. specialize (IH H).
  unfold of_segments in *. rewrite foldl_app, length_app. cbn [foldl length].
  rewrite Nat2Z.inj_add, Z.pow_add_r by lia. change (65536 ^ Z.of_nat 1) with 65536. lia.
Qed.

Lemma of_segments_range8 gs : Forall (fun g => 0 <= g < 65536) gs -> length gs = 8%nat ->
  0 <= of_segments gs < 2 ^ 128.
Proof. intros H Hl. apply of_segments_range in H. rewrite Hl in H. exact H. Qed.

Lemma read_ipv6_range s a r : read_ipv6_addr s = Some (a, r) -> 0 <= a < 2 ^ 128.
Proof.
  unfold read_ipv6_addr. destruct (read_groups 8 0 8 s) as [[head v4] s'] eqn:Eh.
  apply read_groups_range in Eh as [Hh Hlh]. specialize (Hlh eq_refl).
  destruct (Nat.eqb_spec (length head) 8) as [E8|E8].
  { intros H. simplify_eq. by apply of_segments_range8. }
  destruct v4; [done|]. destruct (read_given_char x3a s') as [s1|]; [|done].
  cbn [mbind option_bind]. destruct (read_given_char x3a s1) as [s2|]; [|done].
  cbn [mbind option_bind].
  destruct (read_groups (8 - (length head + 1)) 0 (8 - (length head + 1)) s2)
    as [[tail v4'] s3] eqn:Et.
  apply read_groups_range in Et as [Ht Hlt]. specialize (Hlt eq_refl).
  intros H. injection H as <- <-. apply of_segments_range8.
  - apply Forall_app. split; [done|]. apply Forall_app. split; [|done].
    apply Forall_replicate. lia.
  - rewrite !length_app, length_replicate. lia.
Qed.

Lemma parse_ip_wf s ip : parse_ip s = Some ip -> ip_wf ip.
Proof.
  unfold parse_ip. destruct (read_ipv4_addr s) as [[a r]|] eqn:E4.
  { apply read_ipv4_range in E4. destruct r; [|done]. by intros [= <-]. }
  destruct (read_ipv6_addr s) as [[a r]|] eqn:E6; [|done].
  apply read_ipv6_range in E6. destruct r; [|done]. intros [= <-]. exact E6.
Qed.

(** ** The characters of a printed address *)

Definition addr_char (b : byte) : Prop := bz b = 46 \/ 48 <= bz b <= 102.

Lemma show_octet_chars o : 0 <= o < 256 -> Forall addr_char (show_uint o).
Proof.
  intros H. pose (f o := forallb (in_range 48 57) (show_uint o)).
  assert (Hf : f o = true) by (apply (all_below_spec 256 f 0); [by vm_compute|lia]).
  unfold f in Hf. rewrite forallb_forall in Hf. apply Forall_forall.
  intros b Hb%list_elem_of_In%Hf. unfold in_range in Hb. bool_props. right. lia.
Qed.

Lemma parse_show_u8 p : 0 <= p < 256 -> parse_uint 8 (show_uint p) = Some p.
Proof.
  intros H. pose (f o := match parse_uint 8 (show_uint o) with Some v => v =? o | None => false end).
  assert (Hf : f p = true) by (apply (all_below_spec 256 f 0); [by vm_compute|lia]).
  unfold f in Hf. destruct (parse_uint 8 (show_uint p)); [|done].
  apply Z.eqb_eq in Hf. by subst.
Qed.

Lemma join_chars (P : byte -> Prop) sep l : P sep -> Forall (Forall P) l -> Forall P (join sep l).
Proof.
  intros Hs. induction 1 as [|x l Hx Hl IH]; [done|]. destruct l as [|y l]; [done|].
  change (join sep (x :: y :: l)) with (x ++ sep :: join sep (y :: l)).
  apply Forall_app. split; [done|]. by constructor.
Qed.

Lemma show_hexes_chars gs : Forall (fun g => 0 <= g < 65536) gs ->
  Forall addr_char (join x3a (map show_hex gs)).
Proof.
  intros H. apply join_chars; [by right|]. apply Forall_fmap. eapply Forall_impl; [exact H|].
  intros g Hg. destruct (show_hex_checks g Hg) as (_ & Hf & _).
  eapply Forall_impl; [exact Hf|]. intros b Hb. by right.
Qed.

Lemma show_ip_chars ip : Forall addr_char (show_ip ip).
Proof.
  assert (H4 : forall a, Forall addr_char (show_ipv4 a)).
  { intros a. apply join_chars; [by left|]. unfold octets4. cbn [map].
    repeat (constructor; [apply show_octet_chars, octet_range|]). constructor. }
  assert (Hc : addr_char x3a) by (by right).
  destruct ip as [a|a]; cbn [show_ip]; [apply H4|].
  unfold show_ipv6. destruct (to_ipv4_mapped a).
  { apply Forall_app. split; [|apply H4]. repeat (constructor; [by right|]). constructor. }
  pose proof (segments_range a) as Hr. destruct (zero_run _ _ _ _) as [st len].
  case_match; [|by apply show_hexes_chars]. rewrite !Forall_app. split_and!.
  - by apply show_hexes_chars, Forall_take.
  - by repeat constructor.
  - by apply show_hexes_chars, Forall_drop.
Qed.

Lemma show_ip_no_slash ip : x2f ∉ show_ip ip.
Proof.
  intros Hi. pose proof (show_ip_chars ip) as Hc. rewrite Forall_forall in Hc.
  apply Hc in Hi. unfold addr_char in Hi. change (bz x2f) with 47 in Hi. lia.
Qed.
