(* ===== verification/Route.v ===== *)
(** * Routing rules

    [rsb-route/src/lib.rs] and [geo.rs]: route rules and compiled rule sets, the
    matchers, and [RuleRouter::route].  Integer operations are those of the
    release profile (no overflow checks: shift counts are taken modulo the
    width).  The regular-expression engine is a parameter. *)
From stdpp Require Import base tactics gmap list strings sets.
From Stdlib Require Import ZArith Lia.
From Stdlib Require Import Strings.Byte.
From S2P Require Import Prelude Json Text Ip.

Local Open Scope Z_scope.

(** [regex::Regex::new(pattern)] and [is_match]: [None] for a pattern that does
    not compile. *)
Class Regex := regex_is_match : list byte -> list byte -> option bool.

(** ** Data *)

Inductive Network := Tcp | Udp.

Record Metadata := mkMetadata {
  md_network : Network;
  md_source : option SocketAddr;
  md_destination : option SocketAddr;
  md_domain : option (list byte);
  md_protocol : option (list byte);
  md_process_name : option (list byte);
  md_process_path : option (list byte);
  md_inbound_tag : list byte;
}.

Record RouteRule := mkRouteRule {
  inbound : list (list byte);
  network : list (list byte);
  port : list Value;
  ip_cidr : list (list byte);
  domain : list (list byte);
  domain_suffix : list (list byte);
  domain_keyword : list (list byte);
  rule_set : list (list byte);
  geosite : list (list byte);
  geoip : list (list byte);
  ip_is_private : bool;
  source_ip_cidr : list (list byte);
  protocol : list (list byte);
  process_name : list (list byte);
  process_path : list (list byte);
  process_path_regex : list (list byte);
  outbound : option (list byte);
}.

(** [RouteRule::default()]. *)
Definition default_rule : RouteRule :=
  mkRouteRule [] [] [] [] [] [] [] [] [] [] false [] [] [] [] [] None.

Record CompiledRuleSet := mkCompiledRuleSet {
  domains : list (list byte);
  domain_suffixes : list (list byte);
  domain_keywords : list (list byte);
  ip_cidrs : list (list byte);
  ip_ranges : list (IpAddr * IpAddr);
  domain_set : gset (list byte);
  suffix_set : gset (list byte);
}.

(** The part of [RuleRouter] that [route] reads. *)
Record RuleRouter := mkRuleRouter {
  rules : list RouteRule;
  default_tag : list byte;
  rule_sets : gmap (list byte) CompiledRuleSet;
}.

Definition is_empty {A} (l : list A) : bool := match l with [] => true | _ => false end.

(** ** Matchers *)

Definition domain_matches_suffix (domain suffix : list byte) : bool :=
  let s := trim (trim_start_matches x2e (trim_start_matches x2a suffix)) in
  if is_empty s then false
  else eq_ignore_ascii_case domain s
    || (zlen s <? zlen domain)
       && bool_decide (domain !! Z.to_nat (zlen domain - zlen s - 1) = Some x2e)
       && eq_ignore_ascii_case (drop (Z.to_nat (zlen domain - zlen s)) domain) s.

(** The loop of [domain_matches_suffix_set]: every remainder after a dot. *)
Fixpoint suffix_loop (suffixes : gset (list byte)) (fuel : nat) (rest : list byte) : bool :=
  match fuel with
  | O => false
  | S fuel' =>
      match split_once x2e rest with
      | None => false
      | Some (_, rest) =>
          if bool_decide (rest ∈ suffixes) then true else suffix_loop suffixes fuel' rest
      end
  end.
Definition domain_matches_suffix_set (host : list byte) (suffixes : gset (list byte)) : bool :=
  if bool_decide (suffixes = ∅) then false
  else if bool_decide (host ∈ suffixes) then true
  else suffix_loop suffixes (length host) host.

Definition finalize (self : CompiledRuleSet) : CompiledRuleSet :=
  {| domains := domains self;
     domain_suffixes := domain_suffixes self;
     domain_keywords := domain_keywords self;
     ip_cidrs := ip_cidrs self;
     ip_ranges := ip_ranges self;
     domain_set := list_to_set (map to_ascii_lowercase (domains self));
     suffix_set := list_to_set (List.filter (fun s => negb (is_empty s))
       (map (fun s => to_ascii_lowercase
               (trim_start_matches x2e (trim_start_matches x2a s)))
            (domain_suffixes self))) |}.

Definition port_matches (port : Z) (p : Value) : bool :=
  match as_u64 p with
  | Some n => u16 n =? port
  | None =>
    match as_str p with
    | Some s =>
        if contains s [x3a] then
          let pr := match rsplit_once x3a s with Some (_, pr) => pr | None => s end in
          bool_decide (parse_uint 16 pr = Some port)
        else if contains s [x2d] then
          match split x2d s with
          | [a; b] =>
              match parse_uint 16 a, parse_uint 16 b with
              | Some from, Some to => (from <=? port) && (port <=? to)
              | _, _ => false
              end
          | _ => false
          end
        else bool_decide (parse_uint 16 s = Some port)
    | None => false
    end
  end.
Definition port_rule_matches (ports : list Value) (port : Z) : bool :=
  existsb (port_matches port) ports.

Definition ip_in_range (ip from to : IpAddr) : bool :=
  match ip, from, to with
  | V4 a, V4 f, V4 t => (f <=? a) && (a <=? t)
  | V6 a, V6 f, V6 t => (f <=? a) && (a <=? t)
  | _, _, _ => false
  end.

(** [uW::MAX << (W - prefix_len)], the shift count modulo the width. *)
Definition cidr_mask (w prefix_len : Z) : Z :=
  if w <=? prefix_len then 2 ^ w - 1
  else wrap w (Z.shiftl (2 ^ w - 1) ((w - prefix_len) `mod` w)).

Definition ip_in_cidr (ip : IpAddr) (cidr : list byte) : bool :=
  match split_once x2f cidr with
  | None => false
  | Some (net, prefix) =>
    match parse_ip net with
    | None => false
    | Some net_ip =>
      match parse_uint 8 prefix with
      | None => false
      | Some prefix_len =>
        match ip, net_ip with
        | V4 a, V4 b =>
            let mask := cidr_mask 32 prefix_len in
            Z.land a mask =? Z.land b mask
        | V6 a, V6 b =>
            let mask := cidr_mask 128 prefix_len in
            Z.land a mask =? Z.land b mask
        | _, _ => false
        end
      end
    end
  end.

(** [rsb_core::is_private_ip]. *)
Definition is_private_ip (ip : IpAddr) : bool :=
  match ip with
  | V4 v4 =>
      let o i := octet 4 i v4 in
      (o 0 =? 10)
      || (o 0 =? 172) && ((16 <=? o 1) && (o 1 <=? 31))
      || (o 0 =? 192) && (o 1 =? 168)
      || (o 0 =? 127)
      || (o 0 =? 169) && (o 1 =? 254)
  | V6 v6 =>
      let o i := octet 16 i v6 in
      forallb (fun i => o i =? 0) [0; 1; 2; 3; 4; 5; 6; 7; 8; 9; 10; 11; 12; 13; 14; 15]
      || forallb (fun i => o i =? 0) [0; 1; 2; 3; 4; 5; 6; 7; 8; 9; 10; 11; 12; 13; 14]
         && (o 15 =? 1)
      || (Z.land (o 0) 254 =? 252)
      || (o 0 =? 254) && (Z.land (o 1) 192 =? 128)
  end.

Definition process_name_matches (expected actual : list byte) : bool :=
  eq_ignore_ascii_case expected actual.
Definition process_path_matches (expected actual : list byte) : bool :=
  eq_ignore_ascii_case expected actual
  || match file_name actual with
     | Some name => eq_ignore_ascii_case expected name
     | None => false
     end.

Definition rule_positive_matchers_empty (rule : RouteRule) : bool :=
  negb (ip_is_private rule) && is_empty (geosite rule) && is_empty (geoip rule)
  && is_empty (rule_set rule) && is_empty (domain rule) && is_empty (domain_suffix rule)
  && is_empty (domain_keyword rule) && is_empty (ip_cidr rule).

Definition rule_constraint_only_match (rule : RouteRule) : bool :=
  let has_constraint := negb (is_empty (protocol rule)) || negb (is_empty (process_name rule))
    || negb (is_empty (process_path rule)) || negb (is_empty (process_path_regex rule)) in
  has_constraint && rule_positive_matchers_empty rule.

Definition rule_outbound (rule : RouteRule) : option (list byte) := outbound rule.

Definition geoip_rule_set_matches (rs : CompiledRuleSet) (ip : IpAddr) : bool :=
  existsb (ip_in_cidr ip) (ip_cidrs rs)
  || existsb (fun '(from, to) => ip_in_range ip from to) (ip_ranges rs).

Definition rule_set_matches (rs : CompiledRuleSet) (metadata : Metadata) : bool :=
  match md_domain metadata with
  | Some domain =>
      let host := to_ascii_lowercase domain in
      bool_decide (host ∈ domain_set rs) || domain_matches_suffix_set host (suffix_set rs)
      || existsb (fun k => contains host (to_ascii_lowercase k)) (domain_keywords rs)
  | None => false
  end
  || match md_destination metadata with
     | Some dest =>
         existsb (ip_in_cidr (sa_ip dest)) (ip_cidrs rs)
         || existsb (fun '(from, to) => ip_in_range (sa_ip dest) from to) (ip_ranges rs)
     | None => false
     end.

(** ** The router *)

Section Router.
Context `{Regex}.

Definition process_path_regex_matches (pattern path : list byte) : bool :=
  default false (regex_is_match pattern path).

Definition network_name (n : Network) : list byte :=
  match n with Tcp => str "tcp" | Udp => str "udp" end.

(** [for code in &rule.geosite] and [for code in &rule.geoip]. *)
Definition geosite_matches (self : RuleRouter) (metadata : Metadata) (code : list byte) : bool :=
  match rule_sets self !! (str "geosite-" ++ code) with
  | Some rs => rule_set_matches rs metadata
  | None => false
  end.
Definition geoip_matches (self : RuleRouter) (metadata : Metadata) (code : list byte) : bool :=
  match md_destination metadata with
  | None => false
  | Some dest =>
      if is_unspecified (sa_ip dest) then false
      else if bool_decide (code = str "private") && is_private_ip (sa_ip dest) then true
      else match rule_sets self !! (str "geoip-" ++ code) with
           | Some rs => geoip_rule_set_matches rs (sa_ip dest)
           | None => false
           end
  end.

(** One turn of the loop over the rules: [None] goes on to the next rule. *)
Definition route_rule (self : RuleRouter) (rule : RouteRule) (metadata : Metadata)
  : option (list byte) :=
  let target := default (default_tag self) (rule_outbound rule) in
  if negb (is_empty (inbound rule))
     && negb (existsb (fun t => bool_decide (t = md_inbound_tag metadata)) (inbound rule))
  then None
  else if negb (is_empty (network rule))
     && negb (existsb (fun n => eq_ignore_ascii_case n (network_name (md_network metadata)))
                (network rule))
  then None
  else if negb (is_empty (port rule))
     && match md_destination metadata with
        | None => true
        | Some dest => negb (port_rule_matches (port rule) (sa_port dest))
        end
  then None
  else if negb (is_empty (source_ip_cidr rule))
     && match md_source metadata with
        | None => true
        | Some src => negb (existsb (ip_in_cidr (sa_ip src)) (source_ip_cidr rule))
        end
  then None
  else if negb (is_empty (protocol rule))
     && match md_protocol metadata with
        | None => true
        | Some detected =>
            negb (existsb (fun p => eq_ignore_ascii_case p detected) (protocol rule))
        end
  then None
  else if negb (is_empty (process_name rule))
     && match md_process_name metadata with
        | None => true
        | Some name => negb (existsb (fun n => process_name_matches n name) (process_name rule))
        end
  then None
  else if negb (is_empty (process_path rule))
     && match md_process_path metadata with
        | None => true
        | Some path => negb (existsb (fun p => process_path_matches p path) (process_path rule))
        end
  then None
  else if negb (is_empty (process_path_regex rule))
     && match md_process_path metadata with
        | None => true
        | Some path =>
            negb (existsb (fun re => process_path_regex_matches re path)
                    (process_path_regex rule))
        end
  then None
  else if ip_is_private rule then
    match md_destination metadata with
    | None => None
    | Some dest =>
        if is_unspecified (sa_ip dest) || negb (is_private_ip (sa_ip dest)) then None
        else Some target
    end
  else if negb (is_empty (geosite rule)) || negb (is_empty (geoip rule)) then
    let matched := existsb (geosite_matches self metadata) (geosite rule) in
    let matched := if negb matched then existsb (geoip_matches self metadata) (geoip rule)
                   else matched in
    if negb matched then None else Some target
  else if negb (is_empty (rule_set rule)) then
    let matched := existsb (fun rs_tag =>
      match rule_sets self !! rs_tag with
      | Some rs => rule_set_matches rs metadata
      | None => false
      end) (rule_set rule) in
    if negb matched then None else Some target
  else if match md_domain metadata with
     | Some dom =>
         existsb (fun d => bool_decide (d = dom)) (domain rule)
         || existsb (domain_matches_suffix dom) (domain_suffix rule)
         || existsb (contains dom) (domain_keyword rule)
     | None => false
     end
  then Some target
  else if match md_destination metadata with
     | Some dest => existsb (ip_in_cidr (sa_ip dest)) (ip_cidr rule)
     | None => false
     end
  then Some target
  else if rule_constraint_only_match rule then Some target
  else None.

Fixpoint route_loop (self : RuleRouter) (rules : list RouteRule) (metadata : Metadata)
  : result (list byte) :=
  match rules with
  | [] => Ok (default_tag self)
  | rule :: rules =>
      match route_rule self rule metadata with
      | Some tag => Ok tag
      | None => route_loop self rules metadata
      end
  end.
Definition route (self : RuleRouter) (metadata : Metadata) : result (list byte) :=
  route_loop self (rules self) metadata.

End Router.

(** ** What a rule means *)

(** A list of alternatives that constrains only when it is not empty. *)
Definition constrained {A} (l : list A) (P : A -> Prop) : Prop := l = [] \/ Exists P l.

Definition Holds {A} (o : option A) (P : A -> Prop) : Prop := exists a, o = Some a /\ P a.

Section Meaning.
Context `{Regex}.

(** Every constraint of the rule the connection has to satisfy. *)
Definition constraints_hold (rule : RouteRule) (m : Metadata) : Prop :=
  constrained (inbound rule) (fun t => t = md_inbound_tag m) /\
  constrained (network rule) (fun n => eq_ignore_ascii_case n (network_name (md_network m)) = true) /\
  (port rule = [] \/ Holds (md_destination m) (fun d => Exists (fun p => port_matches (sa_port d) p = true) (port rule))) /\
  (source_ip_cidr rule = [] \/ Holds (md_source m) (fun s => Exists (fun c => ip_in_cidr (sa_ip s) c = true) (source_ip_cidr rule))) /\
  (protocol rule = [] \/ Holds (md_protocol m) (fun d => Exists (fun p => eq_ignore_ascii_case p d = true) (protocol rule))) /\
  (process_name rule = [] \/ Holds (md_process_name m) (fun d => Exists (fun p => eq_ignore_ascii_case p d = true) (process_name rule))) /\
  (process_path rule = [] \/ Holds (md_process_path m) (fun d => Exists (fun p => process_path_matches p d = true) (process_path rule))) /\
  (process_path_regex rule = [] \/ Holds (md_process_path m) (fun d => Exists (fun p => regex_is_match p d = Some true) (process_path_regex rule))).

(** The destination conditions, of which the first kind present decides:
    private address, geographic lists, rule sets, and otherwise the domain and
    address lists or, for a rule with no destination condition at all, the
    presence of a protocol or process constraint. *)
Definition destination_holds (self : RuleRouter) (rule : RouteRule) (m : Metadata) : Prop :=
  if ip_is_private rule then
    Holds (md_destination m) (fun d => is_unspecified (sa_ip d) = false /\ is_private_ip (sa_ip d) = true)
  else if decide (geosite rule <> [] \/ geoip rule <> []) then
    Exists (fun code => Holds (rule_sets self !! (str "geosite-" ++ code)) (fun rs => rule_set_matches rs m = true)) (geosite rule) \/
    Holds (md_destination m) (fun d => is_unspecified (sa_ip d) = false /\
      Exists (fun code => code = str "private" /\ is_private_ip (sa_ip d) = true \/
        Holds (rule_sets self !! (str "geoip-" ++ code)) (fun rs => geoip_rule_set_matches rs (sa_ip d) = true)) (geoip rule))
  else if decide (rule_set rule <> []) then
    Exists (fun tag => Holds (rule_sets self !! tag) (fun rs => rule_set_matches rs m = true)) (rule_set rule)
  else
    Holds (md_domain m) (fun dom => dom ∈ domain rule \/
      Exists (fun s => domain_matches_suffix dom s = true) (domain_suffix rule) \/
      Exists (fun k => contains dom k = true) (domain_keyword rule)) \/
    Holds (md_destination m) (fun d => Exists (fun c => ip_in_cidr (sa_ip d) c = true) (ip_cidr rule)) \/
    (domain rule = [] /\ domain_suffix rule = [] /\ domain_keyword rule = [] /\ ip_cidr rule = [] /\
     (protocol rule <> [] \/ process_name rule <> [] \/ process_path rule <> [] \/ process_path_regex rule <> [])).

Definition rule_applies (self : RuleRouter) (rule : RouteRule) (m : Metadata) : Prop :=
  constraints_hold rule m /\ destination_holds self rule m.

Lemma existsb_Exists {A} (f : A -> bool) (P : A -> Prop) l :
  (forall x, f x = true <-> P x) -> existsb f l = true <-> Exists P l.
Proof.
  intros Hf. rewrite existsb_exists, Exists_exists. split; intros (x & Hx & Hp); exists x.
  - split; [by apply list_elem_of_In|by apply Hf].
  - split; [by apply list_elem_of_In|by apply Hf].
Qed.

Lemma is_empty_true {A} (l : list A) : is_empty l = true <-> l = [].
Proof. by destruct l. Qed.

(** A guard [if !l.is_empty() && !ok { continue; }]. *)
Lemma guard_false {A} (l : list A) b (P : Prop) : (b = true <-> P) ->
  (negb (is_empty l) && negb b = false <-> l = [] \/ P).
Proof. intros <-. destruct l, b; simpl; naive_solver. Qed.

(** The same with a field that must be present. *)
Lemma guard_some_false {A B} (l : list A) (o : option B) (f : B -> bool) (P : B -> Prop) :
  (forall x, f x = true <-> P x) ->
  (negb (is_empty l) && match o with None => true | Some d => negb (f d) end = false
   <-> l = [] \/ Holds o P).
Proof.
  intros Hf. unfold Holds. destruct l as [|x l]; simpl; [naive_solver|].
  destruct o as [d|]; [|naive_solver]. rewrite negb_false_iff, Hf. naive_solver.
Qed.

Lemma guard_step {A} (b : bool) (r : option A) (P Q : Prop) :
  (b = false <-> P) -> (is_Some r <-> Q) ->
  (is_Some (if b then None else r) <-> P /\ Q).
Proof.
  intros <- <-. destruct b; [|naive_solver]. split; [|naive_solver].
  intros Hn. by apply is_Some_None in Hn.
Qed.

Lemma if_some_iff {A} (b : bool) (t : A) (P : Prop) : (b = true <-> P) ->
  (is_Some (if b then Some t else None) <-> P).
Proof. intros <-. destruct b; naive_solver eauto using is_Some_None. Qed.

Lemma Holds_match {B} (o : option B) (f : B -> bool) (P : B -> Prop) :
  (forall x, f x = true <-> P x) ->
  (match o with Some x => f x | None => false end = true <-> Holds o P).
Proof. intros Hf. unfold Holds. destruct o; [rewrite Hf|]; naive_solver. Qed.

Lemma bool_decide_iff (P : Prop) `{Decision P} : bool_decide P = true <-> P.
Proof. apply bool_decide_eq_true. Qed.

Lemma orb_iff (a b : bool) (P Q : Prop) : (a = true <-> P) -> (b = true <-> Q) ->
  (a || b = true <-> P \/ Q).
Proof. intros <- <-. apply orb_true_iff. Qed.

Lemma andb_iff (a b : bool) (P Q : Prop) : (a = true <-> P) -> (b = true <-> Q) ->
  (a && b = true <-> P /\ Q).
Proof. intros <- <-. apply andb_true_iff. Qed.

Lemma regex_matches_iff pattern path :
  process_path_regex_matches pattern path = true <-> regex_is_match pattern path = Some true.
Proof.
  unfold process_path_regex_matches. destruct (regex_is_match pattern path); simpl; naive_solver.
Qed.

Lemma rule_set_lookup_iff self tag m :
  match rule_sets self !! tag with Some rs => rule_set_matches rs m | None => false end = true
  <-> Holds (rule_sets self !! tag) (fun rs => rule_set_matches rs m = true).
Proof. by apply (Holds_match _ (fun rs => rule_set_matches rs m)). Qed.

Lemma geoip_iff self m codes :
  existsb (geoip_matches self m) codes = true <->
  Holds (md_destination m) (fun d => is_unspecified (sa_ip d) = false /\
      Exists (fun code => code = str "private" /\ is_private_ip (sa_ip d) = true \/
        Holds (rule_sets self !! (str "geoip-" ++ code)) (fun rs => geoip_rule_set_matches rs (sa_ip d) = true)) codes).
Proof.
  unfold geoip_matches, Holds at 1. destruct (md_destination m) as [d|].
  - destruct (is_unspecified (sa_ip d)) eqn:Eu.
    { split; [by intros (x & _ & Hx)%existsb_exists|].
      intros (a & [= <-] & Hf & _). congruence. }
    transitivity (Exists (fun code => code = str "private" /\ is_private_ip (sa_ip d) = true \/
      Holds (rule_sets self !! (str "geoip-" ++ code))
        (fun rs => geoip_rule_set_matches rs (sa_ip d) = true)) codes);
      [apply existsb_Exists; intros code|].
    2: { split; [intros Hx; exists d; split_and!; [done|done|exact Hx]|].
         by intros (a & [= <-] & _ & Hx). }
    rewrite <-(Holds_match _ (fun rs => geoip_rule_set_matches rs (sa_ip d))) by done.
    destruct (bool_decide (code = str "private")) eqn:Eb.
    + apply bool_decide_eq_true in Eb. destruct (is_private_ip (sa_ip d)); simpl; naive_solver.
    + apply bool_decide_eq_false in Eb. simpl. naive_solver.
  - split; [|naive_solver]. intros (x & _ & Hx)%existsb_exists. done.
Qed.

Lemma constraint_only_iff rule : rule_constraint_only_match rule = true <->
  rule_positive_matchers_empty rule = true /\
  (protocol rule <> [] \/ process_name rule <> [] \/ process_path rule <> [] \/ process_path_regex rule <> []).
Proof.
  unfold rule_constraint_only_match. rewrite andb_true_iff, !orb_true_iff, !negb_true_iff,
    <-!not_true_iff_false, !is_empty_true. naive_solver.
Qed.

Lemma plain_iff rule : ip_is_private rule = false -> geosite rule = [] -> geoip rule = [] ->
  rule_set rule = [] ->
  rule_constraint_only_match rule = true <->
  (domain rule = [] /\ domain_suffix rule = [] /\ domain_keyword rule = [] /\ ip_cidr rule = [] /\
     (protocol rule <> [] \/ process_name rule <> [] \/ process_path rule <> [] \/ process_path_regex rule <> [])).
Proof.
  intros Hp Hs Hi Hr. rewrite constraint_only_iff. unfold rule_positive_matchers_empty.
  rewrite Hp, Hs, Hi, Hr, !andb_true_iff, !is_empty_true. naive_solver.
Qed.

Lemma if_or_some {A} (a : bool) (t : A) (r : option A) (P Q : Prop) :
  (a = true <-> P) -> (is_Some r <-> Q) -> (is_Some (if a then Some t else r) <-> P \/ Q).
Proof. intros <- <-. destruct a; naive_solver. Qed.

Lemma destination_part self rule m (t : list byte) :
  is_Some (if ip_is_private rule then
    match md_destination m with
    | None => None
    | Some dest =>
        if is_unspecified (sa_ip dest) || negb (is_private_ip (sa_ip dest)) then None else Some t
    end
  else if negb (is_empty (geosite rule)) || negb (is_empty (geoip rule)) then
    let matched := existsb (geosite_matches self m) (geosite rule) in
    let matched := if negb matched then existsb (geoip_matches self m) (geoip rule)
                   else matched in
    if negb matched then None else Some t
  else if negb (is_empty (rule_set rule)) then
    let matched := existsb (fun rs_tag =>
      match rule_sets self !! rs_tag with
      | Some rs => rule_set_matches rs m
      | None => false
      end) (rule_set rule) in
    if negb matched then None else Some t
  else if match md_domain m with
     | Some dom =>
         existsb (fun d => bool_decide (d = dom)) (domain rule)
         || existsb (domain_matches_suffix dom) (domain_suffix rule)
         || existsb (contains dom) (domain_keyword rule)
     | None => false
     end
  then Some t
  else if match md_destination m with
     | Some dest => existsb (ip_in_cidr (sa_ip dest)) (ip_cidr rule)
     | None => false
     end
  then Some t
  else if rule_constraint_only_match rule then Some t
  else None) <-> destination_holds self rule m.
Proof.
  unfold destination_holds. destruct (ip_is_private rule) eqn:Ep.
  { unfold Holds. destruct (md_destination m) as [d|].
    - split; [|intros (a & [= <-] & -> & ->); by eexists]. intros Hx. exists d.
      destruct (is_unspecified (sa_ip d)), (is_private_ip (sa_ip d)); simpl in Hx;
        (done || by apply is_Some_None in Hx).
    - split; [by intros ?%is_Some_None|]. by intros (a & ? & _). }
  assert (Hneg : forall b : bool, (if negb b then None else Some t) = if b then Some t else None)
    by (by intros []).
  destruct (decide (geosite rule <> [] \/ geoip rule <> [])) as [Hg|Hg].
  { assert (negb (is_empty (geosite rule)) || negb (is_empty (geoip rule)) = true) as ->.
    { destruct (geosite rule), (geoip rule); naive_solver. }
    cbv zeta. rewrite Hneg. apply if_some_iff.
    rewrite <-(existsb_Exists (geosite_matches self m)), <-geoip_iff.
    - destruct (existsb (geosite_matches self m) _); simpl; naive_solver.
    - intros code. apply rule_set_lookup_iff. }
  assert (geosite rule = [] /\ geoip rule = []) as [Hgs Hgi].
  { destruct (geosite rule), (geoip rule); naive_solver. }
  rewrite Hgs, Hgi. cbn [is_empty negb orb].
  destruct (decide (rule_set rule <> [])) as [Hr|Hr].
  { assert (negb (is_empty (rule_set rule)) = true) as -> by (by destruct (rule_set rule)).
    cbv zeta. rewrite Hneg. apply if_some_iff. apply existsb_Exists. intros tag.
    apply rule_set_lookup_iff. }
  assert (rule_set rule = []) as Hrs by (destruct (rule_set rule); naive_solver).
  rewrite Hrs. cbn [is_empty negb].
  apply if_or_some.
  { apply Holds_match. intros dom. rewrite <-orb_assoc.
    repeat apply orb_iff; [|by apply existsb_Exists..].
    rewrite list_elem_of_In, existsb_exists. split.
    - intros (x & Hx & Hd). by apply bool_decide_eq_true in Hd as ->.
    - intros Hx. exists dom. split; [done|]. by apply bool_decide_eq_true. }
  apply if_or_some.
  { apply Holds_match. intros d. by apply existsb_Exists. }
  apply if_some_iff. by apply plain_iff.
Qed.

Lemma route_rule_applies self rule m :
  is_Some (route_rule self rule m) <-> rule_applies self rule m.
Proof.
  unfold route_rule, rule_applies, constraints_hold, constrained. cbv zeta.
  rewrite !Logic.and_assoc.
  apply guard_step; [apply guard_false, existsb_Exists; intros; apply bool_decide_eq_true|].
  apply guard_step; [by apply guard_false, existsb_Exists|].
  repeat (apply guard_step;
    [apply guard_some_false; intros; apply existsb_Exists; intros;
     (reflexivity || apply regex_matches_iff)|]).
  apply destination_part.
Qed.

Lemma route_rule_value self rule m t :
  route_rule self rule m = Some t -> t = default (default_tag self) (outbound rule).
Proof.
  unfold route_rule. cbv zeta. unfold rule_outbound.
  generalize (default (default_tag self) (outbound rule)) as target. intros target Hr.
  repeat (case_match; [congruence|]). repeat case_match; congruence.
Qed.
End Meaning.

Section RouterTheorems.
Context `{Regex}.

Lemma route_rule_Some self rule m : rule_applies self rule m ->
  route_rule self rule m = Some (default (default_tag self) (outbound rule)).
Proof. intros [t Ht]%route_rule_applies. rewrite Ht. by apply route_rule_value in Ht as ->. Qed.

Lemma route_rule_None self rule m : ~ rule_applies self rule m -> route_rule self rule m = None.
Proof. rewrite <-route_rule_applies, eq_None_not_Some. done. Qed.

#[local] Instance rule_applies_dec self rule m : Decision (rule_applies self rule m).
Proof.
  destruct (route_rule self rule m) eqn:E; [left|right]; rewrite <-route_rule_applies, E;
    [by eexists|apply is_Some_None].
Defined.

Lemma route_loop_first self m l :
  (exists pre rule post, l = pre ++ rule :: post /\
     Forall (fun r => ~ rule_applies self r m) pre /\ rule_applies self rule m /\
     route_loop self l m = Ok (default (default_tag self) (outbound rule))) \/
  (Forall (fun r => ~ rule_applies self r m) l /\ route_loop self l m = Ok (default_tag self)).
Proof.
  induction l as [|r l IH]; [by right|]. cbn [route_loop].
  destruct (decide (rule_applies self r m)) as [Ha|Ha].
  - left. exists [], r, l. rewrite route_rule_Some by done. done.
  - rewrite route_rule_None by done. destruct IH as [(pre & rule & post & -> & Hp & Hr & ->)|[Hl ->]].
    + left. exists (r :: pre), rule, post. split_and!; [done|by constructor|done|done].
    + right. split; [by constructor|done].
Qed.

(** C2.  Routing is first match.  For every rule list and connection, the
    outbound chosen is that of the first rule whose constraints and destination
    conditions hold, as [rule_applies] states them without control flow; a rule
    without an outbound of its own, and a connection no rule applies to, get
    the default outbound. *)
Theorem route_first_match self m :
  (exists pre rule post, rules self = pre ++ rule :: post /\
     Forall (fun r => ~ rule_applies self r m) pre /\ rule_applies self rule m /\
     route self m = Ok (default (default_tag self) (outbound rule))) \/
  (Forall (fun r => ~ rule_applies self r m) (rules self) /\ route self m = Ok (default_tag self)).
Proof. apply route_loop_first. Qed.

(** Rules in front decide first. *)
Lemma route_loop_app self l l' m :
  (exists rule, rule ∈ l /\ rule_applies self rule m /\
     route_loop self (l ++ l') m = Ok (default (default_tag self) (outbound rule))) \/
  (Forall (fun r => ~ rule_applies self r m) l /\
   route_loop self (l ++ l') m = route_loop self l' m).
Proof.
  induction l as [|r l IH]; [by right|]. cbn [app route_loop].
  destruct (decide (rule_applies self r m)) as [Ha|Ha].
  - left. exists r. rewrite route_rule_Some by done. split_and!; [by left|done|done].
  - rewrite route_rule_None by done. destruct IH as [(rule & Hi & Hr & ->)|[Hl ->]].
    + left. exists rule. split_and!; [by right|done|done].
    + right. split; [by constructor|done].
Qed.

(** Rules that share their outbound. *)
Lemma route_loop_same self l m d : Forall (fun r => outbound r = Some d) l ->
  Exists (fun r => rule_applies self r m) l -> route_loop self l m = Ok d.
Proof.
  intros Hl He. destruct (route_loop_first self m l) as [(pre & r & post & -> & _ & _ & ->)|[Hn _]].
  - rewrite Forall_forall in Hl. rewrite Hl by (apply elem_of_app; right; by left). done.
  - exfalso. apply Exists_exists in He as (r & Hr & Ha). rewrite Forall_forall in Hn. by eapply Hn.
Qed.

(** A rule whose only conditions are on the inbound, the network, the port
    and the source address never takes effect: removing it changes no routing
    decision (protocol and process constraints, by contrast, suffice on their
    own). *)
Theorem connection_only_rule_is_dead self sets pre ib nw pt src ob post m :
  let rule := mkRouteRule ib nw pt [] [] [] [] [] [] [] false src [] [] [] [] ob in
  route (mkRuleRouter (pre ++ rule :: post) self sets) m
  = route (mkRuleRouter (pre ++ post) self sets) m.
Proof.
  intros rule. unfold route. cbn [rules].
  assert (Hself : forall l1 l2 l, route_loop (mkRuleRouter l1 self sets) l m
    = route_loop (mkRuleRouter l2 self sets) l m).
  { intros l1 l2 l. induction l as [|r l IH]; [done|]. cbn [route_loop].
    rewrite IH. done. }
  rewrite (Hself _ (pre ++ post)). clear Hself.
  generalize (mkRuleRouter (pre ++ post) self sets) as router. intros router.
  induction pre as [|r pre IH]; cbn [app route_loop].
  - rewrite route_rule_None; [done|]. intros [_ Hd].
    unfold destination_holds, rule in Hd.
    cbn [ip_is_private geosite geoip rule_set domain domain_suffix domain_keyword ip_cidr
      protocol process_name process_path process_path_regex] in Hd.
    rewrite decide_False in Hd by naive_solver. rewrite decide_False in Hd by naive_solver.
    destruct Hd as [(dom & _ & Hd)|[(d & _ & Hd)|(_ & _ & _ & _ & Hd)]].
    + destruct Hd as [Hd|[Hd|Hd]]; [by apply elem_of_nil in Hd|by inversion Hd..].
    + by inversion Hd.
    + naive_solver.
  - case_match; [done|]. apply IH.
Qed.
End RouterTheorems.

(** ** Domains *)

Lemma to_ascii_lowercase_app a b :
  to_ascii_lowercase (a ++ b) = to_ascii_lowercase a ++ to_ascii_lowercase b.
Proof. apply map_app. Qed.

Lemma length_lowercase a : length (to_ascii_lowercase a) = length a.
Proof. apply length_map. Qed.

Lemma lower_byte_dot b : lower_byte b = x2e <-> b = x2e.
Proof.
  unfold lower_byte. split; [|by intros ->]. destruct (in_range 65 90 b) eqn:E; [|done].
  unfold in_range in E. bool_props. intros Hb. apply (f_equal bz) in Hb.
  rewrite bz_u8_small in Hb by lia. change (bz x2e) with 46 in Hb. lia.
Qed.

Lemma eq_ignore_ascii_case_true a b :
  eq_ignore_ascii_case a b = true <-> to_ascii_lowercase a = to_ascii_lowercase b.
Proof. apply bool_decide_eq_true. Qed.

(** A host name under a suffix: equal to it, or ending in a dot and it, up to
    ASCII case. *)
Definition under (host suffix : list byte) : Prop :=
  to_ascii_lowercase host = to_ascii_lowercase suffix \/
  exists p, to_ascii_lowercase host = p ++ x2e :: to_ascii_lowercase suffix.

Lemma dot_before host (s : list byte) :
  (zlen s <? zlen host)
  && bool_decide (host !! Z.to_nat (zlen host - zlen s - 1) = Some x2e)
  && eq_ignore_ascii_case (drop (Z.to_nat (zlen host - zlen s)) host) s = true
  <-> exists p, to_ascii_lowercase host = p ++ x2e :: to_ascii_lowercase s.
Proof.
  rewrite !andb_true_iff, bool_decide_eq_true, Z.ltb_lt, eq_ignore_ascii_case_true.
  unfold zlen. split.
  - intros [[Hl Hd] He]. set (n := Z.to_nat (Z.of_nat (length host) - Z.of_nat (length s) - 1)) in *.
    replace (Z.to_nat (Z.of_nat (length host) - Z.of_nat (length s))) with (S n) in He by lia.
    exists (to_ascii_lowercase (take n host)).
    rewrite <-(take_drop_middle host n x2e) at 1 by done.
    rewrite to_ascii_lowercase_app. simpl. rewrite He. done.
  - intros [p Hp].
    assert (Hl : (length host = length p + 1 + length s)%nat).
    { apply (f_equal length) in Hp. rewrite length_app in Hp. simpl in Hp.
      rewrite !length_lowercase in Hp. lia. }
    replace (Z.to_nat (Z.of_nat (length host) - Z.of_nat (length s) - 1)) with (length p) by lia.
    replace (Z.to_nat (Z.of_nat (length host) - Z.of_nat (length s))) with (length p + 1)%nat by lia.
    split_and!; [lia| |].
    + assert (Hx : to_ascii_lowercase host !! length p = Some x2e).
      { rewrite Hp. by apply list_lookup_middle. }
      unfold to_ascii_lowercase in Hx. apply list_lookup_fmap_Some_1 in Hx as (b & Hb & ->).
      symmetry in Hb. by apply lower_byte_dot in Hb as ->.
    + unfold to_ascii_lowercase in *. change (@map byte byte) with (@fmap list _ byte byte) in *.
      rewrite fmap_drop, Hp, <-drop_drop, drop_app_length. done.
Qed.

(** The linear matcher: strip stars, then dots, then white space. *)
Definition strip_suffix (s : list byte) : list byte :=
  trim_start_matches x2e (trim_start_matches x2a s).

Lemma domain_matches_suffix_spec dom suffix :
  domain_matches_suffix dom suffix = true <->
  trim (strip_suffix suffix) <> [] /\ under dom (trim (strip_suffix suffix)).
Proof.
  unfold domain_matches_suffix, under. fold (strip_suffix suffix). cbv zeta.
  destruct (trim (strip_suffix suffix)) as [|b s]; [naive_solver|].
  cbn [is_empty]. rewrite orb_true_iff, dot_before, eq_ignore_ascii_case_true. naive_solver.
Qed.

Lemma suffix_loop_spec S fuel : forall rest, (length rest <= fuel)%nat ->
  suffix_loop S fuel rest = true <-> exists p t, rest = p ++ x2e :: t /\ t ∈ S.
Proof.
  induction fuel as [|fuel IH]; intros rest Hl.
  { destruct rest; simpl in Hl; [|lia]. split; [done|]. intros ([] & t & ? & _); done. }
  simpl. destruct (split_once x2e rest) as [[l r]|] eqn:E.
  - apply split_once_Some in E as [-> Hn]. rewrite length_app in Hl. simpl in Hl.
    case_bool_decide; [split; [by eauto|done]|].
    rewrite IH by lia. split.
    + intros (p & t & -> & Ht). exists (l ++ x2e :: p), t. by rewrite <-app_assoc.
    + intros (p & t & Heq & Ht). apply app_eq_inv in Heq as [(k & -> & Hk)|(k & -> & Hk)].
      * destruct k as [|b k]; [simplify_eq/=; done|].
        injection Hk as <- ->. exfalso. apply Hn, elem_of_app. right. by left.
      * destruct k as [|b k]; [simplify_eq/=; done|].
        injection Hk as <- Hk. subst r. eauto.
  - apply split_once_None in E. split; [done|]. intros (p & t & -> & _).
    exfalso. apply E, elem_of_app. right. by left.
Qed.

Lemma domain_matches_suffix_set_spec host S :
  domain_matches_suffix_set host S = true <->
  host ∈ S \/ exists p t, host = p ++ x2e :: t /\ t ∈ S.
Proof.
  unfold domain_matches_suffix_set. case_bool_decide as H1; [subst; set_solver|].
  case_bool_decide as H2; [naive_solver|]. rewrite suffix_loop_spec by done. naive_solver.
Qed.

Lemma suffix_set_finalize rs t : t ∈ suffix_set (finalize rs) <->
  t <> [] /\ exists s, s ∈ domain_suffixes rs /\ t = to_ascii_lowercase (strip_suffix s).
Proof.
  unfold finalize. cbn [suffix_set]. rewrite elem_of_list_to_set, list_elem_of_In, filter_In,
    in_map_iff, negb_true_iff, <-not_true_iff_false, is_empty_true.
  setoid_rewrite list_elem_of_In. unfold strip_suffix. naive_solver.
Qed.

Lemma lowercase_idemp a : to_ascii_lowercase (to_ascii_lowercase a) = to_ascii_lowercase a.
Proof.
  unfold to_ascii_lowercase. rewrite map_map. apply map_ext. intros b. unfold lower_byte.
  destruct (in_range 65 90 b) eqn:E; [|by rewrite E]. unfold in_range in *. bool_props.
  rewrite bz_u8_small by lia. rewrite (proj2 (Z.leb_gt (bz b + 32) 90)) by lia.
  by rewrite andb_false_r.
Qed.

Lemma finalized_suffixes rs dom :
  domain_matches_suffix_set (to_ascii_lowercase dom) (suffix_set (finalize rs)) = true <->
  Exists (fun s => strip_suffix s <> [] /\ under dom (strip_suffix s)) (domain_suffixes rs).
Proof.
  rewrite domain_matches_suffix_set_spec, Exists_exists. unfold under.
  setoid_rewrite suffix_set_finalize.
  assert (Hne : forall s, to_ascii_lowercase s <> [] <-> s <> []) by (intros [|b s]; simpl; naive_solver).
  split.
  - intros [(H0 & s & Hs & Heq)|(p & t & Heq & H0 & s & Hs & ->)]; exists s; (split; [done|]).
    + rewrite Heq in H0. apply (proj1 (Hne _)) in H0. split; [done|]. by left.
    + apply (proj1 (Hne _)) in H0. split; [done|]. right. by exists p.
  - intros (s & Hs & H0 & [Heq|[p Hp]]).
    + left. rewrite Heq. split; [by apply Hne|]. by exists s.
    + right. exists p, (to_ascii_lowercase (strip_suffix s)). rewrite Hp.
      split; [done|]. split; [by apply Hne|]. by exists s.
Qed.

(** Trimming changes nothing or makes a text shorter. *)
Lemma strip_all_drop seqs fuel : forall s, exists n, strip_all seqs fuel s = drop n s.
Proof.
  assert (Hone : forall ws s s', strip_one ws s = Some s' -> exists n, s' = drop n s).
  { induction ws as [|w ws IH]; intros s s'; cbn [strip_one]; [done|]. destruct (starts_with s w); [|apply IH].
    intros [= <-]. by eexists. }
  induction fuel as [|fuel IH]; intros s; cbn [strip_all]; [by exists 0%nat|].
  destruct (strip_one seqs s) as [s'|] eqn:E; [|by exists 0%nat]. apply Hone in E as [n ->].
  destruct (IH (drop n s)) as [m ->]. exists (n + m)%nat. by rewrite drop_drop.
Qed.
Lemma drop_same {A} n (s : list A) : (length s <= length (drop n s))%nat -> drop n s = s.
Proof. rewrite length_drop. intros Hl. destruct n as [|n]; [done|]. destruct s; [done|]. cbn [length] in Hl. lia. Qed.
Lemma trim_shorter s : trim s <> s -> (length (trim s) < length s)%nat.
Proof.
  intros Hne. apply Nat.nle_gt. intros Hl. apply Hne. unfold trim, trim_end, trim_start in *.
  destruct (strip_all_drop white_space (length s) s) as [n En]. rewrite En in *.
  destruct (strip_all_drop (map (@rev byte) white_space) (length (drop n s)) (rev (drop n s))) as [m Em]. rewrite Em in *.
  rewrite length_rev, length_drop, length_rev, length_drop in Hl.
  rewrite (drop_same n) in * by (rewrite length_drop; lia). rewrite drop_same; [apply rev_involutive|]. rewrite length_drop, length_rev. lia.
Qed.

(** C36.  The optimised matchers of compiled rule sets against a scan of the rule
    list.  A domain is in the finalized exact set when it equals a listed domain up
    to ASCII case.  For suffixes none of which, without its leading asterisks and dots,
    begins or ends in white space, the walk over the labels finds one exactly when the
    label-boundary matcher [domain_matches_suffix], used for inline rules, accepts one
    of them.  Where one does, they differ: [finalize] does not trim and the matcher
    does, so that the trimmed suffix itself is accepted by the matcher and, when the
    suffix is the only one listed, not found in the set. *)
Theorem rule_set_lookup_is_scan rs dom :
  bool_decide (to_ascii_lowercase dom ∈ domain_set (finalize rs))
    = existsb (eq_ignore_ascii_case dom) (domains rs) /\
  (Forall (fun s => trim (strip_suffix s) = strip_suffix s) (domain_suffixes rs) ->
   domain_matches_suffix_set (to_ascii_lowercase dom) (suffix_set (finalize rs))
     = existsb (domain_matches_suffix dom) (domain_suffixes rs)) /\
  (forall s, let t := trim (strip_suffix s) in t <> strip_suffix s -> t <> [] ->
   domain_matches_suffix t s = true /\
   (domain_suffixes rs = [s] ->
    domain_matches_suffix_set (to_ascii_lowercase t) (suffix_set (finalize rs)) = false)).
Proof.
  split; [|split].
  - apply eq_true_iff_eq. rewrite bool_decide_eq_true, existsb_exists. cbn [finalize domain_set].
    rewrite elem_of_list_to_set, list_elem_of_In, in_map_iff.
    setoid_rewrite eq_ignore_ascii_case_true. naive_solver.
  - intros Ht. apply eq_true_iff_eq. rewrite finalized_suffixes, existsb_exists, Exists_exists.
    setoid_rewrite domain_matches_suffix_spec. setoid_rewrite <-list_elem_of_In.
    rewrite Forall_forall in Ht.
    split; intros (s & Hs & H); exists s; (split; [done|]); specialize (Ht s Hs); by rewrite Ht in *.
  - intros s t Hne Hnil. split; [apply domain_matches_suffix_spec; split; [done|by left]|].
    intros Hs. apply not_true_iff_false. rewrite finalized_suffixes, Hs, Exists_cons, Exists_nil.
    intros [[_ Hu]|[]]. pose proof (trim_shorter (strip_suffix s) Hne) as Hl. fold t in Hl.
    destruct Hu as [He|[p He]]; apply (f_equal length) in He; unfold to_ascii_lowercase in He; rewrite ?length_app in He;
      cbn [length] in He; rewrite ?length_map in He; lia.
Qed.

Lemma rule_set_lookup_is_scan_witness :
  let rs := mkCompiledRuleSet [str "Example.com"] [str "*.baidu.com"; str ".cn"] [] [] [] ∅ ∅ in
  domain_matches_suffix_set (to_ascii_lowercase (str "www.BAIDU.com")) (suffix_set (finalize rs))
    = existsb (domain_matches_suffix (str "www.BAIDU.com")) (domain_suffixes rs).
Proof.
  intros rs. destruct (rule_set_lookup_is_scan rs (str "www.BAIDU.com")) as (_ & H & _). apply H.
  repeat constructor; by vm_compute.
Defined.

(** ** Address blocks *)

Lemma cidr_mask_bits w p i : 0 < p < w -> 0 <= i ->
  Z.testbit (cidr_mask w p) i = (w - p <=? i) && (i <? w).
Proof.
  intros Hp Hi. unfold cidr_mask, wrap. rewrite (proj2 (Z.leb_gt _ _)) by lia.
  rewrite (Z.mod_small (w - p) w) by lia.
  destruct (Z.ltb_spec i w).
  - rewrite Z.mod_pow2_bits_low, andb_true_r by lia. rewrite Z.shiftl_spec by lia.
    destruct (Z.leb_spec (w - p) i).
    + replace (2 ^ w - 1) with (Z.ones w) by (rewrite Z.ones_equiv; lia).
      apply Z.ones_spec_low. lia.
    + apply Z.testbit_neg_r. lia.
  - rewrite andb_false_r. apply Z.mod_pow2_bits_high. lia.
Qed.

Lemma land_cidr_mask w p a : 0 < p < w -> 0 <= a < 2 ^ w ->
  Z.land a (cidr_mask w p) = a / 2 ^ (w - p) * 2 ^ (w - p).
Proof.
  intros Hp Ha. rewrite <-Z.shiftr_div_pow2, <-Z.shiftl_mul_pow2 by lia.
  apply Z.bits_inj'. intros i Hi. rewrite Z.land_spec, cidr_mask_bits, Z.shiftl_spec by lia.
  destruct (Z.leb_spec (w - p) i); simpl.
  - rewrite Z.shiftr_spec by lia. replace (i - (w - p) + (w - p)) with i by lia.
    destruct (Z.ltb_spec i w); [apply andb_true_r|].
    rewrite (testbit_above a w) by lia. done.
  - rewrite andb_false_r. symmetry. apply Z.testbit_neg_r. lia.
Qed.

Lemma land_full_mask w p a : 0 < w -> p = 0 \/ w <= p -> 0 <= a < 2 ^ w ->
  Z.land a (cidr_mask w p) = a.
Proof.
  intros Hw Hp Ha.
  assert (cidr_mask w p = 2 ^ w - 1) as ->.
  { unfold cidr_mask, wrap. destruct (Z.leb_spec w p); [done|].
    assert (p = 0) as -> by lia. rewrite Z.sub_0_r, Z.mod_same, Z.shiftl_0_r by lia.
    apply Z.mod_small. lia. }
  rewrite land_ones_mod by lia. apply Z.mod_small. lia.
Qed.

(** Two addresses of [w] bits agree on a prefix of [p] bits, as the mask
    computes it: the whole address for [p] beyond the width, and for [p = 0]. *)
Definition same_block (w p a b : Z) : Prop :=
  if decide (0 < p < w) then a / 2 ^ (w - p) = b / 2 ^ (w - p) else a = b.

Lemma same_block_spec w p a b : 0 < w -> 0 <= p -> 0 <= a < 2 ^ w -> 0 <= b < 2 ^ w ->
  (Z.land a (cidr_mask w p) =? Z.land b (cidr_mask w p)) = true <-> same_block w p a b.
Proof.
  intros Hw Hp Ha Hb. rewrite Z.eqb_eq. unfold same_block.
  destruct (decide (0 < p < w)).
  - rewrite !land_cidr_mask by done. split; [|by intros ->].
    apply Z.mul_reg_r. apply Z.pow_nonzero; lia.
  - rewrite !land_full_mask by lia. done.
Qed.

Lemma ip_in_cidr_text ip net p : ip_wf ip -> ip_wf net -> 0 <= p < 256 ->
  ip_in_cidr ip (show_ip net ++ x2f :: show_uint p) = true <->
  match ip, net with
  | V4 a, V4 b => same_block 32 p a b
  | V6 a, V6 b => same_block 128 p a b
  | _, _ => False
  end.
Proof.
  intros Hi Hn Hp. unfold ip_in_cidr.
  rewrite split_once_app by apply show_ip_no_slash.
  rewrite parse_show_ip, parse_show_u8 by done. destruct ip, net; simpl in Hi, Hn; try done.
  - apply same_block_spec; (done || lia).
  - apply same_block_spec; (done || lia).
Qed.

(** Membership in an address block.  For a block written as [net/p], an
    address belongs exactly when it has the same family and agrees with [net] on
    the first [p] bits; a prefix beyond the width means the single address, and
    so, the shift count being taken modulo the width, does [p = 0]: the block
    [0.0.0.0/0] contains only [0.0.0.0]. *)
Theorem cidr_membership ip net p : ip_wf ip -> ip_wf net -> 0 <= p < 256 ->
  ip_in_cidr ip (show_ip net ++ x2f :: show_uint p) = true <->
  match ip, net with
  | V4 a, V4 b => if decide (0 < p < 32) then a / 2 ^ (32 - p) = b / 2 ^ (32 - p) else a = b
  | V6 a, V6 b => if decide (0 < p < 128) then a / 2 ^ (128 - p) = b / 2 ^ (128 - p) else a = b
  | _, _ => False
  end.
Proof. apply ip_in_cidr_text. Qed.

Lemma cidr_membership_witness :
  ip_in_cidr (V4 (8 * 2 ^ 24 + 8)) (str "0.0.0.0/0") = true <-> 8 * 2 ^ 24 + 8 = 0.
Proof. apply (cidr_membership (V4 (8 * 2 ^ 24 + 8)) (V4 0) 0); simpl; lia. Defined.

(** A block given by its parsed text. *)
Lemma ip_in_cidr_parsed4 a cidr net pre b p : 0 <= a < 2 ^ 32 ->
  split_once x2f cidr = Some (net, pre) -> parse_ip net = Some (V4 b) ->
  parse_uint 8 pre = Some p -> 0 <= p ->
  ip_in_cidr (V4 a) cidr = true <-> same_block 32 p a b.
Proof.
  intros Ha H1 H2 H3 Hp. pose proof (parse_ip_wf _ _ H2) as Hb. unfold ip_in_cidr.
  rewrite H1, H2, H3. apply same_block_spec; (done || lia).
Qed.

Lemma ip_in_cidr_parsed6 a cidr net pre b p : 0 <= a < 2 ^ 128 ->
  split_once x2f cidr = Some (net, pre) -> parse_ip net = Some (V6 b) ->
  parse_uint 8 pre = Some p -> 0 <= p ->
  ip_in_cidr (V6 a) cidr = true <-> same_block 128 p a b.
Proof.
  intros Ha H1 H2 H3 Hp. pose proof (parse_ip_wf _ _ H2) as Hb. unfold ip_in_cidr.
  rewrite H1, H2, H3. apply same_block_spec; (done || lia).
Qed.

(** Evaluate a membership test in a literal block to an arithmetic condition. *)
Ltac literal_block4 a :=
  repeat match goal with
  | |- context [ip_in_cidr (V4 a) ?c] =>
      let s := eval vm_compute in (split_once x2f c) in
      lazymatch s with Some (?net, ?pre) =>
        let b := eval vm_compute in (parse_ip net) in
        let p := eval vm_compute in (parse_uint 8 pre) in
        lazymatch b with Some (V4 ?b) =>
        lazymatch p with Some ?p =>
          let H := fresh "Hblk" in
          assert (H : ip_in_cidr (V4 a) c = true <-> same_block 32 p a b)
            by (apply (ip_in_cidr_parsed4 a c net pre b p); [assumption|by vm_compute..]);
          let k := eval vm_compute in (if decide (0 < p < 32) then 2 ^ (32 - p) else 1) in
          let q := eval vm_compute in (b / k) in
          let H' := fresh "Hblk" in
          assert (H' : ip_in_cidr (V4 a) c = (a / k =? q)); [
            apply eq_true_iff_eq; rewrite H, Z.eqb_eq;
            unfold same_block; first [rewrite decide_True by lia | rewrite decide_False by lia];
            rewrite ?Z.div_1_r; reflexivity|];
          rewrite H'; clear H H'
        end end
      end
  end.

Lemma octets4_split a : 0 <= a < 2 ^ 32 ->
  exists o0 o1 o2 o3, octet 4 0 a = o0 /\ octet 4 1 a = o1 /\ octet 4 2 a = o2 /\
    octet 4 3 a = o3 /\ 0 <= o0 < 256 /\ 0 <= o1 < 256 /\ 0 <= o2 < 256 /\ 0 <= o3 < 256 /\
    a = ((o0 * 256 + o1) * 256 + o2) * 256 + o3.
Proof.
  intros Ha. do 4 eexists. do 4 (split; [reflexivity|]).
  do 4 (split; [apply octet_range|]). by rewrite octets4_value.
Qed.

Definition private_blocks4 : list (list byte) :=
  [str "10.0.0.0/8"; str "172.16.0.0/12"; str "192.168.0.0/16"; str "127.0.0.0/8";
   str "169.254.0.0/16"].

Lemma private_v4 a : 0 <= a < 2 ^ 32 ->
  is_private_ip (V4 a) = existsb (ip_in_cidr (V4 a)) private_blocks4.
Proof.
  intros Ha. unfold private_blocks4. cbn [existsb is_private_ip]. literal_block4 a.
  destruct (octets4_split a Ha) as (o0 & o1 & o2 & o3 & -> & -> & _ & _ & ? & ? & ? & ? & ->).
  apply eq_true_iff_eq.
  rewrite ?orb_true_iff, ?andb_true_iff, ?Z.eqb_eq, ?Z.leb_le.
  Z.to_euclidean_division_equations. lia.
Qed.

Ltac literal_block6 a :=
  repeat match goal with
  | |- context [ip_in_cidr (V6 a) ?c] =>
      let s := eval vm_compute in (split_once x2f c) in
      lazymatch s with Some (?net, ?pre) =>
        let b := eval vm_compute in (parse_ip net) in
        let p := eval vm_compute in (parse_uint 8 pre) in
        lazymatch b with Some (V6 ?b) =>
        lazymatch p with Some ?p =>
          let H := fresh "Hblk" in
          assert (H : ip_in_cidr (V6 a) c = true <-> same_block 128 p a b)
            by (apply (ip_in_cidr_parsed6 a c net pre b p); [assumption|by vm_compute..]);
          let k := eval vm_compute in (if decide (0 < p < 128) then 128 - p else 0) in
          let q := eval vm_compute in (b / 2 ^ k) in
          let H' := fresh "Hblk" in
          assert (H' : ip_in_cidr (V6 a) c = (a / 2 ^ k =? q)); [
            apply eq_true_iff_eq; rewrite H, Z.eqb_eq;
            unfold same_block; first [rewrite decide_True by lia | rewrite decide_False by lia];
            change (2 ^ 0) with 1; rewrite ?Z.div_1_r; reflexivity|];
          rewrite H'; clear H H'
        end end
      end
  end.

Lemma octet16_div i a : i <= 15 -> octet 16 i a = (a / 2 ^ (8 * (15 - i))) `mod` 256.
Proof. intros Hi. rewrite octet_div by lia. by replace (16 - 1 - i) with (15 - i) by lia. Qed.

(** The octets before the last one are zero exactly below 256. *)
Lemma octets16_zero a : 0 <= a < 2 ^ 128 ->
  forallb (fun i => octet 16 i a =? 0) [0; 1; 2; 3; 4; 5; 6; 7; 8; 9; 10; 11; 12; 13; 14] = true
  <-> a < 256.
Proof.
  intros Ha. split.
  - intros H. cbn [forallb] in H.
    repeat (apply andb_true_iff in H as [?%Z.eqb_eq H]).
    rewrite !octet16_div in * by lia.
    assert (Hstep : forall k k', 0 <= k -> k' = k + 8 -> a / 2 ^ k' = 0 ->
      (a / 2 ^ k) `mod` 256 = 0 -> a / 2 ^ k = 0).
    { intros k k' Hk -> Hz Hm. rewrite Z.pow_add_r, <-Z.div_div in Hz by lia.
      change (2 ^ 8) with 256 in Hz. pose proof (Z.div_mod (a / 2 ^ k) 256). lia. }
    assert (Hz : a / 2 ^ 128 = 0) by (apply Z.div_small; done).
    repeat match goal with
    | Hz : a / 2 ^ ?k' = 0, Hm : (a / 2 ^ ?e) `mod` 256 = 0 |- _ =>
        let k := eval vm_compute in e in
        let ok := eval vm_compute in (k + 8 =? k') in
        lazymatch ok with true =>
          change (2 ^ e) with (2 ^ k) in Hm;
          apply (Hstep k k' ltac:(lia) eq_refl Hz) in Hm; clear Hz; rename Hm into Hz
        end
    end.
    apply Z.div_small_iff in Hz; [|lia]. change (2 ^ 8) with 256 in Hz. lia.
  - intros Hs. cbn [forallb]. rewrite !octet16_div by lia.
    assert (Hz : forall k, 8 <= k -> a / 2 ^ k = 0).
    { intros k Hk. apply Z.div_small. split; [lia|].
      assert (2 ^ 8 <= 2 ^ k) by (apply Z.pow_le_mono_r; lia). change (2 ^ 8) with 256 in *. lia. }
    rewrite !Hz by lia. done.
Qed.

Lemma land_octet_checks o : 0 <= o < 256 ->
  (Z.land o 254 =? 252) = (o / 2 =? 126) /\ (Z.land o 192 =? 128) = (o / 64 =? 2) /\
  (Z.land o 192 =? 64) = (o / 64 =? 1) /\ (Z.land o 254 =? 18) = (o / 2 =? 9).
Proof.
  intros H. pose (f o := Bool.eqb (Z.land o 254 =? 252) (o / 2 =? 126) &&
    Bool.eqb (Z.land o 192 =? 128) (o / 64 =? 2) && Bool.eqb (Z.land o 192 =? 64) (o / 64 =? 1) &&
    Bool.eqb (Z.land o 254 =? 18) (o / 2 =? 9)).
  assert (Hf : f o = true) by (apply (all_below_spec 256 f 0); [by vm_compute|lia]).
  unfold f in Hf. rewrite !andb_true_iff, !Bool.eqb_true_iff in Hf. naive_solver.
Qed.

Definition private_blocks6 : list (list byte) :=
  [str "::/128"; str "::1/128"; str "fc00::/7"; str "fe80::/10"].

(** Everything above the low 112 bits, in terms of the first two octets. *)
Lemma high_octets a : 0 <= a < 2 ^ 128 ->
  octet 16 0 a = a / 2 ^ 112 / 256 /\ octet 16 1 a = (a / 2 ^ 112) `mod` 256 /\
  0 <= a / 2 ^ 112 < 65536 /\ forall k, 0 <= k -> a / 2 ^ (112 + k) = a / 2 ^ 112 / 2 ^ k.
Proof.
  intros Ha.
  assert (Hd : forall k, 0 <= k -> a / 2 ^ (112 + k) = a / 2 ^ 112 / 2 ^ k).
  { intros k Hk. rewrite Z.pow_add_r, Z.div_div by lia. done. }
  assert (Hr : 0 <= a / 2 ^ 112 < 65536).
  { split; [apply Z.div_pos; lia|]. apply Z.div_lt_upper_bound; lia. }
  split_and!; [| |lia|lia|done].
  - rewrite octet16_div by lia. change (8 * (15 - 0)) with (112 + 8). rewrite Hd by lia.
    apply Z.mod_small. split; [apply Z.div_pos; lia|]. apply Z.div_lt_upper_bound; lia.
  - by rewrite octet16_div by lia.
Qed.

Lemma private_v6 a : 0 <= a < 2 ^ 128 ->
  is_private_ip (V6 a) = existsb (ip_in_cidr (V6 a)) private_blocks6.
Proof.
  intros Ha. unfold private_blocks6. cbn [existsb is_private_ip]. literal_block6 a.
  destruct (high_octets a Ha) as (H0 & H1 & Hr & Hd).
  pose proof (land_octet_checks (octet 16 0 a) (octet_range _ _ _)) as (-> & _ & _ & _).
  pose proof (land_octet_checks (octet 16 1 a) (octet_range _ _ _)) as (_ & -> & _ & _).
  change 121 with (112 + 9). change 118 with (112 + 6). rewrite !Hd, H0, H1 by lia.
  pose proof (octets16_zero a Ha) as Hz.
  assert (H15 : octet 16 15 a = a `mod` 256) by (rewrite octet16_div by lia; by rewrite Z.div_1_r).
  change (2 ^ 0) with 1. rewrite Z.div_1_r.
  change [0; 1; 2; 3; 4; 5; 6; 7; 8; 9; 10; 11; 12; 13; 14; 15]
    with ([0; 1; 2; 3; 4; 5; 6; 7; 8; 9; 10; 11; 12; 13; 14] ++ [15]).
  rewrite forallb_app.
  set (z := forallb _ [0; 1; 2; 3; 4; 5; 6; 7; 8; 9; 10; 11; 12; 13; 14]) in *. clearbody z.
  cbn [forallb]. rewrite H15, andb_true_r. set (h := a / 2 ^ 112) in *. clearbody h.
  change (2 ^ 9) with 512. change (2 ^ 6) with 64.
  assert (Hm : a < 256 -> a `mod` 256 = a) by (intros; apply Z.mod_small; lia).
  apply eq_true_iff_eq. rewrite ?orb_true_iff, ?andb_true_iff, Hz, ?Z.eqb_eq.
  assert (Hh : h / 256 = 254 /\ (h `mod` 256) / 64 = 2 <-> h / 64 = 1018).
  { Z.to_euclidean_division_equations. lia. }
  assert (Hh' : h / 256 / 2 = 126 <-> h / 512 = 126).
  { Z.to_euclidean_division_equations. lia. }
  rewrite Hh, Hh'. clear Hh Hh' Hz. 
  assert (Hlow : a < 256 /\ a `mod` 256 = 0 <-> a = 0) by (split; [lia|intros ->; done]).
  assert (Hlow1 : a < 256 /\ a `mod` 256 = 1 <-> a = 1) by (split; [lia|intros ->; done]).
  rewrite Hlow, Hlow1. intuition discriminate.
Qed.
