(* ===== verification/Dest.v ===== *)
(** * Destination policy of the RST server

    [rst/dest.rs]: the guard against relaying to private, link-local and
    special-use addresses, with the predicates of [core::net] it calls. *)
From stdpp Require Import base tactics list strings.
From Stdlib Require Import ZArith Lia.
From Stdlib Require Import Strings.Byte.
From S2P Require Import Prelude Json Text Ip Route.

Local Open Scope Z_scope.

(** [Ipv4Addr::is_*] and [Ipv6Addr::is_*]. *)
Definition is_loopback4 (a : Z) : bool := octet 4 0 a =? 127.
Definition is_private4 (a : Z) : bool :=
  let o i := octet 4 i a in
  (o 0 =? 10) || (o 0 =? 172) && ((16 <=? o 1) && (o 1 <=? 31)) || (o 0 =? 192) && (o 1 =? 168).
Definition is_link_local4 (a : Z) : bool := (octet 4 0 a =? 169) && (octet 4 1 a =? 254).
Definition is_broadcast4 (a : Z) : bool := a =? 2 ^ 32 - 1.
Definition is_multicast4 (a : Z) : bool := (224 <=? octet 4 0 a) && (octet 4 0 a <=? 239).
Definition is_multicast6 (a : Z) : bool := octet 16 0 a =? 255.

Definition is_public_v4 (ip : Z) : bool :=
  if (ip =? 0) || is_loopback4 ip || is_private4 ip || is_link_local4 ip || is_broadcast4 ip
     || is_multicast4 ip then false
  else
    let o i := octet 4 i ip in
    if (o 0 =? 100) && (Z.land (o 1) 192 =? 64) then false
    else if (o 0 =? 192) && (o 1 =? 0) && (o 2 =? 0) then false
    else if (o 0 =? 192) && (o 1 =? 0) && (o 2 =? 2) then false
    else if (o 0 =? 198) && (o 1 =? 51) && (o 2 =? 100) then false
    else if (o 0 =? 203) && (o 1 =? 0) && (o 2 =? 113) then false
    else if (o 0 =? 198) && (Z.land (o 1) 254 =? 18) then false
    else true.

Definition is_public_v6 (ip : Z) : bool :=
  if (ip =? 0) || (ip =? 1) || is_multicast6 ip then false
  else if match to_ipv4_mapped ip with Some v4 => negb (is_public_v4 v4) | None => false end
  then false
  else if Z.land (segment 0 ip) 65024 =? 64512 then false
  else if Z.land (segment 0 ip) 65472 =? 65152 then false
  else true.

Definition is_public_global (ip : IpAddr) : bool :=
  match ip with V4 v4 => is_public_v4 v4 | V6 v6 => is_public_v6 v6 end.

Definition is_forbidden_dest (addr : SocketAddr) (allow_private : bool) : bool :=
  if allow_private then false else negb (is_public_global (sa_ip addr)).

(** ** The policy as address blocks *)

Definition forbidden_blocks4 : list (list byte) :=
  [str "0.0.0.0/32"; str "127.0.0.0/8"; str "10.0.0.0/8"; str "172.16.0.0/12";
   str "192.168.0.0/16"; str "169.254.0.0/16"; str "255.255.255.255/32"; str "224.0.0.0/4";
   str "100.64.0.0/10"; str "192.0.0.0/24"; str "192.0.2.0/24"; str "198.51.100.0/24";
   str "203.0.113.0/24"; str "198.18.0.0/15"].
Definition forbidden_blocks6 : list (list byte) :=
  [str "::/128"; str "::1/128"; str "ff00::/8"; str "fc00::/7"; str "fe80::/10"].

Lemma negb_if (b : bool) (c : bool) : negb (if b then false else c) = b || negb c.
Proof. by destruct b. Qed.

(** Decide one block test by the octets. *)
Ltac block_octets :=
  apply eq_true_iff_eq; rewrite ?orb_true_iff, ?andb_true_iff, ?Z.eqb_eq, ?Z.leb_le;
  Z.to_euclidean_division_equations; lia.

Lemma forbidden_v4 a : 0 <= a < 2 ^ 32 ->
  negb (is_public_v4 a) = existsb (ip_in_cidr (V4 a)) forbidden_blocks4.
Proof.
  intros Ha. unfold forbidden_blocks4. cbn [existsb]. literal_block4 a.
  unfold is_public_v4, is_loopback4, is_private4, is_link_local4, is_broadcast4, is_multicast4.
  cbv zeta. rewrite !negb_if, Z.div_1_r.
  pose proof (land_octet_checks (octet 4 1 a) (octet_range _ _ _)) as (_ & _ & -> & ->).
  change (2 ^ 32 - 1) with 4294967295.
  destruct (octets4_split a Ha) as (o0 & o1 & o2 & o3 & -> & -> & -> & _ & ? & ? & ? & ? & Hval).
  assert ((a / 16777216 =? 127) = (o0 =? 127)) as -> by (subst a; block_octets).
  assert ((a / 16777216 =? 10) = (o0 =? 10)) as -> by (subst a; block_octets).
  assert ((a / 1048576 =? 2753) = (o0 =? 172) && ((16 <=? o1) && (o1 <=? 31))) as ->
    by (subst a; block_octets).
  assert ((a / 65536 =? 49320) = (o0 =? 192) && (o1 =? 168)) as -> by (subst a; block_octets).
  assert ((a / 65536 =? 43518) = (o0 =? 169) && (o1 =? 254)) as -> by (subst a; block_octets).
  assert ((a / 268435456 =? 14) = (224 <=? o0) && (o0 <=? 239)) as -> by (subst a; block_octets).
  assert ((a / 4194304 =? 401) = (o0 =? 100) && (o1 / 64 =? 1)) as -> by (subst a; block_octets).
  assert ((a / 256 =? 12582912) = (o0 =? 192) && (o1 =? 0) && (o2 =? 0)) as ->
    by (subst a; block_octets).
  assert ((a / 256 =? 12582914) = (o0 =? 192) && (o1 =? 0) && (o2 =? 2)) as ->
    by (subst a; block_octets).
  assert ((a / 256 =? 12989284) = (o0 =? 198) && (o1 =? 51) && (o2 =? 100)) as ->
    by (subst a; block_octets).
  assert ((a / 256 =? 13303921) = (o0 =? 203) && (o1 =? 0) && (o2 =? 113)) as ->
    by (subst a; block_octets).
  assert ((a / 131072 =? 25353) = (o0 =? 198) && (o1 / 2 =? 9)) as -> by (subst a; block_octets).
  apply eq_true_iff_eq. rewrite ?orb_true_iff. tauto.
Qed.

Lemma segment0_blocks a : 0 <= a < 2 ^ 128 ->
  (Z.land (segment 0 a) 65024 =? 64512) = (a / 2 ^ (112 + 9) =? 126) /\
  (Z.land (segment 0 a) 65472 =? 65152) = (a / 2 ^ (112 + 6) =? 1018) /\
  is_multicast6 a = (a / 2 ^ (112 + 8) =? 255).
Proof.
  intros Ha. destruct (high_octets a Ha) as (H0 & _ & Hr & Hd).
  unfold is_multicast6. rewrite H0, !Hd, segment_div by lia.
  change (16 * (7 - 0)) with 112. rewrite (Z.mod_small (a / 2 ^ 112)) by lia.
  set (h := a / 2 ^ 112) in *. clearbody h.
  change 65024 with (cidr_mask 16 7). change 65472 with (cidr_mask 16 10).
  rewrite !land_cidr_mask by lia. change (2 ^ (16 - 7)) with 512. change (2 ^ (16 - 10)) with 64.
  change (2 ^ 9) with 512. change (2 ^ 6) with 64. change (2 ^ 8) with 256.
  split_and!; apply eq_true_iff_eq; rewrite !Z.eqb_eq; lia.
Qed.

Lemma mapped_range a v4 : to_ipv4_mapped a = Some v4 -> 0 <= v4 < 2 ^ 32.
Proof.
  unfold to_ipv4_mapped. case_match; [|done]. intros [= <-].
  rewrite land_ones_mod by lia. apply Z.mod_pos_bound. lia.
Qed.

Lemma forbidden_v6 a : 0 <= a < 2 ^ 128 ->
  negb (is_public_v6 a) = existsb (ip_in_cidr (V6 a)) forbidden_blocks6
    || match to_ipv4_mapped a with
       | Some v4 => existsb (ip_in_cidr (V4 v4)) forbidden_blocks4
       | None => false
       end.
Proof.
  intros Ha. unfold forbidden_blocks6. cbn [existsb]. literal_block6 a.
  change (2 ^ 0) with 1. rewrite !Z.div_1_r.
  destruct (segment0_blocks a Ha) as (H1 & H2 & H3).
  unfold is_public_v6. rewrite !negb_if, H1, H2, H3.
  change (112 + 9) with 121. change (112 + 6) with 118. change (112 + 8) with 120.
  assert (match to_ipv4_mapped a with Some v4 => negb (is_public_v4 v4) | None => false end
    = match to_ipv4_mapped a with
       | Some v4 => existsb (ip_in_cidr (V4 v4)) forbidden_blocks4
       | None => false
       end) as ->.
  { destruct (to_ipv4_mapped a) as [v4|] eqn:E; [|done]. apply forbidden_v4. by eapply mapped_range. }
  apply eq_true_iff_eq. rewrite ?orb_true_iff. cbn [negb]. tauto.
Qed.

Lemma private_block_forbidden4 a : 0 <= a < 2 ^ 32 ->
  existsb (ip_in_cidr (V4 a)) private_blocks4 = true ->
  existsb (ip_in_cidr (V4 a)) forbidden_blocks4 = true.
Proof.
  unfold private_blocks4, forbidden_blocks4. cbn [existsb]. intros _.
  rewrite ?orb_true_iff. tauto.
Qed.

(** The open-proxy guard of the RST server.  Unless private destinations
    are allowed, exactly the addresses of the listed special-use blocks are
    refused, an IPv4-mapped IPv6 address being judged by the address it carries;
    in particular every address the router calls private is refused. *)
Theorem forbidden_dest_blocks addr : ip_wf (sa_ip addr) ->
  is_forbidden_dest addr true = false /\
  is_forbidden_dest addr false
    = match sa_ip addr with
      | V4 a => existsb (ip_in_cidr (V4 a)) forbidden_blocks4
      | V6 a => existsb (ip_in_cidr (V6 a)) forbidden_blocks6
          || match to_ipv4_mapped a with
             | Some v4 => existsb (ip_in_cidr (V4 v4)) forbidden_blocks4
             | None => false
             end
      end /\
  (is_private_ip (sa_ip addr) = true -> is_forbidden_dest addr false = true).
Proof.
  intros Hwf. split; [done|]. unfold is_forbidden_dest.
  destruct (sa_ip addr) as [a|a]; cbn [is_public_global]; cbn [ip_wf] in Hwf.
  - rewrite forbidden_v4, private_v4 by done. split; [done|]. by apply private_block_forbidden4.
  - rewrite forbidden_v6, private_v6 by done. split; [done|].
    unfold private_blocks6, forbidden_blocks6. cbn [existsb]. rewrite ?orb_true_iff. tauto.
Qed.

Lemma forbidden_dest_blocks_witness :
  let addr := mkSocketAddr (V6 (65535 * 2 ^ 32 + 127 * 2 ^ 24 + 1)) 80 in
  is_private_ip (sa_ip addr) = false /\ is_forbidden_dest addr false = true.
Proof.
  intros addr. split; [by vm_compute|].
  destruct (forbidden_dest_blocks addr) as (_ & -> & _); [simpl; lia|]. by vm_compute.
Defined.
