(* ===== verification/RateLimit.v ===== *)
(** * The per-user rate limiter

    [rsb-core/src/rate_limit.rs].  Token counts are IEEE double-precision
    numbers, computed with the Standard Library's [SpecFloat] at precision 53 and
    maximal exponent 1024; an [Instant] is a count of nanoseconds and a
    [Duration] a non-negative one.  The clock and the lateness of timers are
    arguments. *)
From stdpp Require Import base tactics list strings.
From Stdlib Require Import ZArith Lia.
From Stdlib Require Import Floats.SpecFloat.
From S2P Require Import Prelude.

Local Open Scope Z_scope.

(** ** [f64] and [Duration] *)

Abbreviation f64 := spec_float.
(** [as f64] on integers: rounded to nearest, ties to even. *)
Definition f64_of (v : Z) : f64 := binary_normalize 53 1024 v 0 false.
Definition fadd : f64 -> f64 -> f64 := SFadd 53 1024.
Definition fsub : f64 -> f64 -> f64 := SFsub 53 1024.
Definition fmul : f64 -> f64 -> f64 := SFmul 53 1024.
Definition fdiv : f64 -> f64 -> f64 := SFdiv 53 1024.

Definition NANOS_PER_SEC : Z := 1000000000.
(** [Instant::duration_since]: zero when the clock ran backwards. *)
Definition duration_since (now earlier : Z) : Z := Z.max (now - earlier) 0.
Definition as_secs_f64 (d : Z) : f64 :=
  fadd (f64_of (d / NANOS_PER_SEC)) (fdiv (f64_of (d mod NANOS_PER_SEC)) (f64_of NANOS_PER_SEC)).

(** The nearest integer to [num / den], ties to even. *)
Definition round_half_even (num den : Z) : Z :=
  let q := num / den in
  match 2 * (num mod den) ?= den with
  | Lt => q
  | Gt => q + 1
  | Eq => if Z.even q then q else q + 1
  end.
(** [Duration::from_secs_f64]: panics on negative, too large and non-finite
    numbers. *)
Definition from_secs_f64 (x : f64) : result Z :=
  match x with
  | S754_zero _ => Ok 0
  | S754_finite false m e =>
      let ns := if 0 <=? e then Z.pos m * 2 ^ e * NANOS_PER_SEC
                else round_half_even (Z.pos m * NANOS_PER_SEC) (2 ^ (- e)) in
      if 2 ^ 64 * NANOS_PER_SEC <=? ns then Panic "overflow" else Ok ns
  | _ => Panic "cannot convert to Duration"
  end.

(** ** [RateLimiter] *)

Record RateLimiter := mkRateLimiter {
  bytes_per_sec : Z;
  rl_last : Z;
  rl_tokens : f64;
}.

Definition limiter_new (bps now : Z) : RateLimiter := mkRateLimiter bps now (f64_of bps).

Definition acquire_wait (l : RateLimiter) (now nbytes : Z) : result (Z * RateLimiter) :=
  let bps := bytes_per_sec l in
  if (bps =? 0) || (nbytes =? 0) then Ok (0, l)
  else
    let elapsed := as_secs_f64 (duration_since now (rl_last l)) in
    let tokens := fadd (rl_tokens l) (fmul elapsed (f64_of bps)) in
    let cap := fmul (f64_of bps) (f64_of 2) in
    let tokens := if SFltb cap tokens then cap else tokens in
    if SFleb (f64_of nbytes) tokens then
      Ok (0, mkRateLimiter bps now (fsub tokens (f64_of nbytes)))
    else
      let deficit := fsub (f64_of nbytes) tokens in
      wait ← from_secs_f64 (fdiv deficit (f64_of bps));
      Ok (wait, mkRateLimiter bps now (S754_zero false)).

(** [throttle]: sleeps until granted; the [i]-th sleep from the end of the fuel
    ends [late i] nanoseconds after it was due.  The time of the grant and the
    limiter, or nothing when the fuel runs out. *)
Fixpoint throttle (late : nat -> Z) (fuel : nat) (l : RateLimiter) (now nbytes : Z)
  : result (option (Z * RateLimiter)) :=
  if (bytes_per_sec l =? 0) || (nbytes =? 0) then Ok (Some (now, l))
  else
    match fuel with
    | O => Ok None
    | S fuel' =>
        '(wait, l) ← acquire_wait l now nbytes;
        if wait =? 0 then Ok (Some (now, l))
        else throttle late fuel' l (now + wait + late fuel') nbytes
    end.

(** A sequence of requests made by one task. *)
Fixpoint throttle_all (late : nat -> Z) (fuel : nat) (l : RateLimiter) (now : Z) (reqs : list Z)
  : result (option (Z * RateLimiter)) :=
  match reqs with
  | [] => Ok (Some (now, l))
  | n :: reqs =>
      g ← throttle late fuel l now n;
      match g with
      | Some (now, l) => throttle_all late fuel l now reqs
      | None => Ok None
      end
  end.

(** ** Waiting *)

(** Only differences of instants matter. *)
Definition shift (d : Z) (l : RateLimiter) : RateLimiter :=
  mkRateLimiter (bytes_per_sec l) (rl_last l + d) (rl_tokens l).

Lemma acquire_wait_shift l now n d :
  acquire_wait (shift d l) (now + d) n = prod_map id (shift d) <$> acquire_wait l now n.
Proof.
  unfold acquire_wait, shift. cbn [bytes_per_sec rl_last rl_tokens].
  destruct (_ || _); [done|].
  replace (duration_since (now + d) (rl_last l + d)) with (duration_since now (rl_last l))
    by (unfold duration_since; lia).
  set (t := if SFltb _ _ then _ else _). destruct (SFleb _ t); [done|].
  by destruct (from_secs_f64 _).
Qed.

Definition shift_grant (d : Z) (g : option (Z * RateLimiter)) : option (Z * RateLimiter) :=
  prod_map (fun t => t + d) (shift d) <$> g.

Lemma throttle_shift late d n : forall fuel l now,
  throttle late fuel (shift d l) (now + d) n = shift_grant d <$> throttle late fuel l now n.
Proof.
  induction fuel as [|fuel IH]; intros l now; cbn [throttle bytes_per_sec shift];
    destruct (_ || _) eqn:E; [done..|].
  rewrite acquire_wait_shift. destruct (acquire_wait l now n) as [[w l']| |]; cbn; [|done..].
  destruct (w =? 0); [done|].
  replace (now + d + w + late fuel) with (now + w + late fuel + d) by lia. apply IH.
Qed.

Lemma throttle_all_shift late fuel d reqs : forall l now,
  throttle_all late fuel (shift d l) (now + d) reqs
  = shift_grant d <$> throttle_all late fuel l now reqs.
Proof.
  induction reqs as [|n reqs IH]; intros l now; [done|]. cbn [throttle_all].
  rewrite throttle_shift. destruct (throttle late fuel l now n) as [[[t l']|]| |]; [apply IH|done..].
Qed.

(** A request that finds some tokens but too few, and waits for exactly the
    missing ones, finds them discarded when it wakes. *)
Lemma throttle_cycle b n w : b <> 0 -> n <> 0 -> w <> 0 ->
  acquire_wait (mkRateLimiter b 0 (S754_zero false)) w n
    = Ok (w, mkRateLimiter b w (S754_zero false)) ->
  forall fuel now,
    throttle (fun _ => 0) fuel (mkRateLimiter b now (S754_zero false)) (now + w) n = Ok None.
Proof.
  intros Hb Hn Hw H1.
  assert (Hz : (b =? 0) || (n =? 0) = false) by (apply orb_false_iff; lia).
  induction fuel as [|fuel IH]; intros now;
    cbn [throttle bytes_per_sec]; rewrite Hz; [done|].
  pose proof (acquire_wait_shift (mkRateLimiter b 0 (S754_zero false)) w n now) as S1.
  rewrite H1, (Z.add_comm w now) in S1. unfold shift in S1.
  cbn [bytes_per_sec rl_last rl_tokens fmap result_fmap prod_map id fst snd] in S1.
  rewrite Z.add_0_l in S1. rewrite S1. cbn [mbind result_bind].
  rewrite (proj2 (Z.eqb_neq _ _) Hw), Z.add_0_r, (Z.add_comm w now). apply IH.
Qed.

(** A limiter refuses for ever once it has refused into such a cycle. *)
Lemma throttle_never l n w : bytes_per_sec l <> 0 -> n <> 0 -> w <> 0 ->
  (exists w0, w0 <> 0 /\ acquire_wait l (rl_last l) n
     = Ok (w0, mkRateLimiter (bytes_per_sec l) (rl_last l) (S754_zero false))
   /\ acquire_wait (mkRateLimiter (bytes_per_sec l) 0 (S754_zero false)) w0 n
      = Ok (w, mkRateLimiter (bytes_per_sec l) w0 (S754_zero false))) ->
  acquire_wait (mkRateLimiter (bytes_per_sec l) 0 (S754_zero false)) w n
    = Ok (w, mkRateLimiter (bytes_per_sec l) w (S754_zero false)) ->
  forall fuel d, throttle (fun _ => 0) fuel (shift d l) (rl_last l + d) n = Ok None.
Proof.
  intros Hb Hn Hw (w0 & Hw0 & H0 & H1) H2 fuel d. rewrite throttle_shift.
  set (b := bytes_per_sec l) in *.
  assert (Hz : (b =? 0) || (n =? 0) = false) by (apply orb_false_iff; lia).
  destruct fuel as [|fuel]; cbn [throttle]; fold b; rewrite Hz; [done|].
  rewrite H0. cbn [mbind result_bind]. rewrite (proj2 (Z.eqb_neq _ _) Hw0), Z.add_0_r.
  destruct fuel as [|fuel]; cbn [throttle bytes_per_sec]; rewrite Hz; [done|].
  pose proof (acquire_wait_shift (mkRateLimiter b 0 (S754_zero false)) w0 n (rl_last l)) as S1.
  rewrite H1, (Z.add_comm w0) in S1. unfold shift in S1.
  cbn [bytes_per_sec rl_last rl_tokens fmap result_fmap prod_map id fst snd] in S1.
  rewrite Z.add_0_l in S1. rewrite S1. cbn [mbind result_bind].
  rewrite (proj2 (Z.eqb_neq _ _) Hw), Z.add_0_r, (Z.add_comm w0).
  by rewrite (throttle_cycle b n w Hb Hn Hw H2).
Qed.

Lemma slow_limiter_starves fuel now :
  throttle (fun _ => 0) fuel (limiter_new 4096 now) now 16384 = Ok None.
Proof.
  pose proof (throttle_never (limiter_new 4096 0) 16384 2000000000
    ltac:(done) ltac:(done) ltac:(done)) as H.
  unfold limiter_new, shift in *. cbn [bytes_per_sec rl_last rl_tokens] in H.
  apply H; [|done]. exists 3000000000. done.
Qed.

(** The limiter starves its users.  A fresh limiter of 1 MiB/s grants 63
    full relay buffers and a half one at once; the next full buffer is then never
    granted when every sleep lasts exactly as long as was asked for: each refusal
    discards the tokens it found.  With a limit of 4 KiB/s a full buffer is never
    granted at all, not even the first. *)
Theorem throttle_starves now :
  (exists l, throttle_all (fun _ => 0) 1 (limiter_new 1048576 now) now
     (replicate 63 16384 ++ [8192]) = Ok (Some (now, l))
   /\ forall fuel, throttle (fun _ => 0) fuel l now 16384 = Ok None)
  /\ forall fuel, throttle (fun _ => 0) fuel (limiter_new 4096 now) now 16384 = Ok None.
Proof.
  split.
  - exists (shift now (mkRateLimiter 1048576 0 (f64_of 8192))). split.
    + pose proof (throttle_all_shift (fun _ => 0) 1 now (replicate 63 16384 ++ [8192])
        (limiter_new 1048576 0) 0) as H.
      unfold shift at 1 in H. cbn [limiter_new bytes_per_sec rl_last rl_tokens] in H.
      rewrite Z.add_0_l in H. unfold limiter_new. rewrite H. vm_compute.
      by destruct now.
    + intros fuel. apply (throttle_never (mkRateLimiter 1048576 0 (f64_of 8192)) 16384 7812500); try done.
      exists 7812500. done.
  - intros fuel. apply slow_limiter_starves.
Qed.
