(* ===== verification/Srs.v ===== *)
(** * Binary rule sets

    [rsb-route/src/srs.rs]: the reader of [.srs] files.  A [Cursor] is the list
    of bytes not read yet.  The zlib decoder is a parameter.  Allocation panics
    on a capacity above [isize::MAX]; smaller requests are taken to succeed. *)
From stdpp Require Import base tactics list strings.
From Stdlib Require Import ZArith Lia.
From Stdlib Require Import Strings.Byte.
From S2P Require Import Prelude Json Text Ip.

Local Open Scope Z_scope.

(** [ZlibDecoder::read_to_end]: [None] for a corrupt stream. *)
Class Zlib := zlib_decode : list byte -> option (list byte).

Definition MAGIC_SRS : list byte := [x53; x52; x53].
Definition RULE_ITEM_DOMAIN : Z := 2.
Definition RULE_ITEM_DOMAIN_KEYWORD : Z := 3.
Definition RULE_ITEM_IPCIDR : Z := 6.
Definition RULE_ITEM_FINAL : Z := 255.

Record SrsCompiled := mkSrsCompiled {
  srs_domains : list (list byte);
  srs_domain_suffixes : list (list byte);
  srs_domain_keywords : list (list byte);
  srs_ip_cidrs : list (list byte);
  srs_ip_ranges : list (IpAddr * IpAddr);
}.

Definition default_srs : SrsCompiled := mkSrsCompiled [] [] [] [] [].

(** ** Reading *)

Abbreviation reader A := (list byte -> result (A * list byte)).

Definition read_exact (n : Z) : reader (list byte) := fun s =>
  if zlen s <? n then Err "failed to fill whole buffer"
  else Ok (take (Z.to_nat n) s, drop (Z.to_nat n) s).

(** [vec![0u8; len]] and [Vec::with_capacity(count)] for items of [size] bytes. *)
Definition allocate (size count : Z) : result unit :=
  if 2 ^ 63 - 1 <? size * count then Panic "capacity overflow" else Ok tt.

Definition read_u8 : reader Z := fun s =>
  '(b, s) ← read_exact 1 s;
  Ok (be_decode b, s).

Definition read_u64_be : reader Z := fun s =>
  '(b, s) ← read_exact 8 s;
  Ok (be_decode b, s).

(** The loop of [read_uvarint]; shift counts are taken modulo 64. *)
Fixpoint read_uvarint_loop (x s : Z) (l : list byte) : result (Z * list byte) :=
  match l with
  | [] => Err "failed to fill whole buffer"
  | b :: l' =>
      if bz b <? 128 then
        if (63 <? s) || (s =? 63) && (1 <? bz b) then Err "uvarint overflow"
        else Ok (Z.lor x (u64 (Z.shiftl (bz b) (s `mod` 64))), l')
      else
        read_uvarint_loop (Z.lor x (u64 (Z.shiftl (Z.land (bz b) 127) (s `mod` 64))))
          (u32 (s + 7)) l'
  end.
Definition read_uvarint : reader Z := read_uvarint_loop 0 0.

(** [for _ in 0..count { out.push(read(reader)?) }].  A read that does not
    consume anything cannot occur: one unit of fuel per byte left is enough. *)
Fixpoint read_many {A} (rd : reader A) (fuel : nat) (count : Z) (s : list byte)
  : result (list A * list byte) :=
  if count <=? 0 then Ok ([], s)
  else match fuel with
  | O => Panic "fuel"
  | S fuel' =>
      '(a, s) ← rd s;
      '(l, s) ← read_many rd fuel' (count - 1) s;
      Ok (a :: l, s)
  end.

Definition read_list {A} (size : Z) (rd : reader A) (count : Z) : reader (list A) := fun s =>
  _ ← allocate size count;
  read_many rd (S (length s)) count s.

Definition read_bytes : reader (list byte) := fun s =>
  '(len, s) ← read_uvarint s;
  _ ← allocate 1 len;
  read_exact len s.

Definition read_u16_list : reader (list Z) := fun s =>
  '(count, s) ← read_uvarint s;
  read_list 2 (fun s => '(b, s) ← read_exact 2 s; Ok (be_decode b, s)) count s.

Definition read_u64_list : reader (list Z) := fun s =>
  '(count, s) ← read_uvarint s;
  read_list 8 read_u64_be count s.

Definition read_string_list : reader (list (list byte)) := fun s =>
  '(count, s) ← read_uvarint s;
  read_list 24 (fun s =>
    '(len, s) ← read_uvarint s;
    _ ← allocate 1 len;
    '(buf, s) ← read_exact len s;
    t ← from_utf8 buf;
    Ok (t, s)) count s.

Definition read_ip : reader IpAddr := fun s =>
  '(len, s) ← read_uvarint s;
  _ ← allocate 1 len;
  '(buf, s) ← read_exact len s;
  if len =? 4 then Ok (V4 (be_decode buf), s)
  else if len =? 16 then Ok (V6 (be_decode buf), s)
  else Err "invalid ip length".

Definition read_ip_set : reader (list (IpAddr * IpAddr)) := fun s =>
  '(version, s) ← read_u8 s;
  if negb (version =? 1) then Err "unsupported ip set version"
  else
    '(count, s) ← read_u64_be s;
    read_list 34 (fun s =>
      '(from, s) ← read_ip s;
      '(to, s) ← read_ip s;
      Ok ((from, to), s)) count s.

Definition read_ip_prefix : reader unit := fun s =>
  '(_, s) ← read_ip s;
  '(_, s) ← read_u8 s;
  Ok (tt, s).

Definition skip_prefix_map : reader unit := fun s =>
  '(size, s) ← read_uvarint s;
  '(_, s) ← read_many (fun s =>
    '(_, s) ← read_u8 s;
    '(prefix_count, s) ← read_uvarint s;
    '(_, s) ← read_many read_ip_prefix (S (length s)) prefix_count s;
    Ok (tt, s)) (S (length s)) size s;
  Ok (tt, s).

(** ** Succinct domain tries *)

Definition bit_index_in_range (words : list Z) (i : Z) : bool :=
  negb (match words with [] => true | _ => false end) && (Z.shiftr i 6 <? zlen words).

Definition words_get (words : list Z) (i : Z) : Z := default 0 (words !! Z.to_nat i).

Definition get_bit (words : list Z) (i : Z) : Z :=
  match words !! Z.to_nat (Z.shiftr i 6) with
  | Some word => Z.land word (Z.shiftl 1 (Z.land i 63))
  | None => 0
  end.

(** [u64::count_ones]. *)
Fixpoint pos_ones (p : positive) : Z :=
  match p with
  | xH => 1
  | xO p' => pos_ones p'
  | xI p' => 1 + pos_ones p'
  end.
Definition count_ones (v : Z) : Z := match v with Zpos p => pos_ones p | _ => 0 end.

(** The loop of [count_zeros] from word [word_i] on, [n] words to go. *)
Fixpoint ones_loop (bm : list Z) (i : Z) (n : nat) (word_i ones : Z) : Z :=
  match n with
  | O => ones
  | S n' =>
      let e := if word_i =? Z.shiftr i 6 then Z.land i 63 else 64 in
      let mask := if e =? 64 then u64_max
                  else if e =? 0 then 0
                  else Z.shiftl 1 e - 1 in
      ones_loop bm i n' (word_i + 1) (ones + count_ones (Z.land (words_get bm word_i) mask))
  end.
Definition count_zeros (bm : list Z) (i : Z) : Z :=
  saturating_sub i (ones_loop bm i (S (Z.to_nat (Z.shiftr i 6))) 0 0).

(** The scan of [select_ith_one] from [bit] on, [n] bits to go. *)
Fixpoint select_loop (bm : list Z) (i : Z) (n : nat) (bit seen : Z) : option Z :=
  match n with
  | O => None
  | S n' =>
      if negb (get_bit bm bit =? 0) then
        if seen =? i then Some bit else select_loop bm i n' (bit + 1) (seen + 1)
      else select_loop bm i n' (bit + 1) seen
  end.
Definition select_ith_one (bm : list Z) (i : Z) : Z :=
  let total_bits := zlen bm * 64 in
  default total_bits (select_loop bm i (Z.to_nat total_bits) 0 0).

(** One character of UTF-8 text as [Utf8Chunks] reads it: whether it is valid
    and how many bytes it takes (an invalid one: the longest prefix of a valid
    character, or one byte). *)
Definition utf8_step (l : list byte) : bool * nat :=
  match l with
  | [] => (false, 0%nat)
  | b0 :: l1 =>
      if bz b0 <? 128 then (true, 1%nat)
      else
        let ok1 b1 :=
          if bz b0 =? 224 then in_range 160 191 b1
          else if bz b0 =? 237 then in_range 128 159 b1
          else if bz b0 =? 240 then in_range 144 191 b1
          else if bz b0 =? 244 then in_range 128 143 b1
          else utf8_cont b1 in
        let width := if in_range 194 223 b0 then 2%nat
                     else if in_range 224 239 b0 then 3%nat
                     else if in_range 240 244 b0 then 4%nat
                     else 1%nat in
        if (width =? 1)%nat then (false, 1%nat)
        else match l1 with
        | b1 :: l2 =>
            if negb (ok1 b1) then (false, 1%nat)
            else if (width =? 2)%nat then (true, 2%nat)
            else match l2 with
            | b2 :: l3 =>
                if negb (utf8_cont b2) then (false, 2%nat)
                else if (width =? 3)%nat then (true, 3%nat)
                else match l3 with
                | b3 :: _ => if utf8_cont b3 then (true, 4%nat) else (false, 3%nat)
                | [] => (false, 3%nat)
                end
            | [] => (false, 2%nat)
            end
        | [] => (false, 1%nat)
        end
  end.

(** [String::from_utf8_lossy]; U+FFFD for each invalid piece. *)
Fixpoint lossy_go (fuel : nat) (l : list byte) : list byte :=
  match fuel, l with
  | S fuel', _ :: _ =>
      let '(ok, n) := utf8_step l in
      (if (ok : bool) then take n l else [xef; xbf; xbd]) ++ lossy_go fuel' (drop n l)
  | _, _ => []
  end.
Definition from_utf8_lossy (l : list byte) : list byte := lossy_go (length l) l.

(** [domain.chars().rev().collect()]. *)
Fixpoint reverse_go (fuel : nat) (l acc : list byte) : list byte :=
  match fuel, l with
  | S fuel', _ :: _ =>
      let n := (utf8_step l).2 in
      reverse_go fuel' (drop n l) (take n l ++ acc)
  | _, _ => acc
  end.
Definition reverse_domain (domain : list byte) : list byte := reverse_go (length domain) domain [].

Section Trie.
Variables (leaves label_bitmap : list Z) (labels : list byte).

(** The loop of [traverse] over the edges of one node, at most [n] of them;
    [visit] is the recursive call. *)
Fixpoint edges (visit : Z -> Z -> list byte -> list (list byte) -> list (list byte))
    (n : nat) (steps node_id bm_idx : Z) (current : list byte) (out : list (list byte))
  : list (list byte) :=
  match n with
  | O => out
  | S n' =>
      let steps := steps + 1 in
      if 100000 <? steps then out
      else if negb (bit_index_in_range label_bitmap bm_idx) then out
      else if negb (get_bit label_bitmap bm_idx =? 0) then out
      else if bm_idx <? node_id then out
      else match labels !! Z.to_nat (bm_idx - node_id) with
      | None => out
      | Some next_label =>
          let next_node := count_zeros label_bitmap (bm_idx + 1) in
          let next_bm := select_ith_one label_bitmap (saturating_sub next_node 1) + 1 in
          let out := visit next_node next_bm (current ++ [next_label]) out in
          edges visit n' steps node_id (bm_idx + 1) current out
      end
  end.

(** [traverse] of [succinct_keys]; [fuel] bounds the recursion. *)
Fixpoint traverse (fuel : nat) (depth node_id bm_idx : Z) (current : list byte)
    (out : list (list byte)) : list (list byte) :=
  match fuel with
  | O => out
  | S fuel' =>
      if (4096 <? depth) || (500000 <? zlen out) then out
      else
        let out := if negb (get_bit leaves node_id =? 0)
                   then out ++ [from_utf8_lossy current] else out in
        edges (traverse fuel' (depth + 1)) (S (Z.to_nat (zlen label_bitmap * 64 - bm_idx)))
          0 node_id bm_idx current out
  end.

(** The guard on the depth stops every branch within 4098 calls. *)
Definition succinct_keys : list (list byte) := traverse (Z.to_nat 4098) 0 0 0 [] [].
End Trie.

(** The classification loop of [read_domain_matcher]. *)
Definition classify_key (acc : list (list byte) * list (list byte)) (key : list byte)
  : list (list byte) * list (list byte) :=
  let '(domains, suffixes) := acc in
  match key with
  | [] => acc
  | _ =>
      let reversed := reverse_domain key in
      match reversed with
      | x0d :: rest => (domains, suffixes ++ [rest])
      | x0a :: rest => (domains, suffixes ++ [rest])
      | _ => (domains ++ [reversed], suffixes)
      end
  end.

Definition read_domain_matcher : reader (list (list byte) * list (list byte)) := fun s =>
  '(_, s) ← read_u8 s;
  '(leaves, s) ← read_u64_list s;
  '(label_bitmap, s) ← read_u64_list s;
  '(label_len, s) ← read_uvarint s;
  _ ← allocate 1 label_len;
  '(labels, s) ← read_exact label_len s;
  Ok (foldl classify_key ([], []) (succinct_keys leaves label_bitmap labels), s).

(** ** Rules *)

Definition skip_rule_item (item : Z) : reader unit := fun s =>
  if existsb (Z.eqb item) [0; 7; 9] then
    '(_, s) ← read_u16_list s; Ok (tt, s)
  else if existsb (Z.eqb item) [1; 3; 4; 8; 10; 11; 12; 13; 14; 15; 17; 23] then
    '(_, s) ← read_string_list s; Ok (tt, s)
  else if existsb (Z.eqb item) [2; 16] then
    '(_, s) ← read_domain_matcher s; Ok (tt, s)
  else if existsb (Z.eqb item) [5; 6] then
    '(_, s) ← read_ip_set s; Ok (tt, s)
  else if item =? 18 then
    '(len, s) ← read_uvarint s;
    if 0 <? len then
      _ ← allocate 1 len;
      '(_, s) ← read_exact len s; Ok (tt, s)
    else Ok (tt, s)
  else if existsb (Z.eqb item) [19; 20] then Ok (tt, s)
  else if existsb (Z.eqb item) [21; 22] then skip_prefix_map s
  else Ok (tt, s).

Definition add_range (out : SrsCompiled) (range : IpAddr * IpAddr) : SrsCompiled :=
  let '(from, to) := range in
  if bool_decide (from = to) then
    let cidr := match from with
      | V4 v4 => show_ipv4 v4 ++ str "/32"
      | V6 v6 => show_ipv6 v6 ++ str "/128"
      end in
    mkSrsCompiled (srs_domains out) (srs_domain_suffixes out) (srs_domain_keywords out)
      (srs_ip_cidrs out ++ [cidr]) (srs_ip_ranges out)
  else
    mkSrsCompiled (srs_domains out) (srs_domain_suffixes out) (srs_domain_keywords out)
      (srs_ip_cidrs out) (srs_ip_ranges out ++ [(from, to)]).

(** [parse_default_rule]: every item reads at least its type byte. *)
Fixpoint parse_default_rule (fuel : nat) (out : SrsCompiled) (s : list byte)
  : result (SrsCompiled * list byte) :=
  match fuel with
  | O => Panic "fuel"
  | S fuel' =>
      '(item, s) ← read_u8 s;
      if item =? RULE_ITEM_DOMAIN then
        '((domains, suffixes), s) ← read_domain_matcher s;
        parse_default_rule fuel'
          (mkSrsCompiled (srs_domains out ++ domains) (srs_domain_suffixes out ++ suffixes)
             (srs_domain_keywords out) (srs_ip_cidrs out) (srs_ip_ranges out)) s
      else if item =? RULE_ITEM_DOMAIN_KEYWORD then
        '(keywords, s) ← read_string_list s;
        parse_default_rule fuel'
          (mkSrsCompiled (srs_domains out) (srs_domain_suffixes out)
             (srs_domain_keywords out ++ keywords) (srs_ip_cidrs out) (srs_ip_ranges out)) s
      else if item =? RULE_ITEM_IPCIDR then
        '(ranges, s) ← read_ip_set s;
        parse_default_rule fuel' (foldl add_range out ranges) s
      else if item =? RULE_ITEM_FINAL then
        '(_, s) ← read_u8 s;
        Ok (out, s)
      else
        '(_, s) ← skip_rule_item item s;
        parse_default_rule fuel' out s
  end.

(** The loop over [count] rules that [parse_srs] and [parse_logical_rule] share
    (they differ in the message for an unknown type), and logical rules, which
    nest: each is one more call of [parse_logical_rule] on the stack, of which
    there is [room] for so many.  A stack that overflows ends the process. *)
Fixpoint parse_rules (fuel room : nat) (nested : bool) (count : Z) (out : SrsCompiled) (s : list byte)
  : result (SrsCompiled * list byte) :=
  if count <=? 0 then Ok (out, s)
  else match fuel with
  | O => Panic "fuel"
  | S fuel' =>
      '(rule_type, s) ← read_u8 s;
      if rule_type =? 0 then
        '(out, s) ← parse_default_rule (S (length s)) out s;
        parse_rules fuel' room nested (count - 1) out s
      else if rule_type =? 1 then
        '(out, s) ← parse_logical_rule fuel' room out s;
        parse_rules fuel' room nested (count - 1) out s
      else Err (if nested then "unknown nested srs rule type" else "unknown srs rule type")
  end
with parse_logical_rule (fuel room : nat) (out : SrsCompiled) (s : list byte)
  : result (SrsCompiled * list byte) :=
  match fuel, room with
  | O, _ => Panic "fuel"
  | _, O => Panic "stack overflow"
  | S fuel', S room' =>
      '(_, s) ← read_u8 s;
      '(count, s) ← read_uvarint s;
      parse_rules fuel' room' true count out s
  end.

(** [parse_srs] on a stack with room for so many nested calls, and on one that is as
    large as the file needs. *)
Definition parse_srs_on `{Zlib} (room : nat) (data : list byte) : result SrsCompiled :=
  if (zlen data <? 5) || negb (bool_decide (take 3 data = MAGIC_SRS)) then
    Err "invalid binary rule-set file"
  else
    decompressed ← context "decompress srs" (ok_or "corrupt deflate stream" (zlib_decode (drop 4 data)));
    '(rule_count, s) ← read_uvarint decompressed;
    '(out, _) ← parse_rules (S (length s)) room false rule_count default_srs s;
    Ok out.
Definition parse_srs `{Zlib} (data : list byte) : result SrsCompiled :=
  parse_srs_on (length (default [] (zlib_decode (drop 4 data)))) data.

(** ** Every outcome *)

(** A reader that consumes at least [k] bytes when it succeeds, and whose only
    panic is a refused allocation. *)
Definition fine {A} (k : nat) (s : list byte) (r : result (A * list byte)) : Prop :=
  match r with
  | Ok (_, s') => (length s' + k <= length s)%nat
  | Err _ => True
  | Panic m => m = "capacity overflow"%string
  end.
Definition consumes {A} (k : nat) (rd : reader A) : Prop := forall s, fine k s (rd s).

Lemma fine_bind {A B} k k' s (r : result (A * list byte)) (f : A * list byte -> result (B * list byte)) :
  fine k s r -> (forall a s', (length s' + k <= length s)%nat -> fine k' s' (f (a, s'))) ->
  fine (k + k') s (r ≫= f).
Proof.
  intros Hr Hf. destruct r as [[a s']|e|e]; cbn [mbind result_bind]; [|done|done].
  specialize (Hf a s' Hr). destruct (f (a, s')) as [[b s'']|?|?]; simpl in *; [lia|done|done].
Qed.

Lemma fine_alloc {A} k s size count (f : unit -> result (A * list byte)) :
  fine k s (f tt) -> fine k s (allocate size count ≫= f).
Proof. intros Hf. unfold allocate. by destruct (_ <? _). Qed.

Lemma fine_weaken {A} k k' s (r : result (A * list byte)) : (k' <= k)%nat -> fine k s r -> fine k' s r.
Proof. intros Hk. destruct r as [[a s']|?|?]; simpl; [lia|done|done]. Qed.

Lemma fine_ok {A} (a : A) s : fine 0 s (Ok (a, s)).
Proof. simpl. lia. Qed.

Lemma read_exact_consumes n : consumes (Z.to_nat n) (read_exact n).
Proof.
  intros s. unfold read_exact. destruct (zlen s <? n) eqn:E; [done|]. bool_props.
  unfold zlen in E. simpl. rewrite length_drop. lia.
Qed.

Lemma read_exact_consumes0 n : consumes 0 (read_exact n).
Proof. intros s. eapply fine_weaken; [|apply read_exact_consumes]. lia. Qed.

Lemma read_u8_consumes : consumes 1 read_u8.
Proof. intros s. apply (fine_bind 1 0 s _ _ (read_exact_consumes 1 s)). intros. apply fine_ok. Qed.

Lemma read_u64_consumes : consumes 8 read_u64_be.
Proof. intros s. apply (fine_bind 8 0 s _ _ (read_exact_consumes 8 s)). intros. apply fine_ok. Qed.

Lemma read_uvarint_consumes : consumes 1 read_uvarint.
Proof.
  unfold read_uvarint. intros s. generalize 0 at 1 as x. generalize 0 as sh.
  induction s as [|b s IH]; intros sh x; [done|]. simpl.
  destruct (bz b <? 128); [case_match; simpl; [done|lia]|].
  eapply fine_weaken; [|]; [reflexivity|].
  specialize (IH (u32 (sh + 7)) (Z.lor x (u64 (Z.land (bz b) 127 ≪ (sh `mod` 64))))).
  destruct (read_uvarint_loop _ _ s) as [[a s']|?|?]; simpl in *; [lia|done|done].
Qed.

Lemma read_many_fine {A} (rd : reader A) : consumes 1 rd ->
  forall fuel count s, (length s < fuel)%nat -> fine 0 s (read_many rd fuel count s).
Proof.
  intros Hrd. induction fuel as [|fuel IH]; intros count s Hl; [lia|]. cbn [read_many].
  destruct (count <=? 0); [apply fine_ok|].
  eapply (fine_weaken (1 + (0 + 0))); [lia|]. apply fine_bind; [apply Hrd|].
  intros a s' Hs. apply fine_bind; [apply IH; lia|]. intros. apply fine_ok.
Qed.

Lemma read_list_consumes {A} size (rd : reader A) count : consumes 1 rd ->
  consumes 0 (read_list size rd count).
Proof. intros Hrd s. apply fine_alloc, read_many_fine; [done|lia]. Qed.

(** The two ways a sequence of reads makes progress. *)
Lemma fine_first {A B} s (r : result (A * list byte)) (f : A * list byte -> result (B * list byte)) :
  fine 1 s r -> (forall a s', (length s' < length s)%nat -> fine 0 s' (f (a, s'))) ->
  fine 1 s (r ≫= f).
Proof. intros Hr Hf. apply (fine_bind 1 0); [done|]. intros. apply Hf. lia. Qed.

Lemma fine_next {A B} s (r : result (A * list byte)) (f : A * list byte -> result (B * list byte)) :
  fine 0 s r -> (forall a s', (length s' <= length s)%nat -> fine 0 s' (f (a, s'))) ->
  fine 0 s (r ≫= f).
Proof. intros Hr Hf. apply (fine_bind 0 0); [done|]. intros. apply Hf. lia. Qed.

Lemma consumes_weaken {A} (rd : reader A) s : consumes 1 rd -> fine 0 s (rd s).
Proof. intros H. eapply fine_weaken; [|apply H]. lia. Qed.

Lemma consumes_at {A} k (rd : reader A) s : consumes k rd -> fine k s (rd s).
Proof. intros H. apply H. Qed.

Create HintDb srs discriminated.
#[local] Hint Resolve read_exact_consumes0 read_u8_consumes read_uvarint_consumes
  read_list_consumes consumes_at consumes_weaken : srs.

Lemma fine_utf8 {A} k s buf (f : list byte -> result (A * list byte)) :
  (forall t, fine k s (f t)) -> fine k s (from_utf8 buf ≫= f).
Proof. intros Hf. unfold from_utf8. destruct (utf8_valid buf); [apply Hf|done]. Qed.

(** Walk through a sequence of reads. *)
Ltac fine_go :=
  repeat first
  [ apply fine_ok | exact I | apply fine_alloc | apply fine_utf8; intros ?
  | apply fine_first; [solve [eauto with srs]|intros ? ? ?]
  | apply fine_next; [solve [eauto with srs]|intros ? ? ?]
  | case_match ].

Lemma read_ip_consumes : consumes 1 read_ip.
Proof. intros s. unfold read_ip. fine_go. Qed.
#[local] Hint Resolve read_ip_consumes : srs.

Lemma read_u16_list_consumes : consumes 1 read_u16_list.
Proof.
  intros s. unfold read_u16_list. apply fine_first; [eauto with srs|]. intros.
  apply read_list_consumes. intros s1. eapply fine_weaken; [|apply (fine_bind 2 0)]; [lia| |].
  - apply (read_exact_consumes 2).
  - intros. apply fine_ok.
Qed.

Lemma read_u64_list_consumes : consumes 1 read_u64_list.
Proof.
  intros s. unfold read_u64_list. apply fine_first; [eauto with srs|]. intros.
  apply read_list_consumes. intros s1. eapply fine_weaken; [|apply read_u64_consumes]. lia.
Qed.

Lemma read_string_list_consumes : consumes 1 read_string_list.
Proof.
  intros s. unfold read_string_list. apply fine_first; [eauto with srs|]. intros.
  apply read_list_consumes. intros s1. fine_go.
Qed.

Lemma read_ip_set_consumes : consumes 1 read_ip_set.
Proof.
  intros s. unfold read_ip_set. apply fine_first; [eauto with srs|]. intros v s' _.
  case_match; [done|]. apply fine_next.
  { eapply fine_weaken; [|apply read_u64_consumes]. lia. }
  intros. apply read_list_consumes. intros s1. fine_go.
Qed.
#[local] Hint Resolve read_u16_list_consumes read_u64_list_consumes read_string_list_consumes
  read_ip_set_consumes : srs.

Lemma read_domain_matcher_consumes : consumes 1 read_domain_matcher.
Proof. intros s. unfold read_domain_matcher. fine_go. Qed.

Lemma skip_prefix_map_consumes : consumes 1 skip_prefix_map.
Proof.
  assert (Hp : consumes 1 read_ip_prefix) by (intros s; unfold read_ip_prefix; fine_go).
  intros s. unfold skip_prefix_map. apply fine_first; [eauto with srs|]. intros size s' _.
  apply fine_next; [|intros; apply fine_ok].
  apply read_many_fine; [|lia]. intros s1. apply fine_first; [eauto with srs|]. intros.
  apply fine_next; [eauto with srs|]. intros.
  apply fine_next; [apply read_many_fine; [done|lia]|]. intros. apply fine_ok.
Qed.
#[local] Hint Resolve read_domain_matcher_consumes skip_prefix_map_consumes : srs.

Lemma skip_rule_item_consumes item : consumes 0 (skip_rule_item item).
Proof.
  intros s. unfold skip_rule_item.
  repeat first [case_match; [solve [eauto with srs]|] | case_match; [fine_go; done|]].
  apply fine_ok.
Qed.
#[local] Hint Resolve skip_rule_item_consumes : srs.

Lemma parse_default_rule_fine : forall fuel out s, (length s < fuel)%nat ->
  fine 1 s (parse_default_rule fuel out s).
Proof.
  induction fuel as [|fuel IH]; intros out s Hl; [lia|]. cbn [parse_default_rule].
  assert (Hrec : forall out s', (length s' < length s)%nat -> fine 0 s' (parse_default_rule fuel out s')).
  { intros out' s' ?. eapply fine_weaken; [|apply IH; lia]. lia. }
  apply fine_first; [eauto with srs|]. intros item s' Hs.
  case_match; [apply fine_next; [eauto with srs|]; intros [d sx] s2 ?; apply Hrec; lia|].
  case_match; [apply fine_next; [eauto with srs|]; intros; apply Hrec; lia|].
  case_match; [apply fine_next; [eauto with srs|]; intros; apply Hrec; lia|].
  case_match; [apply fine_next; [eauto with srs|]; intros; apply fine_ok|].
  apply fine_next; [apply skip_rule_item_consumes|]. intros. apply Hrec. lia.
Qed.

(** The same for rules: the stack can overflow too, but only when it is [deep] enough. *)
Definition fine_deep {A} (deep : Prop) (k : nat) (s : list byte) (r : result (A * list byte)) : Prop :=
  match r with
  | Ok (_, s') => (length s' + k <= length s)%nat
  | Err _ => True
  | Panic m => m = "capacity overflow"%string \/ m = "stack overflow"%string /\ deep
  end.
Lemma fine_fine_deep {A} deep k s (r : result (A * list byte)) : fine k s r -> fine_deep deep k s r.
Proof. destruct r as [[a s']|e|e]; [done..|]. by left. Qed.
Lemma deep_bind {A B} (deep : Prop) k k' k'' s (r : result (A * list byte)) (f : A * list byte -> result (B * list byte)) :
  (k'' <= k + k')%nat -> fine_deep deep k s r ->
  (forall a s', (length s' + k <= length s)%nat -> fine_deep deep k' s' (f (a, s'))) ->
  fine_deep deep k'' s (r ≫= f).
Proof.
  intros Hk Hr Hf. destruct r as [[a s']|e|e]; cbn [mbind result_bind]; [|done|done].
  specialize (Hf a s' Hr). destruct (f (a, s')) as [[b s'']|?|?]; simpl in *; try done; lia.
Qed.
Lemma deep_more {A} (deep deep' : Prop) k s (r : result (A * list byte)) : (deep -> deep') -> fine_deep deep k s r -> fine_deep deep' k s r.
Proof. intros Hd. destruct r as [[a s']|e|e]; [done..|]. simpl. tauto. Qed.
Lemma deep_weaken {A} (deep : Prop) k k' s (r : result (A * list byte)) : (k' <= k)%nat -> fine_deep deep k s r -> fine_deep deep k' s r.
Proof. intros Hk. destruct r as [[a s']|e|e]; simpl; [lia|done|done]. Qed.

Lemma parse_rules_fine : forall fuel room,
  (forall nested count out s, (length s < fuel)%nat -> fine_deep (room <= length s)%nat 0 s (parse_rules fuel room nested count out s)) /\
  (forall out s, (length s < fuel)%nat -> fine_deep (room <= length s)%nat 1 s (parse_logical_rule fuel room out s)).
Proof.
  induction fuel as [|fuel IH]; intros room; (split; [intros nested count out s Hl|intros out s Hl]); [lia|lia| |].
  - destruct (IH room) as [IHr IHl]. cbn [parse_rules]. case_match; [simpl; lia|].
    assert (Hrec : forall out s2, (length s2 < length s)%nat ->
      fine_deep (room <= length s)%nat 0 s2 (parse_rules fuel room nested (count - 1) out s2)).
    { intros out' s2 Hs2. eapply deep_more; [|apply IHr; lia]. lia. }
    eapply (deep_bind _ 1 0); [lia|apply fine_fine_deep; eauto with srs|]. intros ty s' Hs. case_match.
    { eapply (deep_bind _ 0 0); [lia|apply fine_fine_deep; eapply fine_weaken; [|apply parse_default_rule_fine; lia]; lia|].
      intros. apply Hrec. lia. }
    case_match; [|done]. eapply (deep_bind _ 0 0); [lia| |intros; apply Hrec; lia].
    eapply (deep_weaken _ 1); [lia|]. eapply deep_more; [|apply IHl; lia]. lia.
  - cbn [parse_logical_rule]. destruct room as [|room]; [right; split; [done|lia]|]. destruct (IH room) as [IHr _].
    eapply (deep_bind _ 1 0); [lia|apply fine_fine_deep; eauto with srs|]. intros _ s' Hs.
    eapply (deep_bind _ 0 0); [lia|apply fine_fine_deep; eauto with srs|]. intros count s2 Hs2.
    eapply deep_more; [|apply IHr; lia]. lia.
Qed.

(** A larger stack changes nothing but that it overflows later. *)
Definition or_overflow {A} (r r' : result A) : Prop := r = Panic "stack overflow" \/ r = r'.
Lemma overflow_bind {A B} (r r' : result A) (f f' : A -> result B) : or_overflow r r' -> (forall a, or_overflow (f a) (f' a)) ->
  or_overflow (r ≫= f) (r' ≫= f').
Proof. intros [->| ->] Hf; [by left|]. destruct r' as [a|e|e]; cbn [mbind result_bind]; [apply Hf|by right|by right]. Qed.
Lemma overflow_same {A} (r : result A) : or_overflow r r.
Proof. by right. Qed.
Lemma parse_rules_larger : forall fuel room room', (room <= room')%nat ->
  (forall nested count out s, or_overflow (parse_rules fuel room nested count out s) (parse_rules fuel room' nested count out s)) /\
  (forall out s, or_overflow (parse_logical_rule fuel room out s) (parse_logical_rule fuel room' out s)).
Proof.
  induction fuel as [|fuel IH]; intros room room' Hr; (split; [intros nested count out s|intros out s]).
  - apply overflow_same.
  - apply overflow_same.
  - destruct (IH room room' Hr) as [IHr IHl]. cbn [parse_rules]. case_match; [apply overflow_same|].
    apply overflow_bind; [apply overflow_same|]. intros [ty s1]. case_match.
    { apply overflow_bind; [apply overflow_same|]. intros [out1 s2]. apply IHr. }
    case_match; [|apply overflow_same]. apply overflow_bind; [apply IHl|]. intros [out1 s2]. apply IHr.
  - cbn [parse_logical_rule]. destruct room as [|room]; [by left|]. destruct room' as [|room']; [lia|].
    destruct (IH room room' ltac:(lia)) as [IHr _].
    apply overflow_bind; [apply overflow_same|]. intros [m s1]. apply overflow_bind; [apply overflow_same|]. intros [c s2]. apply IHr.
Qed.

(** Logical rules of one rule each, nested: three bytes a level. *)
Fixpoint nested_rules (depth : nat) : list byte := match depth with O => [] | S d => x01 :: x00 :: x01 :: nested_rules d end.
Lemma read_u8_cons b rest : read_u8 (b :: rest) = Ok (bz b, rest).
Proof.
  unfold read_u8, read_exact. rewrite zlen_cons, (proj2 (Z.ltb_ge _ _)) by (pose proof (zlen_nonneg rest); lia).
  cbn [mbind result_bind Z.to_nat Pos.to_nat Pos.iter_op Nat.add take drop].
  unfold be_decode. cbn [foldl]. by destruct rest.
Qed.
Lemma nested_overflow : forall room fuel nested out rest, (2 * room + 1 < fuel)%nat ->
  parse_rules fuel room nested 1 out (nested_rules (S room) ++ rest) = Panic "stack overflow".
Proof.
  induction room as [|room IH]; intros fuel nested out rest Hf; (destruct fuel as [|[|fuel]]; [lia..|]);
    cbn [parse_rules nested_rules app]; change (1 <=? 0) with false; cbn match; rewrite read_u8_cons; cbn [mbind result_bind];
    change (bz x01 =? 0) with false; change (bz x01 =? 1) with true; cbn match; cbn [parse_logical_rule]; [done|].
  rewrite read_u8_cons. cbn [mbind result_bind].
  change (read_uvarint (x01 :: x01 :: x00 :: x01 :: nested_rules room ++ rest)) with (Ok (1, x01 :: x00 :: x01 :: nested_rules room ++ rest)).
  cbn [mbind result_bind]. change (x01 :: x00 :: x01 :: nested_rules room ++ rest) with (nested_rules (S room) ++ rest).
  by rewrite IH by lia.
Qed.

(** *** The trie walk ends by its own guards *)

Section TrieEnds.
Variables (leaves label_bitmap : list Z) (labels : list byte).

Lemma edges_ext visit visit' : (forall nd bm cur out, visit nd bm cur out = visit' nd bm cur out) ->
  forall n steps node_id bm_idx current out,
  edges label_bitmap labels visit n steps node_id bm_idx current out
  = edges label_bitmap labels visit' n steps node_id bm_idx current out.
Proof.
  intros Hv. induction n as [|n IH]; intros; [done|]. cbn [edges].
  repeat case_match; (done || by rewrite Hv, IH).
Qed.

Lemma bit_index_bound bm_idx : bit_index_in_range label_bitmap bm_idx = true ->
  bm_idx < zlen label_bitmap * 64.
Proof.
  unfold bit_index_in_range. intros [_ H%Z.ltb_lt]%andb_true_iff.
  rewrite Z.shiftr_div_pow2 in H by lia. change (2 ^ 6) with 64 in H.
  Z.to_euclidean_division_equations. lia.
Qed.

(** Turns beyond the end of the bitmap change nothing. *)
Lemma edges_enough visit node_id current : forall n m steps bm_idx out,
  (Z.to_nat (zlen label_bitmap * 64 - bm_idx) < n)%nat ->
  (Z.to_nat (zlen label_bitmap * 64 - bm_idx) < m)%nat ->
  edges label_bitmap labels visit n steps node_id bm_idx current out
  = edges label_bitmap labels visit m steps node_id bm_idx current out.
Proof.
  induction n as [|n IH]; intros [|m] steps bm_idx out Hn Hm; [lia|lia|lia|]. cbn [edges].
  destruct (100000 <? steps + 1); [done|].
  destruct (bit_index_in_range label_bitmap bm_idx) eqn:E; [|done].
  apply bit_index_bound in E. cbn [negb].
  repeat case_match; try done. apply IH; lia.
Qed.

(** Calls below the depth limit change nothing. *)
Lemma traverse_enough : forall fuel depth node_id bm_idx current out,
  4098 - depth <= Z.of_nat fuel ->
  traverse leaves label_bitmap labels (S fuel) depth node_id bm_idx current out
  = traverse leaves label_bitmap labels fuel depth node_id bm_idx current out.
Proof.
  induction fuel as [|fuel IH]; intros depth node_id bm_idx current out Hd.
  { cbn [traverse]. by rewrite (proj2 (Z.ltb_lt 4096 depth)) by lia. }
  cbn [traverse]. case_match; [done|]. cbv zeta. apply edges_ext. intros. apply IH. lia.
Qed.

Lemma succinct_keys_enough k :
  traverse leaves label_bitmap labels (k + Z.to_nat 4098) 0 0 0 [] []
  = succinct_keys leaves label_bitmap labels.
Proof.
  induction k as [|k IH]; [done|]. rewrite <-IH. apply traverse_enough. lia.
Qed.
End TrieEnds.

(** C34.  What the reader of binary rule sets can come to, on any input.  It ends (its
    loops never take more than one step per input byte) with a compiled set, an error, a
    panic when a count or length field asks for more memory than there can be, or with an
    overflow of the stack.  On a stack with room for fewer nested calls it overflows or
    does what it does on one that is large enough, and that never overflows.  Nothing in
    the code bounds the nesting: however large the stack, a file that decompresses to one
    byte and three more for each level overflows it.  The trie walk, in contrast, ends by
    its own guards on depth and steps: no bound on recursion beyond theirs changes what
    it returns. *)
Theorem parse_srs_outcomes `{Zlib} room data leaves label_bitmap labels k :
  match parse_srs data with
  | Ok _ => take 3 data = MAGIC_SRS /\ is_Some (zlib_decode (drop 4 data))
  | Err _ => True
  | Panic m => m = "capacity overflow"%string
  end
  /\ (parse_srs_on room data = Panic "stack overflow" \/ parse_srs_on room data = parse_srs data)
  /\ (forall body, take 3 data = MAGIC_SRS -> 5 <= zlen data -> zlib_decode (drop 4 data) = Some (x01 :: nested_rules (S room) ++ body) ->
        parse_srs_on room data = Panic "stack overflow")
  /\ traverse leaves label_bitmap labels (k + Z.to_nat 4098) 0 0 0 [] []
     = succinct_keys leaves label_bitmap labels.
Proof.
  assert (Hgood : match parse_srs data with
    | Ok _ => take 3 data = MAGIC_SRS /\ is_Some (zlib_decode (drop 4 data)) | Err _ => True | Panic m => m = "capacity overflow"%string end).
  { unfold parse_srs, parse_srs_on. destruct (zlen data <? 5); [done|]. cbn [orb].
    case_bool_decide as Hm; [|done]. cbn [negb].
    destruct (zlib_decode (drop 4 data)) as [d|]; [|done]. cbn [ok_or context mbind result_bind default from_option id].
    pose proof (read_uvarint_consumes d) as Hu.
    destruct (read_uvarint d) as [[n s]|e|e]; [|exact I|exact Hu]. cbn [mbind result_bind]. simpl in Hu.
    pose proof (proj1 (parse_rules_fine (S (length s)) (length d)) false n default_srs s ltac:(lia)) as Hp.
    destruct (parse_rules _ _ _ _ _ _) as [[out s']|e|e]; [by split; [|eexists]|exact I|]. destruct Hp as [|[_ Hp]]; [done|lia]. }
  split; [exact Hgood|]. split; [|split; [|apply succinct_keys_enough]].
  - assert (Hle : forall r r', (r <= r')%nat -> or_overflow (parse_srs_on r data) (parse_srs_on r' data)).
    { intros r r' Hr. unfold parse_srs_on. destruct (_ || _); [apply overflow_same|]. do 2 (apply overflow_bind; [apply overflow_same|]; intros ?).
      destruct a0 as [n s]. apply overflow_bind; [apply (proj1 (parse_rules_larger _ r r' Hr))|]. intros [out s']. apply overflow_same. }
    unfold parse_srs in *. set (enough := length _) in *. destruct (Nat.le_ge_cases room enough) as [Hr|Hr]; [exact (Hle _ _ Hr)|].
    destruct (Hle _ _ Hr) as [Ho|Ho]; [by rewrite Ho in Hgood|by right].
  - intros body Hm Hl Hz. unfold parse_srs_on. rewrite (proj2 (Z.ltb_ge _ _)), bool_decide_eq_true_2, Hz by done.
    cbn [orb negb ok_or context mbind result_bind].
    change (read_uvarint (x01 :: nested_rules (S room) ++ body)) with (Ok (1, nested_rules (S room) ++ body)). cbn [mbind result_bind].
    rewrite nested_overflow; [done|]. rewrite length_app.
    assert (Hn : forall d, length (nested_rules d) = (3 * d)%nat) by (induction d as [|d IHd]; [done|cbn [nested_rules length]; rewrite IHd; lia]).
    rewrite Hn. lia.
Qed.

(** ** The written form *)

(** Unsigned varints as the format writes them (ten groups hold 64 bits). *)
Fixpoint uvarint (fuel : nat) (v : Z) : list byte :=
  match fuel with
  | O => []
  | S fuel' =>
      if v <? 128 then [u8 v]
      else u8 (Z.lor (v `mod` 128) 128) :: uvarint fuel' (Z.shiftr v 7)
  end.
Definition put_uvarint (v : Z) : list byte := uvarint 10 v.

Lemma uvarint_cont v : bz (u8 (Z.lor (v `mod` 128) 128)) = 128 + v `mod` 128.
Proof.
  pose proof (Z.mod_pos_bound v 128 ltac:(lia)) as H.
  change 128 with (1 * 2 ^ 7) at 2. rewrite lor_high_low by (change (2 ^ 7) with 128; lia).
  change (1 * 2 ^ 7) with 128. apply bz_u8_small. lia.
Qed.

Lemma land127 v : Z.land (128 + v `mod` 128) 127 = v `mod` 128.
Proof.
  change 127 with (2 ^ 7 - 1). rewrite land_ones_mod by lia. change (2 ^ 7) with 128.
  change 128 with (1 * 128) at 1. rewrite Z.add_comm, Z.mod_add, Z.mod_mod by lia. done.
Qed.

Lemma uvarint_S fuel v : uvarint (S fuel) v
  = if v <? 128 then [u8 v] else u8 (Z.lor (v `mod` 128) 128) :: uvarint fuel (Z.shiftr v 7).
Proof. done. Qed.

Lemma read_uvarint_written fuel rest : forall v x s, 0 <= s <= 63 ->
  0 <= v -> v * 2 ^ s < 2 ^ 64 -> v < 128 ^ Z.of_nat (S fuel) -> 0 <= x < 2 ^ s ->
  read_uvarint_loop x s (uvarint (S fuel) v ++ rest) = Ok (x + v * 2 ^ s, rest).
Proof.
  induction fuel as [|fuel IH]; intros v x s Hs Hv Hlt Hf Hx.
  all: assert (Hp : 0 < 2 ^ s) by (apply Z.pow_pos_nonneg; lia).
  all: rewrite uvarint_S; destruct (Z.ltb_spec v 128) as [H128|H128].
  2: { change (128 ^ Z.of_nat 1) with 128 in Hf. lia. }
  1,2: cbn [app read_uvarint_loop]; rewrite bz_u8_small by lia;
    rewrite (proj2 (Z.ltb_lt v 128)), (Z.mod_small s 64), Z.shiftl_mul_pow2 by lia;
    unfold u64, wrap; rewrite (Z.mod_small (v * 2 ^ s)) by nia; rewrite lor_high_low by lia;
    rewrite (proj2 (Z.ltb_ge 63 s)) by lia;
    (destruct (Z.eqb_spec s 63) as [->|]; simpl;
      [change (2 ^ 63) with 9223372036854775808 in *; change (2 ^ 64) with 18446744073709551616 in *;
       rewrite (proj2 (Z.ltb_ge 1 v)) by lia|]; by rewrite Z.add_comm).
  assert (Hs56 : s <= 56).
  { destruct (Z.le_gt_cases s 56); [done|]. exfalso.
    assert (2 ^ 57 <= 2 ^ s) by (apply Z.pow_le_mono_r; lia).
    assert (128 * 2 ^ 57 <= v * 2 ^ s) by nia. change (128 * 2 ^ 57) with (2 ^ 64) in *. lia. }
  set (tl := uvarint (S fuel) (Z.shiftr v 7)).
  cbn [app read_uvarint_loop]. rewrite uvarint_cont, land127.
  pose proof (Z.mod_pos_bound v 128 ltac:(lia)) as Hm.
  pose proof (Z.div_mod v 128 ltac:(lia)) as Hdm.
  rewrite (proj2 (Z.ltb_ge _ _)) by lia.
  rewrite (Z.mod_small s 64), Z.shiftl_mul_pow2 by lia.
  unfold u64, wrap. rewrite (Z.mod_small (v `mod` 128 * 2 ^ s)) by nia.
  rewrite lor_high_low by lia. unfold u32, wrap. rewrite (Z.mod_small (s + 7)) by lia.
  assert (Hp7 : 2 ^ (s + 7) = 2 ^ s * 128) by (rewrite Z.pow_add_r by lia; done).
  unfold tl. rewrite Z.shiftr_div_pow2 by lia. change (2 ^ 7) with 128.
  assert (Hq : 0 <= v / 128) by (apply Z.div_pos; lia).
  rewrite IH; [f_equal; f_equal; rewrite Hp7; nia|lia|done| | |].
  - rewrite Hp7. nia.
  - apply Z.div_lt_upper_bound; [lia|]. rewrite <-Z.pow_succ_r by lia.
    by replace (Z.succ (Z.of_nat (S fuel))) with (Z.of_nat (S (S fuel))) by lia.
  - rewrite Hp7. nia.
Qed.

Lemma read_put_uvarint v rest : in_u64 v -> read_uvarint (put_uvarint v ++ rest) = Ok (v, rest).
Proof.
  unfold in_u64. intros Hv. unfold read_uvarint, put_uvarint.
  rewrite (read_uvarint_written 9); [f_equal; f_equal; lia|lia|lia|lia| |lia].
  assert (2 ^ 64 < 128 ^ Z.of_nat 10) by (by vm_compute). lia.
Qed.

(** Address sets and rules as the format writes them. *)
Definition put_ip (ip : IpAddr) : list byte :=
  match ip with
  | V4 a => put_uvarint 4 ++ be_encode 4 a
  | V6 a => put_uvarint 16 ++ be_encode 16 a
  end.
Definition put_range (r : IpAddr * IpAddr) : list byte := put_ip r.1 ++ put_ip r.2.
Definition put_ip_set (ranges : list (IpAddr * IpAddr)) : list byte :=
  x01 :: be_encode 8 (zlen ranges) ++ concat (map put_range ranges).
(** A default rule with one address-set item. *)
Definition put_ip_rule (ranges : list (IpAddr * IpAddr)) : list byte :=
  x00 :: x06 :: put_ip_set ranges ++ [xff; x00].
Definition put_ip_rules (rules : list (list (IpAddr * IpAddr))) : list byte :=
  put_uvarint (zlen rules) ++ concat (map put_ip_rule rules).

Lemma read_exact_app l rest : read_exact (zlen l) (l ++ rest) = Ok (l, rest).
Proof.
  unfold read_exact. rewrite zlen_app, (proj2 (Z.ltb_ge _ _)) by (pose proof (zlen_nonneg rest); lia).
  unfold zlen. by rewrite Nat2Z.id, take_app_length, drop_app_length.
Qed.

Lemma read_exact_be n v rest : 0 <= v < 2 ^ (8 * Z.of_nat n) ->
  read_exact (Z.of_nat n) (be_encode n v ++ rest) = Ok (be_encode n v, rest).
Proof.
  intros Hv. replace (Z.of_nat n) with (zlen (be_encode n v)); [apply read_exact_app|].
  unfold zlen. by rewrite length_be_encode.
Qed.

Lemma read_put_ip ip rest : ip_wf ip -> read_ip (put_ip ip ++ rest) = Ok (ip, rest).
Proof.
  intros Hw. unfold read_ip. destruct ip as [a|a]; cbn [put_ip]; cbn [ip_wf] in Hw;
    rewrite <-app_assoc, read_put_uvarint by (unfold in_u64; lia); cbn [mbind result_bind allocate].
  - change (allocate 1 4) with (Ok tt). cbn [mbind result_bind].
    rewrite (read_exact_be 4) by exact Hw. cbn [mbind result_bind].
    by rewrite be_decode_encode by exact Hw.
  - change (allocate 1 16) with (Ok tt). cbn [mbind result_bind].
    rewrite (read_exact_be 16) by exact Hw. cbn [mbind result_bind].
    by rewrite be_decode_encode by exact Hw.
Qed.

Lemma read_many_written {A} (rd : reader A) (enc : A -> list byte) (P : A -> Prop) rest :
  (forall a t, P a -> rd (enc a ++ t) = Ok (a, t)) -> (forall a, P a -> enc a <> []) ->
  forall l fuel, Forall P l -> (length l < fuel)%nat ->
  read_many rd fuel (zlen l) (concat (map enc l) ++ rest) = Ok (l, rest).
Proof.
  intros Hrd Hne. induction l as [|a l IH]; intros fuel Hl Hf; (destruct fuel as [|fuel]; [lia|]).
  { done. }
  inversion_clear Hl as [|? ? Ha Hl']. cbn [map concat read_many]. simpl in Hf.
  rewrite zlen_cons, (proj2 (Z.leb_gt _ _)), <-app_assoc, Hrd by (done || (pose proof (zlen_nonneg l); lia)).
  cbn [mbind result_bind]. replace (1 + zlen l - 1) with (zlen l) by lia.
  by rewrite IH by (done || lia).
Qed.

Lemma concat_length_ge {A} (enc : A -> list byte) (P : A -> Prop) (l : list A) :
  (forall a, P a -> enc a <> []) -> Forall P l -> (length l <= length (concat (map enc l)))%nat.
Proof.
  intros Hne. induction 1 as [|a l Ha Hl IH]; simpl; [lia|]. rewrite length_app.
  specialize (Hne a Ha). destruct (enc a); simpl; [done|lia].
Qed.

Definition range_wf (r : IpAddr * IpAddr) : Prop := ip_wf r.1 /\ ip_wf r.2.
Definition ranges_wf (ranges : list (IpAddr * IpAddr)) : Prop :=
  Forall range_wf ranges /\ 34 * zlen ranges < 2 ^ 63.

Lemma put_ip_not_nil ip : put_ip ip <> [].
Proof. destruct ip; discriminate. Qed.

Lemma put_range_not_nil r : put_range r <> [].
Proof. unfold put_range. intros [Hn _]%app_nil. by apply put_ip_not_nil in Hn. Qed.

Lemma read_put_ip_set ranges rest : ranges_wf ranges ->
  read_ip_set (put_ip_set ranges ++ rest) = Ok (ranges, rest).
Proof.
  intros [Hw Hl]. pose proof (zlen_nonneg ranges) as Hn. unfold read_ip_set, put_ip_set.
  cbn [app]. rewrite read_u8_cons. cbn [mbind result_bind].
  change (negb (bz x01 =? 1)) with false. cbn match.
  rewrite <-app_assoc. unfold read_u64_be.
  rewrite (read_exact_be 8) by (change (8 * Z.of_nat 8) with 64; lia). cbn [mbind result_bind].
  rewrite be_decode_encode by (change (8 * Z.of_nat 8) with 64; lia).
  unfold read_list, allocate. rewrite (proj2 (Z.ltb_ge _ _)) by lia. cbn [mbind result_bind].
  apply (read_many_written _ put_range range_wf).
  - intros [f t] s [Hf Ht]. unfold put_range. cbn [fst snd] in *. rewrite <-app_assoc.
    rewrite read_put_ip by done. cbn [mbind result_bind]. by rewrite read_put_ip by done.
  - intros. apply put_range_not_nil.
  - done.
  - rewrite length_app. pose proof (concat_length_ge put_range range_wf ranges
      (fun a _ => put_range_not_nil a) Hw). lia.
Qed.

(** An address rule adds its ranges, in order. *)
Lemma parse_put_ip_rule ranges out rest fuel : ranges_wf ranges -> (1 < fuel)%nat ->
  parse_default_rule fuel out (x06 :: put_ip_set ranges ++ [xff; x00] ++ rest)
  = Ok (foldl add_range out ranges, rest).
Proof.
  intros Hw Hf. destruct fuel as [|[|fuel]]; [lia|lia|]. cbn [parse_default_rule].
  rewrite read_u8_cons. cbn [mbind result_bind].
  change (bz x06 =? RULE_ITEM_DOMAIN) with false.
  change (bz x06 =? RULE_ITEM_DOMAIN_KEYWORD) with false.
  change (bz x06 =? RULE_ITEM_IPCIDR) with true. cbn match.
  rewrite read_put_ip_set by done. cbn [mbind result_bind app].
  rewrite read_u8_cons. cbn [mbind result_bind].
  change (bz xff =? RULE_ITEM_DOMAIN) with false.
  change (bz xff =? RULE_ITEM_DOMAIN_KEYWORD) with false.
  change (bz xff =? RULE_ITEM_IPCIDR) with false.
  change (bz xff =? RULE_ITEM_FINAL) with true. cbn match.
  by rewrite read_u8_cons.
Qed.

Lemma parse_put_ip_rules room rules : Forall ranges_wf rules -> forall fuel out,
  (length (concat (map put_ip_rule rules)) < fuel)%nat ->
  parse_rules fuel room false (zlen rules) out (concat (map put_ip_rule rules))
  = Ok (foldl (foldl add_range) out rules, []).
Proof.
  induction 1 as [|ranges rules Hr Hrs IH]; intros fuel out Hf; (destruct fuel as [|fuel]; [lia|]).
  { done. }
  cbn [map concat] in *. rewrite length_app in Hf. cbn [parse_rules foldl].
  rewrite zlen_cons, (proj2 (Z.leb_gt _ _)) by (pose proof (zlen_nonneg rules); lia).
  unfold put_ip_rule at 1. cbn [app]. rewrite read_u8_cons. cbn [mbind result_bind].
  change (bz x00 =? 0) with true. cbn match. rewrite <-app_assoc.
  cbn [app]. rewrite (parse_put_ip_rule ranges out (concat (map put_ip_rule rules)));
    [|done|cbn [length]; lia]. cbn [mbind result_bind].
  replace (1 + zlen rules - 1) with (zlen rules) by lia. apply IH.
  assert (1 <= length (put_ip_rule ranges))%nat by (unfold put_ip_rule; cbn [length]; lia). lia.
Qed.

(** A count field can abort the process.  A rule set whose first rule
    announces a string list of [n] entries with [24 * n] above [isize::MAX]
    makes the reader panic (and the release profile aborts on a panic), before
    it looks at the rest of the file. *)
Theorem srs_count_panics `{Zlib} data body n rest :
  take 3 data = MAGIC_SRS -> 5 <= zlen data -> zlib_decode (drop 4 data) = Some body ->
  body = x01 :: x00 :: x01 :: put_uvarint n ++ rest -> 2 ^ 63 <= 24 * n -> n < 2 ^ 64 ->
  parse_srs data = Panic "capacity overflow".
Proof.
  intros Hm Hl Hz -> Hn Hn'. unfold parse_srs, parse_srs_on.
  rewrite (proj2 (Z.ltb_ge _ _)), bool_decide_eq_true_2, Hz by done.
  cbn [orb negb ok_or context mbind result_bind].
  change (x01 :: x00 :: x01 :: put_uvarint n ++ rest)
    with (put_uvarint 1 ++ x00 :: x01 :: put_uvarint n ++ rest).
  rewrite read_put_uvarint by (unfold in_u64; lia). cbn [mbind result_bind parse_rules].
  change (1 <=? 0) with false. cbn match. rewrite read_u8_cons. cbn [mbind result_bind].
  change (bz x00 =? 0) with true. cbn match. cbn [parse_default_rule].
  rewrite read_u8_cons. cbn [mbind result_bind].
  change (bz x01 =? RULE_ITEM_DOMAIN) with false.
  change (bz x01 =? RULE_ITEM_DOMAIN_KEYWORD) with false.
  change (bz x01 =? RULE_ITEM_IPCIDR) with false.
  change (bz x01 =? RULE_ITEM_FINAL) with false. cbn match.
  change (bz x01) with 1. unfold skip_rule_item.
  change (existsb (Z.eqb 1) [0; 7; 9]) with false.
  change (existsb (Z.eqb 1) [1; 3; 4; 8; 10; 11; 12; 13; 14; 15; 17; 23]) with true. cbn match.
  unfold read_string_list. rewrite read_put_uvarint by (unfold in_u64; lia).
  cbn [mbind result_bind]. unfold read_list, allocate.
  by rewrite (proj2 (Z.ltb_lt _ _)) by lia.
Qed.

Lemma srs_count_panics_witness :
  let zlib : Zlib := fun l => Some l in
  parse_srs (MAGIC_SRS ++ x01 :: x01 :: x00 :: x01 :: put_uvarint (2 ^ 60) ++ [])
  = Panic "capacity overflow".
Proof.
  intros zlib. eapply (srs_count_panics _ _ (2 ^ 60) []); [by vm_compute..| |]; lia.
Defined.
