(* ===== verification/RuleSets.v ===== *)
(** * Rule sets: loading and presets

    The rest of [rsb-route]: [geo.rs] (presets and remote lists), [rule_cache.rs]
    (the on-disk cache), and the parsers and loaders of [lib.rs].  The disk is a
    finite map, HTTP replies and I/O failures are parameters, and the iteration
    order of hash sets is an argument. *)
From stdpp Require Import base tactics gmap list strings sets.
From Stdlib Require Import ZArith Lia.
From Stdlib Require Import Strings.Byte.
From S2P Require Import Prelude Json Text Ip Route Srs.

Local Open Scope Z_scope.

(** ** Configuration *)

Record RuleSet := mkRuleSet {
  rs_tag : option (list byte);
  rs_format : option (list byte);
  rs_path : option (list byte);
  rs_url : option (list byte);
  rs_urls : list (list byte);
  rs_raw : Value;
}.

Record RouteOptions := mkRouteOptions {
  ro_rules : list RouteRule;
  ro_rule_set : list RuleSet;
  ro_final : option (list byte);
  ro_final_tag : option (list byte);
  ro_preset : option (list byte);
  ro_direct_tag : option (list byte);
  ro_proxy_tag : option (list byte);
  ro_download_path : option (list byte);
}.

(** ** geo.rs *)

Definition builtin_geoip_private_cidrs : list (list byte) :=
  map str ["10.0.0.0/8"; "172.16.0.0/12"; "192.168.0.0/16"; "127.0.0.0/8"; "169.254.0.0/16";
    "100.64.0.0/10"; "0.0.0.0/8"; "192.0.0.0/24"; "192.0.2.0/24"; "198.18.0.0/15";
    "198.51.100.0/24"; "203.0.113.0/24"; "224.0.0.0/3"; "::1/128"; "fc00::/7"; "fe80::/10"]%string.

(** A rule with one kind of destination condition. *)
Definition geoip_rule (code : string) (out : list byte) : RouteRule :=
  mkRouteRule [] [] [] [] [] [] [] [] [] [str code] false [] [] [] [] [] (Some out).
Definition geosite_rule (code : string) (out : list byte) : RouteRule :=
  mkRouteRule [] [] [] [] [] [] [] [] [str code] [] false [] [] [] [] [] (Some out).
Definition private_rule (out : list byte) : RouteRule :=
  mkRouteRule [] [] [] [] [] [] [] [] [] [] true [] [] [] [] [] (Some out).
Definition suffix_rule (suffixes : list (list byte)) (out : list byte) : RouteRule :=
  mkRouteRule [] [] [] [] [] suffixes [] [] [] [] false [] [] [] [] [] (Some out).

Definition china_direct_rules (direct_tag : list byte) : list RouteRule :=
  [geoip_rule "private" direct_tag;
   private_rule direct_tag;
   suffix_rule [str ".cn"; x2e :: [xe4; xb8; xad; xe5; x9b; xbd]; str ".xn--fiqs8s";
                str ".xn--fiqz9s"] direct_tag;
   geosite_rule "cn" direct_tag;
   geoip_rule "cn" direct_tag].

(** [opt.as_deref().filter(|s| !s.is_empty()).unwrap_or(d)]. *)
Definition non_empty_or (o : option (list byte)) (d : list byte) : list byte :=
  match o with
  | Some s => if is_empty s then d else s
  | None => d
  end.

Definition expand_china_direct_preset (route : RouteOptions) (default_proxy_tag : list byte)
  : RouteOptions :=
  let preset := to_ascii_lowercase (default [] (ro_preset route)) in
  if negb (bool_decide (preset = str "china-direct")) && negb (bool_decide (preset = str "smart"))
  then route
  else
    let direct := non_empty_or (ro_direct_tag route) (str "direct") in
    let proxy := non_empty_or (ro_proxy_tag route) default_proxy_tag in
    let final_tag := match ro_final_tag route, ro_final route with
      | None, None => Some proxy
      | t, _ => t
      end in
    mkRouteOptions (ro_rules route ++ china_direct_rules direct) (ro_rule_set route)
      (ro_final route) final_tag (ro_preset route) (ro_direct_tag route) (ro_proxy_tag route)
      (ro_download_path route).

Definition geosite_urls (code : list byte) : list (list byte) :=
  [str "https://cdn.jsdelivr.net/gh/SagerNet/sing-geosite@rule-set/geosite-" ++ code ++ str ".srs";
   str "https://fastly.jsdelivr.net/gh/SagerNet/sing-geosite@rule-set/geosite-" ++ code ++ str ".srs";
   str "https://raw.githubusercontent.com/SagerNet/sing-geosite/rule-set/geosite-" ++ code ++ str ".srs"].
Definition geoip_urls (code : list byte) : list (list byte) :=
  [str "https://cdn.jsdelivr.net/gh/SagerNet/sing-geoip@rule-set/geoip-" ++ code ++ str ".srs";
   str "https://fastly.jsdelivr.net/gh/SagerNet/sing-geoip@rule-set/geoip-" ++ code ++ str ".srs";
   str "https://raw.githubusercontent.com/SagerNet/sing-geoip/rule-set/geoip-" ++ code ++ str ".srs"].

(** The codes in the order the hash sets yield them. *)
Definition remote_entry (prefix : string) (urls : list byte -> list (list byte)) (code : list byte)
  : list byte * RuleSet :=
  let tag := str prefix ++ code in
  (tag, mkRuleSet (Some tag) (Some (str "binary")) None (head (urls code)) (urls code) Null).
Definition collect_remote_geo_rule_sets (geosite geoip : list (list byte))
  : list (list byte * RuleSet) :=
  map (remote_entry "geosite-" geosite_urls) geosite
  ++ map (remote_entry "geoip-" geoip_urls)
       (List.filter (fun code => negb (bool_decide (code = str "private"))) geoip).

Definition collect_geo_tags_from_rules (rules : list RouteRule)
  : gset (list byte) * gset (list byte) :=
  (list_to_set (concat (map geosite rules)), list_to_set (concat (map geoip rules))).

(** ** Rule text *)

(** One line of [parse_text_rules]. *)
Definition text_rule (acc : CompiledRuleSet) (line : list byte) : CompiledRuleSet :=
  let line := trim line in
  if is_empty line || starts_with line [x23] || starts_with line [x2f; x2f] then acc
  else if contains line [x2f] && match line with b :: _ => is_ascii_digit b | [] => false end then
    mkCompiledRuleSet (domains acc) (domain_suffixes acc) (domain_keywords acc)
      (ip_cidrs acc ++ [line]) (ip_ranges acc) (domain_set acc) (suffix_set acc)
  else if starts_with line [x2a; x2e] || starts_with line [x2e] then
    mkCompiledRuleSet (domains acc) (domain_suffixes acc ++ [trim_start_matches x2a line])
      (domain_keywords acc) (ip_cidrs acc) (ip_ranges acc) (domain_set acc) (suffix_set acc)
  else if starts_with line [x2b] then
    mkCompiledRuleSet (domains acc) (domain_suffixes acc)
      (domain_keywords acc ++ [trim_start_matches x2b line]) (ip_cidrs acc) (ip_ranges acc)
      (domain_set acc) (suffix_set acc)
  else
    mkCompiledRuleSet (domains acc ++ [line]) (domain_suffixes acc) (domain_keywords acc)
      (ip_cidrs acc) (ip_ranges acc) (domain_set acc) (suffix_set acc).

Definition empty_rule_set : CompiledRuleSet := mkCompiledRuleSet [] [] [] [] [] ∅ ∅.

Definition parse_text_rules (text : list byte) : CompiledRuleSet :=
  finalize (foldl text_rule empty_rule_set (lines text)).

(** [rule.get(key).and_then(as_array)] and its strings. *)
Definition string_items (rule : Value) (key : string) : list (list byte) :=
  match get rule key ≫= as_array with
  | Some arr => omap as_str arr
  | None => []
  end.
Definition json_rule (acc : CompiledRuleSet) (rule : Value) : CompiledRuleSet :=
  mkCompiledRuleSet (domains acc ++ string_items rule "domain")
    (domain_suffixes acc ++ string_items rule "domain_suffix")
    (domain_keywords acc ++ string_items rule "domain_keyword")
    (ip_cidrs acc ++ string_items rule "ip_cidr") (ip_ranges acc) (domain_set acc)
    (suffix_set acc).
Definition parse_json_rules (rules : list Value) : result CompiledRuleSet :=
  Ok (finalize (foldl json_rule empty_rule_set rules)).

(** The compiled form of a binary rule set. *)
Definition of_srs (parsed : SrsCompiled) : CompiledRuleSet :=
  finalize (mkCompiledRuleSet (srs_domains parsed) (srs_domain_suffixes parsed)
    (srs_domain_keywords parsed) (srs_ip_cidrs parsed) (srs_ip_ranges parsed) ∅ ∅).

(** [rule_set_urls]: the primary URL, then the mirrors not seen before. *)
Fixpoint push_new (urls more : list (list byte)) : list (list byte) :=
  match more with
  | [] => urls
  | u :: more => push_new (if existsb (fun x => bool_decide (x = u)) urls then urls
                           else urls ++ [u]) more
  end.
Definition rule_set_urls (rs : RuleSet) : list (list byte) :=
  push_new (match rs_url rs with Some u => [u] | None => [] end) (rs_urls rs).

(** ** Files and downloads *)

(** The reply to [reqwest::get] and to reading its body. *)
Inductive HttpReply :=
| HttpBody (body : list byte)
| HttpBodyError (e : string)
| HttpStatus (e : string)
| HttpError (e : string).

Class World := {
  http_get : list byte -> HttpReply;
  (** failures of reading an existing file and of writing one *)
  read_error : list byte -> option string;
  write_ok : list byte -> bool;
  embedded_geosite_cn_text : list byte;
  embedded_geo_srs : list byte -> option (list byte);
}.

Abbreviation Disk := (gmap (list byte) (list byte)).

Section Loading.
Context `{World} `{Zlib}.

Definition read_file (disk : Disk) (path : list byte) : result (list byte) :=
  match disk !! path with
  | None => Err "No such file or directory"
  | Some bytes =>
      match read_error path with Some e => Err e | None => Ok bytes end
  end.

(** [read_to_string] also refuses text that is not UTF-8. *)
Definition read_to_string (disk : Disk) (path : list byte) : result (list byte) :=
  bytes ← read_file disk path;
  if utf8_valid bytes then Ok bytes else Err "stream did not contain valid UTF-8".

Definition is_tag_byte (b : byte) : bool :=
  in_range 48 57 b || in_range 65 90 b || in_range 97 122 b
  || bool_decide (b = x2d) || bool_decide (b = x5f).

(** One output character per input character. *)
Fixpoint sanitize_go (fuel : nat) (tag : list byte) : list byte :=
  match fuel, tag with
  | S fuel', b :: _ =>
      let n := (utf8_step tag).2 in
      (if (n =? 1)%nat && is_tag_byte b then b else x5f) :: sanitize_go fuel' (drop n tag)
  | _, _ => []
  end.
Definition sanitize_tag (tag : list byte) : list byte :=
  let out := sanitize_go (length tag) tag in
  if is_empty out then str "ruleset" else out.

(** [PathBuf::join] of a relative file name. *)
Definition path_join (base name : list byte) : list byte :=
  if is_empty base then name
  else if ends_with base [x2f] then base ++ name
  else base ++ x2f :: name.
Definition file_path (base tag : list byte) (binary : bool) : list byte :=
  path_join base (sanitize_tag tag ++ x2e :: str (if binary then "srs" else "txt")).

Fixpoint fetch_first_loop (urls : list (list byte)) (last : option string) : result (list byte) :=
  match urls with
  | [] => match last with Some e => Err e | None => Err "no rule-set urls" end
  | url :: urls =>
      match http_get url with
      | HttpBody body => Ok body
      | HttpBodyError _ => Err "read rule-set body"
      | HttpStatus e => fetch_first_loop urls (Some e)
      | HttpError e => fetch_first_loop urls (Some e)
      end
  end.
Definition fetch_first_url (urls : list (list byte)) : result (list byte) :=
  fetch_first_loop urls None.

(** The download loop of [read_or_fetch_urls]: here a failed body is skipped. *)
Fixpoint fetch_loop (disk : Disk) (path : list byte) (urls : list (list byte))
    (last : option string) : result (list byte) * Disk :=
  match urls with
  | [] => (match last with Some e => Err e | None => Err "fetch rule-set failed" end, disk)
  | url :: urls =>
      match http_get url with
      | HttpBody body => (Ok body, if write_ok path then <[path := body]> disk else disk)
      | HttpBodyError e | HttpStatus e | HttpError e => fetch_loop disk path urls (Some e)
      end
  end.

Definition read_or_fetch_urls (disk : Disk) (base tag : list byte) (urls : list (list byte))
    (binary : bool) : result (list byte) * Disk :=
  if is_empty urls then (Err "no rule-set urls", disk)
  else
    let path := file_path base tag binary in
    match disk !! path, read_error path with
    | Some bytes, None =>
        if 64 <=? zlen bytes then (Ok bytes, disk) else fetch_loop disk path urls None
    | _, _ => fetch_loop disk path urls None
    end.

Definition is_binary (rs : RuleSet) : bool :=
  let srs u := ends_with u (str ".srs") in
  match rs_format rs with Some f => bool_decide (f = str "binary") | None => false end
  || match rs_path rs with Some p => srs p | None => false end
  || match rs_url rs with Some u => srs u | None => false end
  || existsb srs (rs_urls rs).

Definition has_url (rs : RuleSet) : bool :=
  match rs_url rs with Some _ => true | None => negb (is_empty (rs_urls rs)) end.

(** Bytes from the URLs, through the cache when there is one. *)
Definition load_urls (disk : Disk) (cache : option (list byte)) (tag : list byte) (rs : RuleSet)
    (binary : bool) : result (list byte) * Disk :=
  let urls := rule_set_urls rs in
  match cache with
  | Some base => read_or_fetch_urls disk base tag urls binary
  | None => (fetch_first_url urls, disk)
  end.

Definition load_rule_set (disk : Disk) (tag : list byte) (rs : RuleSet) (cache : option (list byte))
  : result CompiledRuleSet * Disk :=
  if is_binary rs then
    let '(bytes, disk) :=
      match rs_path rs with
      | Some path => (context "read binary rule-set" (read_file disk path), disk)
      | None =>
          if has_url rs then load_urls disk cache tag rs true
          else (Err "binary rule-set requires path or url", disk)
      end in
    (bytes ← bytes; parsed ← parse_srs bytes; Ok (of_srs parsed), disk)
  else
    match rs_path rs with
    | Some path =>
        (text ← context "read rule-set path" (read_to_string disk path);
         Ok (parse_text_rules text), disk)
    | None =>
        if has_url rs then
          let '(bytes, disk) := load_urls disk cache tag rs false in
          (bytes ← bytes;
           text ← context (match cache with
             | Some _ => "rule-set cache is not valid utf-8"
             | None => "rule-set body is not valid utf-8"
             end) (from_utf8 bytes);
           Ok (parse_text_rules text), disk)
        else match get (rs_raw rs) "rules" ≫= as_array with
        | Some inline => (parse_json_rules inline, disk)
        | None => (Err "rule-set requires path, url, or inline rules", disk)
        end
    end.

(** *** [RuleRouter::load_rule_sets] *)

Abbreviation RuleSetMap := (gmap (list byte) CompiledRuleSet).

(** The configured rule sets; the first failure stops the load. *)
Fixpoint load_configured (disk : Disk) (cache : option (list byte)) (i : Z) (sets : list RuleSet)
    (map : RuleSetMap) : result RuleSetMap * Disk :=
  match sets with
  | [] => (Ok map, disk)
  | rs :: sets =>
      let tag := default (str "ruleset-" ++ show_uint i) (rs_tag rs) in
      match load_rule_set disk tag rs cache with
      | (Ok compiled, disk) => load_configured disk cache (i + 1) sets (<[tag := compiled]> map)
      | (Err _, disk) => (Err "load rule_set", disk)
      | (Panic e, disk) => (Panic e, disk)
      end
  end.

(** The geographic rule sets the rules mention; failures are logged only. *)
Fixpoint load_geo (disk : Disk) (cache : option (list byte)) (sets : list (list byte * RuleSet))
    (map : RuleSetMap) : result RuleSetMap * Disk :=
  match sets with
  | [] => (Ok map, disk)
  | (tag, rs) :: sets =>
      let download disk :=
        match load_rule_set disk tag rs cache with
        | (Ok compiled, disk) => load_geo disk cache sets (<[tag := compiled]> map)
        | (Err _, disk) => load_geo disk cache sets map
        | (Panic e, disk) => (Panic e, disk)
        end in
      if bool_decide (is_Some (map !! tag)) then load_geo disk cache sets map
      else if bool_decide (tag = str "geosite-cn") then
        load_geo disk cache sets (<[tag := parse_text_rules embedded_geosite_cn_text]> map)
      else match embedded_geo_srs tag with
      | Some bytes =>
          match parse_srs bytes with
          | Ok parsed =>
              let disk := match cache with
                | Some base =>
                    let path := file_path base tag true in
                    if write_ok path then <[path := bytes]> disk else disk
                | None => disk
                end in
              load_geo disk cache sets (<[tag := of_srs parsed]> map)
          | Err _ => download disk
          | Panic e => (Panic e, disk)
          end
      | None => download disk
      end
  end.

(** [RuleRouter::new], then [load_rule_sets]; [geosite_order] and [geoip_order]
    list the codes of [collect_geo_tags_from_rules] in iteration order. *)
Definition router_rules (options : RouteOptions) (default_tag : list byte) : RouteOptions :=
  expand_china_direct_preset options default_tag.
Definition router_cache (options : RouteOptions) : option (list byte) :=
  Some (default (str "cache/rule-set") (ro_download_path options)).

Definition load_rule_sets (disk : Disk) (options : RouteOptions) (default_tag : list byte)
    (geosite_order geoip_order : list (list byte)) : result RuleRouter * Disk :=
  let rules := router_rules options default_tag in
  let cache := router_cache rules in
  match load_configured disk cache 0 (ro_rule_set rules) ∅ with
  | (Ok map, disk) =>
      match load_geo disk cache (collect_remote_geo_rule_sets geosite_order geoip_order) map with
      | (Ok map, disk) =>
          let map := if bool_decide (str "private" ∈ geoip_order) then
            <[str "geoip-private" :=
               finalize (mkCompiledRuleSet [] [] [] builtin_geoip_private_cidrs [] ∅ ∅)]> map
            else map in
          (Ok (mkRuleRouter (ro_rules rules) default_tag map), disk)
      | (Err e, disk) => (Err e, disk)
      | (Panic e, disk) => (Panic e, disk)
      end
  | (Err e, disk) => (Err e, disk)
  | (Panic e, disk) => (Panic e, disk)
  end.
End Loading.

(** ** Binary address rules *)

(** What [geoip_rule_set_matches] reads of a binary rule set. *)
Definition srs_matches (out : SrsCompiled) (ip : IpAddr) : bool :=
  existsb (ip_in_cidr ip) (srs_ip_cidrs out)
  || existsb (fun '(from, to) => ip_in_range ip from to) (srs_ip_ranges out).

Lemma geoip_of_srs out ip : geoip_rule_set_matches (of_srs out) ip = srs_matches out ip.
Proof. done. Qed.

Lemma single_address_block ip a : ip_wf ip -> ip_wf a ->
  ip_in_cidr ip (match a with
    | V4 v4 => show_ipv4 v4 ++ str "/32"
    | V6 v6 => show_ipv6 v6 ++ str "/128"
    end) = ip_in_range ip a a.
Proof.
  intros Hi Ha. apply eq_true_iff_eq.
  assert (match a with
    | V4 v4 => show_ipv4 v4 ++ str "/32"
    | V6 v6 => show_ipv6 v6 ++ str "/128"
    end = show_ip a ++ x2f :: show_uint (match a with V4 _ => 32 | V6 _ => 128 end)) as ->
    by (by destruct a).
  rewrite ip_in_cidr_text by (done || (destruct a; lia)). unfold same_block.
  destruct ip, a; cbn [ip_in_range]; try done;
    (rewrite decide_False by lia; rewrite andb_true_iff, !Z.leb_le; lia).
Qed.

Lemma add_range_matches out r ip : ip_wf ip -> range_wf r ->
  srs_matches (add_range out r) ip = srs_matches out ip || ip_in_range ip r.1 r.2.
Proof.
  intros Hi [Hf Ht]. destruct r as [f t]. cbn [fst snd] in *. unfold add_range, srs_matches.
  case_bool_decide as Hft; cbn [srs_ip_cidrs srs_ip_ranges]; rewrite existsb_app; cbn [existsb];
    rewrite orb_false_r.
  - subst t. rewrite single_address_block by done.
    rewrite <-!orb_assoc. f_equal. apply orb_comm.
  - by rewrite orb_assoc.
Qed.

Lemma add_ranges_matches ranges ip : ip_wf ip -> forall out, Forall range_wf ranges ->
  srs_matches (foldl add_range out ranges) ip
  = srs_matches out ip || existsb (fun r => ip_in_range ip r.1 r.2) ranges.
Proof.
  intros Hi. induction ranges as [|r ranges IH]; intros out Hr; simpl; [by rewrite orb_false_r|].
  inversion_clear Hr. rewrite IH, add_range_matches by done. by rewrite orb_assoc.
Qed.

Lemma add_rules_matches rules ip : ip_wf ip -> forall out, Forall ranges_wf rules ->
  srs_matches (foldl (foldl add_range) out rules) ip
  = srs_matches out ip || existsb (existsb (fun r => ip_in_range ip r.1 r.2)) rules.
Proof.
  intros Hi. induction rules as [|rs rules IH]; intros out Hr; simpl; [by rewrite orb_false_r|].
  inversion_clear Hr as [|? ? [Hw _] Hr']. rewrite IH, add_ranges_matches by done.
  by rewrite orb_assoc.
Qed.

(** Address rules of a binary rule set, from file bytes to matching.  A
    file that carries any rules of address ranges loads, and the compiled set
    matches an address exactly when it lies in one of the ranges (single
    addresses take the detour over printed and reparsed [/32] and [/128]
    blocks). *)
Theorem srs_address_rules `{World} `{Zlib} disk tag path data version packed rules :
  Forall ranges_wf rules -> zlen rules < 2 ^ 64 ->
  data = MAGIC_SRS ++ version :: packed -> packed <> [] ->
  zlib_decode packed = Some (put_ip_rules rules) ->
  disk !! path = Some data -> read_error path = None ->
  exists compiled,
    load_rule_set disk tag (mkRuleSet None (Some (str "binary")) (Some path) None [] Null) None
      = (Ok compiled, disk) /\
    forall ip, ip_wf ip -> geoip_rule_set_matches compiled ip
      = existsb (existsb (fun r => ip_in_range ip r.1 r.2)) rules.
Proof.
  intros Hw Hn -> Hp Hz Hd Hr. eexists. split.
  - unfold load_rule_set.
    assert (is_binary (mkRuleSet None (Some (str "binary")) (Some path) None [] Null) = true) as ->
      by done.
    cbn [rs_path]. unfold read_file. rewrite Hd, Hr.
    cbn [context mbind result_bind]. unfold parse_srs, parse_srs_on, parse_srs_on.
    rewrite (proj2 (Z.ltb_ge _ _)).
    2: { destruct packed; [done|]. rewrite zlen_app, !zlen_cons. pose proof (zlen_nonneg packed).
         change (zlen MAGIC_SRS) with 3. lia. }
    change (take 3 (MAGIC_SRS ++ version :: packed)) with MAGIC_SRS.
    change (drop 4 (MAGIC_SRS ++ version :: packed)) with packed.
    rewrite bool_decide_eq_true_2 by done. cbn [orb negb]. rewrite Hz.
    cbn [ok_or context mbind result_bind]. unfold put_ip_rules.
    rewrite read_put_uvarint by (unfold in_u64; pose proof (zlen_nonneg rules); lia).
    cbn [mbind result_bind]. rewrite parse_put_ip_rules by (done || lia). reflexivity.
  - intros ip Hi. rewrite geoip_of_srs, add_rules_matches by done. done.
Qed.

Lemma srs_address_rules_witness :
  let world : World := {| http_get _ := HttpError "offline"; read_error _ := None;
    write_ok _ := true; embedded_geosite_cn_text := []; embedded_geo_srs _ := None |} in
  let zlib : Zlib := fun l => Some l in
  let rules := [[(V4 16909060, V4 16909060); (V4 167772160, V4 167837695)]] in
  exists compiled,
    load_rule_set {[str "a.srs" := MAGIC_SRS ++ x01 :: put_ip_rules rules]} []
      (mkRuleSet None (Some (str "binary")) (Some (str "a.srs")) None [] Null) None
      = (Ok compiled, {[str "a.srs" := MAGIC_SRS ++ x01 :: put_ip_rules rules]}) /\
    geoip_rule_set_matches compiled (V4 167772161) = true.
Proof.
  intros world zlib rules.
  destruct (srs_address_rules {[str "a.srs" := MAGIC_SRS ++ x01 :: put_ip_rules rules]} []
    (str "a.srs") (MAGIC_SRS ++ x01 :: put_ip_rules rules) x01 (put_ip_rules rules) rules) as (compiled & Hl & Hm); cycle -1.
  { exists compiled. split; [exact Hl|]. rewrite Hm by (cbn; lia). by vm_compute. }
  all: try done.
  repeat constructor; cbn; lia.
Defined.

(** ** Text address rules *)

Lemma addr_char_printable b : addr_char b -> printable b.
Proof. unfold addr_char, printable. lia. Qed.

Lemma cidr_line_printable net p : 0 <= p < 256 ->
  Forall printable (show_ip net ++ x2f :: show_uint p).
Proof.
  intros Hp. apply Forall_app. split.
  - eapply Forall_impl; [apply show_ip_chars|]. apply addr_char_printable.
  - constructor; [done|]. eapply Forall_impl; [by apply show_octet_chars|].
    apply addr_char_printable.
Qed.

(** A block is neither blank nor a comment. *)
Lemma cidr_line_kept net p : 0 <= p < 256 ->
  let line := show_ip net ++ x2f :: show_uint p in
  is_empty line || starts_with line [x23] || starts_with line [x2f; x2f] = false /\
  contains line [x2f] = true.
Proof.
  intros Hp line. split.
  - pose proof (show_ip_chars net) as Hc. unfold line.
    destruct (show_ip net) as [|b l].
    + pose proof (show_octet_chars p Hp) as Hu. cbn [app].
      destruct (show_uint p) as [|c u]; [done|]. inversion_clear Hu as [|? ? Hcc _].
      cbn [is_empty starts_with]. rewrite (bool_decide_eq_false_2 (x23 = x2f)) by done.
      rewrite (bool_decide_eq_false_2 (x2f = c)) by (intros <-; unfold addr_char in Hcc;
        change (bz x2f) with 47 in Hcc; lia).
      by rewrite andb_false_r.
    + inversion_clear Hc as [|? ? Hb _]. cbn [app is_empty starts_with].
      rewrite (bool_decide_eq_false_2 (x23 = b)), (bool_decide_eq_false_2 (x2f = b)).
      * done.
      * intros <-. unfold addr_char in Hb. change (bz x2f) with 47 in Hb. lia.
      * intros <-. unfold addr_char in Hb. change (bz x23) with 35 in Hb. lia.
  - apply contains_spec. by exists (show_ip net), (show_uint p).
Qed.

(** Address blocks in text rule sets.  A line with a block is used as the
    block it denotes when it starts with a decimal digit, and matches no address
    at all otherwise: IPv6 blocks such as [fe80::/10] and [::1/128] are read as
    domain names. *)
Theorem text_address_line net p ip : ip_wf net -> ip_wf ip -> 0 <= p < 256 ->
  let line := show_ip net ++ x2f :: show_uint p in
  geoip_rule_set_matches (parse_text_rules line) ip
  = match line with b :: _ => is_ascii_digit b | [] => false end && ip_in_cidr ip line.
Proof.
  intros Hn Hi Hp line.
  destruct (cidr_line_kept net p Hp) as [Hk Hc]. fold line in Hk, Hc.
  pose proof (cidr_line_printable net p Hp) as Hpr. fold line in Hpr.
  unfold parse_text_rules. rewrite lines_single by (done || by destruct line).
  cbn [foldl]. unfold text_rule. cbv zeta. rewrite trim_printable by done. rewrite Hk, Hc.
  unfold geoip_rule_set_matches. cbn [andb].
  destruct (match line with b :: _ => is_ascii_digit b | [] => false end).
  { cbn. by rewrite !orb_false_r. }
  repeat case_match; done.
Qed.

Lemma text_address_line_witness :
  geoip_rule_set_matches (parse_text_rules (str "fe80::/10")) (V6 (65152 * 2 ^ 112 + 1)) = false /\
  ip_in_cidr (V6 (65152 * 2 ^ 112 + 1)) (str "fe80::/10") = true.
Proof.
  split; [|by vm_compute].
  assert (Hl : str "fe80::/10" = show_ip (V6 (65152 * 2 ^ 112)) ++ x2f :: show_uint 10)
    by (by vm_compute).
  rewrite Hl. rewrite (text_address_line (V6 (65152 * 2 ^ 112)) 10); [by vm_compute|simpl; lia..].
Defined.

(** ** Presets *)

Lemma preset_fields options tag :
  let preset := to_ascii_lowercase (default [] (ro_preset options)) in
  preset = str "china-direct" \/ preset = str "smart" ->
  ro_rules (expand_china_direct_preset options tag)
    = ro_rules options ++ china_direct_rules (non_empty_or (ro_direct_tag options) (str "direct")).
Proof.
  intros preset Hp. unfold expand_china_direct_preset. fold preset.
  destruct Hp as [-> | ->]; reflexivity.
Qed.

(** The router a load yields has the expanded rules and the default tag given. *)
Lemma load_rule_sets_rules `{World} `{Zlib} disk options tag gs gi router disk' :
  load_rule_sets disk options tag gs gi = (Ok router, disk') ->
  rules router = ro_rules (expand_china_direct_preset options tag) /\ default_tag router = tag.
Proof.
  unfold load_rule_sets, router_rules. cbv zeta.
  destruct (load_configured _ _ _ _ _) as [[m|e|e] d]; [|done|done].
  destruct (load_geo _ _ _ _) as [[m'|e|e] d']; [|done|done].
  intros [= <- <-]. done.
Qed.

Lemma no_constraints `{Regex} ip_cidr domain domain_suffix domain_keyword rule_set geosite geoip
    private out m :
  constraints_hold (mkRouteRule [] [] [] ip_cidr domain domain_suffix domain_keyword rule_set
    geosite geoip private [] [] [] [] [] out) m.
Proof. repeat split; by left. Qed.

(** The [china-direct] preset.  With it, a connection that no configured
    rule applies to goes to the direct outbound when its destination is a
    private address, or when its domain is under [.cn] (and neither condition
    needs a rule set to be present); configured rules keep priority. *)
Theorem china_direct_preset `{World} `{Zlib} `{Regex} disk options tag gs gi router disk' m :
  let preset := to_ascii_lowercase (default [] (ro_preset options)) in
  let direct := non_empty_or (ro_direct_tag options) (str "direct") in
  preset = str "china-direct" \/ preset = str "smart" ->
  load_rule_sets disk options tag gs gi = (Ok router, disk') ->
  (exists rule, rule ∈ ro_rules options /\ rule_applies router rule m /\
     route router m = Ok (default tag (outbound rule))) \/
  (Forall (fun r => ~ rule_applies router r m) (ro_rules options) /\
   (Holds (md_destination m) (fun d => is_unspecified (sa_ip d) = false /\ is_private_ip (sa_ip d) = true) \/
    Holds (md_domain m) (fun d => domain_matches_suffix d (str ".cn") = true) ->
    route router m = Ok direct)).
Proof.
  intros preset direct Hp Hl. apply load_rule_sets_rules in Hl as [Hr Hd].
  rewrite preset_fields in Hr by done. fold direct in Hr. unfold route. rewrite Hr.
  destruct (route_loop_app router (ro_rules options) (china_direct_rules direct) m)
    as [(rule & Hi & Ha & ->)|[Hn ->]].
  { left. exists rule. by rewrite Hd. }
  right. split; [done|]. intros Hm. apply route_loop_same; [by repeat constructor|].
  destruct Hm as [Hm|Hm]; apply Exists_exists.
  - exists (private_rule direct). split; [right; by left|]. split; [apply no_constraints|]. exact Hm.
  - eexists. split; [right; right; by left|]. split; [apply no_constraints|].
    destruct Hm as (d & Hd' & Hs). left. exists d. split; [done|]. right. left. by left.
Qed.

Lemma china_direct_preset_witness :
  let world : World := {| http_get _ := HttpError "offline"; read_error _ := None;
    write_ok _ := true; embedded_geosite_cn_text := []; embedded_geo_srs _ := None |} in
  let zlib : Zlib := fun l => Some l in
  let regex : Regex := fun _ _ => None in
  let options := mkRouteOptions [] [] None None (Some (str "Smart")) None None None in
  let router := mkRuleRouter (china_direct_rules (str "direct")) (str "proxy") ∅ in
  let m := mkMetadata Tcp None (Some (mkSocketAddr (V4 3232235777) 443)) None None None None [] in
  route router m = Ok (str "direct").
Proof.
  intros world zlib regex options router m.
  destruct (china_direct_preset ∅ options (str "proxy") [] [] router ∅ m) as [(r & Hr & _)|[_ Hd]].
  - right. by vm_compute.
  - reflexivity.
  - by apply elem_of_nil in Hr.
  - apply Hd. left. eexists. split; [reflexivity|]. by vm_compute.
Defined.

(** [proxy_tag] has no effect.  The documented default of the preset, the
    proxy tag as final outbound, is written to an option the router does not
    read: whatever [proxy_tag] is, loading gives the same router, and
    connections no rule applies to go to the default tag computed before. *)
Theorem preset_ignores_proxy_tag `{World} `{Zlib} disk options tag gs gi proxy :
  let options' := mkRouteOptions (ro_rules options) (ro_rule_set options) (ro_final options)
    (ro_final_tag options) (ro_preset options) (ro_direct_tag options) proxy
    (ro_download_path options) in
  load_rule_sets disk options' tag gs gi = load_rule_sets disk options tag gs gi /\
  (ro_final options = None -> ro_final_tag options = None ->
   to_ascii_lowercase (default [] (ro_preset options)) = str "china-direct" ->
   ro_final_tag (router_rules options' tag) = Some (non_empty_or proxy tag)).
Proof.
  intros options'. split.
  - unfold load_rule_sets. cbv zeta.
    assert (ro_rules (router_rules options' tag) = ro_rules (router_rules options tag) /\
      ro_rule_set (router_rules options' tag) = ro_rule_set (router_rules options tag) /\
      router_cache (router_rules options' tag) = router_cache (router_rules options tag))
      as (-> & -> & ->).
    { unfold router_rules, expand_china_direct_preset, options'. cbn [ro_preset].
      by case_match. }
    done.
  - intros Hf Ht Hp. unfold router_rules, expand_china_direct_preset, options'.
    cbn [ro_preset ro_final ro_final_tag ro_proxy_tag ro_direct_tag]. rewrite Hp, Hf, Ht. done.
Qed.

Lemma preset_ignores_proxy_tag_witness :
  let world : World := {| http_get _ := HttpError "offline"; read_error _ := None;
    write_ok _ := true; embedded_geosite_cn_text := []; embedded_geo_srs _ := None |} in
  let zlib : Zlib := fun l => Some l in
  let options proxy := mkRouteOptions [] [] None None (Some (str "china-direct")) None proxy None in
  ro_final_tag (router_rules (options (Some (str "p"))) (str "d")) = Some (str "p").
Proof.
  intros world zlib options.
  by apply (preset_ignores_proxy_tag ∅ (options None) (str "d") [] [] (Some (str "p"))).
Defined.
