(* ===== verification/Users.v ===== *)
(** * Users

    [rsb-core/src/user_registry.rs]: per-user policies read from the inbound
    configuration, the lookup tables, and the shared run-time counters.  A
    counter cell, once created for a name, is never replaced, so a shared
    [Arc<UserRuntime>] is the name it is stored under.  UUID text, SHA-224 and
    the unspecified default hasher are parameters. *)
From stdpp Require Import base tactics gmap list strings.
From Stdlib Require Import ZArith Lia.
From Stdlib Require Import Strings.Byte.
From S2P Require Import Prelude Json Text.

Local Open Scope Z_scope.

(** [Uuid::parse_str], [Uuid::to_string], the hexadecimal SHA-224 of a text and
    [DefaultHasher] on a text. *)
Class UserCrypto := {
  uuid_parse : list byte -> option (list byte);
  uuid_show : list byte -> list byte;
  sha224_hex : list byte -> list byte;
  default_hash : list byte -> Z;
}.

Definition MBPS_TO_BPS_users : Z := 125000.

Record UserLimits := mkUserLimits {
  max_connections : option Z;
  max_traffic_bytes : option Z;
  speed_bps : option Z;
}.

Record UserRecord := mkUserRecord {
  ur_uuid : list byte;
  ur_name : list byte;
  ur_inbound_tag : list byte;
  ur_limits : UserLimits;
}.

Record UserRuntime := mkUserRuntime {
  rt_uplink : Z;
  rt_downlink : Z;
  rt_active : Z;
}.
Definition default_runtime : UserRuntime := mkUserRuntime 0 0 0.

(** [UserRuntime::total]; [u64] addition wraps in the release profile. *)
Definition total (rt : UserRuntime) : Z := u64 (rt_uplink rt + rt_downlink rt).

Record UserRegistry := mkUserRegistry {
  by_uuid : gmap (list byte) UserRecord;
  by_name : gmap (list byte) UserRecord;
  by_password : gmap (list byte) UserRecord;
  by_trojan_hash : gmap (list byte) UserRecord;
  by_inbound : gmap (list byte) (list UserRecord);
  runtimes : gmap (list byte) UserRuntime;
}.
Definition new_registry : UserRegistry := mkUserRegistry ∅ ∅ ∅ ∅ ∅ ∅.

(** [Inbound] of the configuration. *)
Record InboundCfg := mkInboundCfg {
  ib_kind : list byte;
  ib_tag : option (list byte);
  ib_raw : Value;
}.
Definition inbound_tag (ib : InboundCfg) (i : Z) : list byte := default (show_uint i) (ib_tag ib).

Section Users.
Context `{UserCrypto}.

Definition uuid_nil : list byte := replicate 16 x00.
Definition trojan_password_hash (password : list byte) : list byte := sha224_hex password.

(** Little-endian bytes of a [u64], and [u64::rotate_left]. *)
Definition le_bytes (v : Z) : list byte := rev (be_encode 8 v).
Definition rotate_left (v n : Z) : Z := u64 (Z.lor (Z.shiftl v n) (Z.shiftr v (64 - n))).
Definition uuid_from_password (password : list byte) : list byte :=
  let h := u64 (default_hash password) in
  le_bytes h ++ le_bytes (rotate_left h 17).

Definition user_display_name (user : Value) (uuid : list byte) : list byte :=
  default (uuid_show uuid) (or_else (get user "name") (get user "email") ≫= as_str).

Definition parse_user_limits (user : Value) : UserLimits :=
  let limit_obj := or_else (get user "limit") (get user "limits") ≫= as_object in
  let in_obj key := limit_obj ≫= (fun o => get o key) in
  let max_connections :=
    or_else (or_else (or_else (get user "conn_limit") (get user "connection_limit"))
      (get user "max_connections")) (in_obj "connections") ≫= as_u64 in
  let max_traffic_bytes :=
    or_else
      (or_else (or_else (get user "traffic_limit_bytes") (get user "traffic_limit"))
         (in_obj "traffic_bytes") ≫= as_u64)
      ((fun gb => f64_to_u64 (f64_mul (f64_mul (f64_mul gb (f64_of_Z 1024)) (f64_of_Z 1024))
                    (f64_of_Z 1024)))
         <$> (or_else (get user "traffic_limit_gb") (in_obj "traffic_gb") ≫= as_f64)) in
  let speed_bps :=
    or_else
      ((fun mbps => u64 (mbps * MBPS_TO_BPS_users))
         <$> (or_else (or_else (get user "speed_mbps") (get user "download_speed_mbps"))
                (in_obj "speed_mbps") ≫= as_u64))
      (or_else (get user "speed_bps") (in_obj "speed_bps") ≫= as_u64) in
  mkUserLimits max_connections max_traffic_bytes speed_bps.

(** [UserRegistry::register]. *)
Definition register (reg : UserRegistry) (record : UserRecord) (password : option (list byte))
  : UserRegistry :=
  {| by_uuid := <[ur_uuid record := record]> (by_uuid reg);
     by_name := <[ur_name record := record]> (by_name reg);
     by_password := match password with
       | Some pass => <[pass := record]> (by_password reg)
       | None => by_password reg
       end;
     by_trojan_hash := match password with
       | Some pass => <[trojan_password_hash pass := record]> (by_trojan_hash reg)
       | None => by_trojan_hash reg
       end;
     by_inbound := <[ur_inbound_tag record :=
       default [] (by_inbound reg !! ur_inbound_tag record) ++ [record]]> (by_inbound reg);
     runtimes := runtimes reg |}.

(** One user object with a [uuid], and one with a password. *)
Definition ingest_uuid_user (tag : list byte) (reg : UserRegistry) (user : Value) : UserRegistry :=
  match get user "uuid" ≫= as_str with
  | Some uuid_str =>
      match uuid_parse uuid_str with
      | Some uuid =>
          register reg (mkUserRecord uuid (user_display_name user uuid) tag
            (parse_user_limits user)) None
      | None => reg
      end
  | None => reg
  end.
Definition register_password (tag : list byte) (reg : UserRegistry) (user : Value)
    (pass : list byte) : UserRegistry :=
  register reg (mkUserRecord (uuid_from_password pass) (user_display_name user uuid_nil) tag
    (parse_user_limits user)) (Some pass).
Definition ingest_password_user (tag : list byte) (reg : UserRegistry) (user : Value)
  : UserRegistry :=
  match or_else (get user "password") (get user "pass") ≫= as_str with
  | Some pass => register_password tag reg user pass
  | None => reg
  end.

Definition ingest_uuid_users (reg : UserRegistry) (raw : Value) (tag : list byte) : UserRegistry :=
  match get raw "users" ≫= as_array with
  | Some arr => foldl (ingest_uuid_user tag) reg arr
  | None => ingest_uuid_user tag reg raw
  end.

Definition ingest_password_users (reg : UserRegistry) (raw : Value) (tag : list byte)
  : UserRegistry :=
  match get raw "users" ≫= as_array with
  | Some arr => foldl (ingest_password_user tag) reg arr
  | None =>
      match get raw "password" ≫= as_str with
      | Some pass => register_password tag reg raw pass
      | None => reg
      end
  end.

Definition ingest_shadowsocks_users (reg : UserRegistry) (raw : Value) (tag : list byte)
  : UserRegistry :=
  let reg := match get raw "password" ≫= as_str with
    | Some pass => register_password tag reg raw pass
    | None => reg
    end in
  ingest_password_users reg raw tag.

Definition kind_in (kind : list byte) (kinds : list string) : bool :=
  existsb (fun k => bool_decide (kind = str k)) kinds.

Definition ingest_inbound (reg : UserRegistry) (kind : list byte) (raw : Value) (tag : list byte)
  : UserRegistry :=
  if kind_in kind ["vless"; "vmess"; "tuic"]%string then ingest_uuid_users reg raw tag
  else if kind_in kind ["trojan"; "anytls"; "hysteria2"; "rsq"; "rst"; "shadowtls"]%string
  then ingest_password_users reg raw tag
  else if kind_in kind ["shadowsocks"]%string then ingest_shadowsocks_users reg raw tag
  else match get raw "reality" with
  | Some _ => ingest_uuid_users reg raw tag
  | None => reg
  end.

(** The loop over the inbounds that [from_options] and [reload_from_options]
    share. *)
Definition ingest_all (reg : UserRegistry) (inbounds : list InboundCfg) : UserRegistry :=
  foldl (fun reg '(i, ib) => ingest_inbound reg (ib_kind ib) (ib_raw ib) (inbound_tag ib (Z.of_nat i)))
    reg (zip (seq 0 (length inbounds)) inbounds).

Definition from_options (inbounds : list InboundCfg) : UserRegistry :=
  ingest_all new_registry inbounds.

Definition reload_from_options (reg : UserRegistry) (inbounds : list InboundCfg) : UserRegistry :=
  ingest_all (mkUserRegistry ∅ ∅ ∅ ∅ ∅ (runtimes reg)) inbounds.

Definition lookup_uuid (reg : UserRegistry) (uuid : list byte) : option UserRecord := by_uuid reg !! uuid.
Definition lookup_password (reg : UserRegistry) (password : list byte) : option UserRecord :=
  by_password reg !! password.
Definition lookup_trojan_hash (reg : UserRegistry) (hash : list byte) : option UserRecord :=
  by_trojan_hash reg !! hash.
Definition first_for_inbound (reg : UserRegistry) (tag : list byte) : option UserRecord :=
  by_inbound reg !! tag ≫= head.
Definition records (reg : UserRegistry) : list UserRecord := (map_to_list (by_name reg)).*2.
Definition user_names (reg : UserRegistry) : list (list byte) := (map_to_list (by_name reg)).*1.

(** [UserRegistry::runtime]: the cell of a name, created when absent. *)
Definition runtime (reg : UserRegistry) (name : list byte) : UserRuntime * UserRegistry :=
  match runtimes reg !! name with
  | Some rt => (rt, reg)
  | None =>
      (default_runtime,
       mkUserRegistry (by_uuid reg) (by_name reg) (by_password reg) (by_trojan_hash reg)
         (by_inbound reg) (<[name := default_runtime]> (runtimes reg)))
  end.

(** ** Consistency of the tables *)

(** Every record found under a key carries that key (passwords: their hash
    leads to the same record), and is listed under its inbound. *)
Definition listed (reg : UserRegistry) (r : UserRecord) : Prop :=
  exists l, by_inbound reg !! ur_inbound_tag r = Some l /\ r ∈ l.

Record registry_wf (reg : UserRegistry) : Prop := {
  wf_uuid : forall u r, by_uuid reg !! u = Some r -> ur_uuid r = u /\ listed reg r;
  wf_name : forall n r, by_name reg !! n = Some r -> ur_name r = n /\ listed reg r;
  wf_pass : forall p r, by_password reg !! p = Some r -> ur_uuid r = uuid_from_password p /\
    listed reg r /\ is_Some (by_trojan_hash reg !! trojan_password_hash p);
  wf_hash : forall h r, by_trojan_hash reg !! h = Some r -> exists p,
    h = trojan_password_hash p /\ ur_uuid r = uuid_from_password p /\ listed reg r /\
    is_Some (by_password reg !! p);
  wf_inbound : forall t l, by_inbound reg !! t = Some l -> l <> [] /\
    Forall (fun r => ur_inbound_tag r = t /\ is_Some (by_uuid reg !! ur_uuid r) /\
      is_Some (by_name reg !! ur_name r)) l;
}.

Lemma listed_register reg r r' p : listed reg r' -> listed (register reg r p) r'.
Proof.
  intros (l & Hl & Hi). unfold listed, register. cbn [by_inbound].
  destruct (decide (ur_inbound_tag r = ur_inbound_tag r')) as [E|E].
  - rewrite E, lookup_insert_eq, Hl. eexists. split; [done|]. apply elem_of_app. by left.
  - rewrite lookup_insert_ne by done. by exists l.
Qed.

Lemma listed_register_self reg r p : listed (register reg r p) r.
Proof.
  unfold listed, register. cbn [by_inbound]. rewrite lookup_insert_eq. eexists. split; [done|].
  apply elem_of_app. right. by left.
Qed.

Lemma insert_is_Some {A} (m : gmap (list byte) A) k k' x : is_Some (m !! k') -> is_Some (<[k := x]> m !! k').
Proof. intros Hs. destruct (decide (k = k')) as [->|]; [by rewrite lookup_insert_eq|by rewrite lookup_insert_ne]. Qed.

Lemma register_wf reg r p : registry_wf reg ->
  (forall pass, p = Some pass -> ur_uuid r = uuid_from_password pass) ->
  registry_wf (register reg r p).
Proof.
  intros Hwf Hp. split.
  - intros u r' Hr. cbn in Hr. apply lookup_insert_Some in Hr as [[<- <-]|[_ Hr]].
    + split; [done|apply listed_register_self].
    + apply (wf_uuid reg Hwf) in Hr as [? ?]. split; [done|by apply listed_register].
  - intros n r' Hr. cbn in Hr. apply lookup_insert_Some in Hr as [[<- <-]|[_ Hr]].
    + split; [done|apply listed_register_self].
    + apply (wf_name reg Hwf) in Hr as [? ?]. split; [done|by apply listed_register].
  - intros q r' Hr. cbn [register by_password by_trojan_hash] in *. destruct p as [pass|].
    + apply lookup_insert_Some in Hr as [[<- <-]|[_ Hr]].
      * split_and!; [by apply Hp|apply listed_register_self|]. rewrite lookup_insert_eq. done.
      * apply (wf_pass reg Hwf) in Hr as (? & ? & ?).
        split_and!; [done|by apply listed_register|by apply insert_is_Some].
    + apply (wf_pass reg Hwf) in Hr as (? & ? & ?). split_and!; [done|by apply listed_register|done].
  - intros h r' Hr. cbn [register by_password by_trojan_hash] in *. destruct p as [pass|].
    + apply lookup_insert_Some in Hr as [[<- <-]|[_ Hr]].
      * exists pass. split_and!; [done|by apply Hp|apply listed_register_self|].
        by rewrite lookup_insert_eq.
      * apply (wf_hash reg Hwf) in Hr as (q & ? & ? & ? & ?). exists q.
        split_and!; [done|done|by apply listed_register|by apply insert_is_Some].
    + apply (wf_hash reg Hwf) in Hr as (q & ? & ? & ? & ?). exists q.
      split_and!; [done|done|by apply listed_register|done].
  - intros t l Hl. cbn [register by_uuid by_name by_inbound] in *.
    assert (Hold : forall l0, Forall (fun r0 => ur_inbound_tag r0 = t /\
        is_Some (by_uuid reg !! ur_uuid r0) /\ is_Some (by_name reg !! ur_name r0)) l0 ->
      Forall (fun r0 => ur_inbound_tag r0 = t /\ is_Some (<[ur_uuid r := r]> (by_uuid reg) !! ur_uuid r0)
        /\ is_Some (<[ur_name r := r]> (by_name reg) !! ur_name r0)) l0).
    { intros l0 Hf. eapply Forall_impl; [exact Hf|].
      intros r0 (? & ? & ?). split_and!; [done|by apply insert_is_Some..]. }
    apply lookup_insert_Some in Hl as [[<- <-]|[_ Hl]].
    + split; [by destruct (default [] _)|]. apply Forall_app. split.
      * apply Hold. destruct (by_inbound reg !! ur_inbound_tag r) as [l0|] eqn:E; [|done].
        by apply (wf_inbound reg Hwf) in E as [_ E].
      * constructor; [|done]. split_and!; [done|by rewrite lookup_insert_eq..].
    + apply (wf_inbound reg Hwf) in Hl as [? ?]. split; [done|by apply Hold].
Qed.

Lemma new_registry_wf rts : registry_wf (mkUserRegistry ∅ ∅ ∅ ∅ ∅ rts).
Proof. split; intros k r Hr; cbn in Hr; by rewrite lookup_empty in Hr. Qed.

(** ** The registry as a list of registrations *)

Abbreviation entry := (UserRecord * option (list byte))%type.

Definition uuid_entry (tag : list byte) (user : Value) : option entry :=
  uuid_str ← get user "uuid" ≫= as_str;
  uuid ← uuid_parse uuid_str;
  Some (mkUserRecord uuid (user_display_name user uuid) tag (parse_user_limits user), None).
Definition pass_entry (tag : list byte) (user : Value) (pass : list byte) : entry :=
  (mkUserRecord (uuid_from_password pass) (user_display_name user uuid_nil) tag
     (parse_user_limits user), Some pass).
Definition password_entry (tag : list byte) (user : Value) : option entry :=
  pass_entry tag user <$> (or_else (get user "password") (get user "pass") ≫= as_str).
Definition uuid_entries (raw : Value) (tag : list byte) : list entry :=
  match get raw "users" ≫= as_array with
  | Some arr => omap (uuid_entry tag) arr
  | None => option_list (uuid_entry tag raw)
  end.
Definition own_entry (raw : Value) (tag : list byte) : list entry :=
  option_list (pass_entry tag raw <$> (get raw "password" ≫= as_str)).
Definition password_entries (raw : Value) (tag : list byte) : list entry :=
  match get raw "users" ≫= as_array with
  | Some arr => omap (password_entry tag) arr
  | None => own_entry raw tag
  end.

(** What an inbound registers, by kind. *)
Definition inbound_entries (kind : list byte) (raw : Value) (tag : list byte) : list entry :=
  if kind_in kind ["vless"; "vmess"; "tuic"]%string then uuid_entries raw tag
  else if kind_in kind ["trojan"; "anytls"; "hysteria2"; "rsq"; "rst"; "shadowtls"]%string
  then password_entries raw tag
  else if kind_in kind ["shadowsocks"]%string then own_entry raw tag ++ password_entries raw tag
  else match get raw "reality" with Some _ => uuid_entries raw tag | None => [] end.

Definition config_entries (inbounds : list InboundCfg) : list entry :=
  concat (imap (fun i ib => inbound_entries (ib_kind ib) (ib_raw ib) (inbound_tag ib (Z.of_nat i)))
    inbounds).

Definition register_all (reg : UserRegistry) (l : list entry) : UserRegistry :=
  foldl (fun reg e => register reg e.1 e.2) reg l.

Lemma register_all_app reg l k : register_all reg (l ++ k) = register_all (register_all reg l) k.
Proof. apply foldl_app. Qed.

Lemma uuid_user_entry tag reg user :
  ingest_uuid_user tag reg user = register_all reg (option_list (uuid_entry tag user)).
Proof.
  unfold ingest_uuid_user, uuid_entry. destruct (get user "uuid" ≫= as_str) as [s'|]; [|done].
  cbn [mbind option_bind]. by destruct (uuid_parse s').
Qed.

Lemma password_user_entry tag reg user :
  ingest_password_user tag reg user = register_all reg (option_list (password_entry tag user)).
Proof.
  unfold ingest_password_user, password_entry.
  by destruct (or_else (get user "password") (get user "pass") ≫= as_str).
Qed.

Lemma fold_entries {B} (f : UserRegistry -> B -> UserRegistry) (g : B -> option entry) :
  (forall reg b, f reg b = register_all reg (option_list (g b))) ->
  forall l reg, foldl f reg l = register_all reg (omap g l).
Proof.
  intros Hf. induction l as [|b l IH]; intros reg; [done|]. cbn [foldl omap list_omap].
  rewrite Hf, IH. by destruct (g b).
Qed.

Lemma ingest_uuid_entries reg raw tag :
  ingest_uuid_users reg raw tag = register_all reg (uuid_entries raw tag).
Proof.
  unfold ingest_uuid_users, uuid_entries. destruct (get raw "users" ≫= as_array).
  - apply fold_entries. intros. apply uuid_user_entry.
  - apply uuid_user_entry.
Qed.

Lemma ingest_password_entries reg raw tag :
  ingest_password_users reg raw tag = register_all reg (password_entries raw tag).
Proof.
  unfold ingest_password_users, password_entries, own_entry.
  destruct (get raw "users" ≫= as_array).
  - apply fold_entries. intros. apply password_user_entry.
  - by destruct (get raw "password" ≫= as_str).
Qed.

Lemma ingest_inbound_entries reg kind raw tag :
  ingest_inbound reg kind raw tag = register_all reg (inbound_entries kind raw tag).
Proof.
  unfold ingest_inbound, inbound_entries.
  destruct (kind_in kind _); [apply ingest_uuid_entries|].
  destruct (kind_in kind _); [apply ingest_password_entries|].
  destruct (kind_in kind _).
  - unfold ingest_shadowsocks_users. cbv zeta.
    rewrite ingest_password_entries, register_all_app. f_equal. unfold own_entry.
    by destruct (get raw "password" ≫= as_str).
  - destruct (get raw "reality"); [apply ingest_uuid_entries|done].
Qed.

Lemma ingest_all_entries reg inbounds :
  ingest_all reg inbounds = register_all reg (config_entries inbounds).
Proof.
  unfold ingest_all, config_entries.
  assert (Hgen : forall n reg, foldl (fun reg '(i, ib) =>
      ingest_inbound reg (ib_kind ib) (ib_raw ib) (inbound_tag ib (Z.of_nat i)))
    reg (zip (seq n (length inbounds)) inbounds)
    = register_all reg (concat (imap (fun i ib =>
        inbound_entries (ib_kind ib) (ib_raw ib) (inbound_tag ib (Z.of_nat (n + i)))) inbounds))).
  { induction inbounds as [|ib inbounds IH]; intros n reg'; [done|].
    cbn [length seq zip zip_with foldl]. rewrite imap_cons. cbn [concat].
    rewrite register_all_app, <-ingest_inbound_entries, Nat.add_0_r.
    specialize (IH (S n) (ingest_inbound reg' (ib_kind ib) (ib_raw ib) (inbound_tag ib (Z.of_nat n)))).
    etransitivity; [exact IH|]. f_equal. f_equal. apply imap_ext. intros i x _. simpl.
    by rewrite Nat.add_succ_r. }
  apply (Hgen 0%nat).
Qed.

Lemma Forall_option_list {A} (P : A -> Prop) (o : option A) :
  Forall P (option_list o) <-> forall a, o = Some a -> P a.
Proof.
  destruct o as [a|]; cbn.
  - rewrite Forall_cons, Forall_nil. split; [intros [? _] b [= <-]; done|]. intros Ho.
    split; [by apply Ho|done].
  - rewrite Forall_nil. by split.
Qed.

(** A registration with a password carries the identifier derived from it. *)
Definition entry_ok (e : entry) : Prop :=
  forall pass, e.2 = Some pass -> ur_uuid e.1 = uuid_from_password pass.

Lemma Forall_omap {A B} (P : B -> Prop) (f : A -> option B) l :
  (forall a b, f a = Some b -> P b) -> Forall P (omap f l).
Proof.
  intros Hf. induction l as [|a l IH]; [done|]. cbn [omap list_omap].
  destruct (f a) eqn:E; [constructor; [by eapply Hf|done]|done].
Qed.

Lemma uuid_entry_ok tag user e : uuid_entry tag user = Some e -> entry_ok e.
Proof.
  unfold uuid_entry, entry_ok. destruct (get user "uuid" ≫= as_str) as [s'|]; [|done].
  cbn [mbind option_bind]. destruct (uuid_parse s'); [|done]. cbn [mbind option_bind].
  intros [= <-] pass Hp. done.
Qed.

Lemma pass_entry_ok tag user pass : entry_ok (pass_entry tag user pass).
Proof. intros p Hp. simpl in *. by simplify_eq. Qed.

Lemma inbound_entries_ok kind raw tag : Forall entry_ok (inbound_entries kind raw tag).
Proof.
  assert (Hu : Forall entry_ok (uuid_entries raw tag)).
  { unfold uuid_entries. case_match; [apply Forall_omap; apply uuid_entry_ok|].
    apply Forall_option_list. apply uuid_entry_ok. }
  assert (Ho : Forall entry_ok (own_entry raw tag)).
  { apply Forall_option_list. intros e (p & _ & ->)%fmap_Some. apply pass_entry_ok. }
  assert (Hp : Forall entry_ok (password_entries raw tag)).
  { unfold password_entries. case_match; [|done]. apply Forall_omap.
    intros a e (p & _ & ->)%fmap_Some. apply pass_entry_ok. }
  unfold inbound_entries. repeat (case_match; [|]); (done || apply Forall_app; done).
Qed.

Lemma config_entries_ok inbounds : Forall entry_ok (config_entries inbounds).
Proof.
  apply Forall_concat. apply Forall_lookup. intros i l Hl.
  rewrite list_lookup_imap in Hl. apply fmap_Some in Hl as (ib & _ & ->). apply inbound_entries_ok.
Qed.

Lemma register_all_wf l : Forall entry_ok l -> forall reg, registry_wf reg ->
  registry_wf (register_all reg l).
Proof.
  induction 1 as [|e l He Hl IH]; intros reg Hwf; [done|]. simpl. apply IH.
  by apply register_wf.
Qed.

Lemma register_all_runtimes l reg : runtimes (register_all reg l) = runtimes reg.
Proof. revert reg. induction l as [|e l IH]; intros reg; [done|]. simpl. by rewrite IH. Qed.

(** The last registration under a key wins. *)
Lemma register_all_uuid l u : forall reg, by_uuid (register_all reg l) !! u
  = or_else (last (List.filter (fun r => bool_decide (ur_uuid r = u)) (l.*1))) (by_uuid reg !! u).
Proof.
  induction l as [|e l IH] using rev_ind; intros reg; [done|].
  rewrite register_all_app, fmap_app, List.filter_app, last_app. simpl. case_bool_decide as E.
  - subst u. by rewrite lookup_insert_eq.
  - rewrite lookup_insert_ne by done. simpl. apply IH.
Qed.

Lemma register_all_password l p : forall reg, by_password (register_all reg l) !! p
  = or_else (last (List.filter (fun e => bool_decide (e.2 = Some p)) l).*1) (by_password reg !! p).
Proof.
  induction l as [|e l IH] using rev_ind; intros reg; [done|].
  rewrite register_all_app, List.filter_app, fmap_app, last_app. simpl. case_bool_decide as E.
  - simpl. rewrite E. by rewrite lookup_insert_eq.
  - simpl. destruct (e.2) as [q|].
    + rewrite lookup_insert_ne by congruence. apply IH.
    + apply IH.
Qed.

(** Records of an inbound are kept in order. *)
Lemma register_all_inbound l t : forall reg, default [] (by_inbound (register_all reg l) !! t)
  = default [] (by_inbound reg !! t)
    ++ List.filter (fun r => bool_decide (ur_inbound_tag r = t)) (l.*1).
Proof.
  induction l as [|e l IH] using rev_ind; intros reg; [by rewrite app_nil_r|].
  rewrite register_all_app, fmap_app, List.filter_app. simpl. case_bool_decide as E.
  - subst t. rewrite lookup_insert_eq. cbn [default from_option id].
    by rewrite IH, <-app_assoc.
  - rewrite lookup_insert_ne by done. rewrite IH. simpl. by rewrite app_nil_r.
Qed.

(** The user tables built from a configuration.  The registry is consistent
    (every record is stored under its own keys, the hash table and the password
    table cover the same passwords, and each record is listed under its
    inbound), and lookups return the last user configured with a password or an
    identifier, [first_for_inbound] the first user of an inbound. *)
Theorem registry_lookups inbounds :
  let reg := from_options inbounds in
  let entries := config_entries inbounds in
  registry_wf reg /\
  (forall p, lookup_password reg p = last (List.filter (fun e => bool_decide (e.2 = Some p)) entries).*1) /\
  (forall u, lookup_uuid reg u = last (List.filter (fun r => bool_decide (ur_uuid r = u)) entries.*1)) /\
  (forall t, first_for_inbound reg t
     = head (List.filter (fun r => bool_decide (ur_inbound_tag r = t)) entries.*1)).
Proof.
  cbv zeta. unfold from_options. rewrite ingest_all_entries. split_and!.
  - apply register_all_wf; [apply config_entries_ok|apply new_registry_wf].
  - intros p. unfold lookup_password. rewrite register_all_password. cbn [by_password new_registry].
    rewrite lookup_empty. by destruct (last _).
  - intros u. unfold lookup_uuid. rewrite register_all_uuid. cbn [by_uuid new_registry].
    rewrite lookup_empty. by destruct (last _).
  - intros t. unfold first_for_inbound.
    pose proof (register_all_inbound (config_entries inbounds) t new_registry) as Hi.
    cbn [by_inbound new_registry] in Hi. rewrite lookup_empty in Hi. cbn [default from_option id app] in Hi.
    rewrite <-Hi. by destruct (by_inbound _ !! t).
Qed.

(** C40.  Reloading.  After [reload_from_options] every lookup table is what a
    fresh start with the new configuration would build, and no run-time counter
    has changed: users keep their traffic and connection counts by name. *)
Theorem reload_equals_restart reg inbounds :
  let reg' := reload_from_options reg inbounds in
  let fresh := from_options inbounds in
  by_uuid reg' = by_uuid fresh /\ by_name reg' = by_name fresh /\
  by_password reg' = by_password fresh /\ by_trojan_hash reg' = by_trojan_hash fresh /\
  by_inbound reg' = by_inbound fresh /\ runtimes reg' = runtimes reg.
Proof.
  cbv zeta. unfold reload_from_options, from_options. rewrite !ingest_all_entries.
  generalize (config_entries inbounds) as l. intros l.
  assert (Hgen : forall r1 r2, by_uuid r1 = by_uuid r2 -> by_name r1 = by_name r2 ->
    by_password r1 = by_password r2 -> by_trojan_hash r1 = by_trojan_hash r2 ->
    by_inbound r1 = by_inbound r2 ->
    let r1' := register_all r1 l in let r2' := register_all r2 l in
    by_uuid r1' = by_uuid r2' /\ by_name r1' = by_name r2' /\
    by_password r1' = by_password r2' /\ by_trojan_hash r1' = by_trojan_hash r2' /\
    by_inbound r1' = by_inbound r2').
  { induction l as [|e l IH]; intros r1 r2 H1 H2 H3 H4 H5; [done|].
    apply IH; cbn [register by_uuid by_name by_password by_trojan_hash by_inbound];
      rewrite ?H1, ?H2, ?H3, ?H4, ?H5; done. }
  destruct (Hgen (mkUserRegistry ∅ ∅ ∅ ∅ ∅ (runtimes reg)) new_registry) as (? & ? & ? & ? & ?);
    try done.
  split_and!; try done. by rewrite register_all_runtimes.
Qed.
End Users.
