(* ===== verification/Connections.v ===== *)
(** * Connections and traffic accounting

    [rsb-core/src/connection_manager.rs]: connection tracking, traffic counters
    by inbound, outbound and user, session admission with its guards, and the
    statistics queries.  Counter cells are shared but never replaced, so they
    are the values stored under their names; a hash map is listed in the order
    of [map_to_list].  [u64] and [usize] counters wrap.  [acquire_user] reads and
    then increments a counter: the two halves are separate definitions, and the
    interleavings of several callers are a step relation. *)
From stdpp Require Import base tactics gmap list strings.
From Stdlib Require Import ZArith Lia.
From Stdlib Require Import Strings.Byte.
From S2P Require Import Prelude Json Text Ip Users.

Local Open Scope Z_scope.

Record TrafficStats := mkTrafficStats {
  uplink : Z;
  downlink : Z;
}.
Definition zero_stats : TrafficStats := mkTrafficStats 0 0.
Definition add_uplink (st : TrafficStats) (n : Z) : TrafficStats :=
  mkTrafficStats (u64 (uplink st + n)) (downlink st).
Definition add_downlink (st : TrafficStats) (n : Z) : TrafficStats :=
  mkTrafficStats (uplink st) (u64 (downlink st + n)).

Record ConnectionInfo := mkConnectionInfo {
  ci_id : Z;
  ci_inbound_tag : list byte;
  ci_outbound_tag : list byte;
  ci_network : list byte;
  ci_source : option SocketAddr;
  ci_destination : option SocketAddr;
  ci_domain : option (list byte);
  ci_user : option (list byte);
  ci_started_at : Z;
}.

Abbreviation StatsMap := (gmap (list byte) TrafficStats).

Record ConnectionManager := mkConnectionManager {
  next_id : Z;
  active : gmap Z ConnectionInfo;
  total_conns : Z;
  global : TrafficStats;
  by_outbound_stats : StatsMap;
  by_inbound_stats : StatsMap;
  by_user_stats : StatsMap;
  users : UserRegistry;
  limiters : gmap (list byte) Z;
}.

Definition with_registry (reg : UserRegistry) : ConnectionManager :=
  mkConnectionManager 1 ∅ 0 zero_stats ∅ ∅ ∅ reg ∅.

(** [map.entry(k).or_default()], then an update of the cell. *)
Definition stats_of (m : StatsMap) (k : list byte) : TrafficStats := default zero_stats (m !! k).
Definition update_stats (f : TrafficStats -> TrafficStats) (k : list byte) (m : StatsMap)
  : StatsMap := <[k := f (stats_of m k)]> m.

Definition set_users (cm : ConnectionManager) (reg : UserRegistry) : ConnectionManager :=
  mkConnectionManager (next_id cm) (active cm) (total_conns cm) (global cm)
    (by_outbound_stats cm) (by_inbound_stats cm) (by_user_stats cm) reg (limiters cm).

(** The run-time cell of a user after [f]; created when absent. *)
Definition update_runtime (f : UserRuntime -> UserRuntime) (name : list byte)
    (reg : UserRegistry) : UserRegistry :=
  let '(rt, reg) := runtime reg name in
  mkUserRegistry (by_uuid reg) (by_name reg) (by_password reg) (by_trojan_hash reg)
    (by_inbound reg) (<[name := f rt]> (runtimes reg)).

Definition user_limiter (cm : ConnectionManager) (name : list byte) (speed : option Z)
  : option Z * ConnectionManager :=
  match speed with
  | Some bps =>
      if 0 <? bps then
        let lim := default bps (limiters cm !! name) in
        (Some lim,
         mkConnectionManager (next_id cm) (active cm) (total_conns cm) (global cm)
           (by_outbound_stats cm) (by_inbound_stats cm) (by_user_stats cm) (users cm)
           (<[name := lim]> (limiters cm)))
      else (None, cm)
  | None => (None, cm)
  end.

(** ** Admission *)

(** The tests of [acquire_user], which also create the user's cell. *)
Definition acquire_check (cm : ConnectionManager) (name : list byte) (limits : UserLimits)
  : result unit * ConnectionManager :=
  let '(rt, reg) := runtime (users cm) name in
  let cm := set_users cm reg in
  let r :=
    _ ← match max_connections limits with
        | Some max => if max <=? rt_active rt then Err "connection limit reached" else Ok tt
        | None => Ok tt
        end;
    match max_traffic_bytes limits with
    | Some max_bytes => if max_bytes <=? total rt then Err "traffic quota exceeded" else Ok tt
    | None => Ok tt
    end in
  (r, cm).

Definition bump_active (d : Z) (rt : UserRuntime) : UserRuntime :=
  mkUserRuntime (rt_uplink rt) (rt_downlink rt) (wrap 64 (rt_active rt + d)).

(** [runtime.active.fetch_add(1)], and the guard's [drop]. *)
Definition acquire_commit (cm : ConnectionManager) (name : list byte) : ConnectionManager :=
  set_users cm (update_runtime (bump_active 1) name (users cm)).
Definition drop_guard (cm : ConnectionManager) (guard : option (list byte)) : ConnectionManager :=
  match guard with
  | Some name => set_users cm (update_runtime (bump_active (-1)) name (users cm))
  | None => cm
  end.

(** [acquire_user]: the guard is the name of the cell it will release. *)
Definition acquire_user (cm : ConnectionManager) (name : list byte) (limits : UserLimits)
  : result (option (list byte)) * ConnectionManager :=
  match acquire_check cm name limits with
  | (Ok _, cm) => (Ok (Some name), acquire_commit cm name)
  | (Err e, cm) => (Err e, cm)
  | (Panic e, cm) => (Panic e, cm)
  end.

Definition user_active_count (cm : ConnectionManager) (name : list byte)
  : Z * ConnectionManager :=
  let '(rt, reg) := runtime (users cm) name in
  (rt_active rt, set_users cm reg).

Definition user_quota_ok (cm : ConnectionManager) (name : list byte) (limits : UserLimits)
  : bool * ConnectionManager :=
  match max_traffic_bytes limits with
  | Some max =>
      let '(rt, reg) := runtime (users cm) name in
      (total rt <? max, set_users cm reg)
  | None => (true, cm)
  end.

(** ** Traffic *)

Definition add_traffic (up down : Z) (st : TrafficStats) : TrafficStats :=
  add_downlink (add_uplink st up) down.

Definition record_traffic (cm : ConnectionManager) (inbound_tag outbound_tag : list byte)
    (up down : Z) (user : option (list byte)) : ConnectionManager :=
  mkConnectionManager (next_id cm) (active cm) (total_conns cm)
    (add_downlink (add_uplink (global cm) up) down)
    (update_stats (fun st => add_downlink st down) outbound_tag
       (update_stats (fun st => add_uplink st up) outbound_tag (by_outbound_stats cm)))
    (update_stats (fun st => add_downlink st down) inbound_tag
       (update_stats (fun st => add_uplink st up) inbound_tag (by_inbound_stats cm)))
    (match user with
     | Some name => update_stats (fun st => add_downlink st down) name
         (update_stats (fun st => add_uplink st up) name (by_user_stats cm))
     | None => by_user_stats cm
     end)
    (match user with
     | Some name => update_runtime (fun rt => mkUserRuntime (u64 (rt_uplink rt + up))
         (u64 (rt_downlink rt + down)) (rt_active rt)) name (users cm)
     | None => users cm
     end)
    (limiters cm).

(** ** Tracking *)

Definition track (cm : ConnectionManager) (now : Z)
    (inbound_tag outbound_tag network : list byte) (source destination : option SocketAddr)
    (domain user : option (list byte)) : Z * ConnectionManager :=
  let id := next_id cm in
  (id, mkConnectionManager (u64 (id + 1))
    (<[id := mkConnectionInfo id inbound_tag outbound_tag network source destination domain user now]>
       (active cm))
    (u64 (total_conns cm + 1)) (global cm) (by_outbound_stats cm) (by_inbound_stats cm)
    (by_user_stats cm) (users cm) (limiters cm)).

Definition connection_info (cm : ConnectionManager) (id : Z)
  : option (list byte * list byte * option (list byte)) :=
  (fun c => (ci_inbound_tag c, ci_outbound_tag c, ci_user c)) <$> active cm !! id.

Definition untrack (cm : ConnectionManager) (id : Z) : ConnectionManager :=
  mkConnectionManager (next_id cm) (delete id (active cm)) (total_conns cm) (global cm)
    (by_outbound_stats cm) (by_inbound_stats cm) (by_user_stats cm) (users cm) (limiters cm).

Definition active_count (cm : ConnectionManager) : Z := Z.of_nat (size (active cm)).
Definition total_count (cm : ConnectionManager) : Z := total_conns cm.

Definition reload_users `{UserCrypto} (cm : ConnectionManager) (inbounds : list InboundCfg)
  : ConnectionManager := set_users cm (reload_from_options (users cm) inbounds).

(** ** Statistics *)

Definition stat_entry (kind : string) (e : list byte * TrafficStats) : list (list byte * Z) :=
  let '(tag, st) := e in
  [(str kind ++ tag ++ str ">>>traffic>>>uplink", uplink st);
   (str kind ++ tag ++ str ">>>traffic>>>downlink", downlink st)].

Fixpoint active_entries (cm : ConnectionManager) (names : list (list byte))
  : list (list byte * Z) * ConnectionManager :=
  match names with
  | [] => ([], cm)
  | name :: names =>
      let '(n, cm) := user_active_count cm name in
      let '(l, cm) := active_entries cm names in
      ((if 0 <? n then [(str "user>>>" ++ name ++ str ">>>active", n)] else []) ++ l, cm)
  end.

Definition v2ray_stat_entries (cm : ConnectionManager)
  : list (list byte * Z) * ConnectionManager :=
  let '(act, cm') := active_entries cm (user_names (users cm)) in
  ([(str "global>>>uplink", uplink (global cm)); (str "global>>>downlink", downlink (global cm))]
   ++ concat (map (stat_entry "inbound>>>") (map_to_list (by_inbound_stats cm)))
   ++ concat (map (stat_entry "outbound>>>") (map_to_list (by_outbound_stats cm)))
   ++ concat (map (stat_entry "user>>>") (map_to_list (by_user_stats cm)))
   ++ act, cm').

Definition clear_up (st : TrafficStats) : TrafficStats := mkTrafficStats 0 (downlink st).
Definition clear_down (st : TrafficStats) : TrafficStats := mkTrafficStats (uplink st) 0.
Definition clear_side (name : list byte) (st : TrafficStats) : TrafficStats :=
  if ends_with name (str "uplink") then clear_up st else clear_down st.
Definition clear_runtime (name : list byte) (rt : UserRuntime) : UserRuntime :=
  if ends_with name (str "uplink") then mkUserRuntime 0 (rt_downlink rt) (rt_active rt)
  else mkUserRuntime (rt_uplink rt) 0 (rt_active rt).

(** The tag of [prefix ++ tag ++ ">>>traffic>>>..."]. *)
Definition stat_tag (name : list byte) (prefix : string) : option (option (list byte)) :=
  rest ← strip_prefix name (str prefix);
  Some (fst <$> split_once_str (str ">>>traffic>>>") rest).

Definition set_global (cm : ConnectionManager) (g : TrafficStats) : ConnectionManager :=
  mkConnectionManager (next_id cm) (active cm) (total_conns cm) g (by_outbound_stats cm)
    (by_inbound_stats cm) (by_user_stats cm) (users cm) (limiters cm).

Definition reset_stat_name (cm : ConnectionManager) (name : list byte) : ConnectionManager :=
  if bool_decide (name = str "global>>>uplink") then set_global cm (clear_up (global cm))
  else if bool_decide (name = str "global>>>downlink") then set_global cm (clear_down (global cm))
  else match stat_tag name "inbound>>>" with
  | Some (Some tag) =>
      mkConnectionManager (next_id cm) (active cm) (total_conns cm) (global cm)
        (by_outbound_stats cm) (update_stats (clear_side name) tag (by_inbound_stats cm))
        (by_user_stats cm) (users cm) (limiters cm)
  | Some None => cm
  | None =>
    match stat_tag name "outbound>>>" with
    | Some (Some tag) =>
        mkConnectionManager (next_id cm) (active cm) (total_conns cm) (global cm)
          (update_stats (clear_side name) tag (by_outbound_stats cm)) (by_inbound_stats cm)
          (by_user_stats cm) (users cm) (limiters cm)
    | Some None => cm
    | None =>
      match stat_tag name "user>>>" with
      | Some (Some user) =>
          mkConnectionManager (next_id cm) (active cm) (total_conns cm) (global cm)
            (by_outbound_stats cm) (by_inbound_stats cm)
            (update_stats (clear_side name) user (by_user_stats cm))
            (update_runtime (clear_runtime name) user (users cm)) (limiters cm)
      | _ => cm
      end
    end
  end.

Definition query_v2ray_stats (cm : ConnectionManager) (pattern : list byte) (reset : bool)
  : list (list byte * Z) * ConnectionManager :=
  let '(entries, cm) := v2ray_stat_entries cm in
  let matched := match pattern with
    | [] => entries
    | _ => List.filter (fun e => contains e.1 pattern) entries
    end in
  (matched, if reset then foldl (fun cm e => reset_stat_name cm e.1) cm matched else cm).

(** ** Reading the cells *)

Definition runtime_of (cm : ConnectionManager) (name : list byte) : UserRuntime :=
  default default_runtime (runtimes (users cm) !! name).
Definition active_of (cm : ConnectionManager) (name : list byte) : Z := rt_active (runtime_of cm name).

Lemma runtime_value reg name :
  (runtime reg name).1 = default default_runtime (runtimes reg !! name).
Proof. unfold runtime. by destruct (runtimes reg !! name). Qed.

(** Touching a cell changes no cell's value. *)
Lemma runtime_keeps reg name k :
  default default_runtime (runtimes (runtime reg name).2 !! k)
  = default default_runtime (runtimes reg !! k).
Proof.
  unfold runtime. destruct (runtimes reg !! name) eqn:E; [done|]. cbn [snd runtimes].
  destruct (decide (name = k)) as [->|]; [by rewrite lookup_insert_eq, E|by rewrite lookup_insert_ne].
Qed.

Lemma runtime_of_update cm f name k :
  runtime_of (set_users cm (update_runtime f name (users cm))) k
  = if decide (k = name) then f (runtime_of cm name) else runtime_of cm k.
Proof.
  unfold runtime_of, update_runtime. cbn [users set_users].
  pose proof (runtime_value (users cm) name) as Hv. pose proof (runtime_keeps (users cm) name k) as Hk.
  destruct (runtime (users cm) name) as [rt reg]. cbn [fst snd] in *. cbn [runtimes].
  case_decide as E; [subst k; by rewrite lookup_insert_eq, Hv|by rewrite lookup_insert_ne].
Qed.

Lemma acquire_check_keeps cm name limits k :
  runtime_of (acquire_check cm name limits).2 k = runtime_of cm k.
Proof.
  unfold acquire_check. pose proof (runtime_keeps (users cm) name k) as Hk.
  by destruct (runtime (users cm) name) as [rt reg].
Qed.

Lemma acquire_check_result cm name limits :
  (acquire_check cm name limits).1
  = (_ ← match max_connections limits with
        | Some max => if max <=? active_of cm name then Err "connection limit reached" else Ok tt
        | None => Ok tt
        end;
    match max_traffic_bytes limits with
    | Some max_bytes => if max_bytes <=? total (runtime_of cm name)
        then Err "traffic quota exceeded" else Ok tt
    | None => Ok tt
    end).
Proof.
  unfold acquire_check, active_of, runtime_of. rewrite <-!runtime_value.
  by destruct (runtime (users cm) name) as [rt reg].
Qed.

(** ** Concurrent admission *)

(** The other calls that may run between the two halves of [acquire_user]. *)
Inductive other_op :=
| OTraffic (inb outb : list byte) (up down : Z) (user : option (list byte))
| OTrack (now : Z) (inb outb net : list byte) (src dst : option SocketAddr)
    (dom user : option (list byte))
| OUntrack (id : Z)
| OQuota (user : list byte) (limits : UserLimits)
| OLimiter (user : list byte) (speed : option Z)
| OQuery (pattern : list byte) (reset : bool).

Definition other_step (cm : ConnectionManager) (o : other_op) : ConnectionManager :=
  match o with
  | OTraffic inb outb up down user => record_traffic cm inb outb up down user
  | OTrack now inb outb net src dst dom user => (track cm now inb outb net src dst dom user).2
  | OUntrack id => untrack cm id
  | OQuota user limits => (user_quota_ok cm user limits).2
  | OLimiter user speed => (user_limiter cm user speed).2
  | OQuery pattern reset => (query_v2ray_stats cm pattern reset).2
  end.

Lemma record_traffic_active cm inb outb up down user k :
  active_of (record_traffic cm inb outb up down user) k = active_of cm k.
Proof.
  destruct user as [name|]; [|done]. unfold active_of.
  pose proof (runtime_of_update cm (fun rt => mkUserRuntime (u64 (rt_uplink rt + up))
         (u64 (rt_downlink rt + down)) (rt_active rt)) name k) as H.
  unfold runtime_of at 1 in H. cbn [users set_users] in H.
  unfold runtime_of at 1. cbn [users record_traffic]. rewrite H. by case_decide; subst.
Qed.

Lemma reset_active cm name k : active_of (reset_stat_name cm name) k = active_of cm k.
Proof.
  unfold reset_stat_name. repeat case_match; try done.
  unfold active_of.
  match goal with |- context [update_runtime (clear_runtime name) ?u] =>
    pose proof (runtime_of_update cm (clear_runtime name) u k) as Hu end.
  unfold runtime_of at 1 in Hu. cbn [users set_users] in Hu.
  unfold runtime_of at 1. cbn [users]. rewrite Hu. case_decide; [subst|done].
  unfold clear_runtime. by case_match.
Qed.

Lemma active_entries_keeps names : forall cm k,
  runtime_of (active_entries cm names).2 k = runtime_of cm k.
Proof.
  induction names as [|n names IH]; intros cm k; [done|]. cbn [active_entries].
  pose proof (runtime_keeps (users cm) n k) as Hk. unfold user_active_count.
  destruct (runtime (users cm) n) as [rt reg]. cbn [snd] in Hk.
  specialize (IH (set_users cm reg) k).
  destruct (active_entries (set_users cm reg) names) as [l cm']. cbn [snd] in *. by rewrite IH.
Qed.

Lemma reset_all_active l k : forall cm,
  active_of (foldl (fun cm (e : list byte * Z) => reset_stat_name cm e.1) cm l) k = active_of cm k.
Proof.
  induction l as [|e l IH]; intros cm; [done|]. cbn [foldl]. by rewrite IH, reset_active.
Qed.

Lemma query_active cm pattern reset k :
  active_of (query_v2ray_stats cm pattern reset).2 k = active_of cm k.
Proof.
  unfold query_v2ray_stats, v2ray_stat_entries.
  pose proof (active_entries_keeps (user_names (users cm)) cm k) as Ha.
  destruct (active_entries cm (user_names (users cm))) as [act cm']. cbn [snd] in *.
  destruct reset; [rewrite reset_all_active|]; unfold active_of; by rewrite Ha.
Qed.

Lemma other_step_active cm o k : active_of (other_step cm o) k = active_of cm k.
Proof.
  destruct o; cbn [other_step].
  - apply record_traffic_active.
  - done.
  - done.
  - unfold user_quota_ok. case_match; [|done].
    pose proof (runtime_keeps (users cm) user k) as Hk.
    destruct (runtime (users cm) user) as [rt reg]. cbn [snd] in *.
    unfold active_of, runtime_of. cbn [users set_users]. by rewrite Hk.
  - unfold user_limiter. repeat case_match; done.
  - apply query_active.
Qed.

Section Admission.
Variables (name : list byte) (limits : UserLimits).

(** A task inside [acquire_user] has passed the tests, or is elsewhere. *)
Inductive pc := Idle | Passed.

(** The manager, the tasks that admit sessions of the user, and the number of
    guards they have handed out and that are still alive. *)
Record Pool := mkPool {
  p_cm : ConnectionManager;
  p_tasks : list pc;
  p_guards : nat;
}.

Inductive step : Pool -> Pool -> Prop :=
| step_check cm cm' ts g i : ts !! i = Some Idle ->
    acquire_check cm name limits = (Ok tt, cm') ->
    step (mkPool cm ts g) (mkPool cm' (<[i := Passed]> ts) g)
| step_reject cm cm' ts g i e : ts !! i = Some Idle ->
    acquire_check cm name limits = (Err e, cm') ->
    step (mkPool cm ts g) (mkPool cm' ts g)
| step_commit cm ts g i : ts !! i = Some Passed ->
    step (mkPool cm ts g) (mkPool (acquire_commit cm name) (<[i := Idle]> ts) (S g))
| step_drop cm ts g :
    step (mkPool cm ts (S g)) (mkPool (drop_guard cm (Some name)) ts g)
| step_other cm ts g o : step (mkPool cm ts g) (mkPool (other_step cm o) ts g).

Definition passed (ts : list pc) : Z :=
  Z.of_nat (length (List.filter (fun t => match t with Passed => true | Idle => false end) ts)).

Lemma passed_insert ts i a b : ts !! i = Some a ->
  passed (<[i := b]> ts)
  = passed ts - (match a with Passed => 1 | Idle => 0 end) + (match b with Passed => 1 | Idle => 0 end).
Proof.
  unfold passed. revert i. induction ts as [|t ts IH]; intros [|i] Hi; simplify_eq/=.
  - destruct a, b; simpl; lia.
  - specialize (IH i Hi). destruct t; simpl; lia.
Qed.

Lemma passed_le ts : 0 <= passed ts <= zlen ts.
Proof.
  unfold passed, zlen. induction ts as [|t ts IH]; simpl; [lia|]. destruct t; simpl; lia.
Qed.

(** Guards are counted exactly, and admissions under way are bounded. *)
Record pool_ok (max n : Z) (p : Pool) : Prop := {
  ok_active : active_of (p_cm p) name = Z.of_nat (p_guards p);
  ok_bound : Z.of_nat (p_guards p) + passed (p_tasks p) <= Z.max 0 (max - 1 + n);
  ok_tasks : zlen (p_tasks p) = n;
}.

Lemma commit_active cm : active_of (acquire_commit cm name) name = wrap 64 (active_of cm name + 1).
Proof. unfold active_of, acquire_commit. by rewrite runtime_of_update, decide_True. Qed.

Lemma drop_active cm : active_of (drop_guard cm (Some name)) name = wrap 64 (active_of cm name - 1).
Proof. unfold active_of, drop_guard. by rewrite runtime_of_update, decide_True. Qed.

Lemma check_active cm : active_of (acquire_check cm name limits).2 name = active_of cm name.
Proof. unfold active_of. by rewrite acquire_check_keeps. Qed.

Lemma check_passes cm max : max_connections limits = Some max ->
  (acquire_check cm name limits).1 = Ok tt -> active_of cm name < max.
Proof.
  rewrite acquire_check_result. intros ->. destruct (max <=? active_of cm name) eqn:E; [done|].
  bool_props. done.
Qed.

Lemma step_ok max n p p' : max_connections limits = Some max -> 0 <= max -> max + n <= 2 ^ 64 ->
  pool_ok max n p -> step p p' -> pool_ok max n p'.
Proof.
  intros Hm Hmax Hw Hok Hs.
  destruct Hs as [cm cm' ts g i Hi Hc|cm cm' ts g i e Hi Hc|cm ts g i Hi|cm ts g|cm ts g o];
    destruct Hok as [Ha Hb Ht]; cbn [p_cm p_guards p_tasks] in *;
    pose proof (passed_le ts) as Hp.
  - pose proof (check_active cm) as Hca. pose proof (check_passes cm max Hm) as Hcp.
    rewrite Hc in Hca, Hcp. cbn [fst snd] in *. specialize (Hcp eq_refl).
    split; cbn [p_cm p_guards p_tasks].
    + lia.
    + rewrite (passed_insert ts i Idle) by done.
      pose proof (passed_le (<[i := Passed]> ts)) as Hp'.
      rewrite (passed_insert ts i Idle) in Hp' by done. unfold zlen in *.
      rewrite length_insert in Hp'. lia.
    + unfold zlen in *. by rewrite length_insert.
  - pose proof (check_active cm) as Hca. rewrite Hc in Hca. cbn [snd] in *.
    split; cbn [p_cm p_guards p_tasks]; [lia|lia|done].
  - split; cbn [p_cm p_guards p_tasks].
    + rewrite commit_active, Ha. unfold wrap. rewrite Z.mod_small; [lia|].
      assert (1 <= passed ts).
      { pose proof (passed_insert ts i Passed Idle Hi) as Hpi. cbn match in Hpi.
        pose proof (passed_le (<[i := Idle]> ts)). lia. }
      unfold zlen in *. lia.
    + rewrite (passed_insert ts i Passed) by done. lia.
    + unfold zlen in *. by rewrite length_insert.
  - split; cbn [p_cm p_guards p_tasks]; [|lia|done].
    rewrite drop_active, Ha. unfold wrap. rewrite Z.mod_small; [lia|]. unfold zlen in *. lia.
  - split; cbn [p_cm p_guards p_tasks]; [|lia|done]. by rewrite other_step_active.
Qed.

Lemma steps_ok max n p p' : max_connections limits = Some max -> 0 <= max -> max + n <= 2 ^ 64 ->
  pool_ok max n p -> rtc step p p' -> pool_ok max n p'.
Proof.
  intros Hm Hmax Hw Hok Hs. induction Hs as [|p p1 p2 H1 Hs IH]; [done|].
  by apply IH, (step_ok max n p).
Qed.
End Admission.

(** C12.  Session admission under concurrency.  With [n] tasks admitting sessions
    of a user at once, and any other calls in between, the user's counter equals
    the number of live guards, and that number never exceeds
    [max_connections - 1 + n]; with admissions serialised ([n = 1]) the
    configured limit is kept. *)
Theorem admission_bounded name limits max cm n p :
  max_connections limits = Some max -> 1 <= max -> max + Z.of_nat n <= 2 ^ 64 -> (1 <= n)%nat ->
  active_of cm name = 0 ->
  rtc (step name limits) (mkPool cm (replicate n Idle) 0) p ->
  active_of (p_cm p) name = Z.of_nat (p_guards p) /\
  Z.of_nat (p_guards p) <= max - 1 + Z.of_nat n.
Proof.
  intros Hm Hmax Hw Hn Ha Hs.
  destruct (steps_ok name limits max (Z.of_nat n) (mkPool cm (replicate n Idle) 0) p
    Hm ltac:(lia) Hw) as [H1 H2 H3]; [|done|].
  - split; cbn [p_cm p_guards p_tasks]; [by rewrite Ha| |unfold zlen; by rewrite length_replicate].
    pose proof (passed_le (replicate n Idle)).
    assert (passed (replicate n Idle) = 0) as -> by (clear; unfold passed; induction n; simpl; lia).
    lia.
  - pose proof (passed_le (p_tasks p)). split; [done|lia].
Qed.

Lemma admission_bounded_witness :
  let limits := mkUserLimits (Some 1) None None in
  let cm := with_registry new_registry in
  Z.of_nat (p_guards (mkPool (acquire_user cm (str "u") limits).2 [Idle] 1)) <= 1.
Proof.
  intros limits cm.
  apply (admission_bounded (str "u") limits 1 cm 1); [done|lia|lia|lia|done|].
  eapply rtc_l; [eapply step_check with (i := 0%nat); reflexivity|].
  eapply rtc_l; [eapply step_commit with (i := 0%nat); reflexivity|].
  apply rtc_refl.
Defined.

(** ** The bound is reached *)

Section Race.
Variables (name : list byte) (limits : UserLimits) (max : Z).
Hypothesis (Hlim : max_connections limits = Some max) (Hquota : max_traffic_bytes limits = None).

Lemma check_ok cm : active_of cm name < max ->
  acquire_check cm name limits = (Ok tt, (acquire_check cm name limits).2).
Proof.
  intros Ha. rewrite (surjective_pairing (acquire_check cm name limits)) at 1. f_equal.
  rewrite acquire_check_result, Hlim, Hquota. by rewrite (proj2 (Z.leb_gt _ _)).
Qed.

(** Tasks [k..] test one after the other, all seeing the same count. *)
Lemma all_check : forall m cm done g, active_of cm name < max ->
  exists cm', rtc (step name limits) (mkPool cm (done ++ replicate m Idle) g)
                (mkPool cm' (done ++ replicate m Passed) g) /\
    active_of cm' name = active_of cm name.
Proof.
  induction m as [|m IH]; intros cm dn g Ha; [by exists cm|].
  pose proof (check_ok cm Ha) as Hc. pose proof (check_active name limits cm) as Hca.
  destruct (IH (acquire_check cm name limits).2 (dn ++ [Passed]) g) as (cm' & Hs & Ha'); [lia|].
  exists cm'. split; [|lia]. eapply rtc_l.
  - eapply step_check with (i := length dn); [|exact Hc].
    cbn [replicate]. by apply list_lookup_middle.
  - cbn [replicate]. rewrite insert_app_r_alt, Nat.sub_diag by done. cbn [insert list_insert].
    by rewrite <-!app_assoc in Hs.
Qed.

(** Then they all count themselves. *)
Lemma all_commit : forall m cm done g, active_of cm name + Z.of_nat m < 2 ^ 64 -> 0 <= active_of cm name ->
  exists cm', rtc (step name limits) (mkPool cm (done ++ replicate m Passed) g)
                (mkPool cm' (done ++ replicate m Idle) (g + m)) /\
    active_of cm' name = active_of cm name + Z.of_nat m.
Proof.
  induction m as [|m IH]; intros cm dn g Hb Ha.
  { exists cm. rewrite Nat.add_0_r. split; [done|lia]. }
  pose proof (commit_active name cm) as Hc. unfold wrap in Hc. rewrite Z.mod_small in Hc by lia.
  destruct (IH (acquire_commit cm name) (dn ++ [Idle]) (S g)) as (cm' & Hs & Ha'); [lia|lia|].
  exists cm'. split; [|lia]. eapply rtc_l.
  - eapply step_commit with (i := length dn).
    cbn [replicate]. by apply list_lookup_middle.
  - cbn [replicate]. rewrite insert_app_r_alt, Nat.sub_diag by done. cbn [insert list_insert].
    rewrite <-!app_assoc in Hs. by rewrite Nat.add_succ_r.
Qed.

(** One task admits [k] sessions, one after the other. *)
Lemma admit_some : forall k cm ts g, active_of cm name + Z.of_nat k <= max -> 0 <= active_of cm name ->
  max < 2 ^ 64 ->
  exists cm', rtc (step name limits) (mkPool cm (Idle :: ts) g) (mkPool cm' (Idle :: ts) (g + k)) /\
    active_of cm' name = active_of cm name + Z.of_nat k.
Proof.
  induction k as [|k IH]; intros cm ts g Hb Ha Hw.
  { exists cm. rewrite Nat.add_0_r. split; [done|lia]. }
  pose proof (check_active name limits cm) as Hca.
  set (cm1 := acquire_commit (acquire_check cm name limits).2 name).
  assert (Hc1 : active_of cm1 name = active_of cm name + 1).
  { unfold cm1. rewrite commit_active, Hca. unfold wrap. apply Z.mod_small. lia. }
  destruct (IH cm1 ts (S g)) as (cm2 & Hs2 & Ha2); [lia|lia|done|].
  exists cm2. split; [|lia]. rewrite Nat.add_succ_r.
  eapply rtc_l; [eapply step_check with (i := 0%nat); [done|apply check_ok; lia]|].
  eapply rtc_l; [eapply step_commit with (i := 0%nat); reflexivity|]. exact Hs2.
Qed.
End Race.

(** The limit can be overrun.  [acquire_user] tests and counts in two
    steps: for every limit and every number [n] of admitting tasks there is an
    interleaving after which [max_connections - 1 + n] sessions of the user are
    admitted and alive, so two concurrent admissions already exceed the limit. *)
Theorem admission_race name limits max cm n :
  max_connections limits = Some max -> max_traffic_bytes limits = None -> 1 <= max ->
  max + Z.of_nat n < 2 ^ 64 -> active_of cm name = 0 ->
  exists p, rtc (step name limits) (mkPool cm (replicate (S n) Idle) 0) p /\
    Z.of_nat (p_guards p) = max - 1 + Z.of_nat (S n) /\
    active_of (p_cm p) name = max - 1 + Z.of_nat (S n).
Proof.
  intros Hm Hq Hmax Hw Ha.
  destruct (admit_some name limits max Hm Hq (Z.to_nat (max - 1)) cm (replicate n Idle) 0)
    as (cm1 & Hs1 & Ha1); [lia|lia|lia|].
  destruct (all_check name limits max Hm Hq (S n) cm1 [] (0 + Z.to_nat (max - 1)))
    as (cm2 & Hs2 & Ha2); [lia|].
  destruct (all_commit name limits (S n) cm2 [] (0 + Z.to_nat (max - 1)))
    as (cm3 & Hs3 & Ha3); [lia|lia|].
  exists (mkPool cm3 ([] ++ replicate (S n) Idle) (0 + Z.to_nat (max - 1) + S n)).
  split; [|split; cbn [p_guards p_cm]].
  - etransitivity; [exact Hs1|]. etransitivity; [exact Hs2|exact Hs3].
  - lia.
  - lia.
Qed.

Lemma admission_race_witness :
  exists p, rtc (step (str "u") (mkUserLimits (Some 1) None None))
      (mkPool (with_registry new_registry) [Idle; Idle] 0) p /\
    Z.of_nat (p_guards p) = 2 /\ active_of (p_cm p) (str "u") = 2.
Proof.
  apply (admission_race (str "u") (mkUserLimits (Some 1) None None) 1 (with_registry new_registry) 1);
    (done || lia).
Defined.

(** ** Accounting *)

Record Traffic := mkTraffic {
  t_inbound : list byte;
  t_outbound : list byte;
  t_up : Z;
  t_down : Z;
  t_user : option (list byte);
}.
Definition record_all (cm : ConnectionManager) (calls : list Traffic) : ConnectionManager :=
  foldl (fun cm t => record_traffic cm (t_inbound t) (t_outbound t) (t_up t) (t_down t) (t_user t))
    cm calls.

(** Bytes of the calls a counter is charged for. *)
Definition charged (side : Traffic -> Z) (sel : Traffic -> bool) (calls : list Traffic) : Z :=
  foldr (fun t acc => (if sel t then side t else 0) + acc) 0 calls.

Lemma stats_of_update f k m k' :
  stats_of (update_stats f k m) k' = if decide (k' = k) then f (stats_of m k) else stats_of m k'.
Proof.
  unfold stats_of at 1, update_stats. case_decide as E.
  - subst k'. by rewrite lookup_insert_eq.
  - by rewrite lookup_insert_ne.
Qed.

Lemma u64_add a b : u64 (u64 a + b) = u64 (a + b).
Proof. unfold u64, wrap. by rewrite Zplus_mod_idemp_l. Qed.

Lemma charged_app side sel l k : charged side sel (l ++ k) = charged side sel l + charged side sel k.
Proof. induction l as [|t l IH]; simpl; [done|]. rewrite IH. lia. Qed.

(** Both sides of a counter after one more call. *)
Lemma charge_pair st up down (b : bool) cu cd :
  st = mkTrafficStats (u64 cu) (u64 cd) ->
  (if b then add_downlink (add_uplink st up) down else st)
  = mkTrafficStats (u64 (cu + (if b then up else 0))) (u64 (cd + (if b then down else 0))).
Proof.
  intros ->. destruct b; unfold add_downlink, add_uplink; cbn [uplink downlink].
  - by rewrite !u64_add.
  - by rewrite !Z.add_0_r.
Qed.

Lemma double_update up down k m k' :
  stats_of (update_stats (fun st => add_downlink st down) k
    (update_stats (fun st => add_uplink st up) k m)) k'
  = if bool_decide (k = k') then add_downlink (add_uplink (stats_of m k') up) down else stats_of m k'.
Proof.
  rewrite !stats_of_update. case_decide as E; case_bool_decide; try done; subst.
  by rewrite decide_True.
Qed.

(** Traffic accounting.  After any sequence of recorded transfers the
    global, per-inbound, per-outbound and per-user counters, and the run-time
    counters quotas are checked against, are exactly the bytes of the transfers
    that name them, modulo [2^64]; session counts are not touched. *)
Theorem traffic_accounting reg calls name :
  runtimes reg = ∅ ->
  let cm := record_all (with_registry reg) calls in
  let stats sel := mkTrafficStats (u64 (charged t_up sel calls)) (u64 (charged t_down sel calls)) in
  let of_user t := bool_decide (t_user t = Some name) in
  global cm = stats (fun _ => true) /\
  stats_of (by_inbound_stats cm) name = stats (fun t => bool_decide (t_inbound t = name)) /\
  stats_of (by_outbound_stats cm) name = stats (fun t => bool_decide (t_outbound t = name)) /\
  stats_of (by_user_stats cm) name = stats of_user /\
  runtime_of cm name = mkUserRuntime (u64 (charged t_up of_user calls))
    (u64 (charged t_down of_user calls)) 0.
Proof.
  intros Hrt. cbv zeta. induction calls as [|t calls IH] using rev_ind.
  { unfold runtime_of. cbn. by rewrite Hrt. }
  unfold record_all in *. rewrite !charged_app, foldl_app. cbn [foldl].
  set (cm := foldl _ _ calls) in *. destruct IH as (Hg & Hi & Ho & Hu & Hr).
  cbn [charged foldr record_traffic global by_inbound_stats by_outbound_stats by_user_stats].
  rewrite !Z.add_0_r, !double_update. split_and!.
  - by apply (charge_pair _ _ _ true).
  - by apply charge_pair.
  - by apply charge_pair.
  - destruct (t_user t) as [u|].
    + rewrite double_update.
      replace (bool_decide (Some u = Some name)) with (bool_decide (u = name))
        by (apply bool_decide_ext; naive_solver).
      by apply charge_pair.
    + rewrite bool_decide_eq_false_2 by done. rewrite !Z.add_0_r. done.
  - destruct (t_user t) as [u|].
    + pose proof (runtime_of_update cm (fun rt => mkUserRuntime (u64 (rt_uplink rt + t_up t))
         (u64 (rt_downlink rt + t_down t)) (rt_active rt)) u name) as H.
      unfold runtime_of at 1 in H. cbn [users set_users] in H.
      unfold runtime_of at 1. cbn [users record_traffic]. rewrite H. case_decide as E.
      * subst u. rewrite Hr, bool_decide_eq_true_2 by done. cbn. by rewrite !u64_add.
      * rewrite bool_decide_eq_false_2 by congruence. by rewrite !Z.add_0_r.
    + rewrite bool_decide_eq_false_2 by done. rewrite !Z.add_0_r. exact Hr.
Qed.

Lemma traffic_accounting_witness :
  let calls := [mkTraffic (str "in") (str "out") 10 20 (Some (str "u"));
                mkTraffic (str "in") (str "b") 1 2 None] in
  let cm := record_all (with_registry new_registry) calls in
  stats_of (by_inbound_stats cm) (str "in") = mkTrafficStats 11 22.
Proof.
  intros calls cm.
  destruct (traffic_accounting new_registry calls (str "in") eq_refl) as (_ & Hi & _).
  fold cm in Hi. rewrite Hi. by vm_compute.
Defined.

(** ** Queries that reset *)

(** A tag that cannot be confused with the separators of statistic names. *)
Definition plain_tag (tag : list byte) : Prop := x3e ∉ tag.

Definition stat_name (kind : string) (tag : list byte) (side : string) : list byte :=
  str kind ++ tag ++ str ">>>traffic>>>" ++ str side.

Lemma stat_entry_names kind tag st :
  stat_entry kind (tag, st)
  = [(stat_name kind tag "uplink", uplink st); (stat_name kind tag "downlink", downlink st)].
Proof. done. Qed.

Lemma plain_tag_split tag r : plain_tag tag ->
  split_once_str (str ">>>traffic>>>") (tag ++ str ">>>traffic>>>" ++ r) = Some (tag, r).
Proof.
  intros Hp. apply split_once_str_app; [done|]. intros i Hi.
  destruct (starts_with _ _) eqn:E; [|done]. apply starts_with_spec in E as [t Ht].
  destruct (lookup_lt_is_Some_2 tag i Hi) as [b Hb].
  assert (b = x3e) as ->.
  { assert (Hd : drop i (tag ++ str ">>>traffic>>>" ++ r) !! 0%nat = Some b).
    { rewrite lookup_drop, Nat.add_0_r. by apply lookup_app_l_Some. }
    rewrite Ht in Hd. cbn in Hd. congruence. }
  exfalso. apply Hp. by apply list_elem_of_lookup_2 in Hb.
Qed.

Lemma stat_tag_hit kind tag side : plain_tag tag ->
  stat_tag (stat_name kind tag side) kind = Some (Some tag).
Proof.
  intros Hp. unfold stat_tag, stat_name. rewrite strip_prefix_app. cbn [mbind option_bind].
  by rewrite plain_tag_split.
Qed.

Lemma ends_uplink pre : ends_with (pre ++ str "uplink") (str "uplink") = true.
Proof. unfold ends_with. rewrite rev_app_distr. apply starts_with_app. Qed.

Lemma ends_downlink pre : ends_with (pre ++ str "downlink") (str "uplink") = false.
Proof.
  unfold ends_with. rewrite rev_app_distr. change (str "downlink") with (str "do" ++ str "wnlink").
  rewrite rev_app_distr, <-app_assoc. reflexivity.
Qed.

Lemma stat_name_ends kind tag side : stat_name kind tag side
  = (str kind ++ tag ++ str ">>>traffic>>>") ++ str side.
Proof. unfold stat_name. by rewrite <-!app_assoc. Qed.

(** One side of a counter. *)
Inductive side := Up | Down.
Definition side_name (s : side) : string := match s with Up => "uplink" | Down => "downlink" end.
Definition get_side (s : side) (st : TrafficStats) : Z :=
  match s with Up => uplink st | Down => downlink st end.
Definition get_rt (s : side) (rt : UserRuntime) : Z :=
  match s with Up => rt_uplink rt | Down => rt_downlink rt end.

Lemma clear_side_hit kind tag s st :
  get_side s (clear_side (stat_name kind tag (side_name s)) st) = 0.
Proof.
  unfold clear_side. rewrite stat_name_ends. destruct s; cbn [side_name].
  - by rewrite ends_uplink.
  - by rewrite ends_downlink.
Qed.

Lemma clear_runtime_hit kind tag s rt :
  get_rt s (clear_runtime (stat_name kind tag (side_name s)) rt) = 0.
Proof.
  unfold clear_runtime. rewrite stat_name_ends. destruct s; cbn [side_name].
  - by rewrite ends_uplink.
  - by rewrite ends_downlink.
Qed.

Lemma clear_side_zero name s st : get_side s st = 0 -> get_side s (clear_side name st) = 0.
Proof. unfold clear_side. case_match; destruct s; simpl; done. Qed.

Lemma clear_runtime_zero name s rt : get_rt s rt = 0 -> get_rt s (clear_runtime name rt) = 0.
Proof. unfold clear_runtime. case_match; destruct s; simpl; done. Qed.

(** A counter, by what holds it. *)
Inductive counter := CGlobal | CInbound (tag : list byte) | COutbound (tag : list byte)
  | CUser (tag : list byte) | CRuntime (tag : list byte).
Definition counter_value (c : counter) (s : side) (cm : ConnectionManager) : Z :=
  match c with
  | CGlobal => get_side s (global cm)
  | CInbound t => get_side s (stats_of (by_inbound_stats cm) t)
  | COutbound t => get_side s (stats_of (by_outbound_stats cm) t)
  | CUser t => get_side s (stats_of (by_user_stats cm) t)
  | CRuntime t => get_rt s (runtime_of cm t)
  end.

Lemma update_runtime_value cm f u t :
  default default_runtime (runtimes (update_runtime f u (users cm)) !! t)
  = if decide (t = u) then f (runtime_of cm u) else runtime_of cm t.
Proof. apply (runtime_of_update cm f u t). Qed.

(** Resetting any statistic keeps zero counters at zero. *)
Lemma reset_keeps_zero c s cm name :
  counter_value c s cm = 0 -> counter_value c s (reset_stat_name cm name) = 0.
Proof.
  intros H. unfold reset_stat_name.
  assert (Hupd : forall m t u, get_side s (stats_of m t) = 0 ->
    get_side s (stats_of (update_stats (clear_side name) u m) t) = 0).
  { intros m t u Hz. rewrite stats_of_update. case_decide; [subst; by apply clear_side_zero|done]. }
  destruct (bool_decide _). { destruct c; [by destruct s|done..]. }
  destruct (bool_decide _). { destruct c; [by destruct s|done..]. }
  destruct (stat_tag name "inbound>>>") as [[t|]|]; [|done|].
  { destruct c; try done. by apply Hupd. }
  destruct (stat_tag name "outbound>>>") as [[t|]|]; [|done|].
  { destruct c; try done. by apply Hupd. }
  destruct (stat_tag name "user>>>") as [[u|]|]; [|done|done].
  destruct c; try done; [by apply Hupd|].
  cbn [counter_value] in *. unfold runtime_of at 1. cbn [users]. rewrite update_runtime_value.
  case_decide; [subst; by apply clear_runtime_zero|done].
Qed.

Lemma reset_all_keeps_zero c s l : forall cm, counter_value c s cm = 0 ->
  counter_value c s (foldl (fun cm (e : list byte * Z) => reset_stat_name cm e.1) cm l) = 0.
Proof.
  induction l as [|e l IH]; intros cm H; [done|]. simpl. by apply IH, reset_keeps_zero.
Qed.

(** Each statistic name resets its counter. *)
Lemma reset_hits c s cm kind tag : plain_tag tag ->
  match c with
  | CInbound t => kind = "inbound>>>"%string /\ t = tag
  | COutbound t => kind = "outbound>>>"%string /\ t = tag
  | CUser t | CRuntime t => kind = "user>>>"%string /\ t = tag
  | CGlobal => False
  end ->
  counter_value c s (reset_stat_name cm (stat_name kind tag (side_name s))) = 0.
Proof.
  intros Hp Hc. unfold reset_stat_name.
  destruct c; [done|..]; destruct Hc as [-> ->]; 
    rewrite !bool_decide_eq_false_2 by (intros Hx; apply (f_equal head) in Hx; discriminate Hx).
  - rewrite stat_tag_hit by done. cbn [counter_value by_inbound_stats].
    rewrite stats_of_update, decide_True by done. apply clear_side_hit.
  - change (stat_tag (stat_name "outbound>>>" tag (side_name s)) "inbound>>>")
      with (@None (option (list byte))).
    rewrite stat_tag_hit by done. cbn [counter_value by_outbound_stats].
    rewrite stats_of_update, decide_True by done. apply clear_side_hit.
  - change (stat_tag (stat_name "user>>>" tag (side_name s)) "inbound>>>")
      with (@None (option (list byte))).
    change (stat_tag (stat_name "user>>>" tag (side_name s)) "outbound>>>")
      with (@None (option (list byte))).
    rewrite stat_tag_hit by done. cbn [counter_value by_user_stats].
    rewrite stats_of_update, decide_True by done. apply clear_side_hit.
  - change (stat_tag (stat_name "user>>>" tag (side_name s)) "inbound>>>")
      with (@None (option (list byte))).
    change (stat_tag (stat_name "user>>>" tag (side_name s)) "outbound>>>")
      with (@None (option (list byte))).
    rewrite stat_tag_hit by done. cbn [counter_value].
    unfold runtime_of at 1. cbn [users]. rewrite update_runtime_value, decide_True by done.
    apply clear_runtime_hit.
Qed.

Lemma reset_all_hits c s (kind : string) (tag : list byte) (v : Z) l : plain_tag tag ->
  match c with
  | CInbound t => kind = "inbound>>>"%string /\ t = tag
  | COutbound t => kind = "outbound>>>"%string /\ t = tag
  | CUser t | CRuntime t => kind = "user>>>"%string /\ t = tag
  | CGlobal => False
  end ->
  (stat_name kind tag (side_name s), v) ∈ l -> forall cm,
  counter_value c s (foldl (fun cm (e : list byte * Z) => reset_stat_name cm e.1) cm l) = 0.
Proof.
  intros Hp Hc (l1 & l2 & ->)%list_elem_of_split cm. rewrite foldl_app. cbn [foldl fst].
  by apply reset_all_keeps_zero, reset_hits.
Qed.

Lemma active_entries_maps names : forall cm, let cm' := (active_entries cm names).2 in
  global cm' = global cm /\ by_inbound_stats cm' = by_inbound_stats cm /\
  by_outbound_stats cm' = by_outbound_stats cm /\ by_user_stats cm' = by_user_stats cm.
Proof.
  induction names as [|n names IH]; intros cm; [done|]. cbn [active_entries].
  unfold user_active_count. destruct (runtime (users cm) n) as [rt reg].
  specialize (IH (set_users cm reg)).
  by destruct (active_entries (set_users cm reg) names) as [l cm'].
Qed.

(** The entries of one table. *)
Lemma stat_entry_elem (kind : string) (m : StatsMap) (tag : list byte) (st : TrafficStats)
    (s : side) : m !! tag = Some st ->
  (stat_name kind tag (side_name s), get_side s st)
    ∈ concat (map (stat_entry kind) (map_to_list m)).
Proof.
  intros Hm%elem_of_map_to_list. apply list_elem_of_In, in_concat.
  exists (stat_entry kind (tag, st)). split.
  - apply in_map. by apply list_elem_of_In.
  - rewrite stat_entry_names. destruct s; simpl; auto.
Qed.

(** The counters the query covers: run-time counters for users with traffic. *)
Definition covered (cm : ConnectionManager) (c : counter) : Prop :=
  match c with CRuntime t => is_Some (by_user_stats cm !! t) | _ => True end.

Definition tags_plain (cm : ConnectionManager) : Prop :=
  (forall t, is_Some (by_inbound_stats cm !! t) -> plain_tag t) /\
  (forall t, is_Some (by_outbound_stats cm !! t) -> plain_tag t) /\
  (forall t, is_Some (by_user_stats cm !! t) -> plain_tag t).

Lemma reset_table (c : counter) (s : side) (kind : string) (m : StatsMap) (tag : list byte)
    (l : list (list byte * Z)) (cm : ConnectionManager) : plain_tag tag \/ m !! tag = None ->
  match c with
  | CInbound t => kind = "inbound>>>"%string /\ t = tag
  | COutbound t => kind = "outbound>>>"%string /\ t = tag
  | CUser t | CRuntime t => kind = "user>>>"%string /\ t = tag
  | CGlobal => False
  end ->
  (forall x, x ∈ concat (map (stat_entry kind) (map_to_list m)) -> x ∈ l) ->
  (m !! tag = None -> counter_value c s cm = 0) ->
  counter_value c s (foldl (fun cm (e : list byte * Z) => reset_stat_name cm e.1) cm l) = 0.
Proof.
  intros Hp Hc Hl Hz. destruct (m !! tag) as [st|] eqn:E.
  - eapply (reset_all_hits c s kind tag); [naive_solver|done|].
    apply Hl. by apply stat_entry_elem.
  - by apply reset_all_keeps_zero, Hz.
Qed.

(** Reading statistics with reset.  Provided no tag contains the separator
    character, a query for everything reports each traffic counter, and
    afterwards all of them are zero, the run-time counters behind the quotas of
    the reported users included; the numbers of active sessions are kept. *)
Theorem stats_query_reset cm : tags_plain cm ->
  let '(entries, cm') := query_v2ray_stats cm [] true in
  (forall tag st s, by_inbound_stats cm !! tag = Some st ->
     (stat_name "inbound>>>" tag (side_name s), get_side s st) ∈ entries) /\
  (forall tag st s, by_outbound_stats cm !! tag = Some st ->
     (stat_name "outbound>>>" tag (side_name s), get_side s st) ∈ entries) /\
  (forall tag st s, by_user_stats cm !! tag = Some st ->
     (stat_name "user>>>" tag (side_name s), get_side s st) ∈ entries) /\
  (forall c s, covered cm c -> counter_value c s cm' = 0) /\
  (forall name, active_of cm' name = active_of cm name).
Proof.
  intros (Hpi & Hpo & Hpu).
  pose proof (fun name => query_active cm [] true name) as Hact.
  destruct (query_v2ray_stats cm [] true) as [entries cm'] eqn:Eq. cbn [snd] in Hact.
  unfold query_v2ray_stats in Eq. unfold v2ray_stat_entries in Eq.
  pose proof (active_entries_maps (user_names (users cm)) cm) as (Hg & Hi & Ho & Hu).
  destruct (active_entries cm (user_names (users cm))) as [act cm1]. cbn [snd] in *.
  match type of Eq with (?es, _) = _ => remember es as es0 eqn:Hent end.
  injection Eq as -> Hcm'.
  assert (Hin : forall x, x ∈ concat (map (stat_entry "inbound>>>") (map_to_list (by_inbound_stats cm))) -> x ∈ entries).
  { intros x Hx. rewrite Hent, !elem_of_app. tauto. }
  assert (Hout : forall x, x ∈ concat (map (stat_entry "outbound>>>") (map_to_list (by_outbound_stats cm))) -> x ∈ entries).
  { intros x Hx. rewrite Hent, !elem_of_app. tauto. }
  assert (Huser : forall x, x ∈ concat (map (stat_entry "user>>>") (map_to_list (by_user_stats cm))) -> x ∈ entries).
  { intros x Hx. rewrite Hent, !elem_of_app. tauto. }
  split_and!; [by intros; apply Hin, stat_entry_elem|by intros; apply Hout, stat_entry_elem
    |by intros; apply Huser, stat_entry_elem| |done].
  intros c s Hc. rewrite <-Hcm'.
  assert (Hdec : forall (m : StatsMap) t, (forall t, is_Some (m !! t) -> plain_tag t) ->
    plain_tag t \/ m !! t = None).
  { intros m t Hm. destruct (m !! t) eqn:E; [left; by apply Hm|by right]. }
  destruct c as [|t|t|t|t].
  - rewrite Hent. cbn [app foldl fst]. apply reset_all_keeps_zero.
    assert (reset_stat_name cm1 (str "global>>>uplink") = set_global cm1 (clear_up (global cm1)))
      as -> by done.
    assert (forall c, reset_stat_name c (str "global>>>downlink") = set_global c (clear_down (global c)))
      as -> by done.
    by destruct s.
  - apply (reset_table _ _ "inbound>>>" (by_inbound_stats cm) t); [by apply Hdec|done|done|].
    intros E. cbn [counter_value]. unfold stats_of. rewrite Hi, E. by destruct s.
  - apply (reset_table _ _ "outbound>>>" (by_outbound_stats cm) t); [by apply Hdec|done|done|].
    intros E. cbn [counter_value]. unfold stats_of. rewrite Ho, E. by destruct s.
  - apply (reset_table _ _ "user>>>" (by_user_stats cm) t); [by apply Hdec|done|done|].
    intros E. cbn [counter_value]. unfold stats_of. rewrite Hu, E. by destruct s.
  - apply (reset_table _ _ "user>>>" (by_user_stats cm) t); [by apply Hdec|done|done|].
    intros E. destruct Hc as [? Hc]. congruence.
Qed.

Lemma stats_query_reset_witness :
  let cm := record_traffic (with_registry new_registry) (str "in") (str "out") 5 7 None in
  counter_value (CInbound (str "in")) Up (query_v2ray_stats cm [] true).2 = 0.
Proof.
  intros cm. assert (Hp : tags_plain cm).
  { split_and!; intros t Ht; cbn in Ht.
    - unfold update_stats in Ht. rewrite insert_insert_eq in Ht.
      apply lookup_insert_is_Some in Ht as [<-|[_ Ht]].
      + apply (bool_decide_eq_false_1 _). by vm_compute.
      + rewrite lookup_empty in Ht. by destruct Ht.
    - unfold update_stats in Ht. rewrite insert_insert_eq in Ht.
      apply lookup_insert_is_Some in Ht as [<-|[_ Ht]].
      + apply (bool_decide_eq_false_1 _). by vm_compute.
      + rewrite lookup_empty in Ht. by destruct Ht.
    - rewrite lookup_empty in Ht. by destruct Ht. }
  pose proof (stats_query_reset cm Hp) as H.
  destruct (query_v2ray_stats cm [] true) as [entries cm'].
  destruct H as (_ & _ & _ & H & _). by apply H.
Defined.
