(* ===== verification/Relay.v ===== *)
(** * Relay sessions of users

    [UserRelaySession] and [relay_user_half] of
    [rsb-protocol/src/inbound_proxy.rs] and the helpers of
    [rsb-protocol/src/user_relay.rs]: admission, tracking, quota and rate checks
    around the copying of bytes, over the connection manager and the rate
    limiter.  The two halves of a session, and all sessions of a user, run as
    separate tasks: their interleavings are a step relation, whose steps are the
    stretches of code between two suspension points. *)
From stdpp Require Import base tactics gmap list strings relations.
From Stdlib Require Import ZArith Lia.
From Stdlib Require Import Strings.Byte.
From S2P Require Import Prelude Json Text Ip RateLimit Users Connections.

Local Open Scope Z_scope.

Record UserRelaySession := mkSession {
  s_inbound : list byte;
  s_outbound : list byte;
  s_user : list byte;
  s_limits : UserLimits;
  s_limiter : option Z;
  s_conn_id : Z;
  s_guard : option (list byte);
}.

(** [now] is the time in seconds, read by [track]. *)
Definition begin_tracked (cm : ConnectionManager) (now : Z) (inbound_tag user_name : list byte)
    (limits : UserLimits) (destination : option SocketAddr) (domain : option (list byte))
    (guard : option (list byte)) : UserRelaySession * ConnectionManager :=
  let '(limiter, cm) := user_limiter cm user_name (speed_bps limits) in
  let '(conn_id, cm) := track cm now inbound_tag (str "direct") (str "tcp") None destination
                          domain (Some user_name) in
  (mkSession inbound_tag (str "direct") user_name limits limiter conn_id guard, cm).

Definition session_begin (cm : ConnectionManager) (now : Z) (inbound_tag user_name : list byte)
    (limits : UserLimits) (destination : option SocketAddr) (domain : option (list byte))
  : result UserRelaySession * ConnectionManager :=
  match acquire_user cm user_name limits with
  | (Ok guard, cm) =>
      let '(s, cm) := begin_tracked cm now inbound_tag user_name limits destination domain guard in
      (Ok s, cm)
  | (Err e, cm) => (Err e, cm)
  | (Panic e, cm) => (Panic e, cm)
  end.
Definition begin_muxed (cm : ConnectionManager) (now : Z) (inbound_tag user_name : list byte)
    (limits : UserLimits) (destination : option SocketAddr) (domain : option (list byte))
  : UserRelaySession * ConnectionManager :=
  begin_tracked cm now inbound_tag user_name limits destination domain None.

(** [UserRelaySession::drop], then the drop of its guard. *)
Definition session_drop (cm : ConnectionManager) (s : UserRelaySession) : ConnectionManager :=
  drop_guard (untrack cm (s_conn_id s)) (s_guard s).

(** ** [user_relay.rs] *)

(** [s.chars().take(n)], on valid UTF-8. *)
Fixpoint take_chars (n : nat) (s : list byte) : list byte :=
  match s with
  | [] => []
  | b :: s' =>
      if utf8_cont b then b :: take_chars n s'
      else match n with O => [] | S n' => b :: take_chars n' s' end
  end.

Definition default_limits : UserLimits := mkUserLimits None None None.

Section Begin.
Context `{UserCrypto}.
Variables (cm : ConnectionManager) (now : Z) (inbound_tag : list byte).
Variables (dest : option SocketAddr) (domain : option (list byte)).

(** The record found, or the fallback name with no limits. *)
Definition name_and_limits (r : option UserRecord) (fallback : list byte)
  : list byte * UserLimits :=
  match r with
  | Some r => (ur_name r, ur_limits r)
  | None => (fallback, default_limits)
  end.

Definition begin_for_uuid (uuid : list byte) : result UserRelaySession * ConnectionManager :=
  let '(name, limits) := name_and_limits (lookup_uuid (users cm) uuid) (uuid_show uuid) in
  session_begin cm now inbound_tag name limits dest domain.
Definition begin_for_trojan_hash (trojan_hash : list byte)
  : result UserRelaySession * ConnectionManager :=
  let '(name, limits) := name_and_limits (lookup_trojan_hash (users cm) trojan_hash)
                           (take_chars 8 trojan_hash) in
  session_begin cm now inbound_tag name limits dest domain.
Definition begin_for_password (password : list byte)
  : result UserRelaySession * ConnectionManager :=
  let '(name, limits) := name_and_limits (lookup_password (users cm) password)
                           (take_chars 8 password) in
  session_begin cm now inbound_tag name limits dest domain.
Definition begin_for_inbound : result (option UserRelaySession) * ConnectionManager :=
  match first_for_inbound (users cm) inbound_tag with
  | None => (Ok None, cm)
  | Some rec =>
      let '(s, cm) := session_begin cm now inbound_tag (ur_name rec) (ur_limits rec) dest domain in
      (Some <$> s, cm)
  end.
End Begin.

(** ** Sessions *)

Definition conn_of (s : UserRelaySession) (now : Z) (dest : option SocketAddr)
    (domain : option (list byte)) : ConnectionInfo :=
  mkConnectionInfo (s_conn_id s) (s_inbound s) (s_outbound s) (str "tcp") None dest domain
    (Some (s_user s)) now.

Lemma user_limiter_keeps cm name speed :
  let cm' := (user_limiter cm name speed).2 in
  active cm' = active cm /\ next_id cm' = next_id cm /\ users cm' = users cm.
Proof. unfold user_limiter. by repeat case_match. Qed.

Lemma begin_tracked_spec cm now inb name limits dest dom g :
  let '(s, cm') := begin_tracked cm now inb name limits dest dom g in
  s_conn_id s = next_id cm /\ s_user s = name /\ s_guard s = g /\ s_limits s = limits
  /\ active cm' = <[next_id cm := conn_of s now dest dom]> (active cm)
  /\ users cm' = users cm.
Proof.
  unfold begin_tracked. pose proof (user_limiter_keeps cm name (speed_bps limits)) as (Ha & Hn & Hu).
  destruct (user_limiter cm name (speed_bps limits)) as [lim cm1]. cbn [snd] in *.
  unfold track. cbn. by rewrite Ha, Hn, Hu.
Qed.

(** What a user's limits allow at the moment. *)
Definition admits (cm : ConnectionManager) (name : list byte) (limits : UserLimits) : bool :=
  match max_connections limits with Some max => active_of cm name <? max | None => true end
  && match max_traffic_bytes limits with Some max => total (runtime_of cm name) <? max | None => true end.

Lemma acquire_check_admits cm name limits :
  is_ok (acquire_check cm name limits).1 = admits cm name limits
  /\ is_panic (acquire_check cm name limits).1 = false.
Proof.
  rewrite acquire_check_result. unfold admits.
  destruct (max_connections limits) as [m|], (max_traffic_bytes limits) as [t|];
    cbn [mbind result_bind];
    repeat match goal with |- context [?a <=? ?b] =>
      rewrite (Z.leb_antisym b a); destruct (b <? a) eqn:?; cbn [negb mbind result_bind] end; done.
Qed.

Lemma acquire_check_tables cm name limits :
  active (acquire_check cm name limits).2 = active cm
  /\ next_id (acquire_check cm name limits).2 = next_id cm.
Proof. unfold acquire_check. by destruct (runtime (users cm) name). Qed.

Lemma other_steps_active ops k : forall cm, active_of (foldl other_step cm ops) k = active_of cm k.
Proof.
  induction ops as [|o ops IH]; intros cm; [done|]. cbn [foldl]. by rewrite IH, other_step_active.
Qed.

Lemma session_drop_active cm s k :
  active_of (session_drop cm s) k
  = if decide (Some k = s_guard s) then wrap 64 (active_of cm k - 1) else active_of cm k.
Proof.
  unfold session_drop. destruct (s_guard s) as [g|]; [|by rewrite decide_False].
  unfold drop_guard, active_of. rewrite runtime_of_update.
  destruct (decide (k = g)) as [->|]; [by rewrite decide_True|].
  rewrite decide_False by congruence. done.
Qed.

(** A session's life.  A login succeeds exactly when the user is below its
    connection and traffic limits; it then counts one more active session and adds
    one entry to the connection table, both of which dropping the session undoes,
    whatever happened in between; a refused login leaves table and counts as they
    were. *)
Theorem session_lifecycle cm now inb name limits dest dom :
  (0 <= active_of cm name < u64_max) ->
  let '(r, cm1) := session_begin cm now inb name limits dest dom in
  match r with
  | Ok s =>
      admits cm name limits = true /\ s_user s = name /\ s_conn_id s = next_id cm
      /\ active cm1 = <[next_id cm := conn_of s now dest dom]> (active cm)
      /\ (forall k, active_of cm1 k = active_of cm k + (if decide (k = name) then 1 else 0))
      /\ forall ops, let cm2 := foldl other_step cm1 ops in
           active (session_drop cm2 s) = delete (next_id cm) (active cm2)
           /\ forall k, active_of (session_drop cm2 s) k = active_of cm k
  | Err _ => admits cm name limits = false /\ active cm1 = active cm
      /\ forall k, runtime_of cm1 k = runtime_of cm k
  | Panic _ => False
  end.
Proof.
  intros Hr. unfold session_begin, acquire_user.
  pose proof (acquire_check_admits cm name limits) as [Hadm Hpan].
  pose proof (acquire_check_keeps cm name limits) as Hkeep.
  pose proof (acquire_check_tables cm name limits) as (Hact & Hnext).
  destruct (acquire_check cm name limits) as [[u|e|e] cm0]; cbn [fst snd is_ok is_panic] in *; [|done..].
  pose proof (begin_tracked_spec (acquire_commit cm0 name) now inb name limits dest dom (Some name)) as Hb.
  destruct (begin_tracked _ _ _ _ _ _ _ _) as [s cm1].
  cbn [next_id active acquire_commit set_users] in Hb. rewrite Hact, Hnext in Hb.
  destruct Hb as (Hid & Hname & Hg & Hl & Ha1 & Hu1).
  assert (Hk : forall k, active_of cm1 k = active_of cm k + (if decide (k = name) then 1 else 0)).
  { intros k. unfold active_of, runtime_of at 1. rewrite Hu1.
    change (default _ (runtimes (users (acquire_commit cm0 name)) !! k))
      with (runtime_of (acquire_commit cm0 name) k).
    unfold acquire_commit. rewrite runtime_of_update, !Hkeep. case_decide as E; [subst k|lia].
    unfold active_of, u64_max in Hr. cbn. apply Z.mod_small. lia. }
  split_and!; [done..|]. intros ops. cbv zeta. split; [by unfold session_drop; rewrite Hg, Hid|]. intros k.
  rewrite session_drop_active, Hg, other_steps_active, Hk. case_decide as E; [injection E as ->|rewrite decide_False by congruence; lia].
  rewrite decide_True by done. unfold u64_max in Hr.
  unfold wrap. rewrite Z.mod_small; lia.
Qed.

Lemma session_lifecycle_witness :
  let limits := mkUserLimits (Some 1) None None in
  let '(r, cm1) := session_begin (with_registry new_registry) 0 (str "in") (str "u") limits None None in
  match r with
  | Ok s => active_of (session_drop cm1 s) (str "u") = 0
  | _ => False
  end.
Proof.
  pose proof (session_lifecycle (with_registry new_registry) 0 (str "in") (str "u")
    (mkUserLimits (Some 1) None None) None None ltac:(done)) as H.
  cbn in H |- *. destruct H as (_ & _ & _ & _ & _ & H). apply (H []).
Defined.

(** ** Copying *)

Definition RELAY_CHUNK : Z := 16 * 1024.

(** [record_traffic] as the two directions call it. *)
Definition charge (s : UserRelaySession) (uplink : bool) (n : Z) (cm : ConnectionManager)
  : ConnectionManager :=
  if uplink then record_traffic cm (s_inbound s) (s_outbound s) n 0 (Some (s_user s))
  else record_traffic cm (s_inbound s) (s_outbound s) 0 n (Some (s_user s)).

(** [relay_user_half] run alone, on the buffers its reader returns, each sleep
    of the limiter ending on time: the bytes written and the manager, or nothing
    when the limiter outlasts the fuel. *)
Fixpoint relay_user_half (fuel : nat) (s : UserRelaySession) (uplink : bool)
    (lim : option RateLimiter) (now : Z) (cm : ConnectionManager) (chunks : list (list byte))
  : result (option (list byte * ConnectionManager)) :=
  match chunks with
  | [] => Ok (Some ([], cm))
  | [] :: _ => Ok (Some ([], cm))
  | buf :: chunks =>
      let '(ok, cm) := user_quota_ok cm (s_user s) (s_limits s) in
      if negb ok then Ok (Some ([], cm))
      else
        g ← match lim with
            | Some l => g ← throttle (fun _ => 0) fuel l now (zlen buf);
                        Ok (match g with Some (t, l) => Some (t, Some l) | None => None end)
            | None => Ok (Some (now, None))
            end;
        match g with
        | None => Ok None
        | Some (now, lim) =>
            r ← relay_user_half fuel s uplink lim now (charge s uplink (zlen buf) cm) chunks;
            Ok (match r with Some (out, cm) => Some (buf ++ out, cm) | None => None end)
        end
  end.

(** Where a half of a session stands: waiting for its reader, asking the limiter
    for a buffer, writing it, about to account for it, or finished, with the
    number of bytes of an unfinished write that reached the peer. *)
Inductive phase :=
| Reading
| Throttling (buf : list byte)
| Writing (buf : list byte)
| Recording (buf : list byte)
| Finished (lost : Z).

Record Half := mkHalf {
  h_session : UserRelaySession;
  h_up : bool;
  h_phase : phase;
  h_out : list byte;
}.
Definition set_phase (h : Half) (p : phase) : Half :=
  mkHalf (h_session h) (h_up h) p (h_out h).
Definition put (h : Half) (p : phase) (b : list byte) : Half :=
  mkHalf (h_session h) (h_up h) p (h_out h ++ b).

Record RelayPool := mkRelayPool {
  rp_cm : ConnectionManager;
  rp_lim : option RateLimiter;
  rp_halves : list Half;
}.

Section Quota.
(** A user, its limits, and the halves of its sessions. *)
Variables (name : list byte) (limits : UserLimits).

(** Calls that do not charge or reset the user. *)
Definition unrelated (o : other_op) : bool :=
  match o with
  | OTraffic _ _ _ _ user => negb (bool_decide (user = Some name))
  | OQuery _ reset => negb reset
  | _ => true
  end.

Inductive rstep : RelayPool -> RelayPool -> Prop :=
| rs_read cm cm' lim hs i h b ok : hs !! i = Some h -> h_phase h = Reading ->
    1 <= zlen b <= RELAY_CHUNK ->
    user_quota_ok cm (s_user (h_session h)) (s_limits (h_session h)) = (ok, cm') ->
    rstep (mkRelayPool cm lim hs)
      (mkRelayPool cm' lim (<[i := set_phase h (if ok then Throttling b else Finished 0)]> hs))
| rs_unlimited cm lim hs i h b : hs !! i = Some h -> h_phase h = Throttling b ->
    s_limiter (h_session h) = None ->
    rstep (mkRelayPool cm lim hs) (mkRelayPool cm lim (<[i := set_phase h (Writing b)]> hs))
| rs_throttle cm l l' now w hs i h b : hs !! i = Some h -> h_phase h = Throttling b ->
    s_limiter (h_session h) <> None -> acquire_wait l now (zlen b) = Ok (w, l') ->
    rstep (mkRelayPool cm (Some l) hs) (mkRelayPool cm (Some l')
      (<[i := set_phase h (if w =? 0 then Writing b else Throttling b)]> hs))
| rs_write cm lim hs i h b : hs !! i = Some h -> h_phase h = Writing b ->
    rstep (mkRelayPool cm lim hs) (mkRelayPool cm lim (<[i := put h (Recording b) b]> hs))
| rs_write_fails cm lim hs i h b n : hs !! i = Some h -> h_phase h = Writing b ->
    0 <= n <= zlen b ->
    rstep (mkRelayPool cm lim hs) (mkRelayPool cm lim
      (<[i := put h (Finished n) (take (Z.to_nat n) b)]> hs))
| rs_record cm lim hs i h b : hs !! i = Some h -> h_phase h = Recording b ->
    rstep (mkRelayPool cm lim hs) (mkRelayPool (charge (h_session h) (h_up h) (zlen b) cm) lim
      (<[i := set_phase h Reading]> hs))
| rs_stop cm lim hs i h : hs !! i = Some h ->
    (h_phase h = Reading \/ exists b, h_phase h = Throttling b) ->
    rstep (mkRelayPool cm lim hs) (mkRelayPool cm lim (<[i := set_phase h (Finished 0)]> hs))
| rs_other cm lim hs o : unrelated o = true ->
    rstep (mkRelayPool cm lim hs) (mkRelayPool (other_step cm o) lim hs).

Definition sum_of {A} (f : A -> Z) (l : list A) : Z := foldr (fun x acc => f x + acc) 0 l.

(** Bytes past the quota check and not yet charged; bytes that reached the peer
    and never will be. *)
Definition pending (h : Half) : Z :=
  match h_phase h with
  | Reading => 0
  | Throttling b | Writing b | Recording b => zlen b
  | Finished n => n
  end.
Definition unpaid (h : Half) : Z :=
  match h_phase h with Recording b => zlen b | Finished n => n | _ => 0 end.
Definition written (hs : list Half) : Z := sum_of (fun h => zlen (h_out h)) hs.

Definition charged_of (cm : ConnectionManager) : Z :=
  rt_uplink (runtime_of cm name) + rt_downlink (runtime_of cm name).

Definition half_ok (h : Half) : Prop :=
  s_user (h_session h) = name /\ s_limits (h_session h) = limits
  /\ 0 <= unpaid h <= pending h /\ pending h <= RELAY_CHUNK.
End Quota.

Lemma sum_of_insert {A} (f : A -> Z) l i x y : l !! i = Some x ->
  sum_of f (<[i := y]> l) = sum_of f l - f x + f y.
Proof.
  unfold sum_of. revert i. induction l as [|z l IH]; intros [|i] Hi; simplify_eq/=; [lia|].
  rewrite (IH i Hi). lia.
Qed.

Lemma sum_of_bound {A} (f : A -> Z) b l : 0 <= b -> Forall (fun x => 0 <= f x <= b) l ->
  0 <= sum_of f l <= b * zlen l.
Proof.
  intros Hb. unfold sum_of. induction 1 as [|x l Hx _ IH]; simpl; [unfold zlen; simpl; lia|].
  rewrite zlen_cons. lia.
Qed.

Lemma sum_of_le {A} (f g : A -> Z) l : Forall (fun x => f x <= g x) l -> sum_of f l <= sum_of g l.
Proof. unfold sum_of. induction 1; simpl; lia. Qed.

Lemma charge_runtime s up n cm k :
  runtime_of (charge s up n cm) k
  = if decide (k = s_user s) then
      let rt := runtime_of cm (s_user s) in
      mkUserRuntime (u64 (rt_uplink rt + (if up then n else 0)))
        (u64 (rt_downlink rt + (if up then 0 else n))) (rt_active rt)
    else runtime_of cm k.
Proof.
  set (f u d := fun rt : UserRuntime => mkUserRuntime (u64 (rt_uplink rt + u))
         (u64 (rt_downlink rt + d)) (rt_active rt)).
  destruct up; [exact (runtime_of_update cm (f n 0) (s_user s) k)
               | exact (runtime_of_update cm (f 0 n) (s_user s) k)].
Qed.

Lemma quota_ok_value cm name limits ok cm' : user_quota_ok cm name limits = (ok, cm') ->
  ok = match max_traffic_bytes limits with
       | Some max => total (runtime_of cm name) <? max | None => true end
  /\ forall k, runtime_of cm' k = runtime_of cm k.
Proof.
  unfold user_quota_ok. destruct (max_traffic_bytes limits) as [max|]; [|by intros [= <- <-]].
  pose proof (runtime_value (users cm) name) as Hv.
  pose proof (runtime_keeps (users cm) name) as Hk.
  destruct (runtime (users cm) name) as [rt reg]. cbn [fst snd] in *. intros [= <- <-].
  unfold runtime_of at 1. rewrite <-Hv. done.
Qed.

Lemma unrelated_keeps name o cm : unrelated name o = true ->
  runtime_of (other_step cm o) name = runtime_of cm name.
Proof.
  destruct o as [inb outb up down user| | |user limits|user speed|pattern reset]; cbn [unrelated other_step]; intros Hu.
  - bool_props. apply bool_decide_eq_false in Hu. destruct user as [u|]; [|done].
    pose proof (runtime_of_update cm (fun rt => mkUserRuntime (u64 (rt_uplink rt + up))
         (u64 (rt_downlink rt + down)) (rt_active rt)) u name) as H.
    rewrite decide_False in H by congruence. exact H.
  - done.
  - done.
  - destruct (user_quota_ok cm user limits) as [ok cm'] eqn:E. by apply quota_ok_value in E as [_ ->].
  - unfold runtime_of. by destruct (user_limiter_keeps cm user speed) as (_ & _ & ->).
  - bool_props. subst reset. unfold query_v2ray_stats, v2ray_stat_entries.
    pose proof (active_entries_keeps (user_names (users cm)) cm name) as Ha.
    by destruct (active_entries cm (user_names (users cm))).
Qed.

Section QuotaProof.
Variables (name : list byte) (limits : UserLimits) (max T0 n : Z).
Hypothesis Hmax : max_traffic_bytes limits = Some max.
Abbreviation bound := (Z.max T0 (max - 1) + RELAY_CHUNK * n).
Hypothesis Hbound : bound < 2 ^ 64.

Record pool_inv (p : RelayPool) : Prop := {
  pi_halves : Forall (half_ok name limits) (rp_halves p);
  pi_count : zlen (rp_halves p) = n;
  pi_up : 0 <= rt_uplink (runtime_of (rp_cm p) name);
  pi_down : 0 <= rt_downlink (runtime_of (rp_cm p) name);
  pi_limit : charged_of name (rp_cm p) + sum_of pending (rp_halves p) <= bound;
  pi_paid : charged_of name (rp_cm p) + sum_of unpaid (rp_halves p) = T0 + written (rp_halves p);
}.

(** A step that moves one half and leaves the user's counters alone. *)
Lemma move_half p cm' lim' i h h' : pool_inv p -> rp_halves p !! i = Some h ->
  runtime_of cm' name = runtime_of (rp_cm p) name -> half_ok name limits h' ->
  charged_of name (rp_cm p) + sum_of pending (<[i := h']> (rp_halves p)) <= bound ->
  unpaid h' - unpaid h = zlen (h_out h') - zlen (h_out h) ->
  pool_inv (mkRelayPool cm' lim' (<[i := h']> (rp_halves p))).
Proof.
  intros [] Hi Hrt Hh Hp Hu. split; unfold charged_of in *; cbn [rp_cm rp_halves]; rewrite ?Hrt; try done.
  - by apply Forall_insert.
  - unfold zlen. by rewrite length_insert.
  - unfold written. rewrite !(sum_of_insert _ _ _ _ _ Hi). unfold written in *. lia.
Qed.

Lemma halves_bound hs : Forall (half_ok name limits) hs -> zlen hs = n ->
  0 <= sum_of pending hs <= RELAY_CHUNK * n.
Proof.
  intros Hh <-. apply sum_of_bound; [done|].
  eapply Forall_impl; [exact Hh|]. intros h (_ & _ & ? & ?). lia.
Qed.

Lemma quiet_half p lim' i h h' : pool_inv p -> rp_halves p !! i = Some h ->
  h_session h' = h_session h -> 0 <= unpaid h' <= pending h' -> pending h' <= pending h ->
  unpaid h' - unpaid h = zlen (h_out h') - zlen (h_out h) ->
  pool_inv (mkRelayPool (rp_cm p) lim' (<[i := h']> (rp_halves p))).
Proof.
  intros Hp Hi Hs Hu Hle Hd.
  destruct (proj1 (Forall_lookup _ _) (pi_halves _ Hp) _ _ Hi) as (? & ? & ? & ?).
  apply (move_half _ _ _ _ h); try done.
  - unfold half_ok. rewrite Hs. split_and!; done || lia.
  - rewrite (sum_of_insert _ _ _ _ _ Hi). pose proof (pi_limit _ Hp). lia.
Qed.

(** A half that passes the quota check saw fewer bytes than the limit. *)
Lemma read_half p cm' i h b : pool_inv p -> rp_halves p !! i = Some h -> h_phase h = Reading ->
  1 <= zlen b <= RELAY_CHUNK -> runtime_of cm' name = runtime_of (rp_cm p) name ->
  total (runtime_of (rp_cm p) name) < max ->
  pool_inv (mkRelayPool cm' (rp_lim p) (<[i := set_phase h (Throttling b)]> (rp_halves p))).
Proof.
  intros Hp Hi Hph Hb Hrt Ht.
  destruct (proj1 (Forall_lookup _ _) (pi_halves _ Hp) _ _ Hi) as (? & ? & ? & ?).
  assert (Hh : half_ok name limits (set_phase h (Throttling b))).
  { split_and!; try done; cbn; lia. }
  apply (move_half _ _ _ _ h); try done.
  - assert (Hhs : Forall (half_ok name limits) (<[i := set_phase h (Throttling b)]> (rp_halves p)))
      by (apply Forall_insert; [apply pi_halves, Hp|done]).
    apply halves_bound in Hhs; [|rewrite <-(pi_count _ Hp); unfold zlen; by rewrite length_insert].
    pose proof (halves_bound _ (pi_halves _ Hp) (pi_count _ Hp)).
    pose proof (pi_limit _ Hp). pose proof (pi_up _ Hp). pose proof (pi_down _ Hp).
    unfold total, charged_of, u64, wrap in *. rewrite Z.mod_small in Ht by lia. lia.
  - unfold unpaid. rewrite Hph. cbn. lia.
Qed.

Lemma record_half p i h b : pool_inv p -> rp_halves p !! i = Some h -> h_phase h = Recording b ->
  pool_inv (mkRelayPool (charge (h_session h) (h_up h) (zlen b) (rp_cm p)) (rp_lim p)
    (<[i := set_phase h Reading]> (rp_halves p))).
Proof.
  intros Hp Hi Hph.
  destruct (proj1 (Forall_lookup _ _) (pi_halves _ Hp) _ _ Hi) as (Hu & Hl & Hq & Hc).
  pose proof (halves_bound _ (pi_halves _ Hp) (pi_count _ Hp)) as Hpos. destruct Hp.
  pose proof (charge_runtime (h_session h) (h_up h) (zlen b) (rp_cm p) name) as Hrt.
  rewrite Hu, decide_True in Hrt by done. cbv zeta in Hrt.
  assert (Hpend : zlen b <= sum_of pending (rp_halves p)).
  { assert (Hrest : 0 <= sum_of pending (<[i := set_phase h Reading]> (rp_halves p))).
    { eapply proj1, halves_bound; [|unfold zlen; rewrite length_insert; exact pi_count0].
      apply Forall_insert; [done|]. split_and!; try done. }
    rewrite (sum_of_insert _ _ _ _ _ Hi) in Hrest. unfold pending in Hrest at 2 3.
    rewrite Hph in Hrest. cbn in Hrest. lia. }
  pose proof (zlen_nonneg b). unfold charged_of in *. unfold u64, wrap in Hrt.
  assert (Hrt' : runtime_of (charge (h_session h) (h_up h) (zlen b) (rp_cm p)) name
    = mkUserRuntime (rt_uplink (runtime_of (rp_cm p) name) + (if h_up h then zlen b else 0))
        (rt_downlink (runtime_of (rp_cm p) name) + (if h_up h then 0 else zlen b))
        (rt_active (runtime_of (rp_cm p) name))).
  { rewrite Hrt. f_equal; apply Z.mod_small; destruct (h_up h); lia. }
  split; unfold charged_of; cbn [rp_cm rp_halves]; rewrite ?Hrt'; cbn [rt_uplink rt_downlink].
  - apply Forall_insert; [done|]. split_and!; done.
  - unfold zlen. by rewrite length_insert.
  - destruct (h_up h); lia.
  - destruct (h_up h); lia.
  - rewrite (sum_of_insert _ _ _ _ _ Hi). unfold pending at 2 3. rewrite Hph. cbn. destruct (h_up h); lia.
  - unfold written in *. rewrite !(sum_of_insert _ _ _ _ _ Hi). unfold unpaid at 2 3. rewrite Hph. cbn.
    destruct (h_up h); lia.
Qed.

Lemma rstep_inv p p' : rstep name p p' -> pool_inv p -> pool_inv p'.
Proof.
  intros Hs Hp. destruct Hs as [cm cm' lim hs i h b ok Hi Hph Hb Hok|cm lim hs i h b Hi Hph _
    |cm l l' now w hs i h b Hi Hph _ Hw|cm lim hs i h b Hi Hph|cm lim hs i h b k Hi Hph Hk
    |cm lim hs i h b Hi Hph|cm lim hs i h Hi Hph|cm lim hs o Ho].
  - destruct (proj1 (Forall_lookup _ _) (pi_halves _ Hp) _ _ Hi) as (Hu & Hl & _).
    rewrite Hu, Hl in Hok. apply quota_ok_value in Hok as [Hok Hk]. rewrite Hmax in Hok.
    destruct ok; symmetry in Hok; bool_props.
    + by apply (read_half _ cm' _ h b Hp).
    + apply (move_half _ _ _ _ h _ Hp Hi); [done|by split_and!| |].
      * rewrite (sum_of_insert _ _ _ _ _ Hi). pose proof (pi_limit _ Hp). unfold pending at 2 3.
        rewrite Hph. cbn [rp_cm rp_halves h_phase set_phase] in *. lia.
      * unfold unpaid. rewrite Hph. cbn. lia.
  - apply (quiet_half _ _ _ h _ Hp Hi); unfold unpaid, pending; rewrite ?Hph; cbn;
      pose proof (zlen_nonneg b); done || lia.
  - apply (quiet_half _ _ _ h _ Hp Hi); unfold unpaid, pending; rewrite ?Hph; cbn;
      pose proof (zlen_nonneg b); destruct (w =? 0); done || lia.
  - apply (quiet_half _ _ _ h _ Hp Hi); unfold unpaid, pending; rewrite ?Hph; cbn;
      rewrite ?zlen_app; pose proof (zlen_nonneg b); done || lia.
  - apply (quiet_half _ _ _ h _ Hp Hi); unfold unpaid, pending; rewrite ?Hph; cbn;
      rewrite ?zlen_app, ?zlen_take by lia; done || lia.
  - by apply (record_half _ _ _ _ Hp).
  - destruct Hph as [Hph|[b Hph]];
      apply (quiet_half _ _ _ h _ Hp Hi); unfold unpaid, pending; rewrite ?Hph; cbn;
      try pose proof (zlen_nonneg b); done || lia.
  - destruct Hp. split; cbn [rp_cm rp_halves] in *; unfold charged_of in *;
      rewrite ?unrelated_keeps; done.
Qed.

Lemma rsteps_inv p p' : rtc (rstep name) p p' -> pool_inv p -> pool_inv p'.
Proof. induction 1; eauto using rstep_inv. Qed.
End QuotaProof.

(** C13.  Traffic quotas under concurrency.  Let the sessions of a user with a
    traffic limit have [n] relay halves, at most one buffer of 16 KiB in each.
    However the halves, the rate limiter, and calls about other users interleave,
    the bytes charged to the user stay below its limit (or what it had used
    already) plus one buffer per half; and every byte that reached a peer is
    charged, except those of writes under way or broken off. *)
Theorem quota_overshoot name limits max cm lim hs p :
  max_traffic_bytes limits = Some max ->
  0 <= rt_uplink (runtime_of cm name) -> 0 <= rt_downlink (runtime_of cm name) ->
  Forall (fun h => s_user (h_session h) = name /\ s_limits (h_session h) = limits
                   /\ h_phase h = Reading /\ h_out h = []) hs ->
  let used := charged_of name cm in
  let limit := Z.max used (max - 1) + RELAY_CHUNK * zlen hs in
  limit < 2 ^ 64 ->
  rtc (rstep name) (mkRelayPool cm lim hs) p ->
  charged_of name (rp_cm p) <= limit
  /\ charged_of name (rp_cm p) - used <= written (rp_halves p) <= limit - used
  /\ written (rp_halves p) = charged_of name (rp_cm p) - used + sum_of unpaid (rp_halves p).
Proof.
  intros Hmax Hu Hd Hhs used limit Hlim Hsteps.
  assert (Hz : forall f, (forall h, h_phase h = Reading -> h_out h = [] -> f h = 0) -> sum_of f hs = 0).
  { intros f Hf. clear - Hhs Hf. induction Hhs as [|h hs (_ & _ & Hph & Ho) _ IH]; [done|].
    change (f h + sum_of f hs = 0). by rewrite (Hf h Hph Ho), IH. }
  apply (rsteps_inv name limits max used (zlen hs) Hmax Hlim) in Hsteps.
  - assert (0 <= sum_of pending (rp_halves p) <= RELAY_CHUNK * zlen hs)
      by (eapply halves_bound; eauto using pi_halves, pi_count).
    assert (Hle : sum_of unpaid (rp_halves p) <= sum_of pending (rp_halves p)).
    { apply sum_of_le. eapply Forall_impl; [apply (pi_halves _ _ _ _ _ _ Hsteps)|].
      intros h (_ & _ & ? & _). lia. }
    assert (Hnn : 0 <= sum_of unpaid (rp_halves p)).
    { apply (sum_of_bound unpaid RELAY_CHUNK); [done|].
      eapply Forall_impl; [apply (pi_halves _ _ _ _ _ _ Hsteps)|]. intros h (_ & _ & ? & ?). lia. }
    destruct Hsteps. unfold limit. lia.
  - split; cbn [rp_cm rp_halves]; try done.
    + eapply Forall_impl; [exact Hhs|]. intros h (? & ? & Hph & _).
      unfold half_ok, unpaid, pending. rewrite Hph. split_and!; done.
    + rewrite Hz by (intros h Hph _; unfold pending; by rewrite Hph). fold used. unfold RELAY_CHUNK.
      pose proof (zlen_nonneg hs). lia.
    + unfold written. rewrite !Hz; [done|..]; intros h Hph Ho; [by rewrite Ho|unfold unpaid; by rewrite Hph].
Qed.

Definition quota_session : UserRelaySession :=
  mkSession (str "in") (str "direct") (str "u") (mkUserLimits None (Some 10) None) None 1 None.

(** Two halves pass the check of a ten-byte limit and relay sixteen bytes. *)
Lemma quota_overshoot_witness :
  let cm := with_registry new_registry in
  let h up := mkHalf quota_session up Reading [] in
  exists p, rtc (rstep (str "u")) (mkRelayPool cm None [h true; h false]) p
    /\ charged_of (str "u") (rp_cm p) = 16 /\ charged_of (str "u") (rp_cm p) <= 10 - 1 + RELAY_CHUNK * 2.
Proof.
  intros cm h. pose (b := str "12345678").
  assert (Hruns : exists p, rtc (rstep (str "u")) (mkRelayPool cm None [h true; h false]) p
    /\ charged_of (str "u") (rp_cm p) = 16).
  { eexists. split.
    - eapply rtc_l; [eapply (rs_read _ _ _ _ _ 0 _ b true); [done|done|by vm_compute|done]|].
      eapply rtc_l; [eapply (rs_read _ _ _ _ _ 1 _ b true); [done|done|by vm_compute|done]|].
      eapply rtc_l; [by eapply (rs_unlimited _ _ _ _ 0 _ b)|].
      eapply rtc_l; [by eapply (rs_unlimited _ _ _ _ 1 _ b)|].
      eapply rtc_l; [by eapply (rs_write _ _ _ _ 0 _ b)|].
      eapply rtc_l; [by eapply (rs_write _ _ _ _ 1 _ b)|].
      eapply rtc_l; [by eapply (rs_record _ _ _ _ 0 _ b)|].
      eapply rtc_l; [by eapply (rs_record _ _ _ _ 1 _ b)|]. apply rtc_refl.
    - by vm_compute. }
  destruct Hruns as (p & Hp & Hc). exists p. split; [done|]. split; [done|].
  apply (quota_overshoot (str "u") (mkUserLimits None (Some 10) None) 10 cm None [h true; h false] p);
    try done. by repeat constructor.
Defined.

(** ** One half alone *)

(** The buffers a remaining quota lets through: the last may exceed it. *)
Fixpoint admitted (budget : Z) (chunks : list (list byte)) : list (list byte) :=
  match chunks with
  | [] => []
  | b :: chunks => if 0 <? budget then b :: admitted (budget - zlen b) chunks else []
  end.

Lemma relay_half_alone fuel s up now max chunks : max_traffic_bytes (s_limits s) = Some max ->
  Forall (fun b => b <> []) chunks -> forall cm,
  0 <= rt_uplink (runtime_of cm (s_user s)) -> 0 <= rt_downlink (runtime_of cm (s_user s)) ->
  charged_of (s_user s) cm + zlen (concat chunks) < 2 ^ 64 ->
  let out := concat (admitted (max - charged_of (s_user s) cm) chunks) in
  exists cm', relay_user_half fuel s up None now cm chunks = Ok (Some (out, cm'))
    /\ charged_of (s_user s) cm' = charged_of (s_user s) cm + zlen out.
Proof.
  intros Hmax. induction 1 as [|b chunks Hb _ IH]; intros cm Hu Hd Hw out.
  { exists cm. split; [done|]. by rewrite Z.add_0_r. }
  unfold out in *. clear out. cbn [relay_user_half admitted].
  destruct b as [|x b]; [done|]. set (buf := x :: b) in *.
  destruct (user_quota_ok cm (s_user s) (s_limits s)) as [ok cm1] eqn:Hq.
  apply quota_ok_value in Hq as [Hok Hk]. rewrite Hmax in Hok.
  pose proof (zlen_nonneg (concat chunks)). pose proof (zlen_nonneg buf).
  cbn [concat] in Hw. rewrite zlen_app in Hw.
  assert (Ht : total (runtime_of cm (s_user s)) = charged_of (s_user s) cm).
  { unfold total, charged_of, u64, wrap in *. apply Z.mod_small. lia. }
  assert (Hok' : (0 <? max - charged_of (s_user s) cm) = ok).
  { rewrite Hok, Ht. destruct (Z.ltb_spec (charged_of (s_user s) cm) max);
      [apply Z.ltb_lt|apply Z.ltb_ge]; lia. }
  rewrite Hok'. destruct ok; cbn [negb].
  - cbn [mbind result_bind concat].
    pose proof (charge_runtime s up (zlen buf) cm1 (s_user s)) as Hc.
    rewrite decide_True, Hk in Hc by done. cbv zeta in Hc. unfold u64, wrap in Hc.
    unfold charged_of in Hw, Hok', IH |- *. rewrite !Z.mod_small in Hc by (destruct up; lia).
    specialize (IH (charge s up (zlen buf) cm1)). rewrite Hc in IH. cbn [rt_uplink rt_downlink] in IH.
    destruct IH as (cm' & Hrun & Hch); [destruct up; lia..|].
    exists cm'. rewrite Hrun. cbn [mbind result_bind]. rewrite Hch, zlen_app.
    assert (Hsum : forall u d, u + (if up then zlen buf else 0) + (d + (if up then 0 else zlen buf))
      = u + d + zlen buf) by (intros; destruct up; lia).
    rewrite Hsum, Z.sub_add_distr. split; [done|]. lia.
  - exists cm1. split; [done|]. unfold charged_of. by rewrite Hk, Z.add_0_r.
Qed.

(** With a speed limit of 4 KiB/s the first full buffer already starves. *)
Lemma slow_half_starves fuel s up now cm chunk chunks :
  max_traffic_bytes (s_limits s) = None -> zlen chunk = 16384 ->
  relay_user_half fuel s up (Some (limiter_new 4096 now)) now cm (chunk :: chunks) = Ok None.
Proof.
  intros Hq Hl. cbn [relay_user_half]. destruct chunk as [|x chunk]; [done|].
  unfold user_quota_ok. rewrite Hq. cbn [negb]. rewrite Hl, slow_limiter_starves. done.
Qed.
