(* ===== verification/DnsWire.v ===== *)
(** * DNS messages

    The wire format of [rsb-dns/src/lib.rs]: [build_query], [parse_response],
    [skip_name], [build_response]; and [extract_query_name] of
    [rsb-protocol/src/dns_inbound.rs].  Offsets stay within a few bytes of the
    buffer's end, so [usize] arithmetic does not wrap; slice accesses that leave
    the buffer are panics. *)
From stdpp Require Import base tactics list strings.
From Stdlib Require Import ZArith Lia.
From Stdlib Require Import Strings.Byte.
From S2P Require Import Prelude Json Text Ip Srs.

Local Open Scope Z_scope.

(** ** Queries *)

(** [label.len() as u8], then the label. *)
Definition query_label (label : list byte) : list byte :=
  match label with [] => [] | _ => u8 (zlen label) :: label end.
Definition build_query (host : list byte) (ipv6 : bool) : list byte :=
  [x12; x34; x01; x00; x00; x01; x00; x00; x00; x00; x00; x00]
  ++ concat (map query_label (split x2e host))
  ++ [x00] ++ (if ipv6 then [x00; x1c] else [x00; x01]) ++ [x00; x01].

(** The label loop of [extract_query_name]; [fuel] is one step per byte. *)
Fixpoint name_labels (fuel : nat) (query : list byte) (offset : Z) (labels : list (list byte))
  : result (list (list byte)) :=
  match fuel with
  | O => Panic "fuel"
  | S fuel' =>
      if zlen query <=? offset then Ok labels
      else
        len ← index query offset;
        if bz len =? 0 then Ok labels
        else
          let offset := offset + 1 in
          if zlen query <? offset + bz len then Ok labels
          else
            let label := take (Z.to_nat (bz len)) (drop (Z.to_nat offset) query) in
            name_labels fuel' query (offset + bz len) (labels ++ [from_utf8_lossy label])
  end.
Definition extract_query_name (query : list byte) : result (list byte) :=
  if zlen query <? 13 then Err "short query"
  else
    labels ← name_labels (S (length query)) query 12 [];
    match labels with
    | [] => Err "empty qname"
    | _ => Ok (join x2e labels)
    end.

(** ** Responses *)

Fixpoint skip_name_loop (fuel : nat) (buf : list byte) (offset : Z) : result Z :=
  match fuel with
  | O => Panic "fuel"
  | S fuel' =>
      if zlen buf <=? offset then Err "truncated dns name"
      else
        len ← index buf offset;
        if Z.land (bz len) 192 =? 192 then Ok (offset + 2)
        else if bz len =? 0 then Ok (offset + 1)
        else skip_name_loop fuel' buf (offset + (1 + bz len))
  end.
Definition skip_name (buf : list byte) (offset : Z) : result Z :=
  skip_name_loop (S (length buf)) buf offset.

(** [u16::from_be_bytes([buf[o], buf[o + 1]])]. *)
Definition u16_at (buf : list byte) (o : Z) : result Z :=
  hi ← index buf o;
  lo ← index buf (o + 1);
  Ok (bz hi * 256 + bz lo).

(** [&buf[o..o + n]]. *)
Definition slice_at (buf : list byte) (o n : Z) : result (list byte) :=
  s ← slice_to buf (o + n); slice_from s o.

Fixpoint skip_questions (qd : nat) (buf : list byte) (offset : Z) : result Z :=
  match qd with
  | O => Ok offset
  | S qd' => offset ← skip_name buf offset; skip_questions qd' buf (offset + 4)
  end.

Fixpoint read_answers (an : nat) (buf : list byte) (offset : Z) (addrs : list IpAddr)
  : result (list IpAddr) :=
  match an with
  | O => Ok addrs
  | S an' =>
      offset ← skip_name buf offset;
      if zlen buf <? offset + 10 then Ok addrs
      else
        rtype ← u16_at buf offset;
        rdlen ← u16_at buf (offset + 8);
        let offset := offset + 10 in
        if zlen buf <? offset + rdlen then Ok addrs
        else
          addrs ←
            (if (rtype =? 1) && (rdlen =? 4) then
               b ← slice_at buf offset 4; Ok (addrs ++ [V4 (be_decode b)])
             else if (rtype =? 28) && (rdlen =? 16) then
               b ← slice_at buf offset 16; Ok (addrs ++ [V6 (be_decode b)])
             else Ok addrs);
          read_answers an' buf (offset + rdlen) addrs
  end.

Definition parse_response (buf : list byte) : result (list IpAddr) :=
  if zlen buf <? 12 then Ok []
  else
    qd ← u16_at buf 4;
    an ← u16_at buf 6;
    offset ← skip_questions (Z.to_nat qd) buf 12;
    read_answers (Z.to_nat an) buf offset [].

Definition response_record (ip : IpAddr) : list byte :=
  [xc0; x0c] ++
  match ip with
  | V4 a => [x00; x01; x00; x01; x00; x00; x00; x3c; x00; x04] ++ be_encode 4 a
  | V6 a => [x00; x1c; x00; x01; x00; x00; x00; x3c; x00; x10] ++ be_encode 16 a
  end.
Definition build_response (query : list byte) (addrs : list IpAddr) : result (list byte) :=
  if zlen query <? 12 then Err "bad query"
  else
    header ← slice_to query 12;
    let header := <[7%nat := u8 (zlen addrs)]> (<[6%nat := x00]>
                    (<[3%nat := x80]> (<[2%nat := x81]> header))) in
    Ok (header ++ concat (map response_record addrs)).

(** ** Well-formed messages (RFC 1035, section 4) *)

(** A domain name ends at the root or in a pointer to an earlier name. *)
Inductive name_end := Root | Pointer (p : Z).
Record name := mkName {
  name_parts : list (list byte);
  name_tail : name_end;
}.
Record question := mkQuestion {
  q_name : name;
  q_type : Z;
  q_class : Z;
}.
Record resource := mkResource {
  r_name : name;
  r_type : Z;
  r_class : Z;
  r_ttl : Z;
  r_data : list byte;
}.
Record message := mkMessage {
  m_id : Z;
  m_flags : Z;
  m_questions : list question;
  m_answers : list resource;
  m_authority : Z;
  m_additional : Z;
  m_rest : list byte;
}.

Definition write_tail (t : name_end) : list byte :=
  match t with Root => [x00] | Pointer p => be_encode 2 (49152 + p) end.
Definition write_name (n : name) : list byte :=
  concat (map (fun l => u8 (zlen l) :: l) (name_parts n)) ++ write_tail (name_tail n).
Definition write_question (q : question) : list byte :=
  write_name (q_name q) ++ be_encode 2 (q_type q) ++ be_encode 2 (q_class q).
Definition write_resource (r : resource) : list byte :=
  write_name (r_name r) ++ be_encode 2 (r_type r) ++ be_encode 2 (r_class r)
  ++ be_encode 4 (r_ttl r) ++ be_encode 2 (zlen (r_data r)) ++ r_data r.
Definition write_message (m : message) : list byte :=
  be_encode 2 (m_id m) ++ be_encode 2 (m_flags m)
  ++ be_encode 2 (zlen (m_questions m)) ++ be_encode 2 (zlen (m_answers m))
  ++ be_encode 2 (m_authority m) ++ be_encode 2 (m_additional m)
  ++ concat (map write_question (m_questions m))
  ++ concat (map write_resource (m_answers m)) ++ m_rest m.

Definition tail_ok (t : name_end) : Prop :=
  match t with Root => True | Pointer p => 0 <= p < 2 ^ 14 end.
Definition name_ok (n : name) : Prop :=
  Forall (fun l => 1 <= zlen l <= 63) (name_parts n) /\ tail_ok (name_tail n).
Definition resource_ok (r : resource) : Prop :=
  name_ok (r_name r) /\ in_u16 (r_type r) /\ in_u16 (zlen (r_data r)).
Definition message_ok (m : message) : Prop :=
  Forall (fun q => name_ok (q_name q)) (m_questions m) /\ Forall resource_ok (m_answers m) /\
  in_u16 (zlen (m_questions m)) /\ in_u16 (zlen (m_answers m)).

(** The address in an A or AAAA record. *)
Definition resource_addr (r : resource) : option IpAddr :=
  if (r_type r =? 1) && (zlen (r_data r) =? 4) then Some (V4 (be_decode (r_data r)))
  else if (r_type r =? 28) && (zlen (r_data r) =? 16) then Some (V6 (be_decode (r_data r)))
  else None.

(** ** Reading at a position *)

Lemma u16_at_app pre v rest : in_u16 v ->
  u16_at (pre ++ be_encode 2 v ++ rest) (zlen pre) = Ok v.
Proof.
  intros Hv. unfold u16_at, be_encode. cbn [app]. rewrite index_app. cbn [mbind result_bind].
  rewrite (cons_middle _ pre), (app_assoc pre).
  replace (zlen pre + 1) with (zlen (pre ++ [u8 (Z.shiftr v (8 * Z.of_nat 1))]))
    by (rewrite zlen_app, zlen_cons, zlen_nil; lia).
  rewrite index_app. cbn [mbind result_bind]. f_equal. rewrite !bz_u8.
  unfold in_u16 in Hv. rewrite !Z.shiftr_div_pow2 by lia.
  change (8 * Z.of_nat 1) with 8. change (8 * Z.of_nat 0) with 0.
  change (2 ^ 8) with 256. change (2 ^ 0) with 1. change (2 ^ 16) with 65536 in Hv.
  Z.to_euclidean_division_equations. lia.
Qed.

Lemma slice_at_app pre d rest : slice_at (pre ++ d ++ rest) (zlen pre) (zlen d) = Ok d.
Proof.
  unfold slice_at. rewrite app_assoc, <-zlen_app, slice_to_app. cbn [mbind result_bind].
  apply slice_from_app.
Qed.

Lemma length_byte_low v : 0 <= v < 64 -> Z.land v 192 = 0.
Proof.
  intros Hv. apply Z.eqb_eq.
  apply (all_below_spec 64 (fun v => Z.land v 192 =? 0) 0); [vm_compute; done|lia].
Qed.
Lemma length_byte_high v : 192 <= v < 256 -> Z.land v 192 = 192.
Proof.
  intros Hv. apply Z.eqb_eq.
  apply (all_below_spec 64 (fun v => Z.land v 192 =? 192) 192); [vm_compute; done|lia].
Qed.

Lemma skip_tail_at fuel pre t rest : tail_ok t ->
  skip_name_loop (S fuel) (pre ++ write_tail t ++ rest) (zlen pre) = Ok (zlen pre + zlen (write_tail t)).
Proof.
  intros Ht. cbn [skip_name_loop].
  destruct t as [|p]; cbn [write_tail]; unfold be_encode; cbn [app].
  - rewrite (proj2 (Z.leb_gt _ _)) by (rewrite zlen_app, ?zlen_cons; pose proof (zlen_nonneg rest); lia).
    rewrite index_app. done.
  - rewrite (proj2 (Z.leb_gt _ _)) by (rewrite zlen_app, ?zlen_cons; pose proof (zlen_nonneg rest); lia).
    rewrite index_app. cbn [mbind result_bind]. cbn in Ht.
    assert (Hb : 192 <= bz (u8 (Z.shiftr (49152 + p) (8 * Z.of_nat 1))) < 256).
    { rewrite bz_u8, Z.shiftr_div_pow2 by lia. change (2 ^ (8 * Z.of_nat 1)) with 256.
      Z.to_euclidean_division_equations. lia. }
    by rewrite length_byte_high by done.
Qed.

Lemma skip_name_loop_at parts t rest : Forall (fun l => 1 <= zlen l <= 63) parts -> tail_ok t ->
  forall fuel pre, (length parts < fuel)%nat ->
  skip_name_loop fuel (pre ++ write_name (mkName parts t) ++ rest) (zlen pre)
  = Ok (zlen pre + zlen (write_name (mkName parts t))).
Proof.
  intros Hp Ht. unfold write_name. cbn [name_parts name_tail].
  induction Hp as [|l parts Hl Hp IH]; intros [|fuel] pre Hf; simpl in Hf; try lia.
  { apply skip_tail_at, Ht. }
  cbn [map concat]. rewrite <-!app_assoc. cbn [app skip_name_loop].
  rewrite (proj2 (Z.leb_gt _ _)) by
    (rewrite zlen_app, zlen_cons; match goal with |- context [1 + zlen ?r] => pose proof (zlen_nonneg r) end; lia).
  rewrite index_app. cbn [mbind result_bind].
  rewrite bz_u8_small by lia. rewrite length_byte_low by lia.
  rewrite (proj2 (Z.eqb_neq (zlen l) 0)) by lia. cbn match. change (0 =? 192) with false. cbn match.
  set (tl := concat _).
  replace (pre ++ u8 (zlen l) :: l ++ tl ++ write_tail t ++ rest)
    with ((pre ++ u8 (zlen l) :: l) ++ (tl ++ write_tail t) ++ rest) by (rewrite <-!app_assoc; done).
  replace (zlen pre + (1 + zlen l)) with (zlen (pre ++ u8 (zlen l) :: l))
    by (rewrite zlen_app, zlen_cons; lia).
  unfold tl. rewrite IH by lia. f_equal.
  repeat first [rewrite zlen_app | rewrite zlen_cons]. lia.
Qed.

Lemma length_parts n : (length (name_parts n) < length (write_name n))%nat.
Proof.
  unfold write_name. rewrite length_app.
  assert (1 <= length (write_tail (name_tail n)))%nat by (destruct (name_tail n); simpl; lia).
  assert (length (name_parts n) <= length (concat (map (fun l => u8 (zlen l) :: l) (name_parts n))))%nat; [|lia].
  induction (name_parts n) as [|l ls IH]; [done|]. cbn [map concat length].
  rewrite length_app. cbn [length]. lia.
Qed.

Lemma skip_name_at pre n rest : name_ok n ->
  skip_name (pre ++ write_name n ++ rest) (zlen pre) = Ok (zlen (pre ++ write_name n)).
Proof.
  intros [Hp Ht]. unfold skip_name. pose proof (length_parts n) as Hl. destruct n as [parts t].
  rewrite zlen_app. apply skip_name_loop_at; [done..|].
  change (length (name_parts (mkName parts t))) with (length parts) in Hl. rewrite !length_app. lia.
Qed.

Lemma zlen_be_encode n v : zlen (be_encode n v) = Z.of_nat n.
Proof. unfold zlen. by rewrite length_be_encode. Qed.

Lemma skip_questions_at qs : Forall (fun q => name_ok (q_name q)) qs -> forall pre rest,
  skip_questions (length qs) (pre ++ concat (map write_question qs) ++ rest) (zlen pre)
  = Ok (zlen (pre ++ concat (map write_question qs))).
Proof.
  induction 1 as [|q qs Hq _ IH]; intros pre rest.
  { cbn [map concat length skip_questions]. by rewrite app_nil_r. }
  cbn [map concat length skip_questions]. unfold write_question at 1 3. rewrite <-!app_assoc.
  rewrite skip_name_at by done. cbn [mbind result_bind].
  set (p := be_encode 2 _). set (c := be_encode 2 _). set (w := write_name _).
  replace (pre ++ w ++ p ++ c ++ concat (map write_question qs) ++ rest)
    with ((pre ++ w ++ p ++ c) ++ concat (map write_question qs) ++ rest) by (by rewrite <-!app_assoc).
  replace (zlen (pre ++ w) + 4) with (zlen (pre ++ w ++ p ++ c)) by
    (rewrite !zlen_app; unfold p, c; rewrite !zlen_be_encode; lia).
  rewrite IH. unfold write_question. by rewrite <-!app_assoc.
Qed.

(** The fixed part of a resource record after its name. *)
Lemma resource_fields P r k : resource_ok r ->
  let buf := P ++ be_encode 2 (r_type r) ++ be_encode 2 (r_class r) ++ be_encode 4 (r_ttl r)
               ++ be_encode 2 (zlen (r_data r)) ++ r_data r ++ k in
  u16_at buf (zlen P) = Ok (r_type r) /\ u16_at buf (zlen P + 8) = Ok (zlen (r_data r)) /\
  slice_at buf (zlen P + 10) (zlen (r_data r)) = Ok (r_data r) /\
  zlen buf = zlen P + 10 + zlen (r_data r) + zlen k.
Proof.
  intros (_ & Ht & Hd) buf. unfold buf. split_and!.
  - by apply u16_at_app.
  - set (t := be_encode 2 (r_type r)). set (c := be_encode 2 (r_class r)). set (l := be_encode 4 _).
    replace (P ++ t ++ c ++ l ++ be_encode 2 (zlen (r_data r)) ++ r_data r ++ k)
      with ((P ++ t ++ c ++ l) ++ be_encode 2 (zlen (r_data r)) ++ r_data r ++ k)
      by (by rewrite <-!app_assoc).
    replace (zlen P + 8) with (zlen (P ++ t ++ c ++ l))
      by (rewrite !zlen_app; unfold t, c, l; rewrite !zlen_be_encode; lia).
    by apply u16_at_app.
  - set (t := be_encode 2 (r_type r)). set (c := be_encode 2 (r_class r)). set (l := be_encode 4 _).
    set (d := be_encode 2 _).
    replace (P ++ t ++ c ++ l ++ d ++ r_data r ++ k)
      with ((P ++ t ++ c ++ l ++ d) ++ r_data r ++ k) by (by rewrite <-!app_assoc).
    replace (zlen P + 10) with (zlen (P ++ t ++ c ++ l ++ d))
      by (rewrite !zlen_app; unfold t, c, l, d; rewrite !zlen_be_encode; lia).
    apply slice_at_app.
  - rewrite !zlen_app, !zlen_be_encode. lia.
Qed.

Lemma read_answers_at rs : Forall resource_ok rs -> forall pre rest addrs,
  read_answers (length rs) (pre ++ concat (map write_resource rs) ++ rest) (zlen pre) addrs
  = Ok (addrs ++ omap resource_addr rs).
Proof.
  induction 1 as [|r rs Hr _ IH]; intros pre rest addrs.
  { cbn. by rewrite app_nil_r. }
  cbn [map concat]. rewrite <-app_assoc. set (k := concat _ ++ rest).
  pose proof (skip_name_at pre (r_name r)
    (be_encode 2 (r_type r) ++ be_encode 2 (r_class r) ++ be_encode 4 (r_ttl r)
       ++ be_encode 2 (zlen (r_data r)) ++ r_data r ++ k) (proj1 Hr)) as H0.
  destruct (resource_fields (pre ++ write_name (r_name r)) r k Hr) as (H1 & H2 & H3 & H4).
  assert (Hb : (pre ++ write_resource r ++ k)
    = pre ++ write_name (r_name r) ++ be_encode 2 (r_type r) ++ be_encode 2 (r_class r)
        ++ be_encode 4 (r_ttl r) ++ be_encode 2 (zlen (r_data r)) ++ r_data r ++ k)
    by (unfold write_resource; by rewrite <-!app_assoc).
  rewrite <-(app_assoc pre), <-Hb in H1, H2, H3, H4. rewrite <-Hb in H0.
  cbn [length read_answers]. rewrite H0. cbn [mbind result_bind].
  set (P := pre ++ write_name (r_name r)) in *.
  pose proof (zlen_nonneg k). pose proof (zlen_nonneg (r_data r)).
  rewrite (proj2 (Z.ltb_ge _ _)) by lia. rewrite H1, H2. cbn [mbind result_bind].
  rewrite (proj2 (Z.ltb_ge _ _)) by lia.
  assert (Hnext : zlen P + 10 + zlen (r_data r) = zlen (pre ++ write_resource r)).
  { unfold P, write_resource. rewrite !zlen_app, !zlen_be_encode. lia. }
  rewrite Hnext. cbn [omap list_omap]. unfold resource_addr at 1.
  destruct (_ && _) eqn:E1; [|destruct ((r_type r =? 28) && _) eqn:E2]; bool_props;
    try (match goal with H : zlen (r_data r) = ?n |- _ => rewrite <-H, H3 end);
    cbn [mbind result_bind]; unfold k; rewrite (app_assoc pre), IH; by rewrite <-?app_assoc.
Qed.

(** ** Any input *)

Lemma u16_at_total buf o : 0 <= o -> o + 2 <= zlen buf ->
  exists v, u16_at buf o = Ok v /\ 0 <= v < 65536.
Proof.
  intros H0 H1. unfold u16_at.
  destruct (index_lookup buf o) as (hi & -> & _); [lia|].
  destruct (index_lookup buf (o + 1)) as (lo & -> & _); [lia|]. cbn [mbind result_bind].
  eexists. split; [done|]. pose proof (bz_range hi). pose proof (bz_range lo). lia.
Qed.

Lemma be_decode_range l : 0 <= be_decode l < 2 ^ (8 * zlen l).
Proof.
  unfold be_decode. induction l as [|b l IH] using rev_ind; [done|].
  rewrite foldl_app. cbn [foldl].
  replace (8 * zlen (l ++ [b])) with (8 * zlen l + 8) by (unfold zlen; rewrite length_app; simpl; lia).
  pose proof (zlen_nonneg l). rewrite Z.pow_add_r by lia. pose proof (bz_range b). nia.
Qed.

Lemma slice_at_total buf o n : 0 <= o -> 0 <= n -> o + n <= zlen buf ->
  exists d, slice_at buf o n = Ok d /\ zlen d = n.
Proof.
  intros H0 H1 H2. unfold slice_at. rewrite slice_to_ok by lia. cbn [mbind result_bind].
  assert (Ht : zlen (take (Z.to_nat (o + n)) buf) = o + n) by (apply zlen_take; lia).
  rewrite slice_from_ok by lia. eexists. split; [done|]. rewrite zlen_drop by lia. lia.
Qed.

Lemma skip_name_loop_total buf : forall fuel o, 0 <= o -> Z.max 0 (zlen buf - o) < Z.of_nat fuel ->
  (exists o', skip_name_loop fuel buf o = Ok o' /\ o < o') \/
  skip_name_loop fuel buf o = Err "truncated dns name".
Proof.
  induction fuel as [|fuel IH]; intros o Ho Hf; [lia|]. cbn [skip_name_loop].
  destruct (zlen buf <=? o) eqn:E; [by right|]. bool_props.
  destruct (index_lookup buf o) as (b & -> & _); [lia|]. cbn [mbind result_bind].
  pose proof (bz_range b). destruct (_ =? 192); [left; eexists; split; [done|lia]|].
  destruct (bz b =? 0); [left; eexists; split; [done|lia]|].
  destruct (IH (o + (1 + bz b))) as [(o' & -> & ?)| ->]; [lia..| |by right].
  left. eexists. split; [done|lia].
Qed.

Lemma skip_name_total buf o : 0 <= o ->
  (exists o', skip_name buf o = Ok o' /\ o < o') \/ skip_name buf o = Err "truncated dns name".
Proof. intros Ho. apply skip_name_loop_total; [done|]. unfold zlen. lia. Qed.

Lemma skip_questions_total buf qd : forall o, 0 <= o ->
  (exists o', skip_questions qd buf o = Ok o' /\ o <= o') \/
  skip_questions qd buf o = Err "truncated dns name".
Proof.
  induction qd as [|qd IH]; intros o Ho; cbn [skip_questions]; [left; by eauto with lia|].
  destruct (skip_name_total buf o Ho) as [(o' & -> & ?)| ->]; [|by right]. cbn [mbind result_bind].
  destruct (IH (o' + 4)) as [(o'' & -> & ?)| ->]; [lia| |by right]. left. eexists. split; [done|lia].
Qed.

Lemma read_answers_total buf an : forall o addrs, 0 <= o -> Forall ip_wf addrs ->
  (exists l, read_answers an buf o addrs = Ok l /\ Forall ip_wf l) \/
  read_answers an buf o addrs = Err "truncated dns name".
Proof.
  induction an as [|an IH]; intros o addrs Ho Ha; cbn [read_answers]; [left; by eauto|].
  destruct (skip_name_total buf o Ho) as [(o' & -> & ?)| ->]; [|by right]. cbn [mbind result_bind].
  destruct (zlen buf <? o' + 10) eqn:E; [left; by eauto|]. bool_props.
  destruct (u16_at_total buf o') as (t & -> & ?); [lia..|].
  destruct (u16_at_total buf (o' + 8)) as (n & -> & ?); [lia..|]. cbn [mbind result_bind].
  destruct (zlen buf <? o' + 10 + n) eqn:E2; [left; by eauto|]. bool_props.
  destruct (_ && _) eqn:C1; [|destruct ((t =? 28) && _) eqn:C2]; bool_props; simplify_eq.
  - destruct (slice_at_total buf (o' + 10) 4) as (d & -> & Hd); [lia..|]. cbn [mbind result_bind].
    apply IH; [lia|]. apply Forall_app_2, Forall_singleton; [done|].
    pose proof (be_decode_range d) as Hr. rewrite Hd in Hr. exact Hr.
  - destruct (slice_at_total buf (o' + 10) 16) as (d & -> & Hd); [lia..|]. cbn [mbind result_bind].
    apply IH; [lia|]. apply Forall_app_2, Forall_singleton; [done|].
    pose proof (be_decode_range d) as Hr. rewrite Hd in Hr. exact Hr.
  - cbn [mbind result_bind]. apply IH; [lia|done].
Qed.

Lemma parse_response_total buf :
  (exists l, parse_response buf = Ok l /\ Forall ip_wf l) \/
  parse_response buf = Err "truncated dns name".
Proof.
  unfold parse_response. destruct (zlen buf <? 12) eqn:E; [left; by eauto|]. bool_props.
  destruct (u16_at_total buf 4) as (qd & -> & _); [lia..|].
  destruct (u16_at_total buf 6) as (an & -> & _); [lia..|]. cbn [mbind result_bind].
  destruct (skip_questions_total buf (Z.to_nat qd) 12) as [(o & -> & ?)| ->]; [lia| |by right].
  cbn [mbind result_bind]. apply read_answers_total; [lia|done].
Qed.

Lemma parse_write_message m : message_ok m ->
  parse_response (write_message m) = Ok (omap resource_addr (m_answers m)).
Proof.
  intros (Hq & Ha & Hnq & Hna). unfold parse_response, write_message.
  set (i := be_encode 2 (m_id m)). set (g := be_encode 2 (m_flags m)).
  set (u := be_encode 2 (m_authority m)). set (v := be_encode 2 (m_additional m)).
  set (nq := be_encode 2 (zlen (m_questions m))). set (na := be_encode 2 (zlen (m_answers m))).
  set (qs := concat (map write_question _)). set (rs := concat (map write_resource _)).
  set (buf := i ++ _).
  assert (Hu1 : u16_at buf 4 = Ok (zlen (m_questions m))).
  { replace buf with ((i ++ g) ++ nq ++ na ++ u ++ v ++ qs ++ rs ++ m_rest m)
      by (unfold buf; by rewrite <-!app_assoc).
    replace 4 with (zlen (i ++ g)) by (rewrite zlen_app; unfold i, g; by rewrite !zlen_be_encode).
    by apply u16_at_app. }
  assert (Hu2 : u16_at buf 6 = Ok (zlen (m_answers m))).
  { replace buf with ((i ++ g ++ nq) ++ na ++ u ++ v ++ qs ++ rs ++ m_rest m)
      by (unfold buf; by rewrite <-!app_assoc).
    replace 6 with (zlen (i ++ g ++ nq))
      by (rewrite !zlen_app; unfold i, g, nq; by rewrite !zlen_be_encode).
    by apply u16_at_app. }
  set (h := i ++ g ++ nq ++ na ++ u ++ v).
  assert (Hh : zlen h = 12).
  { unfold h. rewrite !zlen_app; unfold i, g, nq, na, u, v. by rewrite !zlen_be_encode. }
  assert (Hb : buf = h ++ qs ++ rs ++ m_rest m) by (unfold h, buf; by rewrite <-!app_assoc).
  rewrite (proj2 (Z.ltb_ge (zlen buf) 12)).
  2:{ rewrite Hb, zlen_app, Hh. pose proof (zlen_nonneg (qs ++ rs ++ m_rest m)). lia. }
  rewrite Hu1, Hu2. cbn [mbind result_bind]. rewrite Hb, <-Hh.
  replace (Z.to_nat (zlen (m_questions m))) with (length (m_questions m)) by (unfold zlen; lia).
  replace (Z.to_nat (zlen (m_answers m))) with (length (m_answers m)) by (unfold zlen; lia).
  unfold qs, rs. rewrite skip_questions_at by done. cbn [mbind result_bind].
  by rewrite (app_assoc h), read_answers_at.
Qed.

(** C39.  Reading DNS replies.  On any bytes [parse_response] ends with addresses
    or with the error for a truncated name, and never panics; on a well-formed
    message, whatever its names, compression pointers, other records and
    trailing sections, it returns exactly the addresses of the A and AAAA answer
    records, in order. *)
Theorem parse_response_correct :
  (forall buf, (exists l, parse_response buf = Ok l /\ Forall ip_wf l) \/
               parse_response buf = Err "truncated dns name") /\
  (forall m, message_ok m ->
     parse_response (write_message m) = Ok (omap resource_addr (m_answers m))).
Proof. split; [apply parse_response_total | apply parse_write_message]. Qed.

Definition sample_message : message :=
  mkMessage 4660 33152
    [mkQuestion (mkName [str "example"; str "com"] Root) 1 1]
    [mkResource (mkName [str "www"] (Pointer 12)) 5 1 60 [x00];
     mkResource (mkName [] (Pointer 12)) 1 1 60 [x5d; xb8; xd8; x22];
     mkResource (mkName [] (Pointer 12)) 28 1 60 (replicate 16 x20)] 0 1 (str "extra").

Lemma parse_response_correct_witness :
  parse_response (write_message sample_message)
  = Ok [V4 1572395042; V6 42702100946941297375796029167908167712].
Proof.
  rewrite (proj2 parse_response_correct sample_message).
  - vm_compute. reflexivity.
  - unfold message_ok, resource_ok, name_ok, in_u16. cbn.
    repeat first [split | constructor | vm_compute; lia | vm_compute; congruence ].
Defined.

(** ** Replies the program writes *)

(** [response_record] as a resource record: the name is a pointer to offset 12. *)
Definition answer_resource (ip : IpAddr) : resource :=
  match ip with
  | V4 a => mkResource (mkName [] (Pointer 12)) 1 1 60 (be_encode 4 a)
  | V6 a => mkResource (mkName [] (Pointer 12)) 28 1 60 (be_encode 16 a)
  end.

Lemma response_record_resource ip : response_record ip = write_resource (answer_resource ip).
Proof. destruct ip; unfold response_record, write_resource; cbn [answer_resource r_data]; by rewrite zlen_be_encode. Qed.

Lemma answer_resource_ok ip : resource_ok (answer_resource ip).
Proof.
  unfold resource_ok, name_ok, in_u16.
  destruct ip; cbn [answer_resource r_name r_type r_data name_parts name_tail tail_ok];
    rewrite zlen_be_encode; split_and!; done || lia.
Qed.

Lemma answer_resource_addr ip : ip_wf ip -> resource_addr (answer_resource ip) = Some ip.
Proof.
  unfold resource_addr. destruct ip as [a|a]; cbn [ip_wf answer_resource r_type r_data]; intros H;
    rewrite zlen_be_encode; cbn; by rewrite be_decode_encode.
Qed.

Lemma answers_addrs addrs : Forall ip_wf addrs ->
  omap resource_addr (map answer_resource addrs) = addrs.
Proof.
  induction 1 as [|ip addrs H _ IH]; [done|]. cbn. by rewrite answer_resource_addr, IH.
Qed.

(** The header of a reply: the query's identifier and counts, with flags and the
    number of answers written over. *)
Definition reply_header (query : list byte) (n : Z) : list byte :=
  take 2 query ++ [x81; x80] ++ take 2 (drop 4 query) ++ [x00; u8 n] ++ take 4 (drop 8 query).

Lemma build_response_shape query addrs : 12 <= zlen query ->
  build_response query addrs
  = Ok (reply_header query (zlen addrs) ++ concat (map write_resource (map answer_resource addrs))).
Proof.
  intros H. unfold build_response. rewrite (proj2 (Z.ltb_ge _ _)), slice_to_ok by lia.
  cbn [mbind result_bind]. f_equal.
  rewrite map_map, (map_ext _ _ response_record_resource). f_equal.
  unfold zlen in H. do 12 (destruct query as [|? query]; [simpl in H; lia|]). done.
Qed.

Lemma zlen_reply_header query n : 12 <= zlen query -> zlen (reply_header query n) = 12.
Proof.
  intros H. unfold zlen in *. do 12 (destruct query as [|? query]; [simpl in H; lia|]). done.
Qed.

Lemma reply_counts query n body : 12 <= zlen query -> 0 <= n < 256 ->
  u16_at (reply_header query n ++ body) 4 = u16_at query 4 /\
  u16_at (reply_header query n ++ body) 6 = Ok n.
Proof.
  intros H Hn. unfold zlen in H. do 12 (destruct query as [|? query]; [simpl in H; lia|]).
  split; [done|].
  transitivity (Ok (bz x00 * 256 + bz (u8 n))); [done|]. rewrite bz_u8_small by done. done.
Qed.

(** A header that announces a question, with the first record in its place. *)
Lemma question_misread h ip : zlen h = 12 ->
  skip_questions 1 (h ++ write_resource (answer_resource ip)) 12 = Ok 18 /\
  skip_name (h ++ write_resource (answer_resource ip)) 18 = Ok 19.
Proof.
  intros H. rewrite <-response_record_resource. unfold zlen in H.
  do 12 (destruct h as [|? h]; [simpl in H; lia|]). destruct h; [|simpl in H; lia].
  destruct ip; split; vm_compute; reflexivity.
Qed.

Lemma read_one_foreign buf o o' : skip_name buf o = Ok o' -> 0 <= o ->
  u16_at buf o' = Ok 0 -> read_answers 1 buf o [] = Ok [].
Proof.
  intros Hs Ho Ht. cbn [read_answers]. rewrite Hs. cbn [mbind result_bind].
  destruct (zlen buf <? o' + 10) eqn:E; [done|]. rewrite Ht. bool_props. cbn [mbind result_bind].
  destruct (skip_name_total buf o Ho) as [(k & Hs' & ?)|Hs']; rewrite Hs in Hs'; [|done].
  injection Hs' as Hk.
  destruct (u16_at_total buf (o' + 8)) as (n & -> & _); [lia..|]. cbn [mbind result_bind].
  by destruct (zlen buf <? o' + 10 + n).
Qed.

(** Replies written by [build_response].  The header keeps the query's
    question count, but the question section is left out.  For a query with no
    question the reply reads back as the addresses; for a query with one
    question, the normal case, the reply to a lookup that found an address reads
    back as no address at all. *)
Theorem build_response_lacks_question query addrs :
  12 <= zlen query -> zlen addrs < 256 -> Forall ip_wf addrs ->
  exists reply, build_response query addrs = Ok reply /\
    u16_at reply 4 = u16_at query 4 /\
    (u16_at query 4 = Ok 0 -> parse_response reply = Ok addrs) /\
    (u16_at query 4 = Ok 1 -> length addrs = 1%nat -> parse_response reply = Ok []).
Proof.
  intros Hq Hn Ha. rewrite build_response_shape by done. eexists. split; [done|].
  destruct (reply_counts query (zlen addrs) (concat (map write_resource (map answer_resource addrs))))
    as [H4 H6]; [done|pose proof (zlen_nonneg addrs); lia|].
  pose proof (zlen_reply_header query (zlen addrs) Hq) as Hl.
  set (h := reply_header query (zlen addrs)) in *. split; [done|].
  unfold parse_response. rewrite H4, H6, (proj2 (Z.ltb_ge _ _)).
  2:{ rewrite zlen_app, Hl. pose proof (zlen_nonneg (concat (map write_resource (map answer_resource addrs)))). lia. }
  split; intros Hc; rewrite Hc; cbn [mbind result_bind].
  - change (Z.to_nat 0) with 0%nat. cbn [skip_questions mbind result_bind]. rewrite <-Hl.
    rewrite <-(app_nil_r (concat _)).
    replace (Z.to_nat (zlen addrs)) with (length (map answer_resource addrs))
      by (rewrite length_map; unfold zlen; lia).
    rewrite read_answers_at by (apply Forall_fmap, Forall_true, answer_resource_ok).
    by rewrite answers_addrs.
  - intros H1. destruct addrs as [|ip [|]]; try discriminate H1. cbn [map concat]. rewrite app_nil_r.
    destruct (question_misread h ip Hl) as [Hk Hs]. change (Z.to_nat 1) with 1%nat. rewrite Hk.
    cbn [mbind result_bind]. change (Z.to_nat (zlen [ip])) with 1%nat.
    apply (read_one_foreign _ 18 19); [done|lia|]. rewrite <-response_record_resource.
    unfold zlen in Hl. do 12 (destruct h as [|? h]; [simpl in Hl; lia|]). destruct h; [|simpl in Hl; lia].
    by destruct ip.
Qed.

Lemma build_response_lacks_question_witness :
  exists reply, build_response (build_query (str "example.com") false) [V4 1572395042] = Ok reply /\
    parse_response reply = Ok [].
Proof.
  destruct (build_response_lacks_question (build_query (str "example.com") false) [V4 1572395042])
    as (reply & H1 & _ & _ & H2); [vm_compute; congruence | done | by repeat constructor |].
  exists reply. split; [done|]. apply H2; vm_compute; reflexivity.
Defined.
