(* ===== verification/FakeIp.v ===== *)
(** * The fake-address pool

    [rsb-dns/src/fake_ip.rs]: addresses of a block handed out to host names in
    order of first use.  The pool's two locks are taken one after the other; the
    model is one call at a time. *)
From stdpp Require Import base tactics gmap list strings.
From Stdlib Require Import ZArith Lia.
From Stdlib Require Import Strings.Byte.
From S2P Require Import Prelude Json Text Ip Route.

Local Open Scope Z_scope.

Record FakeIpPool := mkFakeIpPool {
  fp_base : Z;
  fp_mask : Z;
  fp_next : Z;
  fp_domain_map : gmap (list byte) IpAddr;
}.

(** [<Ipv4Addr as FromStr>::from_str]. *)
Definition parse_ipv4 (s : list byte) : option Z :=
  match read_ipv4_addr s with
  | Some (a, []) => Some a
  | _ => None
  end.

Definition pool_new (cidr : list byte) : result FakeIpPool :=
  let '(net, prefix) := default (cidr, str "15") (split_once x2f cidr) in
  fp ← ok_or "invalid IPv4 address syntax" (parse_ipv4 net);
  let prefix := default 15 (parse_uint 8 prefix) in
  let mask := if 32 <=? prefix then 2 ^ 32 - 1
              else u32 (Z.shiftl (2 ^ 32 - 1) ((32 - prefix) `mod` 32)) in
  Ok (mkFakeIpPool fp mask 1 ∅).

Definition allocate (pool : FakeIpPool) (domain : list byte) : IpAddr * FakeIpPool :=
  match fp_domain_map pool !! domain with
  | Some ip => (ip, pool)
  | None =>
      let offset := fp_next pool in
      let ip := V4 (Z.lor (Z.land (fp_base pool) (fp_mask pool))
                          (Z.land offset (2 ^ 32 - 1 - fp_mask pool))) in
      (ip, mkFakeIpPool (fp_base pool) (fp_mask pool) (u32 (offset + 1))
             (<[domain := ip]> (fp_domain_map pool)))
  end.

(** ** What the pool promises *)

Fixpoint allocate_all (pool : FakeIpPool) (domains : list (list byte))
  : list IpAddr * FakeIpPool :=
  match domains with
  | [] => ([], pool)
  | d :: ds =>
      let '(ip, pool) := allocate pool d in
      let '(ips, pool) := allocate_all pool ds in
      (ip :: ips, pool)
  end.

(** Distinct names in order of first use, and the place of a name there. *)
Fixpoint first_uses (seen domains : list (list byte)) : list (list byte) :=
  match domains with
  | [] => seen
  | d :: ds => first_uses (if bool_decide (d ∈ seen) then seen else seen ++ [d]) ds
  end.
Fixpoint place (d : list byte) (l : list (list byte)) : nat :=
  match l with
  | [] => 0
  | x :: l => if bool_decide (x = d) then 0 else S (place d l)
  end.

(** Host bits of a block; a length of 0 or from 32 up leaves none. *)
Definition host_bits (prefix : Z) : Z := if decide (0 < prefix < 32) then 32 - prefix else 0.
(** The [n]-th address of the block of [base]. *)
Definition fake_addr (base prefix n : Z) : Z :=
  let size := 2 ^ host_bits prefix in base / size * size + n `mod` size.

Lemma host_bits_range p : 0 <= host_bits p < 32.
Proof. unfold host_bits. case_decide; lia. Qed.

Lemma land_pool_mask p a : 0 <= p -> 0 <= a < 2 ^ 32 ->
  Z.land a (cidr_mask 32 p) = a / 2 ^ host_bits p * 2 ^ host_bits p.
Proof.
  intros Hp Ha. unfold host_bits. case_decide.
  - by apply land_cidr_mask.
  - rewrite land_full_mask by lia. change (2 ^ 0) with 1. rewrite Z.div_1_r. lia.
Qed.

Lemma pool_mask_value p : 0 <= p -> 2 ^ 32 - 1 - cidr_mask 32 p = 2 ^ host_bits p - 1.
Proof.
  intros Hp. assert (Hm : cidr_mask 32 p = Z.land (2 ^ 32 - 1) (cidr_mask 32 p)).
  { rewrite Z.land_comm, land_ones_mod by lia. symmetry. apply Z.mod_small.
    unfold cidr_mask, wrap. destruct (32 <=? p); [done|]. apply Z.mod_pos_bound. lia. }
  rewrite Hm, land_pool_mask by lia. pose proof (host_bits_range p).
  assert (Hs : 2 ^ 32 = 2 ^ host_bits p * 2 ^ (32 - host_bits p)).
  { rewrite <-Z.pow_add_r by lia. f_equal. lia. }
  set (s := 2 ^ host_bits p) in *. set (t := 2 ^ (32 - host_bits p)) in *.
  assert (0 < s) by (apply Z.pow_pos_nonneg; lia).
  rewrite Hs. assert ((s * t - 1) / s = t - 1) as ->; [|lia].
  replace (s * t - 1) with ((t - 1) * s + (s - 1)) by lia.
  rewrite Z.div_add_l, (Z.div_small (s - 1) s) by lia. lia.
Qed.

Lemma pool_address base p n : 0 <= p -> 0 <= base < 2 ^ 32 -> 0 <= n ->
  Z.lor (Z.land base (cidr_mask 32 p)) (Z.land (u32 n) (2 ^ 32 - 1 - cidr_mask 32 p))
  = fake_addr base p n.
Proof.
  intros Hp Hb Hn. pose proof (host_bits_range p).
  rewrite land_pool_mask, pool_mask_value, land_ones_mod by lia.
  rewrite Z.lor_comm, lor_high_low by (first [lia | apply Z.mod_pos_bound, Z.pow_pos_nonneg; lia]).
  unfold fake_addr. f_equal. unfold u32, wrap.
  replace 32 with (host_bits p + (32 - host_bits p)) at 1 by lia.
  rewrite Z.pow_add_r by lia. apply Z.mod_mod_divide. by exists (2 ^ (32 - host_bits p)); lia.
Qed.

Lemma place_lookup d l : d ∈ l -> l !! place d l = Some d.
Proof.
  induction l as [|x l IH]; [by intros ?%not_elem_of_nil|].
  cbn [place]. case_bool_decide as E; [by subst|]. intros [->|Hd]%elem_of_cons; [done|]. by apply IH.
Qed.

Lemma place_app d l k : d ∈ l -> place d (l ++ k) = place d l.
Proof.
  induction l as [|x l IH]; [by intros ?%not_elem_of_nil|]. cbn [app place].
  case_bool_decide as E; [done|]. intros [->|Hd]%elem_of_cons; [done|]. by rewrite IH.
Qed.

Lemma place_new d l : d ∉ l -> place d (l ++ [d]) = length l.
Proof.
  induction l as [|x l IH]; cbn [app place]; [by rewrite bool_decide_eq_true_2|].
  intros [Hx Hl]%not_elem_of_cons. rewrite bool_decide_eq_false_2 by done. by rewrite IH.
Qed.

Lemma first_uses_prefix ds : forall seen, exists k, first_uses seen ds = seen ++ k.
Proof.
  induction ds as [|d ds IH]; intros seen; cbn [first_uses]; [exists []; by rewrite app_nil_r|].
  case_bool_decide; [apply IH|]. destruct (IH (seen ++ [d])) as [k ->].
  exists (d :: k). by rewrite <-app_assoc.
Qed.

Lemma elem_of_first_uses d ds : forall seen, d ∈ ds -> d ∈ first_uses seen ds.
Proof.
  induction ds as [|x ds IH]; intros seen Hd; [by apply not_elem_of_nil in Hd|]. cbn [first_uses].
  apply elem_of_cons in Hd as [->|Hd]; [|by apply IH].
  destruct (first_uses_prefix ds (if bool_decide (x ∈ seen) then seen else seen ++ [x])) as [k ->].
  apply elem_of_app. left. case_bool_decide; [done|]. apply elem_of_app. right. by left.
Qed.

(** The pool after the names [seen]. *)
Record pool_inv (base p : Z) (seen : list (list byte)) (pool : FakeIpPool) : Prop := {
  inv_base : fp_base pool = base;
  inv_mask : fp_mask pool = cidr_mask 32 p;
  inv_next : fp_next pool = u32 (1 + zlen seen);
  inv_map d : fp_domain_map pool !! d =
    (if bool_decide (d ∈ seen)
     then Some (V4 (fake_addr base p (1 + Z.of_nat (place d seen)))) else None);
}.

Section Pool.
Context (base p : Z) (Hbase : 0 <= base < 2 ^ 32) (Hp : 0 <= p).

Lemma allocate_inv seen pool d : pool_inv base p seen pool ->
  let seen' := if bool_decide (d ∈ seen) then seen else seen ++ [d] in
  let '(ip, pool') := allocate pool d in
  ip = V4 (fake_addr base p (1 + Z.of_nat (place d seen'))) /\ pool_inv base p seen' pool'.
Proof.
  intros Hi. unfold allocate. rewrite (inv_map _ _ _ _ Hi d). case_bool_decide as Hd; [done|].
  cbn zeta. rewrite (inv_base _ _ _ _ Hi), (inv_mask _ _ _ _ Hi), (inv_next _ _ _ _ Hi).
  pose proof (zlen_nonneg seen). rewrite pool_address by lia.
  rewrite place_new by done. fold (zlen seen). split; [done|].
  split; cbn [fp_base fp_mask fp_next fp_domain_map]; [done..| |].
  - rewrite zlen_app. unfold u32, wrap. rewrite Z.add_mod_idemp_l by lia. f_equal. change (zlen [d]) with 1. lia.
  - intros d'. destruct (decide (d = d')) as [<-|Hne].
    + rewrite lookup_insert_eq, place_new, bool_decide_eq_true_2 by (done || apply elem_of_app; right; by left).
      done.
    + rewrite lookup_insert_ne, (inv_map _ _ _ _ Hi) by done. case_bool_decide as Hd'.
      * rewrite place_app, bool_decide_eq_true_2 by (done || apply elem_of_app; by left). done.
      * rewrite bool_decide_eq_false_2; [done|].
        intros [?|?%list_elem_of_singleton]%elem_of_app; congruence.
Qed.

Lemma allocate_all_spec ds : forall seen pool, pool_inv base p seen pool ->
  (allocate_all pool ds).1
  = map (fun d => V4 (fake_addr base p (1 + Z.of_nat (place d (first_uses seen ds))))) ds.
Proof.
  induction ds as [|d ds IH]; intros seen pool Hi; [done|]. cbn [allocate_all map first_uses].
  pose proof (allocate_inv seen pool d Hi) as Ha. cbn zeta in Ha.
  destruct (allocate pool d) as [ip pool']. destruct Ha as [-> Hi'].
  specialize (IH _ _ Hi'). destruct (allocate_all pool' ds) as [ips pool'']. cbn [fst] in *.
  set (seen' := if bool_decide _ then _ else _) in *. rewrite IH. f_equal. do 3 f_equal.
  destruct (first_uses_prefix ds seen') as [k ->]. rewrite place_app; [done|].
  unfold seen'. case_bool_decide; [done|]. apply elem_of_app. right. by left.
Qed.
End Pool.

Lemma fake_addr_inj base p m n : let size := 2 ^ host_bits p in
  fake_addr base p m = fake_addr base p n <-> m `mod` size = n `mod` size.
Proof. unfold fake_addr. cbn zeta. lia. Qed.

Lemma mod_small_inj s a b : 0 <= a < s -> 0 <= b < s -> (1 + a) `mod` s = (1 + b) `mod` s -> a = b.
Proof.
  intros Ha Hb Hm. pose proof (Z.div_mod (1 + a) s). pose proof (Z.div_mod (1 + b) s).
  assert (a - b = s * ((1 + a) / s - (1 + b) / s)) by lia.
  assert ((1 + a) / s - (1 + b) / s = 0) by nia. lia.
Qed.

Lemma pool_new_inv base p : 0 <= base < 2 ^ 32 -> 0 <= p < 256 ->
  exists pool, pool_new (show_ipv4 base ++ x2f :: show_uint p) = Ok pool /\ pool_inv base p [] pool.
Proof.
  intros Hb Hp. assert (Hr : parse_ipv4 (show_ipv4 base) = Some base).
  { unfold parse_ipv4. by rewrite <-(app_nil_r (show_ipv4 base)), read_show_ipv4. }
  unfold pool_new. rewrite split_once_app by apply (show_ip_no_slash (V4 base)).
  cbn [default from_option id]. rewrite Hr, parse_show_u8 by done.
  cbn [ok_or mbind result_bind default from_option id]. eexists. split; [done|]. split; try done.
Qed.

(** Fake addresses.  A pool made for a block [base/p] gives each name the
    address of its number in the order of first use, counted from 1 and taken
    modulo the size of the block, again at every later use.  So as long as there
    are at most as many names as addresses, different names have different
    addresses; after that addresses are handed out again and belong to several
    names at once (lengths 0 and 32 leave one address for all names). *)
Theorem fake_ip_assignment base p ds : 0 <= base < 2 ^ 32 -> 0 <= p < 256 ->
  let number d := 1 + Z.of_nat (place d (first_uses [] ds)) in
  let size := 2 ^ host_bits p in
  exists pool, pool_new (show_ipv4 base ++ x2f :: show_uint p) = Ok pool /\
    (allocate_all pool ds).1 = map (fun d => V4 (fake_addr base p (number d))) ds /\
    (zlen (first_uses [] ds) <= size -> forall d e, d ∈ ds -> e ∈ ds ->
       fake_addr base p (number d) = fake_addr base p (number e) -> d = e) /\
    (forall d e, number e = number d + size ->
       fake_addr base p (number e) = fake_addr base p (number d)).
Proof.
  intros Hb Hp number size. destruct (pool_new_inv base p Hb Hp) as (pool & Hn & Hi).
  pose proof (host_bits_range p).
  assert (0 < size) by (apply Z.pow_pos_nonneg; lia).
  exists pool. split_and!; [done| | |].
  - apply allocate_all_spec; [done|lia|done].
  - intros Hle d e Hd He. rewrite fake_addr_inj. fold size.
    intros Hm. apply (elem_of_first_uses _ _ []), place_lookup in Hd, He. unfold number in Hm.
    pose proof (lookup_lt_Some _ _ _ Hd). pose proof (lookup_lt_Some _ _ _ He). unfold zlen in Hle.
    assert (place d (first_uses [] ds) = place e (first_uses [] ds)) as Heq; [|congruence].
    apply Nat2Z.inj, (mod_small_inj size); lia.
  - intros d e ->. apply fake_addr_inj. rewrite Z.add_mod, Z.mod_same, Z.add_0_r, Z.mod_mod by (fold size; lia).
    done.
Qed.

Lemma fake_ip_assignment_witness :
  exists pool, pool_new (show_ipv4 3323068416 ++ x2f :: show_uint 31) = Ok pool /\
    (allocate_all pool [str "a.com"; str "b.com"; str "a.com"; str "c.com"]).1
    = [V4 3323068417; V4 3323068416; V4 3323068417; V4 3323068417].
Proof.
  destruct (fake_ip_assignment 3323068416 31 [str "a.com"; str "b.com"; str "a.com"; str "c.com"])
    as (pool & H1 & H2 & _); [lia..|].
  exists pool. split; [exact H1|]. rewrite H2. vm_compute. reflexivity.
Defined.
