(* ===== verification/DnsRouter.v ===== *)
(** * DNS resolution

    [DnsRouter] of [rsb-dns/src/lib.rs] with [resolved_registry.rs], the query
    handler of [rsb-protocol/src/dns_inbound.rs] and the wiring of
    [rsb-protocol/src/build_context.rs].

    Routers are shared ([Arc]) and can reach each other, and themselves, through
    the registry of resolved services, so they live in a store and are named by
    their place in it.  What the network answers is an argument ([DnsNet]); a
    stream is the list of bytes the peer sends on it.  Times are nanoseconds of
    the monotonic clock.  A socket address is its address and port. *)
From stdpp Require Import base tactics gmap list strings countable.
From Stdlib Require Import ZArith Lia.
From Stdlib Require Import Strings.Byte.
From S2P Require Import Prelude Json Text Ip Route DnsWire FakeIp.

Local Open Scope Z_scope.

#[export] Program Instance ip_countable : Countable IpAddr :=
  inj_countable' (fun ip => match ip with V4 a => inl a | V6 a => inr a end)
                 (fun s => match s with inl a => V4 a | inr a => V6 a end) _.
Next Obligation. by intros []. Qed.

(** ** Configuration and state *)

Record DnsServer := mkDnsServer {
  ds_tag : option (list byte);
  ds_address : option (list byte);
  ds_detour : option (list byte);
  ds_raw : Value;
}.
Record DnsOptions := mkDnsOptions {
  do_servers : list DnsServer;
  do_rules : list Value;
  do_final_tag : option (list byte);
  do_strategy : option (list byte);
  do_fakeip : option Value;
}.
Definition default_dns_options : DnsOptions := mkDnsOptions [] [] None None None.

Inductive DnsTransport :=
| Udp (addr : SocketAddr)
| Tcp (addr : SocketAddr)
| Tls (addr : SocketAddr) (sni : list byte)
| Https (url : list byte)
| FakeIp
| Resolved (tag : list byte).

Record DnsServerEntry := mkDnsServerEntry {
  tag : list byte;
  transport : DnsTransport;
  detour : option (list byte);
}.
Record DnsRule := mkDnsRule {
  dr_domain_suffix : list (list byte);
  dr_domain_keyword : list (list byte);
  server_tag : list byte;
}.
Record CachedLookup := mkCachedLookup {
  cl_addrs : list IpAddr;
  cl_at : Z;
}.
Record DnsRouter := mkDnsRouter {
  options : option DnsOptions;
  servers : list DnsServerEntry;
  dns_rules : list DnsRule;
  fakeip : option FakeIpPool;
  reverse_fake : gmap IpAddr (list byte);
  outbounds_set : bool;
  lookup_cache : gmap (list byte) CachedLookup;
  lookup_inflight : gset (list byte);
}.

(** The routers alive, and the registry of resolved services. *)
Record World := mkWorld {
  routers : gmap nat DnsRouter;
  registry : gmap (list byte) nat;
}.

(** The network: a datagram received, the bytes received on a TCP or TLS stream
    after sending some, the body of an HTTPS reply, the system resolver. *)
Record DnsNet := mkDnsNet {
  net_udp : option (list byte) -> SocketAddr -> list byte -> result (list byte);
  net_tcp : option (list byte) -> SocketAddr -> list byte -> result (list byte);
  net_tls : SocketAddr -> list byte -> list byte -> result (list byte);
  net_https : list byte -> result (list byte);
  base64url : list byte -> list byte;
  lookup_host : list byte -> result (list IpAddr);
}.

Definition DNS_CACHE_TTL : Z := 300 * 10 ^ 9.

(** ** Configuration *)

(** [<SocketAddr as FromStr>::from_str]. *)
Definition read_port (s : list byte) : option (Z * list byte) :=
  s ← read_given_char x3a s; read_number 10 65535 (length s) true s.
Definition read_scope_id (s : list byte) : option (Z * list byte) :=
  s ← read_given_char x25 s; read_number 10 (2 ^ 32 - 1) (length s) true s.
Definition read_socket_addr_v4 (s : list byte) : option (SocketAddr * list byte) :=
  '(ip, s) ← read_ipv4_addr s;
  '(port, s) ← read_port s;
  Some (mkSocketAddr (V4 ip) port, s).
Definition read_socket_addr_v6 (s : list byte) : option (SocketAddr * list byte) :=
  s ← read_given_char x5b s;
  '(ip, s) ← read_ipv6_addr s;
  let s := match read_scope_id s with Some (_, s) => s | None => s end in
  s ← read_given_char x5d s;
  '(port, s) ← read_port s;
  Some (mkSocketAddr (V6 ip) port, s).
Definition parse_socket_addr (s : list byte) : option SocketAddr :=
  match or_else (read_socket_addr_v4 s) (read_socket_addr_v6 s) with
  | Some (sa, []) => Some sa
  | _ => None
  end.

(** [str::trim_start_matches] with a string. *)
Definition trim_prefixes (pat : string) (s : list byte) : list byte :=
  strip_all [str pat] (length s) s.

Definition split_host_sni (host : list byte) : list byte * list byte :=
  match split_once x23 host with
  | Some (h, sni) => (h, sni)
  | None => (host, host)
  end.

Section Config.
(** [ToSocketAddrs] on a host and port. *)
Variable to_socket_addrs : list byte -> result (list SocketAddr).

Definition resolve_server_addr (host : list byte) (default_port : Z) : result SocketAddr :=
  match parse_socket_addr host with
  | Some addr => Ok addr
  | None =>
      let target := if contains host [x3a] then host
                    else host ++ [x3a] ++ show_uint default_port in
      addrs ← to_socket_addrs target;
      ok_or "resolve dns server" (head addrs)
  end.

Definition parse_dns_transport (address : list byte) : result DnsTransport :=
  if starts_with address (str "https://") then Ok (Https address)
  else if starts_with address (str "tls://") then
    let '(server, sni) := split_host_sni (trim_prefixes "tls://" address) in
    addr ← resolve_server_addr server 853;
    Ok (Tls addr sni)
  else
    let host := trim_prefixes "local://" (trim_prefixes "tcp://" (trim_prefixes "udp://" address)) in
    if bool_decide (host = str "local") then
      Ok (Udp (mkSocketAddr (V4 134744072) 53))
    else if starts_with address (str "tcp://") then
      addr ← resolve_server_addr host 53; Ok (Tcp addr)
    else match parse_socket_addr host with
    | Some addr => Ok (Udp addr)
    | None =>
        match parse_ip host with
        | Some ip => Ok (Udp (mkSocketAddr ip 53))
        | None => Err "unsupported dns server address"
        end
    end.

Definition parse_server (raw : DnsServer) (index : Z) : result DnsServerEntry :=
  let tag := default (show_uint index) (ds_tag raw) in
  let detour :=
    match or_else (ds_detour raw) (v ← get (ds_raw raw) "detour"; as_str v) with
    | Some [] => None
    | d => d
    end in
  let kind := v ← get (ds_raw raw) "type"; as_str v in
  if bool_decide (kind = Some (str "resolved")) then
    let service := default (str "resolved") (v ← get (ds_raw raw) "service"; as_str v) in
    Ok (mkDnsServerEntry tag (Resolved service) detour)
  else if bool_decide (kind = Some (str "local")) then
    Ok (mkDnsServerEntry tag (Resolved (str "local")) detour)
  else
    address ← ok_or "dns server address"
      (or_else (ds_address raw) (v ← get (ds_raw raw) "address"; as_str v));
    if bool_decide (address = str "fakeip") || bool_decide (address = str "fake-ip") then
      Ok (mkDnsServerEntry tag FakeIp detour)
    else
      transport ← parse_dns_transport address;
      Ok (mkDnsServerEntry tag transport detour).

(** An array of strings, ignoring other elements. *)
Definition string_array (v : option Value) : list (list byte) :=
  match (v ← v; as_array v) with
  | Some arr => omap as_str arr
  | None => []
  end.
Definition parse_rule (raw : Value) : option DnsRule :=
  server_tag ← (v ← get raw "server"; as_str v);
  Some (mkDnsRule (string_array (get raw "domain_suffix"))
                  (string_array (get raw "domain_keyword")) server_tag).

Fixpoint parse_servers (i : Z) (l : list DnsServer) : list DnsServerEntry :=
  match l with
  | [] => []
  | s :: l =>
      match parse_server s i with
      | Ok e => e :: parse_servers (i + 1) l
      | _ => parse_servers (i + 1) l
      end
  end.

Definition router_new (opts : option DnsOptions) : DnsRouter :=
  let opts := default default_dns_options opts in
  let servers := parse_servers 0 (do_servers opts) in
  let fakeip :=
    v ← do_fakeip opts;
    if default true (e ← get v "enabled"; as_bool e) then
      let inet4 := default (str "198.18.0.0/15") (r ← get v "inet4_range"; as_str r) in
      match pool_new inet4 with Ok pool => Some pool | _ => None end
    else None in
  let servers := servers ++
    match fakeip with
    | Some _ => [mkDnsServerEntry (str "fakeip") FakeIp None]
    | None => []
    end in
  mkDnsRouter (Some opts) servers (omap parse_rule (do_rules opts)) fakeip ∅ false ∅ ∅.
End Config.

(** ** Queries *)

(** A length-prefixed message on a stream ([read_exact] twice). *)
Definition read_framed (stream : list byte) : result (list byte) :=
  if zlen stream <? 2 then Err "early eof"
  else
    let resp_len := be_decode (take 2 stream) in
    let rest := drop 2 stream in
    if zlen rest <? resp_len then Err "early eof"
    else Ok (take (Z.to_nat resp_len) rest).
Definition framed (query : list byte) : list byte := be_encode 2 (u16 (zlen query)) ++ query.

Section Net.
Variable net : DnsNet.

Definition query_udp_raw (server : SocketAddr) (query : list byte) (detour : option (list byte))
    (outbounds : bool) : result (list byte) :=
  match detour with
  | Some _ =>
      if outbounds then reply ← net_udp net detour server query; Ok (take 4096 reply)
      else Err "dns detour set but outbounds not wired"
  | None => reply ← net_udp net None server query; Ok (take 4096 reply)
  end.
Definition query_tcp_raw (server : SocketAddr) (query : list byte) (detour : option (list byte))
    (outbounds : bool) : result (list byte) :=
  match detour with
  | Some _ =>
      if outbounds then stream ← net_tcp net detour server (framed query); read_framed stream
      else Err "dns detour set but outbounds not wired"
  | None => stream ← net_tcp net None server (framed query); read_framed stream
  end.
Definition query_dot_raw (server : SocketAddr) (sni query : list byte) : result (list byte) :=
  stream ← net_tls net server sni (framed query); read_framed stream.
Definition query_doh_raw (url query : list byte) : result (list byte) :=
  net_https net (url ++ str "?dns=" ++ base64url net query).

Definition query_udp (server : SocketAddr) (host : list byte) (detour : option (list byte))
    (outbounds : bool) : result (list IpAddr) :=
  bytes ← query_udp_raw server (build_query host false) detour outbounds; parse_response bytes.
Definition query_tcp (server : SocketAddr) (host : list byte) (detour : option (list byte))
    (outbounds : bool) : result (list IpAddr) :=
  bytes ← query_tcp_raw server (build_query host false) detour outbounds; parse_response bytes.
Definition query_dot (server : SocketAddr) (sni host : list byte) : result (list IpAddr) :=
  bytes ← query_dot_raw server sni (build_query host false); parse_response bytes.
Definition query_doh (url host : list byte) : result (list IpAddr) :=
  bytes ← query_doh_raw url (build_query host false); parse_response bytes.

(** ** Choosing servers *)

(** The matcher of [rsb-dns], the same text as the router's. *)
Definition dns_domain_matches_suffix (domain suffix : list byte) : bool :=
  let s := trim (trim_start_matches x2e (trim_start_matches x2a suffix)) in
  if is_empty s then false
  else eq_ignore_ascii_case domain s
    || (zlen s <? zlen domain)
       && bool_decide (domain !! Z.to_nat (zlen domain - zlen s - 1) = Some x2e)
       && eq_ignore_ascii_case (drop (Z.to_nat (zlen domain - zlen s)) domain) s.

Definition find_tag (t : list byte) (l : list DnsServerEntry) : option DnsServerEntry :=
  List.find (fun s => bool_decide (tag s = t)) l.

Definition rule_hits (host_l : list byte) (rule : DnsRule) : bool :=
  existsb (dns_domain_matches_suffix host_l) (dr_domain_suffix rule)
  || existsb (fun k => contains host_l (to_ascii_lowercase k)) (dr_domain_keyword rule).
Fixpoint pick_by_rule (entries : list DnsServerEntry) (host_l : list byte) (rules : list DnsRule)
  : option DnsServerEntry :=
  match rules with
  | [] => None
  | rule :: rules =>
      if rule_hits host_l rule then
        match find_tag (server_tag rule) entries with
        | Some entry => Some entry
        | None => pick_by_rule entries host_l rules
        end
      else pick_by_rule entries host_l rules
  end.
Definition pick_server (r : DnsRouter) (host : list byte) : option DnsServerEntry :=
  match pick_by_rule (servers r) (to_ascii_lowercase host) (dns_rules r) with
  | Some entry => Some entry
  | None =>
      or_else (t ← (o ← options r; do_final_tag o); find_tag t (servers r)) (head (servers r))
  end.

Definition is_fakeip (e : DnsServerEntry) : bool :=
  match transport e with FakeIp => true | _ => false end.
Definition candidates (r : DnsRouter) (host : list byte) : list DnsServerEntry :=
  let preferred := tag <$> pick_server r host in
  match preferred with
  | Some t => match find_tag t (servers r) with Some e => [e] | None => [] end
  | None => []
  end
  ++ List.filter (fun e => negb (bool_decide (preferred = Some (tag e))) && negb (is_fakeip e))
       (servers r).

Definition is_ipv4 (ip : IpAddr) : bool := match ip with V4 _ => true | V6 _ => false end.
Definition apply_dns_strategy (addrs : list IpAddr) (opts : option DnsOptions) : list IpAddr :=
  let strategy := default (str "prefer_ipv4") (o ← opts; do_strategy o) in
  if bool_decide (strategy = str "ipv4_only") || bool_decide (strategy = str "prefer_ipv4") then
    let v4 := List.filter is_ipv4 addrs in if is_empty v4 then addrs else v4
  else if bool_decide (strategy = str "ipv6_only") || bool_decide (strategy = str "prefer_ipv6") then
    let v6 := List.filter (fun ip => negb (is_ipv4 ip)) addrs in if is_empty v6 then addrs else v6
  else addrs.

(** ** Lookups *)

Definition set_router (w : World) (id : nat) (r : DnsRouter) : World :=
  mkWorld (<[id := r]> (routers w)) (registry w).
Definition set_fake (r : DnsRouter) (pool : FakeIpPool) (ip : IpAddr) (host : list byte)
  : DnsRouter :=
  mkDnsRouter (options r) (servers r) (dns_rules r) (Some pool) (<[ip := host]> (reverse_fake r))
    (outbounds_set r) (lookup_cache r) (lookup_inflight r).

Definition unwrap_or_default {A} (r : result (list A)) : list A :=
  match r with Ok v => v | _ => [] end.

(** How trying the candidates of a router ends: with an answer, with a move to
    the router of a resolved service, or with nothing. *)
Inductive attempt :=
| Answer (addrs : list IpAddr)
| Jump (id : nat)
| Exhausted.

Fixpoint try_candidates (w : World) (cur : nat) (r : DnsRouter) (host : list byte)
    (entries : list DnsServerEntry) (attempted : list (list byte))
  : attempt * list (list byte) * World :=
  match entries with
  | [] => (Exhausted, attempted, w)
  | e :: entries =>
      if bool_decide (tag e ∈ attempted) then try_candidates w cur r host entries attempted
      else
        let attempted := attempted ++ [tag e] in
        let finish addrs :=
          if is_empty addrs then try_candidates w cur r host entries attempted
          else (Answer (apply_dns_strategy addrs (options r)), attempted, w) in
        match transport e with
        | FakeIp =>
            match fakeip r with
            | Some pool =>
                let '(ip, pool) := allocate pool host in
                (Answer [ip], attempted, set_router w cur (set_fake r pool ip host))
            | None => finish []
            end
        | Udp addr => finish (unwrap_or_default (query_udp addr host (detour e) (outbounds_set r)))
        | Tcp addr => finish (unwrap_or_default (query_tcp addr host (detour e) (outbounds_set r)))
        | Tls addr sni => finish (unwrap_or_default (query_dot addr sni host))
        | Https url => finish (unwrap_or_default (query_doh url host))
        | Resolved t =>
            match registry w !! t with
            | Some id => (Jump id, [], w)
            | None => finish []
            end
        end
  end.

(** The outer loop; [None] when [fuel] rounds are not enough. *)
Fixpoint lookup_loop (fuel : nat) (w : World) (self cur : nat) (pinned : bool)
    (attempted : list (list byte)) (host : list byte) : option (result (list IpAddr) * World) :=
  match fuel with
  | O => None
  | S fuel' =>
      match routers w !! cur with
      | None => Some (Panic "no such router", w)
      | Some r =>
          match try_candidates w cur r host (candidates r host) attempted with
          | (Answer addrs, _, w) => Some (Ok addrs, w)
          | (Jump id, attempted, w) => lookup_loop fuel' w self id true attempted host
          | (Exhausted, attempted, w) =>
              if pinned && is_empty attempted then lookup_loop fuel' w self cur pinned attempted host
              else
                let opts := r ← routers w !! self; options r in
                Some ((fun addrs => apply_dns_strategy addrs opts)
                        <$> lookup_host net (host ++ str ":0"), w)
          end
      end
  end.
Definition lookup_uncached (fuel : nat) (w : World) (self : nat) (host : list byte)
  : option (result (list IpAddr) * World) := lookup_loop fuel w self self false [] host.

(** *** The cache *)

Definition set_cache (r : DnsRouter) (m : gmap (list byte) CachedLookup) : DnsRouter :=
  mkDnsRouter (options r) (servers r) (dns_rules r) (fakeip r) (reverse_fake r)
    (outbounds_set r) m (lookup_inflight r).
Definition set_inflight (r : DnsRouter) (m : gset (list byte)) : DnsRouter :=
  mkDnsRouter (options r) (servers r) (dns_rules r) (fakeip r) (reverse_fake r)
    (outbounds_set r) (lookup_cache r) m.
Definition update_router (f : DnsRouter -> DnsRouter) (id : nat) (w : World) : World :=
  mkWorld (alter f id (routers w)) (registry w).

Definition fresh (now : Z) (c : CachedLookup) : bool :=
  (saturating_sub now (cl_at c) <? DNS_CACHE_TTL) && negb (is_empty (cl_addrs c)).
Definition cache_get (r : DnsRouter) (now : Z) (key : list byte)
  : option (list IpAddr) * DnsRouter :=
  match lookup_cache r !! key with
  | Some c =>
      if fresh now c then (Some (cl_addrs c), r)
      else (None, set_cache r (delete key (lookup_cache r)))
  | None => (None, set_cache r (delete key (lookup_cache r)))
  end.
Definition cache_put (r : DnsRouter) (now : Z) (key : list byte) (addrs : list IpAddr) : DnsRouter :=
  set_cache r (<[key := mkCachedLookup addrs now]> (lookup_cache r)).

(** [lookup] of router [self]; the cache is read at times [t0] and, with the
    gate held, [t1], and written at [t2].  An error leaves the gate behind. *)
Definition lookup (fuel : nat) (w : World) (self : nat) (host : list byte) (t0 t1 t2 : Z)
  : option (result (list IpAddr) * World) :=
  match parse_ip host with
  | Some ip => Some (Ok [ip], w)
  | None =>
      match routers w !! self with
      | None => Some (Panic "no such router", w)
      | Some r =>
          let key := to_ascii_lowercase host in
          match cache_get r t0 key with
          | (Some addrs, r) => Some (Ok addrs, set_router w self r)
          | (None, r) =>
              let r := set_inflight r ({[key]} ∪ lookup_inflight r) in
              match cache_get r t1 key with
              | (Some addrs, r) => Some (Ok addrs, set_router w self r)
              | (None, r) =>
                  '(res, w) ← lookup_uncached fuel (set_router w self r) self host;
                  match res with
                  | Ok addrs =>
                      let put r := if is_empty addrs then r else cache_put r t2 key addrs in
                      let release r := set_inflight r (lookup_inflight r ∖ {[key]}) in
                      Some (Ok addrs, update_router (fun r => release (put r)) self w)
                  | Err e => Some (Err e, w)
                  | Panic e => Some (Panic e, w)
                  end
              end
          end
      end
  end.

Definition reverse_lookup (r : DnsRouter) (ip : IpAddr) : option (list byte) := reverse_fake r !! ip.

(** ** Raw exchange *)

(** The server loop of [exchange_inner]: a reply, an error that ends the call, or
    the router to go on with. *)
Fixpoint exchange_servers (w : World) (r : DnsRouter) (query : list byte) (skip : bool)
    (entries : list DnsServerEntry) : result (list byte) + nat :=
  match entries with
  | [] => inl (Err "no upstream dns server available")
  | e :: entries =>
      let finish res :=
        if is_ok res then inl res else exchange_servers w r query skip entries in
      match transport e with
      | Udp addr => finish (query_udp_raw addr query (detour e) (outbounds_set r))
      | Tcp addr => finish (query_tcp_raw addr query (detour e) (outbounds_set r))
      | Tls addr sni => finish (query_dot_raw addr sni query)
      | Https url => finish (query_doh_raw url query)
      | FakeIp => inl (Err "raw exchange not supported for fakeip server")
      | Resolved t =>
          if skip then exchange_servers w r query skip entries
          else match registry w !! t with
          | Some id => inr id
          | None => inl (Err "resolved service not running")
          end
      end
  end.
Definition exchange_inner (w : World) (self : nat) (query : list byte) (skip_resolved : bool)
  : result (list byte) :=
  let round id skip :=
    match routers w !! id with
    | Some r => exchange_servers w r query skip (servers r)
    | None => inl (Panic "no such router")
    end in
  match round self skip_resolved with
  | inl res => res
  | inr id =>
      match round id true with
      | inl res => res
      | inr _ => Panic "third round"
      end
  end.
Definition exchange (w : World) (self : nat) (query : list byte) : result (list byte) :=
  exchange_inner w self query false.
Definition exchange_upstream (w : World) (self : nat) (query : list byte) : result (list byte) :=
  exchange_inner w self query true.

(** [handle_dns_query] of the DNS inbound. *)
Definition handle_dns_query (fuel : nat) (w : World) (self : nat) (query : list byte)
    (t0 t1 t2 : Z) : option (result (list byte) * World) :=
  let fallback :=
    match context "dns query name" (extract_query_name query) with
    | Ok host =>
        '(res, w) ← lookup fuel w self host t0 t1 t2;
        Some (addrs ← res; build_response query addrs, w)
    | Err e => Some (Err e, w)
    | Panic e => Some (Panic e, w)
    end in
  match exchange w self query with
  | Ok reply => if is_empty reply then fallback else Some (Ok reply, w)
  | _ => fallback
  end.
End Net.

(** ** Registry and start-up *)

Definition register_resolved_service (w : World) (t : list byte) (id : nat) : World :=
  mkWorld (routers w) (<[t := id]> (registry w)).
Definition unregister_resolved_service (w : World) (t : list byte) : World :=
  mkWorld (routers w) (delete t (registry w)).
Definition set_outbounds (r : DnsRouter) : DnsRouter :=
  mkDnsRouter (options r) (servers r) (dns_rules r) (fakeip r) (reverse_fake r)
    true (lookup_cache r) (lookup_inflight r).

(** [BuildContext::from_options]: a new router, registered as the service
    [local]. *)
Definition build_context (to_socket_addrs : list byte -> result (list SocketAddr))
    (w : World) (opts : option DnsOptions) : nat * World :=
  let id := base.fresh (dom (routers w) : gset nat) in
  (id, register_resolved_service (set_router w id (router_new to_socket_addrs opts)) (str "local") id).

(** With resolved services skipped the server loop ends the call, so two rounds
    are all there can be. *)
Lemma exchange_second_round net w r query l :
  exists res, exchange_servers net w r query true l = inl res.
Proof.
  induction l as [|e l IH]; cbn [exchange_servers]; [by eauto|].
  destruct (transport e); try destruct (is_ok _); by eauto.
Qed.

(** ** The order of resolution *)

(** The first server of each tag not yet in [seen]. *)
Fixpoint one_per_tag (seen : list (list byte)) (l : list DnsServerEntry) : list DnsServerEntry :=
  match l with
  | [] => []
  | e :: l =>
      if bool_decide (tag e ∈ seen) then one_per_tag seen l
      else e :: one_per_tag (seen ++ [tag e]) l
  end.
(** The picked server, then the other real servers as configured. *)
Definition resolution_order (r : DnsRouter) (host : list byte) : list DnsServerEntry :=
  match pick_server r host with
  | Some e => e :: one_per_tag [tag e] (List.filter (fun e => negb (is_fakeip e)) (servers r))
  | None => []
  end.

(** What a server of a router without resolved services says about a host. *)
Definition server_answer (net : DnsNet) (r : DnsRouter) (host : list byte) (e : DnsServerEntry)
  : list IpAddr :=
  match transport e with
  | FakeIp => match fakeip r with Some pool => [(allocate pool host).1] | None => [] end
  | Udp addr => unwrap_or_default (query_udp net addr host (detour e) (outbounds_set r))
  | Tcp addr => unwrap_or_default (query_tcp net addr host (detour e) (outbounds_set r))
  | Tls addr sni => unwrap_or_default (query_dot net addr sni host)
  | Https url => unwrap_or_default (query_doh net url host)
  | Resolved _ => []
  end.
Definition answers (net : DnsNet) (r : DnsRouter) (host : list byte) (e : DnsServerEntry) : bool :=
  negb (is_empty (server_answer net r host e)).
(** Real answers are subject to the address-family strategy. *)
Definition final_answer (net : DnsNet) (r : DnsRouter) (host : list byte) (e : DnsServerEntry)
  : list IpAddr :=
  if is_fakeip e then server_answer net r host e
  else apply_dns_strategy (server_answer net r host e) (options r).

Lemma find_tag_self r host e : pick_server r host = Some e -> find_tag (tag e) (servers r) = Some e.
Proof.
  assert (Hf : forall t l x, find_tag t l = Some x -> tag x = t).
  { intros t l x H. apply List.find_some in H as [_ H]. by apply bool_decide_eq_true_1 in H. }
  unfold pick_server. intros H.
  destruct (pick_by_rule _ _ _) as [x|] eqn:E.
  - simplify_eq. revert E. generalize (dns_rules r). intros rules.
    induction rules as [|rule rules IH]; cbn [pick_by_rule]; [done|].
    destruct (rule_hits _ rule); [|done].
    destruct (find_tag (server_tag rule) (servers r)) as [y|] eqn:Ey; [|done].
    intros [= <-]. by rewrite (Hf _ _ _ Ey).
  - assert (Hh : head (servers r) = Some e -> find_tag (tag e) (servers r) = Some e).
    { destruct (servers r) as [|x l]; cbn [head]; [done|]. intros [= ->].
      unfold find_tag. cbn [List.find]. by rewrite bool_decide_eq_true_2. }
    destruct (o ← options r; do_final_tag o) as [t|]; cbn [mbind option_bind] in H; [|by apply Hh].
    destruct (find_tag t (servers r)) as [y|] eqn:Ey; cbn [or_else] in H; [|by apply Hh].
    simplify_eq. by rewrite (Hf _ _ _ Ey).
Qed.

Lemma one_per_tag_skip (P : DnsServerEntry -> bool) l : forall seen,
  (forall e, P e = false -> tag e ∈ seen) ->
  one_per_tag seen (List.filter P l) = one_per_tag seen l.
Proof.
  induction l as [|e l IH]; intros seen HP; cbn [List.filter one_per_tag]; [done|].
  destruct (P e) eqn:E; cbn [one_per_tag].
  - case_bool_decide; [by apply IH|]. f_equal. apply IH. intros e' He'.
    apply elem_of_app. left. by apply HP.
  - rewrite bool_decide_eq_true_2 by (by apply HP). by apply IH.
Qed.

Lemma candidates_order r host : one_per_tag [] (candidates r host) = resolution_order r host.
Proof.
  unfold candidates, resolution_order. destruct (pick_server r host) as [e|] eqn:E; cbn [fmap option_fmap option_map].
  - rewrite (find_tag_self r host e E). cbn [app one_per_tag].
    rewrite bool_decide_eq_false_2 by apply not_elem_of_nil. f_equal. cbn [app].
    rewrite <-(one_per_tag_skip (fun e' => negb (bool_decide (Some (tag e) = Some (tag e'))))
                 (List.filter (fun e => negb (is_fakeip e)) (servers r))).
    + f_equal. generalize (servers r). intros l.
      induction l as [|x l IH]; cbn [List.filter]; [done|].
      destruct (is_fakeip x); cbn [negb]; rewrite ?andb_false_r, ?andb_true_r; [done|].
      cbn [List.filter]. destruct (negb _); by rewrite IH.
    + intros e' He'. apply negb_false_iff, bool_decide_eq_true_1 in He'. simplify_eq.
      apply list_elem_of_singleton. congruence.
  - unfold pick_server in E. destruct (pick_by_rule _ _ _); [done|].
    destruct (servers r); [done|].
    exfalso. cbn [head] in E. match type of E with or_else ?x _ = _ => by destruct x end.
Qed.

(** No resolved service that a router refers to is running. *)
Definition no_services (w : World) (l : list DnsServerEntry) : Prop :=
  forall e t, e ∈ l -> transport e = Resolved t -> registry w !! t = None.

Lemma try_candidates_spec net w cur r host l : no_services w l -> forall attempted,
  match List.find (answers net r host) (one_per_tag attempted l) with
  | Some e => exists att,
      try_candidates net w cur r host l attempted =
        (Answer (final_answer net r host e), att,
         match fakeip r with
         | Some pool =>
             if is_fakeip e
             then set_router w cur (set_fake r (allocate pool host).2 (allocate pool host).1 host)
             else w
         | None => w
         end)
  | None => exists att, try_candidates net w cur r host l attempted = (Exhausted, att, w)
  end.
Proof.
  intros Hn. induction l as [|e l IH]; intros attempted; cbn [one_per_tag try_candidates List.find]; [by eauto|].
  assert (Hl : no_services w l) by (intros e' t He'; apply Hn; by right).
  case_bool_decide as Ht; [by apply IH|]. cbn [List.find].
  specialize (IH Hl (attempted ++ [tag e])).
  destruct (answers net r host e) eqn:Ha; unfold answers, server_answer in Ha.
  - unfold final_answer, is_fakeip, server_answer. apply negb_true_iff in Ha.
    destruct (transport e) as [addr|addr|addr sni|url| |t] eqn:Et; try done;
      try (rewrite Ha; destruct (fakeip r); by eauto).
    destruct (fakeip r) as [pool|]; [|done]. destruct (allocate pool host). by eauto.
  - apply negb_false_iff in Ha.
    destruct (transport e) as [addr|addr|addr sni|url| |t] eqn:Et; try (rewrite Ha; exact IH).
    + destruct (fakeip r); [done|exact IH].
    + rewrite (Hn e t) by (by left || done). exact IH.
Qed.

(** The first server of the order with an answer, else the system resolver. *)
Definition resolve (net : DnsNet) (r : DnsRouter) (host : list byte) : result (list IpAddr) :=
  match List.find (answers net r host) (resolution_order r host) with
  | Some e => Ok (final_answer net r host e)
  | None => (fun addrs => apply_dns_strategy addrs (options r)) <$> lookup_host net (host ++ str ":0")
  end.

Lemma candidates_servers r host e : e ∈ candidates r host -> e ∈ servers r.
Proof.
  unfold candidates. intros [H|H]%elem_of_app.
  - destruct (tag <$> pick_server r host) as [t|]; [|by apply not_elem_of_nil in H].
    destruct (find_tag t (servers r)) as [x|] eqn:E; [|by apply not_elem_of_nil in H].
    apply list_elem_of_singleton in H as ->. apply List.find_some in E as [E _].
    by apply list_elem_of_In.
  - apply list_elem_of_In, List.filter_In in H as [H _]. by apply list_elem_of_In.
Qed.

Lemma lookup_uncached_resolves net w self r host fuel :
  routers w !! self = Some r -> no_services w (servers r) ->
  exists w', lookup_uncached net (S fuel) w self host = Some (resolve net r host, w') /\
    is_Some (routers w' !! self).
Proof.
  intros Hr Hn. unfold lookup_uncached. cbn [lookup_loop]. rewrite Hr.
  assert (Hc : no_services w (candidates r host)).
  { intros e t He. apply Hn. by apply (candidates_servers r host). }
  pose proof (try_candidates_spec net w self r host _ Hc []) as H.
  rewrite candidates_order in H. unfold resolve.
  destruct (List.find _ _) as [e|]; destruct H as [att ->].
  - eexists. split; [done|]. destruct (fakeip r) as [pool|]; [|by eauto].
    destruct (is_fakeip e); [|by eauto]. cbn [routers set_router]. rewrite lookup_insert_eq. by eauto.
  - cbn [andb]. rewrite Hr. eexists. split; [done|]. by eauto.
Qed.

Lemma lookup_cached net fuel w self r host addrs at_ t0 t1 t2 :
  parse_ip host = None -> routers w !! self = Some r ->
  lookup_cache r !! to_ascii_lowercase host = Some (mkCachedLookup addrs at_) ->
  addrs <> [] -> t0 < at_ + DNS_CACHE_TTL ->
  lookup net fuel w self host t0 t1 t2 = Some (Ok addrs, w).
Proof.
  intros Hp Hr Hc Ha Ht. unfold lookup, cache_get. rewrite Hp, Hr, Hc.
  assert (fresh t0 (mkCachedLookup addrs at_) = true) as ->.
  { unfold fresh, saturating_sub. cbn [cl_at cl_addrs]. apply andb_true_iff. split; [|by destruct addrs].
    apply Z.ltb_lt. unfold DNS_CACHE_TTL in *. lia. }
  cbn [cl_addrs]. do 2 f_equal. unfold set_router. rewrite insert_id by done. by destruct w.
Qed.

(** C29.  Name resolution.  For a host that is not a literal address, has no cache
    entry, on a router whose resolved services are not running, [lookup] ends
    after one round with the answer of the first server that has one, taken in
    the order: the server picked by the rules, then the remaining real servers as
    configured, one per tag, then the system resolver.  A non-empty answer is
    then returned for the same name, in any spelling of case and whatever the
    network does, for 300 seconds. *)
Theorem lookup_resolves net w self r host fuel t0 t1 t2 :
  parse_ip host = None -> routers w !! self = Some r ->
  lookup_cache r !! to_ascii_lowercase host = None -> no_services w (servers r) ->
  exists w', lookup net (S fuel) w self host t0 t1 t2 = Some (resolve net r host, w') /\
    (forall addrs, resolve net r host = Ok addrs -> addrs <> [] ->
     forall net' fuel' host' t t1' t2',
       to_ascii_lowercase host' = to_ascii_lowercase host -> parse_ip host' = None ->
       t < t2 + DNS_CACHE_TTL ->
       lookup net' fuel' w' self host' t t1' t2' = Some (Ok addrs, w')).
Proof.
  intros Hp Hr Hc Hn.
  set (key := to_ascii_lowercase host) in *.
  set (r1 := set_inflight (set_cache r (delete key (lookup_cache r))) ({[key]} ∪ lookup_inflight r)).
  set (r2 := set_cache r1 (delete key (lookup_cache r1))).
  destruct (lookup_uncached_resolves net (set_router w self r2) self r2 host fuel) as (w' & Hl & [r' Hr']).
  { cbn. apply lookup_insert_eq. }
  { exact Hn. }
  assert (Hlk : lookup net (S fuel) w self host t0 t1 t2 =
    ('(res, w) ← lookup_uncached net (S fuel) (set_router w self r2) self host;
     match res with
     | Ok addrs =>
         let put r := if is_empty addrs then r else cache_put r t2 key addrs in
         let release r := set_inflight r (lookup_inflight r ∖ {[key]}) in
         Some (Ok addrs, update_router (fun r => release (put r)) self w)
     | Err e => Some (Err e, w)
     | Panic e => Some (Panic e, w)
     end)).
  { unfold lookup. rewrite Hp, Hr. fold key. unfold cache_get at 1. rewrite Hc.
    change (lookup_inflight (set_cache r (delete key (lookup_cache r)))) with (lookup_inflight r).
    fold r1. unfold cache_get. rewrite (lookup_delete_eq (lookup_cache r) key : lookup_cache r1 !! key = None).
    done. }
  rewrite Hlk, Hl. cbn [mbind option_bind]. change (resolve net r2 host) with (resolve net r host).
  destruct (resolve net r host) as [addrs|e|e] eqn:Hres; eexists; (split; [done|]); [|done..].
  intros addrs' [= <-] Ha net' fuel' host' t t1' t2' Hk Hp' Ht.
  eapply lookup_cached; [done| | |done|exact Ht].
  - cbn [routers update_router]. rewrite lookup_alter_eq, Hr'. done.
  - rewrite Hk. fold key. destruct addrs; [done|]. cbn. by rewrite lookup_insert_eq.
Qed.

(** A router that answers from an entry two servers down its order. *)
Definition sample_router : DnsRouter :=
  mkDnsRouter (Some default_dns_options)
    [mkDnsServerEntry (str "a") (Udp (mkSocketAddr (V4 16843009) 53)) None;
     mkDnsServerEntry (str "b") (Udp (mkSocketAddr (V4 134744072) 53)) (Some (str "proxy"));
     mkDnsServerEntry (str "c") (Tcp (mkSocketAddr (V4 151587081) 53)) None]
    [mkDnsRule [str "com"] [] (str "b")] None ∅ false ∅ ∅.
Definition sample_net : DnsNet :=
  mkDnsNet (fun _ _ _ => Ok (write_message sample_message))
    (fun _ _ _ => Ok (framed (write_message sample_message)))
    (fun _ _ _ => Err "tls") (fun _ => Err "http") id (fun _ => Err "no such host").
Definition silent_net : DnsNet :=
  mkDnsNet (fun _ _ _ => Err "udp") (fun _ _ _ => Err "tcp") (fun _ _ _ => Err "tls")
    (fun _ => Err "http") id (fun _ => Err "no such host").

Lemma lookup_resolves_witness :
  let w := mkWorld {[ 0%nat := sample_router ]} ∅ in
  exists w', lookup sample_net 1 w 0 (str "www.Example.com") 5 6 7 = Some (Ok [V4 1572395042], w') /\
    lookup silent_net 1 w' 0 (str "WWW.example.com") 1000 1000 1000 = Some (Ok [V4 1572395042], w').
Proof.
  destruct (lookup_resolves sample_net (mkWorld {[ 0%nat := sample_router ]} ∅) 0 sample_router
              (str "www.Example.com") 0 5 6 7) as (w' & H1 & H2).
  - vm_compute. reflexivity.
  - reflexivity.
  - vm_compute. reflexivity.
  - intros e t He Ht. cbn in He. repeat (apply elem_of_cons in He as [->|He]; [done|]).
    by apply not_elem_of_nil in He.
  - exists w'. split; [rewrite H1; vm_compute; reflexivity|].
    apply H2; try done; vm_compute; reflexivity.
Defined.

(** ** Resolved services that refer to their own router *)

Lemma own_service_loops net w self cur r e t host :
  routers w !! cur = Some r -> pick_server r host = Some e -> transport e = Resolved t ->
  registry w !! t = Some cur ->
  forall fuel pinned, lookup_loop net fuel w self cur pinned [] host = None.
Proof.
  intros Hr Hp Ht Hs. induction fuel as [|fuel IH]; intros pinned; [done|].
  cbn [lookup_loop]. rewrite Hr. unfold candidates. rewrite Hp. cbn [fmap option_fmap option_map].
  rewrite (find_tag_self r host e Hp). cbn [app try_candidates].
  rewrite bool_decide_eq_false_2 by apply not_elem_of_nil. rewrite Ht, Hs. apply IH.
Qed.

Lemma lookup_own_service net w self r e t host fuel t0 t1 t2 :
  routers w !! self = Some r -> pick_server r host = Some e -> transport e = Resolved t ->
  registry w !! t = Some self -> lookup_cache r = ∅ -> parse_ip host = None ->
  lookup net fuel w self host t0 t1 t2 = None.
Proof.
  intros Hr Hp Ht Hs Hc Hi. unfold lookup. rewrite Hi, Hr. unfold cache_get.
  rewrite Hc, lookup_empty. cbn [set_cache set_inflight lookup_cache].
  rewrite delete_empty, lookup_empty. unfold lookup_uncached.
  erewrite own_service_loops; [done|apply lookup_insert_eq|exact Hp|exact Ht|exact Hs].
Qed.

(** A configuration that hangs.  At start-up the router is registered as
    the service [local], and a server of type [local] refers to that service.  If
    it is the first server, with no rules and no final server, a lookup of any
    host name goes from the router to itself without end: no number of rounds
    is enough. *)
Theorem local_server_hangs to_socket_addrs net w opts s rest host fuel t0 t1 t2 :
  do_servers opts = s :: rest -> do_rules opts = [] -> do_final_tag opts = None ->
  (v ← get (ds_raw s) "type"; as_str v) = Some (str "local") -> parse_ip host = None ->
  let '(id, w') := build_context to_socket_addrs w (Some opts) in
  lookup net fuel w' id host t0 t1 t2 = None.
Proof.
  intros Hs Hr Hf Ht Hi. unfold build_context. cbn zeta beta iota.
  set (me := base.fresh _). set (r := router_new to_socket_addrs (Some opts)).
  assert (Hsv : exists l e, servers r = e :: l /\ transport e = Resolved (str "local")).
  { unfold r, router_new. cbn [default from_option id servers]. rewrite Hs. cbn [parse_servers].
    unfold parse_server at 1. rewrite Ht, bool_decide_eq_false_2 by done.
    rewrite bool_decide_eq_true_2 by done. cbn [app]. by eauto. }
  destruct Hsv as (l & e & Hsv & He).
  apply (lookup_own_service net _ me r e (str "local")); [apply lookup_insert_eq| |done| |done|done].
  - assert (dns_rules r = []) as Hrules by (unfold r, router_new; cbn; by rewrite Hr).
    assert (options r = Some opts) as Hopts by done.
    unfold pick_server. rewrite Hrules, Hopts. cbn [pick_by_rule mbind option_bind]. rewrite Hf.
    cbn [or_else mbind option_bind]. by rewrite Hsv.
  - cbn. apply lookup_insert_eq.
Qed.

Lemma local_server_hangs_witness :
  let s := mkDnsServer None None None (Object [(str "type", Str (str "local"))]) in
  let '(id, w') := build_context (fun _ => Err "none") (mkWorld ∅ ∅)
                     (Some (mkDnsOptions [s] [] None None None)) in
  lookup sample_net 1000 w' id (str "example.com") 0 0 0 = None.
Proof.
  apply (local_server_hangs (fun _ => Err "none") sample_net (mkWorld ∅ ∅)
           (mkDnsOptions [mkDnsServer None None None (Object [(str "type", Str (str "local"))])] [] None None None)
           (mkDnsServer None None None (Object [(str "type", Str (str "local"))])) []);
    vm_compute; reflexivity.
Defined.
