(* ===== verification/Codec.v ===== *)
(** * Address and datagram codecs

    The encodings of destinations and datagrams shared by the TCP-based
    protocols: [transport.rs] (SOCKS and port-first addresses, Trojan requests),
    [udp_over_tcp.rs], [xudp.rs] and the UDP part of [socks.rs], all under
    [rsb-protocol/src].

    A stream is the list of bytes still to come; reading past its end is the
    error of [read_exact].  Name lookup is an argument.  The two stream codecs
    are instances of one interface, [DatagramStream], against which delivery of
    a whole session is proved. *)
From stdpp Require Import base tactics gmap list strings countable.
From Stdlib Require Import ZArith Lia.
From Stdlib Require Import Strings.Byte.
From S2P Require Import Prelude Json Text Ip DnsWire.

Local Open Scope Z_scope.

#[export] Instance sa_eq_dec : EqDecision SocketAddr.
Proof. solve_decision. Defined.

Definition sa_wf (sa : SocketAddr) : Prop := ip_wf (sa_ip sa) /\ in_u16 (sa_port sa).

(** [AsyncReadExt::read_exact]. *)
Definition read_exact (n : Z) (s : list byte) : result (list byte * list byte) :=
  if zlen s <? n then Err "early eof" else Ok (take (Z.to_nat n) s, drop (Z.to_nat n) s).

(** [octets] and the integer types' [to_be_bytes]. *)
Definition ip_octets (ip : IpAddr) : list byte :=
  match ip with V4 a => be_encode 4 a | V6 a => be_encode 16 a end.
Definition port_bytes (sa : SocketAddr) : list byte := be_encode 2 (sa_port sa).

(** ** [transport.rs] *)

Definition encode_socks_address (addr : SocketAddr) : list byte :=
  match sa_ip addr with V4 _ => [x01] | V6 _ => [x04] end
  ++ ip_octets (sa_ip addr) ++ port_bytes addr.

Inductive DecodedSocksAddr :=
| Ip (addr : SocketAddr)
| Domain (host : list byte) (port : Z).

Definition decode_socks_address (data : list byte) : result (DecodedSocksAddr * Z) :=
  match data with
  | [] => Err "empty socks address"
  | atyp :: _ =>
      if (bz atyp =? 1) && (7 <=? zlen data) then
        ip ← slice_at data 1 4;
        port ← u16_at data 5;
        Ok (Ip (mkSocketAddr (V4 (be_decode ip)) port), 7)
      else if (bz atyp =? 4) && (19 <=? zlen data) then
        ip ← slice_at data 1 16;
        port ← u16_at data 17;
        Ok (Ip (mkSocketAddr (V6 (be_decode ip)) port), 19)
      else if bz atyp =? 3 then
        len ← index data 1;
        let len := bz len in
        if zlen data <? 2 + len + 2 then Err "truncated domain socks address"
        else
          host ← slice_at data 2 len;
          host ← context "domain utf8" (from_utf8 host);
          port ← u16_at data (2 + len);
          Ok (Domain host port, 2 + len + 2)
      else Err "unsupported socks address type"
  end.

Definition encode_port_first_socksaddr (dest : SocketAddr) : list byte :=
  port_bytes dest ++ match sa_ip dest with V4 _ => [x01] | V6 _ => [x03] end
  ++ ip_octets (sa_ip dest).

Definition hex_digit (v : Z) : byte := digit_char v.
(** [trojan_key], from the 28 bytes of the SHA-224 digest. *)
Definition trojan_key (digest : list byte) : list byte :=
  concat (map (fun b => [hex_digit (Z.shiftr (bz b) 4); hex_digit (Z.land (bz b) 15)]) digest).

Definition TROJAN_CMD_TCP : byte := x01.
Definition TROJAN_CMD_UDP : byte := x03.
Definition crlf : list byte := [x0d; x0a].
Definition encode_trojan_request (key : list byte) (dest : SocketAddr) (command : byte) : list byte :=
  key ++ crlf ++ [command] ++ encode_socks_address dest ++ crlf.
Definition encode_trojan_tcp (key : list byte) (dest : SocketAddr) : list byte :=
  encode_trojan_request key dest TROJAN_CMD_TCP.
Definition encode_trojan_udp (key : list byte) (dest : SocketAddr) : list byte :=
  encode_trojan_request key dest TROJAN_CMD_UDP.

(** ** [socks.rs]: UDP packets *)

Definition encode_socks_udp_packet (payload : list byte) (target : SocketAddr) : list byte :=
  [x00; x00; x00] ++ match sa_ip target with V4 _ => [x01] | V6 _ => [x04] end
  ++ ip_octets (sa_ip target) ++ port_bytes target ++ payload.

Section Lookup.
(** The name resolver, given host and port. *)
Variable lookup_host : list byte -> Z -> result (list SocketAddr).

Definition first_address (host : list byte) (port : Z) : result SocketAddr :=
  addrs ← lookup_host host port; ok_or "resolve host" (head addrs).

(** [decode_socks_udp_packet] into a buffer of [room] bytes: the bytes copied
    and the sender. *)
Definition decode_socks_udp_packet (packet : list byte) (room : Z)
  : result (list byte * SocketAddr) :=
  if zlen packet <? 4 then Err "truncated socks udp packet"
  else
    atyp ← index packet 3;
    '(addr, off) ←
      (if bz atyp =? 1 then
         if zlen packet <? 10 then Err "truncated socks udp ipv4"
         else
           ip ← slice_at packet 4 4;
           port ← u16_at packet 8;
           Ok (mkSocketAddr (V4 (be_decode ip)) port, 10)
       else if bz atyp =? 3 then
         len ← index packet 4;
         let len := bz len in
         if zlen packet <? 5 + len + 2 then Err "truncated socks udp domain"
         else
           host ← slice_at packet 5 len;
           host ← from_utf8 host;
           port ← u16_at packet (5 + len);
           addr ← first_address host port;
           Ok (addr, 5 + len + 2)
       else if bz atyp =? 4 then
         if zlen packet <? 22 then Err "truncated socks udp ipv6"
         else
           ip ← slice_at packet 4 16;
           port ← u16_at packet 20;
           Ok (mkSocketAddr (V6 (be_decode ip)) port, 22)
       else Err "unsupported socks udp atyp");
    payload ← slice_from packet off;
    Ok (take (Z.to_nat (Z.min (zlen payload) room)) payload, addr).

(** ** [udp_over_tcp.rs] *)

Definition udp_encode_frame (buf : list byte) (target : SocketAddr) : list byte :=
  match sa_ip target with V4 _ => [x01] | V6 _ => [x04] end
  ++ ip_octets (sa_ip target) ++ port_bytes target ++ be_encode 2 (u16 (zlen buf)) ++ buf.

Definition udp_read_frame (s : list byte) : result (list byte * SocketAddr * list byte) :=
  '(atyp, s) ← read_exact 1 s;
  atyp ← index atyp 0;
  '(addr, s) ←
    (if bz atyp =? 1 then
       '(ip, s) ← read_exact 4 s;
       '(port, s) ← read_exact 2 s;
       Ok (mkSocketAddr (V4 (be_decode ip)) (be_decode port), s)
     else if bz atyp =? 3 then
       '(l, s) ← read_exact 1 s;
       l ← index l 0;
       '(domain, s) ← read_exact (bz l) s;
       '(port, s) ← read_exact 2 s;
       host ← from_utf8 domain;
       addr ← first_address host (be_decode port);
       Ok (addr, s)
     else if bz atyp =? 4 then
       '(ip, s) ← read_exact 16 s;
       '(port, s) ← read_exact 2 s;
       Ok (mkSocketAddr (V6 (be_decode ip)) (be_decode port), s)
     else Err "unsupported atyp");
  '(len_buf, s) ← read_exact 2 s;
  '(payload, s) ← read_exact (be_decode len_buf) s;
  Ok (payload, addr, s).

(** ** [xudp.rs] *)

Definition STATUS_NEW : byte := x01.
Definition STATUS_KEEP : byte := x02.
Definition OPT_DATA : byte := x01.
Definition NET_UDP : byte := x02.

Definition xudp_encode_address (addr : SocketAddr) : list byte :=
  match sa_ip addr with V4 _ => [x01] | V6 _ => [x03] end ++ ip_octets (sa_ip addr).

Definition xudp_meta (dest : SocketAddr) (global_id : list byte) (is_new : bool) : list byte :=
  [x00; x00] ++ [if is_new then STATUS_NEW else STATUS_KEEP] ++ [OPT_DATA] ++ [NET_UDP]
  ++ port_bytes dest ++ xudp_encode_address dest ++ (if is_new then global_id else []).
Definition encode_xudp_frame (payload : list byte) (dest : SocketAddr) (global_id : list byte)
    (is_new : bool) : list byte :=
  let meta := xudp_meta dest global_id is_new in
  be_encode 2 (u16 (zlen meta)) ++ meta ++ be_encode 2 (u16 (zlen payload)) ++ payload.

(** [send_to]: the frame written and the addresses seen after it. *)
Definition xudp_send_to (global_id : list byte) (seen : list SocketAddr) (buf : list byte)
    (target : SocketAddr) : list byte * list SocketAddr :=
  let is_new := negb (bool_decide (target ∈ seen)) in
  let seen := if is_new then target :: seen else seen in
  (encode_xudp_frame buf target global_id is_new, seen).

Definition xudp_decode_address (buf : list byte) : result (list byte * Z) :=
  match buf with
  | [] => Err "empty address"
  | atyp :: _ =>
      if (bz atyp =? 1) && (5 <=? zlen buf) then
        ip ← slice_at buf 1 4; Ok (show_ip (V4 (be_decode ip)), 5)
      else if bz atyp =? 2 then
        len ← index buf 1;
        let len := bz len in
        if zlen buf <? 2 + len then Err "short domain"
        else
          host ← slice_at buf 2 len;
          host ← from_utf8 host;
          Ok (host, 2 + len)
      else if (bz atyp =? 3) && (17 <=? zlen buf) then
        ip ← slice_at buf 1 16; Ok (show_ip (V6 (be_decode ip)), 17)
      else Err "bad atyp"
  end.

Definition resolve_host_port (host : list byte) (port : Z) : result SocketAddr :=
  match parse_ip host with
  | Some ip => Ok (mkSocketAddr ip port)
  | None => first_address host port
  end.

(** [recv_from] of both tunnelled sockets: the next datagram of the queue, cut to
    the caller's buffer. *)
Definition tunnel_recv_from (room : Z) (rx : list (list byte * SocketAddr))
  : result (list byte * SocketAddr) * list (list byte * SocketAddr) :=
  match rx with
  | [] => (Err "tcp udp closed", [])
  | (payload, addr) :: rx =>
      (Ok (take (Z.to_nat (Z.min (zlen payload) room)) payload, addr), rx)
  end.

(** [None] is the answer for frames of other mux sessions. *)
Definition read_xudp_frame (s : list byte) : result (option (list byte * SocketAddr) * list byte) :=
  '(len_buf, s) ← read_exact 2 s;
  '(meta, s) ← read_exact (be_decode len_buf) s;
  if zlen meta <? 6 then Err "short xudp meta"
  else
    let cursor := drop 4 meta in
    net ← index cursor 0;
    if negb (bool_decide (net = NET_UDP)) then
      '(skip, s) ← read_exact 2 s;
      '(_, s) ← read_exact (be_decode skip) s;
      Ok (None, s)
    else
      let cursor := drop 1 cursor in
      if zlen cursor <? 3 then Err "short xudp header"
      else
        port ← u16_at cursor 0;
        rest ← slice_from cursor 2;
        '(host, consumed) ← xudp_decode_address rest;
        _ ← slice_from cursor (2 + consumed);
        '(plen_buf, s) ← read_exact 2 s;
        '(payload, s) ← read_exact (be_decode plen_buf) s;
        dest ← resolve_host_port host port;
        Ok (Some (payload, dest), s).
End Lookup.

(** ** Reading *)

Lemma read_bytes_app l k n : zlen l = n -> read_exact n (l ++ k) = Ok (l, k).
Proof.
  intros <-. unfold read_exact. rewrite (proj2 (Z.ltb_ge _ _)) by (rewrite zlen_app; pose proof (zlen_nonneg k); lia).
  unfold zlen. by rewrite Nat2Z.id, take_app_length, drop_app_length.
Qed.

Lemma read_exact_one b s : read_exact 1 (b :: s) = Ok ([b], s).
Proof. by apply (read_bytes_app [b]). Qed.

Lemma slice_at_ok (l : list byte) off n : 0 <= off -> 0 <= n -> off + n <= zlen l ->
  exists v, slice_at l off n = Ok v.
Proof.
  intros Ho Hn Hl. unfold slice_at. rewrite slice_to_ok by done. cbn [mbind result_bind].
  rewrite slice_from_ok by (rewrite zlen_take by lia; lia). by eexists.
Qed.

Lemma be_decode_u16 v : in_u16 v -> be_decode (be_encode 2 v) = v.
Proof. intros H. by apply be_decode_encode. Qed.

Lemma ip_octets_decode ip : ip_wf ip ->
  be_decode (ip_octets ip) = match ip with V4 a | V6 a => a end.
Proof. destruct ip; intros H; by apply be_decode_encode. Qed.

Lemma zlen_ip_octets ip : zlen (ip_octets ip) = match ip with V4 _ => 4 | V6 _ => 16 end.
Proof. destruct ip; apply zlen_be_encode. Qed.

Lemma zlen_port_bytes sa : zlen (port_bytes sa) = 2.
Proof. apply zlen_be_encode. Qed.

Lemma u16_of_len {A} (l : list A) : zlen l < 2 ^ 16 -> u16 (zlen l) = zlen l.
Proof. intros H. apply Z.mod_small. pose proof (zlen_nonneg l). lia. Qed.

(** A stream reader that returns does not look past what it consumed. *)
Definition extends {A} (f : list byte -> result (A * list byte)) : Prop :=
  forall s t v r, f s = Ok (v, r) -> f (s ++ t) = Ok (v, r ++ t).

Lemma extends_read_exact n : extends (read_exact n).
Proof.
  intros s t v r. unfold read_exact. destruct (zlen s <? n) eqn:E; [done|]. bool_props.
  intros [= <- <-]. pose proof (zlen_nonneg t).
  rewrite (proj2 (Z.ltb_ge _ _)) by (rewrite zlen_app; lia).
  unfold zlen in E. rewrite take_app_le, drop_app_le by lia. done.
Qed.

(** What follows [read_exact] in a reader, applied to its result. *)
Lemma extends_bind {A B} (f : list byte -> result (A * list byte))
    (g : A -> list byte -> result (B * list byte)) :
  extends f -> (forall a, extends (g a)) -> extends (fun s => '(a, s) ← f s; g a s).
Proof.
  intros Hf Hg s t v r. destruct (f s) as [[a s']|e|e] eqn:E; cbn [mbind result_bind]; [|done..].
  rewrite (Hf _ t _ _ E). cbn [mbind result_bind]. apply Hg.
Qed.

Lemma extends_result {A B} (m : result A) (g : A -> list byte -> result (B * list byte)) :
  (forall a, extends (g a)) -> extends (fun s => a ← m; g a s).
Proof. intros Hg s t v r. destruct m; cbn [mbind result_bind]; [apply Hg|done..]. Qed.

Lemma extends_ok {A} (v : A) : extends (fun s => Ok (v, s)).
Proof. intros s t v' r [= <- <-]. done. Qed.

Lemma extends_if {A} (b : bool) (f g : list byte -> result (A * list byte)) :
  extends f -> extends g -> extends (fun s => if b then f s else g s).
Proof. by destruct b. Qed.

Lemma extends_err {A} e : @extends A (fun _ => Err e).
Proof. by intros s t v r. Qed.

Create HintDb readers discriminated.
#[export] Hint Resolve extends_read_exact extends_ok extends_err : readers.
Ltac reader :=
  repeat first
    [ solve [auto with readers]
    | apply extends_bind; [|intros ?]
    | apply extends_result; intros ?
    | apply extends_if ].

(** ** Sessions of datagrams over a stream *)

(** What the sending and the receiving side of a datagram stream promise to each
    other: a frame is read back and leaves the rest of the stream, a reader
    looks no further than its frame, and an empty stream ends the session. *)
Class DatagramStream := {
  ds_state : Type;
  ds_write : ds_state -> list byte -> SocketAddr -> list byte * ds_state;
  ds_read : list byte -> result (option (list byte * SocketAddr) * list byte);
  ds_read_write st p a rest : zlen p < 2 ^ 16 -> sa_wf a ->
    ds_read ((ds_write st p a).1 ++ rest) = Ok (Some (p, a), rest);
  ds_read_extends : extends ds_read;
  ds_read_nil : is_ok (ds_read []) = false;
}.

Section Session.
Context `{DatagramStream}.

(** The bytes of a sequence of [send_to] calls. *)
Fixpoint send_all (st : ds_state) (msgs : list (list byte * SocketAddr)) : list byte :=
  match msgs with
  | [] => []
  | (p, a) :: msgs => let '(frame, st) := ds_write st p a in frame ++ send_all st msgs
  end.
(** The receiving task: frames are handed on until the reader fails or meets a
    frame of another session. *)
Fixpoint receive_loop (fuel : nat) (s : list byte) : list (list byte * SocketAddr) :=
  match fuel with
  | O => []
  | S fuel' =>
      match ds_read s with
      | Ok (Some m, s) => m :: receive_loop fuel' s
      | _ => []
      end
  end.

Definition datagram_ok (m : list byte * SocketAddr) : Prop := zlen m.1 < 2 ^ 16 /\ sa_wf m.2.

Lemma frame_nonempty st p a : zlen p < 2 ^ 16 -> sa_wf a -> (ds_write st p a).1 <> [].
Proof.
  intros Hp Ha E. pose proof (ds_read_write st p a [] Hp Ha) as Hr.
  rewrite E in Hr. cbn [app] in Hr. pose proof ds_read_nil as Hn. by rewrite Hr in Hn.
Qed.

(** A frame cut short is not read. *)
Lemma frame_cut st p a l t : zlen p < 2 ^ 16 -> sa_wf a ->
  (ds_write st p a).1 = l ++ t -> t <> [] -> forall m r, ds_read l <> Ok (m, r).
Proof.
  intros Hp Ha E Ht m r Hr. pose proof (ds_read_write st p a [] Hp Ha) as Hw.
  rewrite E, app_nil_r, (ds_read_extends _ t _ _ Hr) in Hw. injection Hw as _ Hw.
  by apply app_eq_nil in Hw as [_ ?].
Qed.

Lemma receive_sent msgs : Forall datagram_ok msgs -> forall st fuel, (length msgs < fuel)%nat ->
  receive_loop fuel (send_all st msgs) = msgs.
Proof.
  induction 1 as [|[p a] msgs [Hp Ha] _ IH]; intros st [|fuel] Hf; simpl in Hf; try lia.
  - cbn. pose proof ds_read_nil. destruct (ds_read []) as [[[]]|e|e]; done.
  - cbn [send_all receive_loop]. pose proof (ds_read_write st p a) as Hw.
    destruct (ds_write st p a) as [frame st']. cbn [fst] in Hw.
    rewrite Hw by done. by rewrite IH by lia.
Qed.

Lemma receive_cut msgs : Forall datagram_ok msgs -> forall st n fuel,
  receive_loop fuel (take n (send_all st msgs)) `prefix_of` msgs.
Proof.
  induction 1 as [|[p a] msgs [Hp Ha] _ IH]; intros st n [|fuel]; try apply prefix_nil.
  - cbn [send_all receive_loop]. rewrite take_nil. pose proof ds_read_nil.
    destruct (ds_read []) as [[[]]|e|e]; done || apply prefix_nil.
  - cbn [send_all receive_loop]. pose proof (ds_read_write st p a) as Hw.
    pose proof (frame_cut st p a) as Hc.
    destruct (ds_write st p a) as [frame st']. cbn [fst] in Hw, Hc.
    destruct (decide (length frame <= n)%nat) as [Hle|Hlt].
    + rewrite take_app_ge, Hw by done. apply prefix_cons, IH.
    + rewrite take_app_le by lia.
      specialize (Hc (take n frame) (drop n frame) Hp Ha).
      rewrite take_drop in Hc. specialize (Hc eq_refl).
      destruct (ds_read (take n frame)) as [[[m|] r]|e|e]; try apply prefix_nil.
      exfalso. apply (Hc ltac:(intros E; apply (f_equal length) in E; rewrite length_drop in E; simpl in E; lia) (Some m) r). done.
Qed.

Lemma length_send_all msgs : Forall datagram_ok msgs -> forall st,
  (length msgs <= length (send_all st msgs))%nat.
Proof.
  induction 1 as [|[p a] msgs [Hp Ha] _ IH]; intros st; [done|]. cbn [send_all length].
  pose proof (frame_nonempty st p a Hp Ha) as Hn. destruct (ds_write st p a) as [frame st'].
  rewrite length_app. specialize (IH st'). destruct frame; [done|]. simpl. lia.
Qed.
End Session.

Section Instances.
Variable lookup_host : list byte -> Z -> result (list SocketAddr).

Definition udp_read (s : list byte) : result (option (list byte * SocketAddr) * list byte) :=
  '(p, a, s) ← udp_read_frame lookup_host s; Ok (Some (p, a), s).

Lemma udp_read_write p a rest : zlen p < 2 ^ 16 -> sa_wf a ->
  udp_read (udp_encode_frame p a ++ rest) = Ok (Some (p, a), rest).
Proof.
  intros Hp [Hip Hport]. unfold udp_read, udp_read_frame, udp_encode_frame.
  destruct a as [ip port]. cbn [sa_ip sa_port] in *.
  pose proof (zlen_ip_octets ip) as Hl. pose proof (ip_octets_decode ip Hip) as Hd.
  rewrite u16_of_len by done.
  destruct ip as [v|v]; rewrite <-!app_assoc;
    (cbn [app]; rewrite read_exact_one; cbn [mbind result_bind];
     change (index [_] 0) with (Ok x01) || change (index [_] 0) with (Ok x04); cbn [mbind result_bind];
     (change (bz x01 =? 1) with true || (change (bz x04 =? 1) with false;
        change (bz x04 =? 3) with false; change (bz x04 =? 4) with true)); cbn match;
     rewrite (read_bytes_app (ip_octets _)) by done; cbn [mbind result_bind];
     rewrite (read_bytes_app (port_bytes _)) by apply zlen_port_bytes; cbn [mbind result_bind];
     rewrite (read_bytes_app (be_encode 2 _)) by apply zlen_be_encode; cbn [mbind result_bind];
     rewrite be_decode_u16 by (split; [apply zlen_nonneg|done]);
     rewrite (read_bytes_app p) by done; cbn [mbind result_bind];
     rewrite Hd; unfold port_bytes; cbn [sa_port]; by rewrite be_decode_u16).
Qed.

Lemma udp_read_extends : extends udp_read.
Proof.
  unfold udp_read, udp_read_frame.
  apply (extends_bind (fun s => '(atyp, s) ← read_exact 1 s; _) (fun pa s => let '(p, a) := pa in Ok (Some (p, a), s))).
  - reader.
  - intros [p a]. reader.
Qed.

Lemma xudp_decode_encode_address a tail : ip_wf (sa_ip a) ->
  xudp_decode_address (xudp_encode_address a ++ tail)
  = Ok (show_ip (sa_ip a), zlen (xudp_encode_address a)).
Proof.
  intros Ha. pose proof (zlen_nonneg tail). unfold xudp_encode_address, xudp_decode_address.
  pose proof (ip_octets_decode _ Ha) as Hd. pose proof (zlen_ip_octets (sa_ip a)) as Hl.
  destruct (sa_ip a) as [v|v]; cbn [app].
  - change (bz x01 =? 1) with true. rewrite (proj2 (Z.leb_le _ _)) by (rewrite zlen_cons, zlen_app, Hl; lia).
    cbn [andb]. rewrite <-Hl at 1. change 1 with (zlen [x01]).
    rewrite (slice_at_app [x01] (ip_octets (V4 v)) tail : slice_at (x01 :: _ ++ _) _ _ = _).
    cbn [mbind result_bind]. rewrite Hd. by rewrite zlen_cons, Hl.
  - change (bz x03 =? 1) with false. change (bz x03 =? 2) with false. change (bz x03 =? 3) with true.
    rewrite (proj2 (Z.leb_le 17 _)) by (rewrite zlen_cons, zlen_app, Hl; lia).
    cbn [andb]. rewrite <-Hl at 1. change 1 with (zlen [x03]).
    rewrite (slice_at_app [x03] (ip_octets (V6 v)) tail : slice_at (x03 :: _ ++ _) _ _ = _).
    cbn [mbind result_bind]. rewrite Hd. by rewrite zlen_cons, Hl.
Qed.

Lemma zlen_xudp_address a : 5 <= zlen (xudp_encode_address a) <= 17.
Proof.
  unfold xudp_encode_address. pose proof (zlen_ip_octets (sa_ip a)) as Hl.
  rewrite zlen_app. destruct (sa_ip a); rewrite Hl; change (zlen [_]) with 1; lia.
Qed.

Lemma xudp_read_encode p a gid new rest : zlen p < 2 ^ 16 -> sa_wf a -> zlen gid = 8 ->
  read_xudp_frame lookup_host (encode_xudp_frame p a gid new ++ rest) = Ok (Some (p, a), rest).
Proof.
  intros Hp [Hip Hport] Hg. unfold encode_xudp_frame. cbv zeta.
  set (meta := xudp_meta a gid new). set (tail := if new then gid else []).
  assert (Htail : zlen tail <= 8) by (unfold tail; destruct new; [lia|done]).
  pose proof (zlen_xudp_address a) as Hal.
  assert (Hm : exists h, length h = 4%nat /\
    meta = h ++ NET_UDP :: port_bytes a ++ xudp_encode_address a ++ tail).
  { unfold meta, xudp_meta, tail. eexists [_; _; _; _]. split; [done|]. done. }
  destruct Hm as (h & Hh & Hm).
  assert (Hml : zlen meta = 7 + zlen (xudp_encode_address a) + zlen tail).
  { rewrite Hm, zlen_app, zlen_cons, !zlen_app, zlen_port_bytes. unfold zlen at 1. rewrite Hh. lia. }
  pose proof (zlen_nonneg tail). rewrite !u16_of_len by lia. rewrite <-!app_assoc.
  unfold read_xudp_frame.
  rewrite (read_bytes_app (be_encode 2 _)) by apply zlen_be_encode. cbn [mbind result_bind].
  rewrite be_decode_u16 by (split; lia).
  rewrite (read_bytes_app meta) by done. cbn [mbind result_bind].
  rewrite (proj2 (Z.ltb_ge _ _)) by lia.
  assert (Hd : drop 4 meta = NET_UDP :: port_bytes a ++ xudp_encode_address a ++ tail).
  { rewrite Hm, <-Hh. apply drop_app_length. }
  rewrite Hd. change (index (NET_UDP :: _) 0) with (Ok NET_UDP). cbn [mbind result_bind].
  rewrite bool_decide_eq_true_2 by done. cbn [negb skipn]. rewrite !drop_0.
  rewrite (proj2 (Z.ltb_ge _ _)) by (rewrite !zlen_app, zlen_port_bytes; lia).
  rewrite (u16_at_app [] (sa_port a) (xudp_encode_address a ++ tail) Hport
    : u16_at (port_bytes a ++ _) 0 = _).
  cbn [mbind result_bind]. rewrite slice_from_app_eq by apply zlen_port_bytes.
  cbn [mbind result_bind]. rewrite xudp_decode_encode_address by done. cbn [mbind result_bind].
  rewrite (app_assoc (port_bytes a)), slice_from_app_eq by (rewrite zlen_app, zlen_port_bytes; lia).
  cbn [mbind result_bind].
  rewrite (read_bytes_app (be_encode 2 _)) by apply zlen_be_encode. cbn [mbind result_bind].
  rewrite be_decode_u16 by (split; [apply zlen_nonneg|lia]).
  rewrite (read_bytes_app p) by done. cbn [mbind result_bind].
  unfold resolve_host_port. rewrite parse_show_ip by done. by destruct a.
Qed.

Lemma xudp_read_extends : extends (read_xudp_frame lookup_host).
Proof.
  unfold read_xudp_frame. apply extends_bind; [reader|]. intros len.
  apply extends_bind; [reader|]. intros meta. apply extends_if; [reader|].
  apply extends_result. intros net. apply extends_if; [reader|]. apply extends_if; [reader|].
  apply extends_result. intros port. apply extends_result. intros rest.
  apply (extends_result (xudp_decode_address rest) (fun hc s => let '(host, consumed) := hc in _)).
  intros [host consumed]. reader.
Qed.

#[export] Instance udp_over_tcp : DatagramStream := {|
  ds_state := unit;
  ds_write st p a := (udp_encode_frame p a, tt);
  ds_read := udp_read;
  ds_read_write st p a rest := udp_read_write p a rest;
  ds_read_extends := udp_read_extends;
  ds_read_nil := eq_refl;
|}.

(** The state of an XUDP writer is the set of addresses it has announced. *)
Program Definition xudp (gid : list byte) (Hg : zlen gid = 8) : DatagramStream := {|
  ds_state := list SocketAddr;
  ds_write st p a := xudp_send_to gid st p a;
  ds_read := read_xudp_frame lookup_host;
  ds_read_extends := xudp_read_extends;
  ds_read_nil := eq_refl;
|}.
Next Obligation. intros gid Hg st p a rest Hp Ha. by apply xudp_read_encode. Qed.
End Instances.

(** ** Addresses *)

Lemma socks_address_roundtrip a tail : sa_wf a ->
  decode_socks_address (encode_socks_address a ++ tail)
  = Ok (Ip a, zlen (encode_socks_address a)).
Proof.
  intros [Hip Hport]. pose proof (zlen_nonneg tail) as Ht.
  pose proof (ip_octets_decode _ Hip) as Hd. pose proof (zlen_ip_octets (sa_ip a)) as Hl.
  assert (Hw : decode_socks_address (encode_socks_address a ++ tail)
    = Ok (Ip a, 1 + zlen (ip_octets (sa_ip a)) + 2)).
  2:{ rewrite Hw. unfold encode_socks_address. rewrite !zlen_app, zlen_port_bytes.
      destruct (sa_ip a); change (zlen [_]) with 1; do 2 f_equal; lia. }
  unfold encode_socks_address, decode_socks_address. destruct a as [ip port]. cbn [sa_ip sa_port] in *.
  destruct ip as [v|v]; rewrite <-!app_assoc; cbn [app].
  all: match goal with |- context [?b :: ip_octets ?i ++ ?k] =>
    pose proof (slice_at_app [b] (ip_octets i) k : slice_at (b :: _ ++ _) 1 _ = _) as Hs;
    pose proof (u16_at_app (b :: ip_octets i) port tail Hport) as Hu; cbn [app] in Hu
    end.
  all: rewrite Hl in Hs; rewrite zlen_cons, Hl in Hu.
  - change (bz x01 =? 1) with true.
    rewrite (proj2 (Z.leb_le 7 _)) by (rewrite zlen_cons, !zlen_app, Hl, zlen_port_bytes; lia).
    cbn [andb]. rewrite Hs. cbn [mbind result_bind]. change (1 + 4) with 5 in Hu.
    unfold port_bytes. cbn [sa_port]. rewrite Hu. cbn [mbind result_bind]. by rewrite Hd, Hl.
  - change (bz x04 =? 1) with false. change (bz x04 =? 4) with true.
    rewrite (proj2 (Z.leb_le 19 _)) by (rewrite zlen_cons, !zlen_app, Hl, zlen_port_bytes; lia).
    cbn [andb]. rewrite Hs. cbn [mbind result_bind]. change (1 + 16) with 17 in Hu.
    unfold port_bytes. cbn [sa_port]. rewrite Hu. cbn [mbind result_bind]. by rewrite Hd, Hl.
Qed.

(** A domain address cut after its type byte is indexed past its end. *)
Lemma short_domain_panics lookup_host room :
  is_panic (decode_socks_address [x03]) = true
  /\ is_panic (decode_socks_udp_packet lookup_host [x00; x00; x00; x03] room) = true
  /\ is_panic (read_xudp_frame lookup_host
       [x00; x08; x00; x00; x02; x01; x02; x00; x35; x02]) = true.
Proof. done. Qed.

(** A mux frame that is not UDP ends the receiving task. *)
Lemma non_udp_frame_ends lookup_host gid Hg rest fuel :
  receive_loop (H := xudp lookup_host gid Hg) fuel
    ([x00; x06; x00; x01; x02; x01; x01; x00; x00; x00] ++ rest) = [].
Proof.
  destruct fuel as [|fuel]; [done|]. cbn [receive_loop ds_read xudp].
  by rewrite (xudp_read_extends lookup_host [x00; x06; x00; x01; x02; x01; x01; x00; x00; x00] rest None [] eq_refl).
Qed.

(** Sessions of datagrams, over plain TCP tunnels and over XUDP: whatever
    the sequence of [send_to] calls (each datagram below 64 KiB), the receiving
    task on the other end hands on exactly those datagrams, in order, with their
    addresses; when the connection breaks after any number of bytes it has handed
    on a prefix of them, never a truncated or altered datagram. *)
Theorem datagram_sessions lookup_host gid (Hg : zlen gid = 8) msgs : Forall datagram_ok msgs ->
  (let D := udp_over_tcp lookup_host in
   let bytes := send_all (H := D) tt msgs in
   receive_loop (H := D) (S (length bytes)) bytes = msgs
   /\ forall n fuel, receive_loop (H := D) fuel (take n bytes) `prefix_of` msgs)
  /\ (let D := xudp lookup_host gid Hg in
      let bytes := send_all (H := D) [] msgs in
      receive_loop (H := D) (S (length bytes)) bytes = msgs
      /\ forall n fuel, receive_loop (H := D) fuel (take n bytes) `prefix_of` msgs).
Proof.
  intros Hm. split; cbv zeta; (split;
    [apply receive_sent; [done|]; apply le_n_S, length_send_all, Hm
    | intros n fuel; apply receive_cut, Hm]).
Qed.

Definition session_example : list (list byte * SocketAddr) :=
  [(str "query", mkSocketAddr (V4 134744072) 53); (str "", mkSocketAddr (V6 1) 443);
   (str "again", mkSocketAddr (V4 134744072) 53)].

Lemma datagram_sessions_witness :
  (let D := xudp (fun _ _ => Err "no name") (replicate 8 x2a) eq_refl in
   let bytes := send_all (H := D) [] session_example in
   receive_loop (H := D) (S (length bytes)) bytes = session_example).
Proof.
  apply (datagram_sessions (fun _ _ => Err "no name") (replicate 8 x2a) eq_refl session_example).
  repeat constructor; (done || (cbn; lia)).
Defined.

(** ** Seeking in a buffer *)

Lemma be_encode_two v : be_encode 2 v = [u8 (Z.shiftr v 8); u8 v].
Proof. unfold be_encode. by rewrite Z.shiftr_0_r. Qed.
Lemma index_app_eq {A} (l k : list A) x n : zlen l = n -> index (l ++ x :: k) n = Ok x.
Proof. intros <-. apply index_app. Qed.
Lemma slice_at_app_eq (pre d rest : list byte) off n : zlen pre = off -> zlen d = n ->
  slice_at (pre ++ d ++ rest) off n = Ok d.
Proof. intros <- <-. apply slice_at_app. Qed.
Lemma index_skip {A} (l k : list A) n : zlen l <= n -> index (l ++ k) n = index k (n - zlen l).
Proof.
  unfold index, zlen. intros Hn. rewrite lookup_app_r by lia.
  by replace (Z.to_nat n - length l)%nat with (Z.to_nat (n - Z.of_nat (length l))) by lia.
Qed.
Lemma index_next {A} (x : A) k n : 0 < n -> index (x :: k) n = index k (n - 1).
Proof. intros Hn. apply (index_skip [x]). unfold zlen. cbn. lia. Qed.
Lemma slice_at_skip (l k : list byte) o n : zlen l <= o -> 0 <= n ->
  slice_at (l ++ k) o n = slice_at k (o - zlen l) n.
Proof.
  unfold slice_at, slice_to, slice_from. intros Ho Hn. rewrite zlen_app.
  replace (zlen l + zlen k <? o + n) with (zlen k <? o - zlen l + n) by (destruct (_ <? _) eqn:E; symmetry; bool_props; lia).
  destruct (zlen k <? _) eqn:E; [done|]. bool_props. cbn [mbind result_bind].
  assert (0 <= zlen l) by apply zlen_nonneg.
  rewrite take_app_ge by (unfold zlen in *; lia).
  replace (Z.to_nat (o + n) - length l)%nat with (Z.to_nat (o - zlen l + n)) by (unfold zlen in *; lia).
  rewrite zlen_app. rewrite drop_app_ge by (unfold zlen in *; lia).
  replace (Z.to_nat o - length l)%nat with (Z.to_nat (o - zlen l)) by (unfold zlen in *; lia).
  replace (zlen l + zlen (take (Z.to_nat (o - zlen l + n)) k) <? o)
    with (zlen (take (Z.to_nat (o - zlen l + n)) k) <? o - zlen l); [done|].
  destruct (_ <? _) eqn:E2; symmetry; bool_props; lia.
Qed.
Lemma slice_at_next (x : byte) k o n : 0 < o -> 0 <= n -> slice_at (x :: k) o n = slice_at k (o - 1) n.
Proof. intros Ho Hn. apply (slice_at_skip [x]); unfold zlen; cbn; lia. Qed.
Lemma slice_at_here (d rest : list byte) n : zlen d = n -> slice_at (d ++ rest) 0 n = Ok d.
Proof. intros Hd. by apply (slice_at_app_eq [] d rest). Qed.

Lemma u16_at_skip (l k : list byte) n : zlen l <= n -> u16_at (l ++ k) n = u16_at k (n - zlen l).
Proof.
  intros Hn. unfold u16_at. rewrite !index_skip by lia. by replace (n + 1 - zlen l) with (n - zlen l + 1) by lia.
Qed.
Lemma u16_at_next (x : byte) k n : 0 < n -> u16_at (x :: k) n = u16_at k (n - 1).
Proof. intros Hn. apply (u16_at_skip [x]). unfold zlen. cbn. lia. Qed.
Lemma u16_at_here v rest : in_u16 v -> u16_at (be_encode 2 v ++ rest) 0 = Ok v.
Proof.
  intros Hv. rewrite be_encode_two. transitivity (Ok (be_decode (be_encode 2 v))).
  - by rewrite be_encode_two.
  - by rewrite be_decode_u16.
Qed.

(** Walks to the field at a known offset; [solve_len] shows how long the parts are. *)
Ltac seek solve_len :=
  repeat first
    [ rewrite index_next by (solve_len ())
    | rewrite index_skip by (solve_len ())
    | rewrite slice_at_next by (solve_len ())
    | rewrite slice_at_skip by (solve_len ())
    | rewrite u16_at_next by (solve_len ())
    | rewrite u16_at_skip by (solve_len ()) ].
(** The field is at the front of what is left. *)
Ltac sought :=
  match goal with
  | |- context [slice_at _ ?o _] => replace o with 0 by lia; apply slice_at_here; lia
  | |- context [u16_at _ ?o] => replace o with 0 by lia; apply u16_at_here
  | |- context [index _ ?o] => replace o with 0 by lia; reflexivity
  end.
