(* ===== verification/Vless.v ===== *)
(** * VLESS and Trojan servers

    [rsb-protocol/src/vless.rs] (requests, the reader that assembles them, the
    two servers built on it and the response stream of the client),
    [serve_vless_over_tls] of [reality_inbound.rs], [vless_xudp_request_header]
    of [xudp.rs], the addons of [xtls_vision.rs] and [serve_trojan] of
    [trojan.rs].

    A server is a function from what it reads to the events it causes, in order,
    and the session it starts; name lookup and connecting are arguments. *)
From stdpp Require Import base tactics gmap list strings.
From Stdlib Require Import ZArith Lia.
From Stdlib Require Import Strings.Byte.
From S2P Require Import Prelude Json Text Ip DnsWire Users Connections Relay Codec.

Local Open Scope Z_scope.

(** ** Requests *)

(** [xtls_vision.rs] *)
Definition is_vision_flow (flow : option (list byte)) : bool :=
  match flow with
  | Some f => bool_decide (f = str "xtls-rprx-vision")
              || bool_decide (f = str "xtls-rprx-vision-udp443")
  | None => false
  end.
Definition encode_vision_addons (flow : list byte) : list byte :=
  [x0a] ++ [u8 (zlen flow)] ++ flow.

(** [flow.filter(|f| !f.is_empty())] *)
Definition nonempty_flow (flow : option (list byte)) : option (list byte) :=
  match flow with Some [] => None | f => f end.

Definition build_vless_request (uuid : list byte) (dest : SocketAddr) (flow : option (list byte))
    (command : byte) : list byte :=
  [x00] ++ uuid
  ++ match nonempty_flow flow with
     | Some f =>
         if is_vision_flow (Some f) then
           let pb := encode_vision_addons f in [u8 (zlen pb)] ++ pb
         else [u8 (zlen f)] ++ f
     | None => [x00]
     end
  ++ [command] ++ encode_port_first_socksaddr dest.

Definition MUX_ADDR : list byte := str "v1.mux.cool".
Definition MUX_XUDP_PORT : Z := 666.
Definition vless_xudp_request_header (uuid : list byte) (flow : option (list byte)) : list byte :=
  [x00] ++ uuid
  ++ match nonempty_flow flow with Some f => [u8 (zlen f)] ++ f | None => [x00] end
  ++ [x03] ++ be_encode 2 MUX_XUDP_PORT ++ [x02] ++ [u8 (zlen MUX_ADDR)] ++ MUX_ADDR.

Definition vless_request_len (buf : list byte) : result (option Z) :=
  if bool_decide (buf = []) then Ok None
  else
    version ← index buf 0;
    if negb (bz version =? 0) then Err "invalid vless version"
    else if zlen buf <? 1 + 16 + 1 then Ok None
    else
      addon_len ← index buf (1 + 16);
      let base := 1 + 16 + 1 + bz addon_len in
      if zlen buf <? base + 4 then Ok None
      else
        atyp ← index buf (base + 3);
        let addr_start := base + 4 in
        if bz atyp =? 1 then
          if zlen buf <? addr_start + 4 then Ok None else Ok (Some (addr_start + 4))
        else if bz atyp =? 2 then
          if zlen buf <? addr_start + 1 then Ok None
          else
            dl ← index buf addr_start;
            if zlen buf <? addr_start + 1 + bz dl then Ok None
            else Ok (Some (addr_start + (1 + bz dl)))
        else if bz atyp =? 3 then
          if zlen buf <? addr_start + 16 then Ok None else Ok (Some (addr_start + 16))
        else Err "unsupported address type".

(** [read_vless_request] on the results of its reads, of at most 256 bytes each;
    the request and the reads still to come. *)
Fixpoint read_loop (buf : list byte) (reads : list (list byte))
  : result (list byte * list (list byte)) :=
  match reads with
  | [] | [] :: _ => Err "truncated vless request"
  | tmp :: reads =>
      let buf := buf ++ tmp in
      len ← vless_request_len buf;
      match len with
      | Some len => Ok (take (Z.to_nat len) buf, reads)
      | None => if 4096 <? zlen buf then Err "vless request too large" else read_loop buf reads
      end
  end.
Definition read_vless_request (reads : list (list byte)) : result (list byte * list (list byte)) :=
  read_loop [] reads.

Definition read_address (data : list byte) (atyp : byte) : result (list byte * Z) :=
  if bz atyp =? 1 then
    if zlen data <? 4 then Err "truncated ipv4"
    else ip ← slice_at data 0 4; Ok (show_ip (V4 (be_decode ip)), 4)
  else if bz atyp =? 2 then
    if bool_decide (data = []) then Err "truncated domain"
    else
      len ← index data 0;
      if zlen data <? 1 + bz len then Err "truncated domain name"
      else
        host ← slice_at data 1 (bz len);
        host ← from_utf8 host;
        Ok (host, 1 + bz len)
  else if bz atyp =? 3 then
    if zlen data <? 16 then Err "truncated ipv6"
    else ip ← slice_at data 0 16; Ok (show_ip (V6 (be_decode ip)), 16)
  else Err "unsupported address type".

(** [read_vless_ack], once the answer is there. *)
Definition read_vless_ack (s : list byte) : result (list byte) :=
  '(resp, s) ← read_exact 2 s;
  if bool_decide (resp = [x00; x00]) then Ok s else Err "invalid vless response".

(** ** Servers *)

(** What a server does besides reading. *)
Inductive event :=
| Connect (dest : SocketAddr)
| ToClient (bytes : list byte)
| ToRemote (bytes : list byte)
| StartRelay (s : UserRelaySession).

Record Served := mkServed {
  sv_events : list event;
  sv_result : result unit;
  sv_cm : ConnectionManager;
}.

Section Servers.
Context `{UserCrypto}.
Variable lookup_host : list byte -> Z -> result (list SocketAddr).
Variable connect : SocketAddr -> result unit.
(** The time, in seconds. *)
Variable now : Z.

Definition fail {A} (evs : list event) (r : result A) (cm : ConnectionManager) : Served :=
  mkServed evs (_ ← r; Ok tt) cm.

(** The end of every server: admission, then relaying. *)
Definition start_relay (evs : list event) (b : result UserRelaySession * ConnectionManager) : Served :=
  let '(r, cm) := b in
  match r with
  | Ok s => mkServed (evs ++ [StartRelay s]) (Ok tt) cm
  | r => fail evs r cm
  end.

(** The header of a request, from the only read [serve_vless] makes (at most
    512 bytes). *)
Definition parse_vless (users : list (list byte)) (header : list byte)
  : result (list byte * list byte * Z * list byte) :=
  match header with
  | [] => Err "invalid vless version"
  | v :: cursor =>
      if negb (bz v =? 0) then Err "invalid vless version"
      else if zlen cursor <? 16 then Err "truncated vless uuid"
      else
        uid ← slice_to cursor 16;
        if negb (bool_decide (uid ∈ users)) then Err "vless auth failed"
        else
          cursor ← slice_from cursor 16;
          addon_len ← index cursor 0;
          cursor ← slice_from cursor (1 + bz addon_len);
          if zlen cursor <? 3 then Err "truncated vless header"
          else
            port ← u16_at cursor 1;
            atyp ← index cursor 3;
            cursor ← slice_from cursor 4;
            '(host, consumed) ← read_address cursor atyp;
            cursor ← slice_from cursor consumed;
            Ok (uid, host, port, cursor)
  end.

Definition serve_vless (users : list (list byte)) (inbound_tag : list byte) (header : list byte)
    (cm : ConnectionManager) : Served :=
  match ('(uid, host, port, _) ← parse_vless users header;
         dest ← first_address lookup_host host port;
         Ok (uid, host, dest)) with
  | Ok (uid, host, dest) =>
      match connect dest with
      | Ok _ => start_relay [Connect dest; ToClient [x00; x00]]
                  (begin_for_uuid cm now inbound_tag (Some dest) (Some host) uid)
      | r => fail [] r cm
      end
  | r => fail [] r cm
  end.

(** [serve_vless_over_tls]: the header is the whole request. *)
Definition parse_vless_tls (users : list (list byte)) (header : list byte)
  : result (list byte * list byte * Z * list byte) :=
  match header with
  | [] => Err "invalid vless version"
  | v :: cursor =>
      if negb (bz v =? 0) then Err "invalid vless version"
      else if zlen cursor <? 16 then Err "truncated vless uuid"
      else
        uid ← slice_to cursor 16;
        if negb (bool_decide (uid ∈ users)) then Err "vless auth failed"
        else
          cursor ← slice_from cursor 16;
          addon_len ← index cursor 0;
          cursor ← slice_from cursor (1 + bz addon_len);
          if zlen cursor <? 4 then Err "truncated vless header"
          else
            cmd ← index cursor 0;
            if negb (bz cmd =? 1) then Err "unsupported vless command"
            else
              port ← u16_at cursor 1;
              atyp ← index cursor 3;
              cursor ← slice_from cursor 4;
              '(host, consumed) ← read_address cursor atyp;
              cursor ← slice_from cursor consumed;
              Ok (uid, host, port, cursor)
  end.

Definition serve_vless_over_tls (users : list (list byte)) (inbound_tag : list byte)
    (reads : list (list byte)) (cm : ConnectionManager) : Served :=
  match ('(header, _) ← read_vless_request reads; parse_vless_tls users header) with
  | Ok (uid, host, port, cursor) =>
      let evs := [ToClient [x00; x00]] in
      match first_address lookup_host host port with
      | Ok dest =>
          match connect dest with
          | Ok _ =>
              let evs := evs ++ [Connect dest] ++ (if bool_decide (cursor = []) then [] else [ToRemote cursor]) in
              start_relay evs (begin_for_uuid cm now inbound_tag (Some dest) (Some host) uid)
          | r => fail evs r cm
          end
      | r => fail evs r cm
      end
  | r => fail [] r cm
  end.

(** [serve_trojan] on its only read; the buffer of 4096 bytes is zero beyond it. *)
Definition parse_trojan (users : list (list byte)) (data : list byte)
  : result (list byte * DecodedSocksAddr * list byte) :=
  let n := zlen data in
  let buf := data ++ replicate (Z.to_nat (4096 - n)) x00 in
  if n <? 56 + 2 + 1 + 7 + 2 then Err "truncated trojan header"
  else
    key ← slice_to buf 56;
    key ← context "trojan key utf8" (from_utf8 key);
    if negb (bool_decide (key ∈ users)) then Err "trojan auth failed"
    else
      d ← slice_at buf 56 2;
      if negb (bool_decide (d = crlf)) then Err "invalid trojan header delimiter"
      else
        rest ← slice_from buf 59;
        '(dest, consumed) ← decode_socks_address rest;
        let off := 59 + consumed in
        if n <? off + 2 then Err "invalid trojan header trailer"
        else
          t ← slice_at buf off 2;
          if negb (bool_decide (t = crlf)) then Err "invalid trojan header trailer"
          else
            let off := off + 2 in
            payload ← (if off <? n then slice_at buf off (n - off) else Ok []);
            Ok (key, dest, payload).

Definition resolve_socks (dest : DecodedSocksAddr) : result SocketAddr :=
  match dest with
  | Ip addr => Ok addr
  | Domain host port => first_address lookup_host host port
  end.

Definition serve_trojan (users : list (list byte)) (inbound_tag : list byte) (data : list byte)
    (cm : ConnectionManager) : Served :=
  match ('(key, dest, payload) ← parse_trojan users data;
         dest ← resolve_socks dest;
         Ok (key, dest, payload)) with
  | Ok (key, dest, payload) =>
      match connect dest with
      | Ok _ =>
          let evs := [Connect dest] ++ (if bool_decide (payload = []) then [] else [ToRemote payload]) in
          start_relay evs (begin_for_trojan_hash cm now inbound_tag (Some dest) None key)
      | r => fail [] r cm
      end
  | r => fail [] r cm
  end.
End Servers.

(** ** The form of a request *)

Inductive VHost :=
| VIp (ip : IpAddr)
| VDomain (name : list byte).
Definition vhost_bytes (h : VHost) : list byte :=
  match h with
  | VIp (V4 a) => x01 :: be_encode 4 a
  | VDomain d => x02 :: u8 (zlen d) :: d
  | VIp (V6 a) => x03 :: be_encode 16 a
  end.
Definition vtype (h : VHost) : byte :=
  match h with VIp (V4 _) => x01 | VDomain _ => x02 | VIp (V6 _) => x03 end.
Definition vaddr (h : VHost) : list byte :=
  match h with
  | VIp (V4 a) => be_encode 4 a
  | VDomain d => u8 (zlen d) :: d
  | VIp (V6 a) => be_encode 16 a
  end.
(** The length of the address after its type. *)
Definition vhost_len (h : VHost) : Z :=
  match h with VIp (V4 _) => 4 | VIp (V6 _) => 16 | VDomain d => 1 + zlen d end.
Definition vhost_show (h : VHost) : list byte :=
  match h with VIp ip => show_ip ip | VDomain d => d end.
Definition vhost_ok (h : VHost) : Prop :=
  match h with VIp ip => ip_wf ip | VDomain d => zlen d < 256 /\ utf8_valid d = true end.

Definition vless_wire (uuid addons : list byte) (cmd : byte) (port : Z) (h : VHost) : list byte :=
  (x00 :: uuid) ++ (u8 (zlen addons) :: addons) ++ (cmd :: be_encode 2 port) ++ vhost_bytes h.

(** The addons of a request, as the client writes them. *)
Definition flow_addons (flow : option (list byte)) : list byte :=
  match nonempty_flow flow with
  | Some f => if is_vision_flow (Some f) then encode_vision_addons f else f
  | None => []
  end.

Lemma build_vless_request_wire uuid dest flow cmd :
  build_vless_request uuid dest flow cmd
  = vless_wire uuid (flow_addons flow) cmd (sa_port dest) (VIp (sa_ip dest)).
Proof.
  unfold build_vless_request, vless_wire, flow_addons, encode_port_first_socksaddr, port_bytes.
  destruct dest as [[a|a] port]; cbn [sa_ip sa_port]; destruct (nonempty_flow flow) as [f|];
    try destruct (is_vision_flow (Some f)); cbn [app]; rewrite <-?app_assoc; done.
Qed.

Lemma vless_xudp_header_wire uuid flow : is_vision_flow flow = false ->
  vless_xudp_request_header uuid flow
  = vless_wire uuid (flow_addons flow) x03 MUX_XUDP_PORT (VDomain MUX_ADDR).
Proof.
  intros Hv. unfold vless_xudp_request_header, vless_wire, flow_addons.
  destruct flow as [[|b f]|]; cbn [nonempty_flow app]; rewrite <-?app_assoc; try done.
  by rewrite Hv.
Qed.

Lemma index_prefix {A} (l s : list A) i x : l `prefix_of` s -> 0 <= i < zlen l ->
  index s i = Ok x -> index l i = Ok x.
Proof.
  intros [t ->] Hi. unfold index, zlen in *. rewrite lookup_app_l by lia. done.
Qed.


Section Wire.
Variables (uuid addons : list byte) (cmd : byte) (port : Z) (h : VHost).
Hypothesis Huuid : zlen uuid = 16.
Hypothesis Haddons : zlen addons < 256.
Hypothesis Hport : in_u16 port.
Hypothesis Hhost : vhost_ok h.
Abbreviation wire := (vless_wire uuid addons cmd port h).
Abbreviation base := (18 + zlen addons).

Lemma bz_u8_len {A} (l : list A) : zlen l < 256 -> bz (u8 (zlen l)) = zlen l.
Proof. intros Hl. apply bz_u8_small. pose proof (zlen_nonneg l). lia. Qed.

Lemma zlen_vhost : zlen (vhost_bytes h) = 1 + vhost_len h.
Proof.
  destruct h as [[a|a]|d]; cbn [vhost_bytes]; rewrite !zlen_cons, ?zlen_be_encode; done.
Qed.

Lemma zlen_wire : zlen wire = base + 3 + zlen (vhost_bytes h).
Proof.
  unfold vless_wire. rewrite !zlen_app, !zlen_cons, zlen_be_encode, Huuid. lia.
Qed.

(** Where the fields of a request are. *)
Lemma wire_fields extra :
  index (wire ++ extra) 0 = Ok x00 /\ index (wire ++ extra) 17 = Ok (u8 (zlen addons))
  /\ index (wire ++ extra) (base + 3) = index (vhost_bytes h) 0
  /\ index (wire ++ extra) (base + 4) = index (vhost_bytes h ++ extra) 1.
Proof.
  unfold vless_wire. split_and!; [done|..].
  - rewrite <-app_assoc. apply index_app_eq. rewrite zlen_cons. lia.
  - set (pre := (x00 :: uuid) ++ (u8 (zlen addons) :: addons) ++ cmd :: be_encode 2 port).
    replace (_ ++ extra) with (pre ++ vhost_bytes h ++ extra) by (unfold pre; by rewrite <-!app_assoc).
    assert (exists b r, vhost_bytes h = b :: r) as (b & r & ->) by (destruct h as [[]|]; by eexists _, _).
    apply index_app_eq. unfold pre. rewrite !zlen_app, !zlen_cons, zlen_be_encode, Huuid. lia.
  - set (pre := (x00 :: uuid) ++ (u8 (zlen addons) :: addons) ++ cmd :: be_encode 2 port).
    replace (_ ++ extra) with (pre ++ vhost_bytes h ++ extra) by (unfold pre; by rewrite <-!app_assoc).
    assert (Hp : zlen pre = base + 3)
      by (unfold pre; rewrite !zlen_app, !zlen_cons, zlen_be_encode, Huuid; lia).
    unfold index. replace (Z.to_nat (base + 4)) with (length pre + 1)%nat
      by (unfold zlen in *; lia).
    by rewrite lookup_app_r, Nat.add_comm, Nat.add_sub by lia.
Qed.

(** However far a request has been received: its length is known exactly when it
    is complete. *)
Lemma vless_request_len_prefix buf extra : buf `prefix_of` wire ++ extra ->
  vless_request_len buf = Ok (if zlen buf <? zlen wire then None else Some (zlen wire)).
Proof.
  intros Hpre. pose proof (wire_fields extra) as (H0 & H17 & Hat & Hdl).
  pose proof zlen_wire as Hlen. pose proof zlen_vhost as Hv. pose proof (zlen_nonneg addons).
  pose proof (zlen_nonneg buf). unfold vless_request_len. rewrite Hlen, Hv in *.
  destruct (decide (buf = [])) as [->|Hne].
  { rewrite bool_decide_eq_true_2 by done. change (zlen []) with 0.
    rewrite (proj2 (Z.ltb_lt _ _)); [done|].
    destruct h as [[]|d]; cbn [vhost_len]; try pose proof (zlen_nonneg d); lia. }
  rewrite bool_decide_eq_false_2 by done.
  assert (Hpos : 0 < zlen buf) by (destruct buf; [done|rewrite zlen_cons; pose proof (zlen_nonneg buf); lia]).
  rewrite (index_prefix _ _ 0 _ Hpre ltac:(lia) H0). cbn [mbind result_bind].
  change (negb (bz x00 =? 0)) with false. cbn match.
  assert (Hh : 1 <= vhost_len h)
    by (destruct h as [[]|d]; try pose proof (zlen_nonneg d); cbn; lia).
  assert (Hnone : forall m : Z, zlen buf < m -> m <= base + 3 + (1 + vhost_len h) ->
    (if zlen buf <? base + 3 + (1 + vhost_len h) then None
     else Some (base + 3 + (1 + vhost_len h))) = None).
  { intros m Hm Hle. rewrite (proj2 (Z.ltb_lt _ _)); [done|lia]. }
  destruct (zlen buf <? 1 + 16 + 1) eqn:E1; bool_props.
  { rewrite (Hnone 18); [done|lia..]. }
  change (1 + 16 + 1) with 18. change (1 + 16) with 17.
  rewrite (index_prefix _ _ 17 _ Hpre ltac:(lia) H17). cbn [mbind result_bind].
  rewrite bz_u8_len by done.
  destruct (zlen buf <? base + 4) eqn:E2; bool_props.
  { rewrite (Hnone (base + 4)); [done|lia..]. }
  rewrite (index_prefix _ _ (base + 3) (match h with VIp (V4 _) => x01 | VIp (V6 _) => x03 | VDomain _ => x02 end)
    Hpre ltac:(lia)) by (rewrite Hat; by destruct h as [[]|]).
  cbn [mbind result_bind].
  destruct h as [[a|a]|d]; cbn [vhost_ok vhost_len] in *.
  - change (bz x01 =? 1) with true. cbn match.
    replace (base + 3 + (1 + 4)) with (base + 4 + 4) by lia.
    by destruct (zlen buf <? base + 4 + 4).
  - change (bz x03 =? 1) with false. change (bz x03 =? 2) with false. change (bz x03 =? 3) with true.
    cbn match. replace (base + 3 + (1 + 16)) with (base + 4 + 16) by lia.
    by destruct (zlen buf <? base + 4 + 16).
  - change (bz x02 =? 1) with false. change (bz x02 =? 2) with true. cbn match.
    pose proof (zlen_nonneg d). destruct (zlen buf <? base + 4 + 1) eqn:E3; bool_props.
    { rewrite (Hnone (base + 5)); [done|lia..]. }
    rewrite (index_prefix _ _ (base + 4) (u8 (zlen d)) Hpre ltac:(lia)) by (by rewrite Hdl).
    cbn [mbind result_bind]. rewrite bz_u8_len by tauto.
    replace (base + 3 + (1 + (1 + zlen d))) with (base + 4 + 1 + zlen d) by lia.
    destruct (zlen buf <? base + 4 + 1 + zlen d); [done|]. do 2 f_equal. lia.
Qed.

Lemma vhost_split : vhost_bytes h = vtype h :: vaddr h.
Proof. by destruct h as [[]|]. Qed.

Lemma zlen_vaddr : zlen (vaddr h) = vhost_len h.
Proof. pose proof zlen_vhost as H. rewrite vhost_split, zlen_cons in H. lia. Qed.

Lemma read_address_host extra : read_address (vaddr h ++ extra) (vtype h) = Ok (vhost_show h, vhost_len h).
Proof.
  pose proof zlen_vaddr as Hl. pose proof (zlen_nonneg extra). unfold read_address.
  pose proof (slice_at_app [] (vaddr h) extra : slice_at (vaddr h ++ extra) 0 _ = _) as Hs. rewrite Hl in Hs.
  unfold vtype, vaddr, vhost_show in *. destruct h as [[a|a]|d]; cbn [vhost_len vhost_ok] in *.
  - change (bz x01 =? 1) with true. cbn match.
    rewrite (proj2 (Z.ltb_ge _ _)) by (rewrite zlen_app; lia).
    rewrite Hs. cbn [mbind result_bind]. by rewrite be_decode_encode.
  - change (bz x03 =? 1) with false. change (bz x03 =? 2) with false. change (bz x03 =? 3) with true.
    cbn match. rewrite (proj2 (Z.ltb_ge _ _)) by (rewrite zlen_app; lia).
    rewrite Hs. cbn [mbind result_bind]. by rewrite be_decode_encode.
  - destruct Hhost as [Hd Hutf]. change (bz x02 =? 1) with false. change (bz x02 =? 2) with true. cbn match.
    cbn [app]. change (index (?b :: ?l) 0) with (Ok b). cbn [mbind result_bind].
    rewrite bool_decide_eq_false_2 by done. rewrite bz_u8_len by done.
    rewrite (proj2 (Z.ltb_ge _ _)) by (rewrite zlen_cons, zlen_app; lia).
    rewrite (slice_at_app [u8 (zlen d)] d extra : slice_at (_ :: _ ++ _) 1 _ = _).
    cbn [mbind result_bind]. by rewrite from_utf8_valid.
Qed.

(** Whatever the reads, the request is assembled exactly; what the last read
    brought beyond it is dropped. *)
Lemma read_loop_wire extra reads : Forall (fun r => r <> []) reads -> forall buf,
  buf ++ concat reads = wire ++ extra -> zlen buf < zlen wire ->
  exists lost rest, read_loop buf reads = Ok (wire, rest) /\ extra = lost ++ concat rest.
Proof.
  induction 1 as [|tmp reads Hne Hreads IH]; intros buf Heq Hlt.
  { exfalso. apply (f_equal zlen) in Heq. cbn [concat] in Heq. rewrite app_nil_r, zlen_app in Heq.
    pose proof (zlen_nonneg extra). lia. }
  destruct tmp as [|t tmp]; [done|]. set (tm := t :: tmp) in *. cbn [concat] in Heq.
  rewrite app_assoc in Heq. cbn [read_loop]. fold tm. cbv zeta.
  rewrite (vless_request_len_prefix (buf ++ tm) extra) by (by exists (concat reads)).
  destruct (zlen (buf ++ tm) <? zlen wire) eqn:E; bool_props; cbn [mbind result_bind].
  - rewrite (proj2 (Z.ltb_ge _ _)); [by apply IH|].
    rewrite zlen_wire, zlen_vhost in E. assert (vhost_len h <= 256).
    { destruct h as [[]|d]; cbn [vhost_len vhost_ok] in *; lia. } lia.
  - exists (drop (length wire) (buf ++ tm)), reads.
    assert (Hw : take (length wire) (buf ++ tm) = wire).
    { rewrite <-(take_app_le (buf ++ tm) (concat reads)) by (unfold zlen in E; lia).
      rewrite Heq. apply take_app_length. }
    split.
    + unfold zlen at 1. by rewrite Nat2Z.id, Hw.
    + rewrite <-(take_drop (length wire) (buf ++ tm)), Hw, <-app_assoc in Heq.
      by apply app_inv_head in Heq.
Qed.

(** The parsing both servers share: the fields of the request. *)
Lemma wire_cursor extra :
  wire ++ extra = x00 :: uuid ++ (u8 (zlen addons) :: addons) ++ cmd :: be_encode 2 port
                    ++ vtype h :: vaddr h ++ extra.
Proof. unfold vless_wire. rewrite vhost_split, <-!app_assoc. done. Qed.

Lemma header_fields extra :
  let K := cmd :: be_encode 2 port ++ vtype h :: vaddr h ++ extra in
  (zlen (uuid ++ (u8 (zlen addons) :: addons) ++ K) <? 16) = false
  /\ slice_to (uuid ++ (u8 (zlen addons) :: addons) ++ K) 16 = Ok uuid
  /\ slice_from (uuid ++ (u8 (zlen addons) :: addons) ++ K) 16 = Ok ((u8 (zlen addons) :: addons) ++ K)
  /\ slice_from ((u8 (zlen addons) :: addons) ++ K) (1 + bz (u8 (zlen addons))) = Ok K
  /\ (zlen K <? 3) = false /\ (zlen K <? 4) = false
  /\ u16_at K 1 = Ok port /\ index K 3 = Ok (vtype h) /\ slice_from K 4 = Ok (vaddr h ++ extra).
Proof.
  intros K. pose proof (zlen_nonneg addons). pose proof (zlen_nonneg (vaddr h ++ extra)).
  assert (HK : zlen K = 4 + zlen (vaddr h ++ extra))
    by (unfold K; rewrite zlen_cons, zlen_app, zlen_be_encode, zlen_cons; lia).
  split_and!.
  - apply Z.ltb_ge. rewrite !zlen_app. pose proof (zlen_nonneg (u8 (zlen addons) :: addons)). lia.
  - by apply slice_to_app_eq.
  - by apply slice_from_app_eq.
  - apply slice_from_app_eq. rewrite zlen_cons, bz_u8_len; [done|exact Haddons].
  - apply Z.ltb_ge. lia.
  - apply Z.ltb_ge. lia.
  - by apply (u16_at_app [cmd] port).
  - apply (index_app_eq (cmd :: be_encode 2 port)). by rewrite zlen_cons, zlen_be_encode.
  - unfold K. rewrite (cons_middle (vtype h)), app_assoc, app_comm_cons.
    apply slice_from_app_eq. rewrite zlen_cons, zlen_app, zlen_be_encode. done.
Qed.

Lemma slice_from_vaddr extra : slice_from (vaddr h ++ extra) (vhost_len h) = Ok extra.
Proof. apply slice_from_app_eq, zlen_vaddr. Qed.

Lemma parse_vless_wire users extra : uuid ∈ users ->
  parse_vless users (wire ++ extra) = Ok (uuid, vhost_show h, port, extra).
Proof.
  intros Hin. rewrite wire_cursor. unfold parse_vless.
  destruct (header_fields extra) as (H16 & Hto & Hfrom & Hadd & H3 & _ & Hp & Ht & Ha).
  change (negb (bz x00 =? 0)) with false. cbn match. rewrite H16, Hto. cbn [mbind result_bind].
  rewrite bool_decide_eq_true_2 by done. cbn [negb]. rewrite Hfrom. cbn [mbind result_bind].
  change (index ((u8 (zlen addons) :: addons) ++ ?k) 0) with (Ok (u8 (zlen addons))).
  cbn [mbind result_bind]. rewrite Hadd. cbn [mbind result_bind]. rewrite H3, Hp, Ht, Ha.
  cbn [mbind result_bind]. rewrite read_address_host. cbn [mbind result_bind].
  by rewrite slice_from_vaddr.
Qed.

Lemma parse_vless_tls_wire users : uuid ∈ users -> cmd = x01 ->
  parse_vless_tls users wire = Ok (uuid, vhost_show h, port, []).
Proof.
  intros Hin Hcmd. rewrite <-(app_nil_r wire), wire_cursor. unfold parse_vless_tls.
  destruct (header_fields []) as (H16 & Hto & Hfrom & Hadd & _ & H4 & Hp & Ht & Ha).
  change (negb (bz x00 =? 0)) with false. cbn match. rewrite H16, Hto. cbn [mbind result_bind].
  rewrite bool_decide_eq_true_2 by done. cbn [negb]. rewrite Hfrom. cbn [mbind result_bind].
  change (index ((u8 (zlen addons) :: addons) ++ ?k) 0) with (Ok (u8 (zlen addons))).
  cbn [mbind result_bind]. rewrite Hadd. cbn [mbind result_bind]. rewrite H4, Hp, Ht, Ha.
  change (index (cmd :: _) 0) with (Ok cmd). cbn [mbind result_bind]. rewrite Hcmd at 1.
  change (negb (bz x01 =? 1)) with false. cbn match. cbn [mbind result_bind].
  rewrite read_address_host. cbn [mbind result_bind]. by rewrite slice_from_vaddr.
Qed.
End Wire.

(** C17.  VLESS requests.  The request the client builds for a destination is
    assembled by the reader of the Reality server however the stream is cut into
    reads, and accepted by both servers: each connects to the destination, answers
    two zero bytes and starts a session for the user.  Bytes that arrive together
    with the end of the request are never sent on: no server writes to the remote
    before relaying. *)
Theorem vless_request_served `{UserCrypto} lookup_host connect now users tag uuid dest flow payload
    reads addrs cm :
  zlen uuid = 16 -> uuid ∈ users -> sa_wf dest -> zlen (flow_addons flow) < 256 ->
  lookup_host (show_ip (sa_ip dest)) (sa_port dest) = Ok (dest :: addrs) -> connect dest = Ok tt ->
  Forall (fun r => r <> []) reads ->
  concat reads = build_vless_request uuid dest flow x01 ++ payload ->
  let session := begin_for_uuid cm now tag (Some dest) (Some (show_ip (sa_ip dest))) uuid in
  serve_vless lookup_host connect now users tag (build_vless_request uuid dest flow x01 ++ payload) cm
    = start_relay [Connect dest; ToClient [x00; x00]] session
  /\ serve_vless_over_tls lookup_host connect now users tag reads cm
    = start_relay [ToClient [x00; x00]; Connect dest] session
  /\ exists lost rest, read_vless_request reads = Ok (build_vless_request uuid dest flow x01, rest)
      /\ payload = lost ++ concat rest.
Proof.
  intros Hu Hin [Hip Hport] Hf Hl Hc Hne Hreads session. rewrite build_vless_request_wire in *.
  set (w := vless_wire _ _ _ _ _) in *.
  destruct (read_loop_wire uuid (flow_addons flow) x01 (sa_port dest) (VIp (sa_ip dest)) Hu Hf Hip
    payload reads Hne [] Hreads) as (lost & rest & Hr & Hp).
  { rewrite zlen_wire, zlen_vhost by done. pose proof (zlen_nonneg (flow_addons flow)).
    change (zlen []) with 0. destruct (sa_ip dest); cbn [vhost_len]; lia. }
  fold w in Hr. split_and!.
  - unfold serve_vless, first_address. unfold w. rewrite parse_vless_wire by done.
    cbn [mbind result_bind vhost_show]. rewrite Hl. cbn [mbind result_bind ok_or head]. by rewrite Hc.
  - unfold serve_vless_over_tls, read_vless_request, first_address. rewrite Hr. cbn [mbind result_bind].
    unfold w. rewrite parse_vless_tls_wire by done. cbn [vhost_show].
    rewrite Hl. cbn [mbind result_bind ok_or head]. by rewrite Hc.
  - by exists lost, rest.
Qed.

(** A stand-in for the digests and identifiers of the examples. *)
Definition demo_crypto : UserCrypto := {|
  uuid_parse u := Some u; uuid_show u := u; sha224_hex p := p; default_hash _ := 0 |}.
Definition demo_dest : SocketAddr := mkSocketAddr (V4 16843009) 443.
Definition demo_lookup (host : list byte) (port : Z) : result (list SocketAddr) := Ok [demo_dest].
Definition demo_uuid : list byte := replicate 16 x07.

Lemma vless_request_served_witness :
  let request := build_vless_request demo_uuid demo_dest (Some (str "xtls-rprx-vision")) x01 in
  let sv := serve_vless_over_tls (H := demo_crypto) demo_lookup (fun _ => Ok tt) 0 [demo_uuid] (str "in")
    [take 20 request; drop 20 request ++ str "hello"] (with_registry new_registry) in
  take 2 (sv_events sv) = [ToClient [x00; x00]; Connect demo_dest] /\ length (sv_events sv) = 3%nat.
Proof.
  intros request sv. unfold sv.
  rewrite (proj1 (proj2 (vless_request_served (H := demo_crypto) demo_lookup (fun _ => Ok tt) 0
    [demo_uuid] (str "in") demo_uuid demo_dest (Some (str "xtls-rprx-vision")) (str "hello")
    [take 20 request; drop 20 request ++ str "hello"] [] (with_registry new_registry)
    eq_refl ltac:(by left) ltac:(done) ltac:(done) eq_refl eq_refl ltac:(by repeat constructor) ltac:(done)))).
  by vm_compute.
Defined.

(** ** Malformed headers *)

Lemma read_address_safe data t :
  match read_address data t with
  | Ok (_, n) => 0 <= n <= zlen data
  | Err _ => True
  | Panic _ => False
  end.
Proof.
  unfold read_address. destruct (bz t =? 1); [|destruct (bz t =? 2); [|destruct (bz t =? 3); [|done]]].
  - destruct (zlen data <? 4) eqn:E; [done|]. bool_props.
    destruct (slice_at_ok data 0 4) as [v ->]; [lia..|]. cbn. lia.
  - case_bool_decide as Hd; [done|]. destruct data as [|b data]; [done|].
    change (index (b :: data) 0) with (Ok b). cbn [mbind result_bind].
    destruct (zlen (b :: data) <? 1 + bz b) eqn:E; [done|]. bool_props. pose proof (bz_range b).
    destruct (slice_at_ok (b :: data) 1 (bz b)) as [v ->]; [lia..|]. cbn [mbind result_bind].
    unfold from_utf8. destruct (utf8_valid v); cbn [mbind result_bind]; [lia|done].
  - destruct (zlen data <? 16) eqn:E; [done|]. bool_props.
    destruct (slice_at_ok data 0 16) as [v ->]; [lia..|]. cbn. lia.
Qed.

(** The tail of both parsers. *)
Lemma read_address_tail (data : list byte) t (k : list byte -> Z -> list byte -> result (list byte * list byte * Z * list byte)) :
  (forall host n c, is_panic (k host n c) = false) ->
  is_panic ('(host, consumed) ← read_address data t; cursor ← slice_from data consumed; k host consumed cursor) = false.
Proof.
  intros Hk. pose proof (read_address_safe data t) as Hs.
  destruct (read_address data t) as [[host n]|e|e]; cbn [mbind result_bind]; [|done..].
  rewrite slice_from_ok by lia. apply Hk.
Qed.

Lemma vless_request_len_safe buf :
  match vless_request_len buf with
  | Ok (Some len) => len <= zlen buf /\ exists a, index buf 17 = Ok a /\ 22 + bz a <= len
  | Ok None | Err _ => True
  | Panic _ => False
  end.
Proof.
  unfold vless_request_len. case_bool_decide as Hn; [done|]. destruct buf as [|v buf]; [done|].
  set (b := v :: buf). change (index b 0) with (Ok v). cbn [mbind result_bind].
  destruct (negb (bz v =? 0)); [done|].
  destruct (zlen b <? 1 + 16 + 1) eqn:E1; [done|]. bool_props.
  destruct (index_lookup b 17) as (a & Ha & _); [lia|].
  change (1 + 16 + 1) with 18. change (1 + 16) with 17. rewrite Ha. cbn [mbind result_bind].
  destruct (zlen b <? 18 + bz a + 4) eqn:E2; [done|]. bool_props. pose proof (bz_range a).
  destruct (index_lookup b (18 + bz a + 3)) as (t & Ht & _); [lia|]. rewrite Ht. cbn [mbind result_bind].
  destruct (bz t =? 1); [|destruct (bz t =? 2); [|destruct (bz t =? 3); [|done]]].
  - destruct (zlen b <? 18 + bz a + 4 + 4) eqn:E; [done|]. bool_props. split; [lia|]. exists a. split; [done|lia].
  - destruct (zlen b <? 18 + bz a + 4 + 1) eqn:E; [done|]. bool_props.
    destruct (index_lookup b (18 + bz a + 4)) as (dl & Hdl & _); [lia|]. rewrite Hdl. cbn [mbind result_bind].
    pose proof (bz_range dl). destruct (zlen b <? _) eqn:E4; [done|]. bool_props.
    split; [lia|]. exists a. split; [done|lia].
  - destruct (zlen b <? 18 + bz a + 4 + 16) eqn:E; [done|]. bool_props. split; [lia|]. exists a. split; [done|lia].
Qed.

Lemma read_loop_safe reads : forall buf,
  match read_loop buf reads with
  | Ok (header, _) => exists a, index header 17 = Ok a /\ 22 + bz a <= zlen header
  | Err _ => True
  | Panic _ => False
  end.
Proof.
  induction reads as [|tmp reads IH]; intros buf; [done|]. destruct tmp as [|t tmp]; [done|].
  cbn [read_loop]. set (b := buf ++ t :: tmp). pose proof (vless_request_len_safe b) as Hl.
  destruct (vless_request_len b) as [[len|]|e|e]; cbn [mbind result_bind]; [|destruct (4096 <? zlen b); [done|apply IH]|done..].
  destruct Hl as [Hle (a & Ha & Hb)]. pose proof (bz_range a). exists a. rewrite zlen_take by lia.
  split; [|done]. eapply index_prefix; [apply prefix_take|rewrite zlen_take by lia; lia|done].
Qed.

Lemma parse_vless_tls_safe users header a : index header 17 = Ok a -> 22 + bz a <= zlen header ->
  is_panic (parse_vless_tls users header) = false.
Proof.
  intros Ha Hl. unfold parse_vless_tls. destruct header as [|v c]; [done|]. pose proof (bz_range a).
  rewrite zlen_cons in Hl. destruct (negb (bz v =? 0)); [done|].
  rewrite (proj2 (Z.ltb_ge _ _)) by lia. rewrite slice_to_ok by lia. cbn [mbind result_bind].
  case_bool_decide; [|done]. cbn [negb]. rewrite slice_from_ok by lia. cbn [mbind result_bind].
  assert (Hi : index (drop (Z.to_nat 16) c) 0 = Ok a).
  { unfold index in *. rewrite lookup_drop. exact Ha. }
  rewrite Hi. cbn [mbind result_bind].
  rewrite slice_from_ok by (rewrite zlen_drop; lia). cbn [mbind result_bind].
  rewrite (proj2 (Z.ltb_ge _ _)) by (rewrite !zlen_drop; rewrite ?zlen_drop; lia).
  set (d := drop _ (drop _ c)).
  assert (Hd : 4 <= zlen d) by (unfold d; rewrite !zlen_drop; rewrite ?zlen_drop; lia).
  destruct (index_lookup d 0) as (cmd & -> & _); [lia|]. cbn [mbind result_bind].
  destruct (negb (bz cmd =? 1)); [done|].
  unfold u16_at. destruct (index_lookup d 1) as (p1 & -> & _); [lia|]. cbn [mbind result_bind].
  destruct (index_lookup d (1 + 1)) as (p2 & -> & _); [lia|]. cbn [mbind result_bind].
  destruct (index_lookup d 3) as (t & -> & _); [lia|]. cbn [mbind result_bind].
  rewrite slice_from_ok by lia. cbn [mbind result_bind].
  apply (read_address_tail _ _ (fun host _ cursor => Ok (_, host, _, cursor))). done.
Qed.

(** The rest of a header after an accepted identifier is indexed before its
    length is known. *)
Definition cut_header (rest : list byte) : bool :=
  match rest with
  | [] => true
  | n :: r => (zlen r <? bz n) || (zlen r - bz n =? 3)
  end.

Lemma parse_vless_panics users uuid rest : zlen uuid = 16 -> uuid ∈ users ->
  is_panic (parse_vless users (x00 :: uuid ++ rest)) = cut_header rest.
Proof.
  intros Hu Hin. unfold parse_vless. change (negb (bz x00 =? 0)) with false. cbn match.
  pose proof (zlen_nonneg rest).
  rewrite (proj2 (Z.ltb_ge _ _)) by (rewrite zlen_app; lia).
  rewrite slice_to_app_eq by done. cbn [mbind result_bind]. rewrite bool_decide_eq_true_2 by done. cbn [negb].
  rewrite slice_from_app_eq by done. cbn [mbind result_bind]. unfold cut_header.
  destruct rest as [|n r]; [done|]. change (index (n :: r) 0) with (Ok n). cbn [mbind result_bind].
  pose proof (bz_range n). pose proof (zlen_cons n r).
  destruct (Z.ltb_spec (zlen r) (bz n)) as [Hlt|Hge].
  { unfold slice_from. rewrite (proj2 (Z.ltb_lt (zlen (n :: r)) _)) by lia. done. }
  rewrite (slice_from_ok (n :: r)) by lia. cbn [mbind result_bind orb].
  set (d := drop _ _). assert (Hd : zlen d = zlen r - bz n).
  { unfold d. pose proof (zlen_cons n r). rewrite zlen_drop by lia. lia. }
  rewrite <-Hd. destruct (zlen d <? 3) eqn:E3; bool_props; [symmetry; apply Z.eqb_neq; lia|].
  unfold u16_at. destruct (index_lookup d 1) as (p1 & -> & _); [lia|]. cbn [mbind result_bind].
  destruct (index_lookup d (1 + 1)) as (p2 & -> & _); [lia|]. cbn [mbind result_bind].
  destruct (zlen d =? 3) eqn:E4; bool_props.
  { unfold index. rewrite lookup_ge_None_2; [done|]. unfold zlen in E4. lia. }
  destruct (index_lookup d 3) as (t & -> & _); [lia|]. cbn [mbind result_bind].
  rewrite slice_from_ok by lia. cbn [mbind result_bind].
  apply (read_address_tail _ _ (fun host _ cursor => Ok (_, host, _, cursor))). done.
Qed.

Lemma start_relay_safe `{UserCrypto} evs cm now tag dest dom uuid :
  is_panic (sv_result (start_relay evs (begin_for_uuid cm now tag dest dom uuid))) = false.
Proof.
  unfold begin_for_uuid. destruct (name_and_limits _ _) as [name limits].
  unfold session_begin, acquire_user. pose proof (acquire_check_admits cm name limits) as [_ Hp].
  destruct (acquire_check cm name limits) as [[u|e|e] cm']; cbn [fst is_panic] in Hp; [|done..].
  by destruct (begin_tracked _ _ _ _ _ _ _ _).
Qed.

(** Truncated VLESS headers.  Once the identifier of a configured user has
    been read, the plain server panics exactly on headers that stop before the
    addon length, inside the addons, or right after the port; the Reality server
    panics on no input at all (with a resolver and connector that do not). *)
Theorem vless_header_safety `{UserCrypto} lookup_host connect now users tag cm :
  (forall host port, is_panic (lookup_host host port) = false) ->
  (forall dest, is_panic (connect dest) = false) ->
  (forall uuid rest, zlen uuid = 16 -> uuid ∈ users ->
     is_panic (sv_result (serve_vless lookup_host connect now users tag (x00 :: uuid ++ rest) cm))
     = cut_header rest)
  /\ forall reads, is_panic (sv_result (serve_vless_over_tls lookup_host connect now users tag reads cm)) = false.
Proof.
  intros Hl Hc. split.
  - intros uuid rest Hu Hin. rewrite <-(parse_vless_panics users uuid rest Hu Hin).
    unfold serve_vless. destruct (parse_vless _ _) as [[[[uid host] port] cur]|e|e]; cbn [mbind result_bind]; [|done..].
    unfold first_address. specialize (Hl host port).
    destruct (lookup_host host port) as [[|d ds]|e|e]; cbn [mbind result_bind ok_or head]; [done| |done..].
    specialize (Hc d). destruct (connect d); [|done..]. apply start_relay_safe.
  - intros reads. unfold serve_vless_over_tls, read_vless_request.
    pose proof (read_loop_safe reads []) as Hr.
    destruct (read_loop [] reads) as [[header rest]|e|e]; cbn [mbind result_bind]; [|done..].
    destruct Hr as (a & Ha & Hb). pose proof (parse_vless_tls_safe users header a Ha Hb) as Hp.
    destruct (parse_vless_tls users header) as [[[[uid host] port] cur]|e|e]; [|done..].
    unfold first_address. specialize (Hl host port).
    destruct (lookup_host host port) as [[|d ds]|e|e]; cbn [mbind result_bind ok_or head]; [done| |done..].
    specialize (Hc d). destruct (connect d); [|done..]. apply start_relay_safe.
Qed.

Lemma vless_header_safety_witness :
  is_panic (sv_result (serve_vless (H := demo_crypto) demo_lookup (fun _ => Ok tt) 0 [demo_uuid]
    (str "in") (x00 :: demo_uuid ++ [x00; x01; x01; xbb]) (with_registry new_registry))) = true.
Proof.
  destruct (vless_header_safety (H := demo_crypto) demo_lookup (fun _ => Ok tt) 0 [demo_uuid]
    (str "in") (with_registry new_registry)) as [Hv _]; [done..|].
  by rewrite (Hv demo_uuid [x00; x01; x01; xbb] eq_refl ltac:(by left)).
Defined.

(** ** Trojan *)


Lemma zlen_socks_address a : 7 <= zlen (encode_socks_address a) <= 19.
Proof.
  unfold encode_socks_address. rewrite !zlen_app, zlen_port_bytes, zlen_ip_octets.
  destruct (sa_ip a); change (zlen [_]) with 1; lia.
Qed.

Lemma parse_trojan_request users key dest cmd payload :
  zlen key = 56 -> utf8_valid key = true -> key ∈ users -> sa_wf dest ->
  zlen (encode_trojan_request key dest cmd ++ payload) <= 4096 ->
  parse_trojan users (encode_trojan_request key dest cmd ++ payload) = Ok (key, Ip dest, payload).
Proof.
  intros Hk Hutf Hin Hd Hlen. unfold parse_trojan. set (data := encode_trojan_request key dest cmd ++ payload) in *.
  set (zs := replicate _ x00). pose proof (zlen_socks_address dest) as Ha. pose proof (zlen_nonneg payload) as Hp.
  assert (Hdata : data = key ++ crlf ++ [cmd] ++ encode_socks_address dest ++ crlf ++ payload).
  { unfold data, encode_trojan_request. by rewrite <-!app_assoc. }
  assert (Hn : zlen data = 61 + zlen (encode_socks_address dest) + zlen payload).
  { rewrite Hdata, !zlen_app, Hk. change (zlen crlf) with 2. change (zlen [cmd]) with 1. lia. }
  rewrite Hdata, <-!app_assoc. rewrite <-Hdata, Hn.
  rewrite (proj2 (Z.ltb_ge _ _)) by lia.
  rewrite slice_to_app_eq by done. cbn [mbind result_bind]. rewrite from_utf8_valid by done.
  cbn [context mbind result_bind]. rewrite bool_decide_eq_true_2 by done. cbn [negb].
  rewrite slice_at_app_eq by done. cbn [mbind result_bind]. rewrite bool_decide_eq_true_2 by done. cbn [negb].
  rewrite (app_assoc key), (app_assoc (key ++ crlf)), slice_from_app_eq
    by (rewrite !zlen_app, Hk; done).
  cbn [mbind result_bind]. rewrite socks_address_roundtrip by done. cbn [mbind result_bind]. cbv zeta.
  rewrite (proj2 (Z.ltb_ge _ _)) by lia.
  rewrite (app_assoc _ (encode_socks_address dest)),
    (slice_at_app_eq _ crlf _ (59 + zlen (encode_socks_address dest)) 2);
    [|rewrite !zlen_app, Hk; change (zlen crlf) with 2; change (zlen [cmd]) with 1; lia|done].
  cbn [mbind result_bind]. rewrite bool_decide_eq_true_2 by done. cbn [negb].
  destruct (_ <? _) eqn:E; bool_props.
  - rewrite (app_assoc _ crlf), slice_at_app_eq; [done| |lia].
    rewrite !zlen_app, Hk. change (zlen crlf) with 2. change (zlen [cmd]) with 1. lia.
  - cbn [mbind result_bind]. assert (zlen payload = 0) by lia. by destruct payload.
Qed.

Lemma session_begin_charges cm now tag name limits dest dom k :
  charged_of k (session_begin cm now tag name limits dest dom).2 = charged_of k cm.
Proof.
  unfold session_begin, acquire_user, charged_of.
  pose proof (acquire_check_keeps cm name limits k) as Hk.
  destruct (acquire_check cm name limits) as [[u|e|e] cm0]; cbn [snd] in *; [|by rewrite Hk..].
  pose proof (begin_tracked_spec (acquire_commit cm0 name) now tag name limits dest dom (Some name)) as Hb.
  destruct (begin_tracked _ _ _ _ _ _ _ _) as [s cm1]. cbn [snd]. destruct Hb as (_ & _ & _ & _ & _ & Hu).
  unfold runtime_of at 1 2. rewrite Hu.
  change (default _ (runtimes (users (acquire_commit cm0 name)) !! k)) with (runtime_of (acquire_commit cm0 name) k).
  unfold acquire_commit. rewrite runtime_of_update. case_decide as E; [subst k|]; by rewrite Hk.
Qed.

Lemma session_begin_ok cm now tag name limits dest dom :
  is_ok (session_begin cm now tag name limits dest dom).1 = admits cm name limits.
Proof.
  pose proof (acquire_check_admits cm name limits) as [Hadm _]. unfold session_begin, acquire_user.
  destruct (acquire_check cm name limits) as [[u|e|e] cm0]; cbn [fst is_ok] in *; [|done..].
  by destruct (begin_tracked _ _ _ _ _ _ _ _).
Qed.

(** Trojan requests.  A request of a configured user, with whatever payload
    came in the same read, is parsed exactly; the server connects to the
    destination and sends the payload on before it asks whether the user may
    connect: the session starts exactly when the user's limits admit it, but the
    payload has left in either case, and no counter of any user is charged for it. *)
Theorem trojan_request_served lookup_host connect now users tag key dest payload cm :
  zlen key = 56 -> utf8_valid key = true -> key ∈ users -> sa_wf dest ->
  zlen (encode_trojan_tcp key dest ++ payload) <= 4096 -> payload <> [] -> connect dest = Ok tt ->
  let '(name, limits) := name_and_limits (lookup_trojan_hash (Connections.users cm) key) (take_chars 8 key) in
  let sv := serve_trojan lookup_host connect now users tag (encode_trojan_tcp key dest ++ payload) cm in
  (exists evs, sv_events sv = [Connect dest; ToRemote payload] ++ evs)
  /\ is_ok (sv_result sv) = admits cm name limits
  /\ forall k, charged_of k (sv_cm sv) = charged_of k cm.
Proof.
  intros Hk Hutf Hin Hd Hlen Hp Hc. destruct (name_and_limits _ _) as [name limits] eqn:En.
  cbv zeta. unfold serve_trojan, encode_trojan_tcp in *. rewrite parse_trojan_request by done.
  cbn [mbind result_bind resolve_socks]. rewrite Hc, bool_decide_eq_false_2 by done.
  unfold begin_for_trojan_hash. rewrite En.
  pose proof (session_begin_ok cm now tag name limits (Some dest) None) as Hok.
  pose proof (session_begin_charges cm now tag name limits (Some dest) None) as Hch.
  destruct (session_begin _ _ _ _ _ _ _) as [[s|e|e] cm']; cbn [fst snd] in *;
    (split_and!; [|done|done]).
  - by exists [StartRelay s].
  - by exists [].
  - by exists [].
Qed.

(** A user over its quota still has its payload sent. *)
Lemma trojan_request_served_witness :
  let key := replicate 56 x61 in
  let reg := mkUserRegistry ∅ ∅ ∅ {[ key := mkUserRecord [] (str "u") (str "in") (mkUserLimits None (Some 0) None) ]} ∅ ∅ in
  let sv := serve_trojan demo_lookup (fun _ => Ok tt) 0 [key] (str "in")
    (encode_trojan_tcp key demo_dest ++ str "GET /") (with_registry reg) in
  is_ok (sv_result sv) = false /\ sv_events sv = [Connect demo_dest; ToRemote (str "GET /")].
Proof.
  intros key reg sv.
  pose proof (trojan_request_served demo_lookup (fun _ => Ok tt) 0 [key] (str "in")
    key demo_dest (str "GET /") (with_registry reg) eq_refl eq_refl ltac:(by left) ltac:(done)
    ltac:(done) ltac:(done) eq_refl) as H.
  change (name_and_limits (lookup_trojan_hash (users (with_registry reg)) key) (take_chars 8 key))
    with (str "u", mkUserLimits None (Some 0) None) in H. cbn beta iota zeta in H.
  fold sv in H. destruct H as (_ & Hok & _). rewrite Hok. split; by vm_compute.
Defined.

(** ** The client's response stream *)

(** What the connection below has to offer to successive polls: bytes, or nothing
    yet (the task is then woken later).  When nothing is left it is at its end. *)
Inductive arrival :=
| Arrive (bytes : list byte)
| NotYet.
Inductive polled :=
| PReady (bytes : list byte)
| PError
| PPending (woken : bool).

(** [poll_read] of the connection below into a buffer of [cap] bytes. *)
Definition inner_poll (cap : nat) (inner : list arrival) : polled * list arrival :=
  match inner with
  | [] => (PReady [], [])
  | NotYet :: inner => (PPending true, inner)
  | Arrive bs :: inner =>
      if (length bs <=? cap)%nat then (PReady bs, inner)
      else (PReady (take cap bs), Arrive (drop cap bs) :: inner)
  end.

Record VlessResponseStream := mkResponseStream {
  response_read : bool;
  ack_buf : list byte;
}.
Definition response_new : VlessResponseStream := mkResponseStream false [].

Definition vless_poll_read (cap : nat) (st : VlessResponseStream) (inner : list arrival)
  : polled * VlessResponseStream * list arrival :=
  let forward st inner := let '(r, inner) := inner_poll cap inner in (r, st, inner) in
  let check st inner :=
    match ack_buf st with
    | v :: _ => if bz v =? 0 then forward (mkResponseStream true (ack_buf st)) inner
                else (PError, st, inner)
    | [] => (PError, st, inner)
    end in
  if response_read st then forward st inner
  else if (length (ack_buf st) <? 2)%nat then
    match inner_poll (2 - length (ack_buf st)) inner with
    | (PReady bs, inner) =>
        let st := mkResponseStream false (ack_buf st ++ bs) in
        if (length (ack_buf st) <? 2)%nat then (PPending false, st, inner) else check st inner
    | (r, inner) => (r, st, inner)
    end
  else check st inner.

Inductive ending := AtEnd | Failed | Stalled | OutOfFuel.
(** A task that reads to the end: it polls again only when woken. *)
Fixpoint drain {St} (poll : St -> list arrival -> polled * St * list arrival) (fuel : nat) (st : St)
    (inner : list arrival) : list byte * ending :=
  match fuel with
  | O => ([], OutOfFuel)
  | S fuel =>
      match poll st inner with
      | (PReady [], _, _) => ([], AtEnd)
      | (PReady bs, st, inner) => let '(out, e) := drain poll fuel st inner in (bs ++ out, e)
      | (PPending true, st, inner) => drain poll fuel st inner
      | (PPending false, _, _) => ([], Stalled)
      | (PError, _, _) => ([], Failed)
      end
  end.
Definition read_to_end (fuel cap : nat) (st : VlessResponseStream) (inner : list arrival) : list byte * ending :=
  drain (vless_poll_read cap) fuel st inner.

Definition arrived (a : arrival) : list byte := match a with Arrive bs => bs | NotYet => [] end.
(** Polls needed to read everything, one byte at a time in the worst case. *)
Definition polls (inner : list arrival) : nat :=
  length inner + length (concat (map arrived inner)).

(** In a state in which it only forwards, a stream delivers what arrives. *)
Lemma drain_forward {St} (poll : St -> list arrival -> polled * St * list arrival) cap st inner : (1 <= cap)%nat ->
  (forall inner, poll st inner = let '(r, inner) := inner_poll cap inner in (r, st, inner)) ->
  Forall (fun a => a = NotYet \/ arrived a <> []) inner ->
  forall fuel, (polls inner < fuel)%nat ->
  drain poll fuel st inner = (concat (map arrived inner), AtEnd).
Proof.
  intros Hc Hpoll Hne fuel. revert inner Hne. induction fuel as [|fuel IH]; intros inner Hne Hf; [lia|].
  destruct Hne as [|a inner Ha Hne]; cbn [drain]; rewrite Hpoll; [done|].
  unfold polls in *. cbn [map concat length] in *. destruct a as [bs|]; cbn [inner_poll arrived] in *.
  - destruct Ha as [|Hb]; [done|]. rewrite length_app in Hf. destruct (length bs <=? cap)%nat eqn:E.
    + destruct bs as [|b bs]; [done|]. rewrite IH; [done..|]. cbn [length] in Hf. lia.
    + apply Nat.leb_gt in E. destruct (take cap bs) as [|b t] eqn:Et.
      { apply (f_equal length) in Et. rewrite length_take in Et. cbn in Et. lia. }
      rewrite <-Et. rewrite IH.
      * cbn [map concat arrived]. by rewrite app_assoc, take_drop.
      * constructor; [|done]. right. cbn. intros Hd. apply (f_equal length) in Hd.
        rewrite length_drop in Hd. cbn in Hd. lia.
      * cbn [map concat arrived length]. rewrite length_app, length_drop. lia.
  - cbn [app] in Hf. rewrite IH; [done..|lia].
Qed.

(** The client's view of a VLESS connection without TLS.  When the server's
    two-byte answer arrives in one piece, reading delivers exactly the bytes that
    follow it.  When its first byte arrives alone, or the connection ends before
    the answer, the task stalls for good: the stream reports that it is pending
    although the connection below was ready, so nothing will wake it. *)
Theorem response_stream_stalls cap waits v bs inner fuel :
  (1 <= cap)%nat -> Forall (fun a => a = NotYet \/ arrived a <> []) inner -> bs <> [] ->
  (waits + polls (Arrive bs :: inner) + 1 < fuel)%nat ->
  read_to_end fuel cap response_new (replicate waits NotYet ++ Arrive (x00 :: v :: bs) :: inner)
    = (bs ++ concat (map arrived inner), AtEnd)
  /\ read_to_end fuel cap response_new (replicate waits NotYet ++ Arrive [x00] :: Arrive (v :: bs) :: inner)
    = ([], Stalled)
  /\ read_to_end fuel cap response_new (replicate waits NotYet) = ([], Stalled).
Proof.
  intros Hc Hne Hbs. revert fuel. induction waits as [|w IH]; intros [|fuel] Hf; try lia.
  - cbn [replicate app]. split_and!; [|done|done].
    transitivity (read_to_end (S fuel) cap (mkResponseStream true [x00; v]) (Arrive bs :: inner)).
    { unfold read_to_end. cbn [drain]. unfold vless_poll_read. by destruct bs. }
    apply (drain_forward _ cap); [done|done|by constructor; [right|]|lia].
  - unfold read_to_end in *.
    cbn [replicate app drain vless_poll_read response_read response_new ack_buf length inner_poll Nat.ltb Nat.leb].
    apply IH. lia.
Qed.

Lemma response_stream_stalls_witness :
  read_to_end 20 8 response_new [NotYet; Arrive [x00; x00; x41; x42]; NotYet; Arrive [x43]]
    = ([x41; x42; x43], AtEnd)
  /\ read_to_end 20 8 response_new [NotYet; Arrive [x00]; Arrive [x00; x41; x42]; NotYet; Arrive [x43]]
    = ([], Stalled).
Proof.
  destruct (response_stream_stalls 8 1 x00 [x41; x42] [NotYet; Arrive [x43]] 20) as (H1 & H2 & _);
    [lia|constructor; [by left|constructor; [by right|constructor]]|done|cbn; lia|done].
Defined.
