(* ===== verification/Vision.v ===== *)
(** * XTLS Vision

    [rsb-protocol/src/xtls_vision.rs]: the padding that hides the shape of a VLESS
    stream, its reader, and the stream that applies both to a TLS connection.

    Random draws are arguments of the operations that make them.  The connection
    below is the list of what its polls return, as in the response stream of
    [Vless]. *)
From stdpp Require Import base tactics list strings.
From Stdlib Require Import ZArith Lia.
From Stdlib Require Import Strings.Byte.
From S2P Require Import Prelude Codec Vless.

Local Open Scope Z_scope.

Definition CMD_PADDING_CONTINUE : byte := x00.
Definition CMD_PADDING_END : byte := x01.
Definition CMD_PADDING_DIRECT : byte := x02.
Definition TLS_APP_DATA : byte := x17.
Definition TLS_MAJOR : byte := x03.
Definition TLS_V13 : byte := x03.

(** The cast [as i32]. *)
Definition i32 (v : Z) : Z := wrap 32 (v + 2 ^ 31) - 2 ^ 31.

Definition encode_vless_addons (flow : option (list byte)) : list byte :=
  match nonempty_flow flow with
  | Some f => if is_vision_flow (Some f) then encode_vision_addons f else u8 (zlen f) :: f
  | None => [x00]
  end.

Definition read_vless_response (s : list byte) : result (list byte) :=
  '(_, s) ← read_exact 1 s;
  '(addon_len, s) ← read_exact 1 s;
  n ← index addon_len 0;
  if 0 <? bz n then '(_, s) ← read_exact (bz n) s; Ok s else Ok s.

(** ** Records *)

(** The records from offset [i] on. *)
Fixpoint complete_records (fuel : nat) (data : list byte) : bool :=
  match fuel with
  | O => false
  | S fuel =>
      match data with
      | [] => true
      | b0 :: b1 :: b2 :: b3 :: b4 :: _ =>
          if bool_decide (b0 = TLS_APP_DATA) && bool_decide (b1 = TLS_MAJOR)
             && bool_decide (b2 = TLS_V13) then
            let record_len := Z.lor (Z.shiftl (bz b3) 8) (bz b4) in
            if zlen data <? 5 + record_len then false
            else complete_records fuel (drop (Z.to_nat (5 + record_len)) data)
          else false
      | _ => false
      end
  end.
Definition is_complete_tls_record (data : list byte) : bool :=
  complete_records (S (length data)) data.

(** ** The stream *)

Record ReadPadState := mkReadPadState {
  remaining_cmd : Z;
  remaining_content : Z;
  remaining_pad : Z;
  current_cmd : Z;
}.
Record VisionStream := mkVisionStream {
  v_uuid : list byte;
  user_uuid_sent : bool;
  is_padding : bool;
  direct : bool;
  read_state : ReadPadState;
  filter_packets : Z;
  is_tls13 : bool;
  read_buf : list byte;
}.
Definition vision_new (uuid : list byte) : VisionStream :=
  mkVisionStream uuid false true false (mkReadPadState 0 0 0 0) 8 false [].

Definition set_direct (s : VisionStream) : VisionStream :=
  mkVisionStream (v_uuid s) (user_uuid_sent s) false true (read_state s) (filter_packets s)
    (is_tls13 s) (read_buf s).
Definition set_filter (s : VisionStream) (n : Z) (tls13 : bool) : VisionStream :=
  mkVisionStream (v_uuid s) (user_uuid_sent s) (is_padding s) (direct s) (read_state s) n tls13
    (read_buf s).
Definition set_read (s : VisionStream) (st : ReadPadState) : VisionStream :=
  mkVisionStream (v_uuid s) (user_uuid_sent s) (is_padding s) (direct s) st (filter_packets s)
    (is_tls13 s) (read_buf s).
Definition set_sent (s : VisionStream) : VisionStream :=
  mkVisionStream (v_uuid s) true (is_padding s) (direct s) (read_state s) (filter_packets s)
    (is_tls13 s) (read_buf s).
Definition set_buf (s : VisionStream) (b : list byte) : VisionStream :=
  mkVisionStream (v_uuid s) (user_uuid_sent s) (is_padding s) (direct s) (read_state s)
    (filter_packets s) (is_tls13 s) b.

Definition filter_tls (s : VisionStream) (data : list byte) : VisionStream :=
  match data with
  | b0 :: b1 :: b2 :: _ :: _ :: b5 :: _ =>
      if filter_packets s =? 0 then s
      else
        let hello := bool_decide (b0 = x16) && bool_decide (b1 = TLS_MAJOR)
                     && (bool_decide (b5 = x01) || bool_decide (b5 = x02)) in
        let s := set_filter s (saturating_sub (filter_packets s) 1) (is_tls13 s || hello) in
        if bool_decide (b0 = TLS_APP_DATA) && bool_decide (b1 = TLS_MAJOR)
           && bool_decide (b2 = TLS_V13) && is_complete_tls_record data
        then set_direct s else s
  | _ => s
  end.

(** *** Reading *)

(** One byte of a frame header. *)
Definition header_byte (st : ReadPadState) (b : byte) : ReadPadState :=
  let k := remaining_cmd st in
  if k =? 5 then mkReadPadState (k - 1) (remaining_content st) (remaining_pad st) (bz b)
  else if k =? 4 then mkReadPadState (k - 1) (Z.shiftl (bz b) 8) (remaining_pad st) (current_cmd st)
  else if k =? 3 then
    mkReadPadState (k - 1) (Z.lor (remaining_content st) (bz b)) (remaining_pad st) (current_cmd st)
  else if k =? 2 then mkReadPadState (k - 1) (remaining_content st) (Z.shiftl (bz b) 8) (current_cmd st)
  else if k =? 1 then
    mkReadPadState (k - 1) (remaining_content st) (Z.lor (remaining_pad st) (bz b)) (current_cmd st)
  else mkReadPadState (k - 1) (remaining_content st) (remaining_pad st) (current_cmd st).

(** The test at the end of an iteration: a frame that is used up starts the next
    one, or ends the padding; the second component tells whether it was the
    command to go direct. *)
Definition end_of_frame (st : ReadPadState) : ReadPadState * bool :=
  if (remaining_cmd st <=? 0) && (remaining_content st <=? 0) && (remaining_pad st <=? 0)
     && negb (remaining_cmd st =? -1) then
    (if current_cmd st =? bz CMD_PADDING_CONTINUE
     then mkReadPadState 5 (remaining_content st) (remaining_pad st) (current_cmd st)
     else mkReadPadState (-1) (-1) (-1) (current_cmd st),
     current_cmd st =? bz CMD_PADDING_DIRECT)
  else (st, false).

Fixpoint padding_loop (fuel : nat) (uuid cursor : list byte) (st : ReadPadState) (hit : bool)
    (out : list byte) : list byte * ReadPadState * bool :=
  match fuel with
  | O => (out, st, hit)
  | S fuel =>
      let next cursor st out :=
        let '(st, h) := end_of_frame st in padding_loop fuel uuid cursor st (hit || h) out in
      match cursor with
      | [] => (out, st, hit)
      | b :: rest =>
          if 0 <? remaining_cmd st then next rest (header_byte st b) out
          else if 0 <? remaining_content st then
            let n := Z.min (remaining_content st) (zlen cursor) in
            next (drop (Z.to_nat n) cursor)
              (mkReadPadState (remaining_cmd st) (remaining_content st - n) (remaining_pad st)
                 (current_cmd st)) (out ++ take (Z.to_nat n) cursor)
          else if 0 <? remaining_pad st then
            let n := Z.min (remaining_pad st) (zlen cursor) in
            next (drop (Z.to_nat n) cursor)
              (mkReadPadState (remaining_cmd st) (remaining_content st) (remaining_pad st - n)
                 (current_cmd st)) out
          else if (remaining_cmd st =? -1) && (16 <=? zlen cursor)
                  && bool_decide (take 16 cursor = uuid) then
            next (drop 16 cursor)
              (mkReadPadState 5 (remaining_content st) (remaining_pad st) (current_cmd st)) out
          else (out ++ cursor, st, hit)
      end
  end.

Definition start_state (st : ReadPadState) : ReadPadState :=
  if (remaining_cmd st =? 0) && (remaining_content st =? 0) && (remaining_pad st =? 0)
  then mkReadPadState (-1) (-1) (-1) (current_cmd st) else st.

Definition process_read_padding (s : VisionStream) (input : list byte) : list byte * VisionStream :=
  let '(out, st, hit) :=
    padding_loop (S (length input)) (v_uuid s) input (start_state (read_state s)) false [] in
  let s := set_read s st in
  (out, if hit then set_direct s else s).

(** *** Writing *)

(** [Vec::resize] with zeros. *)
Definition resize (l : list byte) (n : Z) : result (list byte) :=
  if 2 ^ 63 <=? n then Panic "capacity overflow"
  else Ok (take (Z.to_nat n) l ++ replicate (Z.to_nat n - length l) x00).

(** [rnd] is the draw of [rand::random::<u32>]. *)
Definition xtls_padding (rnd : Z) (content : option (list byte)) (command : byte)
    (user_uuid : option (list byte)) (long_pad : bool) : result (list byte) :=
  let bytes := default [] content in
  let content_len := i32 (zlen bytes) in
  let padding_len :=
    if (content_len <? 900) && long_pad then i32 (u32 (rnd `mod` 500 + 900 - u32 content_len))
    else i32 (rnd `mod` 256) in
  let padding_len := Z.min padding_len (i32 (65535 - 21 - content_len)) in
  let out := default [] user_uuid
             ++ [command; u8 (Z.shiftr content_len 8); u8 content_len;
                 u8 (Z.shiftr padding_len 8); u8 padding_len] ++ bytes in
  resize out (u64 (zlen out + u64 padding_len)).

Definition wrap_write (rnd : Z) (s : VisionStream) (data : list byte)
  : result (list byte * VisionStream) :=
  if direct s then Ok (data, s)
  else
    let s := filter_tls s data in
    if is_padding s then
      let is_tls_app :=
        match data with
        | b0 :: b1 :: b2 :: _ =>
            bool_decide (b0 = TLS_APP_DATA) && bool_decide (b1 = TLS_MAJOR)
            && (bool_decide (b2 = TLS_V13) || bool_decide (b2 = x01))
        | _ => false
        end in
      let '(cmd, s) :=
        if is_tls_app && is_complete_tls_record data && is_tls13 s
        then (CMD_PADDING_DIRECT, set_direct s)
        else (if filter_packets s <=? 1 then CMD_PADDING_END else CMD_PADDING_CONTINUE, s) in
      let uuid_once := if user_uuid_sent s then None else Some (v_uuid s) in
      framed ← xtls_padding rnd (Some data) cmd uuid_once (is_tls13 s);
      Ok (framed, set_sent s)
    else Ok (data, s).

(** [poll_write] over a connection that accepts [accepted] of the bytes it is
    offered: what goes down, and the count it reports. *)
Definition vision_poll_write (rnd : Z) (accepted : Z -> Z) (s : VisionStream) (buf : list byte)
  : result (list byte * Z * VisionStream) :=
  '(framed, s) ← wrap_write rnd s buf;
  let n := accepted (zlen framed) in
  Ok (take (Z.to_nat n) framed, n, s).

(** [poll_read] into a buffer of [cap] bytes; nothing when the fuel runs out. *)
Fixpoint read_turns (fuel cap : nat) (s : VisionStream) (inner : list arrival)
  : option (polled * VisionStream * list arrival) :=
  match fuel with
  | O => None
  | S fuel =>
      if negb (bool_decide (read_buf s = [])) then
        Some (PReady (take cap (read_buf s)), set_buf s (drop cap (read_buf s)), inner)
      else
        match inner_poll (Z.to_nat 8192) inner with
        | (PReady [], inner) => Some (PReady [], s, inner)
        | (PReady bs, inner) =>
            let '(plain, s) := process_read_padding s bs in
            let s := filter_tls s plain in
            match plain with
            | [] => read_turns fuel cap s inner
            | _ => Some (PReady (take cap plain), set_buf s (read_buf s ++ drop cap plain), inner)
            end
        | (r, inner) => Some (r, s, inner)
        end
  end.
Definition vision_poll_read (fuel cap : nat) (s : VisionStream) (inner : list arrival)
  : option (polled * VisionStream * list arrival) :=
  if direct s then let '(r, inner) := inner_poll cap inner in Some (r, s, inner)
  else read_turns fuel cap s inner.

(** [vision_relay] up to its first write: what it has read, the stream it builds
    and the block it hands to [write_all]. *)
Definition vision_relay (rnd : Z) (uuid s : list byte)
  : result (VisionStream * list byte * list byte) :=
  s ← read_vless_response s;
  pad ← xtls_padding rnd None CMD_PADDING_CONTINUE (Some uuid) true;
  Ok (vision_new uuid, pad, s).

(** ** Reading frames byte by byte *)

(** Inside a frame, what one byte does: the bytes delivered and the next state. *)
Definition in_frame (st : ReadPadState) : bool :=
  (0 <? remaining_cmd st) || (0 <? remaining_content st) || (0 <? remaining_pad st).

Definition byte_step (st : ReadPadState) (b : byte) : list byte * (ReadPadState * bool) :=
  if 0 <? remaining_cmd st then ([], end_of_frame (header_byte st b))
  else if 0 <? remaining_content st then
    ([b], end_of_frame (mkReadPadState (remaining_cmd st) (remaining_content st - 1)
                          (remaining_pad st) (current_cmd st)))
  else
    ([], end_of_frame (mkReadPadState (remaining_cmd st) (remaining_content st)
                         (remaining_pad st - 1) (current_cmd st))).

(** What a run of bytes does, as long as every one of them lies in a frame. *)
Fixpoint feed (cursor : list byte) (st : ReadPadState) : option (list byte * ReadPadState * bool) :=
  match cursor with
  | [] => Some ([], st, false)
  | b :: rest =>
      if in_frame st then
        let '(o, (st, h)) := byte_step st b in
        match feed rest st with
        | Some (out, st, hit) => Some (o ++ out, st, h || hit)
        | None => None
        end
      else None
  end.

Lemma feed_app c1 c2 st o1 st1 h1 o2 st2 h2 :
  feed c1 st = Some (o1, st1, h1) -> feed c2 st1 = Some (o2, st2, h2) ->
  feed (c1 ++ c2) st = Some (o1 ++ o2, st2, h1 || h2).
Proof.
  revert st o1 h1. induction c1 as [|b c1 IH]; intros st o1 h1 H1 H2; cbn [feed app] in *.
  { by simplify_eq. }
  destruct (in_frame st); [|done]. destruct (byte_step st b) as [o [st' h]].
  destruct (feed c1 st') as [[[o' st''] h']|] eqn:E; [|done]. simplify_eq.
  rewrite (IH _ _ _ E H2). by rewrite app_assoc, orb_assoc.
Qed.

Lemma feed_split c1 c2 st o st' h : feed (c1 ++ c2) st = Some (o, st', h) ->
  exists o1 st1 h1 o2 h2, feed c1 st = Some (o1, st1, h1) /\ feed c2 st1 = Some (o2, st', h2)
    /\ o = o1 ++ o2 /\ h = h1 || h2.
Proof.
  revert st o h. induction c1 as [|b c1 IH]; intros st o h H; cbn [feed app] in *.
  { by exists [], st, false, o, h. }
  destruct (in_frame st); [|done]. destruct (byte_step st b) as [ob [sb hb]].
  destruct (feed (c1 ++ c2) sb) as [[[o' st''] h']|] eqn:E; [|done]. simplify_eq.
  destruct (IH _ _ _ E) as (o1 & st1 & h1 & o2 & h2 & -> & ? & -> & ->).
  exists (ob ++ o1), st1, (hb || h1), o2, h2. by rewrite app_assoc, orb_assoc.
Qed.

(** A long run of content or padding is taken at once, as if byte by byte. *)
Lemma content_merge fuel uuid b c cs st hit out : remaining_cmd st <= 0 -> 1 < remaining_content st ->
  padding_loop (S fuel) uuid (b :: c :: cs) st hit out
  = padding_loop (S fuel) uuid (c :: cs)
      (mkReadPadState (remaining_cmd st) (remaining_content st - 1) (remaining_pad st) (current_cmd st))
      hit (out ++ [b]).
Proof.
  intros Hc Hr. cbn [padding_loop remaining_cmd remaining_content remaining_pad current_cmd].
  rewrite (proj2 (Z.ltb_ge _ _)) by lia. rewrite !(proj2 (Z.ltb_lt _ _)) by lia.
  set (n := Z.min (remaining_content st) (zlen (b :: c :: cs))).
  assert (Hn : Z.min (remaining_content st - 1) (zlen (c :: cs)) = n - 1)
    by (unfold n; rewrite (zlen_cons b); lia).
  rewrite Hn. assert (1 <= n) by (unfold n; rewrite !zlen_cons; pose proof (zlen_nonneg cs); lia).
  replace (Z.to_nat n) with (S (Z.to_nat (n - 1))) by lia. cbn [drop take].
  replace (remaining_content st - 1 - (n - 1)) with (remaining_content st - n) by lia.
  by rewrite <-app_assoc.
Qed.

Lemma pad_merge fuel uuid b c cs st hit out : remaining_cmd st <= 0 -> remaining_content st <= 0 ->
  1 < remaining_pad st ->
  padding_loop (S fuel) uuid (b :: c :: cs) st hit out
  = padding_loop (S fuel) uuid (c :: cs)
      (mkReadPadState (remaining_cmd st) (remaining_content st) (remaining_pad st - 1) (current_cmd st))
      hit out.
Proof.
  intros Hc Hr Hp. cbn [padding_loop remaining_cmd remaining_content remaining_pad current_cmd].
  rewrite !(proj2 (Z.ltb_ge _ _)) by lia. rewrite !(proj2 (Z.ltb_lt _ _)) by lia.
  set (n := Z.min (remaining_pad st) (zlen (b :: c :: cs))).
  assert (Hn : Z.min (remaining_pad st - 1) (zlen (c :: cs)) = n - 1)
    by (unfold n; rewrite (zlen_cons b); lia).
  rewrite Hn. assert (1 <= n) by (unfold n; rewrite !zlen_cons; pose proof (zlen_nonneg cs); lia).
  replace (Z.to_nat n) with (S (Z.to_nat (n - 1))) by lia. cbn [drop].
  by replace (remaining_pad st - 1 - (n - 1)) with (remaining_pad st - n) by lia.
Qed.

Lemma end_of_frame_inside st : 0 < remaining_content st \/ 0 < remaining_pad st ->
  end_of_frame st = (st, false).
Proof.
  intros H. unfold end_of_frame.
  destruct (remaining_cmd st <=? 0), (remaining_content st <=? 0) eqn:E1, (remaining_pad st <=? 0) eqn:E2; try done.
  bool_props. lia.
Qed.

Lemma padding_loop_feed uuid cursor : forall fuel st hit out o st' h,
  (length cursor < fuel)%nat -> feed cursor st = Some (o, st', h) ->
  padding_loop fuel uuid cursor st hit out = (out ++ o, st', hit || h).
Proof.
  induction cursor as [|b cs IH]; intros [|fuel] st hit out o st' h Hf H; try (cbn in Hf; lia).
  { cbn in *. simplify_eq. by rewrite app_nil_r, orb_false_r. }
  cbn [feed] in H. unfold in_frame in H. unfold byte_step in H.
  destruct (0 <? remaining_cmd st) eqn:Ec.
  { cbn [orb] in H. cbn [padding_loop]. rewrite Ec. destruct (end_of_frame _) as [st1 h1].
    destruct (feed cs st1) as [[[o1 st2] h2]|] eqn:E; [|done]. simplify_eq.
    rewrite (IH fuel _ _ _ _ _ _ ltac:(cbn in Hf; lia) E). by rewrite orb_assoc. }
  destruct (0 <? remaining_content st) eqn:Er; cbn [orb] in H.
  { bool_props. destruct cs as [|c cs]; [|destruct (decide (remaining_content st = 1)) as [E1|E1]].
    - cbn [padding_loop]. rewrite (proj2 (Z.ltb_ge _ _)), (proj2 (Z.ltb_lt _ _)) by lia.
      change (zlen [b]) with 1. rewrite Z.min_r by lia. change (Z.to_nat 1) with 1%nat. cbn [drop take].
      destruct (end_of_frame _) as [st1 h1]. cbn in H. simplify_eq. rewrite orb_false_r.
      destruct fuel; [cbn in Hf; lia|]. done.
    - cbn [padding_loop]. rewrite (proj2 (Z.ltb_ge _ _)), (proj2 (Z.ltb_lt _ _)) by lia.
      rewrite E1 in *. rewrite Z.min_l by (rewrite !zlen_cons; pose proof (zlen_nonneg cs); lia).
      change (Z.to_nat 1) with 1%nat. cbn [drop take]. destruct (end_of_frame _) as [st1 h1].
      destruct (feed (c :: cs) st1) as [[[o1 st2] h2]|] eqn:E; [|done]. simplify_eq.
      rewrite (IH fuel _ _ _ _ _ _ ltac:(cbn in Hf |- *; lia) E). by rewrite <-app_assoc, orb_assoc.
    - rewrite content_merge by lia. rewrite end_of_frame_inside in H by (cbn; lia).
      destruct (feed (c :: cs) _) as [[[o1 st2] h2]|] eqn:E; [|done]. simplify_eq.
      rewrite (IH (S fuel) _ _ _ _ _ _ ltac:(cbn in Hf |- *; lia) E). by rewrite <-app_assoc. }
  destruct (0 <? remaining_pad st) eqn:Ep; cbn [orb] in H; [|done].
  bool_props. destruct cs as [|c cs]; [|destruct (decide (remaining_pad st = 1)) as [E1|E1]].
  - cbn [padding_loop]. rewrite !(proj2 (Z.ltb_ge _ _)), (proj2 (Z.ltb_lt _ _)) by lia.
    change (zlen [b]) with 1. rewrite Z.min_r by lia. change (Z.to_nat 1) with 1%nat. cbn [drop].
    destruct (end_of_frame _) as [st1 h1]. cbn in H. simplify_eq. rewrite orb_false_r.
    destruct fuel; [cbn in Hf; lia|]. cbn. by rewrite app_nil_r.
  - cbn [padding_loop]. rewrite !(proj2 (Z.ltb_ge _ _)), (proj2 (Z.ltb_lt _ _)) by lia.
    rewrite E1 in *. rewrite Z.min_l by (rewrite !zlen_cons; pose proof (zlen_nonneg cs); lia).
    change (Z.to_nat 1) with 1%nat. cbn [drop]. destruct (end_of_frame _) as [st1 h1].
    destruct (feed (c :: cs) st1) as [[[o1 st2] h2]|] eqn:E; [|done]. simplify_eq.
    rewrite (IH fuel _ _ _ _ _ _ ltac:(cbn in Hf |- *; lia) E). by rewrite orb_assoc.
  - rewrite pad_merge by lia. rewrite end_of_frame_inside in H by (cbn; lia).
    destruct (feed (c :: cs) _) as [[[o1 st2] h2]|] eqn:E; [|done]. simplify_eq.
    by rewrite (IH (S fuel) _ _ _ _ _ _ ltac:(cbn in Hf |- *; lia) E).
Qed.

(** A frame: command, content, padding. *)
Definition frame (cmd : byte) (d l : list byte) : list byte :=
  [cmd] ++ be_encode 2 (zlen d) ++ be_encode 2 (zlen l) ++ d ++ l.

(** The state behind a frame, and whether it went direct. *)
Definition frame_end (cmd : byte) : ReadPadState * bool :=
  end_of_frame (mkReadPadState 0 0 0 (bz cmd)).

Lemma feed_content d p c : d <> [] -> 0 <= p ->
  feed d (mkReadPadState 0 (zlen d) p c)
  = Some (d, (end_of_frame (mkReadPadState 0 0 p c)).1, (end_of_frame (mkReadPadState 0 0 p c)).2).
Proof.
  intros Hd Hp. induction d as [|b d IH]; [done|]. cbn [feed]. unfold in_frame, byte_step.
  cbn [remaining_cmd remaining_content remaining_pad current_cmd]. change (0 <? 0) with false.
  rewrite (proj2 (Z.ltb_lt _ _)) by (rewrite zlen_cons; pose proof (zlen_nonneg d); lia). cbn [orb].
  rewrite zlen_cons. replace (1 + zlen d - 1) with (zlen d) by lia. destruct d as [|b' d].
  - change (zlen []) with 0. destruct (end_of_frame _) as [st h]. cbn. by rewrite orb_false_r.
  - rewrite end_of_frame_inside.
    2:{ left. cbn. rewrite zlen_cons. pose proof (zlen_nonneg d). lia. }
    by rewrite IH.
Qed.

Lemma feed_padding l c : l <> [] ->
  feed l (mkReadPadState 0 0 (zlen l) c)
  = Some ([], (end_of_frame (mkReadPadState 0 0 0 c)).1, (end_of_frame (mkReadPadState 0 0 0 c)).2).
Proof.
  intros Hl. induction l as [|b l IH]; [done|]. cbn [feed]. unfold in_frame, byte_step.
  cbn [remaining_cmd remaining_content remaining_pad current_cmd]. change (0 <? 0) with false.
  rewrite (proj2 (Z.ltb_lt _ _)) by (rewrite zlen_cons; pose proof (zlen_nonneg l); lia). cbn [orb].
  rewrite zlen_cons. replace (1 + zlen l - 1) with (zlen l) by lia. destruct l as [|b' l].
  - change (zlen []) with 0. destruct (end_of_frame _) as [st h]. cbn. by rewrite orb_false_r.
  - rewrite end_of_frame_inside.
    2:{ right. cbn. rewrite zlen_cons. pose proof (zlen_nonneg l). lia. }
    by rewrite IH.
Qed.

Lemma feed_body d l c :
  let e := end_of_frame (mkReadPadState 0 (zlen d) (zlen l) c) in
  exists h, feed (d ++ l) e.1 = Some (d, (end_of_frame (mkReadPadState 0 0 0 c)).1, h)
    /\ e.2 || h = (end_of_frame (mkReadPadState 0 0 0 c)).2.
Proof.
  intros e. subst e. assert (Hpos : forall k : list byte, k <> [] -> 0 < zlen k)
    by (intros [|x k] ?; [done|]; rewrite zlen_cons; pose proof (zlen_nonneg k); lia).
  destruct (decide (d = [])) as [-> | Hd]; destruct (decide (l = [])) as [-> | Hl].
  - exists false. change (zlen []) with 0. cbn [app feed]. by rewrite orb_false_r.
  - rewrite end_of_frame_inside by (right; cbn; auto). change (zlen []) with 0. cbn [app fst snd orb].
    eexists. by rewrite feed_padding.
  - rewrite end_of_frame_inside by (left; cbn; auto). change (zlen []) with 0. rewrite app_nil_r. cbn [fst snd orb].
    eexists. by rewrite feed_content.
  - rewrite end_of_frame_inside by (left; cbn; auto). cbn [fst snd orb].
    eexists. split; [|done].
    pose proof (feed_content d (zlen l) c Hd ltac:(apply zlen_nonneg)) as H.
    rewrite end_of_frame_inside in H by (right; cbn; auto). cbn [fst snd] in H.
    rewrite (feed_app _ _ _ _ _ _ _ _ _ H (feed_padding l c Hl)). by rewrite app_nil_r.
Qed.


Lemma two_bytes v : 0 <= v < 2 ^ 16 -> Z.lor (Z.shiftl (bz (u8 (Z.shiftr v 8))) 8) (bz (u8 v)) = v.
Proof.
  intros Hv. rewrite !bz_u8, Z.shiftr_div_pow2 by lia. change (2 ^ 8) with 256.
  rewrite (Z.mod_small (v / 256)) by (Z.to_euclidean_division_equations; lia).
  rewrite lor_shiftl_add by (change (2 ^ 8) with 256; pose proof (Z.mod_pos_bound v 256); lia).
  change (2 ^ 8) with 256. Z.to_euclidean_division_equations. lia.
Qed.

Lemma feed_header b cs st : 1 < remaining_cmd st -> feed (b :: cs) st = feed cs (header_byte st b).
Proof.
  intros Hk. cbn [feed]. unfold in_frame, byte_step. rewrite (proj2 (Z.ltb_lt _ _)) by lia. cbn [orb].
  assert (Hh : remaining_cmd (header_byte st b) = remaining_cmd st - 1)
    by (unfold header_byte; repeat case_match; done).
  unfold end_of_frame. rewrite Hh, (proj2 (Z.leb_gt _ _)) by lia. cbn [andb].
  by destruct (feed cs _) as [[[o st'] h]|].
Qed.

Lemma feed_frame cmd d l st : remaining_cmd st = 5 -> zlen d < 2 ^ 16 -> zlen l < 2 ^ 16 ->
  feed (frame cmd d l) st = Some (d, (frame_end cmd).1, (frame_end cmd).2).
Proof.
  intros Hc Hd Hl. unfold frame. rewrite !be_encode_two. cbn [app].
  destruct (feed_body d l (bz cmd)) as (h & Hb & Hh). unfold frame_end. rewrite <-Hh.
  set (e := end_of_frame (mkReadPadState 0 (zlen d) (zlen l) (bz cmd))) in *.
  assert (Hhdr : feed [cmd; u8 (Z.shiftr (zlen d) 8); u8 (zlen d); u8 (Z.shiftr (zlen l) 8); u8 (zlen l)] st
    = Some ([], e.1, e.2)).
  { destruct st as [k rc rp cc]. cbn in Hc. subst k.
    rewrite feed_header by (cbn; lia). change (header_byte _ cmd) with (mkReadPadState 4 rc rp (bz cmd)).
    rewrite feed_header by (cbn; lia).
    change (header_byte (mkReadPadState 4 rc rp (bz cmd)) ?b) with (mkReadPadState 3 (Z.shiftl (bz b) 8) rp (bz cmd)).
    rewrite feed_header by (cbn; lia).
    change (header_byte (mkReadPadState 3 ?r rp (bz cmd)) ?b) with (mkReadPadState 2 (Z.lor r (bz b)) rp (bz cmd)).
    rewrite feed_header by (cbn; lia).
    change (header_byte (mkReadPadState 2 ?r rp (bz cmd)) ?b) with (mkReadPadState 1 r (Z.shiftl (bz b) 8) (bz cmd)).
    rewrite two_bytes by (pose proof (zlen_nonneg d); lia). cbn [feed].
    change (in_frame (mkReadPadState 1 _ _ _)) with true. unfold byte_step.
    change (0 <? remaining_cmd (mkReadPadState 1 _ _ _)) with true. cbn match.
    change (header_byte (mkReadPadState 1 ?r ?q ?c) ?b) with (mkReadPadState 0 r (Z.lor q (bz b)) c).
    rewrite two_bytes by (pose proof (zlen_nonneg l); lia). fold e.
    destruct e as [st' h']. cbn. by rewrite orb_false_r. }
  exact (feed_app _ _ _ _ _ _ _ _ _ Hhdr Hb).
Qed.

(** ** Writing frames *)

(** Data that does not trigger the switch to raw copying, and fits a frame. *)
Definition vision_data (d : list byte) : Prop :=
  is_complete_tls_record d = false /\ zlen d <= 65514.
Definition ok_write (w : Z * list byte) : Prop := 0 <= w.1 < 2 ^ 32 /\ vision_data w.2.
Definition long_write (d : list byte) : Z := if 6 <=? zlen d then 1 else 0.
Definition long_writes (ws : list (Z * list byte)) : Z :=
  foldr (fun w n => long_write w.2 + n) 0 ws.

(** The writer still pads. *)
Definition padding_on (s : VisionStream) : Prop :=
  direct s = false /\ is_padding s = true /\ 0 <= filter_packets s.

Lemma filter_tls_data s d : padding_on s -> is_complete_tls_record d = false ->
  padding_on (filter_tls s d) /\ v_uuid (filter_tls s d) = v_uuid s
  /\ user_uuid_sent (filter_tls s d) = user_uuid_sent s
  /\ filter_packets (filter_tls s d) = saturating_sub (filter_packets s) (long_write d).
Proof.
  intros (Hd & Hp & Hf) Hr. unfold long_write.
  destruct d as [|b0 [|b1 [|b2 [|b3 [|b4 [|b5 d]]]]]];
    try (change (filter_tls s _) with s; change (6 <=? _) with false;
         unfold padding_on, saturating_sub; split_and!; try done; lia).
  cbn [filter_tls]. rewrite (proj2 (Z.leb_le 6 _)) by (rewrite !zlen_cons; pose proof (zlen_nonneg d); lia).
  rewrite Hr, andb_false_r. unfold saturating_sub, padding_on. destruct (filter_packets s =? 0) eqn:E; cbn; bool_props.
  - split_and!; try done; lia.
  - split_and!; try done; lia.
Qed.

Lemma i32_small v : - 2 ^ 31 <= v < 2 ^ 31 -> i32 v = v.
Proof. intros H. unfold i32, wrap. rewrite Z.mod_small by lia. lia. Qed.

Lemma xtls_padding_frame rnd d cmd uuid long : 0 <= rnd < 2 ^ 32 -> zlen (default [] d) <= 65514 ->
  zlen (default [] uuid) <= 16 ->
  exists l, xtls_padding rnd d cmd uuid long = Ok (default [] uuid ++ frame cmd (default [] d) l)
    /\ zlen l < 1400.
Proof.
  intros Hr Hd Hu. unfold xtls_padding. set (bs := default [] d) in *. pose proof (zlen_nonneg bs).
  rewrite (i32_small (zlen bs)) by lia.
  set (p0 := if (zlen bs <? 900) && long then _ else _).
  assert (Hp0 : 0 <= p0 < 1400).
  { unfold p0. destruct ((zlen bs <? 900) && long) eqn:E; bool_props.
    - assert (0 <= rnd mod 500 < 500) by (apply Z.mod_pos_bound; lia).
      assert (Hu32 : u32 (zlen bs) = zlen bs) by (apply Z.mod_small; lia). rewrite Hu32.
      assert (Hu2 : u32 (rnd mod 500 + 900 - zlen bs) = rnd mod 500 + 900 - zlen bs) by (apply Z.mod_small; lia).
      rewrite Hu2, i32_small by lia. lia.
    - assert (0 <= rnd mod 256 < 256) by (apply Z.mod_pos_bound; lia). rewrite i32_small by lia. lia. }
  rewrite (i32_small (65535 - 21 - _)) by lia. set (p := Z.min p0 _). assert (Hp : 0 <= p < 1400) by lia.
  assert (Hlen : 0 <= zlen (default [] uuid ++ [cmd; u8 (Z.shiftr (zlen bs) 8); u8 (zlen bs); u8 (Z.shiftr p 8); u8 p] ++ bs) < 2 ^ 32).
  { rewrite !zlen_app. change (zlen [_; _; _; _; _]) with 5. pose proof (zlen_nonneg (default [] uuid)). lia. }
  set (out := _ ++ _ ++ bs) in *.
  exists (replicate (Z.to_nat p) x00). assert (Hz : zlen (replicate (Z.to_nat p) x00) = p)
    by (unfold zlen; rewrite length_replicate; lia).
  split; [|lia]. unfold resize. assert (Hu64 : u64 (zlen out + u64 p) = zlen out + p).
  { unfold u64, wrap. rewrite (Z.mod_small p) by lia. apply Z.mod_small. lia. }
  rewrite Hu64, (proj2 (Z.leb_gt _ _)) by lia. f_equal. rewrite take_ge by (unfold zlen in *; lia).
  replace (Z.to_nat (zlen out + p) - length out)%nat with (Z.to_nat p) by (unfold zlen in *; lia).
  unfold out, frame. rewrite Hz, !be_encode_two, <-!app_assoc. done.
Qed.

Definition write_cmd (n : Z) : byte := if n <=? 1 then CMD_PADDING_END else CMD_PADDING_CONTINUE.

Lemma wrap_write_frame rnd s d : padding_on s -> zlen (v_uuid s) = 16 -> ok_write (rnd, d) ->
  exists l s', let n := saturating_sub (filter_packets s) (long_write d) in
    wrap_write rnd s d
      = Ok ((if user_uuid_sent s then [] else v_uuid s) ++ frame (write_cmd n) d l, s')
    /\ zlen l < 2 ^ 16 /\ padding_on s' /\ v_uuid s' = v_uuid s /\ user_uuid_sent s' = true
    /\ filter_packets s' = n.
Proof.
  intros Hs Hu (Hr & Hd & Hl). cbn [fst snd] in *. unfold wrap_write. destruct (filter_tls_data s d Hs Hd) as (Hs1 & Hu1 & Hse & Hf).
  destruct Hs as (-> & _ & _). set (s1 := filter_tls s d) in *.
  destruct Hs1 as (Hd1 & Hp1 & Hf1). rewrite Hp1, Hd, andb_false_r, andb_false_l.
  change (if filter_packets s1 <=? 1 then _ else _) with (write_cmd (filter_packets s1)).
  destruct (xtls_padding_frame rnd (Some d) (write_cmd (filter_packets s1))
    (if user_uuid_sent s1 then None else Some (v_uuid s1)) (is_tls13 s1)) as (l & -> & Hl2).
  { done. } { done. } { destruct (user_uuid_sent s1); [done|]. change (zlen (v_uuid s1) <= 16). rewrite Hu1. lia. }
  exists l, (set_sent s1). rewrite Hf, Hse, Hu1. cbn [mbind result_bind default].
  split_and!; try done; [by destruct (user_uuid_sent s)|lia].
Qed.

Fixpoint wrap_all (s : VisionStream) (ws : list (Z * list byte)) : result (list byte * VisionStream) :=
  match ws with
  | [] => Ok ([], s)
  | (rnd, d) :: ws =>
      '(framed, s) ← wrap_write rnd s d;
      '(rest, s) ← wrap_all s ws;
      Ok (framed ++ rest, s)
  end.

Fixpoint unpad_all (s : VisionStream) (chunks : list (list byte)) : list byte * VisionStream :=
  match chunks with
  | [] => ([], s)
  | c :: cs =>
      let '(o, s) := process_read_padding s c in
      let '(out, s) := unpad_all s cs in
      (o ++ out, s)
  end.

Lemma long_write_bounds d : 0 <= long_write d <= 1.
Proof. unfold long_write. destruct (6 <=? _); lia. Qed.

Lemma long_writes_nonneg ws : 0 <= long_writes ws.
Proof.
  unfold long_writes. induction ws as [|w ws IH]; cbn [foldr]; [lia|].
  pose proof (long_write_bounds w.2). lia.
Qed.

(** A stream of padded writes, without the switch to raw copying. *)
Lemma wrap_all_frames ws : forall s, padding_on s -> zlen (v_uuid s) = 16 -> Forall ok_write ws ->
  long_writes ws + 2 <= filter_packets s ->
  exists fs s', wrap_all s ws
      = Ok ((if user_uuid_sent s || bool_decide (ws = []) then [] else v_uuid s) ++ fs, s')
    /\ padding_on s' /\ v_uuid s' = v_uuid s
    /\ user_uuid_sent s' = user_uuid_sent s || negb (bool_decide (ws = []))
    /\ filter_packets s' = filter_packets s - long_writes ws
    /\ forall st, remaining_cmd st = 5 ->
       exists st', feed fs st = Some (concat (map snd ws), st', false) /\ remaining_cmd st' = 5.
Proof.
  induction ws as [|[rnd d] ws IH]; intros s Hs Hu Hok Hn.
  { exists [], s. cbn [wrap_all]. rewrite orb_true_r, orb_false_r. cbn [long_writes foldr map concat feed].
    split_and!; try done; [cbn; lia|]. intros st Hst. by exists st. }
  apply Forall_cons in Hok as [Hw Hok]. cbn [long_writes foldr snd] in Hn. fold (long_writes ws) in Hn.
  destruct (wrap_write_frame rnd s d Hs Hu Hw) as (l & s1 & E & Hl & Hs1 & Hu1 & He1 & Hf1). cbn zeta in *.
  pose proof (long_writes_nonneg ws). pose proof (long_write_bounds d).
  unfold saturating_sub in *. rewrite Z.max_l in Hf1, E by lia.
  destruct (IH s1 Hs1 ltac:(by rewrite Hu1) Hok ltac:(lia)) as (fs & s' & E' & Hs' & Hu' & He' & Hf' & Hfeed).
  rewrite He1 in E'. cbn [orb app] in E'.
  assert (Hcmd : write_cmd (filter_packets s - long_write d) = CMD_PADDING_CONTINUE).
  { unfold write_cmd. rewrite (proj2 (Z.leb_gt _ _)) by lia. done. }
  rewrite Hcmd in E. exists (frame CMD_PADDING_CONTINUE d l ++ fs), s'. cbn [wrap_all]. rewrite E. cbn [mbind result_bind].
  rewrite E'. cbn [mbind result_bind]. rewrite (bool_decide_eq_false_2 (_ :: _ = [])) by done. cbn [negb].
  rewrite !orb_false_r, orb_true_r. cbn [long_writes foldr snd map concat]. fold (long_writes ws).
  split_and!.
  - by rewrite app_assoc.
  - done.
  - congruence.
  - by rewrite He', He1.
  - lia.
  - intros st Hst. destruct (Hfeed (frame_end CMD_PADDING_CONTINUE).1 eq_refl) as (st' & Hf2 & Hst').
    exists st'. split; [|done]. destruct Hw as (_ & _ & Hd).
    apply (feed_app _ _ _ _ _ _ _ _ _ (feed_frame _ d l st Hst ltac:(cbn in Hd; lia) Hl) Hf2).
Qed.

Lemma end_of_frame_started st : start_state (end_of_frame st).1 = (end_of_frame st).1.
Proof.
  unfold end_of_frame. destruct (_ && _) eqn:E.
  - by destruct (current_cmd st =? _).
  - cbn [fst]. unfold start_state. destruct (remaining_cmd st =? 0) eqn:E1; [|done].
    destruct (remaining_content st =? 0) eqn:E2; [|done]. destruct (remaining_pad st =? 0) eqn:E3; [|done].
    exfalso. bool_props. rewrite E1, E2, E3 in E. done.
Qed.

Lemma feed_started c st o st' h : start_state st = st -> feed c st = Some (o, st', h) -> start_state st' = st'.
Proof.
  revert st o h. induction c as [|b c IH]; intros st o h Hst H; cbn [feed] in H; [by simplify_eq|].
  destruct (in_frame st); [|done]. destruct (byte_step st b) as [ob [sb hb]] eqn:Eb.
  destruct (feed c sb) as [[[o' st''] h']|] eqn:E; [|done]. simplify_eq.
  eapply IH; [|exact E]. unfold byte_step in Eb.
  destruct (0 <? remaining_cmd st); [|destruct (0 <? remaining_content st)]; injection Eb as _ Eb;
    pose proof (f_equal fst Eb) as Eb'; cbn [fst] in Eb'; rewrite <-Eb'; apply end_of_frame_started.
Qed.

(** However the bytes of a run of frames are cut, the reader delivers the same. *)
Lemma unpad_all_feed chunks : forall s o st' h, start_state (read_state s) = read_state s ->
  feed (concat chunks) (read_state s) = Some (o, st', h) ->
  (unpad_all s chunks).1 = o /\ read_state (unpad_all s chunks).2 = st'
  /\ v_uuid (unpad_all s chunks).2 = v_uuid s.
Proof.
  induction chunks as [|c cs IH]; intros s o st' h Hs H; cbn [concat unpad_all] in *;
    [cbn in H; by simplify_eq|].
  apply feed_split in H as (o1 & st1 & h1 & o2 & h2 & H1 & H2 & -> & ->).
  unfold process_read_padding. rewrite Hs.
  rewrite (padding_loop_feed _ c _ _ _ _ _ _ _ (Nat.lt_succ_diag_r _) H1). cbn [orb app].
  set (s1 := if h1 then _ else _). assert (Hs1 : read_state s1 = st1 /\ v_uuid s1 = v_uuid s)
    by (unfold s1; destruct h1; done).
  destruct Hs1 as [Hs1 Hu1]. rewrite <-Hs1 in H2.
  destruct (IH s1 _ _ _ ltac:(rewrite Hs1; by eapply feed_started) H2) as (Ho & Hst & Hu).
  destruct (unpad_all s1 cs) as [o' s']. cbn [fst snd] in *. split_and!; congruence.
Qed.

Lemma padding_loop_uuid uuid c o st' h : zlen uuid = 16 ->
  feed c (mkReadPadState 5 (-1) (-1) 0) = Some (o, st', h) ->
  padding_loop (S (length (uuid ++ c))) uuid (uuid ++ c) (mkReadPadState (-1) (-1) (-1) 0) false []
  = (o, st', h).
Proof.
  intros Hu Hf. assert (Hlen : length uuid = 16%nat) by (unfold zlen in Hu; lia).
  cbn [padding_loop remaining_cmd remaining_content remaining_pad current_cmd].
  change (0 <? -1) with false. change (-1 =? -1) with true. cbn match.
  rewrite (proj2 (Z.leb_le 16 _)) by (rewrite zlen_app; pose proof (zlen_nonneg c); lia).
  rewrite <-Hlen, take_app_length, drop_app_length, bool_decide_eq_true_2 by done. cbn [andb].
  change (end_of_frame _) with (mkReadPadState 5 (-1) (-1) 0, false). cbn match. cbn [orb].
  rewrite (padding_loop_feed uuid c (length (uuid ++ c)) _ _ _ _ _ _ ltac:(rewrite length_app; lia) Hf).
  by destruct uuid.
Qed.

(** The identifier opens the first frame. *)
Lemma unpad_open uuid c cs fs o st' h : zlen uuid = 16 -> c ++ concat cs = uuid ++ fs -> 16 <= zlen c ->
  feed fs (mkReadPadState 5 (-1) (-1) 0) = Some (o, st', h) ->
  (unpad_all (vision_new uuid) (c :: cs)).1 = o /\ read_state (unpad_all (vision_new uuid) (c :: cs)).2 = st'
  /\ v_uuid (unpad_all (vision_new uuid) (c :: cs)).2 = uuid.
Proof.
  intros Hu Hc H16 Hf. assert (Hsplit : exists c', c = uuid ++ c').
  { exists (drop 16 c). rewrite <-(take_drop 16 c) at 1. f_equal.
    apply (f_equal (take 16)) in Hc. rewrite take_app_le in Hc by (unfold zlen in *; lia).
    rewrite Hc. replace 16%nat with (length uuid) by (unfold zlen in *; lia). apply take_app_length. }
  destruct Hsplit as [c' ->]. rewrite <-app_assoc in Hc. apply app_inv_head in Hc. subst fs.
  destruct (feed_split _ _ _ _ _ _ Hf) as (o1 & st1 & h1 & o2 & h2 & H1 & H2 & -> & ->).
  cbn [unpad_all]. unfold process_read_padding. cbn [read_state vision_new v_uuid].
  change (start_state _) with (mkReadPadState (-1) (-1) (-1) 0).
  rewrite (padding_loop_uuid uuid c' _ _ _ Hu H1).
  set (s1 := if h1 then _ else _).
  assert (Hs1 : read_state s1 = st1 /\ v_uuid s1 = uuid)
    by (unfold s1; destruct h1; done). destruct Hs1 as [Hs1 Hu1].
  rewrite <-Hs1 in H2. assert (Hst : start_state (read_state s1) = read_state s1)
    by (rewrite Hs1; eapply feed_started; [|exact H1]; done).
  destruct (unpad_all_feed cs s1 _ _ _ Hst H2) as (Ho & Hr & Hv).
  destruct (unpad_all s1 cs) as [o' s']. cbn [fst snd] in *. split_and!; congruence.
Qed.

Lemma wrap_all_app ws1 ws2 s : wrap_all s (ws1 ++ ws2)
  = '(a, s) ← wrap_all s ws1; '(b, s) ← wrap_all s ws2; Ok (a ++ b, s).
Proof.
  revert s. induction ws1 as [|[rnd d] ws1 IH]; intros s; cbn [app wrap_all].
  { cbn [mbind result_bind]. by destruct (wrap_all s ws2) as [[]| |]. }
  destruct (wrap_write rnd s d) as [[f s1]| |]; cbn [mbind result_bind]; [|done..]. rewrite IH.
  destruct (wrap_all s1 ws1) as [[a s2]| |]; cbn [mbind result_bind]; [|done..].
  destruct (wrap_all s2 ws2) as [[b s3]| |]; cbn [mbind result_bind]; [|done..]. by rewrite app_assoc.
Qed.

(** Outside a frame bytes pass as they are, unless they begin with the identifier. *)
Lemma unpad_raw s more : read_state s = (frame_end CMD_PADDING_END).1 -> take 16 more <> v_uuid s ->
  (process_read_padding s more).1 = more.
Proof.
  intros Hs Hm. unfold process_read_padding. rewrite Hs. change (start_state _) with (mkReadPadState (-1) (-1) (-1) 1).
  destruct more as [|b more]; [done|]. cbn [padding_loop remaining_cmd remaining_content remaining_pad].
  change (0 <? -1) with false. cbn match. rewrite (bool_decide_eq_false_2 _ Hm), andb_false_r. done.
Qed.

(** Vision padding.  What a Vision writer frames, its reader unpads: as long
    as no write is a run of complete TLS records and at most seven writes have six
    bytes or more, the writes arrive in order and unchanged, however the stream is
    cut into reads (the first holding the 16-byte identifier whole).  The seventh
    such write announces the end of the padding, but the writer does not stop:
    every later write is still framed, and reaches the other side with its header
    and padding. *)
Theorem vision_padding_roundtrip uuid init rnd d : zlen uuid = 16 ->
  Forall ok_write init -> ok_write (rnd, d) -> long_writes init <= 6 ->
  exists stream s, wrap_all (vision_new uuid) (init ++ [(rnd, d)]) = Ok (stream, s)
  /\ forall c cs, c ++ concat cs = stream -> 16 <= zlen c ->
     let '(out, r) := unpad_all (vision_new uuid) (c :: cs) in
     out = concat (map snd init) ++ d
     /\ (long_writes init + long_write d = 7 -> forall rnd' d', ok_write (rnd', d') ->
         exists more s', wrap_write rnd' s d' = Ok (more, s') /\ zlen d' + 5 <= zlen more
           /\ (take 16 more <> uuid -> (process_read_padding r more).1 = more)).
Proof.
  intros Hu Hinit Hlast Hn. pose proof (long_writes_nonneg init). pose proof (long_write_bounds d).
  destruct (wrap_all_frames init (vision_new uuid) ltac:(done) Hu Hinit ltac:(cbn; lia))
    as (fs & s1 & E1 & Hs1 & Hu1 & He1 & Hf1 & Hfeed).
  destruct (wrap_write_frame rnd s1 d Hs1 ltac:(by rewrite Hu1) Hlast) as (l & s2 & E2 & Hl & Hs2 & Hu2 & He2 & Hf2).
  cbn zeta in E2, Hf2. cbn [v_uuid user_uuid_sent filter_packets vision_new orb] in *.
  unfold saturating_sub in *. rewrite Z.max_l in E2, Hf2 by lia. set (cmd := write_cmd _) in E2.
  exists (uuid ++ fs ++ frame cmd d l), s2. split.
  { rewrite wrap_all_app, E1. cbn [wrap_all mbind result_bind]. rewrite E2. cbn [mbind result_bind].
    rewrite app_nil_r, He1, Hu1. destruct (bool_decide (init = [])) eqn:Ei; cbn [negb app]; [|by rewrite <-app_assoc].
    apply bool_decide_eq_true in Ei. subst init. cbn in E1. injection E1 as <- _. done. }
  intros c cs Hc H16. destruct (Hfeed (mkReadPadState 5 (-1) (-1) 0) eq_refl) as (st & Hf & Hst).
  destruct Hlast as (_ & _ & Hd). cbn [snd] in Hd.
  pose proof (feed_app _ _ _ _ _ _ _ _ _ Hf (feed_frame cmd d l st Hst ltac:(lia) Hl)) as Hfeed2.
  destruct (unpad_open uuid c cs _ _ _ _ Hu Hc H16 Hfeed2) as (Ho & Hr & Hru).
  destruct (unpad_all _ _) as [out r]. cbn [fst snd] in *. split; [done|].
  intros H7 rnd' d' Hw. destruct (wrap_write_frame rnd' s2 d' Hs2 ltac:(by rewrite Hu2, Hu1) Hw)
    as (l' & s3 & E3 & _). rewrite He2 in E3. eexists _, s3. split; [exact E3|]. split.
  - cbn [app]. unfold frame. rewrite !zlen_app. unfold zlen. rewrite !length_be_encode. cbn [length]. lia.
  - intros Hm. apply unpad_raw; [|by rewrite Hru]. rewrite Hr. unfold cmd, write_cmd.
    by rewrite (proj2 (Z.leb_le _ _)) by lia.
Qed.

(** Seven requests get through; the eighth arrives with its header. *)
Definition demo_writes : list (Z * list byte) :=
  map (fun i => (i, str "request")) [10; 20; 30; 40; 50; 60].
Lemma vision_padding_roundtrip_witness :
  let uuid := replicate 16 x07 in
  exists stream s, wrap_all (vision_new uuid) (demo_writes ++ [(70, str "request")]) = Ok (stream, s)
  /\ (unpad_all (vision_new uuid) [take 20 stream; drop 20 stream]).1
     = concat (replicate 7 (str "request"))
  /\ exists more s', wrap_write 80 s (str "last one") = Ok (more, s') /\ take 5 more = [x01; x00; x08; x00; x50].
Proof.
  intros uuid.
  assert (Hok : Forall ok_write demo_writes) by (repeat constructor; by vm_compute).
  destruct (vision_padding_roundtrip uuid demo_writes 70 (str "request") eq_refl Hok
    ltac:(repeat split; by vm_compute) ltac:(by vm_compute)) as (stream & s & E & H).
  exists stream, s. split; [exact E|].
  assert (Hc : take 20 stream ++ concat [drop 20 stream] = stream) by (cbn [concat]; by rewrite app_nil_r, take_drop).
  specialize (H _ _ Hc). vm_compute in E. injection E as <- <-. specialize (H ltac:(by vm_compute)).
  destruct (unpad_all _ _) as [out r]. destruct H as [-> _]. split; [by vm_compute|].
  eexists _, _. split; [by vm_compute|done].
Defined.

Lemma zlen_frame cmd d l : zlen (frame cmd d l) = 5 + zlen d + zlen l.
Proof. unfold frame. rewrite !zlen_app. unfold zlen. rewrite !length_be_encode. cbn [length]. lia. Qed.

Lemma not_a_record d : d <> [] -> head d <> Some TLS_APP_DATA -> is_complete_tls_record d = false.
Proof.
  intros Hd Hh. unfold is_complete_tls_record. destruct d as [|b0 [|b1 [|b2 [|b3 [|b4 d]]]]]; try done.
  cbn [length complete_records]. rewrite bool_decide_eq_false_2 by (cbn in Hh; congruence). done.
Qed.

(** Opening a Vision connection.  [vision_relay] hands a finished padding
    block to the stream that pads: the block is framed a second time, so the other
    side reads it (identifier, header and zeros) as the first data of the
    connection; and the stream reports more bytes written than it was given, over
    any connection that accepts what it is offered, which breaks the contract of
    [AsyncWrite::poll_write]. *)
Theorem vision_opening uuid response rest rnd1 rnd2 : zlen uuid = 16 -> head uuid <> Some TLS_APP_DATA ->
  0 <= rnd1 < 2 ^ 32 -> 0 <= rnd2 < 2 ^ 32 -> read_vless_response response = Ok rest ->
  exists pad framed s, vision_relay rnd1 uuid response = Ok (vision_new uuid, pad, rest)
  /\ vision_poll_write rnd2 (fun n => n) (vision_new uuid) pad = Ok (framed, zlen framed, s)
  /\ zlen pad < zlen framed
  /\ (unpad_all (vision_new uuid) [framed]).1 = pad.
Proof.
  intros Hu Hh H1 H2 Hr.
  destruct (xtls_padding_frame rnd1 None CMD_PADDING_CONTINUE (Some uuid) true H1 ltac:(done) ltac:(cbn; lia))
    as (l & Ep & Hl). cbn [default from_option id] in Ep. set (pad := uuid ++ _) in Ep.
  assert (Hpad : zlen pad = 21 + zlen l)
    by (unfold pad; rewrite zlen_app, zlen_frame, Hu; change (zlen []) with 0; lia).
  assert (Hw : ok_write (rnd2, pad)).
  { split; [done|]. split; cbn [snd]; [|lia]. unfold pad. apply not_a_record; by destruct uuid. }
  destruct (wrap_write_frame rnd2 (vision_new uuid) pad ltac:(done) Hu Hw) as (l2 & s & Ew & Hl2 & _).
  cbn [user_uuid_sent v_uuid vision_new] in Ew. cbv zeta in Ew. set (cmd := write_cmd _) in Ew.
  exists pad, (uuid ++ frame cmd pad l2), s. split_and!.
  - unfold vision_relay. rewrite Hr. cbn [mbind result_bind]. by rewrite Ep.
  - unfold vision_poll_write. rewrite Ew. cbn [mbind result_bind]. by rewrite take_ge by (unfold zlen; lia).
  - rewrite zlen_app, zlen_frame. pose proof (zlen_nonneg l2). lia.
  - eapply (unpad_open uuid (uuid ++ frame cmd pad l2) []);
      [done|apply app_nil_r| |by apply feed_frame; [|lia|lia]].
    rewrite zlen_app, zlen_frame. pose proof (zlen_nonneg pad). pose proof (zlen_nonneg l2). lia.
Qed.

Lemma vision_opening_witness :
  exists pad framed s, vision_relay 7 (replicate 16 x07) [x00; x00] = Ok (vision_new (replicate 16 x07), pad, [])
  /\ vision_poll_write 9 (fun n => n) (vision_new (replicate 16 x07)) pad = Ok (framed, zlen framed, s)
  /\ zlen pad = 928 /\ zlen framed = 958.
Proof.
  destruct (vision_opening (replicate 16 x07) [x00; x00] [] 7 9 eq_refl ltac:(done) ltac:(lia) ltac:(lia) eq_refl)
    as (pad & framed & s & E1 & E2 & _). exists pad, framed, s. split; [done|]. split; [done|].
  vm_compute in E1. injection E1 as <-. vm_compute in E2. injection E2 as <- _ _. split; by vm_compute.
Defined.

(** A complete TLS record is sent without a frame and without the command to go
    direct, while the other side still expects a frame. *)
Lemma vision_raw_record rnd s d b5 rest : padding_on s -> 0 < filter_packets s ->
  d = [x17; x03; x03] ++ rest -> rest !! 2%nat = Some b5 -> is_complete_tls_record d = true ->
  exists s', wrap_write rnd s d = Ok (d, s') /\ direct s' = true.
Proof.
  intros (Hd & Hp & Hf) Hn -> H5 Hc. destruct rest as [|b3 [|b4 [|b5' rest]]]; try done.
  unfold wrap_write. rewrite Hd. cbn [app] in *. cbn [filter_tls].
  rewrite (proj2 (Z.eqb_neq _ _)) by lia. rewrite Hc. cbn. by eexists.
Qed.

(** The reader that goes direct forgets what it had buffered: here a record of
    six bytes read into a buffer of four. *)
Example vision_direct_drops_buffer :
  let record := [x17; x03; x03; x00; x01; x41] in
  let s := set_read (vision_new (replicate 16 x07)) (frame_end CMD_PADDING_END).1 in
  exists s', vision_poll_read 3 4 s [Arrive record] = Some (PReady (take 4 record), s', [])
  /\ read_buf s' = drop 4 record /\ vision_poll_read 3 4 s' [] = Some (PReady [], s', []).
Proof. eexists. by vm_compute. Qed.
