(* ===== verification/Sniff.v ===== *)
(** * Protocol sniffing

    [rsb-protocol/src/sniff.rs]: the protocol and the domain guessed from the
    first bytes of a TUN connection, and the stream that replays those bytes.
    Indexing is checked, so that a panic would show; the loops carry one unit of
    fuel per byte. *)
From stdpp Require Import base tactics list strings.
From Stdlib Require Import ZArith Lia.
From Stdlib Require Import Strings.Byte.
From S2P Require Import Prelude Json Text Ip DnsWire Codec.

Local Open Scope Z_scope.

Record SniffResult := mkSniffResult {
  sn_domain : option (list byte);
  sn_protocol : option (list byte);
}.

(** [data[i]] with a test on it. *)
Definition byte_is (data : list byte) (i : Z) (p : Z -> bool) : result bool :=
  b ← index data i; Ok (p (bz b)).

Definition looks_like_tls (data : list byte) : result bool :=
  if zlen data <? 5 then Ok false
  else
    a ← byte_is data 0 (fun v => (20 <=? v) && (v <=? 23));
    if negb a then Ok false
    else
      b ← byte_is data 1 (fun v => v =? 3);
      if negb b then Ok false else byte_is data 2 (fun v => v <=? 4).

Definition looks_like_dtls (data : list byte) : result bool :=
  if zlen data <? 3 then Ok false
  else
    a ← byte_is data 0 (fun v => (20 <=? v) && (v <=? 25));
    if negb a then Ok false else byte_is data 1 (fun v => 254 <=? v).

Definition looks_like_quic (data : list byte) : result bool :=
  if bool_decide (data = []) then Ok false
  else
    long ← byte_is data 0 (fun v => negb (Z.land v 128 =? 0));
    if (long : bool) then Ok (5 <=? zlen data)
    else byte_is data 0 (fun v => Z.land v 64 =? 0).

Definition http_methods : list (list byte) :=
  [str "GET "; str "POST "; str "PUT "; str "DELETE "; str "HEAD "; str "OPTIONS "; str "PATCH ";
   str "CONNECT "].
Definition looks_like_http (data : list byte) : bool :=
  if utf8_valid data then
    existsb (starts_with data) http_methods || starts_with data (str "HTTP/")
  else false.

Definition looks_like_dns (data : list byte) (dest_port : Z) : result bool :=
  if negb (dest_port =? 53) && negb (dest_port =? 853) then Ok false
  else if zlen data <? 12 then Ok false
  else
    flags ← u16_at data 2;
    Ok (Z.land (Z.shiftr flags 11) 15 <=? 2).

Definition sniff_tcp_protocol (data : list byte) : result (option (list byte)) :=
  if bool_decide (data = []) then Ok None
  else if starts_with data (str "SSH-") then Ok (Some (str "ssh"))
  else if (20 <=? zlen data) && starts_with data (x13 :: str "BitTorrent protocol")
  then Ok (Some (str "bittorrent"))
  else
    rdp ← (if 2 <=? zlen data then
             a ← byte_is data 0 (fun v => v =? 3);
             if (a : bool) then byte_is data 1 (fun v => v =? 0) else Ok false
           else Ok false);
    if (rdp : bool) then Ok (Some (str "rdp"))
    else
      tls ← looks_like_tls data;
      if (tls : bool) then Ok (Some (str "tls"))
      else if looks_like_http data then Ok (Some (str "http")) else Ok None.

Definition stun_cookie : list byte := [x21; x12; xa4; x42].
Definition sniff_udp_protocol (data : list byte) (dest_port : Z) : result (option (list byte)) :=
  stun ← (if 20 <=? zlen data then s ← slice_at data 4 4; Ok (bool_decide (s = stun_cookie))
          else Ok false);
  if (stun : bool) then Ok (Some (str "stun"))
  else
    quic ← looks_like_quic data;
    if (quic : bool) then Ok (Some (str "quic"))
    else
      dtls ← looks_like_dtls data;
      if (dtls : bool) then Ok (Some (str "dtls"))
      else if (dest_port =? 123) && (48 <=? zlen data) then Ok (Some (str "ntp"))
      else
        dns ← looks_like_dns data dest_port;
        if (dns : bool) then Ok (Some (str "dns")) else Ok None.

(** The label loop; [None] is the function's early return. *)
Fixpoint dns_name_loop (fuel : nat) (data : list byte) (pos : Z) (labels : list (list byte))
  : result (option (list (list byte))) :=
  match fuel with
  | O => Panic "fuel"
  | S fuel' =>
      if zlen data <=? pos then Ok (Some labels)
      else
        len ← index data pos;
        let len := bz len in
        if len =? 0 then Ok (Some labels)
        else if (63 <? len) || (zlen data <? pos + 1 + len) then Ok None
        else
          label ← slice_at data (pos + 1) len;
          if utf8_valid label then dns_name_loop fuel' data (pos + (1 + len)) (labels ++ [label])
          else Ok None
  end.
Definition parse_dns_query_name (data : list byte) : result (option (list byte)) :=
  if zlen data <? 13 then Ok None
  else
    qd_count ← u16_at data 4;
    if qd_count =? 0 then Ok None
    else
      labels ← dns_name_loop (S (length data)) data 12 [];
      match labels with
      | None | Some [] => Ok None
      | Some labels => Ok (Some (join x2e labels))
      end.
Definition sniff_dns_name (data : list byte) (dest_port : Z) : result (option (list byte)) :=
  dns ← looks_like_dns data dest_port;
  if negb dns then Ok None else parse_dns_query_name data.

(** ** TLS server names *)

Fixpoint sni_loop (fuel : nat) (data : list byte) (pos ext_end : Z) : result (option (list byte)) :=
  match fuel with
  | O => Panic "fuel"
  | S fuel' =>
      if (pos + 4 <=? ext_end) && (pos + 4 <=? zlen data) then
        ext_type ← u16_at data pos;
        ext_size ← u16_at data (pos + 2);
        let pos := pos + 4 in
        if (ext_type =? 0) && (pos + ext_size <=? zlen data) then
          let p := pos + 2 in
          if zlen data <? p + 1 then Ok None
          else
            name_len ← index data p;
            let p := p + 1 in
            if p + bz name_len <=? zlen data then
              name ← slice_at data p (bz name_len);
              Ok (if utf8_valid name then Some name else None)
            else sni_loop fuel' data (pos + ext_size) ext_end
        else sni_loop fuel' data (pos + ext_size) ext_end
      else Ok None
  end.

(** [if pos + n > data.len() { return None; }] *)
Definition need {A} (data : list byte) (n : Z) (k : result (option A)) : result (option A) :=
  if zlen data <? n then Ok None else k.

Definition sniff_tls_sni (data : list byte) : result (option (list byte)) :=
  need data 5 (
  b ← index data 0;
  if negb (bz b =? 22) then Ok None else
  let pos := 5 in
  need data (pos + 2) (
  let pos := pos + 2 in
  need data (pos + 1) (
  b ← index data pos;
  if negb (bz b =? 1) then Ok None else
  let pos := pos + 1 in
  need data (pos + 3) (
  h ← slice_at data pos 3;
  let hs_len := be_decode h in
  let pos := pos + 3 in
  need data (pos + hs_len) (
  need data (pos + 2 + 32) (
  let pos := pos + (2 + 32) in
  need data (pos + 1) (
  sess_len ← index data pos;
  let pos := pos + (1 + bz sess_len) in
  need data (pos + 2) (
  cs_len ← u16_at data pos;
  let pos := pos + (2 + cs_len) in
  need data (pos + 1) (
  comp ← index data pos;
  let pos := pos + (1 + bz comp) in
  need data (pos + 2) (
  ext_len ← u16_at data pos;
  let pos := pos + 2 in
  sni_loop (S (length data)) data pos (pos + ext_len))))))))))).

Fixpoint host_line (ls : list (list byte)) : option (list byte) :=
  match ls with
  | [] => None
  | line :: ls =>
      match strip_prefix line (str "Host:") with
      | Some rest => head (split x3a (trim rest))
      | None =>
          match strip_prefix line (str "host:") with
          | Some rest => head (split x3a (trim rest))
          | None => host_line ls
          end
      end
  end.
Definition sniff_http_host (data : list byte) : option (list byte) :=
  if utf8_valid data then host_line (lines data) else None.

Definition sniff_domain (data : list byte) : result (option (list byte)) :=
  sni ← sniff_tls_sni data;
  Ok (match sni with Some d => Some d | None => sniff_http_host data end).

Definition sniff_tcp (data : list byte) : result SniffResult :=
  domain ← sniff_domain data;
  protocol ← sniff_tcp_protocol data;
  Ok (mkSniffResult domain protocol).
Definition sniff_udp (data : list byte) (dest_port : Z) : result SniffResult :=
  domain ← sniff_dns_name data dest_port;
  protocol ← sniff_udp_protocol data dest_port;
  Ok (mkSniffResult domain protocol).

(** [peek_sniff_tcp] and [read_sniff_tcp], on the bytes their read of at most 512
    bytes returns. *)
Definition peek_sniff_tcp (data : list byte) : result SniffResult :=
  if zlen data =? 0 then Ok (mkSniffResult None None) else sniff_tcp data.
Definition read_sniff_tcp (data : list byte) : result (SniffResult * list byte) :=
  r ← sniff_tcp data; Ok (r, data).

(** ** Replay *)

Record PrefixedStream := mkPrefixed {
  ps_inner : list byte;
  ps_prefix : list byte;
  ps_pos : Z;
}.
Definition prefixed_new (inner prefix : list byte) : PrefixedStream := mkPrefixed inner prefix 0.
(** [poll_read] into a buffer with room for [cap] bytes, the connection below
    returning at most [avail] of the bytes still to come. *)
Definition prefixed_read (cap avail : Z) (s : PrefixedStream) : result (list byte * PrefixedStream) :=
  if ps_pos s <? zlen (ps_prefix s) then
    remain ← slice_from (ps_prefix s) (ps_pos s);
    let n := Z.min (zlen remain) cap in
    Ok (take (Z.to_nat n) remain, mkPrefixed (ps_inner s) (ps_prefix s) (ps_pos s + n))
  else
    let n := Z.to_nat (Z.min cap avail) in
    Ok (take n (ps_inner s), mkPrefixed (drop n (ps_inner s)) (ps_prefix s) (ps_pos s)).

(** ** Safety *)

Lemma index_ok {A} (l : list A) n : 0 <= n < zlen l -> exists a, index l n = Ok a.
Proof. intros H. destruct (index_lookup l n H) as (a & Ha & _). by exists a. Qed.

Lemma u16_at_ok data o : 0 <= o -> o + 2 <= zlen data -> exists v, u16_at data o = Ok v /\ 0 <= v < 2 ^ 16.
Proof.
  intros Ho Hl. unfold u16_at. destruct (index_ok data o) as [a ->]; [lia|]. cbn [mbind result_bind].
  destruct (index_ok data (o + 1)) as [b ->]; [lia|]. cbn [mbind result_bind]. eexists. split; [done|].
  pose proof (bz_range a). pose proof (bz_range b). lia.
Qed.

Lemma need_safe {A} data n (k : result (option A)) :
  (n <= zlen data -> is_ok k = true) -> is_ok (need data n k) = true.
Proof. unfold need. destruct (zlen data <? n) eqn:E; bool_props; [done|]. by intros ->. Qed.

Lemma byte_is_ok data i p : 0 <= i < zlen data -> exists b, byte_is data i p = Ok b.
Proof. intros H. unfold byte_is. destruct (index_ok data i H) as [a ->]. by eexists. Qed.

(** Evaluate the access the goal's computation starts with. *)
Ltac leading t := lazymatch t with mbind _ ?m => leading m | _ => t end.
Ltac read_step :=
  let m := lazymatch goal with
    | |- is_ok ?t = true => leading t
    | |- exists b, ?t = Ok b => leading t
    end in
  lazymatch m with
  | byte_is ?d ?i ?p =>
      let b := fresh "b" in destruct (byte_is_ok d i p) as [b ->]; [lia|]; cbn [mbind result_bind]
  | u16_at ?d ?o =>
      let v := fresh "v" in let H := fresh "Hv" in
      destruct (u16_at_ok d o) as (v & -> & H); [lia..|]; cbn [mbind result_bind]
  | index ?d ?o =>
      let b := fresh "b" in destruct (index_ok d o) as [b ->]; [lia|]; cbn [mbind result_bind];
      pose proof (bz_range b)
  | slice_at ?d ?o ?n =>
      let v := fresh "s" in destruct (slice_at_ok d o n) as [v ->]; [lia..|]; cbn [mbind result_bind]
  end.

Lemma slice_at_len data o n s : 0 <= o -> 0 <= n -> slice_at data o n = Ok s -> zlen s = n.
Proof.
  intros Ho Hn. unfold slice_at, slice_to, slice_from. destruct (zlen data <? o + n) eqn:E; [done|]. bool_props.
  cbn [mbind result_bind]. rewrite zlen_take by lia. rewrite (proj2 (Z.ltb_ge _ _)) by lia.
  intros [= <-]. rewrite zlen_drop; rewrite zlen_take; lia.
Qed.

Lemma sni_loop_safe data : forall fuel pos ext_end, 0 <= pos -> zlen data - pos < Z.of_nat fuel -> (0 < fuel)%nat ->
  is_ok (sni_loop fuel data pos ext_end) = true.
Proof.
  induction fuel as [|fuel IH]; intros pos ext_end Hp Hf H0; [lia|]. cbn [sni_loop].
  destruct ((pos + 4 <=? ext_end) && (pos + 4 <=? zlen data)) eqn:E; [|done]. bool_props.
  do 2 read_step.
  assert (Hnext : is_ok (sni_loop fuel data (pos + 4 + v0) ext_end) = true) by (apply IH; lia).
  destruct ((v =? 0) && (pos + 4 + v0 <=? zlen data)); [|done].
  destruct (zlen data <? pos + 4 + 2 + 1) eqn:E1; [done|]. bool_props. read_step.
  destruct (pos + 4 + 2 + 1 + bz b <=? zlen data) eqn:E2; [|done]. bool_props. by read_step.
Qed.

Lemma sniff_tls_sni_safe data : is_ok (sniff_tls_sni data) = true.
Proof.
  unfold sniff_tls_sni.
  apply need_safe; intros H5. read_step. destruct (negb _); [done|].
  apply need_safe; intros H7. apply need_safe; intros H8. read_step. destruct (negb _); [done|].
  apply need_safe; intros H11. read_step. apply need_safe; intros _. apply need_safe; intros H45.
  apply need_safe; intros H46. read_step. apply need_safe; intros H48. read_step.
  apply need_safe; intros H49. read_step. apply need_safe; intros H50. read_step.
  apply sni_loop_safe; [lia| |lia]. unfold zlen in *. lia.
Qed.

Lemma dns_name_loop_safe data : forall fuel pos labels, 0 <= pos -> zlen data - pos < Z.of_nat fuel -> (0 < fuel)%nat ->
  is_ok (dns_name_loop fuel data pos labels) = true.
Proof.
  induction fuel as [|fuel IH]; intros pos labels Hp Hf H0; [lia|]. cbn [dns_name_loop].
  destruct (zlen data <=? pos) eqn:E; bool_props; [done|]. read_step.
  destruct (bz b =? 0) eqn:E0; bool_props; [done|].
  destruct ((63 <? bz b) || (zlen data <? pos + 1 + bz b)) eqn:E1; [done|].
  apply orb_false_iff in E1 as [? ?]. bool_props. read_step. destruct (utf8_valid s); [|done]. apply IH; lia.
Qed.

Lemma looks_like_dns_safe data port : is_ok (looks_like_dns data port) = true.
Proof.
  unfold looks_like_dns. destruct (_ && _); [done|]. destruct (zlen data <? 12) eqn:E; [done|]. bool_props.
  by read_step.
Qed.

Lemma sniff_dns_name_safe data port : is_ok (sniff_dns_name data port) = true.
Proof.
  unfold sniff_dns_name. pose proof (looks_like_dns_safe data port) as H.
  destruct (looks_like_dns data port) as [[]| |]; try done. cbn [mbind result_bind negb].
  unfold parse_dns_query_name. destruct (zlen data <? 13) eqn:E; [done|]. bool_props. read_step.
  destruct (v =? 0); [done|].
  pose proof (dns_name_loop_safe data (S (length data)) 12 []) as Hl.
  destruct (dns_name_loop _ _ _ _) as [[[]|]| |]; cbn [is_ok mbind result_bind] in *; try done;
    apply Hl; unfold zlen in *; lia.
Qed.

Lemma zlen_pos {A} (l : list A) : l <> [] -> 1 <= zlen l.
Proof. destruct l as [|x l]; [done|]. rewrite zlen_cons. pose proof (zlen_nonneg l). lia. Qed.

Lemma sniff_tcp_protocol_safe data : is_ok (sniff_tcp_protocol data) = true.
Proof.
  unfold sniff_tcp_protocol. case_bool_decide as Hn; [done|]. apply zlen_pos in Hn.
  destruct (starts_with data (str "SSH-")); [done|]. destruct (_ && _); [done|].
  assert (Htls : exists b, looks_like_tls data = Ok b).
  { unfold looks_like_tls. destruct (zlen data <? 5) eqn:E; [by eexists|]. bool_props.
    read_step. destruct b; [|by eexists]. cbn [negb]. read_step. destruct b; [|by eexists]. cbn [negb].
    read_step. by eexists. }
  destruct Htls as [b Hb]. destruct (2 <=? zlen data) eqn:E; bool_props.
  - read_step. destruct b0; [read_step; destruct b0|]; cbn [mbind result_bind]; rewrite ?Hb; cbn [mbind result_bind];
      by repeat case_match.
  - cbn [mbind result_bind]. rewrite Hb. cbn [mbind result_bind]. by repeat case_match.
Qed.

Lemma sniff_udp_protocol_safe data port : is_ok (sniff_udp_protocol data port) = true.
Proof.
  unfold sniff_udp_protocol.
  assert (Hs : exists b, (if 20 <=? zlen data then s ← slice_at data 4 4; Ok (bool_decide (s = stun_cookie))
          else Ok false) = Ok b).
  { destruct (20 <=? zlen data) eqn:E; bool_props; [|by eexists]. read_step. by eexists. }
  assert (Hq : exists b, looks_like_quic data = Ok b).
  { unfold looks_like_quic. case_bool_decide as Hn; [by eexists|]. apply zlen_pos in Hn.
    read_step. destruct b; [by eexists|]. read_step. by eexists. }
  assert (Hd : exists b, looks_like_dtls data = Ok b).
  { unfold looks_like_dtls. destruct (zlen data <? 3) eqn:E; [by eexists|]. bool_props.
    read_step. destruct b; [|by eexists]. cbn [negb]. read_step. by eexists. }
  destruct Hs as [s ->], Hq as [q ->], Hd as [d ->]. cbn [mbind result_bind].
  destruct s; [done|]. destruct q; [done|]. destruct d; [done|]. destruct (_ && _); [done|].
  pose proof (looks_like_dns_safe data port) as H.
  destruct (looks_like_dns data port) as [[]| |]; done.
Qed.

(** No input makes the sniffer panic or loop: both the TCP and the UDP
    sniffer return a result for every byte sequence and port. *)
Theorem sniff_total data port :
  (exists r, sniff_tcp data = Ok r) /\ (exists r, sniff_udp data port = Ok r).
Proof.
  pose proof (sniff_tls_sni_safe data) as H1. pose proof (sniff_tcp_protocol_safe data) as H2.
  pose proof (sniff_dns_name_safe data port) as H3. pose proof (sniff_udp_protocol_safe data port) as H4.
  unfold sniff_tcp, sniff_domain, sniff_udp.
  destruct (sniff_tls_sni data), (sniff_tcp_protocol data), (sniff_dns_name data port),
    (sniff_udp_protocol data port); try done. split; by eexists.
Qed.

(** ** TLS *)

(** The first bytes of a TLS connection: a record with a ClientHello of legacy
    version 3.3, whatever follows. *)
Definition client_hello (minor : byte) (rl hl : Z) (body : list byte) : list byte :=
  [x16; x03; minor] ++ be_encode 2 rl ++ [x01] ++ be_encode 3 hl ++ [x03; x03] ++ body.

Lemma sniff_tls_sni_blind data : zlen data <= 512 -> index data 9 = Ok x03 -> index data 10 = Ok x03 ->
  sniff_tls_sni data = Ok None.
Proof.
  intros Hl H9 H10. unfold sniff_tls_sni, need.
  destruct (zlen data <? 5) eqn:E5; [done|]. bool_props.
  destruct (index_ok data 0) as [b0 ->]; [lia|]. cbn [mbind result_bind]. destruct (negb (bz b0 =? 22)); [done|].
  destruct (zlen data <? 5 + 2); [done|]. destruct (zlen data <? 5 + 2 + 1) eqn:E8; [done|]. bool_props.
  destruct (index_ok data (5 + 2)) as [b7 ->]; [lia|]. cbn [mbind result_bind]. destruct (negb (bz b7 =? 1)); [done|].
  destruct (zlen data <? 5 + 2 + 1 + 3) eqn:E11; [done|]. bool_props.
  change (5 + 2 + 1) with 8 in *. change (8 + 3) with 11 in *.
  destruct (slice_at_ok data 8 3) as [h Hh]; [lia..|]. rewrite Hh. cbn [mbind result_bind].
  rewrite (proj2 (Z.ltb_lt _ _)); [done|].
  assert (Hd : exists b8, h = [b8; x03; x03]).
  { unfold slice_at in Hh. rewrite slice_to_ok in Hh by lia. cbn [mbind result_bind] in Hh.
    unfold slice_from in Hh. destruct (_ <? _); [done|]. injection Hh as <-. unfold index in H9, H10.
    do 11 (destruct data as [|? data]; [exfalso; unfold zlen in E11; cbn in E11; lia|]). change (Z.to_nat 9) with 9%nat in H9. change (Z.to_nat 10) with 10%nat in H10.
    simplify_eq/=. by eexists. }
  destruct Hd as [b8 ->]. unfold be_decode. cbn [foldl]. change (bz x03) with 3. pose proof (bz_range b8). lia.
Qed.

(** Server names are never sniffed.  Whatever ClientHello a client sends,
    the bytes the sniffer reads (at most 512) are reported as TLS but without a
    server name: the parser skips two bytes too many and takes the version field
    for the handshake length. *)
Theorem sniff_tls_blind minor rl hl body : bz minor <= 4 ->
  let data := take 512 (client_hello minor rl hl body) in
  sniff_tls_sni data = Ok None
  /\ sniff_tcp data = Ok (mkSniffResult (sniff_http_host data) (Some (str "tls"))).
Proof.
  intros Hm data.
  assert (Hd : exists r, data = [x16; x03; minor] ++ be_encode 2 rl ++ [x01] ++ be_encode 3 hl ++ [x03; x03] ++ r).
  { unfold data, client_hello. eexists (take 501 body).
    rewrite !app_assoc, take_app_ge; rewrite ?length_app, ?length_be_encode; [done|cbn; lia]. }
  assert (Hl : zlen data <= 512) by (unfold zlen, data; rewrite length_take; lia).
  clearbody data. destruct Hd as [r ->].
  assert (Hsni : sniff_tls_sni ([x16; x03; minor] ++ be_encode 2 rl ++ [x01] ++ be_encode 3 hl ++ [x03; x03] ++ r) = Ok None).
  { by apply sniff_tls_sni_blind. }
  split; [done|]. unfold sniff_tcp, sniff_domain. rewrite Hsni. cbn [mbind result_bind].
  unfold sniff_tcp_protocol. rewrite bool_decide_eq_false_2 by done.
  change (starts_with ([x16; x03; minor] ++ _) (str "SSH-")) with false. cbn match.
  change (starts_with ([x16; x03; minor] ++ _) (x13 :: str "BitTorrent protocol")) with false.
  rewrite andb_false_r. set (d := [x16; x03; minor] ++ _) in *.
  assert (H2 : 5 <= zlen d).
  { unfold d. rewrite !zlen_app, zlen_be_encode. pose proof (zlen_nonneg r).
    pose proof (zlen_nonneg (be_encode 3 hl)). change (zlen [x16; x03; minor]) with 3.
    change (zlen [x01]) with 1. change (zlen [x03; x03]) with 2. lia. }
  rewrite (proj2 (Z.leb_le _ _)) by lia. change (byte_is d 0 ?p) with (Ok (p 22)) || idtac.
  change (byte_is d 0 (fun v => v =? 3)) with (Ok false : result bool). cbn [mbind result_bind].
  unfold looks_like_tls. rewrite (proj2 (Z.ltb_ge _ _)) by lia.
  change (byte_is d 0 (fun v => (20 <=? v) && (v <=? 23))) with (Ok true : result bool). cbn [mbind result_bind negb].
  change (byte_is d 1 (fun v => v =? 3)) with (Ok true : result bool). cbn [mbind result_bind negb].
  change (byte_is d 2 (fun v => v <=? 4)) with (Ok (bz minor <=? 4)). cbn [mbind result_bind].
  by rewrite (proj2 (Z.leb_le _ _) Hm).
Qed.

Lemma sniff_tls_blind_witness :
  bz x01 <= 4 /\ sniff_tls_sni (take 512 (client_hello x01 300 296 (replicate 32 x00))) = Ok None.
Proof.
  split; [done|]. apply (sniff_tls_blind x01 300 296 (replicate 32 x00)). done.
Defined.

(** ** DNS *)

(** A recursive query for a name, with any further records. *)
Definition dns_query (id : Z) (labels : list (list byte)) (rest : list byte) : list byte :=
  (be_encode 2 id ++ [x01; x00; x00; x01; x00; x00; x00; x00; x00; x00])
  ++ concat (map query_label labels) ++ x00 :: rest.
Definition label_ok (l : list byte) : Prop := 1 <= zlen l <= 63 /\ utf8_valid l = true.

Lemma dns_name_loop_labels rest labels : Forall label_ok labels -> forall fuel pre acc,
  (length labels < fuel)%nat ->
  dns_name_loop fuel (pre ++ concat (map query_label labels) ++ x00 :: rest) (zlen pre) acc
  = Ok (Some (acc ++ labels)).
Proof.
  induction 1 as [|l labels [Hl Hu] _ IH]; intros [|fuel] pre acc Hf; simpl in Hf; try lia; cbn [dns_name_loop].
  - cbn [map concat app]. rewrite zlen_app, zlen_cons. pose proof (zlen_nonneg rest).
    rewrite (proj2 (Z.leb_gt _ _)) by lia. rewrite index_app. cbn [mbind result_bind].
    change (bz x00 =? 0) with true. cbn match. by rewrite app_nil_r.
  - assert (Hq : query_label l = u8 (zlen l) :: l) by (destruct l; [change (zlen []) with 0 in Hl; lia|done]).
    cbn [map concat]. rewrite Hq, <-app_assoc. set (k := concat _ ++ _). set (c := u8 (zlen l)) in *.
    pose proof (zlen_nonneg k). pose proof (zlen_nonneg pre).
    assert (Hlen : zlen (pre ++ (c :: l) ++ k) = zlen pre + 1 + zlen l + zlen k)
      by (rewrite !zlen_app, zlen_cons; lia).
    assert (Hs : slice_at (pre ++ (c :: l) ++ k) (zlen pre + 1) (zlen l) = Ok l).
    { pose proof (slice_at_app (pre ++ [c]) l k) as Hs. rewrite zlen_app, <-app_assoc in Hs. exact Hs. }
    rewrite (proj2 (Z.leb_gt _ _)) by lia.
    rewrite (index_app pre (l ++ k) c : index (pre ++ (c :: l) ++ k) _ = _). cbn [mbind result_bind].
    assert (Hc : bz c = zlen l) by (apply bz_u8_small; lia). rewrite Hc.
    rewrite (proj2 (Z.eqb_neq _ _)) by lia.
    rewrite (proj2 (Z.ltb_ge 63 _)), (proj2 (Z.ltb_ge (zlen (pre ++ _)) _)) by lia. cbn [orb].
    rewrite Hs. cbn [mbind result_bind]. rewrite Hu, (app_assoc pre (c :: l) k).
    replace (zlen pre + (1 + zlen l)) with (zlen (pre ++ c :: l)) by (rewrite zlen_app, zlen_cons; lia).
    unfold k. rewrite IH by lia. by rewrite <-app_assoc.
Qed.

Lemma land_bits v : 0 <= v < 256 ->
  (Z.land v 128 =? 0) = (v <? 128) /\ (v < 128 -> (Z.land v 64 =? 0) = (v <? 64)).
Proof.
  intros Hv.
  pose proof (all_below_spec 256 (fun v => Bool.eqb (Z.land v 128 =? 0) (v <? 128)
    && ((128 <=? v) || Bool.eqb (Z.land v 64 =? 0) (v <? 64))) 0 ltac:(by vm_compute) v ltac:(lia)) as H.
  apply andb_true_iff in H as [H1 H2]. apply Bool.eqb_prop in H1. split; [done|]. intros Hlt.
  rewrite (proj2 (Z.leb_gt _ _)) in H2 by lia. by apply Bool.eqb_prop in H2.
Qed.

(** DNS queries.  For every query to port 53 the sniffer extracts the queried
    name; but it calls the packet DNS only when the top two bits of the query
    identifier are 01 (three queries of four are labelled QUIC). *)
Theorem sniff_dns_query id labels rest : in_u16 id -> labels <> [] -> Forall label_ok labels ->
  sniff_udp (dns_query id labels rest) 53
  = Ok (mkSniffResult (Some (join x2e labels))
      (Some (if Z.shiftr id 14 =? 1 then str "dns" else str "quic"))).
Proof.
  intros Hid Hne Hl. unfold sniff_udp.
  set (hdr := be_encode 2 id ++ [x01; x00; x00; x01; x00; x00; x00; x00; x00; x00]).
  assert (Hd : dns_query id labels rest = hdr ++ concat (map query_label labels) ++ x00 :: rest) by done.
  assert (Hlen : 13 <= zlen (dns_query id labels rest)).
  { rewrite Hd, zlen_app, zlen_app, zlen_cons. unfold hdr. rewrite zlen_app, zlen_be_encode.
    pose proof (zlen_nonneg rest). pose proof (zlen_nonneg (concat (map query_label labels))).
    change (zlen [_; _; _; _; _; _; _; _; _; _]) with 10. lia. }
  assert (Hname : dns_name_loop (S (length (dns_query id labels rest))) (dns_query id labels rest) 12 []
    = Ok (Some labels)).
  { rewrite Hd at 2. apply (dns_name_loop_labels rest labels Hl _ hdr []).
    rewrite Hd, !length_app. apply le_n_S. transitivity (length (concat (map query_label labels))); [|lia].
    clear - Hl. induction Hl as [|l labels [Hl _] _ IH]; [done|]. cbn [map concat]. rewrite length_app.
    assert (1 <= length (query_label l))%nat by (destruct l; [change (zlen []) with 0 in Hl; lia|cbn; lia]). cbn [length]. lia. }
  assert (Hdns : looks_like_dns (dns_query id labels rest) 53 = Ok true).
  { unfold looks_like_dns. cbn [negb andb]. rewrite (proj2 (Z.ltb_ge _ _)) by lia. done. }
  unfold sniff_dns_name, parse_dns_query_name. rewrite Hdns. cbn [mbind result_bind negb].
  rewrite (proj2 (Z.ltb_ge _ _)) by lia.
  change (u16_at (dns_query id labels rest) 4) with (Ok 1). cbn [mbind result_bind].
  change (1 =? 0) with false. cbn match. rewrite Hname. cbn [mbind result_bind].
  replace (match labels with [] => _ | _ => _ end) with (Ok (Some (join x2e labels)) : result (option (list byte)))
    by (by destruct labels).
  cbn [mbind result_bind].
  assert (Hproto : sniff_udp_protocol (dns_query id labels rest) 53
    = Ok (Some (if Z.shiftr id 14 =? 1 then str "dns" else str "quic"))); [|by rewrite Hproto].
  unfold sniff_udp_protocol.
  replace (if 20 <=? zlen (dns_query id labels rest) then _ else _) with (Ok false : result bool).
  2:{ destruct (20 <=? zlen (dns_query id labels rest)) eqn:E20; bool_props; [|done].
      unfold slice_at. by rewrite slice_to_ok by lia. }
  cbn [mbind result_bind].
  set (v := Z.shiftr id 8).
  assert (Hv : 0 <= v < 256) .
  { unfold v, in_u16 in *. rewrite Z.shiftr_div_pow2 by lia. change (2 ^ 8) with 256.
    split; [apply Z.div_pos; lia|apply Z.div_lt_upper_bound; lia]. }
  assert (Hb : forall p, byte_is (dns_query id labels rest) 0 p = Ok (p v)).
  { intros p. unfold byte_is.
    change (index (dns_query id labels rest) 0) with (Ok (u8 v)). cbn [mbind result_bind].
    by rewrite bz_u8_small. }
  assert (H14 : Z.shiftr id 14 = v / 64).
  { unfold v. rewrite !Z.shiftr_div_pow2, Z.div_div by lia. done. }
  destruct (land_bits v Hv) as [L1 L2].
  unfold looks_like_quic. rewrite bool_decide_eq_false_2 by (intros E; by rewrite E in Hlen).
  rewrite !Hb. cbn [mbind result_bind]. rewrite L1. destruct (v <? 128) eqn:E; bool_props; cbn [negb].
  - rewrite L2 by done. destruct (v <? 64) eqn:E6; bool_props; cbn [mbind result_bind].
    + rewrite (proj2 (Z.eqb_neq (Z.shiftr id 14) 1)); [done|]. rewrite H14. Z.to_euclidean_division_equations. lia.
    + unfold looks_like_dtls. rewrite (proj2 (Z.ltb_ge _ _)) by lia. rewrite !Hb.
      rewrite (proj2 (Z.leb_gt v 25)), andb_false_r by lia. cbn [mbind result_bind negb]. rewrite Hdns.
      cbn [mbind result_bind]. rewrite (proj2 (Z.eqb_eq (Z.shiftr id 14) 1)); [done|]. rewrite H14. Z.to_euclidean_division_equations. lia.
  - cbn [mbind result_bind]. rewrite (proj2 (Z.leb_le _ _)) by lia.
    rewrite (proj2 (Z.eqb_neq (Z.shiftr id 14) 1)); [done|]. rewrite H14. Z.to_euclidean_division_equations. lia.
Qed.

(** The query the resolver itself sends is labelled QUIC. *)
Lemma sniff_dns_query_witness :
  sniff_udp (build_query (str "example.com") false) 53
  = Ok (mkSniffResult (Some (str "example.com")) (Some (str "quic"))).
Proof.
  apply (sniff_dns_query 4660 [str "example"; str "com"] [x00; x01; x00; x01]); [done|done|].
  by repeat constructor.
Defined.

(** ** Replay *)

Definition ps_remaining (s : PrefixedStream) : list byte :=
  drop (Z.to_nat (ps_pos s)) (ps_prefix s) ++ ps_inner s.

(** The bytes read for sniffing are read again, then those that follow. *)
Lemma prefixed_replay cap avail s : 0 <= ps_pos s -> 0 <= cap -> 0 <= avail ->
  exists bs s', prefixed_read cap avail s = Ok (bs, s') /\ 0 <= ps_pos s'
    /\ ps_remaining s = bs ++ ps_remaining s'
    /\ (1 <= cap -> 1 <= avail -> ps_remaining s <> [] -> bs <> []).
Proof.
  intros Hp Hc Ha. unfold prefixed_read, ps_remaining. destruct (ps_pos s <? zlen (ps_prefix s)) eqn:E; bool_props.
  - rewrite slice_from_ok by lia. cbn [mbind result_bind]. eexists _, _. split; [done|].
    cbn [ps_pos ps_prefix ps_inner]. set (d := drop (Z.to_nat (ps_pos s)) (ps_prefix s)).
    assert (Hd : 1 <= zlen d) by (unfold d; rewrite zlen_drop; lia).
    split_and!; [lia| |].
    + rewrite app_assoc. f_equal. 
      replace (Z.to_nat (ps_pos s + Z.min (zlen d) cap)) with (Z.to_nat (ps_pos s) + Z.to_nat (Z.min (zlen d) cap))%nat by lia.
      rewrite <-drop_drop. by rewrite take_drop.
    + intros H1 _ _ Ht. apply (f_equal zlen) in Ht. rewrite zlen_take in Ht by lia. change (zlen []) with 0 in Ht. lia.
  - eexists _, _. split; [done|]. cbn [ps_pos ps_prefix ps_inner].
    rewrite drop_ge by (unfold zlen in E; lia). cbn [app]. split_and!; [done|by rewrite take_drop|].
    intros H1 H2 Hn Ht. destruct (ps_inner s) as [|b l]; [done|].
    destruct (Z.to_nat (Z.min cap avail)) eqn:En; [lia|done].
Qed.
