(* ===== verification/Groups.v ===== *)
(** * Outbounds and outbound groups

    [OutboundManager] of [rsb-core/src/lib.rs], and the groups of
    [rsb-protocol/src]: [group.rs] (selectors, url tests and the controller the
    API talks to), [fallback.rs] and [urltest.rs].

    A group's choice is an atomic index shared by the outbound and its controls:
    it is a cell of [Cells], under the group's tag.  Outbounds that are not groups
    are leaves, whose dialling is an argument (an attempt that outlasts a group's
    timeout is an error of it).  Groups refer to each other by tag, so dialling
    carries fuel for the depth of the reference. *)
From stdpp Require Import base tactics gmap list strings relations.
From Stdlib Require Import ZArith Lia.
From Stdlib Require Import Strings.Byte.
From S2P Require Import Prelude Json Text Ip.

Local Open Scope Z_scope.

Abbreviation tag := (list byte).

Inductive OutboundBody :=
| Leaf (kind : list byte)
| SelectorOutbound (outbounds : list tag)
| UrlTestOutbound (outbounds : list tag) (url : list byte) (interval : Z)
| FallbackOutbound (outbounds : list tag) (dial_timeout : Z) (warm_children : bool).
Record Outbound := mkOutbound {
  ob_tag : tag;
  ob_body : OutboundBody;
}.
Definition kind (o : Outbound) : list byte :=
  match ob_body o with
  | Leaf k => k
  | SelectorOutbound _ => str "selector"
  | UrlTestOutbound _ _ _ => str "urltest"
  | FallbackOutbound _ _ _ => str "fallback"
  end.

(** ** [OutboundManager] *)

Record OutboundManager := mkOutboundManager {
  outbounds : list Outbound;
  om_default_tag : tag;
  om_index : gmap tag nat;
}.
Fixpoint index_loop (i : nat) (obs : list Outbound) (idx : gmap tag nat) : gmap tag nat :=
  match obs with
  | [] => idx
  | ob :: obs => index_loop (S i) obs (<[ob_tag ob := i]> idx)
  end.
Definition manager_new (obs : list Outbound) (default_tag : tag) : result OutboundManager :=
  let idx := index_loop 0 obs ∅ in
  match idx !! default_tag with
  | None => Err "default outbound tag not found"
  | Some _ => Ok (mkOutboundManager obs default_tag idx)
  end.
Definition manager_get (m : OutboundManager) (t : tag) : result Outbound :=
  i ← ok_or "outbound not found" (om_index m !! t);
  match outbounds m !! i with Some o => Ok o | None => Panic "index out of bounds" end.
Definition outbound_kinds (m : OutboundManager) : list (tag * list byte) :=
  map (fun o => (ob_tag o, kind o)) (outbounds m).

(** ** Configuration *)

(** [raw.get(k).and_then(|v| v.as_str())] and what is done with the string. *)
Definition str_field (raw : Value) (k : string) : option (list byte) :=
  match get raw k with Some v => as_str v | None => None end.
Definition and_then {A B} (o : option A) (f : A -> option B) : option B :=
  match o with Some a => f a | None => None end.
Definition member_tags (raw : Value) : list tag :=
  match get raw "outbounds" with Some (Array arr) => omap as_str arr | _ => [] end.
(** [iter().position(|t| t == x)] *)
Fixpoint position (x : tag) (l : list tag) : option nat :=
  match l with
  | [] => None
  | y :: l => if bool_decide (y = x) then Some O else S <$> position x l
  end.

(** The outbound and the initial value of its cell. *)
Definition selector_new (t : tag) (raw : Value) : Outbound * nat :=
  let outs := member_tags raw in
  let selected_idx := default O (and_then (str_field raw "default") (fun d => position d outs)) in
  (mkOutbound t (SelectorOutbound outs), selected_idx).

Definition urltest_interval (s : list byte) : option Z :=
  if ends_with s (str "s") then parse_uint 64 (rev (trim_start_matches x73 (rev s)))
  else parse_uint 64 s.
Definition urltest_new (t : tag) (raw : Value) : Outbound * nat :=
  let url := default (str "https://www.gstatic.com/generate_204") (str_field raw "url") in
  let interval := default 300 (and_then (str_field raw "interval") urltest_interval) in
  (mkOutbound t (UrlTestOutbound (member_tags raw) url interval), O).

(** [parse_duration_str], in milliseconds. *)
Definition strip_suffix_str (s pat : list byte) : option (list byte) :=
  if ends_with s pat then Some (take (length s - length pat) s) else None.
Definition parse_duration_str (s : list byte) : option Z :=
  let s := trim s in
  match strip_suffix_str s (str "ms") with
  | Some ms => parse_uint 64 ms
  | None =>
  match strip_suffix_str s (str "s") with
  | Some secs => (fun v => v * 1000) <$> parse_uint 64 secs
  | None =>
  match strip_suffix_str s (str "m") with
  | Some mins => (fun v => u64 (v * 60) * 1000) <$> parse_uint 64 mins
  | None =>
  match strip_suffix_str s (str "h") with
  | Some hours => (fun v => u64 (v * 3600) * 1000) <$> parse_uint 64 hours
  | None => (fun v => v * 1000) <$> parse_uint 64 s
  end end end end.
Definition DEFAULT_DIAL_TIMEOUT : Z := 5000.
Definition fallback_new (t : tag) (raw : Value) : result (Outbound * nat) :=
  let outs := member_tags raw in
  if bool_decide (outs = []) then Err "fallback: outbounds required"
  else
    let dial_timeout := default DEFAULT_DIAL_TIMEOUT (and_then (str_field raw "dial_timeout") parse_duration_str) in
    let warm_children := default true (and_then (get raw "warm_children") as_bool) in
    Ok (mkOutbound t (FallbackOutbound outs dial_timeout warm_children), O).

(** ** Choice *)

Abbreviation Cells := (gmap tag nat).
Definition cell (c : Cells) (t : tag) : nat := default O (c !! t).

(** [SelectorControl::selected] and [UrlTestControl::selected]. *)
Definition group_selected (outs : list tag) (idx : nat) : tag :=
  default [] (or_else (outs !! idx) (head outs)).
(** [selected_tag] of the group outbounds. *)
Definition selected_tag (outs : list tag) (idx : nat) : result tag :=
  ok_or "group has no outbounds configured" (or_else (outs !! idx) (head outs)).

Definition selector_select (t : tag) (outs : list tag) (child : tag) (c : Cells) : result Cells :=
  idx ← ok_or "outbound not in selector" (position child outs);
  Ok (<[t := idx]> c).

(** [FallbackState]: the active child, the order of a dial and the move after one. *)
Definition fallback_selected (outs : list tag) (idx : nat) : tag :=
  default (default [] (head outs)) (outs !! idx).
Definition dial_order (outs : list tag) (active : nat) : list nat :=
  match length outs with
  | O => []
  | n => let active := Nat.min active (n - 1) in seq active (n - active)
  end.
Definition on_failover (t : tag) (success_idx : nat) (c : Cells) : Cells :=
  if (success_idx <=? cell c t)%nat then c else <[t := success_idx]> c.

(** ** Dialling *)

Section Dial.
(** What dialling a leaf gives. *)
Variable leaf_dial : tag -> SocketAddr -> option (list byte) -> result unit.
Variable m : OutboundManager.

(** A dial's result is the leaf that answered; [None] is a dial that is still
    following references when the fuel runs out. *)
Abbreviation Dialled := (option (result tag * Cells)).

Section Failover.
Variable dial_child : Outbound -> Cells -> Dialled.
Variables (t : tag) (outs : list tag) (active_before : nat).
(** The loop of [dial_tcp_with_failover]. *)
Fixpoint failover_loop (order : list nat) (last_err : option string) (c : Cells) : Dialled :=
  match order with
  | [] => Some (Err (default "fallback: all children failed" last_err), c)
  | idx :: order =>
      match outs !! idx with
      | None => Some (Panic "index out of bounds", c)
      | Some child =>
          match manager_get m child with
          | Err e => failover_loop order (Some e) c
          | Panic e => Some (Panic e, c)
          | Ok ob =>
              match dial_child ob c with
              | None => None
              | Some (Ok leaf, c) =>
                  Some (Ok leaf, if (active_before <? idx)%nat then on_failover t idx c else c)
              | Some (Err e, c) => failover_loop order (Some e) c
              | Some (Panic e, c) => Some (Panic e, c)
              end
          end
      end
  end.
End Failover.

(** [Outbound::dial_tcp]. *)
Fixpoint dial_outbound (fuel : nat) (o : Outbound) (dest : SocketAddr) (domain : option (list byte))
    (c : Cells) : Dialled :=
  match fuel with
  | O => None
  | S fuel' =>
      match ob_body o with
      | Leaf _ => Some (_ ← leaf_dial (ob_tag o) dest domain; Ok (ob_tag o), c)
      | SelectorOutbound outs | UrlTestOutbound outs _ _ =>
          match (child ← selected_tag outs (cell c (ob_tag o)); manager_get m child) with
          | Ok ob => dial_outbound fuel' ob dest domain c
          | Err e => Some (Err e, c)
          | Panic e => Some (Panic e, c)
          end
      | FallbackOutbound outs _ _ =>
          let active := cell c (ob_tag o) in
          failover_loop (fun ob c => dial_outbound fuel' ob dest domain c) (ob_tag o) outs active
            (dial_order outs active) None c
      end
  end.
End Dial.

(** ** Probing *)

(** [run_probe], on the delays [probe_all] measured: the delays reported and the
    cells. *)
Fixpoint probe_loop (outs : list tag) (raw : list (tag * option Z)) (best : nat * Z)
    (out : list (tag * Z)) : nat * Z * list (tag * Z) :=
  match raw with
  | [] => (best, out)
  | (t, None) :: raw => probe_loop outs raw best out
  | (t, Some ms) :: raw =>
      let best := if ms <? best.2 then match position t outs with Some i => (i, ms) | None => best end
                  else best in
      probe_loop outs raw best (out ++ [(t, ms)])
  end.
Definition run_probe (t : tag) (outs : list tag) (raw : list (tag * option Z)) (c : Cells)
  : list (tag * Z) * Cells :=
  let '(best_idx, _, out) := probe_loop outs raw (O, 2 ^ 32 - 1) [] in
  (out, match out with [] => c | _ => <[t := best_idx]> c end).

(** [probe_all], with the delay of each reachable outbound. *)
Definition probe_all (m : OutboundManager) (probe_latency : Outbound -> option Z) (outs : list tag)
  : list (tag * option Z) :=
  map (fun t => (t, match manager_get m t with Ok ob => probe_latency ob | _ => None end)) outs.

Definition parse_probe_url (url : list byte) : result (list byte * Z * list byte) :=
  let rest := default url (or_else (strip_prefix url (str "https://")) (strip_prefix url (str "http://"))) in
  let '(host_port, path) := default (rest, str "/generate_204") (split_once x2f rest) in
  let path := match path with [] => str "/" | _ => x2f :: path end in
  '(host, port) ←
    match split_once x3a host_port with
    | Some (h, p) => p ← ok_or "probe port" (parse_uint 16 p); Ok (h, p)
    | None => Ok (host_port, if starts_with url (str "https://") then 443 else 80)
    end;
  Ok (host, port, path).
(** [pick_best]: the first of the smallest delays. *)
Definition pick_best (delays : list (tag * option Z)) : option tag :=
  fst <$> foldl (fun best d =>
    match d.2, best with
    | None, _ => best
    | Some ms, None => Some (d.1, ms)
    | Some ms, Some (b, bms) => if ms <? bms then Some (d.1, ms) else best
    end) None delays.

(** ** The controller *)

Record OutboundController := mkController {
  oc_selectors : gmap tag (list tag);
  oc_urltests : gmap tag (list tag);
  oc_fallbacks : gmap tag (list tag);
}.
Definition controller_select (oc : OutboundController) (t child : tag) (c : Cells) : result Cells :=
  outs ← ok_or "selector not found" (oc_selectors oc !! t);
  selector_select t outs child c.
Definition controller_selected (oc : OutboundController) (t : tag) (c : Cells) : option tag :=
  match oc_selectors oc !! t with
  | Some outs => Some (group_selected outs (cell c t))
  | None =>
      match oc_urltests oc !! t with
      | Some outs => Some (group_selected outs (cell c t))
      | None => (fun outs => fallback_selected outs (cell c t)) <$> oc_fallbacks oc !! t
      end
  end.
Definition restore_selectors (oc : OutboundController) (saved : list (tag * tag)) (c : Cells) : Cells :=
  foldl (fun c s => match oc_selectors oc !! s.1 with
                    | Some outs => match selector_select s.1 outs s.2 c with Ok c => c | _ => c end
                    | None => c
                    end) c saved.
Definition run_url_test (oc : OutboundController) (t : tag) (raw : list (tag * option Z)) (c : Cells)
  : result (tag * list (tag * Z)) * Cells :=
  match oc_urltests oc !! t with
  | Some outs => let '(out, c) := run_probe t outs raw c in (Ok (group_selected outs (cell c t), out), c)
  | None =>
      match oc_selectors oc !! t with
      | Some outs => (Ok (group_selected outs (cell c t), []), c)
      | None => (Err "group not found", c)
      end
  end.

(** ** The manager *)

(** The last outbound configured under a tag. *)
Definition find_last (t : tag) (obs : list Outbound) : option Outbound :=
  List.find (fun o => bool_decide (ob_tag o = t)) (rev obs).

Lemma index_loop_app obs o : forall i idx,
  index_loop i (obs ++ [o]) idx = <[ob_tag o := (i + length obs)%nat]> (index_loop i obs idx).
Proof.
  induction obs as [|p obs IH]; intros i idx; cbn [index_loop app length].
  - by rewrite Nat.add_0_r.
  - rewrite IH. by replace (S i + length obs)%nat with (i + S (length obs))%nat by lia.
Qed.

Lemma index_loop_lookup t obs :
  index_loop 0 obs ∅ !! t ≫= (fun i => obs !! i) = find_last t obs
  /\ forall i, index_loop 0 obs ∅ !! t = Some i -> (i < length obs)%nat.
Proof.
  induction obs as [|o obs [IH Hlt]] using rev_ind; [done|].
  rewrite index_loop_app. unfold find_last in *. rewrite rev_app_distr. cbn [rev app List.find].
  destruct (decide (ob_tag o = t)) as [E|E].
  - rewrite <-E, lookup_insert_eq, bool_decide_eq_true_2 by done. cbn [mbind option_bind].
    rewrite list_lookup_middle by lia. split; [done|]. intros i [= <-]. rewrite length_app. cbn. lia.
  - rewrite lookup_insert_ne, bool_decide_eq_false_2 by done. split.
    + rewrite <-IH. destruct (index_loop 0 obs ∅ !! t) as [i|] eqn:Ei; [|done]. cbn.
      specialize (Hlt i eq_refl). by rewrite lookup_app_l by lia.
    + intros i Hi. rewrite length_app. specialize (Hlt i Hi). lia.
Qed.

Lemma manager_get_spec obs d m t : manager_new obs d = Ok m ->
  manager_get m t = ok_or "outbound not found" (find_last t obs).
Proof.
  unfold manager_new. destruct (index_loop 0 obs ∅ !! d); [|done]. intros [= <-].
  unfold manager_get. cbn [om_index outbounds]. destruct (index_loop_lookup t obs) as [Hf Hlt].
  destruct (index_loop 0 obs ∅ !! t) as [i|]; cbn in *; [|by rewrite <-Hf].
  destruct (lookup_lt_is_Some_2 obs i (Hlt i eq_refl)) as [o Ho]. by rewrite <-Hf, Ho.
Qed.

(** ** Selecting *)

Lemma position_lookup x l i : position x l = Some i -> l !! i = Some x.
Proof.
  revert i. induction l as [|y l IH]; intros i; [done|]. cbn [position].
  case_bool_decide as E; [by intros [= <-]; subst y|].
  destruct (position x l) as [j|]; [|done]. intros [= <-]. by apply IH.
Qed.

Lemma position_elem x l : x ∈ l <-> is_Some (position x l).
Proof.
  induction l as [|y l IH]; cbn [position]; [split; [set_solver|intros [? [=]]]|].
  rewrite elem_of_cons. case_bool_decide as E; [subst; split; eauto|].
  rewrite IH. split; [intros [-> | [i ->]]; [done|by eexists]|].
  intros [i Hi]. right. destruct (position x l); [by eexists|done].
Qed.

Lemma cell_insert (c : Cells) t i : cell (<[t := i]> c) t = i.
Proof. unfold cell. by rewrite lookup_insert_eq. Qed.

(** Selecting a member through the API makes the next dial of the group a dial of
    that member; selecting anything else is refused and changes nothing. *)
Lemma select_then_dial leaf_dial m oc t outs child c fuel o dest dom :
  oc_selectors oc !! t = Some outs -> ob_tag o = t -> ob_body o = SelectorOutbound outs ->
  match controller_select oc t child c with
  | Ok c' => child ∈ outs /\ controller_selected oc t c' = Some child
      /\ dial_outbound leaf_dial m (S fuel) o dest dom c'
         = match manager_get m child with
           | Ok ob => dial_outbound leaf_dial m fuel ob dest dom c'
           | Err e => Some (Err e, c')
           | Panic e => Some (Panic e, c')
           end
  | Err _ => child ∉ outs
  | Panic _ => False
  end.
Proof.
  intros Hs Ht Hb. unfold controller_select, selector_select. rewrite Hs. cbn [ok_or mbind result_bind].
  destruct (position child outs) as [i|] eqn:E; cbn [ok_or mbind result_bind].
  - pose proof (position_lookup _ _ _ E) as Hi. split; [by apply list_elem_of_lookup_2 in Hi|]. split.
    + unfold controller_selected, group_selected. rewrite Hs, cell_insert, Hi. done.
    + cbn [dial_outbound]. rewrite Hb. unfold selected_tag. rewrite Ht, cell_insert, Hi. done.
  - rewrite position_elem, E. by intros [? ?].
Qed.

(** Two selectors that choose each other send a dial round for ever. *)
Lemma selector_cycle leaf_dial m a b oa ob dest dom c fuel :
  manager_get m a = Ok oa -> manager_get m b = Ok ob ->
  ob_body oa = SelectorOutbound [b] -> ob_body ob = SelectorOutbound [a] ->
  dial_outbound leaf_dial m fuel oa dest dom c = None
  /\ dial_outbound leaf_dial m fuel ob dest dom c = None.
Proof.
  intros Ha Hb Hoa Hob. induction fuel as [|fuel IH]; [done|]. cbn [dial_outbound]. rewrite Hoa, Hob.
  assert (Hsel : forall x i, selected_tag [x] i = Ok x) by (intros x [|[|i]]; done).
  rewrite !Hsel. cbn [mbind result_bind]. rewrite Ha, Hb. by destruct IH.
Qed.

(** ** Fallback *)

Section Cascade.
Variable leaf_dial : tag -> SocketAddr -> option (list byte) -> result unit.
Variables (m : OutboundManager) (t : tag) (outs : list tag) (dest : SocketAddr) (dom : option (list byte)).
(** Every member is a leaf known to the manager. *)
Hypothesis members : forall x, x ∈ outs -> exists k, manager_get m x = Ok (mkOutbound x (Leaf k)).
Hypothesis no_panic : forall x, is_panic (leaf_dial x dest dom) = false.

Definition answers (i : nat) : bool :=
  match outs !! i with Some x => is_ok (leaf_dial x dest dom) | None => false end.

Lemma failover_loop_find fuel active order : Forall (fun i => (i < length outs)%nat) order -> forall e c,
  match List.find answers order with
  | Some i => exists x, outs !! i = Some x /\
      failover_loop m (fun ob c => dial_outbound leaf_dial m (S fuel) ob dest dom c) t outs active order e c
      = Some (Ok x, if (active <? i)%nat then on_failover t i c else c)
  | None => exists msg,
      failover_loop m (fun ob c => dial_outbound leaf_dial m (S fuel) ob dest dom c) t outs active order e c
      = Some (Err msg, c)
  end.
Proof.
  induction 1 as [|i order Hi _ IH]; intros e c; cbn [List.find failover_loop]; [by eexists|].
  destruct (lookup_lt_is_Some_2 outs i Hi) as [x Hx]. unfold answers at 1. rewrite Hx.
  destruct (members x) as [k Hk]; [by eapply list_elem_of_lookup_2|]. rewrite Hk.
  cbn [dial_outbound ob_body ob_tag]. specialize (no_panic x).
  destruct (leaf_dial x dest dom) as [[]|msg|msg]; cbn [is_ok mbind result_bind]; [|apply IH|done].
  exists x. done.
Qed.
End Cascade.

(** C35.  Fallback groups.  A dial tries the active member and those below it, in
    order, and is answered by the first that can be reached; that member becomes
    the active one and earlier members are not tried again.  When none answers the
    dial fails and nothing changes.  The active index never moves up. *)
Theorem fallback_cascade leaf_dial m t outs timeout warm dest dom fuel c :
  (forall x, x ∈ outs -> exists k, manager_get m x = Ok (mkOutbound x (Leaf k))) ->
  (forall x, is_panic (leaf_dial x dest dom) = false) ->
  (cell c t < length outs)%nat ->
  let o := mkOutbound t (FallbackOutbound outs timeout warm) in
  let below := seq (cell c t) (length outs - cell c t) in
  exists r c', dial_outbound leaf_dial m (S (S fuel)) o dest dom c = Some (r, c')
    /\ (cell c t <= cell c' t)%nat
    /\ match List.find (answers leaf_dial outs dest dom) below with
       | Some i => r = ok_or "" (outs !! i) /\ is_ok r = true /\ cell c' t = i
       | None => is_ok r = false /\ c' = c
       end.
Proof.
  intros Hm Hp Hc o below.
  assert (Hord : dial_order outs (cell c t) = below).
  { unfold dial_order, below. destruct (length outs) as [|n] eqn:E; [lia|].
    by rewrite Nat.min_l by lia. }
  pose proof (failover_loop_find leaf_dial m t outs dest dom Hm Hp fuel (cell c t) below) as Hf.
  specialize (Hf ltac:(apply Forall_forall; intros i Hi; apply elem_of_seq in Hi; lia) None c).
  change (dial_outbound leaf_dial m (S (S fuel)) o dest dom c) with
    (failover_loop m (fun ob c => dial_outbound leaf_dial m (S fuel) ob dest dom c) t outs (cell c t)
       (dial_order outs (cell c t)) None c). rewrite Hord.
  destruct (List.find _ below) as [i|] eqn:Ef.
  - destruct Hf as (x & Hx & ->). apply List.find_some in Ef as [Hin _].
    apply list_elem_of_In, elem_of_seq in Hin. eexists _, _. split; [done|].
    assert (Hcell : cell (if (cell c t <? i)%nat then on_failover t i c else c) t = i).
    { destruct (cell c t <? i)%nat eqn:E; bool_props; [|lia]. unfold on_failover.
      rewrite (proj2 (Nat.leb_gt _ _)) by lia. apply cell_insert. }
    rewrite Hcell, Hx. split; [lia|done].
  - destruct Hf as [msg ->]. eexists _, _. done.
Qed.

Definition cascade_manager : OutboundManager :=
  mkOutboundManager [mkOutbound (str "a") (Leaf (str "vless")); mkOutbound (str "b") (Leaf (str "direct"))]
    (str "b") (<[str "b" := 1%nat]> (<[str "a" := 0%nat]> ∅)).
Definition cascade_dial (x : tag) (_ : SocketAddr) (_ : option (list byte)) : result unit :=
  if bool_decide (x = str "a") then Err "unreachable" else Ok tt.

Lemma fallback_cascade_witness :
  exists c', dial_outbound cascade_dial cascade_manager 2
      (mkOutbound (str "g") (FallbackOutbound [str "a"; str "b"] 5000 true)) (mkSocketAddr (V4 1) 443) None ∅
    = Some (Ok (str "b"), c') /\ cell c' (str "g") = 1%nat.
Proof.
  destruct (fallback_cascade cascade_dial cascade_manager (str "g") [str "a"; str "b"] 5000 true
    (mkSocketAddr (V4 1) 443) None 0 ∅) as (r & c' & Hd & _ & Hf).
  - intros x Hx. rewrite elem_of_cons, list_elem_of_singleton in Hx. destruct Hx as [-> | ->]; by eexists.
  - intros x. unfold cascade_dial. by case_bool_decide.
  - change (0 < 2)%nat. lia.
  - exists c'. destruct Hf as (Hr & _ & Hcell). rewrite Hd, Hr. done.
Defined.

(** *** Concurrent dials *)

(** Two dials that succeed at the same time each load the active index and then
    store their own. *)
Inductive mover := Succeeded (i : nat) | Moving (i : nat) | Settled.
Inductive mstep (t : tag) : Cells * list mover -> Cells * list mover -> Prop :=
| ms_load c ms k i : ms !! k = Some (Succeeded i) ->
    mstep t (c, ms) (c, <[k := if (i <=? cell c t)%nat then Settled else Moving i]> ms)
| ms_store c ms k i : ms !! k = Some (Moving i) ->
    mstep t (c, ms) (<[t := i]> c, <[k := Settled]> ms).

(** Alone, the two halves are [on_failover]. *)
Lemma mover_alone t i c c' ms : rtc (mstep t) (c, [Succeeded i]) (c', ms) -> ms = [Settled] ->
  c' = on_failover t i c.
Proof.
  intros Hs Hms. subst ms. unfold on_failover.
  apply rtc_inv in Hs as [[=]|((c1 & ms1) & H1 & Hs)].
  inversion H1 as [? ? k j Hk|? ? k j Hk]; subst; (destruct k as [|k]; [|done]); [|done].
  injection Hk as <-. cbn in Hs. destruct (i <=? cell c1 t)%nat.
  - apply rtc_inv in Hs as [[= ->]|((c2 & ms2) & H2 & _)]; [done|].
    inversion H2 as [? ? k ? Hk|? ? k ? Hk]; by destruct k.
  - apply rtc_inv in Hs as [[=]|((c2 & ms2) & H2 & Hs)].
    inversion H2 as [? ? k ? Hk|? ? k ? Hk]; subst; (destruct k as [|k]; [|done]); [done|].
    injection Hk as <-. cbn in Hs. apply rtc_inv in Hs as [[= ->]|((c3 & ms3) & H3 & _)]; [done|].
    inversion H3 as [? ? k ? Hk|? ? k ? Hk]; by destruct k.
Qed.

(** Concurrent dials of a fallback group can move it back up: when two
    members below the active one answer at the same time, the group can settle on
    the lower member first and then return to the higher one. *)
Theorem failover_race t c i j : (cell c t < i)%nat -> (i < j)%nat ->
  exists c1 c2 ms, rtc (mstep t) (c, [Succeeded i; Succeeded j]) (c1, ms)
    /\ cell c1 t = j /\ rtc (mstep t) (c1, ms) (c2, [Settled; Settled]) /\ cell c2 t = i.
Proof.
  intros Hi Hj. exists (<[t := j]> c), (<[t := i]> (<[t := j]> c)), [Moving i; Settled].
  rewrite !cell_insert. split_and!; try done.
  - eapply rtc_l; [by apply (ms_load _ _ _ 0 i)|]. cbn. rewrite (proj2 (Nat.leb_gt _ _)) by lia.
    eapply rtc_l; [by apply (ms_load _ _ _ 1 j)|]. cbn. rewrite (proj2 (Nat.leb_gt _ _)) by lia.
    eapply rtc_l; [by apply (ms_store _ _ _ 1 j)|]. apply rtc_refl.
  - eapply rtc_l; [by apply (ms_store _ _ _ 0 i)|]. apply rtc_refl.
Qed.

Lemma failover_race_witness :
  exists c1 c2 ms, rtc (mstep (str "g")) (∅, [Succeeded 1; Succeeded 2]) (c1, ms)
    /\ cell c1 (str "g") = 2%nat
    /\ rtc (mstep (str "g")) (c1, ms) (c2, [Settled; Settled]) /\ cell c2 (str "g") = 1%nat.
Proof. apply (failover_race (str "g") ∅ 1 2); [change (0 < 1)%nat; lia|lia]. Defined.

(** ** Url tests *)

(** The best delay so far, as [pick_best] keeps it. *)
Lemma probe_loop_best outs raw : (forall x ms, (x, Some ms) ∈ raw -> x ∈ outs /\ 0 <= ms < 2 ^ 32 - 1) ->
  forall best out b,
  (match b with
   | None => best.2 = 2 ^ 32 - 1 /\ out = []
   | Some (x, ms) => outs !! best.1 = Some x /\ best.2 = ms /\ ms < 2 ^ 32 - 1 /\ out <> []
   end) ->
  let '(best', out') := probe_loop outs raw best out in
  match foldl (fun best (d : tag * option Z) =>
    match d.2, best with
    | None, _ => best
    | Some ms, None => Some (d.1, ms)
    | Some ms, Some (b, bms) => if ms <? bms then Some (d.1, ms) else best
    end) b raw with
  | None => out' = []
  | Some (x, ms) => outs !! best'.1 = Some x /\ out' <> []
  end.
Proof.
  induction raw as [|[x [ms|]] raw IH]; intros Hraw best out b Hb; cbn [probe_loop foldl snd fst].
  - destruct b as [[x ms]|]; tauto.
  - destruct (Hraw x ms) as [Hin Hms]; [by left|].
    assert (Hraw' : forall x ms, (x, Some ms) ∈ raw -> x ∈ outs /\ 0 <= ms < 2 ^ 32 - 1)
      by (intros ? ? H; apply Hraw; by right).
    apply position_elem in Hin as [i Hi]. pose proof (position_lookup _ _ _ Hi) as Hx. rewrite Hi.
    apply (IH Hraw'). destruct b as [[y yms]|].
    + destruct Hb as (Hl & Hbest & Hlt & _). rewrite Hbest. destruct (ms <? yms) eqn:E; bool_props;
        (split_and!; [done|done|lia|by destruct out]).
    + destruct Hb as [Hbest ->]. rewrite Hbest, (proj2 (Z.ltb_lt _ _)) by lia. split_and!; [done|done|lia|done].
  - apply IH; [|done]. intros ? ? H. apply Hraw. by right.
Qed.

(** Url-test groups.  After a probe the group's choice is the member
    [pick_best] names: the first with the smallest delay among those that answered;
    when none answered the choice stays. *)
Theorem urltest_selects_best t outs raw c :
  (forall x ms, (x, Some ms) ∈ raw -> x ∈ outs /\ 0 <= ms < 2 ^ 32 - 1) ->
  let '(out, c') := run_probe t outs raw c in
  match pick_best raw with
  | Some x => group_selected outs (cell c' t) = x /\ x ∈ outs
  | None => c' = c /\ out = []
  end.
Proof.
  intros Hraw. unfold run_probe, pick_best.
  pose proof (probe_loop_best outs raw Hraw (O, 2 ^ 32 - 1) [] None ltac:(done)) as H.
  destruct (probe_loop outs raw (O, 2 ^ 32 - 1) []) as [[bi bms] out].
  set (f := foldl _ None raw) in *. destruct f as [[x ms]|]; cbn.
  - destruct H as [Hx Hne]. destruct out as [|o out]; [done|]. cbn [fst] in Hx.
    unfold group_selected. rewrite cell_insert, Hx. split; [done|]. by eapply list_elem_of_lookup_2.
  - by rewrite H.
Qed.

Lemma urltest_selects_best_witness :
  let '(out, c') := run_probe (str "g") [str "a"; str "b"; str "c"]
    [(str "a", Some 90); (str "b", None); (str "c", Some 40)] ∅ in
  group_selected [str "a"; str "b"; str "c"] (cell c' (str "g")) = str "c".
Proof.
  pose proof (urltest_selects_best (str "g") [str "a"; str "b"; str "c"]
    [(str "a", Some 90); (str "b", None); (str "c", Some 40)] ∅) as H.
  destruct (run_probe _ _ _ _) as [out c']. apply H.
  intros x ms Hx. rewrite !elem_of_cons in Hx. destruct Hx as [E|[E|[E|E]]]; [..|by apply elem_of_nil in E];
    simplify_eq; (split; [set_solver|lia]).
Defined.
