(* ===== verification/Dial.v ===== *)
(** * Dialling for inbounds

    [Dialer] of [rsb-core/src/runtime.rs], [TrackedStream] of
    [rsb-core/src/proxy_stream.rs], and the part of
    [rsb-protocol/src/inbound_proxy.rs] between a parsed target and a connection:
    [resolve_for_connect], [resolve_destination], [dial_tcp_only],
    [dial_tcp_with_client_watch], and the counter of active connections.

    The router, the outbound manager and the connection manager are those of
    their own files; looking up a name through the DNS router and dialling an
    outbound are arguments.  What the client and the timers do during a dial is
    given by a value of [Watch]. *)
From stdpp Require Import base tactics gmap list strings relations.
From Stdlib Require Import ZArith Lia.
From Stdlib Require Import Strings.Byte.
From S2P Require Import Prelude Json Text Ip Route Users Connections Groups.

Local Open Scope Z_scope.

(** ** Tracked connections *)

Record TrackedStream := mkTracked {
  ts_id : Z;
  ts_inbound : list byte;
  ts_outbound : list byte;
  ts_user : option (list byte);
}.
Definition tracked_stream (cm : ConnectionManager) (id : Z) : TrackedStream :=
  let '(inb, outb, user) := default (str "unknown", str "unknown", None) (connection_info cm id) in
  mkTracked id inb outb user.
(** [poll_read] and [poll_write] with [n] bytes transferred, and the drop. *)
Definition tracked_read (ts : TrackedStream) (n : Z) (cm : ConnectionManager) : ConnectionManager :=
  if 0 <? n then record_traffic cm (ts_inbound ts) (ts_outbound ts) 0 n (ts_user ts) else cm.
Definition tracked_write (ts : TrackedStream) (n : Z) (cm : ConnectionManager) : ConnectionManager :=
  if 0 <? n then record_traffic cm (ts_inbound ts) (ts_outbound ts) n 0 (ts_user ts) else cm.
Definition tracked_drop (ts : TrackedStream) (cm : ConnectionManager) : ConnectionManager :=
  untrack cm (ts_id ts).

Definition set_destination (md : Metadata) (d : option SocketAddr) : Metadata :=
  mkMetadata (md_network md) (md_source md) d (md_domain md) (md_protocol md) (md_process_name md)
    (md_process_path md) (md_inbound_tag md).

Section Dialer.
Context `{Regex}.
Variables (router : RuleRouter) (manager : OutboundManager).
(** [dial_tcp] of an outbound. *)
Variable dial : Outbound -> SocketAddr -> option (list byte) -> result unit.
(** [DnsRouter::lookup]. *)
Variable dns_lookup : list byte -> result (list IpAddr).
(** The time, in seconds. *)
Variable now : Z.

(** The tracked part of a dial; the connection is entered before the outbound is
    looked up. *)
Definition dial_track (md : Metadata) (t : list byte) (destination : SocketAddr)
    (cm : ConnectionManager) : Z * ConnectionManager :=
  track cm now (md_inbound_tag md) t (str "tcp") (md_source md) (Some destination) (md_domain md) None.

Definition dialer_dial_tcp (md : Metadata) (destination : SocketAddr) (cm : ConnectionManager)
  : result TrackedStream * ConnectionManager :=
  match route router md with
  | Ok t =>
      let '(conn_id, cm) := dial_track md t destination cm in
      match manager_get manager t with
      | Ok ob =>
          match dial ob destination (md_domain md) with
          | Ok _ => (Ok (tracked_stream cm conn_id), cm)
          | Err e => (Err "dial via outbound", untrack cm conn_id)
          | Panic e => (Panic e, cm)
          end
      | Err e => (Err e, cm)
      | Panic e => (Panic e, cm)
      end
  | Err e => (Err e, cm)
  | Panic e => (Panic e, cm)
  end.

Definition route_tag (md : Metadata) : result (list byte) := route router md.
Definition is_direct_outbound (t : list byte) : bool :=
  match manager_get manager t with
  | Ok o => bool_decide (kind o = str "direct")
  | _ => false
  end.

(** ** Resolution *)

Definition resolve_destination (placeholder : SocketAddr) (domain : option (list byte))
  : result SocketAddr :=
  match domain with
  | None => Ok placeholder
  | Some host =>
      addrs ← dns_lookup host;
      ip ← ok_or "dns lookup returned no addresses" (head addrs);
      Ok (mkSocketAddr ip (sa_port placeholder))
  end.

Definition unspecified (port : Z) : SocketAddr := mkSocketAddr (V4 0) port.

Definition metadata_for_route (peer : SocketAddr) (inbound_tag : list byte) (dest : SocketAddr)
    (domain process_name process_path : option (list byte)) : Metadata :=
  mkMetadata Tcp (Some peer) (if is_unspecified (sa_ip dest) then None else Some dest) domain
    (Some (str "https")) process_name process_path inbound_tag.

Definition resolve_for_connect (peer : SocketAddr) (inbound_tag : list byte) (dest : SocketAddr)
    (domain process_name process_path : option (list byte)) : result (SocketAddr * Metadata * bool) :=
  let md := metadata_for_route peer inbound_tag dest domain process_name process_path in
  t ← route_tag md;
  let use_system_dns := is_direct_outbound t in
  resolved ← match domain with
             | None => Ok dest
             | Some _ =>
                 if use_system_dns then Ok (unspecified (sa_port dest))
                 else resolve_destination dest domain
             end;
  Ok (resolved, set_destination md (Some resolved), use_system_dns).

(** ** [dial_tcp_only] *)

(** The first thing that cuts a dial short, if anything does: the client leaves
    before it starts, during resolution, while queueing for a permit or during the
    dial; or one of the three deadlines passes. *)
Inductive Watch :=
| Undisturbed
| GoneBefore
| GoneResolving
| ResolveTimeout
| GoneQueueing
| Saturated
| GoneDialling
| DialTimeout.

(** A dial that is dropped while the outbound is being dialled has tracked its
    connection already. *)
Definition dropped_dial (md : Metadata) (dest : SocketAddr) (cm : ConnectionManager)
  : ConnectionManager :=
  match route router md with
  | Ok t => (dial_track md t dest cm).2
  | _ => cm
  end.

Definition dial_tcp_with_client_watch (w : Watch) (md : Metadata) (dest : SocketAddr)
    (is_direct : bool) (cm : ConnectionManager) : result (option TrackedStream) * ConnectionManager :=
  match w, is_direct with
  | GoneQueueing, false => (Ok None, cm)
  | Saturated, false => (Err "outbound dial concurrency saturated", cm)
  | GoneDialling, _ => (Ok None, dropped_dial md dest cm)
  | DialTimeout, _ => (Err "outbound dial timeout", dropped_dial md dest cm)
  | _, _ =>
      let '(r, cm) := dialer_dial_tcp md dest cm in
      (Some <$> r, cm)
  end.

Definition dial_tcp_only (w : Watch) (peer : SocketAddr) (inbound_tag : list byte) (dest : SocketAddr)
    (domain process_name process_path : option (list byte)) (cm : ConnectionManager)
  : result (option TrackedStream) * ConnectionManager :=
  match w with
  | GoneBefore => (Ok None, cm)
  | GoneResolving => (Ok None, cm)
  | ResolveTimeout => (Err "CONNECT resolve timed out", cm)
  | _ =>
      match resolve_for_connect peer inbound_tag dest domain process_name process_path with
      | Ok (dest, md, is_direct) => dial_tcp_with_client_watch w md dest is_direct cm
      | Err e => (Err e, cm)
      | Panic e => (Panic e, cm)
      end
  end.
End Dialer.

(** ** Active connections *)

Definition MAX_ACTIVE_CONNECTIONS : Z := 512.

(** A task inside [try_acquire_active] has loaded the counter, holds a guard, or is
    elsewhere. *)
Inductive acq := Outside | Loaded (cur : Z) | Holding.
Record ActivePool := mkActivePool {
  counter : Z;
  tasks : list acq;
}.
(** One atomic operation of [try_acquire_active] or of a guard's drop. *)
Inductive astep : ActivePool -> ActivePool -> Prop :=
| as_load n ts i : ts !! i = Some Outside ->
    astep (mkActivePool n ts)
      (mkActivePool n (<[i := if MAX_ACTIVE_CONNECTIONS <=? n then Outside else Loaded n]> ts))
| as_exchange n ts i cur : ts !! i = Some (Loaded cur) ->
    astep (mkActivePool n ts)
      (if n =? cur then mkActivePool (cur + 1) (<[i := Holding]> ts)
       else mkActivePool n (<[i := Outside]> ts))
| as_drop n ts i : ts !! i = Some Holding ->
    astep (mkActivePool n ts) (mkActivePool (wrap 64 (n - 1)) (<[i := Outside]> ts)).

Definition holding (ts : list acq) : Z :=
  foldr (fun t acc => (match t with Holding => 1 | _ => 0 end) + acc) 0 ts.

Lemma holding_insert ts i a b : ts !! i = Some a ->
  holding (<[i := b]> ts)
  = holding ts - (match a with Holding => 1 | _ => 0 end) + (match b with Holding => 1 | _ => 0 end).
Proof.
  unfold holding. revert i. induction ts as [|t ts IH]; intros [|i] Hi; simplify_eq/=; [lia|].
  rewrite (IH i Hi). lia.
Qed.

Lemma holding_nonneg ts : 0 <= holding ts.
Proof. unfold holding. induction ts as [|[] ts IH]; simpl; lia. Qed.

Definition active_ok (p : ActivePool) : Prop :=
  counter p = holding (tasks p) /\ counter p <= MAX_ACTIVE_CONNECTIONS
  /\ Forall (fun t => match t with Loaded cur => cur < MAX_ACTIVE_CONNECTIONS | _ => True end) (tasks p).

Lemma astep_ok p p' : astep p p' -> active_ok p -> active_ok p'.
Proof.
  intros Hs (Hc & Hm & Hl). pose proof (holding_nonneg (tasks p)) as Hn.
  destruct Hs as [n ts i Hi|n ts i cur Hi|n ts i Hi]; cbn [counter tasks] in *.
  - unfold active_ok. cbn [counter tasks]. rewrite (holding_insert _ _ _ _ Hi).
    destruct (MAX_ACTIVE_CONNECTIONS <=? n) eqn:E; bool_props;
      (split_and!; [lia|done|apply Forall_insert; [done|lia || done]]).
  - pose proof (proj1 (Forall_lookup _ _) Hl _ _ Hi) as Hcur. cbn in Hcur.
    destruct (n =? cur) eqn:E; bool_props; unfold active_ok; cbn [counter tasks];
      rewrite (holding_insert _ _ _ _ Hi); (split_and!; [lia|lia|by apply Forall_insert]).
  - unfold active_ok. cbn [counter tasks]. rewrite (holding_insert _ _ _ _ Hi).
    assert (Hpos : 1 <= n).
    { pose proof (holding_nonneg (<[i := Outside]> ts)) as H0. rewrite (holding_insert _ _ _ _ Hi) in H0. lia. }
    unfold wrap. rewrite Z.mod_small by (unfold MAX_ACTIVE_CONNECTIONS in *; lia).
    split_and!; [lia|lia|by apply Forall_insert].
Qed.

(** The limit on inbound connections holds under concurrency.  However tasks
    acquire and release at the same time, the counter is exactly the number of
    connections that hold a guard and never exceeds 512. *)
Theorem active_connections_bounded n p :
  rtc astep (mkActivePool 0 (replicate n Outside)) p ->
  counter p = holding (tasks p) /\ holding (tasks p) <= MAX_ACTIVE_CONNECTIONS.
Proof.
  intros Hs. assert (Hok : active_ok p).
  { remember (mkActivePool 0 (replicate n Outside)) as p0 eqn:E. assert (active_ok p0).
    { subst p0. split_and!; [|done|by apply Forall_replicate].
      cbn [counter tasks]. clear. induction n as [|n IH]; [done|]. exact IH. }
    clear E. induction Hs; eauto using astep_ok. }
  destruct Hok as (Hc & Hm & _). by rewrite <-Hc.
Qed.

Lemma active_connections_bounded_witness :
  exists p, rtc astep (mkActivePool 0 (replicate 2 Outside)) p /\ holding (tasks p) = 1 /\ counter p = 1.
Proof.
  assert (Hrun : exists p, rtc astep (mkActivePool 0 (replicate 2 Outside)) p /\ holding (tasks p) = 1).
  { eexists. split; [|shelve].
    eapply rtc_l; [by apply (as_load _ _ 0)|]. eapply rtc_l; [by apply (as_load _ _ 1)|].
    eapply rtc_l; [by apply (as_exchange _ _ 0 0)|]. eapply rtc_l; [by apply (as_exchange _ _ 1 0)|].
    apply rtc_refl. Unshelve. by vm_compute. }
  destruct Hrun as (p & Hs & Hh). exists p. split; [done|]. split; [done|].
  destruct (active_connections_bounded 2 p Hs) as [-> _]. done.
Defined.

(** ** Tracking *)

Section Tracking.
Context `{Regex}.
Variables (router : RuleRouter) (manager : OutboundManager).
Variable dial : Outbound -> SocketAddr -> option (list byte) -> result unit.
Variable dns_lookup : list byte -> result (list IpAddr).
Variable now : Z.
Hypothesis dial_safe : forall o d dm, is_panic (dial o d dm) = false.
Hypothesis get_safe : forall t, is_panic (manager_get manager t) = false.

Definition conn_entry (id : Z) (md : Metadata) (t : list byte) (dest : SocketAddr) : ConnectionInfo :=
  mkConnectionInfo id (md_inbound_tag md) t (str "tcp") (md_source md) (Some dest) (md_domain md) None now.

(** Whether a dial of this kind leaves an entry behind although it produced no
    connection: it was dropped half-way, or the router named an outbound that does
    not exist. *)
Definition leaves_entry (w : Watch) (is_direct : bool) (md : Metadata) : bool :=
  match route router md with
  | Ok t =>
      match w with
      | GoneDialling | DialTimeout => true
      | GoneQueueing | Saturated => is_direct && negb (is_ok (manager_get manager t))
      | _ => negb (is_ok (manager_get manager t))
      end
  | _ => false
  end.

Lemma dialer_dial_tcp_tracks md dest cm : active cm !! next_id cm = None ->
  let '(r, cm') := dialer_dial_tcp router manager dial now md dest cm in
  match r with
  | Ok ts => exists t, route router md = Ok t /\ ts = mkTracked (next_id cm) (md_inbound_tag md) t None
      /\ active cm' = <[next_id cm := conn_entry (next_id cm) md t dest]> (active cm)
      /\ active (tracked_drop ts cm') = active cm
  | _ => match route router md with
         | Ok t => active cm' = if negb (is_ok (manager_get manager t))
                                then <[next_id cm := conn_entry (next_id cm) md t dest]> (active cm) else active cm
         | _ => active cm' = active cm
         end
  end.
Proof.
  intros Hfresh. unfold dialer_dial_tcp. destruct (route router md) as [t|e|e]; [|done..].
  unfold dial_track, track. specialize (get_safe t).
  destruct (manager_get manager t) as [ob|e|e]; [|done..].
  specialize (dial_safe ob dest (md_domain md)).
  destruct (dial ob dest (md_domain md)) as [u|e|e]; [|cbn; by rewrite delete_insert_id|done].
  exists t. unfold tracked_stream, connection_info. cbn [active]. rewrite lookup_insert_eq. cbn.
  split_and!; [done..|]. by rewrite delete_insert_id.
Qed.
End Tracking.

(** Tracking of dials.  A dial that produces a connection adds exactly one
    entry to the connection table, which dropping the connection removes.  A dial
    that produces none leaves the table as it was, except in two situations that
    leave an entry for ever: the dial was abandoned by its deadline or by the client
    while the outbound was being dialled, or the chosen outbound does not exist. *)
Theorem dial_tracking `{Regex} router manager dial dns_lookup now w peer inb dest dom pn pp cm :
  (forall o d dm, is_panic (dial o d dm) = false) ->
  (forall t, is_panic (manager_get manager t) = false) ->
  active cm !! next_id cm = None ->
  let '(r, cm') := dial_tcp_only router manager dial dns_lookup now w peer inb dest dom pn pp cm in
  match r with
  | Ok (Some ts) => ts_id ts = next_id cm /\ active (tracked_drop ts cm') = active cm
      /\ is_Some (active cm' !! next_id cm)
  | _ =>
      match resolve_for_connect router manager dns_lookup peer inb dest dom pn pp, w with
      | Ok (dest', md, is_direct), (Undisturbed | GoneQueueing | Saturated | GoneDialling | DialTimeout) =>
          if leaves_entry router manager w is_direct md
          then exists e, active cm' = <[next_id cm := e]> (active cm) else active cm' = active cm
      | _, _ => active cm' = active cm
      end
  end.
Proof.
  intros Hd Hg Hf. unfold dial_tcp_only.
  destruct (resolve_for_connect _ _ _ _ _ _ _ _ _) as [[[dest' md] is_direct]|e|e]; [|by destruct w..].
  pose proof (dialer_dial_tcp_tracks router manager dial now Hd Hg md dest' cm Hf) as Ht.
  unfold dial_tcp_with_client_watch, leaves_entry, dropped_dial.
  destruct (dialer_dial_tcp router manager dial now md dest' cm) as [r cm1].
  assert (Hrun : match Some <$> r with
    | Ok (Some ts) => ts_id ts = next_id cm /\ active (tracked_drop ts cm1) = active cm
        /\ is_Some (active cm1 !! next_id cm)
    | _ => if match route router md with Ok t => negb (is_ok (manager_get manager t)) | _ => false end
           then exists e, active cm1 = <[next_id cm := e]> (active cm) else active cm1 = active cm
    end).
  { destruct r as [ts|e|e]; cbn [fmap result_fmap].
    - destruct Ht as (t & _ & -> & Ha & Hdrop). split_and!; [done|done|]. rewrite Ha, lookup_insert_eq. by eexists.
    - destruct (route router md) as [t| |]; [|done..]. destruct (negb _); [by eexists|done].
    - destruct (route router md) as [t| |]; [|done..]. destruct (negb _); [by eexists|done]. }
  assert (Hdrop : if match route router md with Ok _ => true | _ => false end
    then exists e, active (match route router md with Ok t => (dial_track now md t dest' cm).2 | _ => cm end)
                   = <[next_id cm := e]> (active cm)
    else active (match route router md with Ok t => (dial_track now md t dest' cm).2 | _ => cm end) = active cm).
  { destruct (route router md); [by eexists|done..]. }
  destruct w, is_direct; cbn [andb]; try done;
    try (destruct (Some <$> r) as [[ts|]| |]; exact Hrun || done);
    destruct (route router md); exact Hdrop || done.
Qed.

Definition no_regex : Regex := fun _ _ => None.
Definition leak_manager : OutboundManager :=
  mkOutboundManager [mkOutbound (str "proxy") (Leaf (str "vless")); mkOutbound (str "direct") (Leaf (str "direct"))]
    (str "proxy") (<[str "direct" := 1%nat]> (<[str "proxy" := 0%nat]> ∅)).
Definition demo_peer : SocketAddr := mkSocketAddr (V4 2130706433) 40000.

Lemma leak_manager_safe t : is_panic (manager_get leak_manager t) = false.
Proof.
  unfold manager_get, leak_manager. cbn [om_index outbounds].
  destruct (decide (t = str "direct")) as [->|]; [done|]. rewrite lookup_insert_ne by done.
  destruct (decide (t = str "proxy")) as [->|]; [done|]. by rewrite lookup_insert_ne.
Qed.

Lemma dial_tracking_witness :
  let cm := with_registry new_registry in
  let '(r, cm') := dial_tcp_only (H := no_regex) (mkRuleRouter [] (str "proxy") ∅) leak_manager
    (fun _ _ _ => Ok tt) (fun _ => Ok [V4 16843009]) 0 DialTimeout demo_peer (str "in")
    (unspecified 443) (Some (str "example.com")) None None cm in
  is_ok r = false /\ exists e, active cm' = {[ 1 := e ]}.
Proof.
  pose proof (dial_tracking (H := no_regex) (mkRuleRouter [] (str "proxy") ∅) leak_manager
    (fun _ _ _ => Ok tt) (fun _ => Ok [V4 16843009]) 0 DialTimeout demo_peer (str "in")
    (unspecified 443) (Some (str "example.com")) None None (with_registry new_registry)
    ltac:(done) leak_manager_safe ltac:(done)) as H.
  cbn in H |- *. split; [done|]. exact H.
Defined.

(** ** Routing twice *)

(** A rule that does not look at the destination address or port. *)
Definition dest_blind (r : RouteRule) : Prop :=
  port r = [] /\ ip_is_private r = false /\ geosite r = [] /\ geoip r = [] /\ rule_set r = [] /\ ip_cidr r = [].

Lemma route_dest_blind `{Regex} router md d d' : Forall dest_blind (rules router) ->
  route router (set_destination md d) = route router (set_destination md d').
Proof.
  unfold route. induction 1 as [|r rs (Hp & Hpr & Hgs & Hgi & Hrs & Hip) _ IH]; [done|]. cbn [route_loop].
  assert (Heq : route_rule router r (set_destination md d) = route_rule router r (set_destination md d')).
  { unfold route_rule. rewrite Hp, Hpr, Hgs, Hgi, Hrs, Hip. cbn [is_empty negb orb andb existsb].
    cbn [md_network md_source md_domain md_protocol md_process_name md_process_path md_inbound_tag set_destination].
    destruct d, d'; done. }
  rewrite Heq, IH. done.
Qed.

(** A target given by name is routed twice.  When the first decision, made
    without an address, falls on a direct outbound, the dial decides again as if
    the destination were the address 0.0.0.0, and hands that address to whatever
    outbound it then finds.  The two decisions agree when no rule looks at
    destination addresses or ports; otherwise they need not. *)
Theorem connect_rerouted `{Regex} router manager dial dns_lookup now peer inb dest host pn pp cm t :
  is_unspecified (sa_ip dest) = true ->
  let md := metadata_for_route peer inb dest (Some host) pn pp in
  let md' := set_destination md (Some (unspecified (sa_port dest))) in
  route router md = Ok t -> is_direct_outbound manager t = true ->
  dial_tcp_only router manager dial dns_lookup now Undisturbed peer inb dest (Some host) pn pp cm
    = (let '(r, cm') := dialer_dial_tcp router manager dial now md' (unspecified (sa_port dest)) cm in
       (Some <$> r, cm'))
  /\ (Forall dest_blind (rules router) -> route router md' = Ok t).
Proof.
  intros Hu md md' Hr Hd. split.
  - unfold dial_tcp_only, resolve_for_connect, route_tag. fold md. rewrite Hr. cbn [mbind result_bind].
    rewrite Hd. done.
  - intros Hb. rewrite <-Hr. assert (Hmd : md = set_destination md None)
      by (unfold md, metadata_for_route; by rewrite Hu).
    transitivity (route router (set_destination md None)); [by apply route_dest_blind|by rewrite <-Hmd].
Qed.

(** The rule for port 443 is passed over when DNS is decided and taken when the
    connection is made: a proxy is asked to connect to 0.0.0.0. *)
Lemma connect_rerouted_witness :
  let r1 := mkRouteRule [] [] [Num (PosInt 443)] [] [str "a.example"] [] [] [] [] [] false [] [] [] [] [] (Some (str "proxy")) in
  let r2 := mkRouteRule [] [] [] [] [] [str "example"] [] [] [] [] false [] [] [] [] [] (Some (str "direct")) in
  let router := mkRuleRouter [r1; r2] (str "proxy") ∅ in
  let md := metadata_for_route demo_peer (str "in") (unspecified 443) (Some (str "a.example")) None None in
  route (H := no_regex) router md = Ok (str "direct")
  /\ (dial_tcp_only (H := no_regex) router leak_manager (fun _ _ _ => Ok tt) (fun _ => Ok []) 0 Undisturbed
        demo_peer (str "in") (unspecified 443) (Some (str "a.example")) None None (with_registry new_registry)).1
     = Ok (Some (mkTracked 1 (str "in") (str "proxy") None)).
Proof.
  intros r1 r2 router md. split; [by vm_compute|].
  rewrite (proj1 (connect_rerouted (H := no_regex) router leak_manager (fun _ _ _ => Ok tt) (fun _ => Ok []) 0
    demo_peer (str "in") (unspecified 443) (str "a.example") None None (with_registry new_registry) (str "direct")
    eq_refl ltac:(by vm_compute) ltac:(by vm_compute))).
  by vm_compute.
Defined.
