(* ===== verification/Inbound.v ===== *)
(** * The mixed inbound

    The handshakes of [rsb-protocol/src/inbound_proxy.rs]: SOCKS5, HTTP CONNECT
    and plain HTTP requests, on the bytes a client sends, and the relay that
    follows them.

    A socket is the list of bytes still to come, or, where buffering matters, the
    list of the reads that return them.  Opening the connection is an argument
    ([dial_tcp_only] with its parameters); timeouts of the handshake are errors of
    the reads and are not modelled. *)
From stdpp Require Import base tactics gmap list strings.
From Stdlib Require Import ZArith Lia.
From Stdlib Require Import Strings.Byte.
From S2P Require Import Prelude Json Text Ip DnsWire DnsRouter Users Connections Codec Dial.

Local Open Scope Z_scope.

(** What a handler does besides reading; after its last event it relays the rest
    of the client's stream, if it got that far. *)
Inductive io :=
| ToClient (bytes : list byte)
| ToRemote (bytes : list byte).
Record Handled (A : Type) := mkHandled {
  h_events : list io;
  h_result : result unit;
  h_relay : option A;
  h_cm : ConnectionManager;
}.
Arguments mkHandled {A}.
Arguments h_events {A}.
Arguments h_result {A}.
Arguments h_relay {A}.
Arguments h_cm {A}.

(** The handler stops with this result. *)
Definition stop {A B} (evs : list io) (r : result A) (cm : ConnectionManager) : Handled B :=
  mkHandled evs (_ ← r; Ok tt) None cm.

(** ** Text *)

(** [str::split_whitespace]. *)
Fixpoint take_word (s : list byte) : list byte * list byte :=
  match s with
  | [] => ([], [])
  | b :: s' =>
      match strip_one white_space s with
      | Some _ => ([], s)
      | None => let '(w, r) := take_word s' in (b :: w, r)
      end
  end.
Fixpoint words (fuel : nat) (s : list byte) : list (list byte) :=
  match fuel with
  | O => []
  | S fuel' =>
      match take_word (trim_start s) with
      | ([], _) => []
      | (w, r) => w :: words fuel' r
      end
  end.
Definition split_whitespace (s : list byte) : list (list byte) := words (S (length s)) s.

Definition parse_connect_target (target : list byte) : result (SocketAddr * option (list byte)) :=
  match parse_socket_addr target with
  | Some addr => Ok (addr, None)
  | None =>
      match rsplit_once x3a target with
      | Some (host, port) =>
          port ← ok_or "invalid connect port" (parse_uint 16 port);
          Ok (unspecified port, Some host)
      | None => Err "invalid connect target"
      end
  end.

(** Host and port of an authority, the port 80 when there is none. *)
Definition host_and_port (host_port : list byte) : result (list byte * Z) :=
  match split_once x3a host_port with
  | Some (host, port) => port ← ok_or "invalid digit found in string" (parse_uint 16 port); Ok (host, port)
  | None => Ok (host_port, 80)
  end.
Definition parse_http_url (url : list byte) : result (list byte * Z * list byte) :=
  match strip_prefix url (str "http://") with
  | Some rest =>
      match split_once x2f rest with
      | Some (host_port, path) =>
          '(host, port) ← host_and_port host_port; Ok (host, port, x2f :: path)
      | None => '(host, port) ← host_and_port rest; Ok (host, port, str "/")
      end
  | None =>
      match split_once x2f url with
      | Some (host_port, path) =>
          '(host, port) ← host_and_port host_port; Ok (host, port, x2f :: path)
      | None => Err "invalid HTTP URL"
      end
  end.

(** [line.to_lowercase().starts_with("host:")]: no character outside ASCII has a
    lower case among these letters. *)
Definition is_host_header (line : list byte) : bool :=
  eq_ignore_ascii_case (take 5 line) (str "host:").
(** The header lines copied, up to the first empty one. *)
Fixpoint header_lines (ls : list (list byte)) : list (list byte) :=
  match ls with
  | [] => []
  | [] :: _ => []
  | l :: ls => l :: header_lines ls
  end.
Definition rewrite_http_request (method host : list byte) (port : Z) (path original : list byte)
  : result (list byte) :=
  match lines original with
  | [] => Err "empty HTTP request"
  | l0 :: ls =>
      match split_whitespace l0 with
      | _ :: _ :: http_version :: _ =>
          let hs := header_lines ls in
          Ok (method ++ [x20] ++ path ++ [x20] ++ http_version ++ crlf
              ++ concat (map (fun l => l ++ crlf) hs)
              ++ (if existsb is_host_header hs then []
                  else if port =? 80 then str "Host: " ++ host ++ crlf
                  else str "Host: " ++ host ++ [x3a] ++ show_uint port ++ crlf)
              ++ crlf)
      | _ => Err "invalid HTTP request line"
      end
  end.

(** ** Buffered reading *)

Record BufReader := mkBufReader {
  br_buf : list byte;
  br_reads : list (list byte);
}.
(** [BufReader::buffer] is [br_buf]; [into_inner] keeps [br_reads] only. *)
Fixpoint fill_line (acc buf : list byte) (reads : list (list byte)) : list byte * BufReader :=
  match split_once x0a buf with
  | Some (l, r) => (acc ++ l ++ [x0a], mkBufReader r reads)
  | None =>
      match reads with
      | [] => (acc ++ buf, mkBufReader [] [])
      | [] :: reads => (acc ++ buf, mkBufReader [] reads)
      | c :: reads => fill_line (acc ++ buf) c reads
      end
  end.
Definition read_line (r : BufReader) : result (list byte * BufReader) :=
  let '(line, r) := fill_line [] (br_buf r) (br_reads r) in
  line ← from_utf8 line; Ok (line, r).

(** The header loop; the text of the request so far. *)
Fixpoint read_headers (fuel : nat) (full_request : list byte) (r : BufReader)
  : result (list byte * BufReader) :=
  match fuel with
  | O => Panic "fuel"
  | S fuel' =>
      '(line, r) ← read_line r;
      if bool_decide (line = crlf) || bool_decide (line = [x0a]) || bool_decide (line = [])
      then Ok (full_request ++ crlf, r)
      else read_headers fuel' (full_request ++ line) r
  end.
Definition remaining (r : BufReader) : list byte := br_buf r ++ concat (br_reads r).

(** ** Handlers *)

Section Handlers.
(** [dial_tcp_only] for this client. *)
Variable open : SocketAddr -> option (list byte) -> ConnectionManager
                -> result (option TrackedStream) * ConnectionManager.
(** The same under the budget of a CONNECT request: nothing when the five seconds
    pass first. *)
Variable open_in_budget : SocketAddr -> option (list byte) -> ConnectionManager
                          -> option (result (option TrackedStream)) * ConnectionManager.

Definition read_socks_addr (atyp : byte) (s : list byte)
  : result (SocketAddr * option (list byte) * list byte) :=
  if bz atyp =? 1 then
    '(buf, s) ← read_exact 6 s;
    ip ← slice_to buf 4;
    port ← u16_at buf 4;
    Ok (mkSocketAddr (V4 (be_decode ip)) port, None, s)
  else if bz atyp =? 3 then
    '(len, s) ← read_exact 1 s;
    len ← index len 0;
    '(buf, s) ← read_exact (bz len + 2) s;
    host ← slice_to buf (bz len);
    host ← from_utf8 host;
    port ← u16_at buf (bz len);
    Ok (unspecified port, Some host, s)
  else if bz atyp =? 4 then
    '(buf, s) ← read_exact 18 s;
    ip ← slice_to buf 16;
    port ← u16_at buf 16;
    Ok (mkSocketAddr (V6 (be_decode ip)) port, None, s)
  else Err "unsupported socks address type".

Definition socks_reply : list byte := [x05; x00; x00; x01; x00; x00; x00; x00; x00; x00].

Definition handle_socks5 (s : list byte) (cm : ConnectionManager) : Handled (list byte) :=
  match ('(header, s) ← read_exact 2 s;
         version ← index header 0;
         if negb (bz version =? 5) then Err "invalid socks version"
         else
           n ← index header 1;
           '(_, s) ← read_exact (bz n) s;
           Ok s) with
  | Ok s =>
      let evs := [ToClient [x05; x00]] in
      match ('(req, s) ← read_exact 4 s;
             atyp ← index req 3;
             '(dest, domain, s) ← read_socks_addr atyp s;
             Ok (dest, domain, s)) with
      | Ok (dest, domain, s) =>
          match open dest domain cm with
          | (Ok (Some _), cm) => mkHandled (evs ++ [ToClient socks_reply]) (Ok tt) (Some s) cm
          | (Ok None, cm) => mkHandled evs (Ok tt) None cm
          | (r, cm) => stop evs r cm
          end
      | r => stop evs r cm
      end
  | r => stop [] r cm
  end.

Definition established : list byte := str "HTTP/1.1 200 Connection Established" ++ crlf ++ crlf.
Definition http_error (code : Z) (reason body : list byte) : list byte :=
  str "HTTP/1.1 " ++ show_uint code ++ [x20] ++ reason ++ crlf
  ++ str "Content-Length: " ++ show_uint (zlen body) ++ crlf
  ++ str "Connection: close" ++ crlf ++ crlf ++ body.
Definition bad_gateway : io :=
  ToClient (http_error 502 (str "Bad Gateway") (str "outbound dial failed")).
Definition gateway_timeout : io :=
  ToClient (http_error 504 (str "Gateway Timeout") (str "outbound dial budget exceeded")).

(** [handle_http_proxy] with [dial_and_relay_with_initial_data]. *)
Definition handle_http_proxy (method target full_request : list byte) (reads : list (list byte))
    (cm : ConnectionManager) : Handled (list (list byte)) :=
  match ('(host, port, path) ← parse_http_url target;
         '(dest, domain) ← parse_connect_target (host ++ [x3a] ++ show_uint port);
         req ← rewrite_http_request method host port path full_request;
         Ok (dest, domain, req)) with
  | Ok (dest, domain, req) =>
      match open dest domain cm with
      | (Ok (Some _), cm) => mkHandled [ToRemote req] (Ok tt) (Some reads) cm
      | (Ok None, cm) => mkHandled [] (Ok tt) None cm
      | (r, cm) => stop [] r cm
      end
  | r => stop [] r cm
  end.

(** Method, target, the text of the request, and the reader behind it. *)
Definition read_http_head (reads : list (list byte))
  : result (list byte * list byte * list byte * BufReader) :=
  '(request_line, r) ← read_line (mkBufReader [] reads);
  let parts := split_whitespace (trim request_line) in
  method ← ok_or "no method" (parts !! 0%nat);
  target ← ok_or "no target" (parts !! 1%nat);
  '(full_request, r) ← read_headers (S (length (concat reads))) request_line r;
  Ok (method, target, full_request, r).

Definition plain_methods : list (list byte) :=
  [str "GET"; str "POST"; str "HEAD"; str "PUT"; str "DELETE"; str "OPTIONS"; str "PATCH"].

Definition handle_http_connect (reads : list (list byte)) (cm : ConnectionManager)
  : Handled (list (list byte)) :=
  match read_http_head reads with
  | Ok (method, target, full_request, r) =>
      if bool_decide (method = str "CONNECT") then
        match parse_connect_target target with
        | Ok (dest, domain) =>
            let buffered := br_buf r in
            match open_in_budget dest domain cm with
            | (Some (Ok (Some _)), cm) =>
                mkHandled ([ToClient established]
                           ++ (if bool_decide (buffered = []) then [] else [ToRemote buffered]))
                  (Ok tt) (Some (br_reads r)) cm
            | (Some (Ok None), cm) => mkHandled [] (Ok tt) None cm
            | (Some e, cm) => stop [bad_gateway] e cm
            | (None, cm) =>
                stop [gateway_timeout] (Err "CONNECT hard budget exceeded" : result unit) cm
            end
        | e => stop [] e cm
        end
      else if bool_decide (method ∈ plain_methods) then
        let h := handle_http_proxy method target full_request (br_reads r) cm in
        match h_result h with
        | Ok _ => h
        | e => stop (h_events h ++ [bad_gateway]) e (h_cm h)
        end
      else stop [] (Err "unsupported HTTP method" : result unit) cm
  | e => stop [] e cm
  end.
(** What one connection does, by the mode of its port; a client that closes
    without a word, or stays silent for five seconds, is dropped. *)
Inductive ProxyMode := Http | Socks | Mixed.

Definition as_stream (h : Handled (list (list byte))) : Handled (list byte) :=
  mkHandled (h_events h) (h_result h) (@concat byte <$> h_relay h) (h_cm h).

Definition handle_client (mode : ProxyMode) (reads : list (list byte)) (cm : ConnectionManager)
  : Handled (list byte) :=
  match concat reads with
  | [] => mkHandled [] (Ok tt) None cm
  | peek :: _ =>
      match mode with
      | Http => as_stream (handle_http_connect reads cm)
      | Socks => handle_socks5 (concat reads) cm
      | Mixed =>
          if bz peek =? 5 then handle_socks5 (concat reads) cm
          else as_stream (handle_http_connect reads cm)
      end
  end.
End Handlers.

(** ** SOCKS *)

(** A target as SOCKS clients write it. *)
Definition socks_type (t : DecodedSocksAddr) : byte :=
  match t with Ip (mkSocketAddr (V4 _) _) => x01 | Ip (mkSocketAddr (V6 _) _) => x04 | Domain _ _ => x03 end.
Definition socks_rest (t : DecodedSocksAddr) : list byte :=
  match t with
  | Ip a => ip_octets (sa_ip a) ++ be_encode 2 (sa_port a)
  | Domain host port => [u8 (zlen host)] ++ host ++ be_encode 2 port
  end.
Definition target_ok (t : DecodedSocksAddr) : Prop :=
  match t with
  | Ip a => sa_wf a
  | Domain host port => zlen host < 256 /\ utf8_valid host = true /\ in_u16 port
  end.
(** What the dialler is asked for. *)
Definition target_addr (t : DecodedSocksAddr) : SocketAddr * option (list byte) :=
  match t with Ip a => (a, None) | Domain host port => (unspecified port, Some host) end.

Lemma read_socks_addr_ok t rest : target_ok t ->
  read_socks_addr (socks_type t) (socks_rest t ++ rest) = Ok (target_addr t, rest).
Proof.
  intros Ht. unfold read_socks_addr. destruct t as [[[a|a] port]|host port]; cbn [target_ok socks_type socks_rest target_addr] in *.
  - destruct Ht as [Hip Hport]. cbn [sa_ip sa_port] in *. change (bz x01 =? 1) with true. cbn match.
    pose proof (zlen_ip_octets (V4 a)) as Hl.
    rewrite read_bytes_app by (rewrite zlen_app, Hl, zlen_be_encode; done). cbn [mbind result_bind].
    rewrite slice_to_app_eq by done. cbn [mbind result_bind].
    pose proof (u16_at_app (ip_octets (V4 a)) port [] Hport) as Hu. rewrite app_nil_r, Hl in Hu. rewrite Hu.
    cbn [mbind result_bind]. by rewrite (ip_octets_decode (V4 a) Hip).
  - destruct Ht as [Hip Hport]. cbn [sa_ip sa_port] in *. change (bz x04 =? 1) with false.
    change (bz x04 =? 3) with false. change (bz x04 =? 4) with true. cbn match.
    pose proof (zlen_ip_octets (V6 a)) as Hl.
    rewrite read_bytes_app by (rewrite zlen_app, Hl, zlen_be_encode; done). cbn [mbind result_bind].
    rewrite slice_to_app_eq by done. cbn [mbind result_bind].
    pose proof (u16_at_app (ip_octets (V6 a)) port [] Hport) as Hu. rewrite app_nil_r, Hl in Hu. rewrite Hu.
    cbn [mbind result_bind]. by rewrite (ip_octets_decode (V6 a) Hip).
  - destruct Ht as (Hlen & Hutf & Hport). change (bz x03 =? 1) with false. change (bz x03 =? 3) with true. cbn match.
    rewrite <-app_assoc. cbn [app]. rewrite read_exact_one. cbn [mbind result_bind].
    change (index [?b] 0) with (Ok b). cbn [mbind result_bind].
    rewrite bz_u8_small by (pose proof (zlen_nonneg host); lia).
    rewrite read_bytes_app by (rewrite zlen_app, zlen_be_encode; done). cbn [mbind result_bind].
    rewrite slice_to_app. cbn [mbind result_bind]. rewrite from_utf8_valid by done. cbn [mbind result_bind].
    pose proof (u16_at_app host port [] Hport) as Hu. rewrite app_nil_r in Hu. by rewrite Hu.
Qed.

(** The SOCKS5 handshake.  Whatever methods a client offers and whatever
    command it names, the server answers "no authentication", takes exactly the
    request off the stream, dials the requested target, and after a successful dial
    relays from the first byte behind the request: nothing is lost or consumed. *)
Theorem socks_handshake open methods version cmd rsv t payload cm :
  zlen methods < 256 -> target_ok t ->
  handle_socks5 open ([x05; u8 (zlen methods)] ++ methods ++ [version; cmd; rsv; socks_type t]
                      ++ socks_rest t ++ payload) cm
  = match open (target_addr t).1 (target_addr t).2 cm with
    | (Ok (Some _), cm) => mkHandled [ToClient [x05; x00]; ToClient socks_reply] (Ok tt) (Some payload) cm
    | (Ok None, cm) => mkHandled [ToClient [x05; x00]] (Ok tt) None cm
    | (r, cm) => stop [ToClient [x05; x00]] r cm
    end.
Proof.
  intros Hm Ht. unfold handle_socks5. rewrite (read_bytes_app [x05; _]) by done. cbn [mbind result_bind].
  change (index [x05; ?b] 0) with (Ok x05). cbn [mbind result_bind]. change (negb (bz x05 =? 5)) with false. cbn match.
  change (index [x05; ?b] 1) with (Ok b). cbn [mbind result_bind].
  rewrite bz_u8_small by (pose proof (zlen_nonneg methods); lia).
  rewrite read_bytes_app by done. cbn [mbind result_bind].
  rewrite (read_bytes_app [version; cmd; rsv; socks_type t]) by done. cbn [mbind result_bind].
  change (index [version; cmd; rsv; socks_type t] 3) with (Ok (socks_type t)). cbn [mbind result_bind].
  rewrite read_socks_addr_ok by done. destruct (target_addr t) as [dest dom]. cbn [mbind result_bind fst snd].
  destruct (open dest dom cm) as [[[ts|]|e|e] cm']; done.
Qed.

Lemma socks_handshake_witness :
  h_relay (handle_socks5 (fun _ _ cm => (Ok (Some (mkTracked 1 [] [] None)), cm))
    ([x05; x01] ++ [x00] ++ [x05; x03; x00; x03] ++ ([x0b] ++ str "example.com" ++ [x01; xbb]) ++ str "hello")
    (with_registry new_registry)) = Some (str "hello").
Proof.
  rewrite (socks_handshake _ [x00] x05 x03 x00 (Domain (str "example.com") 443) (str "hello")
    (with_registry new_registry) ltac:(done) ltac:(done)). done.
Defined.

(** ** HTTP requests *)

(** The characters of a header line. *)
Definition line_char (b : byte) : Prop := 32 <= bz b <= 126.
Definition header_text (hs : list (list byte)) : list byte := concat (map (fun h => h ++ crlf) hs).
Definition request_line (method target version : list byte) : list byte :=
  method ++ [x20] ++ target ++ [x20] ++ version.
Definition http_request (method target version : list byte) (hs : list (list byte)) : list byte :=
  request_line method target version ++ crlf ++ header_text hs ++ crlf.

Definition word_ok (w : list byte) : Prop := Forall printable w /\ w <> [].
Definition header_ok (h : list byte) : Prop := Forall line_char h /\ h <> [].

Lemma printable_line_char w : Forall printable w -> Forall line_char w.
Proof. intros H. eapply Forall_impl; [exact H|]. unfold printable, line_char. intros b. cbn. lia. Qed.


Lemma utf8_line l : Forall line_char l -> utf8_valid (l ++ crlf) = true.
Proof.
  intros H. apply utf8_ascii, Forall_app. split; [|by repeat constructor].
  eapply Forall_impl; [exact H|]. unfold line_char. cbn. lia.
Qed.

Lemma line_no_feed l : Forall line_char l -> x0a ∉ l ++ [x0d].
Proof.
  intros H Hin. apply elem_of_app in Hin as [Hin|Hin].
  - apply (proj1 (Forall_forall _ _) H) in Hin. by destruct Hin.
  - by apply list_elem_of_singleton in Hin.
Qed.

(** *** Reading lines *)

Lemma split_once_unique (c : byte) (l r l' r' : list byte) : c ∉ l -> c ∉ l' -> l ++ c :: r = l' ++ c :: r' -> l = l' /\ r = r'.
Proof.
  intros H H' E. pose proof (split_once_app c l r H) as S1. pose proof (split_once_app c l' r' H') as S2.
  rewrite E in S1. by simplify_eq.
Qed.

Lemma prefix_without (c : byte) buf x l r : c ∉ buf -> buf ++ x = l ++ c :: r ->
  exists l2, l = buf ++ l2 /\ x = l2 ++ c :: r.
Proof.
  intros Hb. revert l. induction buf as [|b buf IH]; intros l E; [by exists l|].
  apply not_elem_of_cons in Hb as [Hne Hb]. destruct l as [|b' l]; simplify_eq/=.
  destruct (IH Hb l) as (l2 & -> & ->); [done|]. by exists l2.
Qed.

Definition reads_ok (r : BufReader) : Prop := Forall (fun c => c <> []) (br_reads r).

Lemma fill_line_spec reads : Forall (fun c => c <> []) reads -> forall acc buf l r,
  x0a ∉ l -> buf ++ concat reads = l ++ x0a :: r ->
  exists br, fill_line acc buf reads = (acc ++ l ++ [x0a], br) /\ remaining br = r /\ reads_ok br.
Proof.
  induction 1 as [|c reads Hc Hreads IH]; intros acc buf l r Hl E.
  - rewrite app_nil_r in E. subst buf. cbn [fill_line]. rewrite split_once_app by done.
    eexists. split; [done|]. split; [apply app_nil_r|constructor].
  - cbn [fill_line]. destruct (split_once x0a buf) as [[l' r']|] eqn:Es.
    + apply split_once_Some in Es as [-> Hl']. rewrite <-app_assoc in E. cbn [app] in E.
      apply split_once_unique in E as [-> <-]; [|done..]. eexists. split; [done|].
      split; [done|]. by constructor.
    + apply split_once_None in Es. cbn [concat] in E.
      destruct (prefix_without _ _ _ _ _ Es E) as (l2 & -> & E2).
      destruct c as [|b c]; [done|].
      destruct (IH (acc ++ buf) (b :: c) l2 r) as (br & Hf & Hr); [|done|].
      { intros Hin. apply Hl. apply elem_of_app. by right. }
      exists br. rewrite Hf. split; [|done]. by rewrite <-!app_assoc.
Qed.

Lemma read_line_spec r l rest : reads_ok r -> Forall line_char l -> remaining r = l ++ crlf ++ rest ->
  exists r', read_line r = Ok (l ++ crlf, r') /\ remaining r' = rest /\ reads_ok r'.
Proof.
  intros Hok Hl E. unfold read_line.
  destruct (fill_line_spec (br_reads r) Hok [] (br_buf r) (l ++ [x0d]) rest) as (br & Hf & Hr).
  - by apply line_no_feed.
  - rewrite <-app_assoc. exact E.
  - rewrite Hf. cbn [app]. rewrite <-app_assoc. cbn [app]. fold crlf. rewrite from_utf8_valid by (by apply utf8_line).
    cbn [mbind result_bind]. by exists br.
Qed.

Lemma read_headers_spec body hs : Forall header_ok hs -> forall fuel full r, (length hs < fuel)%nat ->
  reads_ok r -> remaining r = header_text hs ++ crlf ++ body ->
  exists r', read_headers fuel full r = Ok (full ++ header_text hs ++ crlf, r')
    /\ remaining r' = body /\ reads_ok r'.
Proof.
  induction 1 as [|h hs [Hh Hne] _ IH]; intros [|fuel] full r Hf Hok E; simpl in Hf; try lia; cbn [read_headers].
  - destruct (read_line_spec r [] body Hok) as (r' & -> & Hr); [constructor|done|]. cbn [mbind result_bind app].
    rewrite bool_decide_eq_true_2 by done. cbn [orb]. by exists r'.
  - unfold header_text in E |- *. cbn [map concat] in E |- *. rewrite <-!app_assoc in E.
    destruct (read_line_spec r h _ Hok Hh E) as (r' & -> & Hr & Hok'). cbn [mbind result_bind].
    rewrite !bool_decide_eq_false_2.
    + cbn [orb]. destruct (IH fuel (full ++ h ++ crlf) r') as (r2 & -> & Hr2); [lia|done|done|].
      exists r2. split; [|done]. unfold header_text. by rewrite <-!app_assoc.
    + by destruct h as [|? [|]].
    + destruct h as [|b h]; [done|]. intros [= -> E2]. by destruct h.
    + intros E2. apply (f_equal length) in E2. rewrite length_app in E2. destruct h; [done|]. cbn in E2. lia.
Qed.

(** *** Words *)

Abbreviation no_head_printable := (forallb (fun w : list byte =>
  match w with b :: _ => negb (in_range 33 126 b) | [] => false end)).

Lemma strip_one_head seqs b s : printable b -> no_head_printable seqs = true -> strip_one seqs (b :: s) = None.
Proof.
  intros Hb. induction seqs as [|w seqs IH]; intros Hw; [done|]. cbn [forallb] in Hw. cbn [strip_one]. bool_props.
  destruct w as [|c w]; [done|]. destruct (starts_with (b :: s) (c :: w)) eqn:E; [|by apply IH].
  apply starts_with_spec in E as [t [= -> _]]. unfold printable in Hb. exfalso. revert H. unfold in_range.
  rewrite (proj2 (Z.leb_le _ _)), (proj2 (Z.leb_le _ _)) by lia. done.
Qed.

Lemma white_head b s : printable b -> strip_one white_space (b :: s) = None.
Proof. intros Hb. apply strip_one_head; [done|by vm_compute]. Qed.

Lemma strip_blank s : strip_one white_space (x20 :: s) = Some s.
Proof. by destruct s. Qed.
Lemma strip_feed s : strip_one (map (@rev byte) white_space) (x0a :: s) = Some s.
Proof. by destruct s. Qed.
Lemma strip_return s : strip_one (map (@rev byte) white_space) (x0d :: s) = Some s.
Proof. by destruct s. Qed.
Lemma white_blank s : is_Some (strip_one white_space (x20 :: s)).
Proof. exists s. apply strip_blank. Qed.

Lemma trim_start_head b s : printable b -> trim_start (b :: s) = b :: s.
Proof. intros Hb. unfold trim_start. cbn [length strip_all]. by rewrite white_head. Qed.

Lemma trim_end_crlf s c : printable c -> trim_end ((s ++ [c]) ++ crlf) = s ++ [c].
Proof.
  intros Hc. unfold trim_end.
  replace (length ((s ++ [c]) ++ crlf)) with (S (S (S (length s)))) by (rewrite !length_app; cbn; lia).
  rewrite !rev_app_distr. cbn [rev crlf app]. cbn [strip_all].
  rewrite strip_feed, strip_return, strip_one_head; [|done|by vm_compute]. cbn [rev]. by rewrite rev_involutive.
Qed.

Lemma take_word_sep m s : Forall printable m -> (s = [] \/ is_Some (strip_one white_space s)) ->
  take_word (m ++ s) = (m, s).
Proof.
  intros Hm Hs. induction Hm as [|b m Hb Hm IH]; cbn [app].
  - destruct s as [|c s]; [done|]. cbn [take_word]. destruct Hs as [|[r ->]]; done.
  - cbn [take_word]. by rewrite white_head, IH.
Qed.

Lemma words_step fuel m s : word_ok m -> (s = [] \/ is_Some (strip_one white_space s)) ->
  words (S fuel) (m ++ s) = m :: words fuel s.
Proof.
  intros [Hm Hne] Hs. cbn [words]. destruct m as [|b m]; [done|].
  assert (Hb : printable b) by (by inversion Hm). rewrite <-app_comm_cons, trim_start_head by done.
  rewrite app_comm_cons, take_word_sep by done. done.
Qed.

Lemma words_space fuel m s : word_ok m -> words fuel (x20 :: m ++ s) = words fuel (m ++ s).
Proof.
  intros [Hm Hne]. destruct m as [|b m]; [done|]. assert (Hb : printable b) by (by inversion Hm).
  assert (Ht : trim_start (x20 :: (b :: m) ++ s) = trim_start ((b :: m) ++ s)).
  { cbn [app]. rewrite (trim_start_head b) by done. unfold trim_start. cbn [length strip_all].
    by rewrite strip_blank, white_head. }
  destruct fuel; [done|]. cbn [words]. by rewrite Ht.
Qed.

Lemma word_last w : word_ok w -> exists w' c, w = w' ++ [c] /\ printable c.
Proof.
  intros [Hw Hne]. destruct w as [|c w' _] using rev_ind; [done|].
  exists w', c. split; [done|]. apply Forall_app in Hw as [_ Hc]. by inversion Hc.
Qed.

Lemma request_line_words m t v : word_ok m -> word_ok t -> word_ok v ->
  split_whitespace (trim (request_line m t v ++ crlf)) = [m; t; v]
  /\ split_whitespace (request_line m t v) = [m; t; v].
Proof.
  intros Hm Ht Hv.
  assert (Hw : split_whitespace (request_line m t v) = [m; t; v]).
  { unfold split_whitespace, request_line.
    assert (Hlen : exists k, length (m ++ [x20] ++ t ++ [x20] ++ v) = S (S (S k))).
    { exists (length m + length t + length v - 1)%nat. rewrite !length_app. destruct Hm as [_ ?].
      destruct m; [done|]. cbn [length]. lia. }
    destruct Hlen as [k ->]. cbn [app]. rewrite words_step; [|done|right; apply white_blank].
    rewrite words_space, words_step; [|done|right; apply white_blank|done].
    pose proof (words_space (S (S k)) v [] Hv) as Hs. rewrite app_nil_r in Hs. rewrite Hs.
    pose proof (words_step (S k) v [] Hv (or_introl eq_refl)) as He. rewrite app_nil_r in He. rewrite He.
    by destruct k. }
  split; [|done].
  replace (trim _) with (request_line m t v); [done|].
  unfold trim. destruct Hm as [Hm Hmne]. destruct m as [|b m]; [done|].
  assert (Hb : printable b) by (by inversion Hm). unfold request_line. cbn [app].
  rewrite trim_start_head by done. destruct (word_last v Hv) as (v' & c & -> & Hc).
  symmetry.
  replace (b :: (m ++ x20 :: t ++ x20 :: v' ++ [c]) ++ crlf)
    with (((b :: m ++ x20 :: t ++ x20 :: v') ++ [c]) ++ crlf).
  2:{ cbn [app]. f_equal. rewrite <-!app_assoc. cbn [app]. rewrite <-!app_assoc. cbn [app]. by rewrite <-!app_assoc. }
  rewrite trim_end_crlf by done. cbn [app].
  by rewrite <-!app_assoc; cbn [app]; rewrite <-?app_assoc.
Qed.

(** *** Lines *)

Lemma lines_go_chars h : Forall line_char h -> forall acc s, lines_go acc (h ++ s) = lines_go (rev h ++ acc) s.
Proof.
  induction 1 as [|b h Hb _ IH]; intros acc s; [done|]. cbn [app lines_go rev].
  rewrite bool_decide_eq_false_2 by (intros ->; by destruct Hb). by rewrite IH, <-app_assoc.
Qed.

Lemma lines_header_text ls : Forall (Forall line_char) ls -> lines (header_text ls) = ls.
Proof.
  unfold lines, header_text. induction 1 as [|h ls Hh _ IH]; [done|]. cbn [map concat].
  rewrite <-app_assoc, lines_go_chars by done. set (k := concat _) in *.
  change (crlf ++ k) with (x0d :: x0a :: k). cbn [lines_go].
  rewrite bool_decide_eq_false_2, bool_decide_eq_true_2, bool_decide_eq_true_2 by done.
  by rewrite app_nil_r, rev_involutive, IH.
Qed.

Lemma header_lines_stop hs : Forall header_ok hs -> header_lines (hs ++ [[]]) = hs.
Proof. induction 1 as [|h hs [_ Hne] _ IH]; [done|]. cbn. destruct h; [done|]. by rewrite IH. Qed.

(** The request as it is sent on: the target replaced by its path, the headers
    kept, and a [Host] header added when there was none. *)
Definition forwarded (method host : list byte) (port : Z) (path version : list byte)
    (hs : list (list byte)) : list byte :=
  method ++ [x20] ++ path ++ [x20] ++ version ++ crlf ++ header_text hs
  ++ (if existsb is_host_header hs then []
      else if port =? 80 then str "Host: " ++ host ++ crlf
      else str "Host: " ++ host ++ [x3a] ++ show_uint port ++ crlf)
  ++ crlf.

Lemma rewrite_request m t v hs host port path : word_ok m -> word_ok t -> word_ok v -> Forall header_ok hs ->
  rewrite_http_request m host port path (http_request m t v hs) = Ok (forwarded m host port path v hs).
Proof.
  intros Hm Ht Hv Hhs.
  assert (Hrl : Forall line_char (request_line m t v)).
  { unfold request_line. rewrite !Forall_app.
    assert (Hsp : Forall line_char [x20]) by (repeat constructor; by vm_compute).
    destruct Hm as [Hm _], Ht as [Ht _], Hv as [Hv _]. split_and!; try done; by apply printable_line_char. }
  assert (Hh : http_request m t v hs = header_text (request_line m t v :: hs ++ [[]])).
  { unfold http_request, header_text. cbn [map concat]. rewrite map_app, concat_app. cbn [map concat].
    by rewrite <-!app_assoc. }
  unfold rewrite_http_request. rewrite Hh, lines_header_text.
  - destruct (request_line_words m t v Hm Ht Hv) as [_ ->]. by rewrite header_lines_stop.
  - constructor; [done|]. apply Forall_app. split; [|by repeat constructor].
    eapply Forall_impl; [exact Hhs|]. by intros h [? _].
Qed.

Lemma length_headers hs : (length hs <= length (header_text hs))%nat.
Proof.
  unfold header_text. induction hs as [|h hs IH]; [done|]. cbn [map concat length].
  rewrite !length_app. cbn [length crlf]. lia.
Qed.

(** A reader that has taken its last read keeps no other. *)
Lemma fill_line_drained acc buf : br_reads (fill_line acc buf []).2 = [].
Proof. cbn. by destruct (split_once x0a buf) as [[]|]. Qed.

Lemma read_line_drained r l r' : br_reads r = [] -> read_line r = Ok (l, r') -> br_reads r' = [].
Proof.
  intros Hr. unfold read_line. rewrite Hr. pose proof (fill_line_drained [] (br_buf r)) as Hd.
  destruct (fill_line [] (br_buf r) []) as [line r2]. cbn [snd] in Hd.
  unfold from_utf8. destruct (utf8_valid line); [|done]. by intros [= _ <-].
Qed.

Lemma read_line_single c l r : c <> [] -> read_line (mkBufReader [] [c]) = Ok (l, r) -> br_reads r = [].
Proof.
  intros Hc. destruct c as [|b c]; [done|]. intros H.
  apply (read_line_drained (mkBufReader (b :: c) []) l); [done|exact H].
Qed.

Lemma read_headers_drained fuel : forall full r res r', br_reads r = [] ->
  read_headers fuel full r = Ok (res, r') -> br_reads r' = [].
Proof.
  induction fuel as [|fuel IH]; intros full r res r' Hr; [done|]. cbn [read_headers].
  destruct (read_line r) as [[line r1]|e|e] eqn:El; cbn [mbind result_bind]; [|done..].
  pose proof (read_line_drained _ _ _ Hr El) as Hr1. destruct (_ || _); [by intros [= _ <-]|]. by apply IH.
Qed.

(** The part of the handler before it looks at the method. *)
Lemma read_request reads m t v hs body : Forall (fun c => c <> []) reads ->
  word_ok m -> word_ok t -> word_ok v -> Forall header_ok hs ->
  concat reads = http_request m t v hs ++ body ->
  exists r, read_http_head reads = Ok (m, t, http_request m t v hs, r)
    /\ remaining r = body /\ (forall c, reads = [c] -> br_reads r = []).
Proof.
  intros Hreads Hm Ht Hv Hhs E. unfold http_request in E. rewrite <-!app_assoc in E.
  destruct (read_line_spec (mkBufReader [] reads) (request_line m t v) (header_text hs ++ crlf ++ body))
    as (r & Hrl & Hr & Hok).
  - exact Hreads.
  - unfold request_line. rewrite !Forall_app.
    assert (Hsp : Forall line_char [x20]) by (repeat constructor; by vm_compute).
    destruct Hm as [Hm _], Ht as [Ht _], Hv as [Hv _]. split_and!; try done; by apply printable_line_char.
  - unfold remaining. cbn [br_buf br_reads app]. exact E.
  - unfold read_http_head. rewrite Hrl. cbn [mbind result_bind]. cbv zeta. destruct (request_line_words m t v Hm Ht Hv) as [-> _].
    cbn [ok_or lookup list_lookup mbind result_bind].
    destruct (read_headers_spec body hs Hhs (S (length (concat reads))) (request_line m t v ++ crlf) r)
      as (r2 & Hh & Hr2 & Hok2); [|done|done|].
    { rewrite E, !length_app. pose proof (length_headers hs). lia. }
    rewrite Hh. cbn [mbind result_bind]. exists r2. split; [unfold http_request; by rewrite <-!app_assoc|].
    split; [done|]. intros c ->. eapply read_headers_drained; [|exact Hh].
    eapply read_line_single, Hrl. by inversion Hreads.
Qed.

(** A mixed port tells the two protocols apart by the first byte: a SOCKS greeting
    gets the SOCKS handler, a request line the HTTP one. *)
Lemma mixed_dispatch open timed reads cm :
  (forall s, concat reads = x05 :: s -> handle_client open timed Mixed reads cm = handle_client open timed Socks reads cm)
  /\ (forall m t v hs body, word_ok m -> concat reads = http_request m t v hs ++ body ->
      handle_client open timed Mixed reads cm = handle_client open timed Http reads cm).
Proof.
  unfold handle_client. split.
  - intros s E. by rewrite E.
  - intros m t v hs body [Hm Hne] E. destruct (concat reads) as [|b s]; [done|].
    destruct m as [|c m]; [done|]. cbn in E. injection E as -> _. apply Forall_cons in Hm as [Hc _].
    unfold printable in Hc. by rewrite (proj2 (Z.eqb_neq _ _)) by lia.
Qed.

(** HTTP CONNECT.  However the request and what follows it are cut into
    reads, the client is told the tunnel is up only after a successful dial, and
    then every byte behind the request reaches the remote, in order: first those
    the reader had buffered, then the relayed rest. *)
Theorem connect_tunnel open timed reads t v hs body dest dom ts cm cm' :
  Forall (fun c => c <> []) reads -> word_ok t -> word_ok v -> Forall header_ok hs ->
  concat reads = http_request (str "CONNECT") t v hs ++ body ->
  parse_connect_target t = Ok (dest, dom) -> timed dest dom cm = (Some (Ok (Some ts)), cm') ->
  exists buffered rest, body = buffered ++ concat rest
    /\ handle_http_connect open timed reads cm
       = mkHandled ([ToClient established] ++ (if bool_decide (buffered = []) then [] else [ToRemote buffered]))
           (Ok tt) (Some rest) cm'.
Proof.
  intros Hreads Ht Hv Hhs E Hp Ho.
  destruct (read_request reads (str "CONNECT") t v hs body) as (r & Hr & Hrem & _); try done.
  { split; [|done]. by repeat constructor. }
  exists (br_buf r), (br_reads r). split; [done|].
  unfold handle_http_connect. rewrite Hr. cbn match. rewrite bool_decide_eq_true_2 by done.
  rewrite Hp, Ho. done.
Qed.

(** Plain HTTP requests lose their body.  A request in absolute form is sent
    on rewritten, with its headers and a [Host] header, but the bytes of its body
    that arrived together with the headers are thrown away with the read buffer; a
    request that arrives in one piece loses its whole body. *)
Theorem http_body_lost open timed reads m t v hs body host port path dest dom ts cm cm' :
  Forall (fun c => c <> []) reads -> m ∈ plain_methods -> word_ok t -> word_ok v -> Forall header_ok hs ->
  concat reads = http_request m t v hs ++ body ->
  parse_http_url t = Ok (host, port, path) ->
  parse_connect_target (host ++ [x3a] ++ show_uint port) = Ok (dest, dom) ->
  open dest dom cm = (Ok (Some ts), cm') ->
  exists lost rest, body = lost ++ concat rest
    /\ handle_http_connect open timed reads cm
       = mkHandled [ToRemote (forwarded m host port path v hs)] (Ok tt) (Some rest) cm'
    /\ (reads = [http_request m t v hs ++ body] -> lost = body /\ rest = []).
Proof.
  intros Hreads Hm Ht Hv Hhs E Hu Hp Ho.
  assert (Hmw : word_ok m).
  { unfold plain_methods in Hm. rewrite !elem_of_cons in Hm.
    destruct Hm as [-> | [->|[-> | [->|[-> | [->|[->|Hm]]]]]]]; [..|by apply elem_of_nil in Hm];
      (split; [by repeat constructor|done]). }
  destruct (read_request reads m t v hs body) as (r & Hr & Hrem & Hok); try done.
  exists (br_buf r), (br_reads r). split; [done|]. split.
  - unfold handle_http_connect. rewrite Hr. cbn match.
    rewrite bool_decide_eq_false_2.
    2:{ intros ->. revert Hm. apply (bool_decide_unpack (str "CONNECT" ∉ plain_methods)). by vm_compute. }
    rewrite bool_decide_eq_true_2 by done. unfold handle_http_proxy. rewrite Hu. cbn [mbind result_bind].
    rewrite Hp. cbn [mbind result_bind]. rewrite rewrite_request by done. cbn [mbind result_bind]. by rewrite Ho.
  - intros Hone. apply Hok in Hone. unfold remaining in Hrem. rewrite Hone in Hrem |- *.
    by rewrite app_nil_r in Hrem.
Qed.

Definition demo_open (dest : SocketAddr) (dom : option (list byte)) (cm : ConnectionManager)
  : result (option TrackedStream) * ConnectionManager := (Ok (Some (mkTracked 1 [] [] None)), cm).

Definition demo_timed (dest : SocketAddr) (dom : option (list byte)) (cm : ConnectionManager)
  : option (result (option TrackedStream)) * ConnectionManager := (Some (demo_open dest dom cm).1, cm).

Lemma connect_tunnel_witness :
  exists buffered rest, str "early" = buffered ++ concat rest
    /\ handle_http_connect demo_open demo_timed
         [http_request (str "CONNECT") (str "example.com:443") (str "HTTP/1.1") [str "Host: example.com"] ++ str "ea";
          str "rly"] (with_registry new_registry)
       = mkHandled ([ToClient established] ++ (if bool_decide (buffered = []) then [] else [ToRemote buffered]))
           (Ok tt) (Some rest) (with_registry new_registry).
Proof.
  apply (connect_tunnel demo_open demo_timed _ (str "example.com:443") (str "HTTP/1.1") [str "Host: example.com"] (str "early")
    (unspecified 443) (Some (str "example.com")) (mkTracked 1 [] [] None) (with_registry new_registry));
    try done; repeat constructor; by vm_compute.
Defined.

(** A POST in one piece: the headers go out, the seven bytes of the body do not. *)
Lemma http_body_lost_witness :
  let req := http_request (str "POST") (str "http://example.com/f") (str "HTTP/1.1")
    [str "Host: example.com"; str "Content-Length: 7"] in
  handle_http_connect demo_open demo_timed [req ++ str "a=1&b=2"] (with_registry new_registry)
  = mkHandled [ToRemote (forwarded (str "POST") (str "example.com") 80 (str "/f") (str "HTTP/1.1")
      [str "Host: example.com"; str "Content-Length: 7"])] (Ok tt) (Some []) (with_registry new_registry).
Proof.
  intros req.
  destruct (http_body_lost demo_open demo_timed [req ++ str "a=1&b=2"] (str "POST") (str "http://example.com/f") (str "HTTP/1.1")
    [str "Host: example.com"; str "Content-Length: 7"] (str "a=1&b=2") (str "example.com") 80 (str "/f")
    (unspecified 80) (Some (str "example.com")) (mkTracked 1 [] [] None) (with_registry new_registry)
    (with_registry new_registry)
    ltac:(by repeat constructor) ltac:(by apply (bool_decide_unpack _); vm_compute)
    ltac:(split; [by repeat constructor|done]) ltac:(split; [by repeat constructor|done])
    ltac:(by repeat constructor) ltac:(done) ltac:(by vm_compute) ltac:(by vm_compute) ltac:(done))
    as (lost & rest & _ & Hh & Hone).
  rewrite Hh. destruct Hone as [_ ->]; done.
Defined.
