(* ===== verification/Tunnel.v ===== *)
(** * Tunnels

    [relay_proxy], [pump_until_eof] and [read_with_idle] of
    [rsb-protocol/src/inbound_proxy.rs] (the same loop serves
    [relay_bidirectional] and [relay_streams]): two pumps run side by side, each
    with a timer on its own reads, and the first to finish ends the tunnel.

    A run is driven by the arrivals on both sockets, with their times in
    milliseconds.  Writes are taken to succeed at once (a write that stalls for
    three seconds, or fails, ends the tunnel as well). *)
From stdpp Require Import base tactics list strings.
From Stdlib Require Import ZArith Lia.
From Stdlib Require Import Strings.Byte.
From S2P Require Import Prelude.

Local Open Scope Z_scope.

Definition RELAY_TOTAL_TIMEOUT : Z := 600000.
Definition RELAY_IDLE_TIMEOUT : Z := 8000.

Inductive arrival :=
| FromClient (bytes : list byte)
| FromRemote (bytes : list byte)
| ClientEnd
| RemoteEnd.

(** When the current read of each pump began, and what has been written. *)
Record Tunnel := mkTunnel {
  up_since : Z;
  down_since : Z;
  to_remote : list byte;
  to_client : list byte;
}.
Definition tunnel_start (t0 : Z) : Tunnel := mkTunnel t0 t0 [] [].

(** The moment the tunnel ends if nothing more arrives. *)
Definition deadline (t0 : Z) (s : Tunnel) : Z :=
  Z.min (Z.min (up_since s + RELAY_IDLE_TIMEOUT) (down_since s + RELAY_IDLE_TIMEOUT))
    (t0 + RELAY_TOTAL_TIMEOUT).

(** The tunnel after the arrivals, and when it ended. *)
Fixpoint relay_proxy (t0 : Z) (s : Tunnel) (evs : list (Z * arrival)) : Tunnel * Z :=
  match evs with
  | [] => (s, deadline t0 s)
  | (t, e) :: evs =>
      if deadline t0 s <=? t then (s, deadline t0 s)
      else match e with
      | FromClient b => relay_proxy t0 (mkTunnel t (down_since s) (to_remote s ++ b) (to_client s)) evs
      | FromRemote b => relay_proxy t0 (mkTunnel (up_since s) t (to_remote s) (to_client s ++ b)) evs
      | ClientEnd | RemoteEnd => (s, t)
      end
  end.

(** ** Delivery *)

Definition client_bytes (e : Z * arrival) : list byte := match e.2 with FromClient b => b | _ => [] end.
Definition remote_bytes (e : Z * arrival) : list byte := match e.2 with FromRemote b => b | _ => [] end.

(** Both directions stay busy: no read waits for the idle timeout, and the whole
    takes less than the total timeout. *)
Fixpoint lively (t0 tu td : Z) (evs : list (Z * arrival)) : Prop :=
  match evs with
  | [] => True
  | (t, e) :: evs =>
      t < tu + RELAY_IDLE_TIMEOUT /\ t < td + RELAY_IDLE_TIMEOUT /\ t < t0 + RELAY_TOTAL_TIMEOUT
      /\ match e with
         | FromClient _ => lively t0 t td evs
         | FromRemote _ => lively t0 tu t evs
         | ClientEnd | RemoteEnd => True
         end
  end.
Definition data (e : Z * arrival) : Prop := match e.2 with ClientEnd | RemoteEnd => False | _ => True end.

(** A tunnel with traffic in both directions delivers everything. *)
Lemma lively_delivers t0 evs : Forall data evs -> forall s, lively t0 (up_since s) (down_since s) evs ->
  to_remote (relay_proxy t0 s evs).1 = to_remote s ++ concat (map client_bytes evs)
  /\ to_client (relay_proxy t0 s evs).1 = to_client s ++ concat (map remote_bytes evs).
Proof.
  induction 1 as [|[t e] evs Hd _ IH]; intros s Hl; cbn [relay_proxy map concat].
  { by rewrite !app_nil_r. }
  destruct Hl as (H1 & H2 & H3 & Hl). unfold deadline at 1 3.
  rewrite (proj2 (Z.leb_gt _ _)) by lia. unfold client_bytes at 1, remote_bytes at 1. cbn [snd].
  destruct e as [b|b| |]; try done;
    match goal with |- context [relay_proxy t0 ?s' evs] => destruct (IH s' Hl) as [-> ->] end;
    cbn [to_remote to_client app]; by rewrite <-?app_assoc.
Qed.

(** What arrives from the remote before a given time. *)
Definition arrived_before (limit : Z) (arr : list (Z * list byte)) : list byte :=
  concat (map snd (filter (fun a => a.1 < limit) arr)).

(** One-way transfers are cut after eight seconds.  When a client has sent
    its request and only listens, nothing the remote sends eight seconds or more
    after the tunnel started is delivered, however steadily it sends: the idle timer
    of the silent direction alone ends the tunnel. *)
Theorem one_way_transfer_cut t0 arr :
  let '(s, e) := relay_proxy t0 (tunnel_start t0) (map (fun a => (a.1, FromRemote a.2)) arr) in
  e <= t0 + RELAY_IDLE_TIMEOUT
  /\ to_client s `prefix_of` arrived_before (t0 + RELAY_IDLE_TIMEOUT) arr.
Proof.
  unfold tunnel_start.
  assert (Hgen : forall td out, let '(s, e) := relay_proxy t0 (mkTunnel t0 td [] out) (map (fun a => (a.1, FromRemote a.2)) arr) in
    e <= t0 + RELAY_IDLE_TIMEOUT
    /\ exists l, to_client s = out ++ l /\ l `prefix_of` arrived_before (t0 + RELAY_IDLE_TIMEOUT) arr).
  { induction arr as [|[t b] arr IH]; intros td out; cbn [map relay_proxy].
    - split; [unfold deadline; cbn; lia|]. exists []. split; [by rewrite app_nil_r|apply prefix_nil].
    - cbn [fst snd]. destruct (deadline t0 (mkTunnel t0 td [] out) <=? t) eqn:E.
      + split; [unfold deadline; cbn; lia|]. exists []. split; [by rewrite app_nil_r|apply prefix_nil].
      + bool_props. unfold deadline in E. cbn [up_since down_since] in E.
        cbn [up_since down_since to_remote to_client app]. specialize (IH t (out ++ b)).
        destruct (relay_proxy _ _ _) as [s e]. destruct IH as (He & l & Hl & Hp). split; [done|].
        exists (b ++ l). split; [by rewrite Hl, <-app_assoc|].
        unfold arrived_before. rewrite filter_cons_True by (cbn; lia). cbn [map concat snd].
        by apply prefix_app. }
  specialize (Hgen t0 []). destruct (relay_proxy _ _ _) as [s e]. destruct Hgen as (He & l & -> & Hp). done.
Qed.

(** A download that sends a byte every second loses what comes after the eighth. *)
Lemma one_way_transfer_cut_witness :
  let arr := map (fun t => (t, [x41])) [1000; 2000; 3000; 4000; 5000; 6000; 7000; 7999; 8000; 9000] in
  let '(s, e) := relay_proxy 0 (tunnel_start 0) (map (fun a => (a.1, FromRemote a.2)) arr) in
  e <= 8000 /\ to_client s = replicate 8 x41.
Proof.
  set (arr := map _ _).
  pose proof (one_way_transfer_cut 0 arr) as H.
  vm_compute in H |- *. split; [apply H|done].
Defined.
