(* ===== verification/RsqProtocol.v ===== *)
(** * RSQ wire format (crates/rsb-protocol/src/rsq/protocol.rs)

    Varints, frames, TCP-open replies and UDP messages, as the byte-level
    functions of the source.  A decoder takes the bytes of its cursor and
    returns the value with the bytes that are left; an encoder returns the
    bytes it appends. *)
From stdpp Require Import base tactics gmap list strings.
From Stdlib Require Import ZArith Lia.
From Stdlib Require Import Strings.Byte.
From S2P Require Import Prelude.

Local Open Scope Z_scope.

(** ** Constants *)

Definition MAGIC : list byte := [x52; x53; x51; x01].

Definition FRAME_AUTH_REQ : byte := x01.
Definition FRAME_AUTH_OK : byte := x02.
Definition FRAME_TCP_OPEN : byte := x10.
Definition FRAME_TCP_OK : byte := x11.
Definition FRAME_TCP_ERR : byte := x12.
Definition FRAME_PING : byte := x20.
Definition FRAME_PONG : byte := x21.

Definition FLAG_PADDING : byte := x01.

(** ** Varints *)

Definition write_varint (buf : list byte) (value : Z) : list byte :=
  buf ++
  (if value <=? 63 then [u8 value]
   else if value <=? 16383 then
     [bor (u8 (Z.shiftr value 8)) x40; u8 value]
   else if value <=? 1073741823 then
     [bor (u8 (Z.shiftr value 24)) x80; u8 (Z.shiftr value 16);
      u8 (Z.shiftr value 8); u8 value]
   else
     [bor (u8 (Z.shiftr value 56)) xc0; u8 (Z.shiftr value 48);
      u8 (Z.shiftr value 40); u8 (Z.shiftr value 32);
      u8 (Z.shiftr value 24); u8 (Z.shiftr value 16);
      u8 (Z.shiftr value 8); u8 value]).

(** The [for _ in 1..len] loop of [read_varint]. *)
Fixpoint read_varint_loop (n : nat) (value : Z) (buf : list byte)
  : result (Z * list byte) :=
  match n with
  | O => Ok (value, buf)
  | S n' =>
      '(b, buf') ← get_u8 buf;
      read_varint_loop n' (Z.lor (u64 (Z.shiftl value 8)) (bz b)) buf'
  end.

Definition read_varint (buf : list byte) : result (Z * list byte) :=
  if (length buf =? 0)%nat then Err "empty varint"
  else
    '(first, buf) ← get_u8 buf;
    let len := Z.shiftl 1 (Z.shiftr (bz first) 6) in
    let value := Z.land (bz first) 63 in
    if 1 <? len then
      if zlen buf <? len - 1 then Err "truncated varint"
      else read_varint_loop (Z.to_nat (len - 1)) value buf
    else Ok (value, buf).

(** ** Frames *)

(** [encode_frame], with the random padding drawn from [rnd]. *)
Definition encode_frame (rnd : nat -> byte) (frame_type flags : byte)
    (payload : list byte) (pad_len : Z) : list byte :=
  let pad_len := Z.min pad_len 128 in
  let flags := if 0 <? pad_len then bor flags FLAG_PADDING else flags in
  let buf := MAGIC ++ [frame_type] ++ [flags] in
  let buf := write_varint buf (zlen payload) ++ payload in
  if 0 <? pad_len then
    buf ++ [u8 pad_len] ++ fill_bytes rnd (Z.to_nat pad_len)
  else buf.

Record DecodedFrame := mkDecodedFrame {
  frame_type : byte;
  flags : byte;
  payload : list byte;
}.

Definition frame_wire_len (buf : list byte) : result (option Z) :=
  if zlen buf <? 6 then Ok None
  else
    magic ← slice_to buf 4;
    if negb (bool_decide (magic = MAGIC)) then Err "bad rsq magic"
    else
      flags ← index buf 5;
      cursor ← slice_from buf 6;
      match read_varint cursor with
      | Panic e => Panic e
      | Err e => if str_contains e "truncated" then Ok None else Err e
      | Ok (payload_len, cursor) =>
          let header_len := zlen buf - zlen cursor in
          if zlen cursor <? payload_len then Ok None
          else if negb (Z.land (bz flags) (bz FLAG_PADDING) =? 0) then
            if zlen cursor <? payload_len + 1 then Ok None
            else
              pad_byte ← index cursor payload_len;
              let pad_len := bz pad_byte in
              if 128 <? pad_len then Err "invalid padding length"
              else if zlen cursor <? payload_len + 1 + pad_len then Ok None
              else Ok (Some (header_len + payload_len + (1 + pad_len)))
          else Ok (Some (header_len + payload_len + 0))
      end.

Definition frame_consumed_len (buf : list byte) : result Z :=
  o ← frame_wire_len buf; ok_or "incomplete frame" o.

Definition try_decode_frame (buf : list byte) : result (option DecodedFrame) :=
  o ← frame_wire_len buf;
  match o with
  | None => Ok None
  | Some total =>
      if zlen buf <? total then Ok None
      else
        frame_type ← index buf 4;
        flags ← index buf 5;
        cursor ← slice_from buf 6;
        '(payload_len, cursor) ← read_varint cursor;
        payload ← slice_to cursor payload_len;
        Ok (Some (mkDecodedFrame frame_type flags payload))
  end.

(** [decode_frame] advances the buffer past the frame it returns. *)
Definition decode_frame (buf : list byte) : result (DecodedFrame * list byte) :=
  o ← frame_wire_len buf;
  total ← ok_or "incomplete frame" o;
  d ← try_decode_frame buf;
  decoded ← ok_or "incomplete frame" d;
  rest ← slice_from buf total;
  Ok (decoded, rest).

(** ** TCP open and its reply *)

Definition encode_tcp_open rnd (addr : list byte) (padding_len : Z) : list byte :=
  encode_frame rnd FRAME_TCP_OPEN x00 addr padding_len.
Definition encode_tcp_ok rnd (padding_len : Z) : list byte :=
  encode_frame rnd FRAME_TCP_OK x00 (str "ok") padding_len.
Definition encode_tcp_err rnd (message : list byte) (padding_len : Z) : list byte :=
  encode_frame rnd FRAME_TCP_ERR x00 message padding_len.

Inductive TcpOpenReply :=
| ReplyOk
| ReplyErr (msg : list byte).

Definition decode_tcp_open (buf : list byte) : result (list byte * list byte) :=
  '(frame, rest) ← decode_frame buf;
  if negb (bool_decide (frame_type frame = FRAME_TCP_OPEN)) then
    Err "expected TCP_OPEN"
  else
    target ← context "tcp open target utf8" (from_utf8 (payload frame));
    Ok (target, rest).

(** [try_decode_tcp_reply]: the reply, if complete, and the buffer left. *)
Definition try_decode_tcp_reply (buf : list byte)
  : result (option TcpOpenReply * list byte) :=
  o ← frame_wire_len buf;
  match o with
  | None => Ok (None, buf)
  | Some total =>
      if zlen buf <? total then Ok (None, buf)
      else
        d ← try_decode_frame buf;
        frame ← ok_or "partial tcp reply frame" d;
        reply ←
          (if bool_decide (frame_type frame = FRAME_TCP_OK) then Ok ReplyOk
           else if bool_decide (frame_type frame = FRAME_TCP_ERR) then
             Ok (ReplyErr (match from_utf8 (payload frame) with
                           | Ok msg => msg
                           | _ => str "connect failed"
                           end))
           else Err "unexpected tcp reply frame");
        rest ← slice_from buf total;
        Ok (Some reply, rest)
  end.

(** [random_pad_len]; [r] is the drawn [u32]. *)
Definition random_pad_len (r : Z) (min max : Z) : Z :=
  let span := saturating_sub max min + 1 in
  min + r `mod` span.

(** ** UDP messages *)

Record UdpMessage := mkUdpMessage {
  session_id : Z;
  packet_id : Z;
  fragment_id : Z;
  fragment_count : Z;
  addr : list byte;
  udp_payload : list byte;
}.

#[export] Instance UdpMessage_eq_dec : EqDecision UdpMessage.
Proof. solve_decision. Defined.

Definition udp_encode (m : UdpMessage) (buf : list byte) : list byte :=
  let buf := buf ++ be_encode 4 (session_id m) in
  let buf := buf ++ be_encode 2 (packet_id m) in
  let buf := buf ++ [u8 (fragment_id m)] in
  let buf := buf ++ [u8 (fragment_count m)] in
  let buf := write_varint buf (zlen (addr m)) in
  let buf := buf ++ addr m in
  buf ++ udp_payload m.

Definition udp_decode (buf : list byte) : result UdpMessage :=
  if zlen buf <? 8 then Err "truncated udp header"
  else
    '(session_id, buf) ← get_be 4 buf;
    '(packet_id, buf) ← get_be 2 buf;
    '(fragment_id, buf) ← get_u8 buf;
    '(fragment_count, buf) ← get_u8 buf;
    '(addr_len, buf) ← read_varint buf;
    if zlen buf <? addr_len then Err "truncated udp address"
    else
      let addr_bytes := take (Z.to_nat addr_len) buf in
      let buf := drop (Z.to_nat addr_len) buf in
      addr ← context "udp addr utf8" (from_utf8 addr_bytes);
      Ok (mkUdpMessage session_id packet_id (bz fragment_id) (bz fragment_count)
            addr buf).

(** ** Varint lemmas *)

Lemma read_varint_loop_be n : forall value v rest,
  0 <= value -> value * 2 ^ (8 * Z.of_nat n) + 2 ^ (8 * Z.of_nat n) <= 2 ^ 64 ->
  read_varint_loop n value (be_encode n v ++ rest)
  = Ok (value * 2 ^ (8 * Z.of_nat n) + v `mod` 2 ^ (8 * Z.of_nat n), rest).
Proof.
  induction n as [|n IH]; intros value v rest Hv Hb; simpl.
  { rewrite Z.mod_1_r. do 2 f_equal. lia. }
  change (be_encode (S n) v) with (u8 (Z.shiftr v (8 * Z.of_nat n)) :: be_encode n v).
  simpl.
  replace (8 * Z.of_nat (S n)) with (8 * Z.of_nat n + 8) in * by lia.
  rewrite Z.pow_add_r in * by lia. change (2 ^ 8) with 256 in *.
  set (p := 2 ^ (8 * Z.of_nat n)) in *.
  assert (Hp : 0 < p) by (apply Z.pow_pos_nonneg; lia).
  rewrite bz_u8. unfold u64, wrap.
  rewrite Z.shiftl_mul_pow2 by lia. change (2 ^ 8) with 256.
  rewrite Z.mod_small by nia.
  change 256 with (2 ^ 8) at 1. rewrite Z.lor_comm, lor_high_low by
    (try lia; apply Z.mod_pos_bound; lia).
  change (2 ^ 8) with 256.
  pose proof (Z.mod_pos_bound (Z.shiftr v (8 * Z.of_nat n)) 256 ltac:(lia)).
  rewrite IH by nia. do 2 f_equal.
  rewrite Z.shiftr_div_pow2 by lia. fold p.
  rewrite (Z.rem_mul_r v p 256) by lia. ring.
Qed.

(** A varint with tag [t]: [x] in the six low bits of the first byte, then
    [n] big-endian bytes of [v]. *)
Lemma read_varint_tagged t n x first v rest :
  0 <= t < 4 -> Z.of_nat n = 2 ^ t - 1 -> 0 <= x < 64 ->
  bz first = t * 64 + x ->
  read_varint (first :: be_encode n v ++ rest)
  = Ok (x * 2 ^ (8 * Z.of_nat n) + v `mod` 2 ^ (8 * Z.of_nat n), rest).
Proof.
  intros Ht Hn Hx Hf. unfold read_varint. simpl.
  assert (Hs : Z.shiftr (bz first) 6 = t).
  { rewrite Hf, Z.shiftr_div_pow2 by lia. change (2 ^ 6) with 64.
    rewrite Z.div_add_l by lia. rewrite Z.div_small; lia. }
  assert (Hl : Z.land (bz first) 63 = x).
  { change 63 with (Z.ones 6). rewrite Z.land_ones, Hf by lia. change (2 ^ 6) with 64.
    rewrite Z.add_comm, Z.mod_add by lia. by apply Z.mod_small. }
  rewrite Hs, Hl, Z.shiftl_mul_pow2, Z.mul_1_l by lia.
  assert (Hcase : t = 0 \/ t = 1 \/ t = 2 \/ t = 3) by lia.
  assert (Hbound : x * 2 ^ (8 * Z.of_nat n) + 2 ^ (8 * Z.of_nat n) <= 2 ^ 64).
  { assert (8 * Z.of_nat n <= 56) by (destruct Hcase as [->|[->|[->| ->]]]; lia).
    assert (2 ^ (8 * Z.of_nat n) <= 2 ^ 56) by (apply Z.pow_le_mono_r; lia).
    change (2 ^ 64) with (256 * 2 ^ 56). nia. }
  destruct (1 <? 2 ^ t) eqn:E; bool_props.
  - rewrite (proj2 (Z.ltb_ge _ _)).
    2:{ rewrite zlen_app. unfold zlen. rewrite length_be_encode. lia. }
    replace (Z.to_nat (2 ^ t - 1)) with n by lia.
    apply read_varint_loop_be; [lia|done].
  - assert (n = O) as -> by lia. simpl. do 2 f_equal. rewrite Z.mod_1_r. lia.
Qed.

Lemma first_byte v k (t : byte) tz :
  0 <= v < 64 * 2 ^ k -> 0 <= k -> 0 <= tz < 4 -> bz t = tz * 2 ^ 6 ->
  bz (bor (u8 (Z.shiftr v k)) t) = tz * 64 + Z.shiftr v k.
Proof.
  intros Hv Hk Htz Ht.
  assert (0 <= Z.shiftr v k < 64).
  { rewrite Z.shiftr_div_pow2 by done.
    assert (0 < 2 ^ k) by (apply Z.pow_pos_nonneg; lia).
    split; [apply Z.div_pos; lia|]. apply Z.div_lt_upper_bound; lia. }
  rewrite bz_bor, bz_u8_small, Ht, lor_high_low by (change (2 ^ 6) with 64; lia).
  done.
Qed.

Lemma write_varint_app buf v : write_varint buf v = buf ++ write_varint [] v.
Proof. done. Qed.

#[global] Arguments write_varint : simpl never.

Lemma read_write_varint v rest :
  0 <= v < 2 ^ 62 -> read_varint (write_varint [] v ++ rest) = Ok (v, rest).
Proof.
  intros Hv. unfold write_varint. rewrite app_nil_l.
  assert (Hgo : forall k (t : byte) tz n, k = 8 * Z.of_nat n -> 0 <= tz < 4 ->
    Z.of_nat n = 2 ^ tz - 1 -> bz t = tz * 2 ^ 6 -> v < 64 * 2 ^ k ->
    read_varint (bor (u8 (Z.shiftr v k)) t :: be_encode n v ++ rest) = Ok (v, rest)).
  { intros k t tz n -> Htz Hn Ht Hb.
    rewrite (read_varint_tagged tz n (Z.shiftr v (8 * Z.of_nat n))); [|lia..| |].
    - rewrite Z.shiftr_div_pow2 by lia. do 2 f_equal.
      rewrite Z.mul_comm. symmetry. apply Z.div_mod.
      apply Z.pow_nonzero; lia.
    - rewrite Z.shiftr_div_pow2 by lia.
      assert (0 < 2 ^ (8 * Z.of_nat n)) by (apply Z.pow_pos_nonneg; lia).
      split; [apply Z.div_pos; lia|apply Z.div_lt_upper_bound; lia].
    - apply first_byte; [lia..|done]. }
  destruct (v <=? 63) eqn:E1; bool_props.
  { change ([u8 v] ++ rest) with (u8 v :: be_encode 0 v ++ rest).
    rewrite (read_varint_tagged 0 O v) by (rewrite ?bz_u8_small; lia).
    rewrite Z.mod_1_r. do 2 f_equal. lia. }
  destruct (v <=? 16383) eqn:E2; bool_props.
  { apply (Hgo 8 x40 1 1%nat); [done|lia|done|done|]. change (2 ^ 8) with 256. lia. }
  destruct (v <=? 1073741823) eqn:E3; bool_props.
  { apply (Hgo 24 x80 2 3%nat); [done|lia|done|done|]. change (2 ^ 24) with 16777216. lia. }
  apply (Hgo 56 xc0 3 7%nat); [done|lia|done|done|]. change (64 * 2 ^ 56) with (2 ^ 62). lia.
Qed.

(** The number of bytes after the first one, read from its two top bits. *)
Definition varint_more (first : byte) : nat :=
  Z.to_nat (Z.shiftl 1 (Z.shiftr (bz first) 6) - 1).

Lemma varint_more_cases first :
  varint_more first = 0%nat \/ varint_more first = 1%nat \/
  varint_more first = 3%nat \/ varint_more first = 7%nat.
Proof.
  unfold varint_more. pose proof (bz_range first).
  assert (Hs : 0 <= Z.shiftr (bz first) 6 < 4).
  { rewrite Z.shiftr_div_pow2 by lia. change (2 ^ 6) with 64.
    split; [apply Z.div_pos; lia|apply Z.div_lt_upper_bound; lia]. }
  assert (Hc : Z.shiftr (bz first) 6 = 0 \/ Z.shiftr (bz first) 6 = 1 \/
    Z.shiftr (bz first) 6 = 2 \/ Z.shiftr (bz first) 6 = 3) by lia.
  destruct Hc as [->|[->|[->| ->]]]; vm_compute; auto.
Qed.

Lemma read_varint_loop_spec n : forall value buf,
  (n <= length buf)%nat -> 0 <= value ->
  (value + 1) * 2 ^ (8 * Z.of_nat n) <= 2 ^ 64 ->
  exists v, read_varint_loop n value buf = Ok (v, drop n buf) /\
    0 <= v < (value + 1) * 2 ^ (8 * Z.of_nat n).
Proof.
  induction n as [|n IH]; intros value buf Hlen Hv Hb.
  { exists value. split; [done|]. simpl. lia. }
  destruct buf as [|b buf]; simpl in Hlen; [lia|].
  replace (8 * Z.of_nat (S n)) with (8 * Z.of_nat n + 8) in * by lia.
  rewrite Z.pow_add_r in * by lia. change (2 ^ 8) with 256 in *.
  set (p := 2 ^ (8 * Z.of_nat n)) in *.
  assert (0 < p) by (apply Z.pow_pos_nonneg; lia).
  pose proof (bz_range b). simpl. unfold u64, wrap.
  rewrite Z.shiftl_mul_pow2, Z.mod_small by (change (2 ^ 8) with 256; nia).
  rewrite Z.lor_comm, lor_high_low by (change (2 ^ 8) with 256; lia).
  change (2 ^ 8) with 256.
  destruct (IH (value * 256 + bz b) buf) as (v & -> & Hr); [lia|lia|nia|].
  exists v. split; [done|nia].
Qed.

(** What [read_varint] does on every non-empty buffer. *)
Lemma read_varint_cons first buf :
  ((length buf < varint_more first)%nat ->
    read_varint (first :: buf) = Err "truncated varint") /\
  ((varint_more first <= length buf)%nat ->
    exists v, read_varint (first :: buf) = Ok (v, drop (varint_more first) buf) /\
      0 <= v < 2 ^ 62).
Proof.
  pose proof (varint_more_cases first) as Hc. unfold read_varint. simpl.
  assert (Hlen : Z.shiftl 1 (Z.shiftr (bz first) 6) = 1 + Z.of_nat (varint_more first)).
  { unfold varint_more. pose proof (bz_range first).
    assert (0 <= Z.shiftr (bz first) 6) by (apply Z.shiftr_nonneg; lia).
    rewrite Z.shiftl_mul_pow2 by done.
    assert (0 < 2 ^ Z.shiftr (bz first) 6) by (apply Z.pow_pos_nonneg; lia). lia. }
  rewrite Hlen. set (m := varint_more first) in *.
  replace (Z.to_nat (1 + Z.of_nat m - 1)) with m by lia.
  assert (Hval : 0 <= Z.land (bz first) 63 < 64).
  { change 63 with (Z.ones 6). rewrite Z.land_ones by lia. apply Z.mod_pos_bound; lia. }
  unfold zlen. destruct (1 <? 1 + Z.of_nat m) eqn:E1; bool_props.
  - split; intros Hl.
    + by rewrite (proj2 (Z.ltb_lt _ _)) by lia.
    + rewrite (proj2 (Z.ltb_ge _ _)) by lia.
      destruct (read_varint_loop_spec m (Z.land (bz first) 63) buf) as (v & Hr & Hv);
        [done|lia| |].
      { assert (2 ^ (8 * Z.of_nat m) <= 2 ^ 56) by (apply Z.pow_le_mono_r; lia).
        change (2 ^ 64) with (256 * 2 ^ 56). nia. }
      exists v. split; [done|].
      assert (2 ^ (8 * Z.of_nat m) <= 2 ^ 56) by (apply Z.pow_le_mono_r; lia).
      change (2 ^ 62) with (64 * 2 ^ 56). nia.
  - assert (m = O) as -> by lia. split; intros Hl; [lia|].
    exists (Z.land (bz first) 63). split; [done|lia].
Qed.

Lemma read_varint_Ok buf v rest :
  read_varint buf = Ok (v, rest) ->
  0 <= v < 2 ^ 62 /\ exists pre, buf = pre ++ rest /\ pre <> [].
Proof.
  destruct buf as [|first buf]; [done|]. intros Hr.
  destruct (read_varint_cons first buf) as [Hs Hl].
  destruct (Nat.lt_ge_cases (length buf) (varint_more first)) as [H|H].
  { rewrite Hs in Hr by done. done. }
  destruct (Hl H) as (v' & Hv' & Hb). rewrite Hv' in Hr. simplify_eq.
  split; [done|]. exists (first :: take (varint_more first) buf).
  split; [|done]. simpl. by rewrite take_drop.
Qed.

(** Eight bytes are always enough for a varint. *)
Lemma read_varint_long buf :
  (8 <= length buf)%nat ->
  exists v rest, read_varint buf = Ok (v, rest) /\ (length buf <= length rest + 8)%nat.
Proof.
  destruct buf as [|first buf]; simpl; [lia|]. intros Hlen.
  pose proof (varint_more_cases first).
  destruct (proj2 (read_varint_cons first buf)) as (v & Hr & _); [lia|].
  eexists _, _. split; [exact Hr|]. rewrite length_drop. lia.
Qed.

Lemma read_varint_no_panic buf e : read_varint buf <> Panic e.
Proof.
  destruct buf as [|first buf]; [done|].
  destruct (read_varint_cons first buf) as [Hs Hl].
  destruct (Nat.lt_ge_cases (length buf) (varint_more first)) as [H|H].
  { by rewrite Hs. }
  destruct (Hl H) as (v' & -> & _). done.
Qed.

Lemma read_varint_Err buf e :
  read_varint buf = Err e ->
  (buf = [] /\ e = "empty varint") \/ (buf <> [] /\ e = "truncated varint").
Proof.
  destruct buf as [|first buf]; [intros [= <-]; by left|].
  destruct (read_varint_cons first buf) as [Hs Hl].
  destruct (Nat.lt_ge_cases (length buf) (varint_more first)) as [H|H].
  { rewrite Hs by done. intros [= <-]. by right. }
  destruct (Hl H) as (v' & -> & _). done.
Qed.

Lemma write_varint_nonempty v : write_varint [] v <> [].
Proof. unfold write_varint. by repeat case_match. Qed.

Lemma read_varint_truncated v k :
  0 <= v < 2 ^ 62 -> (0 < k < length (write_varint [] v))%nat ->
  read_varint (take k (write_varint [] v)) = Err "truncated varint".
Proof.
  intros Hv Hk. pose proof (read_write_varint v [] Hv) as Hr.
  rewrite app_nil_r in Hr.
  destruct (write_varint [] v) as [|f t]; [simpl in *; lia|].
  destruct (read_varint_cons f t) as [Hs Hl]. simpl in Hk.
  destruct (Nat.lt_ge_cases (length t) (varint_more f)) as [H|H].
  { rewrite Hs in Hr by done. done. }
  destruct (Hl H) as (v' & Hv' & _). rewrite Hv' in Hr.
  injection Hr as _ Hd. apply (f_equal length) in Hd. rewrite length_drop in Hd.
  simpl in Hd. destruct k as [|k]; [lia|]. rewrite firstn_cons.
  apply read_varint_cons. rewrite length_take. lia.
Qed.

(** ** Frame lemmas *)

Definition padded (fl : byte) : bool :=
  negb (Z.land (bz fl) (bz FLAG_PADDING) =? 0).

(** [frame_wire_len] after a good header, on what follows the flags byte. *)
Definition wire_tail_len (fl : byte) (tail : list byte) : result (option Z) :=
  match read_varint tail with
  | Panic e => Panic e
  | Err e => if str_contains e "truncated" then Ok None else Err e
  | Ok (n, cursor) =>
      let header_len := 6 + zlen tail - zlen cursor in
      if zlen cursor <? n then Ok None
      else if padded fl then
        if zlen cursor <? n + 1 then Ok None
        else
          p ← index cursor n;
          if 128 <? bz p then Err "invalid padding length"
          else if zlen cursor <? n + 1 + bz p then Ok None
          else Ok (Some (header_len + n + (1 + bz p)))
      else Ok (Some (header_len + n + 0))
  end.

Lemma frame_wire_len_header ty fl tail :
  frame_wire_len (MAGIC ++ ty :: fl :: tail) = wire_tail_len fl tail.
Proof.
  assert (Hlen : zlen (MAGIC ++ ty :: fl :: tail) = 6 + zlen tail)
    by (autorewrite with rsbox_len; change (zlen MAGIC) with 4; lia).
  pose proof (zlen_nonneg tail).
  unfold frame_wire_len, wire_tail_len. rewrite Hlen.
  rewrite (proj2 (Z.ltb_ge _ _)) by lia.
  rewrite (slice_to_app MAGIC _ : slice_to (MAGIC ++ ty :: fl :: tail) 4 = Ok MAGIC).
  rewrite slice_from_ok by lia. simpl. by rewrite drop_0.
Qed.

(** The error cases of [frame_wire_len], and what a length means. *)
Lemma frame_wire_len_cases buf :
  zlen buf < 6 /\ frame_wire_len buf = Ok None \/
  frame_wire_len buf = Err "bad rsq magic" \/
  exists ty fl tail, buf = MAGIC ++ ty :: fl :: tail.
Proof.
  destruct (Z.lt_ge_cases (zlen buf) 6) as [H|H].
  { left. split; [done|]. unfold frame_wire_len. by rewrite (proj2 (Z.ltb_lt _ _)). }
  right. unfold frame_wire_len. rewrite (proj2 (Z.ltb_ge _ _)) by done.
  rewrite slice_to_ok by lia. simpl.
  case_bool_decide as Hm; simpl; [right|by left].
  unfold zlen in H. rewrite <-(take_drop 4 buf). change (Z.to_nat 4) with 4%nat in Hm.
  rewrite Hm.
  assert (length (drop 4 buf) = length buf - 4)%nat as Hl by apply length_drop.
  destruct (drop 4 buf) as [|ty [|fl tail]]; simpl in Hl; try lia. by eexists _, _, _.
Qed.

Lemma wire_tail_len_total fl tail total :
  wire_tail_len fl tail = Ok (Some total) ->
  7 <= total <= 6 + zlen tail /\
  exists n cursor, read_varint tail = Ok (n, cursor) /\ 0 <= n <= zlen cursor.
Proof.
  unfold wire_tail_len. intros H.
  destruct (read_varint tail) as [[n cursor]|e|e] eqn:Hr; [|by case_match|done].
  apply read_varint_Ok in Hr as Hv. destruct Hv as (Hn & pre & Hpre & Hne).
  assert (Hlen : zlen tail = zlen pre + zlen cursor) by (by rewrite Hpre, zlen_app).
  assert (1 <= zlen pre).
  { unfold zlen. destruct pre; simpl; [done|lia]. }
  destruct (zlen cursor <? n) eqn:E1; [done|]. bool_props.
  split; [|eexists _, _; split; [done|lia]].
  destruct (padded fl).
  - destruct (zlen cursor <? n + 1) eqn:E2; [done|]. bool_props.
    destruct (index_lookup cursor n) as (p & Hp & _); [lia|].
    rewrite Hp in H. simpl in H. pose proof (bz_range p).
    destruct (128 <? bz p); [done|].
    destruct (zlen cursor <? n + 1 + bz p) eqn:E3; [done|]. bool_props.
    simplify_eq. lia.
  - simplify_eq. lia.
Qed.

Lemma frame_wire_len_total buf total :
  frame_wire_len buf = Ok (Some total) -> 7 <= total <= zlen buf.
Proof.
  intros H. destruct (frame_wire_len_cases buf) as [[_ E]|[E|(ty & fl & tail & ->)]].
  - congruence.
  - congruence.
  - rewrite frame_wire_len_header in H. apply wire_tail_len_total in H as [H _].
    autorewrite with rsbox_len. change (zlen MAGIC) with 4. lia.
Qed.

(** [try_decode_frame] after a good header. *)
Lemma try_decode_header ty fl tail :
  try_decode_frame (MAGIC ++ ty :: fl :: tail)
  = o ← wire_tail_len fl tail;
    match o with
    | None => Ok None
    | Some _ =>
        '(n, cursor) ← read_varint tail;
        Ok (Some (mkDecodedFrame ty fl (take (Z.to_nat n) cursor)))
    end.
Proof.
  unfold try_decode_frame. rewrite frame_wire_len_header.
  destruct (wire_tail_len fl tail) as [[total|]|e|e] eqn:H; simpl; try done.
  apply wire_tail_len_total in H as (Ht & n & cursor & Hr & Hn).
  rewrite (proj2 (Z.ltb_ge _ _))
    by (autorewrite with rsbox_len; change (zlen MAGIC) with 4; lia).
  pose proof (zlen_nonneg tail).
  rewrite slice_from_ok
    by (autorewrite with rsbox_len; change (zlen MAGIC) with 4; lia).
  simpl. rewrite drop_0, Hr. simpl. by rewrite slice_to_ok by lia.
Qed.

(** A padding section: absent without the flag, else its length byte and
    that many bytes. *)
Definition pad_section (rnd : nat -> byte) (pad_len : Z) : list byte :=
  if 0 <? pad_len then u8 pad_len :: fill_bytes rnd (Z.to_nat pad_len) else [].

Definition wire_flags (fl : byte) (pad_len : Z) : byte :=
  if 0 <? pad_len then bor fl FLAG_PADDING else fl.

Lemma encode_frame_shape rnd ty fl pl pad_len :
  encode_frame rnd ty fl pl pad_len
  = MAGIC ++ ty :: wire_flags fl (Z.min pad_len 128)
      :: write_varint [] (zlen pl) ++ pl ++ pad_section rnd (Z.min pad_len 128).
Proof.
  unfold encode_frame, pad_section, wire_flags. cbv zeta.
  rewrite (write_varint_app (MAGIC ++ _)).
  case_match; simpl; rewrite <-?app_assoc, ?app_nil_r; done.
Qed.

Lemma padded_bor fl : padded (bor fl FLAG_PADDING) = true.
Proof.
  unfold padded. rewrite bz_bor.
  assert (Hone : Z.testbit (Z.land (Z.lor (bz fl) (bz FLAG_PADDING)) (bz FLAG_PADDING)) 0 = true).
  { rewrite Z.land_spec, Z.lor_spec. apply andb_true_iff. split; [|done].
    apply orb_true_iff. by right. }
  destruct (Z.eqb_spec (Z.land (Z.lor (bz fl) (bz FLAG_PADDING)) (bz FLAG_PADDING)) 0) as [E|];
    [|done].
  rewrite E in Hone. done.
Qed.

Lemma zlen_pad_section rnd pad_len :
  0 <= pad_len -> zlen (pad_section rnd pad_len) = if 0 <? pad_len then 1 + pad_len else 0.
Proof.
  intros H. unfold pad_section. case_match; [|done].
  rewrite zlen_cons. unfold zlen. rewrite length_fill_bytes. lia.
Qed.

(** Reading what [encode_frame] wrote after the flags, up to byte [j] of the
    payload-and-padding section: complete only when everything is there. *)
Lemma wire_tail_len_encoded rnd fl pl pad_len rest :
  zlen pl < 2 ^ 62 -> 0 <= pad_len <= 128 -> (0 < pad_len \/ padded fl = false) ->
  wire_tail_len (wire_flags fl pad_len)
    (write_varint [] (zlen pl) ++ pl ++ pad_section rnd pad_len ++ rest)
  = Ok (Some (6 + zlen (write_varint [] (zlen pl)) + zlen pl
              + zlen (pad_section rnd pad_len))).
Proof.
  intros Hpl Hpad Hflag. unfold wire_tail_len.
  rewrite read_write_varint by (split; [apply zlen_nonneg|done]).
  rewrite zlen_pad_section by lia. autorewrite with rsbox_len.
  pose proof (zlen_nonneg rest). pose proof (zlen_nonneg pl).
  rewrite zlen_pad_section by lia.
  unfold wire_flags, pad_section in *. destruct (0 <? pad_len) eqn:E; bool_props.
  - rewrite padded_bor, (proj2 (Z.ltb_ge _ _)), (proj2 (Z.ltb_ge _ _)) by lia.
    simpl. rewrite index_app. simpl. rewrite bz_u8_small by lia.
    rewrite (proj2 (Z.ltb_ge _ _)), (proj2 (Z.ltb_ge _ _)) by lia. do 2 f_equal. lia.
  - destruct Hflag as [|Hflag]; [lia|].
    rewrite Hflag, (proj2 (Z.ltb_ge _ _)) by lia. do 2 f_equal. lia.
Qed.

(** A strict, non-empty prefix of the same bytes is incomplete. *)
Lemma wire_tail_len_partial rnd fl pl pad_len k :
  zlen pl < 2 ^ 62 -> 0 <= pad_len <= 128 -> (0 < pad_len \/ padded fl = false) ->
  let tail := write_varint [] (zlen pl) ++ pl ++ pad_section rnd pad_len in
  (0 < k < length tail)%nat ->
  wire_tail_len (wire_flags fl pad_len) (take k tail) = Ok None.
Proof.
  intros Hpl Hpad Hflag tail Hk.
  assert (Hv : 0 <= zlen pl < 2 ^ 62) by (split; [apply zlen_nonneg|done]).
  destruct (Nat.lt_ge_cases k (length (write_varint [] (zlen pl)))) as [Hs|Hs].
  { unfold wire_tail_len, tail. rewrite take_app_le by lia.
    by rewrite read_varint_truncated by lia. }
  unfold tail, wire_tail_len. rewrite take_app_ge by done.
  rewrite read_write_varint by done.
  set (c := take (k - length (write_varint [] (zlen pl))) (pl ++ pad_section rnd pad_len)).
  assert (Hc : zlen c < zlen pl + zlen (pad_section rnd pad_len)).
  { unfold c, tail, zlen in *. rewrite length_app, length_app in Hk.
    rewrite length_take, length_app. lia. }
  rewrite zlen_pad_section in Hc by lia. cbv zeta.
  destruct (zlen c <? zlen pl) eqn:E1; [done|]. bool_props.
  unfold wire_flags. destruct (0 <? pad_len) eqn:E; bool_props.
  2:{ lia. }
  rewrite padded_bor. destruct (zlen c <? zlen pl + 1) eqn:E2; [done|]. bool_props.
  assert (Hidx : index c (zlen pl) = Ok (u8 pad_len)).
  { unfold index. unfold c. rewrite lookup_take_lt.
    2:{ unfold c, zlen in *. rewrite length_take in E2. lia. }
    unfold zlen at 1. rewrite Nat2Z.id, lookup_app_r, Nat.sub_diag by lia.
    unfold pad_section. by rewrite (proj2 (Z.ltb_lt _ _)) by lia. }
  rewrite Hidx. simpl. rewrite bz_u8_small by lia.
  rewrite (proj2 (Z.ltb_ge 128 pad_len)), (proj2 (Z.ltb_lt _ _)) by lia. done.
Qed.

Lemma encode_frame_app rnd ty fl pl pad_len rest :
  encode_frame rnd ty fl pl pad_len ++ rest
  = MAGIC ++ ty :: wire_flags fl (Z.min pad_len 128)
      :: write_varint [] (zlen pl) ++ pl ++ pad_section rnd (Z.min pad_len 128) ++ rest.
Proof. rewrite encode_frame_shape. simpl. by rewrite <-!app_assoc. Qed.

Lemma pad_min pad_len P : 0 < pad_len \/ P -> 0 < Z.min pad_len 128 \/ P.
Proof. intros [H|H]; [left; lia|by right]. Qed.

(** Decoding what [encode_frame] wrote, with any bytes after it. *)
Lemma wire_len_encoded rnd ty fl pl pad_len rest :
  zlen pl < 2 ^ 62 -> 0 <= pad_len -> (0 < pad_len \/ padded fl = false) ->
  frame_wire_len (encode_frame rnd ty fl pl pad_len ++ rest)
  = Ok (Some (zlen (encode_frame rnd ty fl pl pad_len))).
Proof.
  intros Hpl Hpad Hf%pad_min.
  rewrite encode_frame_app, frame_wire_len_header, wire_tail_len_encoded by (done || lia).
  rewrite encode_frame_shape. do 2 f_equal. autorewrite with rsbox_len.
  change (zlen MAGIC) with 4. lia.
Qed.

Lemma decode_encoded rnd ty fl pl pad_len rest :
  zlen pl < 2 ^ 62 -> 0 <= pad_len -> (0 < pad_len \/ padded fl = false) ->
  try_decode_frame (encode_frame rnd ty fl pl pad_len ++ rest)
  = Ok (Some (mkDecodedFrame ty (wire_flags fl (Z.min pad_len 128)) pl)).
Proof.
  intros Hpl Hpad Hf%pad_min.
  rewrite encode_frame_app, try_decode_header, wire_tail_len_encoded by (done || lia). simpl.
  rewrite read_write_varint by (split; [apply zlen_nonneg|done]). simpl.
  unfold zlen. by rewrite Nat2Z.id, take_app_length.
Qed.

Lemma consumed_encoded rnd ty fl pl pad_len rest :
  zlen pl < 2 ^ 62 -> 0 <= pad_len -> (0 < pad_len \/ padded fl = false) ->
  frame_consumed_len (encode_frame rnd ty fl pl pad_len ++ rest)
  = Ok (zlen (encode_frame rnd ty fl pl pad_len)).
Proof. intros. unfold frame_consumed_len. by rewrite wire_len_encoded. Qed.

(** What a decoded frame says about its buffer. *)
Lemma try_decode_Some buf f :
  try_decode_frame buf = Ok (Some f) ->
  exists total, frame_wire_len buf = Ok (Some total) /\ 7 <= total <= zlen buf /\
    zlen (payload f) < total.
Proof.
  intros H. destruct (frame_wire_len_cases buf) as [[_ E]|[E|(ty & fl & tail & ->)]].
  { unfold try_decode_frame in H. by rewrite E in H. }
  { unfold try_decode_frame in H. by rewrite E in H. }
  rewrite try_decode_header in H. rewrite frame_wire_len_header.
  destruct (wire_tail_len fl tail) as [[total|]|e|e] eqn:Ht; try done.
  exists total. split; [done|].
  pose proof (wire_tail_len_total _ _ _ Ht) as (Hb & n & cursor & Hr & Hn).
  simpl in H. rewrite Hr in H. simpl in H. simplify_eq. simpl.
  split; [autorewrite with rsbox_len; change (zlen MAGIC) with 4; lia|].
  rewrite zlen_take by lia.
  apply read_varint_Ok in Hr as Hp. destruct Hp as (_ & pre & -> & _).
  unfold wire_tail_len in Ht. rewrite Hr in Ht. autorewrite with rsbox_len in Ht.
  pose proof (zlen_nonneg pre). cbv zeta in Ht.
  destruct (zlen cursor <? n); [done|]. destruct (padded fl).
  - destruct (zlen cursor <? n + 1) eqn:E2; [done|]. bool_props.
    destruct (index_lookup cursor n) as (p & Hp & _); [lia|]. rewrite Hp in Ht.
    simpl in Ht. pose proof (bz_range p). repeat case_match; simplify_eq. lia.
  - simplify_eq. lia.
Qed.

Lemma frame_wire_len_no_panic buf e : frame_wire_len buf <> Panic e.
Proof.
  destruct (frame_wire_len_cases buf) as [[_ ->]|[->|(ty & fl & tail & ->)]]; [done..|].
  rewrite frame_wire_len_header. unfold wire_tail_len.
  destruct (read_varint tail) as [[n cursor]|e'|e'] eqn:Hr.
  - apply read_varint_Ok in Hr as (Hn & _).
    destruct (zlen cursor <? n) eqn:E1; [done|]. bool_props.
    destruct (padded fl); [|done].
    destruct (zlen cursor <? n + 1) eqn:E2; [done|]. bool_props.
    destruct (index_lookup cursor n) as (p & -> & _); [lia|]. simpl.
    by repeat case_match.
  - by case_match.
  - by apply read_varint_no_panic in Hr.
Qed.

Lemma try_decode_no_panic buf e : try_decode_frame buf <> Panic e.
Proof.
  destruct (frame_wire_len_cases buf) as [[_ E]|[E|(ty & fl & tail & ->)]].
  1-2: unfold try_decode_frame; by rewrite E.
  rewrite try_decode_header.
  pose proof (frame_wire_len_no_panic (MAGIC ++ ty :: fl :: tail)) as Hnp.
  rewrite frame_wire_len_header in Hnp.
  destruct (wire_tail_len fl tail) as [[total|]|e'|e'] eqn:Ht; simpl; [|done..|].
  - apply wire_tail_len_total in Ht as (_ & n & cursor & -> & _). done.
  - by specialize (Hnp e').
Qed.

Lemma decode_frame_of_try buf f :
  try_decode_frame buf = Ok (Some f) ->
  exists total, frame_consumed_len buf = Ok total /\ 7 <= total <= zlen buf /\
    decode_frame buf = Ok (f, drop (Z.to_nat total) buf).
Proof.
  intros H. destruct (try_decode_Some _ _ H) as (total & Hw & Hb & _).
  exists total. unfold frame_consumed_len, decode_frame. rewrite Hw, H. simpl.
  by rewrite slice_from_ok by lia.
Qed.

#[global] Arguments read_varint : simpl never.
#[global] Arguments encode_frame : simpl never.
#[global] Arguments frame_wire_len : simpl never.
#[global] Arguments try_decode_frame : simpl never.

(** A strict prefix of an encoded frame that is not cut right before the length
    is incomplete. *)
Lemma decode_strict_prefix rnd ty fl pl pad_len k :
  zlen pl < 2 ^ 62 -> 0 <= pad_len -> 0 < pad_len \/ padded fl = false ->
  (k < length (encode_frame rnd ty fl pl pad_len))%nat -> k <> 6%nat ->
  try_decode_frame (take k (encode_frame rnd ty fl pl pad_len)) = Ok None.
Proof.
  intros Hpl Hpad Hf%pad_min Hk Hk6. rewrite encode_frame_shape in *.
  set (fl' := wire_flags fl _) in *.
  set (tail := write_varint [] (zlen pl) ++ _) in *. simpl in Hk.
  destruct (Nat.lt_ge_cases k 6) as [H6|H6].
  { unfold try_decode_frame, frame_wire_len. rewrite (proj2 (Z.ltb_lt _ _)); [done|].
    unfold zlen. rewrite length_take. lia. }
  replace (take k (MAGIC ++ ty :: fl' :: tail)) with (MAGIC ++ ty :: fl' :: take (k - 6) tail)
    by (do 6 (destruct k as [|k]; [lia|]); simpl; by rewrite Nat.sub_0_r).
  rewrite try_decode_header.
  unfold fl', tail in *. by rewrite wire_tail_len_partial by (done || lia).
Qed.

Lemma encode_frame_length rnd ty fl pl pad_len :
  (7 <= length (encode_frame rnd ty fl pl pad_len))%nat.
Proof.
  rewrite encode_frame_shape. simpl. rewrite length_app.
  pose proof (write_varint_nonempty (zlen pl)).
  destruct (write_varint [] (zlen pl)); simpl; [done|lia].
Qed.

(** ** UDP message lemmas *)

(** The type invariant of [UdpMessage]: field widths and a UTF-8 address. *)
Definition udp_wf (m : UdpMessage) : Prop :=
  in_u32 (session_id m) /\ in_u16 (packet_id m) /\ in_u8 (fragment_id m) /\
  in_u8 (fragment_count m) /\ utf8_valid (addr m) = true /\ zlen (addr m) < 2 ^ 62.

Lemma udp_encode_shape m :
  udp_encode m []
  = be_encode 4 (session_id m) ++ be_encode 2 (packet_id m) ++
    u8 (fragment_id m) :: u8 (fragment_count m) ::
    write_varint [] (zlen (addr m)) ++ addr m ++ udp_payload m.
Proof.
  unfold udp_encode. cbv zeta. rewrite (write_varint_app (_ ++ [_])).
  by rewrite app_nil_l, <-!app_assoc.
Qed.

Lemma udp_decode_encode m : udp_wf m -> udp_decode (udp_encode m []) = Ok m.
Proof.
  intros (Hs & Hp & Hf & Hc & Hu & Ha). unfold udp_decode. rewrite udp_encode_shape.
  rewrite (proj2 (Z.ltb_ge _ _)).
  2:{ unfold zlen. rewrite !length_app, !length_be_encode. simpl. lia. }
  rewrite get_be_encode by (exact Hs). cbn [mbind result_bind].
  rewrite get_be_encode by (exact Hp). cbn [mbind result_bind get_u8].
  rewrite read_write_varint by (split; [apply zlen_nonneg|done]). simpl.
  rewrite (proj2 (Z.ltb_ge _ _)) by (rewrite zlen_app; pose proof (zlen_nonneg (udp_payload m)); lia).
  unfold zlen at 1 2. rewrite Nat2Z.id, take_app_length, drop_app_length.
  rewrite from_utf8_valid by done. simpl.
  unfold in_u8 in *. rewrite !bz_u8_small by (change (2 ^ 8) with 256 in *; lia).
  by destruct m.
Qed.

Lemma be_decode_bound l : 0 <= be_decode l < 2 ^ (8 * zlen l).
Proof.
  induction l as [|b l IH] using rev_ind; [done|].
  unfold be_decode in *. rewrite foldl_app, zlen_app. simpl.
  pose proof (bz_range b). pose proof (zlen_nonneg l). change (zlen [b]) with 1.
  replace (8 * (zlen l + 1)) with (8 * zlen l + 8) by lia.
  rewrite Z.pow_add_r by lia. change (2 ^ 8) with 256. lia.
Qed.

Lemma udp_decode_wf buf m :
  udp_decode buf = Ok m -> zlen buf < 2 ^ 62 -> udp_wf m /\ zlen (udp_payload m) <= zlen buf.
Proof.
  unfold udp_decode. destruct (zlen buf <? 8) eqn:E; [done|]. bool_props.
  unfold zlen in *. rewrite get_be_ok by lia. simpl.
  rewrite get_be_ok by (rewrite length_drop; lia). simpl. rewrite drop_drop.
  destruct (drop (4 + 2) buf) as [|f [|c r]] eqn:Er; try done. simpl.
  destruct (read_varint r) as [[n cur]|e|e] eqn:Hr; try done. simpl.
  apply read_varint_Ok in Hr as (Hn & pre & -> & _).
  apply (f_equal length) in Er. rewrite length_drop in Er. simpl in Er.
  rewrite length_app in Er.
  destruct (Z.of_nat (length cur) <? n) eqn:E2; [done|]. bool_props.
  unfold from_utf8. destruct (utf8_valid _) eqn:Hu; [|done]. simpl.
  intros [= <-] Hb. unfold udp_wf; simpl.
  pose proof (be_decode_bound (take 4 buf)) as H1.
  pose proof (be_decode_bound (take 2 (drop 4 buf))) as H2.
  unfold zlen in H1, H2. rewrite length_take in H1. rewrite length_take, length_drop in H2.
  replace (4 `min` length buf)%nat with 4%nat in H1 by lia.
  replace (2 `min` (length buf - 4))%nat with 2%nat in H2 by lia.
  unfold in_u32, in_u16, in_u8. change (2 ^ 8) with 256.
  pose proof (bz_range f). pose proof (bz_range c).
  unfold zlen. rewrite length_take, length_drop.
  repeat split; try done; try apply H1; try apply H2; lia.
Qed.

Lemma udp_decode_no_panic buf e : udp_decode buf <> Panic e.
Proof.
  unfold udp_decode. destruct (zlen buf <? 8) eqn:E; [done|]. bool_props.
  unfold zlen in *. rewrite get_be_ok by lia. simpl.
  rewrite get_be_ok by (rewrite length_drop; lia). simpl. rewrite drop_drop.
  destruct (drop (4 + 2) buf) as [|f [|c r]] eqn:Er.
  1,2: apply (f_equal length) in Er; rewrite length_drop in Er; simpl in Er; lia.
  simpl. pose proof (read_varint_no_panic r) as Hnp.
  destruct (read_varint r) as [[n cur]|e'|e'] eqn:Hr; simpl; [|done|by specialize (Hnp e')].
  case_match; [done|]. unfold from_utf8. by case_match.
Qed.

(** ** Properties *)

(** C1.  Every frame [encode_frame] writes is read back whole, whatever follows
    it: the decoder returns its type, flags and payload, reports the exact
    number of bytes the frame occupies, and [decode_frame] leaves exactly the
    bytes after it.  The flags must not announce padding that is not sent. *)
Theorem frame_roundtrip rnd ty fl pl pad_len rest :
  zlen pl < 2 ^ 62 -> 0 <= pad_len -> 0 < pad_len \/ padded fl = false ->
  let enc := encode_frame rnd ty fl pl pad_len in
  let frame := mkDecodedFrame ty (wire_flags fl (Z.min pad_len 128)) pl in
  try_decode_frame (enc ++ rest) = Ok (Some frame) /\
  frame_consumed_len (enc ++ rest) = Ok (zlen enc) /\
  decode_frame (enc ++ rest) = Ok (frame, rest).
Proof.
  intros Hpl Hpad Hf. cbv zeta.
  assert (Hd := decode_encoded rnd ty fl pl pad_len rest Hpl Hpad Hf).
  assert (Hw := wire_len_encoded rnd ty fl pl pad_len rest Hpl Hpad Hf).
  unfold frame_consumed_len, decode_frame. rewrite Hw, Hd. simpl.
  by rewrite slice_from_app.
Qed.

Lemma frame_roundtrip_witness :
  try_decode_frame (encode_frame (fun _ => x00) FRAME_TCP_OPEN x00 (str "a:1") 2 ++ [xff])
  = Ok (Some (mkDecodedFrame FRAME_TCP_OPEN x01 (str "a:1"))).
Proof.
  apply (frame_roundtrip (fun _ => x00) FRAME_TCP_OPEN x00 (str "a:1") 2 [xff]);
    [done|done|by left].
Defined.

(** Incremental decoding of one frame.  Fed any strict prefix, the decoder
    asks for more bytes, with one exception: at exactly six bytes (magic, type
    and flags, no length byte yet) it fails with "empty varint", since only
    "truncated" varints are treated as incomplete. *)
Theorem frame_prefix_incomplete rnd ty fl pl pad_len k :
  zlen pl < 2 ^ 62 -> 0 <= pad_len -> 0 < pad_len \/ padded fl = false ->
  (k < length (encode_frame rnd ty fl pl pad_len))%nat ->
  try_decode_frame (take k (encode_frame rnd ty fl pl pad_len))
  = if (k =? 6)%nat then Err "empty varint" else Ok None.
Proof.
  intros Hpl Hpad Hf Hk. destruct (Nat.eqb_spec k 6) as [->|Hne].
  - by rewrite encode_frame_shape.
  - by apply decode_strict_prefix.
Qed.

Lemma frame_prefix_incomplete_witness :
  let enc := encode_frame (fun _ => x00) FRAME_PING x00 [] 8 in
  try_decode_frame (take 6 enc) = Err "empty varint" /\
  try_decode_frame (take 7 enc) = Ok None.
Proof.
  split.
  - apply (frame_prefix_incomplete (fun _ => x00) FRAME_PING x00 [] 8 6);
      [done|done|by left|vm_compute; lia].
  - apply (frame_prefix_incomplete (fun _ => x00) FRAME_PING x00 [] 8 7);
      [done|done|by left|vm_compute; lia].
Defined.

(** C11.  The decoders are total on arbitrary input: no byte sequence makes the
    frame or datagram decoder panic, and a decoded frame occupies at least
    seven and at most all of the bytes, so every decode loop that drops the
    reported length makes progress and never slices out of range. *)
Theorem decoders_safe buf :
  (forall e, try_decode_frame buf <> Panic e) /\
  (forall e, try_decode_tcp_reply buf <> Panic e) /\
  (forall e, udp_decode buf <> Panic e) /\
  match try_decode_frame buf with
  | Ok (Some f) => exists total, frame_consumed_len buf = Ok total /\
      7 <= total <= zlen buf /\ zlen (payload f) < total /\
      decode_frame buf = Ok (f, drop (Z.to_nat total) buf)
  | _ => True
  end.
Proof.
  split_and!; [apply try_decode_no_panic| |apply udp_decode_no_panic|].
  - intros e. unfold try_decode_tcp_reply.
    pose proof (frame_wire_len_no_panic buf) as Hw.
    destruct (frame_wire_len buf) as [[total|]|e'|e'] eqn:E; simpl; try done;
      [|by specialize (Hw e')].
    apply frame_wire_len_total in E as Hb. case_match; [done|].
    pose proof (try_decode_no_panic buf) as Hd.
    destruct (try_decode_frame buf) as [[f|]|e'|e']; simpl; try done; [|by specialize (Hd e')].
    repeat case_match; try done; simpl; rewrite slice_from_ok by lia; done.
  - destruct (try_decode_frame buf) as [[f|]|e|e] eqn:E; try done.
    destruct (decode_frame_of_try _ _ E) as (total & Hc & Hb & Hd).
    exists total. split_and!; try done; [lia..|].
    destruct (try_decode_Some _ _ E) as (total' & Hw & _ & Hp).
    unfold frame_consumed_len in Hc. rewrite Hw in Hc. simpl in Hc. by simplify_eq.
Qed.

(** The reply to a TCP open, as the client reads it: a [TCP_OK] or
    [TCP_ERR] frame is decoded to the reply it carries and exactly its bytes are
    removed from the buffer, so relayed data that arrived behind the reply is
    kept. *)
Theorem tcp_reply_roundtrip rnd msg pad_len rest :
  zlen msg < 2 ^ 62 -> 0 <= pad_len -> utf8_valid msg = true ->
  try_decode_tcp_reply (encode_tcp_ok rnd pad_len ++ rest) = Ok (Some ReplyOk, rest) /\
  try_decode_tcp_reply (encode_tcp_err rnd msg pad_len ++ rest)
    = Ok (Some (ReplyErr msg), rest).
Proof.
  intros Hm Hp Hu. unfold try_decode_tcp_reply, encode_tcp_ok, encode_tcp_err.
  rewrite !wire_len_encoded, !decode_encoded by (done || (right; done)). simpl.
  rewrite !(proj2 (Z.ltb_ge _ _)) by (rewrite zlen_app; pose proof (zlen_nonneg rest); lia).
  rewrite !slice_from_app, from_utf8_valid by done. done.
Qed.

Lemma tcp_reply_roundtrip_witness :
  try_decode_tcp_reply (encode_tcp_err (fun _ => x00) (str "refused") 4 ++ str "leftover")
  = Ok (Some (ReplyErr (str "refused")), str "leftover").
Proof.
  apply (tcp_reply_roundtrip (fun _ => x00) (str "refused") 4 (str "leftover")); done.
Defined.

(** UDP messages round-trip through their datagram encoding, and every
    datagram that decodes gives a well-formed message: field widths respected,
    a UTF-8 address, and no more payload than the datagram had bytes. *)
Theorem udp_message_roundtrip :
  (forall m, udp_wf m -> udp_decode (udp_encode m []) = Ok m) /\
  (forall buf m, udp_decode buf = Ok m -> zlen buf < 2 ^ 62 ->
     udp_wf m /\ zlen (udp_payload m) <= zlen buf).
Proof. split; [apply udp_decode_encode|apply udp_decode_wf]. Qed.

Lemma udp_message_roundtrip_witness :
  let m := mkUdpMessage 1 7 0 1 (str "1.2.3.4:53") [x2a] in
  udp_decode (udp_encode m []) = Ok m.
Proof.
  intros m. apply (proj1 udp_message_roundtrip).
  unfold udp_wf, in_u32, in_u16, in_u8. split_and!; (done || lia).
Defined.
