(* ===== verification/RsqTraffic.v ===== *)
(** * RSQ traffic profiles (crates/rsb-protocol/src/rsq/traffic.rs) *)
From stdpp Require Import base tactics list strings.
From Stdlib Require Import ZArith Lia.
From Stdlib Require Import Strings.Byte.
From S2P Require Import Prelude Json.

Local Open Scope Z_scope.

(** [auth::MBPS_TO_BPS]. *)
Definition MBPS_TO_BPS : Z := 125000.

Inductive TrafficProfile := Raw | Video | Browse | Balanced.

#[export] Instance TrafficProfile_eq_dec : EqDecision TrafficProfile.
Proof. solve_decision. Defined.

(** [profile as u8]. *)
Definition profile_id (p : TrafficProfile) : Z :=
  match p with Raw => 0 | Video => 1 | Browse => 2 | Balanced => 3 end.

Definition from_name (v : list byte) : TrafficProfile :=
  let v := to_ascii_lowercase v in
  if bool_decide (v = str "raw") then Raw
  else if bool_decide (v = str "browse") then Browse
  else if bool_decide (v = str "balanced") then Balanced
  else Video.

Definition parse_profile (raw : option Value) : TrafficProfile :=
  match raw ≫= as_str with
  | None => Video
  | Some v => from_name v
  end.

Definition from_id (id : Z) : TrafficProfile :=
  if id =? 0 then Raw
  else if id =? 1 then Video
  else if id =? 2 then Browse
  else if id =? 3 then Balanced
  else Video.

Definition default_up_bps (p : TrafficProfile) : Z :=
  match p with
  | Raw => 0
  | Video => 50 * MBPS_TO_BPS
  | Browse => 10 * MBPS_TO_BPS
  | Balanced => 80 * MBPS_TO_BPS
  end.

Definition keepalive_jitter_base_secs (p : TrafficProfile) : Z :=
  match p with Browse => 25 | _ => 20 end.

Definition read_chunk_size (p : TrafficProfile) : Z :=
  match p with
  | Raw => 64 * 1024
  | Video => 32 * 1024
  | Browse => 8 * 1024
  | Balanced => 16 * 1024
  end.

Definition pace_relay_copy (p : TrafficProfile) : bool :=
  match p with Browse => true | _ => false end.

(** Milliseconds of [inter_chunk_delay]; [r] is the drawn [u64]. *)
Definition inter_chunk_delay (p : TrafficProfile) (r : Z) : Z :=
  let max_ms := match p with Raw | Video | Balanced => 0 | Browse => 12 end in
  if max_ms =? 0 then 0 else r `mod` (max_ms + 1).

(** Seconds of [jitter_duration]; [r] is the drawn [i64] ([%] truncates). *)
Definition jitter_duration (base_secs : Z) (r : Z) : Z :=
  let jitter := Z.abs (Z.rem r (base_secs * 30 / 100 + 1)) in
  base_secs + Z.max jitter 1.

Lemma from_id_profile_id p : from_id (profile_id p) = p.
Proof. by destruct p. Qed.

Lemma profile_id_u8 p : 0 <= profile_id p < 4.
Proof. destruct p; simpl; lia. Qed.

Lemma jitter_bounds base r :
  0 < base -> base + 1 <= jitter_duration base r <= base + Z.max 1 (base * 30 / 100).
Proof.
  intros Hb. unfold jitter_duration.
  assert (0 <= base * 30 / 100) by (apply Z.div_pos; lia).
  pose proof (Z.rem_bound_abs r (base * 30 / 100 + 1) ltac:(lia)). lia.
Qed.
