(* ===== verification/Brutal.v ===== *)
(** * Brutal congestion control and pacing

    [rsb-protocol/src/rsq/brutal.rs] (re-exported by [rsq/bandwidth.rs] and
    [rst/brutal.rs]): the congestion controller whose window follows the
    configured rate and ignores losses, the pacer over the rate limiter, and the
    writer that paces a stream.

    Round-trip times are counts of nanoseconds; [f64] is the binary64 arithmetic of
    [RateLimit].  [quinn], which calls the controller, is not modelled: a run is the
    list of its calls. *)
From stdpp Require Import base tactics list strings.
From Stdlib Require Import ZArith Lia.
From Stdlib Require Import Strings.Byte.
From Stdlib Require Import Floats.SpecFloat.
From S2P Require Import Prelude RateLimit RsqTraffic.

Local Open Scope Z_scope.

Definition DEFAULT_BRUTAL_MBPS : Z := 200.
Definition BASE_DATAGRAM_SIZE : Z := 1200.
Definition BRUTAL_WRITE_CHUNK : Z := 16 * 1024.

Definition brutal_bps_from_mbps (mbps : Z) : Z :=
  let mbps := if mbps =? 0 then DEFAULT_BRUTAL_MBPS else mbps in
  mbps * MBPS_TO_BPS.
Definition brutal_bps_from_pair (up_mbps down_mbps : Z) : Z :=
  brutal_bps_from_mbps (Z.max up_mbps down_mbps).

(** ** The congestion controller *)

Record BrutalConfig := mkBrutalConfig {
  bc_target_bps : Z;
  bc_initial_window : Z;
  bc_max_window : Z;
}.
Definition brutal_config_new (target_bps : Z) : result BrutalConfig :=
  let target_bps := Z.max target_bps MBPS_TO_BPS in
  initial_window ← clamp (target_bps / 10) (2 * BASE_DATAGRAM_SIZE) (2 * 1024 * 1024);
  max_window ← clamp (u64 (target_bps * 2)) initial_window (20 * 1024 * 1024);
  Ok (mkBrutalConfig target_bps initial_window max_window).

(** [as u64] on [f64]: towards zero, saturating. *)
Definition f64_to_u64 (x : f64) : Z :=
  match x with
  | S754_finite false m e =>
      Z.min (if 0 <=? e then Z.pos m * 2 ^ e else Z.pos m / 2 ^ (- e)) u64_max
  | S754_infinity false => u64_max
  | _ => 0
  end.
(** [f64::max] with a number that is not NaN. *)
Definition fmax (x y : f64) : f64 := if SFltb x y then y else if SFeqb x x then x else y.
(** The literal [0.05]. *)
Definition min_rtt_secs : f64 := S754_finite false 7205759403792794 (-57).

Record Brutal := mkBrutal {
  br_config : BrutalConfig;
  current_mtu : Z;
  br_window : Z;
  smoothed_rtt : Z;
}.
Definition brutal_new (config : BrutalConfig) (mtu : Z) : Brutal :=
  mkBrutal config mtu (bc_initial_window config) 100000000.

Definition compute_window (b : Brutal) : Z :=
  let rtt_secs := fmax (as_secs_f64 (smoothed_rtt b)) min_rtt_secs in
  let bdp := f64_to_u64 (fmul (f64_of (bc_target_bps (br_config b))) rtt_secs) in
  Z.min (Z.max bdp (2 * current_mtu b)) (bc_max_window (br_config b)).

(** The calls [quinn] makes. *)
Inductive brutal_call :=
| OnAck (rtt : Z)
| OnCongestion (lost_bytes : Z)
| OnMtu (new_mtu : Z).

Definition on_ack (rtt : Z) (b : Brutal) : Brutal :=
  let b := mkBrutal (br_config b) (current_mtu b) (br_window b) rtt in
  mkBrutal (br_config b) (current_mtu b) (compute_window b) (smoothed_rtt b).
Definition on_congestion_event (b : Brutal) : Brutal :=
  mkBrutal (br_config b) (current_mtu b) (compute_window b) (smoothed_rtt b).
Definition on_mtu_update (new_mtu : Z) (b : Brutal) : Brutal :=
  mkBrutal (br_config b) new_mtu (Z.max (br_window b) (2 * new_mtu)) (smoothed_rtt b).
Definition window (b : Brutal) : Z := Z.max (br_window b) (2 * current_mtu b).
Definition pacing_rate (b : Brutal) : Z := saturating_mul64 (bc_target_bps (br_config b)) 8.

Definition brutal_step (b : Brutal) (c : brutal_call) : Brutal :=
  match c with
  | OnAck rtt => on_ack rtt b
  | OnCongestion _ => on_congestion_event b
  | OnMtu m => on_mtu_update m b
  end.

(** ** The pacer *)

Record BrutalPacer := mkBrutalPacer {
  bp_target_bps : Z;
  bp_limiter : RateLimiter;
}.
Definition pacer_new (target_bps now : Z) : BrutalPacer :=
  let target_bps := if target_bps =? 0 then brutal_bps_from_mbps 0 else target_bps in
  mkBrutalPacer target_bps (limiter_new target_bps now).

(** [pace] and [write_all]: the instant the last chunk went out and the pacer, or
    nothing when the limiter outlasts the fuel.  Writes succeed. *)
Definition pace (fuel : nat) (p : BrutalPacer) (now nbytes : Z) : result (option (Z * BrutalPacer)) :=
  if nbytes =? 0 then Ok (Some (now, p))
  else
    g ← throttle (fun _ => 0) fuel (bp_limiter p) now nbytes;
    Ok (match g with Some (t, l) => Some (t, mkBrutalPacer (bp_target_bps p) l) | None => None end).

Fixpoint pacer_write_all (turns fuel : nat) (p : BrutalPacer) (now : Z) (buf : list byte)
  : result (option (Z * BrutalPacer)) :=
  match turns, buf with
  | _, [] => Ok (Some (now, p))
  | O, _ => Ok None
  | S turns, _ =>
      let chunk := take (Z.to_nat BRUTAL_WRITE_CHUNK) buf in
      g ← pace fuel p now (zlen chunk);
      match g with
      | Some (now, p) => pacer_write_all turns fuel p now (drop (Z.to_nat BRUTAL_WRITE_CHUNK) buf)
      | None => Ok None
      end
  end.

(** ** The pacing writer *)

(** A timer: when it fires, and whether it has been polled.  Only a timer that has
    been polled wakes the task. *)
Record Timer := mkTimer {
  fires_at : Z;
  registered : bool;
}.
Record BrutalWriter := mkBrutalWriter {
  bw_pacer : BrutalPacer;
  bw_delay : option Timer;
}.
Inductive write_poll :=
| Wrote (bytes : list byte)
| Blocked.

(** [poll_write] over a stream that accepts everything. *)
Definition brutal_poll_write (now : Z) (w : BrutalWriter) (buf : list byte)
  : result (write_poll * BrutalWriter) :=
  let attempt p :=
    match buf with
    | [] => Ok (Wrote [], mkBrutalWriter p None)
    | _ =>
        '(wait, l) ← acquire_wait (bp_limiter p) now (zlen buf);
        let p := mkBrutalPacer (bp_target_bps p) l in
        if negb (wait =? 0) then
          Ok (Blocked, mkBrutalWriter p (Some (mkTimer (now + wait) false)))
        else Ok (Wrote buf, mkBrutalWriter p None)
    end in
  match bw_delay w with
  | Some t =>
      if now <? fires_at t then
        Ok (Blocked, mkBrutalWriter (bw_pacer w) (Some (mkTimer (fires_at t) true)))
      else attempt (bw_pacer w)
  | None => attempt (bw_pacer w)
  end.

(** ** The window *)

Definition call_ok (c : brutal_call) : Prop := match c with OnMtu m => in_u16 m | _ => True end.
Definition MAX_WINDOW : Z := 20 * 1024 * 1024.

Lemma brutal_config_bounds target : in_u64 target ->
  exists cfg, brutal_config_new target = Ok cfg /\ bc_initial_window cfg <= bc_max_window cfg <= MAX_WINDOW.
Proof.
  intros Ht. unfold brutal_config_new, clamp, MAX_WINDOW.
  change (2 * 1024 * 1024 <? 2 * BASE_DATAGRAM_SIZE) with false. cbn [mbind result_bind].
  rewrite (proj2 (Z.ltb_ge _ _)) by lia. cbn [mbind result_bind]. eexists. split; [done|]. cbn. lia.
Qed.

Definition brutal_ok (b : Brutal) : Prop :=
  in_u16 (current_mtu b) /\ br_window b <= MAX_WINDOW /\ bc_max_window (br_config b) <= MAX_WINDOW.

Lemma brutal_step_ok b c : brutal_ok b -> call_ok c -> brutal_ok (brutal_step b c).
Proof.
  unfold brutal_ok, in_u16, MAX_WINDOW. intros (Hm & Hw & Hc) Hok.
  destruct c; cbn [brutal_step on_ack on_congestion_event on_mtu_update current_mtu br_window br_config
    call_ok] in *; unfold compute_window, in_u16 in *; cbn [br_config current_mtu smoothed_rtt]; lia.
Qed.

(** The Brutal controller.  Whatever [quinn] reports, the congestion window
    stays between two datagrams and 20 MiB; and after any acknowledgement, however
    many losses are reported, the controller does not change at all. *)
Theorem brutal_ignores_loss target mtu calls : in_u64 target -> in_u16 mtu -> Forall call_ok calls ->
  exists cfg, brutal_config_new target = Ok cfg
  /\ let b := foldl brutal_step (brutal_new cfg mtu) calls in
     2 * current_mtu b <= window b <= MAX_WINDOW
     /\ forall rtt losses, foldl brutal_step (on_ack rtt b) (map OnCongestion losses) = on_ack rtt b.
Proof.
  intros Ht Hm Hcalls. destruct (brutal_config_bounds target Ht) as (cfg & -> & Hb).
  exists cfg. split; [done|]. set (b := foldl _ _ _).
  assert (Hok : brutal_ok b).
  { unfold b. assert (H0 : brutal_ok (brutal_new cfg mtu)) by (unfold brutal_ok, in_u16 in *; cbn; lia).
    revert H0. generalize (brutal_new cfg mtu). induction Hcalls as [|c cs Hc _ IH]; [done|].
    intros b0 H0. cbn [foldl]. by apply IH, brutal_step_ok. }
  destruct Hok as (Hm' & Hw & _). unfold window, in_u16, MAX_WINDOW in *. split; [lia|].
  intros rtt losses. induction losses as [|l ls IH]; [done|]. exact IH.
Qed.

Lemma brutal_ignores_loss_witness :
  exists cfg, brutal_config_new 25000000 = Ok cfg
  /\ let b := foldl brutal_step (brutal_new cfg 1200) [OnAck 200000000; OnCongestion 4096; OnMtu 1400] in
     window b = 5000000 /\ window b <= MAX_WINDOW.
Proof.
  destruct (brutal_ignores_loss 25000000 1200 [OnAck 200000000; OnCongestion 4096; OnMtu 1400])
    as (cfg & E & H & _); [done|done|repeat constructor; done|].
  exists cfg. split; [done|]. split; [|apply H]. vm_compute in E. injection E as <-. by vm_compute.
Defined.

(** ** The writer *)

Inductive task_end := Finished | Stalled | OutOfFuel.

(** A task that writes one buffer and is woken by nothing but the timer. *)
Fixpoint write_task (fuel : nat) (now : Z) (w : BrutalWriter) (buf : list byte)
  : result (task_end * BrutalWriter) :=
  match fuel with
  | O => Ok (OutOfFuel, w)
  | S fuel =>
      '(r, w) ← brutal_poll_write now w buf;
      match r, bw_delay w with
      | Wrote _, _ => Ok (Finished, w)
      | Blocked, Some (mkTimer t true) => write_task fuel (Z.max now t) w buf
      | Blocked, _ => Ok (Stalled, w)
      end
  end.

(** A write the pacer delays is never resumed by it: the writer creates the
    timer and reports that it is pending without polling the timer, so nothing is
    registered to wake the task.  A write within the budget finishes at once. *)
Theorem brutal_writer_stalls fuel now w buf wait l : bw_delay w = None -> buf <> [] ->
  acquire_wait (bp_limiter (bw_pacer w)) now (zlen buf) = Ok (wait, l) ->
  exists w', write_task (S fuel) now w buf = Ok (if wait =? 0 then Finished else Stalled, w')
  /\ bp_limiter (bw_pacer w') = l.
Proof.
  intros Hd Hb Ha. cbn [write_task]. unfold brutal_poll_write. rewrite Hd. destruct buf as [|b buf]; [done|].
  rewrite Ha. cbn [mbind result_bind]. destruct (wait =? 0); cbn; by eexists.
Qed.

(** A little more than a second's worth of data at 1 Mbit/s. *)
Lemma brutal_writer_stalls_witness :
  exists w', write_task 5 0 (mkBrutalWriter (pacer_new (brutal_bps_from_mbps 1) 0) None) (replicate (Z.to_nat 130000) x41)
    = Ok (Stalled, w').
Proof.
  set (w := mkBrutalWriter _ _). set (buf := replicate _ x41).
  assert (Hz : zlen buf = 130000) by (unfold zlen, buf; rewrite length_replicate; lia).
  destruct (acquire_wait (bp_limiter (bw_pacer w)) 0 130000) as [[wait l]|e|e] eqn:E.
  - destruct (brutal_writer_stalls 4 0 w buf wait l eq_refl) as (w' & H & _).
    + intros Hn. rewrite Hn in Hz. done.
    + by rewrite Hz.
    + exists w'. vm_compute in E. injection E as <- _. exact H.
  - by vm_compute in E.
  - by vm_compute in E.
Defined.
