(* ===== verification/RsqAuth.v ===== *)
(** * RSQ authentication (crates/rsb-protocol/src/rsq/auth.rs)

    The AUTH_REQ / AUTH_OK payloads, the keyed proof, the server's check over
    its user list and the replay cache.  HMAC-SHA256 comes from an external
    crate: it is a parameter, with the length of its output as the only law. *)
From stdpp Require Import base tactics gmap list strings countable.
From Stdlib Require Import ZArith Lia.
From Stdlib Require Import Strings.Byte.
From S2P Require Import Prelude Json RsqProtocol RsqTraffic.

Local Open Scope Z_scope.

(** The [hmac]/[sha2] crates: [hmac key data], 32 bytes of output. *)
Class HmacSha256 := {
  hmac : list byte -> list byte -> list byte;
  hmac_length : forall key data, length (hmac key data) = 32%nat;
}.

Definition AUTH_MAX_SKEW_SECS : Z := 120.
Definition REPLAY_TTL_SECS : Z := AUTH_MAX_SKEW_SECS.

(** [Instant]s are nanoseconds of the monotonic clock; [duration_since]
    saturates at zero and [as_secs] truncates. *)
Definition NANOS : Z := 1000000000.
Definition secs_since (now at_ : Z) : Z := Z.max (now - at_) 0 / NANOS.

(** ** Replay cache *)

Abbreviation AuthReplayCache := (gmap (list byte) Z).

Definition cache_live (now : Z) (kv : list byte * Z) : Prop :=
  secs_since now kv.2 <= REPLAY_TTL_SECS.
#[export] Instance cache_live_dec now kv : Decision (cache_live now kv).
Proof. unfold cache_live. apply _. Defined.

Definition check_and_insert (now : Z) (seen : AuthReplayCache) (nonce : list byte)
  : result unit * AuthReplayCache :=
  let seen := filter (cache_live now) seen in
  match seen !! nonce with
  | Some _ => (Err "auth replay detected", seen)
  | None => (Ok tt, <[nonce := now]> seen)
  end.

(** ** Requests and replies *)

Record AuthOk := mkAuthOk {
  auth_session_id : Z;
  server_rx_bps : Z;
  udp_enabled : bool;
}.

Record AuthClientCaps := mkAuthClientCaps {
  client_rx_bps : Z;
  client_up_bps : Z;
  caps_profile : TrafficProfile;
}.

Section Auth.
Context `{HmacSha256}.

Definition auth_key (password : list byte) : list byte :=
  take 32 (hmac password (str "rsq-auth-v1")).

Definition compute_proof (key data : list byte) : list byte :=
  take 32 (hmac key data).

(** The signed part of an AUTH_REQ body. *)
Definition auth_req_body (client_random : list byte) (timestamp rx_bps up_bps : Z)
    (profile : TrafficProfile) : list byte :=
  let body := [x01] ++ client_random in
  let body := body ++ be_encode 8 timestamp in
  let body := write_varint body rx_bps in
  let body := write_varint body up_bps in
  body ++ [u8 (profile_id profile)].

(** [encode_auth_req]: [rnd] feeds the nonce, [rnd_pad] and [r_pad] the
    padding, [timestamp] is the client's clock. *)
Definition encode_auth_req (rnd rnd_pad : nat -> byte) (r_pad timestamp : Z)
    (password : list byte) (down_mbps up_mbps : Z) (profile : TrafficProfile)
  : list byte :=
  let key := auth_key password in
  let client_random := fill_bytes rnd 32 in
  let rx_bps := if down_mbps =? 0 then 0 else down_mbps * MBPS_TO_BPS in
  let up_bps := if up_mbps =? 0 then default_up_bps profile
                else up_mbps * MBPS_TO_BPS in
  let body := auth_req_body client_random timestamp rx_bps up_bps profile in
  let proof := compute_proof key body in
  encode_frame rnd_pad FRAME_AUTH_REQ x00 (body ++ proof) (random_pad_len r_pad 32 128).

(** The fields [verify_auth_req] extracts before it tries the passwords. *)
Record AuthFields := mkAuthFields {
  af_random : list byte;
  af_caps : AuthClientCaps;
  af_signed : list byte;
  af_proof : list byte;
}.

Definition parse_auth_req (now_unix : Z) (frame : DecodedFrame) : result AuthFields :=
  if negb (bool_decide (frame_type frame = FRAME_AUTH_REQ)) then Err "expected AUTH_REQ"
  else
    let body := payload frame in
    if zlen body <? 32 + 8 + 1 + 32 + 3 then Err "auth req too short"
    else
      '(version, cursor) ← get_u8 body;
      if negb (bz version =? 1) then Err "unsupported auth version"
      else
        client_random ← slice_to cursor 32;
        cursor ← slice_from cursor 32;
        '(timestamp, cursor) ← get_be 8 cursor;
        if AUTH_MAX_SKEW_SECS <? abs_diff timestamp now_unix then
          Err "auth timestamp skew"
        else
          '(rx_bps, cursor) ← read_varint cursor;
          '(up_bps, cursor) ← read_varint cursor;
          '(pid, cursor) ← get_u8 cursor;
          let profile := from_id (bz pid) in
          if zlen cursor <? 32 then Err "missing auth proof"
          else
            let proof_start := zlen body - 32 in
            signed ← slice_to body proof_start;
            proof ← slice_from body proof_start;
            Ok (mkAuthFields client_random
                  (mkAuthClientCaps rx_bps up_bps profile) signed proof).

(** The [for password in passwords] loop; the cache is only touched for the
    first password whose proof matches. *)
Fixpoint verify_loop (now : Z) (af : AuthFields) (passwords : list (list byte))
    (replay : option AuthReplayCache)
  : result (list byte * AuthClientCaps) * option AuthReplayCache :=
  match passwords with
  | [] => (Err "auth failed", replay)
  | password :: rest =>
      let key := auth_key password in
      let expected := compute_proof key (af_signed af) in
      if bool_decide (expected = af_proof af) then
        match replay with
        | None => (Ok (password, af_caps af), None)
        | Some cache =>
            match check_and_insert now cache (af_random af) with
            | (Ok _, cache) => (Ok (password, af_caps af), Some cache)
            | (Err e, cache) => (Err e, Some cache)
            | (Panic e, cache) => (Panic e, Some cache)
            end
        end
      else verify_loop now af rest replay
  end.

(** [verify_auth_req] at wall-clock second [now_unix] and instant [now]. *)
Definition verify_auth_req (now_unix now : Z) (frame : DecodedFrame)
    (passwords : list (list byte)) (replay : option AuthReplayCache)
  : result (list byte * AuthClientCaps) * option AuthReplayCache :=
  match parse_auth_req now_unix frame with
  | Ok af => verify_loop now af passwords replay
  | Err e => (Err e, replay)
  | Panic e => (Panic e, replay)
  end.

Definition encode_auth_ok (rnd_pad : nat -> byte) (r_pad : Z)
    (session_id server_rx_bps : Z) (udp_enabled : bool) : list byte :=
  let body := [x01] ++ be_encode 4 session_id in
  let body := write_varint body server_rx_bps in
  let body := body ++ [if udp_enabled then x01 else x00] in
  encode_frame rnd_pad FRAME_AUTH_OK x00 body (random_pad_len r_pad 16 64).

Definition decode_auth_ok (frame : DecodedFrame) : result AuthOk :=
  if negb (bool_decide (frame_type frame = FRAME_AUTH_OK)) then Err "expected AUTH_OK"
  else
    let body := payload frame in
    if negb (bool_decide (head body = Some x01)) then Err "unsupported auth ok version"
    else
      cursor ← slice_from body 1;
      if zlen cursor <? 4 then Err "auth ok too short"
      else
        '(session_id, cursor) ← get_be 4 cursor;
        '(server_rx_bps, cursor) ← read_varint cursor;
        let udp_enabled :=
          negb (bz (default x00 (head cursor)) =? 0) in
        Ok (mkAuthOk session_id server_rx_bps udp_enabled).

#[global] Arguments auth_req_body : simpl never.

(** ** Lemmas *)

Lemma length_compute_proof key data : length (compute_proof key data) = 32%nat.
Proof. unfold compute_proof. rewrite length_take, hmac_length. done. Qed.

Lemma auth_req_body_shape nonce ts rx up p :
  auth_req_body nonce ts rx up p
  = x01 :: nonce ++ be_encode 8 ts ++ write_varint [] rx ++ write_varint [] up
      ++ [u8 (profile_id p)].
Proof.
  unfold auth_req_body. cbv zeta.
  rewrite (write_varint_app (write_varint _ _)), (write_varint_app (_ ++ be_encode _ _)).
  by rewrite <-!app_assoc.
Qed.

Lemma length_write_varint v : (1 <= length (write_varint [] v))%nat.
Proof.
  pose proof (write_varint_nonempty v). destruct (write_varint [] v); simpl; [done|lia].
Qed.

Lemma parse_auth_req_encoded now fl nonce ts rx up p proof :
  length nonce = 32%nat -> length proof = 32%nat -> in_u64 ts ->
  0 <= rx < 2 ^ 62 -> 0 <= up < 2 ^ 62 -> abs_diff ts now <= AUTH_MAX_SKEW_SECS ->
  parse_auth_req now
    (mkDecodedFrame FRAME_AUTH_REQ fl (auth_req_body nonce ts rx up p ++ proof))
  = Ok (mkAuthFields nonce (mkAuthClientCaps rx up p)
          (auth_req_body nonce ts rx up p) proof).
Proof.
  intros Hn Hp Hts Hrx Hup Hskew. unfold parse_auth_req. cbn [frame_type payload].
  rewrite bool_decide_eq_true_2 by done. cbn [negb].
  set (body := auth_req_body nonce ts rx up p).
  assert (Hlen : zlen body = zlen (body ++ proof) - 32)
    by (rewrite zlen_app; unfold zlen at 3; rewrite Hp; lia).
  assert (Hshape : body ++ proof = x01 :: nonce ++ be_encode 8 ts ++ write_varint [] rx
    ++ write_varint [] up ++ u8 (profile_id p) :: proof).
  { unfold body. rewrite auth_req_body_shape, <-app_comm_cons. by rewrite <-!app_assoc. }
  rewrite (proj2 (Z.ltb_ge _ _)).
  2:{ rewrite Hshape. unfold zlen. cbn [length].
      rewrite !length_app, length_be_encode. cbn [length].
      pose proof (length_write_varint rx). pose proof (length_write_varint up). lia. }
  rewrite Hshape at 1. cbn [get_u8 mbind result_bind]. change (bz x01) with 1. simpl negb.
  rewrite (slice_to_app_eq nonce), (slice_from_app_eq nonce) by (unfold zlen; by rewrite Hn).
  cbn [mbind result_bind].
  rewrite get_be_encode by exact Hts. cbn [mbind result_bind].
  rewrite (proj2 (Z.ltb_ge _ _)) by done.
  rewrite read_write_varint by done. cbn [mbind result_bind].
  rewrite read_write_varint by done. cbn [mbind result_bind get_u8].
  rewrite (proj2 (Z.ltb_ge _ _)) by (unfold zlen; rewrite Hp; lia).
  rewrite <-Hlen, slice_to_app, slice_from_app. cbn [mbind result_bind].
  pose proof (profile_id_u8 p).
  by rewrite bz_u8_small, from_id_profile_id by lia.
Qed.

(** What a successful parse says about the frame. *)
Lemma parse_auth_req_Ok now f af :
  parse_auth_req now f = Ok af ->
  frame_type f = FRAME_AUTH_REQ /\ payload f = af_signed af ++ af_proof af /\
  length (af_proof af) = 32%nat /\
  af_random af = take 32 (drop 1 (payload f)) /\
  abs_diff (be_decode (take 8 (drop 33 (payload f)))) now <= AUTH_MAX_SKEW_SECS.
Proof.
  unfold parse_auth_req. case_bool_decide as Ht; simpl; [|done].
  change (32 + 8 + 1 + 32 + 3) with 76.
  destruct (zlen (payload f) <? 76) eqn:El; [done|]. bool_props.
  destruct (payload f) as [|v c] eqn:Eb; [done|]. cbn [get_u8 mbind result_bind].
  destruct (bz v =? 1) eqn:Ev; cbn [negb]; [|done].
  autorewrite with rsbox_len in El.
  rewrite (slice_to_ok c), (slice_from_ok c) by lia. cbn [mbind result_bind].
  rewrite get_be_ok by (unfold zlen in *; rewrite length_drop; lia).
  cbn [mbind result_bind]. destruct (_ <? abs_diff _ _) eqn:Es; [done|]. bool_props.
  destruct (read_varint _) as [[rx c1]|e|e]; cbn [mbind result_bind]; [|done..].
  destruct (read_varint c1) as [[up c2]|e|e]; cbn [mbind result_bind]; [|done..].
  destruct c2 as [|pid c3]; cbn [get_u8 mbind result_bind]; [done|].
  destruct (zlen c3 <? 32) eqn:E3; [done|]. bool_props.
  rewrite slice_to_ok, slice_from_ok by (autorewrite with rsbox_len; lia).
  cbn [mbind result_bind]. intros [= <-]. simpl.
  rewrite take_drop. split_and!; try done.
  - unfold zlen in *. rewrite length_drop. simpl length in *. lia.
Qed.

Lemma parse_auth_req_no_panic now f e : parse_auth_req now f <> Panic e.
Proof.
  unfold parse_auth_req. case_bool_decide; simpl; [|done].
  change (32 + 8 + 1 + 32 + 3) with 76.
  destruct (zlen (payload f) <? 76) eqn:El; [done|]. bool_props.
  destruct (payload f) as [|v c] eqn:Eb; [done|]. cbn [get_u8 mbind result_bind].
  destruct (bz v =? 1); cbn [negb]; [|done].
  autorewrite with rsbox_len in El.
  rewrite (slice_to_ok c), (slice_from_ok c) by lia. cbn [mbind result_bind].
  assert (Hc : (length c >= 75)%nat) by (unfold zlen in El; lia).
  rewrite get_be_ok by (rewrite length_drop; lia).
  cbn [mbind result_bind]. case_match; [done|]. rewrite drop_drop.
  set (c0 := drop _ c). assert (Hc0 : (35 <= length c0)%nat) by
    (unfold c0; rewrite length_drop; lia).
  destruct (read_varint_long c0) as (rx & c1 & -> & Hc1); [lia|]. cbn [mbind result_bind].
  destruct (read_varint_long c1) as (up & c2 & -> & Hc2); [lia|]. cbn [mbind result_bind].
  destruct c2 as [|pid c3]; [simpl in *; lia|]. cbn [get_u8 mbind result_bind].
  case_match; [done|].
  rewrite slice_to_ok, slice_from_ok by (autorewrite with rsbox_len; lia). done.
Qed.

Lemma verify_loop_Ok now af passwords replay p caps replay' :
  verify_loop now af passwords replay = (Ok (p, caps), replay') ->
  p ∈ passwords /\ compute_proof (auth_key p) (af_signed af) = af_proof af /\
  caps = af_caps af /\
  match replay with
  | None => replay' = None
  | Some c => exists c', check_and_insert now c (af_random af) = (Ok tt, c') /\
  replay' = Some c'
  end.
Proof.
  induction passwords as [|q rest IH]; simpl; [done|].
  case_bool_decide as Hq.
  - destruct replay as [c|].
    + destruct (check_and_insert now c (af_random af)) as [[[]|e|e] c'] eqn:Ec;
        intros [= <- <- <-]; rewrite elem_of_cons; split_and!; eauto.
    + intros [= <- <- <-]. rewrite elem_of_cons. split_and!; eauto.
  - intros Hv. destruct (IH Hv) as (Hin & Hrest). rewrite elem_of_cons. split; [by right|done].
Qed.

(** The loop stops at the first password whose proof matches. *)
Lemma verify_loop_match now af passwords replay p :
  p ∈ passwords -> compute_proof (auth_key p) (af_signed af) = af_proof af ->
  (forall q, q ∈ passwords ->
     compute_proof (auth_key q) (af_signed af) = af_proof af -> q = p) ->
  verify_loop now af passwords replay
  = match replay with
    | None => (Ok (p, af_caps af), None)
    | Some c =>
        match check_and_insert now c (af_random af) with
        | (Ok _, c') => (Ok (p, af_caps af), Some c')
        | (Err e, c') => (Err e, Some c')
        | (Panic e, c') => (Panic e, Some c')
        end
    end.
Proof.
  intros Hin Hp Hu. induction passwords as [|q rest IH]; [by apply elem_of_nil in Hin|]. simpl.
  setoid_rewrite elem_of_cons in Hin. setoid_rewrite elem_of_cons in Hu.
  case_bool_decide as Hq.
  - assert (q = p) as -> by (apply Hu; auto). done.
  - destruct Hin as [->|Hin]; [done|]. apply IH; auto.
Qed.

Lemma verify_loop_no_match now af passwords replay :
  (forall q, q ∈ passwords -> compute_proof (auth_key q) (af_signed af) <> af_proof af) ->
  verify_loop now af passwords replay = (Err "auth failed", replay).
Proof.
  intros Hn. induction passwords as [|q rest IH]; [done|]. simpl.
  setoid_rewrite elem_of_cons in Hn.
  case_bool_decide as Hq; [exfalso; by apply (Hn q); [left|]|]. apply IH. auto.
Qed.
End Auth.

(** *** Replay cache *)

Lemma check_and_insert_fresh now c nonce :
  c !! nonce = None ->
  check_and_insert now c nonce = (Ok tt, <[nonce := now]> (filter (cache_live now) c)).
Proof.
  intros Hc. unfold check_and_insert. cbv zeta.
  rewrite (proj2 (map_lookup_filter_None _ _ _)) by (by left). done.
Qed.

Lemma check_and_insert_Ok now c nonce c' :
  check_and_insert now c nonce = (Ok tt, c') ->
  filter (cache_live now) c !! nonce = None /\
  c' = <[nonce := now]> (filter (cache_live now) c).
Proof.
  unfold check_and_insert. cbv zeta.
  destruct (filter (cache_live now) c !! nonce); [done|]. by intros [= <-].
Qed.

Lemma check_and_insert_keeps now c nonce at_ n :
  c !! nonce = Some at_ -> secs_since now at_ <= REPLAY_TTL_SECS ->
  snd (check_and_insert now c n) !! nonce = Some at_ /\
  (n = nonce -> fst (check_and_insert now c n) = Err "auth replay detected").
Proof.
  intros Hc Hl. unfold check_and_insert. cbv zeta.
  assert (Hf : filter (cache_live now) c !! nonce = Some at_)
    by (by apply map_lookup_filter_Some).
  destruct (filter (cache_live now) c !! n) as [a|] eqn:En; simpl.
  - split; [done|]. by intros ->.
  - assert (n <> nonce) by congruence. by rewrite lookup_insert_ne.
Qed.

Lemma secs_since_mono now now' at_ :
  now <= now' -> secs_since now at_ <= secs_since now' at_.
Proof. intros Hl. unfold secs_since, NANOS. apply Z.div_le_mono; lia. Qed.

(** Any later checks, at non-decreasing instants. *)
Fixpoint cache_run (c : AuthReplayCache) (reqs : list (Z * list byte)) : AuthReplayCache :=
  match reqs with
  | [] => c
  | (t, n) :: rest => cache_run (snd (check_and_insert t c n)) rest
  end.

Lemma cache_run_keeps reqs : forall c nonce at_ now,
  c !! nonce = Some at_ -> secs_since now at_ <= REPLAY_TTL_SECS ->
  Forall (fun r => r.1 <= now) reqs ->
  cache_run c reqs !! nonce = Some at_.
Proof.
  induction reqs as [|[t n] reqs IH]; intros c nonce at_ now Hc Hl Hr; [done|].
  inversion_clear Hr as [|? ? Ht Hr']. simpl in *. apply (IH _ _ _ now); [|done..].
  apply check_and_insert_keeps; [done|].
  pose proof (secs_since_mono t now at_ Ht). lia.
Qed.

(** *** Requests as the client sends them *)

Section AuthProperties.
Context `{HmacSha256}.

Definition req_rx_bps (down_mbps : Z) : Z :=
  if down_mbps =? 0 then 0 else down_mbps * MBPS_TO_BPS.
Definition req_up_bps (up_mbps : Z) (profile : TrafficProfile) : Z :=
  if up_mbps =? 0 then default_up_bps profile else up_mbps * MBPS_TO_BPS.

Lemma req_bps_bounds down up profile :
  in_u32 down -> in_u32 up ->
  0 <= req_rx_bps down < 2 ^ 62 /\ 0 <= req_up_bps up profile < 2 ^ 62.
Proof.
  unfold in_u32, req_rx_bps, req_up_bps, MBPS_TO_BPS. intros Hd Hu.
  change (2 ^ 62) with 4611686018427387904. change (2 ^ 32) with 4294967296 in *.
  split; case_match; [lia..|destruct profile; vm_compute; intuition congruence|lia].
Qed.

Lemma random_pad_len_bounds r lo hi :
  0 <= lo <= hi -> lo <= random_pad_len r lo hi <= hi.
Proof.
  intros Hl. unfold random_pad_len, saturating_sub. cbv zeta.
  pose proof (Z.mod_pos_bound r (Z.max (hi - lo) 0 + 1) ltac:(lia)). lia.
Qed.

Lemma length_auth_req_body nonce ts rx up p :
  length nonce = 32%nat -> (length (auth_req_body nonce ts rx up p) <= 100)%nat.
Proof.
  intros Hn. rewrite auth_req_body_shape. cbn [length].
  rewrite !length_app, length_be_encode. cbn [length].
  assert (Hv : forall v, (length (write_varint [] v) <= 8)%nat)
    by (intros v; unfold write_varint; repeat case_match; simpl; lia).
  pose proof (Hv rx). pose proof (Hv up). lia.
Qed.

(** The frame the server decodes from a client's AUTH_REQ. *)
Lemma decode_auth_req rnd rnd_pad r_pad ts password down up profile rest :
  let body := auth_req_body (fill_bytes rnd 32) ts (req_rx_bps down)
                (req_up_bps up profile) profile in
  try_decode_frame
    (encode_auth_req rnd rnd_pad r_pad ts password down up profile ++ rest)
  = Ok (Some (mkDecodedFrame FRAME_AUTH_REQ x01
                (body ++ compute_proof (auth_key password) body))).
Proof.
  intros body. unfold encode_auth_req. cbv zeta.
  fold (req_rx_bps down) (req_up_bps up profile) body.
  pose proof (random_pad_len_bounds r_pad 32 128 ltac:(lia)) as Hp.
  assert (Hl : (length body <= 100)%nat)
    by (apply length_auth_req_body, length_fill_bytes).
  rewrite decode_encoded.
  - unfold wire_flags. by rewrite (proj2 (Z.ltb_lt _ _)) by lia.
  - rewrite zlen_app. unfold zlen. rewrite length_compute_proof.
    change (2 ^ 62) with 4611686018427387904. lia.
  - lia.
  - left. lia.
Qed.

(** A client that holds a configured password is let in.  The server decodes
    the request the client encodes and accepts it when the clocks differ by at
    most 120 s and the nonce is new, returning that password and the bandwidth
    and profile the client sent, and recording the nonce; no other configured
    password may produce the same proof. *)
Theorem auth_accepts_user rnd rnd_pad r_pad ts password down up profile
    passwords now_unix now cache :
  let body := auth_req_body (fill_bytes rnd 32) ts (req_rx_bps down)
                (req_up_bps up profile) profile in
  password ∈ passwords -> in_u64 ts -> in_u32 down -> in_u32 up ->
  abs_diff ts now_unix <= AUTH_MAX_SKEW_SECS ->
  cache !! fill_bytes rnd 32 = None ->
  (forall q, q ∈ passwords ->
     compute_proof (auth_key q) body = compute_proof (auth_key password) body ->
     q = password) ->
  exists frame,
    try_decode_frame (encode_auth_req rnd rnd_pad r_pad ts password down up profile)
      = Ok (Some frame) /\
    verify_auth_req now_unix now frame passwords (Some cache)
      = (Ok (password, mkAuthClientCaps (req_rx_bps down) (req_up_bps up profile) profile),
         Some (<[fill_bytes rnd 32 := now]> (filter (cache_live now) cache))).
Proof.
  intros body Hin Hts Hd Hu Hskew Hc Hinj.
  destruct (req_bps_bounds down up profile Hd Hu) as [Hrx Hup].
  eexists. split.
  { rewrite <-(app_nil_r (encode_auth_req _ _ _ _ _ _ _ _)). apply decode_auth_req. }
  fold body. unfold verify_auth_req, body.
  rewrite parse_auth_req_encoded
    by (done || apply length_fill_bytes || apply length_compute_proof).
  rewrite (verify_loop_match _ _ _ _ password) by done.
  cbn [af_random af_caps]. by rewrite check_and_insert_fresh by done.
Qed.

(** C3.  Every outcome of the server's check, on any frame.  It is accepted only
    for a configured password whose keyed proof covers everything before the
    proof, with a timestamp within the skew and a nonce that is not live in the
    replay cache, which then holds it; every other outcome is an error that
    leaves the cache as it was (or pruned, for a replay); it never panics. *)
Theorem auth_verify_spec now_unix now frame passwords cache :
  let body := payload frame in
  let nonce := take 32 (drop 1 body) in
  let live := filter (cache_live now) cache in
  match verify_auth_req now_unix now frame passwords (Some cache) with
  | (Ok (p, caps), cache') =>
      p ∈ passwords /\ frame_type frame = FRAME_AUTH_REQ /\
      (exists signed, body = signed ++ compute_proof (auth_key p) signed) /\
      abs_diff (be_decode (take 8 (drop 33 body))) now_unix <= AUTH_MAX_SKEW_SECS /\
      live !! nonce = None /\ cache' = Some (<[nonce := now]> live)
  | (Err e, cache') =>
      cache' = Some cache \/
      (e = "auth replay detected" /\ is_Some (live !! nonce) /\ cache' = Some live)
  | (Panic _, _) => False
  end.
Proof.
  cbv zeta. unfold verify_auth_req.
  destruct (parse_auth_req now_unix frame) as [af|e|e] eqn:Hp.
  2: by left.
  2: by apply parse_auth_req_no_panic in Hp.
  apply parse_auth_req_Ok in Hp as (Ht & Hb & _ & Hr & Hs).
  rewrite <-Hr. clear Hr. induction passwords as [|q rest IH]; simpl; [by left|].
  case_bool_decide as Hq.
  - unfold check_and_insert. cbv zeta.
    destruct (filter (cache_live now) cache !! af_random af) as [a|] eqn:Ea.
    + right. split_and!; eauto.
    + rewrite elem_of_cons. split_and!; try done; [by left|].
      exists (af_signed af). by rewrite Hq.
  - destruct (verify_loop now af rest (Some cache)) as [[[p caps]|e|e] c']; try done.
    destruct IH as (Hin & Hrest). rewrite elem_of_cons. split; [by right|done].
Qed.

(** C7.  Replays are rejected for the whole retention period.  Once a nonce has
    been accepted at instant [t], any request that carries it within the
    following 120 s (whole seconds) is refused, whatever other requests the
    server checked in between. *)
Theorem auth_replay_rejected t cache nonce reqs t' frame now_unix passwords :
  fst (check_and_insert t cache nonce) = Ok tt ->
  Forall (fun r => r.1 <= t') reqs ->
  secs_since t' t <= REPLAY_TTL_SECS ->
  take 32 (drop 1 (payload frame)) = nonce ->
  exists e c',
    verify_auth_req now_unix t' frame passwords
      (Some (cache_run (snd (check_and_insert t cache nonce)) reqs)) = (Err e, c').
Proof.
  intros Hok Hreqs Hl Hn.
  assert (Hc : snd (check_and_insert t cache nonce) !! nonce = Some t).
  { unfold check_and_insert in *. cbv zeta in *.
    destruct (filter _ cache !! nonce); simpl in *; [done|apply lookup_insert_eq]. }
  pose proof (cache_run_keeps reqs _ _ _ t' Hc Hl Hreqs) as Hk.
  destruct (check_and_insert_keeps t' _ nonce t nonce Hk Hl) as [_ Hrep].
  specialize (Hrep eq_refl). unfold verify_auth_req.
  destruct (parse_auth_req now_unix frame) as [af|e|e] eqn:Hp; [|eauto|].
  2: by apply parse_auth_req_no_panic in Hp.
  apply parse_auth_req_Ok in Hp as (_ & _ & _ & Hr & _). rewrite Hn in Hr.
  induction passwords as [|q rest IH]; simpl; [eauto|].
  case_bool_decide; [|done]. rewrite Hr.
  destruct (check_and_insert t' _ nonce) as [[?|?|?] ?]; simpl in *; by eauto.
Qed.

Lemma parse_auth_req_later now now' frame af :
  parse_auth_req now frame = Ok af ->
  abs_diff (be_decode (take 8 (drop 33 (payload frame)))) now' <= AUTH_MAX_SKEW_SECS ->
  parse_auth_req now' frame = Ok af.
Proof.
  unfold parse_auth_req. case_bool_decide as Ht; cbn [negb]; [|done].
  change (32 + 8 + 1 + 32 + 3) with 76.
  destruct (zlen (payload frame) <? 76) eqn:El; [done|]. bool_props.
  destruct (payload frame) as [|v c] eqn:Eb; [done|]. cbn [get_u8 mbind result_bind].
  destruct (bz v =? 1) eqn:Ev; cbn [negb]; [|done].
  autorewrite with rsbox_len in El.
  rewrite (slice_to_ok c), (slice_from_ok c) by lia. cbn [mbind result_bind].
  rewrite get_be_ok by (unfold zlen in *; rewrite length_drop; lia).
  cbn [mbind result_bind]. destruct (_ <? abs_diff _ now) eqn:Es; [done|].
  intros Hrest Hs. rewrite (proj2 (Z.ltb_ge _ _)); [done|].
  change (drop (Z.to_nat 32) c) with (drop 33 (v :: c)). done.
Qed.

(** The retention period is too short for the skew that is tolerated.  A
    request whose timestamp is ahead of the server's clock (by up to 120 s) is
    accepted again, with the very same bytes, 121 s after it was first accepted:
    the cache has dropped the nonce while the timestamp is still in range. *)
Theorem auth_replay_gap now_unix now frame passwords cache p caps cache' :
  verify_auth_req now_unix now frame passwords (Some cache) = (Ok (p, caps), Some cache') ->
  now_unix + 1 <= be_decode (take 8 (drop 33 (payload frame))) ->
  exists p' cache'',
    verify_auth_req (now_unix + 121) (now + 121 * NANOS) frame passwords (Some cache')
    = (Ok (p', caps), Some cache'').
Proof.
  intros Hv Hts. unfold verify_auth_req in *.
  destruct (parse_auth_req now_unix frame) as [af|e|e] eqn:Hp; [|done..].
  assert (Hskew := parse_auth_req_Ok _ _ _ Hp).
  destruct Hskew as (_ & _ & _ & _ & Hskew).
  rewrite (parse_auth_req_later _ (now_unix + 121) _ _ Hp)
    by (unfold abs_diff, AUTH_MAX_SKEW_SECS in *; lia).
  assert (Hc' := verify_loop_Ok _ _ _ _ _ _ _ Hv).
  destruct Hc' as (_ & _ & _ & c'' & Hci & [= ->]).
  apply check_and_insert_Ok in Hci as [_ ->]. clear Hskew Hts Hp.
  assert (Hgone : filter (cache_live (now + 121 * NANOS))
    (<[af_random af := now]> (filter (cache_live now) cache)) !! af_random af = None).
  { apply map_lookup_filter_None. right. intros x Hx.
    rewrite lookup_insert_eq in Hx. injection Hx as <-. unfold cache_live, secs_since. simpl.
    replace (now + 121 * NANOS - now) with (121 * NANOS) by lia. vm_compute. congruence. }
  induction passwords as [|q rest IH]; [done|]. simpl in *.
  case_bool_decide as Hq; [|auto]. unfold check_and_insert at 1. cbv zeta.
  rewrite Hgone. destruct (check_and_insert now cache (af_random af)) as [[?|?|?] ?];
    simplify_eq. eauto.
Qed.

(** The server's AUTH_OK reaches the client unchanged: session id, server
    receive rate and UDP flag. *)
Theorem auth_ok_roundtrip rnd_pad r_pad sid rx udp rest :
  in_u32 sid -> 0 <= rx < 2 ^ 62 ->
  exists frame,
    try_decode_frame (encode_auth_ok rnd_pad r_pad sid rx udp ++ rest) = Ok (Some frame) /\
    decode_auth_ok frame = Ok (mkAuthOk sid rx udp).
Proof.
  intros Hs Hrx. unfold encode_auth_ok. cbv zeta.
  pose proof (random_pad_len_bounds r_pad 16 64 ltac:(lia)) as Hp.
  assert (Hv : (length (write_varint [] rx) <= 8)%nat)
    by (unfold write_varint; repeat case_match; simpl; lia).
  rewrite write_varint_app, <-!app_assoc. eexists. split.
  { apply decode_encoded; [|lia|left; lia].
    unfold zlen. rewrite !length_app, length_be_encode. cbn [length].
    change (2 ^ 62) with 4611686018427387904. lia. }
  unfold decode_auth_ok. cbn [frame_type payload].
  rewrite !bool_decide_eq_true_2 by done. cbn [negb].
  rewrite (slice_from_app_eq [x01]) by done. cbn [mbind result_bind].
  rewrite (proj2 (Z.ltb_ge _ _))
    by (unfold zlen; rewrite !length_app, length_be_encode; lia).
  rewrite get_be_encode by exact Hs. cbn [mbind result_bind].
  rewrite read_write_varint by done. cbn [mbind result_bind].
  by destruct udp.
Qed.
End AuthProperties.

(** *** Witnesses, with a concrete keyed function *)

Definition toy_hmac : HmacSha256.
Proof.
  refine {| hmac key data := take 32 (key ++ data ++ repeat x00 32) |}.
  intros key data. rewrite length_take, !length_app, repeat_length. lia.
Defined.

#[local] Existing Instance toy_hmac.

Definition toy_req (ts : Z) : list byte :=
  encode_auth_req (fun _ => x07) (fun _ => x00) 0 ts (str "user-a") 100 50 Video.

Definition toy_frame (ts : Z) : DecodedFrame :=
  match try_decode_frame (toy_req ts) with
  | Ok (Some f) => f
  | _ => mkDecodedFrame x00 x00 []
  end.

Definition toy_nonce : list byte := repeat x07 32.
Definition toy_caps : AuthClientCaps := mkAuthClientCaps 12500000 6250000 Video.

Lemma auth_accepts_user_witness :
  exists frame, try_decode_frame (toy_req 1000) = Ok (Some frame) /\
    verify_auth_req 1010 5 frame [str "user-a"] (Some ∅)
    = (Ok (str "user-a", mkAuthClientCaps (req_rx_bps 100) (req_up_bps 50 Video) Video),
       Some (<[fill_bytes (fun _ => x07) 32 := 5]> (filter (cache_live 5) ∅))).
Proof.
  apply (auth_accepts_user (fun _ => x07) (fun _ => x00) 0 1000 (str "user-a") 100 50 Video
           [str "user-a"] 1010 5 ∅).
  - apply elem_of_cons. by left.
  - unfold in_u64. lia.
  - unfold in_u32. lia.
  - unfold in_u32. lia.
  - vm_compute. congruence.
  - done.
  - intros q Hq _. apply elem_of_cons in Hq as [->|Hq]; [done|by apply elem_of_nil in Hq].
Defined.

Lemma auth_replay_rejected_witness :
  exists e c',
    verify_auth_req 1020 (60 * NANOS) (toy_frame 1000) [str "user-a"]
      (Some (cache_run (snd (check_and_insert 0 ∅ toy_nonce)) [(30 * NANOS, [x01])]))
    = (Err e, c').
Proof.
  apply (auth_replay_rejected 0 ∅ toy_nonce [(30 * NANOS, [x01])] (60 * NANOS)
           (toy_frame 1000) 1020 [str "user-a"]).
  - reflexivity.
  - constructor; [vm_compute; congruence|constructor].
  - vm_compute. congruence.
  - vm_compute. reflexivity.
Defined.

Lemma toy_parse :
  parse_auth_req 1000 (toy_frame 1060)
  = Ok (mkAuthFields toy_nonce toy_caps (take 50 (payload (toy_frame 1060)))
          (drop 50 (payload (toy_frame 1060)))).
Proof. vm_compute. reflexivity. Qed.

Lemma auth_replay_gap_witness :
  exists p' cache'',
    verify_auth_req 1121 (121 * NANOS) (toy_frame 1060) [str "user-a"]
      (Some (<[toy_nonce := 0]> (filter (cache_live 0) ∅)))
    = (Ok (p', toy_caps), Some cache'').
Proof.
  apply (auth_replay_gap 1000 0 (toy_frame 1060) [str "user-a"] ∅ (str "user-a") toy_caps).
  - unfold verify_auth_req. rewrite toy_parse. cbn [verify_loop af_signed af_proof].
    rewrite bool_decide_eq_true_2 by (vm_compute; reflexivity).
    cbn [af_random af_caps]. rewrite check_and_insert_fresh by done. reflexivity.
  - vm_compute. congruence.
Defined.

Lemma auth_ok_roundtrip_witness :
  exists frame, try_decode_frame (encode_auth_ok (fun _ => x00) 3 42 12500000 true ++ [x21])
      = Ok (Some frame) /\
    decode_auth_ok frame = Ok (mkAuthOk 42 12500000 true).
Proof.
  apply (auth_ok_roundtrip (fun _ => x00) 3 42 12500000 true [x21]); unfold in_u32; lia.
Defined.
