(* ===== verification/RsqUdpFragment.v ===== *)
(** * RSQ datagram fragmentation (crates/rsb-protocol/src/rsq/udp_fragment.rs)

    Splitting a UDP payload into datagrams and the reassembler that collects
    them by (session, packet).  Instants are nanoseconds of the monotonic
    clock, passed in by the caller. *)
From stdpp Require Import base tactics gmap list strings sorting numbers.
From Stdlib Require Import ZArith Lia.
From Stdlib Require Import Strings.Byte.
From S2P Require Import Prelude RsqProtocol.

Local Open Scope Z_scope.

Definition FRAGMENT_TTL : Z := 5 * 1000000000.
Definition MAX_FRAGMENT_PAYLOAD : Z := 1100.
Definition MAX_UDP_FRAGMENTS : Z := 255.
Definition MAX_UDP_PAYLOAD : Z := MAX_FRAGMENT_PAYLOAD * MAX_UDP_FRAGMENTS.

Definition is_udp_session_close (msg : UdpMessage) : bool :=
  (fragment_count msg =? 0) && (length (addr msg) =? 0)%nat &&
  (length (udp_payload msg) =? 0)%nat.

Definition encode_udp_session_close (session_id : Z) : list byte :=
  udp_encode (mkUdpMessage session_id 0 0 0 [] []) [].

Definition ensure_fragment_ready (msg : UdpMessage) : result unit :=
  if fragment_count msg =? 0 then Err "invalid fragment_count" else Ok tt.

(** [slice::chunks]: pieces of [n] bytes, the last one possibly shorter. *)
Fixpoint chunks_go {A} (fuel n : nat) (l : list A) : list (list A) :=
  match fuel, l with
  | _, [] => []
  | O, _ => []
  | S fuel', _ => take n l :: chunks_go fuel' n (drop n l)
  end.
Definition chunks {A} (n : nat) (l : list A) : list (list A) := chunks_go (length l) n l.

(** [usize::div_ceil]. *)
Definition div_ceil (a b : Z) : Z := (a + b - 1) / b.

Definition fragment_payload (session_id packet_id : Z) (addr payload : list byte)
  : result (list (list byte)) :=
  if zlen payload <=? MAX_FRAGMENT_PAYLOAD then
    Ok [udp_encode (mkUdpMessage session_id packet_id 0 1 addr payload) []]
  else
    let count := div_ceil (zlen payload) MAX_FRAGMENT_PAYLOAD in
    if MAX_UDP_FRAGMENTS <? count then Err "udp payload too large"
    else
      let count_u8 := bz (u8 count) in
      Ok (imap (fun i chunk =>
            udp_encode (mkUdpMessage session_id packet_id (bz (u8 (Z.of_nat i)))
                          count_u8 addr chunk) [])
            (chunks (Z.to_nat MAX_FRAGMENT_PAYLOAD) payload)).

(** ** Reassembly *)

Record PacketAssembly := mkPacketAssembly {
  fragments : gmap Z (list byte);
  asm_count : Z;
  asm_addr : option (list byte);
  started : option Z;
}.

Definition default_assembly : PacketAssembly := mkPacketAssembly ∅ 0 None None.

Abbreviation UdpReassembler := (gmap (Z * Z) PacketAssembly).

(** The [for id in 0..assembly.fragment_count] loop. *)
Fixpoint collect (frags : gmap Z (list byte)) (ids : list Z) : result (list byte) :=
  match ids with
  | [] => Ok []
  | id :: ids' =>
      part ← ok_or "missing udp fragment" (frags !! id);
      rest ← collect frags ids';
      Ok (part ++ rest)
  end.

(** The part of [ingest] after the entry has been matched with the message. *)
Definition ingest_fragment (packets : UdpReassembler) (key : Z * Z)
    (entry : PacketAssembly) (msg : UdpMessage)
  : result (option UdpMessage) * UdpReassembler :=
  if fragment_count msg <=? fragment_id msg then
    (Err "invalid fragment id", <[key := entry]> packets)
  else
    let entry := mkPacketAssembly
      (<[fragment_id msg := udp_payload msg]> (fragments entry))
      (asm_count entry) (asm_addr entry) (started entry) in
    if negb (Z.of_nat (size (fragments entry)) =? fragment_count msg) then
      (Ok None, <[key := entry]> packets)
    else
      let packets := delete key packets in
      match collect (fragments entry) (seqZ 0 (asm_count entry)) with
      | Ok payload =>
          (Ok (Some (mkUdpMessage (session_id msg) (packet_id msg) 0 1
                       (default (addr msg) (asm_addr entry)) payload)), packets)
      | Err e => (Err e, packets)
      | Panic e => (Panic e, packets)
      end.

Definition ingest (now : Z) (packets : UdpReassembler) (msg : UdpMessage)
  : result (option UdpMessage) * UdpReassembler :=
  if fragment_count msg <=? 1 then (Ok (Some msg), packets)
  else
    let key := (session_id msg, packet_id msg) in
    let entry := default default_assembly (packets !! key) in
    let entry := match started entry with
      | None => mkPacketAssembly (fragments entry) (asm_count entry) (asm_addr entry)
                  (Some now)
      | Some _ => entry
      end in
    if asm_count entry =? 0 then
      ingest_fragment packets key
        (mkPacketAssembly (fragments entry) (fragment_count msg) (Some (addr msg))
           (started entry)) msg
    else if negb (asm_count entry =? fragment_count msg) then
      (Err "udp fragment count mismatch", delete key packets)
    else match asm_addr entry with
    | Some expected_addr =>
        if negb (bool_decide (addr msg = expected_addr)) then
          (Err "udp fragment addr mismatch", delete key packets)
        else ingest_fragment packets key entry msg
    | None => ingest_fragment packets key entry msg
    end.

(** ** Pruning *)

Definition fragment_live (now : Z) (kv : Z * Z * PacketAssembly) : Prop :=
  match started kv.2 with
  | Some t => Z.max (now - t) 0 < FRAGMENT_TTL
  | None => True
  end.
#[export] Instance fragment_live_dec now kv : Decision (fragment_live now kv).
Proof. unfold fragment_live. destruct (started kv.2); apply _. Defined.

Definition prune_expired (now : Z) (packets : UdpReassembler) : UdpReassembler :=
  filter (fragment_live now) packets.

(** The eviction loop of [prune_stale]; [next_key] is the map's iteration
    order, which the standard library leaves open. *)
Fixpoint evict (next_key : UdpReassembler -> option (Z * Z)) (fuel : nat)
    (max_packets : Z) (packets : UdpReassembler) : UdpReassembler :=
  if max_packets <? Z.of_nat (size packets) then
    match fuel with
    | O => packets
    | S fuel' =>
        match next_key packets with
        | Some key => evict next_key fuel' max_packets (delete key packets)
        | None => packets
        end
    end
  else packets.

Definition prune_stale (next_key : UdpReassembler -> option (Z * Z))
    (now max_packets : Z) (packets : UdpReassembler)
  : UdpReassembler :=
  let packets := prune_expired now packets in
  evict next_key (size packets) max_packets packets.

Definition pending_count (packets : UdpReassembler) : Z := Z.of_nat (size packets).

(** ** Chunking lemmas *)

Lemma chunks_go_spec {A} (n : nat) : forall fuel (l : list A),
  (0 < n)%nat -> (length l <= fuel)%nat ->
  concat (chunks_go fuel n l) = l /\
  Forall (fun c => (length c <= n)%nat) (chunks_go fuel n l) /\
  Z.of_nat (length (chunks_go fuel n l)) = div_ceil (zlen l) (Z.of_nat n).
Proof.
  induction fuel as [|fuel IH]; intros l Hn Hl.
  { destruct l; simpl in *; [|lia]. unfold div_ceil, zlen. simpl.
    rewrite Z.div_small; [repeat split; constructor|lia]. }
  destruct l as [|x l].
  { simpl. unfold div_ceil, zlen. simpl. rewrite Z.div_small; [repeat split; constructor|lia]. }
  cbn [chunks_go]. set (l' := x :: l) in *.
  destruct (IH (drop n l')) as (Hc & Hf & Hlen); [done|rewrite length_drop; simpl in *; lia|].
  split_and!.
  - cbn [concat]. by rewrite Hc, take_drop.
  - constructor; [rewrite length_take; lia|done].
  - cbn [length]. rewrite Nat2Z.inj_succ, Hlen. unfold div_ceil, zlen.
    rewrite length_drop.
    destruct (Nat.le_gt_cases n (length l')) as [Hge|Hlt].
    + replace (Z.of_nat (length l') + Z.of_nat n - 1)
        with (Z.of_nat (length l' - n) + Z.of_nat n - 1 + 1 * Z.of_nat n) by lia.
      rewrite Z.div_add by lia. lia.
    + replace (length l' - n)%nat with O by lia.
      rewrite (Z.div_small (Z.of_nat 0 + _ - 1)) by lia.
      assert (1 <= length l')%nat by (simpl; lia).
      replace (Z.of_nat (length l') + Z.of_nat n - 1)
        with (Z.of_nat (length l') - 1 + 1 * Z.of_nat n) by lia.
      rewrite Z.div_add, Z.div_small by lia. lia.
Qed.

Lemma div_ceil_bounds a b : 0 < b -> 0 <= a -> a <= b * div_ceil a b < a + b.
Proof.
  intros Hb Ha. unfold div_ceil.
  pose proof (Z.div_mod (a + b - 1) b ltac:(lia)).
  pose proof (Z.mod_pos_bound (a + b - 1) b Hb). lia.
Qed.

(** ** Collecting fragments *)

Lemma collect_list (parts : list (list byte)) (frags : gmap Z (list byte)) k :
  (forall i part, parts !! i = Some part -> frags !! (k + Z.of_nat i) = Some part) ->
  collect frags (seqZ k (zlen parts)) = Ok (concat parts).
Proof.
  revert k. induction parts as [|p parts IH]; intros k Hp; [done|].
  rewrite zlen_cons, seqZ_cons by (pose proof (zlen_nonneg parts); lia).
  simpl. replace (Z.pred (1 + zlen parts)) with (zlen parts) by lia.
  pose proof (Hp 0%nat p eq_refl) as H0. change (Z.of_nat 0) with 0 in H0.
  rewrite Z.add_0_r in H0. rewrite H0. simpl.
  rewrite IH; [done|]. intros i part Hi.
  replace (Z.succ k + Z.of_nat i) with (k + Z.of_nat (S i)) by lia. by apply Hp.
Qed.

(** Ids below the count, as many as the count: none is missing. *)
Lemma full_ids (frags : gmap Z (list byte)) n :
  (forall i, i ∈ dom frags -> 0 <= i < n) -> Z.of_nat (size frags) = n ->
  forall i, 0 <= i < n -> is_Some (frags !! i).
Proof.
  intros Hids Hsz i Hi. apply elem_of_dom.
  assert (Hsub : dom frags ⊆ (list_to_set (seqZ 0 n) : gset Z)).
  { intros j Hj. apply elem_of_list_to_set, elem_of_seqZ. specialize (Hids _ Hj). lia. }
  assert (Heq : dom frags = (list_to_set (seqZ 0 n) : gset Z)).
  { apply set_subseteq_size_eq; [done|].
    rewrite size_list_to_set by apply NoDup_seqZ. rewrite length_seqZ, size_dom. lia. }
  rewrite Heq. apply elem_of_list_to_set, elem_of_seqZ. lia.
Qed.

Lemma collect_total (frags : gmap Z (list byte)) ids :
  (forall i, i ∈ ids -> is_Some (frags !! i)) -> exists p, collect frags ids = Ok p.
Proof.
  induction ids as [|i ids IH]; intros H; [by eexists|]. simpl.
  destruct (H i) as [part ->]; [apply elem_of_cons; by left|]. simpl.
  destruct IH as [p ->]; [intros j Hj; apply H, elem_of_cons; by right|]. by eexists.
Qed.

(** ** The reassembler's invariant *)

Definition asm_wf (e : PacketAssembly) : Prop :=
  2 <= asm_count e <= 255 /\
  (forall i, i ∈ dom (fragments e) -> 0 <= i < asm_count e) /\
  Z.of_nat (size (fragments e)) < asm_count e /\
  is_Some (asm_addr e) /\ is_Some (started e).

Definition packets_wf (packets : UdpReassembler) : Prop :=
  map_Forall (fun _ e => asm_wf e) packets.

Lemma packets_wf_insert packets k e :
  packets_wf packets -> asm_wf e -> packets_wf (<[k := e]> packets).
Proof. intros Hp He. by apply map_Forall_insert_2. Qed.

Lemma packets_wf_delete packets k : packets_wf packets -> packets_wf (delete k packets).
Proof. apply map_Forall_delete. Qed.

#[export] Hint Resolve packets_wf_insert packets_wf_delete : rsbox.

Lemma size_insert_le (m : gmap Z (list byte)) i x :
  (size (<[i := x]> m) <= S (size m))%nat.
Proof.
  destruct (m !! i) as [y|] eqn:E.
  - rewrite map_size_insert_Some by eauto. lia.
  - rewrite map_size_insert_None by done. lia.
Qed.

Definition ingest_errors : list string :=
  ["udp fragment count mismatch"; "udp fragment addr mismatch"; "invalid fragment id"].

(** What [ingest] guarantees about its result and the packets it leaves. *)
Definition ingest_post (packets : UdpReassembler) (msg : UdpMessage)
    (r : result (option UdpMessage) * UdpReassembler) : Prop :=
  packets_wf (snd r) /\
  (forall k, k <> (session_id msg, packet_id msg) -> snd r !! k = packets !! k) /\
  match fst r with
  | Ok _ => True
  | Err e => e ∈ ingest_errors
  | Panic _ => False
  end.

Lemma ingest_post_delete packets msg e :
  packets_wf packets -> e ∈ ingest_errors ->
  ingest_post packets msg (Err e, delete (session_id msg, packet_id msg) packets).
Proof.
  intros Hp He. split_and!; simpl; auto with rsbox.
  intros k Hk. by rewrite lookup_delete_ne.
Qed.

Lemma ingest_fragment_post packets entry msg :
  packets_wf packets -> asm_wf entry -> in_u8 (fragment_id msg) ->
  asm_count entry = fragment_count msg ->
  ingest_post packets msg
    (ingest_fragment packets (session_id msg, packet_id msg) entry msg).
Proof.
  intros Hp Hwf Hid Hc. assert (Hwf' := Hwf).
  destruct Hwf' as (Hr & Hids & Hsz & Ha & Hs).
  unfold ingest_fragment. destruct (_ <=? fragment_id msg) eqn:E1; bool_props.
  { split_and!; simpl; auto with rsbox; [|repeat constructor].
    intros k Hk. by rewrite lookup_insert_ne. }
  cbn [fragments asm_count asm_addr started].
  set (F := <[fragment_id msg := udp_payload msg]> (fragments entry)).
  assert (HidsF : forall i, i ∈ dom F -> 0 <= i < asm_count entry).
  { intros i. unfold F. rewrite dom_insert_L, elem_of_union, elem_of_singleton.
    intros [->|Hi]; [unfold in_u8 in Hid; lia|by apply Hids]. }
  pose proof (size_insert_le (fragments entry) (fragment_id msg) (udp_payload msg)) as HszF.
  fold F in HszF.
  destruct (Z.of_nat (size F) =? fragment_count msg) eqn:E2; bool_props; cbn [negb].
  - destruct (collect_total F (seqZ 0 (asm_count entry))) as [p Hcol].
    { intros i Hi%elem_of_seqZ. apply (full_ids F (asm_count entry)); [done|lia|lia]. }
    rewrite Hcol. split_and!; simpl; auto with rsbox.
    intros k Hk. by rewrite lookup_delete_ne.
  - split_and!; simpl; auto.
    + apply packets_wf_insert; [done|]. split_and!; simpl; auto; lia.
    + intros k Hk. by rewrite lookup_insert_ne.
Qed.

Lemma ingest_correct now packets msg :
  packets_wf packets -> udp_wf msg -> ingest_post packets msg (ingest now packets msg).
Proof.
  intros Hp (_ & _ & Hid & Hcnt & _). unfold ingest.
  destruct (fragment_count msg <=? 1) eqn:E1; bool_props; [by split_and!|].
  unfold in_u8 in Hcnt. change (2 ^ 8) with 256 in Hcnt.
  destruct (packets !! (session_id msg, packet_id msg)) as [e|] eqn:Ee; cbn [from_option id].
  - assert (Hwf := map_Forall_lookup_1 _ _ _ _ Hp Ee). simpl in Hwf.
    assert (Hwf' := Hwf). destruct Hwf' as (Hr & _ & _ & [a Ha] & [t Ht]).
    rewrite Ht. destruct (asm_count e =? 0) eqn:E0; bool_props; [lia|].
    destruct (asm_count e =? fragment_count msg) eqn:Em; bool_props; cbn [negb].
    2:{ apply ingest_post_delete; [done|]. repeat constructor. }
    rewrite Ha. case_bool_decide; cbn [negb].
    + by apply ingest_fragment_post.
    + apply ingest_post_delete; [done|]. repeat constructor.
  - simpl. apply ingest_fragment_post; simpl; try done.
    unfold asm_wf. cbn [asm_count fragments asm_addr started].
    rewrite map_size_empty, dom_empty_L. split_and!; eauto; try lia. set_solver.
Qed.

(** ** Reassembling one packet *)

(** Messages handed to the reassembler one by one, each at its instant. *)
Fixpoint ingest_all (packets : UdpReassembler) (msgs : list (Z * UdpMessage))
  : list (result (option UdpMessage)) * UdpReassembler :=
  match msgs with
  | [] => ([], packets)
  | (now, msg) :: rest =>
      let '(r, packets) := ingest now packets msg in
      let '(rs, packets) := ingest_all packets rest in
      (r :: rs, packets)
  end.

(** The same for datagrams: each is decoded first. *)
Definition receive (now : Z) (packets : UdpReassembler) (frame : list byte)
  : result (option UdpMessage) * UdpReassembler :=
  match udp_decode frame with
  | Ok msg => ingest now packets msg
  | Err e => (Err e, packets)
  | Panic e => (Panic e, packets)
  end.
Fixpoint receive_all (packets : UdpReassembler) (frames : list (Z * list byte))
  : list (result (option UdpMessage)) * UdpReassembler :=
  match frames with
  | [] => ([], packets)
  | (now, frame) :: rest =>
      let '(r, packets) := receive now packets frame in
      let '(rs, packets) := receive_all packets rest in
      (r :: rs, packets)
  end.

Lemma receive_all_encoded packets (msgs : list (Z * UdpMessage)) :
  Forall (fun m => udp_wf m.2) msgs ->
  receive_all packets (prod_map id (fun m => udp_encode m []) <$> msgs)
  = ingest_all packets msgs.
Proof.
  intros Hwf. revert packets. induction Hwf as [|[now m] msgs Hm _ IH]; intros packets; [done|].
  rewrite fmap_cons. cbn [receive_all ingest_all prod_map fst snd id].
  unfold receive. rewrite udp_decode_encode by done.
  destruct (ingest now packets m) as [r p]. by rewrite IH.
Qed.

Lemma ingest_fragment_insert packets key e e' msg :
  ingest_fragment (<[key := e']> packets) key e msg = ingest_fragment packets key e msg.
Proof. unfold ingest_fragment. cbv zeta. by rewrite !insert_insert_eq, delete_insert_eq. Qed.

Section Reassemble.
Variables (sid pid : Z) (a : list byte) (parts : list (list byte)).
Hypothesis Hn : 2 <= zlen parts <= 255.

Let key : Z * Z := (sid, pid).
Let whole : UdpMessage := mkUdpMessage sid pid 0 1 a (concat parts).

Definition frag_msg (ic : nat * list byte) : UdpMessage :=
  mkUdpMessage sid pid (Z.of_nat ic.1) (zlen parts) a ic.2.

Definition partial (F : gmap Z (list byte)) (t : Z) : PacketAssembly :=
  mkPacketAssembly F (zlen parts) (Some a) (Some t).

(** [F] holds some of the parts, under their own indices. *)
Definition agrees (F : gmap Z (list byte)) : Prop :=
  forall i c, F !! i = Some c -> exists j, i = Z.of_nat j /\ parts !! j = Some c.

Lemma ingest_one now packets F t j c :
  packets !! key = None -> agrees F -> parts !! j = Some c -> F !! Z.of_nat j = None ->
  ingest now (<[key := partial F t]> packets) (frag_msg (j, c))
  = if Z.of_nat (size F) + 1 =? zlen parts then (Ok (Some whole), packets)
    else (Ok None, <[key := partial (<[Z.of_nat j := c]> F) t]> packets).
Proof.
  intros Hk Hag Hj HF. unfold ingest. cbn [frag_msg fragment_count fst snd session_id packet_id].
  rewrite (proj2 (Z.leb_gt _ _)) by lia. fold key. rewrite lookup_insert_eq.
  cbn [from_option id partial started asm_count asm_addr addr].
  rewrite (proj2 (Z.eqb_neq _ _)), Z.eqb_refl by lia. cbn [negb].
  rewrite bool_decide_eq_true_2 by done. cbn [negb].
  unfold ingest_fragment. cbn [fragment_count fragment_id frag_msg fst snd].
  assert (Hlt : Z.of_nat j < zlen parts)
    by (apply lookup_lt_Some in Hj; unfold zlen; lia).
  rewrite (proj2 (Z.leb_gt _ _)) by done.
  cbn [fragments asm_count asm_addr started partial udp_payload frag_msg fst snd].
  rewrite map_size_insert_None by done.
  replace (Z.of_nat (S (size F))) with (Z.of_nat (size F) + 1) by lia.
  set (F' := <[Z.of_nat j := c]> F).
  destruct (Z.of_nat (size F) + 1 =? zlen parts) eqn:E; bool_props; cbn [negb].
  - assert (Hag' : agrees F').
    { intros i x. unfold F'. rewrite lookup_insert. case_decide; [|apply Hag].
      intros [= <-]. eauto. }
    rewrite (collect_list parts).
    + cbn [from_option id session_id packet_id frag_msg]. unfold whole.
      by rewrite delete_insert_id.
    + intros i part Hi. rewrite Z.add_0_l.
      destruct (full_ids F' (zlen parts)) with (i := Z.of_nat i) as [x Hx].
      * intros i' [x Hx]%elem_of_dom. destruct (Hag' _ _ Hx) as (j' & -> & Hj').
        apply lookup_lt_Some in Hj'. unfold zlen. lia.
      * unfold F'. rewrite map_size_insert_None by done. lia.
      * apply lookup_lt_Some in Hi. unfold zlen. lia.
      * rewrite Hx. destruct (Hag' _ _ Hx) as (j' & Hjj & Hj'). f_equal.
        assert (i = j') as -> by lia. congruence.
  - by rewrite insert_insert_eq.
Qed.

(** The first fragment of a packet opens the assembly. *)
Lemma ingest_first now packets jc :
  packets !! key = None ->
  ingest now packets (frag_msg jc)
  = ingest now (<[key := partial ∅ now]> packets) (frag_msg jc).
Proof.
  intros Hk. unfold ingest. cbn [frag_msg fragment_count fst snd session_id packet_id].
  rewrite (proj2 (Z.leb_gt _ _)) by lia. fold key. rewrite Hk, lookup_insert_eq.
  cbn [from_option id partial default_assembly started asm_count asm_addr addr fragments].
  rewrite Z.eqb_refl, (proj2 (Z.eqb_neq (zlen parts) 0)), Z.eqb_refl by lia. cbn [negb].
  rewrite bool_decide_eq_true_2 by done. cbn [negb].
  unfold partial. by rewrite ingest_fragment_insert.
Qed.

Lemma ingest_rest packets : packets !! key = None ->
  forall rest F t,
  rest <> [] -> NoDup rest.*2.*1 -> agrees F ->
  (forall r, r ∈ rest -> parts !! r.2.1 = Some r.2.2 /\ F !! Z.of_nat r.2.1 = None) ->
  (size F + length rest = length parts)%nat ->
  ingest_all (<[key := partial F t]> packets) (prod_map id frag_msg <$> rest)
  = (replicate (length rest - 1) (Ok None) ++ [Ok (Some whole)], packets).
Proof.
  intros Hk. induction rest as [|[now [j c]] rest IH]; intros F t Hne Hnd Hag Hr Hsz; [done|].
  destruct (Hr (now, (j, c))) as [Hj HF]; [apply elem_of_cons; by left|]. simpl in Hj, HF.
  rewrite fmap_cons. cbn [ingest_all prod_map fst snd id].
  rewrite ingest_one by done. simpl in Hsz, Hnd. inversion_clear Hnd as [|? ? Hnin Hnd'].
  destruct rest as [|r2 rest].
  - rewrite (proj2 (Z.eqb_eq _ _)) by (unfold zlen; simpl in Hsz; lia). done.
  - rewrite (proj2 (Z.eqb_neq _ _)) by (unfold zlen; simpl in Hsz; lia).
    rewrite IH; [cbn [length Nat.sub]; by rewrite ?Nat.sub_0_r|done|done| | |].
    + intros i x. rewrite lookup_insert. case_decide; [|apply Hag]. intros [= <-]. eauto.
    + intros r Hin. destruct (Hr r) as [Hp HFr]; [apply elem_of_cons; by right|].
      split; [done|]. rewrite lookup_insert_ne; [done|]. intros Heq%Nat2Z.inj.
      apply Hnin. rewrite Heq. by do 2 apply list_elem_of_fmap_2.
    + rewrite map_size_insert_None by done. simpl in *. lia.
Qed.
End Reassemble.

(** ** Fragments as sent *)

Lemma imap_zip_seq {A B} (f : nat -> A -> B) (l : list A) k :
  imap (fun i x => f (k + i)%nat x) l = (fun ix => f ix.1 ix.2) <$> zip (seq k (length l)) l.
Proof.
  revert k. induction l as [|x l IH]; intros k; [done|].
  cbn [imap length seq]. rewrite zip_with_cons || cbn [zip_with].
  rewrite fmap_cons. cbn [fst snd]. rewrite Nat.add_0_r. f_equal.
  rewrite <-IH. apply imap_ext. intros i y _. simpl. f_equal. lia.
Qed.

Definition parts_of (payload : list byte) : list (list byte) :=
  chunks (Z.to_nat MAX_FRAGMENT_PAYLOAD) payload.

Lemma parts_of_spec payload :
  concat (parts_of payload) = payload /\
  Forall (fun c => zlen c <= MAX_FRAGMENT_PAYLOAD) (parts_of payload) /\
  zlen (parts_of payload) = div_ceil (zlen payload) MAX_FRAGMENT_PAYLOAD.
Proof.
  destruct (chunks_go_spec (Z.to_nat MAX_FRAGMENT_PAYLOAD) (length payload) payload)
    as (Hc & Hf & Hl); [vm_compute; lia|done|].
  split_and!; [done| |done].
  eapply Forall_impl; [|exact Hf]. intros c Hc'. unfold zlen.
  cbv beta in Hc'. unfold MAX_FRAGMENT_PAYLOAD in *. lia.
Qed.

Section Send.
Variables (sid pid : Z) (a payload : list byte).
Hypotheses (Hsid : in_u32 sid) (Hpid : in_u16 pid)
  (Hutf : utf8_valid a = true) (Hlen : zlen a < 2 ^ 62).

Let n : Z := zlen (parts_of payload).
Let indexed : list (nat * list byte) :=
  zip (seq 0 (length (parts_of payload))) (parts_of payload).

Lemma indexed_lookup ic : ic ∈ indexed -> parts_of payload !! ic.1 = Some ic.2.
Proof.
  destruct ic as [i c]. intros Hin%list_elem_of_lookup. destruct Hin as [k Hk].
  apply lookup_zip_Some in Hk as [H1 H2]. apply lookup_seq in H1 as [-> _]. done.
Qed.

Lemma fragment_payload_many :
  MAX_FRAGMENT_PAYLOAD < zlen payload -> n <= MAX_UDP_FRAGMENTS ->
  fragment_payload sid pid a payload
  = Ok ((fun ic => udp_encode (frag_msg sid pid a (parts_of payload) ic) []) <$> indexed)
  /\ 2 <= n.
Proof.
  intros Hbig Hmax. destruct (parts_of_spec payload) as (_ & _ & Hcnt).
  unfold fragment_payload. rewrite (proj2 (Z.leb_gt _ _)) by done. cbv zeta.
  rewrite <-Hcnt. fold n.
  rewrite (proj2 (Z.ltb_ge _ _)) by done. fold (parts_of payload).
  pose proof (div_ceil_bounds (zlen payload) MAX_FRAGMENT_PAYLOAD ltac:(vm_compute; done)
    (zlen_nonneg _)) as Hb. rewrite <-Hcnt in Hb. fold n in Hb.
  unfold MAX_FRAGMENT_PAYLOAD, MAX_UDP_FRAGMENTS in *.
  split; [|lia]. f_equal. unfold indexed.
  rewrite <-(imap_zip_seq (fun i c => udp_encode (frag_msg sid pid a (parts_of payload) (i, c)) [])).
  apply imap_ext. intros i c Hi%lookup_lt_Some. unfold frag_msg. cbn [fst snd].
  fold n. rewrite !bz_u8_small by (unfold n, zlen in *; lia). done.
Qed.

Lemma frag_msg_wf ic :
  ic ∈ indexed -> n <= MAX_UDP_FRAGMENTS -> udp_wf (frag_msg sid pid a (parts_of payload) ic).
Proof.
  intros Hin%indexed_lookup Hmax. unfold udp_wf, frag_msg, in_u8. simpl.
  apply lookup_lt_Some in Hin. unfold MAX_UDP_FRAGMENTS in *.
  fold n. unfold n, zlen in *. change (2 ^ 8) with 256.
  split_and!; (done || lia).
Qed.
End Send.

Lemma ingest_all_first sid pid a parts packets (rest : list (Z * (nat * list byte))) :
  2 <= zlen parts <= 255 -> packets !! (sid, pid) = None -> rest <> [] ->
  exists t, ingest_all packets (prod_map id (frag_msg sid pid a parts) <$> rest)
    = ingest_all (<[(sid, pid) := partial a parts ∅ t]> packets)
        (prod_map id (frag_msg sid pid a parts) <$> rest).
Proof.
  intros Hn Hk Hne. destruct rest as [|[now jc] rest]; [done|]. exists now.
  rewrite fmap_cons. cbn [ingest_all prod_map fst snd id]. by rewrite ingest_first.
Qed.

(** ** Properties *)

(** Fragmentation and reassembly.  The datagrams [fragment_payload] makes of
    a payload, delivered in any order and at any times to a reassembler that has
    no assembly for the packet, produce nothing until the last one and then
    exactly the original message; the reassembler is left as it was. *)
Theorem fragments_reassemble sid pid a payload frames frames' times packets :
  in_u32 sid -> in_u16 pid -> utf8_valid a = true -> zlen a < 2 ^ 62 ->
  fragment_payload sid pid a payload = Ok frames ->
  frames' ≡ₚ frames -> length times = length frames' ->
  packets !! (sid, pid) = None ->
  receive_all packets (zip times frames')
  = (replicate (length frames' - 1) (Ok None)
       ++ [Ok (Some (mkUdpMessage sid pid 0 1 a payload))], packets).
Proof.
  intros Hsid Hpid Hutf Hlen Hfp Hperm Ht Hk.
  destruct (parts_of_spec payload) as (Hcat & _ & Hcnt).
  destruct (Z.le_gt_cases (zlen payload) MAX_FRAGMENT_PAYLOAD) as [Hs|Hb].
  { unfold fragment_payload in Hfp. rewrite (proj2 (Z.leb_le _ _)) in Hfp by done.
    injection Hfp as <-. apply Permutation_singleton_r in Hperm as ->.
    destruct times as [|t [|]]; [done| |done].
    cbn [zip_with receive_all]. unfold receive. rewrite udp_decode_encode; [done|].
    unfold udp_wf, in_u8. simpl. split_and!; (done || lia). }
  destruct (Z.le_gt_cases (zlen (parts_of payload)) MAX_UDP_FRAGMENTS) as [Hmax|Hmax].
  2:{ unfold fragment_payload in Hfp. rewrite (proj2 (Z.leb_gt _ _)) in Hfp by done.
      cbv zeta in Hfp. rewrite <-Hcnt, (proj2 (Z.ltb_lt _ _)) in Hfp by done. done. }
  destruct (fragment_payload_many sid pid a payload Hb Hmax) as [Hfp' Hn2].
  rewrite Hfp in Hfp'. injection Hfp' as ->.
  set (indexed := zip (seq 0 (length (parts_of payload))) (parts_of payload)) in *.
  symmetry in Hperm. apply Permutation_sym, Permutation_map_inv in Hperm as (l' & -> & Hl').
  assert (Hlen' : length l' = length (parts_of payload)).
  { rewrite <-Hl'. unfold indexed. rewrite length_zip_with, length_seq. lia. }
  rewrite length_map in *.
  change (map ?f l') with (f <$> l').
  set (rest := zip times l').
  assert (Hrest2 : rest.*2 = l') by (apply snd_zip; lia).
  assert (Hrlen : length rest = length l') by (by rewrite <-Hrest2, length_fmap).
  replace (zip times _) with
    (prod_map id (fun m => udp_encode m []) <$>
       (prod_map id (frag_msg sid pid a (parts_of payload)) <$> rest)).
  2:{ unfold rest. by rewrite zip_fmap_snd, <-list_fmap_compose. }
  assert (Hin : forall r, r ∈ rest -> r.2 ∈ indexed).
  { intros r Hr. rewrite Hl', <-Hrest2. by apply list_elem_of_fmap_2. }
  rewrite receive_all_encoded.
  2:{ apply Forall_fmap, Forall_forall. intros r Hr%list_elem_of_In. simpl.
      apply frag_msg_wf; [done..|by apply Hin|done]. }
  unfold MAX_UDP_FRAGMENTS in *.
  destruct (ingest_all_first sid pid a (parts_of payload) packets rest) as [t ->];
    [lia|done| |].
  { intros Hnil. apply (f_equal length) in Hnil. unfold zlen in *. simpl in Hnil. lia. }
  rewrite (ingest_rest sid pid a (parts_of payload)); [|lia|done| | | | |].
  - by rewrite Hcat, Hrlen.
  - intros Hnil. apply (f_equal length) in Hnil. unfold zlen in *. simpl in Hnil. lia.
  - rewrite Hrest2, <-Hl'. unfold indexed. rewrite fst_zip by (rewrite length_seq; lia).
    apply NoDup_seq.
  - intros i c Hi. by rewrite lookup_empty in Hi.
  - intros r Hr. split; [|apply lookup_empty]. by apply (indexed_lookup payload), Hin.
  - rewrite map_size_empty. lia.
Qed.

Lemma fragments_reassemble_witness :
  receive_all ∅ (zip [2; 1]
    (rev (match fragment_payload 1 7 (str "a:1") (repeat x2a (Z.to_nat 1500)) with
          | Ok fs => fs | _ => [] end)))
  = (replicate 1 (Ok None)
       ++ [Ok (Some (mkUdpMessage 1 7 0 1 (str "a:1") (repeat x2a (Z.to_nat 1500))))], ∅).
Proof.
  destruct (fragment_payload 1 7 (str "a:1") (repeat x2a (Z.to_nat 1500))) as [fs|e|e] eqn:E;
    [|vm_compute in E; discriminate..].
  assert (Hl : length fs = 2%nat)
    by (vm_compute in E; injection E as <-; reflexivity).
  replace 1%nat with (length (rev fs) - 1)%nat by (rewrite length_rev, Hl; reflexivity).
  apply (fragments_reassemble 1 7 (str "a:1") (repeat x2a (Z.to_nat 1500)) fs (rev fs) [2; 1] ∅).
  - unfold in_u32; lia.
  - unfold in_u16; lia.
  - reflexivity.
  - reflexivity.
  - exact E.
  - apply Permutation_sym, Permutation_rev.
  - rewrite length_rev, Hl. reflexivity.
  - reflexivity.
Defined.

(** What [fragment_payload] accepts and how large its datagrams are: it
    fails exactly on payloads over 1100 * 255 bytes; otherwise it makes between
    1 and 255 datagrams, each of which decodes to a message of this packet with
    at most 1100 payload bytes and a fragment id below its fragment count. *)
Theorem fragment_payload_bounds sid pid a payload :
  in_u32 sid -> in_u16 pid -> utf8_valid a = true -> zlen a < 2 ^ 62 ->
  match fragment_payload sid pid a payload with
  | Ok frames =>
      zlen payload <= MAX_UDP_PAYLOAD /\ 1 <= zlen frames <= MAX_UDP_FRAGMENTS /\
      forall frame, frame ∈ frames -> exists m, udp_decode frame = Ok m /\
        session_id m = sid /\ packet_id m = pid /\ addr m = a /\
        zlen (udp_payload m) <= MAX_FRAGMENT_PAYLOAD /\
        fragment_id m < fragment_count m /\ fragment_count m = zlen frames
  | Err _ => MAX_UDP_PAYLOAD < zlen payload
  | Panic _ => False
  end.
Proof.
  intros Hsid Hpid Hutf Hlen. destruct (parts_of_spec payload) as (_ & Hsm & Hcnt).
  pose proof (div_ceil_bounds (zlen payload) MAX_FRAGMENT_PAYLOAD ltac:(vm_compute; done)
    (zlen_nonneg _)) as Hdc. rewrite <-Hcnt in Hdc.
  unfold MAX_UDP_PAYLOAD.
  destruct (Z.le_gt_cases (zlen payload) MAX_FRAGMENT_PAYLOAD) as [Hs|Hb].
  { unfold fragment_payload. rewrite (proj2 (Z.leb_le _ _)) by done.
    unfold MAX_FRAGMENT_PAYLOAD, MAX_UDP_FRAGMENTS in *. rewrite zlen_cons, zlen_nil.
    split_and!; [lia..|]. intros frame ->%list_elem_of_singleton.
    eexists. split; [apply udp_decode_encode|].
    - unfold udp_wf, in_u8. simpl. split_and!; (done || lia).
    - simpl. split_and!; (done || lia). }
  destruct (Z.le_gt_cases (zlen (parts_of payload)) MAX_UDP_FRAGMENTS) as [Hmax|Hmax].
  - destruct (fragment_payload_many sid pid a payload Hb Hmax) as [-> Hn2].
    set (indexed := zip _ _) in *.
    assert (Hil : zlen indexed = zlen (parts_of payload)).
    { unfold indexed, zlen. rewrite length_zip_with, length_seq. lia. }
    unfold zlen at 2 3 5. rewrite length_fmap. fold (zlen indexed). rewrite Hil.
    unfold MAX_FRAGMENT_PAYLOAD, MAX_UDP_FRAGMENTS in *. split_and!; [lia..|].
    intros frame ([i c] & -> & Hin)%list_elem_of_fmap.
    eexists. split; [apply udp_decode_encode, frag_msg_wf; done|].
    apply indexed_lookup in Hin. simpl in *.
    pose proof (lookup_lt_Some _ _ _ Hin) as Hi.
    pose proof (Forall_lookup_1 _ _ _ _ Hsm Hin). simpl in *.
    unfold zlen in *. split_and!; (done || lia).
  - unfold fragment_payload. rewrite (proj2 (Z.leb_gt _ _)) by done. cbv zeta.
    rewrite <-Hcnt, (proj2 (Z.ltb_lt _ _)) by done.
    unfold MAX_FRAGMENT_PAYLOAD, MAX_UDP_FRAGMENTS in *. lia.
Qed.

Lemma fragment_payload_bounds_witness :
  match fragment_payload 1 7 (str "a:1") [x2a] with
  | Ok frames => zlen [x2a] <= MAX_UDP_PAYLOAD /\ 1 <= zlen frames <= MAX_UDP_FRAGMENTS
  | _ => False
  end.
Proof.
  pose proof (fragment_payload_bounds 1 7 (str "a:1") [x2a]
    ltac:(unfold in_u32; lia) ltac:(unfold in_u16; lia) eq_refl eq_refl) as H.
  change (fragment_payload 1 7 (str "a:1") [x2a]) with
    (Ok [udp_encode (mkUdpMessage 1 7 0 1 (str "a:1") [x2a]) []]) in H |- *.
  split; [apply H|apply H].
Defined.

(** C37.  The reassembler's invariant, for arbitrary incoming messages: every open
    assembly has a count of 2 to 255, ids below its count, fewer fragments than
    its count, an address and a start time; a message changes only the assembly
    of its own packet; the only errors are the three mismatch errors, so the
    "missing udp fragment" path is dead and nothing panics. *)
Theorem ingest_invariant now packets msg :
  packets_wf packets -> udp_wf msg -> ingest_post packets msg (ingest now packets msg).
Proof. apply ingest_correct. Qed.

Lemma ingest_invariant_witness :
  let m := mkUdpMessage 1 7 0 3 (str "a:1") [x2a] in
  ingest_post ∅ m (ingest 0 ∅ m).
Proof.
  intros m. apply (ingest_invariant 0 ∅ m); [apply map_Forall_empty|].
  unfold udp_wf, in_u32, in_u16, in_u8. split_and!; (done || lia).
Defined.

Lemma evict_spec (next_key : UdpReassembler -> option (Z * Z)) max_packets :
  (forall m, m <> ∅ -> exists k, next_key m = Some k /\ is_Some (m !! k)) ->
  0 <= max_packets -> forall fuel packets, (size packets <= fuel)%nat ->
  Z.of_nat (size (evict next_key fuel max_packets packets)) <= max_packets /\
  evict next_key fuel max_packets packets ⊆ packets.
Proof.
  intros Hnk Hmax. induction fuel as [|fuel IH]; intros packets Hsz; simpl.
  all: destruct (max_packets <? Z.of_nat (size packets)) eqn:E; bool_props; [|done].
  { lia. }
  destruct (Hnk packets) as (k & -> & [x Hx]).
  { intros ->. rewrite map_size_empty in E. lia. }
  assert (Hd : size (delete k packets) = (size packets - 1)%nat).
  { rewrite map_size_delete_Some by eauto. lia. }
  destruct (IH (delete k packets)) as [H1 H2]; [lia|].
  split; [done|]. etrans; [done|]. apply delete_subseteq.
Qed.

(** The memory bound of the reassembler.  Whatever order the hash map
    iterates in, [prune_stale] leaves at most [max_packets] assemblies, all of
    them assemblies that were there and had not expired, and the eviction loop
    needs no more rounds than there are entries. *)
Theorem prune_stale_bounded next_key now max_packets packets :
  (forall m : UdpReassembler, m <> ∅ -> exists k, next_key m = Some k /\ is_Some (m !! k)) ->
  0 <= max_packets ->
  pending_count (prune_stale next_key now max_packets packets) <= max_packets /\
  forall k e, prune_stale next_key now max_packets packets !! k = Some e ->
    packets !! k = Some e /\ fragment_live now (k, e).
Proof.
  intros Hnk Hmax. unfold prune_stale, pending_count. cbv zeta.
  destruct (evict_spec next_key max_packets Hnk Hmax _ (prune_expired now packets)
    ltac:(reflexivity)) as [Hs Hsub].
  split; [done|]. intros k e Hk. eapply lookup_weaken in Hk; [|exact Hsub].
  by apply map_lookup_filter_Some in Hk.
Qed.

Lemma prune_stale_bounded_witness :
  pending_count (prune_stale (fun m => head (map_to_list m).*1) 0 1
    {[(1, 1) := default_assembly; (1, 2) := default_assembly]}) <= 1.
Proof.
  apply (prune_stale_bounded (fun m => head (map_to_list m).*1) 0 1
    {[(1, 1) := default_assembly; (1, 2) := default_assembly]}); [|lia].
  intros m Hm. destruct (map_to_list m) as [|[k x] l] eqn:E.
  - by apply map_to_list_empty_iff in E.
  - exists k. split; [done|]. exists x. apply elem_of_map_to_list. rewrite E.
    apply elem_of_cons. by left.
Defined.
