(* ===== verification/Obfs.v ===== *)
(** * UDP obfuscation (rsq/obfs.rs, rst/obfs.rs, hysteria2/obfs.rs)

    A datagram is a random salt followed by the payload XORed with a
    salted BLAKE2b hash; version 2 adds random padding inside.  RSQ and RST
    share one scheme with different domain tags; Hysteria2's Salamander has no
    tag and no versions.  BLAKE2b comes from an external crate: a parameter
    with the length of its output. *)
From stdpp Require Import base tactics list strings.
From Stdlib Require Import ZArith Lia.
From Stdlib Require Import Strings.Byte.
From S2P Require Import Prelude.

Local Open Scope Z_scope.

(** The [blake2] crate: a 64-byte digest. *)
Class Blake2b512 := {
  blake2b : list byte -> list byte;
  blake2b_length : forall data, length (blake2b data) = 64%nat;
}.

Definition SALT_LEN : Z := 8.
Definition HASH_LEN : Z := 32.
Definition MAX_V2_PAD : Z := 31.

Inductive ObfsVersion := V1 | V2.

Definition parse_version (raw : option Z) : ObfsVersion :=
  if default 1 raw =? 2 then V2 else V1.

Record ObfsKey := mkObfsKey {
  obfs_key : list byte;
  obfs_version : ObfsVersion;
}.

Definition rsq_domain (v : ObfsVersion) : list byte :=
  match v with V1 => str "rsq-obfs-v1" | V2 => str "rsq-obfs-v2" end.
Definition rst_domain (v : ObfsVersion) : list byte :=
  match v with V1 => str "rst-obfs-v1" | V2 => str "rst-obfs-v2" end.

(** The random draws of one [encode]: the salt's bytes, the [u8] that picks the
    padding length, the padding's bytes. *)
Record Draws := mkDraws {
  draw_salt : nat -> byte;
  draw_pad_len : byte;
  draw_pad : nat -> byte;
}.

Section Obfs.
Context `{Blake2b512}.

(** [payload.iter().enumerate().map(|(i, b)| b ^ hash[i % HASH_LEN])]. *)
Definition xor_with (hash payload : list byte) : list byte :=
  imap (fun i b => bxor b (hash !!! (i mod Z.to_nat HASH_LEN)%nat)) payload.

Definition rsq_salted_hash (domain : ObfsVersion -> list byte) (k : ObfsKey)
    (salt : list byte) : list byte :=
  take (Z.to_nat HASH_LEN)
    (blake2b (obfs_key k ++ domain (obfs_version k) ++ salt)).

Definition rsq_xor_payload domain (k : ObfsKey) (salt payload : list byte) : list byte :=
  xor_with (rsq_salted_hash domain k salt) payload.

Definition obfs_encode (domain : ObfsVersion -> list byte) (k : ObfsKey) (d : Draws)
    (payload : list byte) : list byte :=
  let salt := fill_bytes (draw_salt d) (Z.to_nat SALT_LEN) in
  let inner := match obfs_version k with
    | V1 => payload
    | V2 =>
        let pad_len := bz (draw_pad_len d) `mod` (MAX_V2_PAD + 1) in
        let inner := payload in
        let inner := if 0 <? pad_len
                     then inner ++ fill_bytes (draw_pad d) (Z.to_nat pad_len)
                     else inner in
        inner ++ [u8 pad_len]
    end in
  salt ++ rsq_xor_payload domain k salt inner.

Definition obfs_decode (domain : ObfsVersion -> list byte) (k : ObfsKey)
    (packet : list byte) : option (list byte) :=
  if zlen packet <=? SALT_LEN then None
  else
    let salt := take (Z.to_nat SALT_LEN) packet in
    let payload := drop (Z.to_nat SALT_LEN) packet in
    let inner := rsq_xor_payload domain k salt payload in
    match obfs_version k with
    | V1 => Some inner
    | V2 =>
        if (length inner =? 0)%nat then None
        else
          last_byte ← last inner;
          let pad_len := bz last_byte in
          if zlen inner <? 1 + pad_len then None
          else
            let payload_len := zlen inner - 1 - pad_len in
            Some (take (Z.to_nat payload_len) inner)
    end.

(** RSQ's and RST's instances. *)
Definition rsq_encode : ObfsKey -> Draws -> list byte -> list byte := obfs_encode rsq_domain.
Definition rsq_decode_owned : ObfsKey -> list byte -> option (list byte) :=
  obfs_decode rsq_domain.
Definition rst_encode : ObfsKey -> Draws -> list byte -> list byte := obfs_encode rst_domain.
Definition rst_decode_owned : ObfsKey -> list byte -> option (list byte) :=
  obfs_decode rst_domain.

(** Hysteria2's Salamander. *)
Definition salamander_hash (key salt : list byte) : list byte :=
  take (Z.to_nat HASH_LEN) (blake2b (key ++ salt)).
Definition salamander_encode (key : list byte) (d : Draws) (payload : list byte) : list byte :=
  let salt := fill_bytes (draw_salt d) (Z.to_nat SALT_LEN) in
  salt ++ xor_with (salamander_hash key salt) payload.
Definition salamander_decode (key packet : list byte) : option (list byte) :=
  if zlen packet <=? SALT_LEN then None
  else
    let salt := take (Z.to_nat SALT_LEN) packet in
    let payload := drop (Z.to_nat SALT_LEN) packet in
    Some (xor_with (salamander_hash key salt) payload).

(** ** Lemmas *)

Lemma length_xor_with hash l : length (xor_with hash l) = length l.
Proof. unfold xor_with. apply length_imap. Qed.

Lemma zlen_xor_with hash l : zlen (xor_with hash l) = zlen l.
Proof. unfold zlen. by rewrite length_xor_with. Qed.

Lemma xor_with_involutive hash l : xor_with hash (xor_with hash l) = l.
Proof.
  unfold xor_with. apply list_eq. intros i. rewrite !list_lookup_imap.
  destruct (l !! i); simpl; [|done]. by rewrite bxor_cancel.
Qed.

(** The salt and the body of a packet are recovered by position. *)
Lemma split_salt (f : nat -> byte) body :
  take (Z.to_nat SALT_LEN) (fill_bytes f (Z.to_nat SALT_LEN) ++ body)
    = fill_bytes f (Z.to_nat SALT_LEN) /\
  drop (Z.to_nat SALT_LEN) (fill_bytes f (Z.to_nat SALT_LEN) ++ body) = body.
Proof.
  by rewrite take_app_length', drop_app_length' by (by rewrite length_fill_bytes).
Qed.

Lemma zlen_packet (f : nat -> byte) body :
  zlen (fill_bytes f (Z.to_nat SALT_LEN) ++ body) = SALT_LEN + zlen body.
Proof. rewrite zlen_app. unfold zlen. by rewrite length_fill_bytes. Qed.

(** The decoder sees the inner bytes the encoder hid. *)
Lemma obfs_decode_packet domain k (f : nat -> byte) inner :
  let salt := fill_bytes f (Z.to_nat SALT_LEN) in
  obfs_decode domain k (salt ++ rsq_xor_payload domain k salt inner)
  = if (length inner =? 0)%nat then None
    else match obfs_version k with
    | V1 => Some inner
    | V2 =>
        b ← last inner;
        if zlen inner <? 1 + bz b then None
        else Some (take (Z.to_nat (zlen inner - 1 - bz b)) inner)
    end.
Proof.
  intros salt. unfold obfs_decode. unfold salt at 1. rewrite zlen_packet.
  destruct (split_salt f (rsq_xor_payload domain k salt inner)) as [Ht Hd].
  fold salt in Ht, Hd. rewrite Ht, Hd. unfold rsq_xor_payload.
  rewrite xor_with_involutive. unfold zlen at 1. rewrite length_xor_with.
  destruct inner as [|b inner]; [done|].
  rewrite (proj2 (Z.leb_gt _ _)) by (simpl; lia). done.
Qed.

Lemma obfs_decode_encode domain k d payload :
  obfs_decode domain k (obfs_encode domain k d payload)
  = match obfs_version k, payload with
    | V1, [] => None
    | _, _ => Some payload
    end.
Proof.
  unfold obfs_encode. rewrite obfs_decode_packet.
  destruct (obfs_version k) eqn:Ev; [by destruct payload|].
  set (p := bz (draw_pad_len d) `mod` (MAX_V2_PAD + 1)). cbv zeta.
  assert (Hp : 0 <= p < 32) by (apply Z.mod_pos_bound; done).
  set (pad := if 0 <? p then fill_bytes (draw_pad d) (Z.to_nat p) else []).
  assert (Hpad : zlen pad = p).
  { unfold pad. destruct (0 <? p) eqn:E; bool_props; unfold zlen;
      rewrite ?length_fill_bytes; simpl; lia. }
  replace (if 0 <? p then payload ++ fill_bytes (draw_pad d) (Z.to_nat p) else payload)
    with (payload ++ pad) by (unfold pad; case_match; by rewrite ?app_nil_r).
  rewrite last_snoc, length_app. cbn [length].
  rewrite (proj2 (Nat.eqb_neq _ _)) by lia. cbn [mbind option_bind].
  rewrite bz_u8_small by lia. autorewrite with rsbox_len. rewrite Hpad.
  pose proof (zlen_nonneg payload).
  rewrite (proj2 (Z.ltb_ge _ _)) by lia.
  replace (zlen payload + p + (1 + 0) - 1 - p) with (zlen payload) by lia.
  unfold zlen. by rewrite Nat2Z.id, <-app_assoc, take_app_length.
Qed.

(** C38.  Deobfuscation inverts obfuscation, for RSQ and RST and whatever salt and
    padding were drawn: version 2 restores every payload, version 1 every
    payload but the empty one, which the decoder drops as a bare salt. *)
Theorem obfs_roundtrip k d payload :
  let expected := match obfs_version k, payload with
    | V1, [] => None
    | _, _ => Some payload
    end in
  rsq_decode_owned k (rsq_encode k d payload) = expected /\
  rst_decode_owned k (rst_encode k d payload) = expected.
Proof. split; apply obfs_decode_encode. Qed.

(** The same for Hysteria2's Salamander, and the size of what is sent: eight
    bytes of salt and, with version 2, one to thirty-two bytes of padding. *)
Theorem salamander_roundtrip key k domain d payload :
  salamander_decode key (salamander_encode key d payload)
    = match payload with [] => None | _ => Some payload end /\
  zlen (salamander_encode key d payload) = SALT_LEN + zlen payload /\
  let extra := zlen (obfs_encode domain k d payload) - SALT_LEN - zlen payload in
  match obfs_version k with
  | V1 => extra = 0
  | V2 => 1 <= extra <= 1 + MAX_V2_PAD
  end.
Proof.
  split_and!.
  - unfold salamander_decode, salamander_encode. cbv zeta. rewrite zlen_packet.
    match goal with |- context [?s ++ ?b] => destruct (split_salt (draw_salt d) b) as [-> ->] end.
    rewrite xor_with_involutive. unfold zlen. rewrite length_xor_with.
    destruct payload; [done|]. rewrite (proj2 (Z.leb_gt _ _)) by (simpl; lia). done.
  - unfold salamander_encode. cbv zeta. rewrite zlen_packet. unfold zlen.
    by rewrite length_xor_with.
  - unfold obfs_encode. cbv zeta. rewrite zlen_packet. unfold rsq_xor_payload.
    rewrite zlen_xor_with. destruct (obfs_version k); [lia|].
    set (p := bz _ `mod` _). assert (Hp : 0 <= p < 32) by (apply Z.mod_pos_bound; done).
    unfold MAX_V2_PAD. destruct (0 <? p) eqn:E; bool_props;
      autorewrite with rsbox_len; rewrite ?zlen_fill_bytes; lia.
Qed.
End Obfs.
