(* ===== verification/RsqControl.v ===== *)
(** * RSQ control stream (crates/rsb-protocol/src/rsq/control.rs)

    The keepalive loops that run on the control stream after AUTH: the server
    answers PINGs, the client sends them and gives up after three silent
    rounds.  A stream is a script of read outcomes; a loop consumes it, records
    what it writes, and either ends with a result or waits for more input. *)
From stdpp Require Import base tactics list strings.
From Stdlib Require Import ZArith Lia.
From Stdlib Require Import Strings.Byte.
From S2P Require Import Prelude RsqProtocol.

Local Open Scope Z_scope.

Definition PONG_FAIL_CLOSE_THRESHOLD : Z := 3.

(** What a read of the stream can yield; [RTimeout] is the elapsed
    [PONG_TIMEOUT] around a client read. *)
Inductive ReadEvent :=
| RData (chunk : list byte)
| REof
| RError (e : string)
| RTimeout.

(** A loop that has ended, or one that waits for a read not in the script. *)
Inductive LoopEnd :=
| Ended (r : result unit)
| Waiting (buf : list byte).

(** The draws for the padding of the [n]-th frame a loop writes, and whether
    that write succeeds. *)
Record Env := mkEnv {
  env_rnd : nat -> nat -> byte;
  env_r : nat -> Z;
  env_write : nat -> result unit;
}.

Definition control_frame (env : Env) (n : nat) (ty : byte) : list byte :=
  encode_frame (env_rnd env n) ty x00 [] (random_pad_len (env_r env n) 8 32).

(** ** Server *)

(** The [while let Some(frame)] loop of [server_control_loop]: the buffer left
    and the frames written so far. *)
Fixpoint server_drain (env : Env) (fuel : nat) (out : list (list byte)) (buf : list byte)
  : result (list byte) * list (list byte) :=
  match try_decode_frame buf with
  | Err e => (Err e, out)
  | Panic e => (Panic e, out)
  | Ok None => (Ok buf, out)
  | Ok (Some frame) =>
      match fuel with
      | O => (Panic "fuel", out)
      | S fuel' =>
          match frame_consumed_len buf with
          | Err e => (Err e, out)
          | Panic e => (Panic e, out)
          | Ok total =>
              if bool_decide (frame_type frame = FRAME_PING) then
                let pong := control_frame env (length out) FRAME_PONG in
                match env_write env (length out) with
                | Ok _ => server_drain env fuel' (out ++ [pong]) (drop (Z.to_nat total) buf)
                | Err e => (Err e, out)
                | Panic e => (Panic e, out)
                end
              else server_drain env fuel' out (drop (Z.to_nat total) buf)
          end
      end
  end.

Fixpoint server_control_loop (env : Env) (script : list ReadEvent)
    (out : list (list byte)) (buf : list byte) : LoopEnd * list (list byte) :=
  match server_drain env (length buf) out buf with
  | (Err e, out) => (Ended (Err e), out)
  | (Panic e, out) => (Ended (Panic e), out)
  | (Ok buf, out) =>
      if 8192 <? zlen buf then (Ended (Err "rsq control buffer overflow"), out)
      else match script with
      | [] => (Waiting buf, out)
      | RData chunk :: script => server_control_loop env script out (buf ++ chunk)
      | REof :: _ => (Ended (Ok tt), out)
      | RError e :: _ => (Ended (Err e), out)
      | RTimeout :: script => server_control_loop env script out buf
      end
  end.

(** ** Client *)

Inductive WaitEnd :=
| WPong
| WTimeout
| WOther (e : string)
| WPanic (e : string)
| WWaiting (buf : list byte).

(** The inner loop of [wait_for_pong]: was a PONG found, and the buffer left. *)
Fixpoint pong_drain (fuel : nat) (buf : list byte) : result (bool * list byte) :=
  match try_decode_frame buf with
  | Err e => Err e
  | Panic e => Panic e
  | Ok None => Ok (false, buf)
  | Ok (Some frame) =>
      match fuel with
      | O => Panic "fuel"
      | S fuel' =>
          total ← frame_consumed_len buf;
          if bool_decide (frame_type frame = FRAME_PONG)
          then Ok (true, drop (Z.to_nat total) buf)
          else pong_drain fuel' (drop (Z.to_nat total) buf)
      end
  end.

(** [wait_for_pong] with its buffer; returns the reads it did not use. *)
Fixpoint wait_for_pong (script : list ReadEvent) (buf : list byte)
  : WaitEnd * list ReadEvent :=
  match pong_drain (length buf) buf with
  | Err e => (WOther e, script)
  | Panic e => (WPanic e, script)
  | Ok (true, _) => (WPong, script)
  | Ok (false, buf) =>
      match script with
      | [] => (WWaiting buf, [])
      | RData chunk :: script =>
          let buf := buf ++ chunk in
          if 4096 <? zlen buf then (WOther "rsq control response too large", script)
          else wait_for_pong script buf
      | REof :: script => (WOther "rsq control stream closed", script)
      | RError e :: script => (WOther e, script)
      | RTimeout :: script => (WTimeout, script)
      end
  end.

(** [client_ping_loop]: [n] PINGs have been written, [timeouts] is
    [consecutive_pong_timeouts]; one unit of fuel per round. *)
Fixpoint client_ping_loop (env : Env) (fuel : nat) (script : list ReadEvent)
    (out : list (list byte)) (timeouts : Z) : LoopEnd * list (list byte) :=
  match fuel with
  | O => (Ended (Panic "fuel"), out)
  | S fuel' =>
      let ping := control_frame env (length out) FRAME_PING in
      match env_write env (length out) with
      | Err e => (Ended (Err e), out)
      | Panic e => (Ended (Panic e), out)
      | Ok _ =>
          let out := out ++ [ping] in
          match wait_for_pong script [] with
          | (WPong, script) => client_ping_loop env fuel' script out 0
          | (WTimeout, script) =>
              let timeouts := Z.min (timeouts + 1) (2 ^ 32 - 1) in
              if PONG_FAIL_CLOSE_THRESHOLD <=? timeouts
              then (Ended (Err "rsq pong timeout"), out)
              else client_ping_loop env fuel' script out timeouts
          | (WOther e, _) => (Ended (Err e), out)
          | (WPanic e, _) => (Ended (Panic e), out)
          | (WWaiting buf, _) => (Waiting buf, out)
          end
      end
  end.

(** ** Frames on the stream *)

Record CtlFrame := mkCtlFrame {
  cf_type : byte;
  cf_payload : list byte;
  cf_pad : Z;
  cf_rnd : nat -> byte;
}.

Definition cf_enc (f : CtlFrame) : list byte :=
  encode_frame (cf_rnd f) (cf_type f) x00 (cf_payload f) (cf_pad f).
Definition cf_ok (f : CtlFrame) : Prop :=
  zlen (cf_payload f) < 2 ^ 62 /\ 0 <= cf_pad f /\ zlen (cf_enc f) <= 8192.
Definition stream (fs : list CtlFrame) : list byte := concat (cf_enc <$> fs).

Definition ping_count (fs : list CtlFrame) : nat :=
  length (filter (fun f => cf_type f = FRAME_PING) fs).

(** The PONGs numbered [k] to [k + n - 1]. *)
Definition pongs (env : Env) (k n : nat) : list (list byte) :=
  (fun i => control_frame env i FRAME_PONG) <$> seq k n.

Lemma cf_enc_length f : (7 <= length (cf_enc f))%nat.
Proof. apply encode_frame_length. Qed.

Lemma cf_decode f rest :
  cf_ok f ->
  exists frame, try_decode_frame (cf_enc f ++ rest) = Ok (Some frame) /\
    frame_type frame = cf_type f /\
    frame_consumed_len (cf_enc f ++ rest) = Ok (zlen (cf_enc f)).
Proof.
  intros (Hp & Hpad & _). unfold cf_enc.
  rewrite decode_encoded, consumed_encoded by (done || (right; done)).
  eexists. done.
Qed.

Lemma cf_decode_prefix f k :
  cf_ok f -> (k < length (cf_enc f))%nat -> k <> 6%nat ->
  try_decode_frame (take k (cf_enc f)) = Ok None.
Proof. intros (Hp & Hpad & _) Hk H6. apply decode_strict_prefix; (done || right; done). Qed.

Lemma drop_enc f rest : drop (Z.to_nat (zlen (cf_enc f))) (cf_enc f ++ rest) = rest.
Proof. unfold zlen. by rewrite Nat2Z.id, drop_app_length. Qed.

Lemma ping_count_cons f fs :
  ping_count (f :: fs) = ((if bool_decide (cf_type f = FRAME_PING) then 1 else 0) + ping_count fs)%nat.
Proof. unfold ping_count. rewrite filter_cons. by case_decide; case_bool_decide. Qed.

Lemma server_drain_frames env fs : forall fuel out p,
  (forall n, env_write env n = Ok tt) -> Forall cf_ok fs -> try_decode_frame p = Ok None ->
  (length (stream fs ++ p) <= fuel)%nat ->
  server_drain env fuel out (stream fs ++ p)
  = (Ok p, out ++ pongs env (length out) (ping_count fs)).
Proof.
  induction fs as [|f fs IH]; intros fuel out p Hw Hok Hp Hfuel.
  { change (stream [] ++ p) with p. unfold pongs. rewrite app_nil_r.
    destruct fuel; simpl; by rewrite Hp. }
  inversion_clear Hok as [|? ? Hf Hfs].
  change (stream (f :: fs)) with (cf_enc f ++ stream fs) in *. rewrite <-app_assoc in *.
  pose proof (cf_enc_length f). rewrite length_app in Hfuel.
  destruct fuel as [|fuel]; [lia|].
  destruct (cf_decode f (stream fs ++ p) Hf) as (frame & Hd & Ht & Hc).
  cbn [server_drain]. rewrite Hd, Hc, Ht, Hw, drop_enc, ping_count_cons.
  case_bool_decide as Hping; rewrite IH by (done || lia); [|done].
  f_equal. rewrite <-app_assoc. f_equal. unfold pongs. rewrite length_app. simpl.
  by rewrite Nat.add_comm.
Qed.

(** ** Where reads cut the stream *)

(** Skip the frames (given by their lengths) that [pos] bytes complete: the
    lengths that are left and the position inside the next frame. *)
Fixpoint advance (lens : list nat) (pos : nat) : list nat * nat :=
  match lens with
  | [] => ([], pos)
  | l :: rest => if (pos <? l)%nat then (lens, pos) else advance rest (pos - l)
  end.

(** No read ends exactly six bytes into a frame. *)
Fixpoint cuts_ok (lens : list nat) (pos : nat) (chunks : list (list byte)) : bool :=
  match chunks with
  | [] => true
  | c :: chunks' =>
      let '(lens', pos') := advance lens (pos + length c) in
      negb (pos' =? 6)%nat && cuts_ok lens' pos' chunks'
  end.

Definition lens_of (fs : list CtlFrame) : list nat := (fun f => length (cf_enc f)) <$> fs.

(** [p] is what has arrived of the first frame of [fs]. *)
Definition partial_of (fs : list CtlFrame) (p : list byte) : Prop :=
  p = [] \/ exists f fs', fs = f :: fs' /\ p = take (length p) (cf_enc f) /\
    (length p < length (cf_enc f))%nat.

Lemma split_stream fs : forall b r,
  b ++ r = stream fs ->
  exists fs1 fs2 p, fs = fs1 ++ fs2 /\ b = stream fs1 ++ p /\ p ++ r = stream fs2 /\
    advance (lens_of fs) (length b) = (lens_of fs2, length p) /\ partial_of fs2 p.
Proof.
  induction fs as [|f fs IH]; intros b r Hb.
  { apply app_eq_nil in Hb as [-> ->]. exists [], [], []. split_and!; try done. by left. }
  change (stream (f :: fs)) with (cf_enc f ++ stream fs) in Hb.
  cbn [lens_of fmap list_fmap advance].
  destruct (Nat.ltb_spec (length b) (length (cf_enc f))) as [Hlt|Hge].
  - exists [], (f :: fs), b. split_and!; try done. right. exists f, fs. split_and!; [done| |done].
    apply (f_equal (take (length b))) in Hb. rewrite take_app_length, take_app_le in Hb by lia.
    done.
  - assert (Hbe : exists b', b = cf_enc f ++ b').
    { exists (drop (length (cf_enc f)) b). apply (f_equal (take (length (cf_enc f)))) in Hb.
      rewrite take_app_length, take_app_le in Hb by lia.
      by rewrite <-Hb at 1; rewrite take_drop. }
    destruct Hbe as [b' ->]. rewrite <-app_assoc in Hb. apply app_inv_head in Hb.
    destruct (IH b' r Hb) as (fs1 & fs2 & p & -> & -> & Hr & Hadv & Hp).
    exists (f :: fs1), fs2, p. split_and!; try done.
    + change (stream (f :: fs1)) with (cf_enc f ++ stream fs1). by rewrite <-app_assoc.
    + rewrite length_app.
      replace (length (cf_enc f) + length (stream fs1 ++ p) - length (cf_enc f))%nat
        with (length (stream fs1 ++ p)) by lia. done.
Qed.

Lemma partial_incomplete fs p :
  Forall cf_ok fs -> partial_of fs p -> length p <> 6%nat ->
  try_decode_frame p = Ok None /\ zlen p <= 8192.
Proof.
  intros Hok [->|(f & fs' & -> & Hp & Hlt)] H6; [done|].
  inversion_clear Hok as [|? ? Hf _]. split.
  - rewrite Hp. by apply cf_decode_prefix.
  - destruct Hf as (_ & _ & Hl). unfold zlen in *. lia.
Qed.

Lemma pongs_app env k n m : pongs env k n ++ pongs env (k + n) m = pongs env k (n + m).
Proof. unfold pongs. by rewrite seq_app, fmap_app. Qed.

Lemma ping_count_app fs gs : ping_count (fs ++ gs) = (ping_count fs + ping_count gs)%nat.
Proof. unfold ping_count. by rewrite filter_app, length_app. Qed.

Lemma length_pongs env k n : length (pongs env k n) = n.
Proof. unfold pongs. by rewrite length_fmap, length_seq. Qed.

(** Draining first does not change what the loop does. *)
Lemma server_loop_drained env script out buf p out' :
  server_drain env (length buf) out buf = (Ok p, out') ->
  server_drain env (length p) out' p = (Ok p, out') ->
  server_control_loop env script out buf = server_control_loop env script out' p.
Proof. intros H1 H2. destruct script; cbn [server_control_loop]; by rewrite H1, H2. Qed.

Lemma server_drain_none env fuel out p :
  try_decode_frame p = Ok None -> server_drain env fuel out p = (Ok p, out).
Proof. intros H. destruct fuel; simpl; by rewrite H. Qed.

Lemma stream_nil_length fs : length (stream fs) = 0%nat -> fs = [].
Proof.
  destruct fs as [|f fs]; [done|].
  change (stream (f :: fs)) with (cf_enc f ++ stream fs). rewrite length_app.
  pose proof (cf_enc_length f). lia.
Qed.

(** From any point inside the stream: [p] has arrived of the first frame of [fs],
    [chunks] is still to come. *)
Lemma server_loop_chunks env : (forall n, env_write env n = Ok tt) ->
  forall chunks fs p out,
  Forall cf_ok fs -> partial_of fs p -> length p <> 6%nat ->
  p ++ concat chunks = stream fs -> cuts_ok (lens_of fs) (length p) chunks = true ->
  server_control_loop env ((RData <$> chunks) ++ [REof]) out p
  = (Ended (Ok tt), out ++ pongs env (length out) (ping_count fs)).
Proof.
  intros Hw. induction chunks as [|c chunks IH]; intros fs p out Hok Hp H6 Hs Hcuts.
  all: destruct (partial_incomplete fs p Hok Hp H6) as [Hinc Hsz].
  all: cbn [fmap list_fmap app server_control_loop]; rewrite server_drain_none by done.
  all: rewrite (proj2 (Z.ltb_ge _ _)) by done.
  - cbn [concat] in Hs. rewrite app_nil_r in Hs.
    destruct Hp as [->|(f & fs' & -> & _ & Hlt)].
    + rewrite (stream_nil_length fs) by (by rewrite <-Hs). by rewrite app_nil_r.
    + apply (f_equal length) in Hs.
      change (stream (f :: fs')) with (cf_enc f ++ stream fs') in Hs.
      rewrite length_app in Hs. lia.
  - cbn [concat] in Hs. rewrite app_assoc in Hs.
    destruct (split_stream fs (p ++ c) (concat chunks) Hs)
      as (fs1 & fs2 & p' & -> & Hpc & Hr & Hadv & Hp').
    cbn [cuts_ok] in Hcuts. rewrite <-length_app, Hadv in Hcuts. bool_props.
    apply Forall_app in Hok as [Hok1 Hok2].
    assert (H6' : length p' <> 6%nat) by (by apply Nat.eqb_neq).
    destruct (partial_incomplete fs2 p' Hok2 Hp' H6') as [Hinc' _].
    rewrite Hpc, (server_loop_drained env _ out (stream fs1 ++ p') p'
      (out ++ pongs env (length out) (ping_count fs1))).
    + rewrite (IH fs2 p') by done. f_equal. rewrite <-app_assoc. f_equal.
      by rewrite length_app, length_pongs, pongs_app, ping_count_app.
    + by apply server_drain_frames.
    + by apply server_drain_none.
Qed.

(** The server answers every PING, however the network cuts the stream.  For
    any sequence of control frames of at most 8 KiB, delivered in reads of any
    sizes none of which ends exactly six bytes into a frame, the loop ends
    cleanly at end of stream having written one PONG per PING, in order. *)
Theorem server_answers_pings env fs chunks :
  (forall n, env_write env n = Ok tt) -> Forall cf_ok fs ->
  concat chunks = stream fs -> cuts_ok (lens_of fs) 0 chunks = true ->
  server_control_loop env ((RData <$> chunks) ++ [REof]) [] []
  = (Ended (Ok tt), pongs env 0 (ping_count fs)).
Proof.
  intros Hw Hok Hc Hcuts.
  apply (server_loop_chunks env Hw chunks fs [] []); [done|by left|done..].
Qed.

Definition quiet_env : Env := mkEnv (fun _ _ => x00) (fun _ => 0) (fun _ => Ok tt).
Definition ping_frame : CtlFrame := mkCtlFrame FRAME_PING [] 8 (fun _ => x00).

Lemma server_answers_pings_witness :
  server_control_loop quiet_env
    ((RData <$> [take 20 (stream [ping_frame; ping_frame]);
                 drop 20 (stream [ping_frame; ping_frame])]) ++ [REof]) [] []
  = (Ended (Ok tt), pongs quiet_env 0 (ping_count [ping_frame; ping_frame])).
Proof.
  apply (server_answers_pings quiet_env [ping_frame; ping_frame]).
  - reflexivity.
  - repeat constructor; vm_compute; congruence.
  - reflexivity.
  - vm_compute. reflexivity.
Defined.

(** ** The client *)

(** One keepalive round as the network may answer it. *)
Inductive Round := Answered (f : CtlFrame) | Silent.

Definition round_ok (r : Round) : Prop :=
  match r with
  | Answered f => cf_ok f /\ cf_type f = FRAME_PONG /\ zlen (cf_enc f) <= 4096
  | Silent => True
  end.
Definition round_event (r : Round) : ReadEvent :=
  match r with Answered f => RData (cf_enc f) | Silent => RTimeout end.

(** How many rounds until [n] more consecutive silent ones end the session. *)
Fixpoint rounds_until_close (n timeouts : nat) (rounds : list Round) : option nat :=
  match rounds with
  | [] => None
  | Answered _ :: rest => S <$> rounds_until_close n 0 rest
  | Silent :: rest =>
      if (n <=? S timeouts)%nat then Some 1%nat
      else S <$> rounds_until_close n (S timeouts) rest
  end.

Definition pings (env : Env) (k n : nat) : list (list byte) :=
  (fun i => control_frame env i FRAME_PING) <$> seq k n.

Lemma wait_for_pong_round r script :
  round_ok r ->
  wait_for_pong (round_event r :: script) []
  = (match r with Answered _ => WPong | Silent => WTimeout end, script).
Proof.
  intros Hr. cbn [wait_for_pong length pong_drain]. change (try_decode_frame []) with (@Ok (option DecodedFrame) None).
  destruct r as [f|]; [|done]. destruct Hr as (Hf & Ht & Hl). cbn [round_event app].
  rewrite (proj2 (Z.ltb_ge _ _)) by done.
  destruct (cf_decode f [] Hf) as (frame & Hd & Hty & Hc). rewrite app_nil_r in Hd, Hc.
  pose proof (cf_enc_length f).
  assert (Hpd : pong_drain (length (cf_enc f)) (cf_enc f)
    = Ok (true, drop (Z.to_nat (zlen (cf_enc f))) (cf_enc f))).
  { destruct (length (cf_enc f)); [lia|]. cbn [pong_drain]. rewrite Hd, Hc. cbn [mbind result_bind].
    by rewrite bool_decide_eq_true_2 by congruence. }
  destruct script; cbn [wait_for_pong]; by rewrite Hpd.
Qed.

Lemma client_loop_rounds env : (forall n, env_write env n = Ok tt) ->
  forall rounds fuel out timeouts,
  Forall round_ok rounds -> (timeouts < 3)%nat -> (length rounds < fuel)%nat ->
  client_ping_loop env fuel (round_event <$> rounds) out (Z.of_nat timeouts)
  = match rounds_until_close 3 timeouts rounds with
    | Some k => (Ended (Err "rsq pong timeout"), out ++ pings env (length out) k)
    | None => (Waiting [], out ++ pings env (length out) (S (length rounds)))
    end.
Proof.
  intros Hw. induction rounds as [|r rounds IH]; intros fuel out timeouts Hok Ht Hfuel.
  all: destruct fuel as [|fuel]; [simpl in Hfuel; lia|]; simpl in Hfuel.
  { cbn [client_ping_loop fmap list_fmap]. by rewrite Hw. }
  inversion_clear Hok as [|? ? Hr Hok'].
  rewrite fmap_cons. cbn [client_ping_loop]. rewrite Hw, wait_for_pong_round by done.
  assert (Hstep : forall k, (out ++ [control_frame env (length out) FRAME_PING])
    ++ pings env (length (out ++ [control_frame env (length out) FRAME_PING])) k
    = out ++ pings env (length out) (S k)).
  { intros k. rewrite <-app_assoc, length_app. unfold pings. simpl. by rewrite Nat.add_comm. }
  destruct r as [f|]; cbn [rounds_until_close].
  - change 0 with (Z.of_nat 0). rewrite (IH fuel _ 0%nat) by (done || lia).
    destruct (rounds_until_close 3 0 rounds); simpl; by rewrite Hstep.
  - rewrite Z.min_l by lia. replace (Z.of_nat timeouts + 1) with (Z.of_nat (S timeouts)) by lia.
    unfold PONG_FAIL_CLOSE_THRESHOLD.
    destruct (Nat.leb_spec 3 (S timeouts)) as [H3|H3].
    + rewrite (proj2 (Z.leb_le _ _)) by lia. done.
    + rewrite (proj2 (Z.leb_gt _ _)), IH by (done || lia).
      destruct (rounds_until_close 3 (S timeouts) rounds); simpl; by rewrite Hstep.
Qed.

(** The client's keepalive policy.  On any sequence of rounds, each answered
    by a PONG or silent, the loop ends (and the connection is closed) exactly at
    the third consecutive silent round, having sent one PING per round; shorter
    silences are forgiven, and until then it keeps sending. *)
Theorem client_closes_on_third_timeout env rounds :
  (forall n, env_write env n = Ok tt) -> Forall round_ok rounds ->
  client_ping_loop env (S (length rounds)) (round_event <$> rounds) [] 0
  = match rounds_until_close 3 0 rounds with
    | Some k => (Ended (Err "rsq pong timeout"), pings env 0 k)
    | None => (Waiting [], pings env 0 (S (length rounds)))
    end.
Proof. intros Hw Hok. apply (client_loop_rounds env Hw rounds _ [] 0); [done|lia|lia]. Qed.

Lemma client_closes_on_third_timeout_witness :
  client_ping_loop quiet_env 5 (round_event <$> [Silent; Silent; Silent; Silent]) [] 0
  = (Ended (Err "rsq pong timeout"), pings quiet_env 0 3).
Proof.
  apply (client_closes_on_third_timeout quiet_env [Silent; Silent; Silent; Silent]).
  - reflexivity.
  - repeat constructor.
Defined.
