(* ===== verification/RsqSession.v ===== *)
(** * RSQ sessions

    The two ends of an RSQ connection: [rsq/server.rs] (authentication of the
    control stream, admission of the session), [rsq/relay.rs] (TCP streams) and the
    matching parts of [rsq/client.rs] (authentication, opening of a TCP stream).

    A QUIC stream is a script of reads.  Name resolution, connecting, the clocks
    and the random draws are arguments; spawning of tasks is not modelled, the tasks
    are functions of their own. *)
From stdpp Require Import base tactics gmap list strings.
From Stdlib Require Import ZArith Lia.
From Stdlib Require Import Strings.Byte.
From S2P Require Import Prelude Json Text Ip DnsWire DnsRouter RateLimit Users Connections Relay.
From S2P Require Import RsqProtocol RsqTraffic Brutal RsqAuth RsqControl.

Local Open Scope Z_scope.

(** ** Server: authentication *)

Record AppState := mkAppState {
  password_list : list (list byte);
  st_up_mbps : Z;
  st_down_mbps : Z;
  st_udp : bool;
  st_inbound_tag : list byte;
}.

(** What became of the control stream: the bytes sent on it, whether the connection
    was closed, and, for an authenticated client, its password, what it advertised
    and the bytes already read behind its request. *)
Inductive AuthEnd :=
| Accepted (password : list byte) (caps : AuthClientCaps) (prefix : list byte) (script : list ReadEvent)
| Dropped
| Unanswered (buf : list byte).
Record Authenticated := mkAuthenticated {
  au_sent : list byte;
  au_closed : bool;
  au_result : result AuthEnd;
  au_replay : AuthReplayCache;
}.

Section ServerAuth.
Context `{HmacSha256}.
Variable st : AppState.
(** Wall-clock second, instant, and the draws for the session id and the padding. *)
Variables (now_unix now : Z) (session_id : Z) (rnd_pad : nat -> byte) (r_pad : Z).

Definition server_rx : Z := if st_up_mbps st =? 0 then 0 else st_up_mbps st * MBPS_TO_BPS.

Fixpoint authenticate_control (replay : AuthReplayCache) (buf : list byte) (script : list ReadEvent)
  : Authenticated :=
  match script with
  | [] => mkAuthenticated [] false (Ok (Unanswered buf)) replay
  | REof :: _ => mkAuthenticated [] true (Ok Dropped) replay
  | RError _ :: _ => mkAuthenticated [] true (Ok Dropped) replay
  | RTimeout :: script => authenticate_control replay buf script
  | RData chunk :: script =>
      let buf := buf ++ chunk in
      match try_decode_frame buf with
      | Err e => mkAuthenticated [] false (Err e) replay
      | Panic e => mkAuthenticated [] false (Panic e) replay
      | Ok None =>
          if 16384 <? zlen buf then mkAuthenticated [] true (Ok Dropped) replay
          else authenticate_control replay buf script
      | Ok (Some frame) =>
          match verify_auth_req now_unix now frame (password_list st) (Some replay) with
          | (Ok (pass, caps), replay') =>
              let replay := default replay replay' in
              let ok := encode_auth_ok rnd_pad r_pad session_id server_rx (st_udp st) in
              match frame_consumed_len buf with
              | Ok consumed =>
                  mkAuthenticated ok false (Ok (Accepted pass caps (drop (Z.to_nat consumed) buf) script)) replay
              | Err e => mkAuthenticated ok false (Err e) replay
              | Panic e => mkAuthenticated ok false (Panic e) replay
              end
          | (Err _, replay') => mkAuthenticated [] true (Ok Dropped) (default replay replay')
          | (Panic e, replay') => mkAuthenticated [] false (Panic e) (default replay replay')
          end
      end
  end.
End ServerAuth.

(** ** Server: the session *)

Record RsqRelayCtx := mkRsqRelayCtx {
  rc_inbound_tag : list byte;
  rc_password : list byte;
  rc_server_down_mbps : Z;
  rc_client_rx_bps : Z;
  rc_client_up_bps : Z;
  rc_profile : TrafficProfile;
}.

(** [user_name] and [user_limits]. *)
Definition ctx_user (cm : ConnectionManager) (password : list byte) : list byte * UserLimits :=
  name_and_limits (lookup_password (users cm) password) (take_chars 8 password).

Definition uplink_bps (up_mbps client_up_bps : Z) : Z :=
  if up_mbps =? 0 then (if client_up_bps =? 0 then 0 else client_up_bps)
  else if client_up_bps =? 0 then up_mbps * MBPS_TO_BPS
  else Z.min (up_mbps * MBPS_TO_BPS) client_up_bps.

(** [serve_connection] from an authenticated client to its loop: the guard held for
    the session and the context of its streams. *)
Definition session_setup (st : AppState) (password : list byte) (caps : AuthClientCaps)
    (cm : ConnectionManager) : result (option (list byte) * RsqRelayCtx) * ConnectionManager :=
  let '(user_name, limits) := ctx_user cm password in
  match acquire_user cm user_name limits with
  | (Ok guard, cm) =>
      (Ok (guard, mkRsqRelayCtx (st_inbound_tag st) password (st_down_mbps st) (client_rx_bps caps)
                    (uplink_bps (st_up_mbps st) (client_up_bps caps)) (caps_profile caps)), cm)
  | (Err e, cm) => (Err e, cm)
  | (Panic e, cm) => (Panic e, cm)
  end.

Definition positive (v : option Z) : option Z :=
  match v with Some v => if 0 <? v then Some v else None | None => None end.

Definition downlink_target_bps (ctx : RsqRelayCtx) (limits : UserLimits) : Z :=
  match positive (speed_bps limits) with
  | Some v => v
  | None =>
      if 0 <? rc_client_rx_bps ctx then rc_client_rx_bps ctx
      else if 0 <? rc_server_down_mbps ctx then rc_server_down_mbps ctx * MBPS_TO_BPS
      else brutal_bps_from_mbps 0
  end.
Definition uplink_target_bps (ctx : RsqRelayCtx) (limits : UserLimits) : Z :=
  match positive (speed_bps limits) with
  | Some v => v
  | None =>
      if 0 <? rc_client_up_bps ctx then rc_client_up_bps ctx else brutal_bps_from_mbps 0
  end.

(** ** Server: TCP streams *)

Inductive OpenEnd :=
| Opened (target prefix : list byte) (script : list ReadEvent)
| Refused (msg : string)
| Pending (header : list byte).

Fixpoint tcp_open_loop (header : list byte) (script : list ReadEvent) : result OpenEnd :=
  match try_decode_frame header with
  | Err e => Err e
  | Panic e => Panic e
  | Ok (Some frame) =>
      if negb (bool_decide (frame_type frame = FRAME_TCP_OPEN)) then Ok (Refused "expected TCP_OPEN")
      else
        target ← context "tcp open target utf8" (from_utf8 (payload frame));
        consumed ← frame_consumed_len header;
        prefix ← slice_from header consumed;
        Ok (Opened target prefix script)
  | Ok None =>
      match script with
      | [] => Ok (Pending header)
      | REof :: _ => Err "stream closed before tcp open"
      | RError _ :: _ => Err "read tcp open"
      | RTimeout :: script => tcp_open_loop header script
      | RData chunk :: script =>
          if 16384 <? zlen (header ++ chunk) then Ok (Refused "tcp open frame too large")
          else tcp_open_loop (header ++ chunk) script
      end
  end.

(** What a stream relays once it is open: the session, the bytes read behind the
    request, the reads to come, and the rates of the two pacers. *)
Record RsqRelay := mkRsqRelay {
  rr_session : UserRelaySession;
  rr_dest : SocketAddr;
  rr_prefix : list byte;
  rr_script : list ReadEvent;
  rr_down_bps : Z;
  rr_up_bps : Z;
}.
Record TcpServed := mkTcpServed {
  ts_sent : list byte;
  ts_result : result (option RsqRelay);
  ts_cm : ConnectionManager;
}.

Section Streams.
(** [lookup_host] on a target text, and [TcpStream::connect]. *)
Variable lookup_host : list byte -> result (list SocketAddr).
Variable connect : SocketAddr -> result unit.
Variable rnd : nat -> byte.

Definition resolve_target (target : list byte) : result SocketAddr :=
  match parse_socket_addr target with
  | Some a => Ok a
  | None =>
      addrs ← context "resolve rsq target" (lookup_host target);
      ok_or ("no addresses for " +:+ String.string_of_list_byte target) (head addrs)
  end.

Definition handle_tcp_stream (ctx : RsqRelayCtx) (now : Z) (script : list ReadEvent)
    (cm : ConnectionManager) : TcpServed :=
  let refuse msg := mkTcpServed (encode_tcp_err rnd msg 0) (Ok None) cm in
  match tcp_open_loop [] script with
  | Err e => mkTcpServed [] (Err e) cm
  | Panic e => mkTcpServed [] (Panic e) cm
  | Ok (Pending _) => mkTcpServed [] (Ok None) cm
  | Ok (Refused msg) => refuse (str msg)
  | Ok (Opened target prefix script) =>
      match resolve_target target with
      | Err e => refuse (str "resolve " ++ target ++ str ": " ++ str e)
      | Panic e => mkTcpServed [] (Panic e) cm
      | Ok addr =>
          match connect addr with
          | Err e => refuse (str "connect " ++ target ++ str ": " ++ str e)
          | Panic e => mkTcpServed [] (Panic e) cm
          | Ok _ =>
              let '(user_name, limits) := ctx_user cm (rc_password ctx) in
              let '(session, cm) := begin_muxed cm now (rc_inbound_tag ctx) user_name limits
                                      (Some addr) None in
              mkTcpServed (encode_tcp_ok rnd 0)
                (Ok (Some (mkRsqRelay session addr prefix script (downlink_target_bps ctx limits)
                             (uplink_target_bps ctx limits)))) cm
          end
      end
  end.
End Streams.

(** *** The copy loops *)

Inductive CopyEnd := CopyDone | CopyWaiting | CopyFailed (e : string) | CopyStuck.

(** [rsq_copy_reader_to_tcp] and [rsq_copy_tcp_to_send], which differ in the error
    texts and in what they close: the bytes written, the manager, and how the copy
    ended.  [RTimeout] is the idle timeout; [CopyStuck] is a pacer that outlasts the
    fuel. *)
Fixpoint rsq_copy (fuel : nat) (profile : TrafficProfile) (r : nat -> Z) (s : UserRelaySession)
    (uplink paced : bool) (p : BrutalPacer) (now : Z) (cm : ConnectionManager)
    (script : list ReadEvent) : result (list byte * ConnectionManager * CopyEnd) :=
  let now := if paced && pace_relay_copy profile
             then now + inter_chunk_delay profile (r (length script)) * 1000000 else now in
  match script with
  | [] => Ok ([], cm, CopyWaiting)
  | REof :: _ | RTimeout :: _ | RData [] :: _ => Ok ([], cm, CopyDone)
  | RError _ :: _ => Ok ([], cm, CopyFailed (if uplink then "read client stream" else "read remote tcp"))
  | RData buf :: script =>
      let '(ok, cm) := user_quota_ok cm (s_user s) (s_limits s) in
      if negb ok then Ok ([], cm, CopyDone)
      else
        g ← pacer_write_all (length buf) fuel p now buf;
        match g with
        | None => Ok ([], cm, CopyStuck)
        | Some (now, p) =>
            '(out, cm, e) ← rsq_copy fuel profile r s uplink true p now
                              (charge s uplink (zlen buf) cm) script;
            Ok (buf ++ out, cm, e)
        end
  end.

(** [PrefixedRecvStream] in front of a stream, read with a buffer of [size] bytes. *)
Fixpoint prefixed_reads (turns : nat) (size : Z) (prefix : list byte) : list ReadEvent :=
  match turns, prefix with
  | _, [] => []
  | O, _ => []
  | S turns, _ =>
      RData (take (Z.to_nat size) prefix)
      :: prefixed_reads turns size (drop (Z.to_nat size) prefix)
  end.
Definition prefixed_recv (size : Z) (prefix : list byte) (script : list ReadEvent) : list ReadEvent :=
  prefixed_reads (length prefix) size prefix ++ script.

(** The uplink of an open stream. *)
Definition relay_uplink (fuel : nat) (profile : TrafficProfile) (r : nat -> Z) (now : Z)
    (rr : RsqRelay) (cm : ConnectionManager) : result (list byte * ConnectionManager * CopyEnd) :=
  rsq_copy fuel profile r (rr_session rr) true false (pacer_new (rr_up_bps rr) now) now cm
    (prefixed_recv (read_chunk_size profile) (rr_prefix rr) (rr_script rr)).

(** ** Client *)

(** The reading loop of [authenticate]; [RTimeout] is the elapsed [AUTH_IO_TIMEOUT]. *)
Inductive ClientAuth :=
| AuthDone (ok : AuthOk) (script : list ReadEvent)
| AuthWaiting (buf : list byte).

Fixpoint client_auth_loop (buf : list byte) (script : list ReadEvent) : result ClientAuth :=
  match script with
  | [] => Ok (AuthWaiting buf)
  | REof :: _ => Err "rsq: auth stream closed"
  | RError _ :: _ => Err "read auth resp"
  | RTimeout :: _ => Err "rsq: auth read timeout"
  | RData chunk :: script =>
      let buf := buf ++ chunk in
      o ← try_decode_frame buf;
      match o with
      | Some frame => ok ← decode_auth_ok frame; Ok (AuthDone ok script)
      | None =>
          if 8192 <? zlen buf then Err "rsq: auth response too large"
          else client_auth_loop buf script
      end
  end.

(** [format_address]. *)
Definition format_address (a : SocketAddr) : list byte :=
  match sa_ip a with
  | V4 ip => show_ip (V4 ip) ++ str ":" ++ show_uint (sa_port a)
  | V6 ip => str "[" ++ show_ip (V6 ip) ++ str "]:" ++ show_uint (sa_port a)
  end.

(** The target [dial_tcp_inner] asks for. *)
Definition dial_target (destination : SocketAddr) (domain : option (list byte)) : list byte :=
  if negb (is_unspecified (sa_ip destination)) then format_address destination
  else match domain with
       | Some d => d ++ str ":" ++ show_uint (sa_port destination)
       | None => format_address destination
       end.

(** The reading loop of [dial_tcp_inner], while the session's generation is current. *)
Inductive ClientOpen :=
| StreamOpen (prefix : list byte) (script : list ReadEvent)
| OpenWaiting (buf : list byte).

Fixpoint tcp_reply_loop (buf : list byte) (script : list ReadEvent) : result ClientOpen :=
  '(reply, buf) ← try_decode_tcp_reply buf;
  match reply with
  | Some ReplyOk => Ok (StreamOpen buf script)
  | Some (ReplyErr msg) => Err ("rsq tcp open rejected: " +:+ String.string_of_list_byte msg)
  | None =>
      match script with
      | [] => Ok (OpenWaiting buf)
      | REof :: _ => Err "rsq: stream closed before tcp reply"
      | RError e :: _ => Err e
      | RTimeout :: _ => Err "rsq: read tcp reply timeout"
      | RData chunk :: script =>
          if 8192 <? zlen (buf ++ chunk) then Err "rsq: tcp reply too large"
          else tcp_reply_loop (buf ++ chunk) script
      end
  end.

(** [dial_tcp_inner] on an open stream: what it writes, and what it then reads. *)
Definition tcp_open_request (rnd : nat -> byte) (r : Z) (destination : SocketAddr)
    (domain : option (list byte)) : list byte :=
  encode_tcp_open rnd (dial_target destination domain) (random_pad_len r 64 512).


(** ** Addresses *)

Definition port_check (p : Z) : bool := bool_decide (read_port (x3a :: show_uint p) = Some (p, [])).
Lemma port_check_all : all_below (256 * 256) 0 port_check = true.
Proof. by vm_compute. Qed.
Lemma read_port_show p : in_u16 p -> read_port (str ":" ++ show_uint p) = Some (p, []).
Proof.
  intros Hp. unfold in_u16 in Hp. change (2 ^ 16) with 65536 in Hp.
  assert (H : port_check p = true) by (apply (all_below_spec (256 * 256) port_check 0 port_check_all); lia).
  by apply bool_decide_eq_true in H.
Qed.

Definition sa_wf (a : SocketAddr) : Prop := ip_wf (sa_ip a) /\ in_u16 (sa_port a).

(** An address is printed as text that is read back. *)
Lemma parse_format_address a : sa_wf a -> parse_socket_addr (format_address a) = Some a.
Proof.
  destruct a as [[ip|ip] port]; intros [Hip Hp]; cbn [sa_ip sa_port ip_wf] in *;
    unfold parse_socket_addr, format_address; cbn [sa_ip sa_port show_ip].
  - unfold read_socket_addr_v4. rewrite read_show_ipv4 by done. cbn [mbind option_bind].
    rewrite read_port_show by done. done.
  - change (str "[" ++ ?x) with (x5b :: x). cbn [read_socket_addr_v4 read_ipv4_addr].
    unfold read_socket_addr_v4. change (read_ipv4_addr (x5b :: _)) with (@None (Z * list byte)).
    cbn [mbind option_bind or_else]. unfold read_socket_addr_v6. rewrite read_given_char_hit.
    cbn [mbind option_bind]. change (str "]:" ++ ?x) with (x5d :: str ":" ++ x).
    rewrite read_show_ipv6 by done. cbn [mbind option_bind].
    change (read_scope_id (x5d :: _)) with (@None (Z * list byte)). cbv iota beta.
    rewrite read_given_char_hit. cbn [mbind option_bind]. rewrite read_port_show by done. done.
Qed.

Lemma resolve_format lookup_host a : sa_wf a -> resolve_target lookup_host (format_address a) = Ok a.
Proof. intros Ha. unfold resolve_target. by rewrite parse_format_address. Qed.

(** ** A frame that arrives in pieces *)

(** The reads up to and including the one that completes [enc]. *)
Lemma cut_at (enc : list byte) : forall chunks early, concat chunks = enc ++ early -> enc <> [] ->
  exists pre c post prefix, chunks = pre ++ c :: post /\
    (length (concat pre) < length enc)%nat /\ concat pre = take (length (concat pre)) enc /\
    concat pre ++ c = enc ++ prefix /\ early = prefix ++ concat post.
Proof.
  intros chunks. revert enc. induction chunks as [|c0 chunks IH]; intros enc early Hc Hn.
  { destruct enc; [done|discriminate]. }
  simpl in Hc. destruct (Nat.lt_ge_cases (length c0) (length enc)) as [Hl|Hl].
  - assert (He : enc = c0 ++ drop (length c0) enc).
    { rewrite <-(take_drop (length c0) enc) at 1. f_equal.
      rewrite <-(take_app_le enc early) by lia. by rewrite <-Hc, take_app_length. }
    set (e' := drop (length c0) enc) in *.
    assert (Hl' : (0 < length e')%nat) by (unfold e'; rewrite length_drop; lia). clearbody e'.
    rewrite He, <-app_assoc in Hc. apply app_inv_head in Hc.
    destruct (IH e' early Hc) as (pre & c & post & prefix & -> & Hlen & Ht & Hx & Hy).
    { intros E. rewrite E in Hl'. simpl in Hl'. lia. }
    exists (c0 :: pre), c, post, prefix. rewrite He. simpl. rewrite !length_app.
    split_and!; [done|lia| |by rewrite <-!app_assoc, Hx|done].
    rewrite take_app_ge by lia. f_equal.
    replace (length c0 + length (concat pre) - length c0)%nat with (length (concat pre)) by lia. done.
  - exists [], c0, chunks, (drop (length enc) c0). simpl. split_and!; [done| |done| |].
    + destruct enc; [done|simpl; lia].
    + rewrite <-(take_drop (length enc) c0) at 1. f_equal.
      rewrite <-(take_app_le c0 (concat chunks)) by lia. by rewrite Hc, take_app_length.
    + rewrite <-(drop_app_length enc early), <-Hc. by rewrite drop_app_le by lia.
Qed.

(** The reads before that one hold a strict prefix of [enc]. *)
Lemma prefix_of_cut (enc : list byte) pre j : (length (concat pre) < length enc)%nat ->
  concat pre = take (length (concat pre)) enc ->
  concat (take j pre) = take (length (concat (take j pre))) enc
  /\ (length (concat (take j pre)) < length enc)%nat.
Proof.
  intros Hlen Ht.
  assert (Hpre : concat pre = concat (take j pre) ++ concat (drop j pre))
    by (by rewrite <-concat_app, take_drop).
  rewrite Hpre, length_app in Hlen, Ht. split; [|lia].
  assert (Hk := f_equal (take (length (concat (take j pre)))) Ht).
  rewrite take_app_length, take_take in Hk. rewrite Hk at 1. f_equal. lia.
Qed.

(** The first read that ends where [P] holds. *)
Lemma first_cut (P : nat -> Prop) `{forall n, Decision (P n)} : forall chunks : list (list byte), ~ P 0%nat ->
  (exists j, P (length (concat (take j chunks)))) ->
  exists pre c post, chunks = pre ++ c :: post /\ P (length (concat pre ++ c))
    /\ forall j, ~ P (length (concat (take j pre))).
Proof.
  intros chunks. revert P H. induction chunks as [|c0 chunks IH]; intros P HP H0 [j Hj].
  { rewrite take_nil in Hj. done. }
  destruct (decide (P (length c0))) as [Hc|Hc].
  - exists [], c0, chunks. split_and!; [done..|]. intros i. by rewrite take_nil.
  - destruct j as [|j]; [done|]. cbn [take concat] in Hj. rewrite length_app in Hj.
    destruct (IH (fun n => P (length c0 + n)%nat) _) as (pre & c & post & -> & Hp & Hn).
    + by rewrite Nat.add_0_r.
    + by exists j.
    + exists (c0 :: pre), c, post. cbn [concat app]. rewrite <-app_assoc, length_app. split_and!; [done..|].
      intros [|i]; [done|]. cbn [take concat]. rewrite length_app. apply Hn.
Qed.

(** Whether a read ends right behind the six header bytes of a frame, where the
    decoder reports an error instead of an incomplete frame. *)
Definition no_cut (chunks : list (list byte)) : Prop :=
  forall j, length (concat (take j chunks)) <> 6%nat.
Definition header_cut (chunks : list (list byte)) : Prop :=
  exists j, length (concat (take j chunks)) = 6%nat.
Definition reads (chunks : list (list byte)) : list ReadEvent := RData <$> chunks.

(** Every read but the last leaves the frame incomplete and within the limit. *)
Fixpoint quiet (limit : Z) (buf : list byte) (pre : list (list byte)) : Prop :=
  match pre with
  | [] => True
  | c :: pre => try_decode_frame (buf ++ c) = Ok None /\ zlen (buf ++ c) <= limit /\
      quiet limit (buf ++ c) pre
  end.

Lemma quiet_prefixes limit : forall pre buf,
  (forall j, try_decode_frame (buf ++ concat (take j pre)) = Ok None /\
             zlen (buf ++ concat (take j pre)) <= limit) -> quiet limit buf pre.
Proof.
  induction pre as [|c pre IH]; intros buf Hj; simpl; [done|].
  destruct (Hj 1%nat) as [H1 H2]. cbn [take concat] in H1, H2. rewrite take_0 in H1, H2.
  cbn [concat] in H1, H2. rewrite app_nil_r in H1, H2.
  split; [done|]. split; [done|]. apply IH. intros j. rewrite <-!app_assoc. exact (Hj (S j)).
Qed.

Lemma frame_arrives rnd ty fl pl pad_len chunks early limit :
  let enc := encode_frame rnd ty fl pl pad_len in
  zlen pl < 2 ^ 62 -> 0 <= pad_len -> 0 < pad_len \/ padded fl = false ->
  concat chunks = enc ++ early -> no_cut chunks -> zlen enc <= limit ->
  exists pre c post prefix, chunks = pre ++ c :: post /\ quiet limit [] pre /\
    (try_decode_frame (concat pre) = Ok None /\ zlen (concat pre) < zlen enc) /\
    concat pre ++ c = enc ++ prefix /\ early = prefix ++ concat post.
Proof.
  intros enc Hpl Hpad Hf Hc Hcut Hlim.
  destruct (cut_at enc chunks early Hc) as (pre & c & post & prefix & -> & Hlen & Ht & Hx & Hy).
  { intros E. pose proof (encode_frame_length rnd ty fl pl pad_len) as Hl. fold enc in Hl.
    rewrite E in Hl. simpl in Hl. lia. }
  assert (Hall : forall j, try_decode_frame (concat (take j pre)) = Ok None /\
    zlen (concat (take j pre)) < zlen enc).
  2:{ exists pre, c, post, prefix. split_and!; [done| | | |done|done].
      - apply quiet_prefixes. intros j. destruct (Hall j). rewrite app_nil_l. split; [done|lia].
      - destruct (Hall (length pre)) as [H1 _]. by rewrite take_ge in H1 by lia.
      - destruct (Hall (length pre)) as [_ H1]. by rewrite take_ge in H1 by lia. }
  intros j.
  pose proof (prefix_of_cut enc pre j Hlen Ht) as Hp.
  destruct Hp as [Hp Hpl']. split.
  - rewrite Hp. apply decode_strict_prefix; [done..|].
    pose proof (Hcut (j `min` length pre)%nat) as Hj. rewrite take_app_le in Hj by lia.
    destruct (Nat.le_ge_cases j (length pre)).
    + by rewrite Nat.min_l in Hj by lia.
    + rewrite Nat.min_r in Hj by lia. by rewrite (take_ge pre j), <-(take_ge pre (length pre)) by lia.
  - unfold zlen in *. lia.
Qed.

(** With such a cut, the reads up to it leave the frame incomplete and the read
    that ends there makes the decoder fail. *)
Lemma frame_header_cut rnd ty fl pl pad_len chunks early limit :
  zlen pl < 2 ^ 62 -> 0 <= pad_len -> 0 < pad_len \/ padded fl = false ->
  concat chunks = encode_frame rnd ty fl pl pad_len ++ early -> header_cut chunks -> 6 <= limit ->
  exists pre c post, chunks = pre ++ c :: post /\ quiet limit [] pre /\ try_decode_frame (concat pre) = Ok None
    /\ zlen (concat pre ++ c) = 6 /\ frame_wire_len (concat pre ++ c) = Err "empty varint".
Proof.
  intros Hpl Hpad Hf Hc Hcut Hlim. destruct (first_cut (fun n => n = 6%nat) chunks) as (pre & c & post & -> & H6 & Hn); [done|done|].
  exists pre, c, post. rewrite length_app in H6.
  assert (Hshort : forall j, (length (concat (take j pre)) < 6)%nat).
  { intros j. specialize (Hn j). assert (Hl : concat pre = concat (take j pre) ++ concat (drop j pre)) by (by rewrite <-concat_app, take_drop).
    apply (f_equal length) in Hl. rewrite length_app in Hl. lia. }
  assert (Hnone : forall b, (length b < 6)%nat -> try_decode_frame b = Ok None).
  { intros b Hb. unfold try_decode_frame, frame_wire_len. by rewrite (proj2 (Z.ltb_lt _ _)) by (unfold zlen; lia). }
  split_and!; [done| | | |].
  - apply quiet_prefixes. intros j. rewrite app_nil_l. specialize (Hshort j). split; [by apply Hnone|unfold zlen; lia].
  - apply Hnone. specialize (Hshort (length pre)). by rewrite take_ge in Hshort by lia.
  - unfold zlen. rewrite length_app. lia.
  - assert (E : concat pre ++ c = take 6 (encode_frame rnd ty fl pl pad_len)).
    { pose proof (encode_frame_length rnd ty fl pl pad_len) as Hl. rewrite <-(take_app_le _ early) by lia. rewrite <-Hc, concat_app. cbn [concat].
      rewrite app_assoc, take_app_le, take_ge by (rewrite length_app; lia). done. }
    rewrite E, encode_frame_shape. reflexivity.
Qed.

Lemma reads_app c pre post rest : reads (pre ++ c :: post) ++ rest
  = reads pre ++ RData c :: reads post ++ rest.
Proof. unfold reads. by rewrite fmap_app, fmap_cons, <-app_assoc. Qed.

Lemma reply_incomplete buf : try_decode_frame buf = Ok None -> try_decode_tcp_reply buf = Ok (None, buf).
Proof.
  unfold try_decode_frame, try_decode_tcp_reply.
  destruct (frame_wire_len buf) as [[total|]|e|e]; cbn [mbind result_bind]; [|done..].
  destruct (zlen buf <? total); [done|]. intros Hd. exfalso. revert Hd.
  destruct (index buf 4) as [ty|?|?]; cbn [mbind result_bind]; [|done..].
  destruct (index buf 5) as [fl|?|?]; cbn [mbind result_bind]; [|done..].
  destruct (slice_from buf 6) as [cursor|?|?]; cbn [mbind result_bind]; [|done..].
  destruct (read_varint cursor) as [[n rest]|?|?]; cbn [mbind result_bind]; [|done..].
  by destruct (slice_to rest n).
Qed.

(** *** The four loops skip incomplete frames *)

Section Loops.
Context `{HmacSha256}.

Lemma auth_loop_quiet st nu now sid rnd r replay pre rest : forall buf, quiet 16384 buf pre ->
  authenticate_control st nu now sid rnd r replay buf (reads pre ++ rest)
  = authenticate_control st nu now sid rnd r replay (buf ++ concat pre) rest.
Proof.
  induction pre as [|c pre IH]; intros buf Hq; simpl; [by rewrite app_nil_r|].
  destruct Hq as (Hd & Hl & Hq). rewrite Hd, (proj2 (Z.ltb_ge _ _)) by done.
  rewrite IH by done. by rewrite <-app_assoc.
Qed.

Lemma open_loop_quiet pre rest : forall buf, try_decode_frame buf = Ok None -> quiet 16384 buf pre ->
  tcp_open_loop buf (reads pre ++ rest) = tcp_open_loop (buf ++ concat pre) rest.
Proof.
  induction pre as [|c pre IH]; intros buf Hb Hq; simpl; [by rewrite app_nil_r|].
  destruct Hq as (Hd & Hl & Hq). rewrite Hb, (proj2 (Z.ltb_ge _ _)) by done.
  rewrite IH by done. by rewrite <-app_assoc.
Qed.

Lemma client_auth_quiet pre rest : forall buf, quiet 8192 buf pre ->
  client_auth_loop buf (reads pre ++ rest) = client_auth_loop (buf ++ concat pre) rest.
Proof.
  induction pre as [|c pre IH]; intros buf Hq; simpl; [by rewrite app_nil_r|].
  destruct Hq as (Hd & Hl & Hq). rewrite Hd. simpl. rewrite (proj2 (Z.ltb_ge _ _)) by done.
  rewrite IH by done. by rewrite <-app_assoc.
Qed.

Lemma reply_loop_quiet pre rest : forall buf, try_decode_frame buf = Ok None -> quiet 8192 buf pre ->
  tcp_reply_loop buf (reads pre ++ rest) = tcp_reply_loop (buf ++ concat pre) rest.
Proof.
  induction pre as [|c pre IH]; intros buf Hb Hq; simpl; [by rewrite app_nil_r|].
  destruct Hq as (Hd & Hl & Hq). rewrite reply_incomplete by done. simpl.
  rewrite (proj2 (Z.ltb_ge _ _)) by done. rewrite IH by done. by rewrite <-app_assoc.
Qed.

(** With a read that ends right behind the header, all four fail. *)
Lemma wire_len_err b e : frame_wire_len b = Err e -> try_decode_frame b = Err e /\ try_decode_tcp_reply b = Err e.
Proof. intros E. unfold try_decode_frame, try_decode_tcp_reply. by rewrite E. Qed.

Section Cut.
Variables (rnd_f : nat -> byte) (ty fl : byte) (pl : list byte) (pad_len : Z) (chunks : list (list byte)) (early : list byte) (more : list ReadEvent).
Hypotheses (Hpl : zlen pl < 2 ^ 62) (Hpad : 0 <= pad_len) (Hf : 0 < pad_len \/ padded fl = false).
Hypothesis Hc : concat chunks = encode_frame rnd_f ty fl pl pad_len ++ early.
Hypothesis Hcut : header_cut chunks.

Lemma auth_loop_cut st nu now sid rnd r replay :
  authenticate_control st nu now sid rnd r replay [] (reads chunks ++ more) = mkAuthenticated [] false (Err "empty varint") replay.
Proof.
  destruct (frame_header_cut rnd_f ty fl pl pad_len chunks early 16384 Hpl Hpad Hf Hc Hcut ltac:(lia)) as (pre & c & post & -> & Hq & Hn & _ & Hw).
  rewrite reads_app, auth_loop_quiet by done. cbn [authenticate_control app]. by rewrite (proj1 (wire_len_err _ _ Hw)).
Qed.
Lemma open_loop_cut : tcp_open_loop [] (reads chunks ++ more) = Err "empty varint".
Proof.
  destruct (frame_header_cut rnd_f ty fl pl pad_len chunks early 16384 Hpl Hpad Hf Hc Hcut ltac:(lia)) as (pre & c & post & -> & Hq & Hn & H6 & Hw).
  rewrite reads_app, open_loop_quiet by done. cbn [tcp_open_loop app]. rewrite Hn, H6. change (16384 <? 6) with false. cbn match.
  destruct (reads post ++ more); cbn [tcp_open_loop]; by rewrite (proj1 (wire_len_err _ _ Hw)).
Qed.
Lemma client_auth_cut : client_auth_loop [] (reads chunks ++ more) = Err "empty varint".
Proof.
  destruct (frame_header_cut rnd_f ty fl pl pad_len chunks early 8192 Hpl Hpad Hf Hc Hcut ltac:(lia)) as (pre & c & post & -> & Hq & Hn & _ & Hw).
  rewrite reads_app, client_auth_quiet by done. cbn [client_auth_loop app]. by rewrite (proj1 (wire_len_err _ _ Hw)).
Qed.
Lemma reply_loop_cut : tcp_reply_loop [] (reads chunks ++ more) = Err "empty varint".
Proof.
  destruct (frame_header_cut rnd_f ty fl pl pad_len chunks early 8192 Hpl Hpad Hf Hc Hcut ltac:(lia)) as (pre & c & post & -> & Hq & Hn & H6 & Hw).
  rewrite reads_app, reply_loop_quiet by done. cbn [tcp_reply_loop app]. rewrite (reply_incomplete _ Hn). cbn [mbind result_bind].
  rewrite H6. change (8192 <? 6) with false. cbn match.
  destruct (reads post ++ more); cbn [tcp_reply_loop]; by rewrite (proj2 (wire_len_err _ _ Hw)).
Qed.
End Cut.
End Loops.

Lemma encode_frame_bound rnd ty fl pl pad_len : 0 <= pad_len ->
  zlen (encode_frame rnd ty fl pl pad_len) <= zlen pl + 150.
Proof.
  intros Hp. rewrite encode_frame_shape. unfold zlen. cbn [app MAGIC length].
  assert (Hv : forall v, (length (write_varint [] v) <= 8)%nat)
    by (intros v; unfold write_varint; repeat case_match; simpl; lia).
  pose proof (zlen_pad_section rnd (Z.min pad_len 128)) as Hz. unfold zlen in Hz.
  rewrite !length_app. pose proof (Hv (Z.of_nat (length pl))). case_match; lia.
Qed.

Lemma open_loop_done rnd target pad rest script : zlen target < 2 ^ 62 -> 0 <= pad ->
  0 < pad \/ padded x00 = false -> utf8_valid target = true ->
  tcp_open_loop (encode_frame rnd FRAME_TCP_OPEN x00 target pad ++ rest) script = Ok (Opened target rest script).
Proof.
  intros Hl Hp Hf Hu.
  destruct script; cbn [tcp_open_loop]; rewrite decode_encoded by done; cbn [frame_type payload];
    rewrite bool_decide_eq_true_2, from_utf8_valid by done; cbn [negb context mbind result_bind];
    rewrite consumed_encoded by done; cbn [mbind result_bind]; by rewrite slice_from_app.
Qed.

Lemma reply_loop_eq buf script : tcp_reply_loop buf script
  = ('(reply, buf) ← try_decode_tcp_reply buf;
     match reply with
     | Some ReplyOk => Ok (StreamOpen buf script)
     | Some (ReplyErr msg) => Err ("rsq tcp open rejected: " +:+ String.string_of_list_byte msg)
     | None =>
         match script with
         | [] => Ok (OpenWaiting buf)
         | REof :: _ => Err "rsq: stream closed before tcp reply"
         | RError e :: _ => Err e
         | RTimeout :: _ => Err "rsq: read tcp reply timeout"
         | RData chunk :: script =>
             if 8192 <? zlen (buf ++ chunk) then Err "rsq: tcp reply too large"
             else tcp_reply_loop (buf ++ chunk) script
         end
     end).
Proof. by destruct script. Qed.

(** ** The handshakes *)

Section Handshakes.
Context `{HmacSha256}.

Lemma auth_ok_payload_short sid rx (udp : bool) : zlen (write_varint ([x01] ++ be_encode 4 sid) rx ++ [if udp then x01 else x00]) < 2 ^ 62.
Proof.
  rewrite write_varint_app. unfold zlen. rewrite !length_app, length_be_encode. cbn [length].
  assert ((length (write_varint [] rx) <= 8)%nat) by (unfold write_varint; repeat case_match; simpl; lia).
  change (2 ^ 62) with 4611686018427387904. lia.
Qed.
Lemma client_reads_auth_ok rnd r sid rx udp chunks more late : in_u32 sid -> 0 <= rx < 2 ^ 62 ->
  concat chunks = encode_auth_ok rnd r sid rx udp ++ late -> no_cut chunks ->
  exists script, client_auth_loop [] (reads chunks ++ more) = Ok (AuthDone (mkAuthOk sid rx udp) script).
Proof.
  intros Hs Hrx Hch Hcut. pose proof (auth_ok_roundtrip rnd r sid rx udp) as Hrt.
  unfold encode_auth_ok in Hch, Hrt. cbv zeta in Hch, Hrt.
  set (pl := write_varint _ rx ++ _) in *.
  assert (Hpl : zlen pl <= 14).
  { unfold pl. rewrite write_varint_app. unfold zlen. rewrite !length_app, length_be_encode. cbn [length].
    assert ((length (write_varint [] rx) <= 8)%nat)
      by (unfold write_varint; repeat case_match; simpl; lia). lia. }
  pose proof (random_pad_len_bounds r 16 64 ltac:(lia)) as Hp.
  destruct (frame_arrives rnd FRAME_AUTH_OK x00 pl (random_pad_len r 16 64) chunks late 8192)
    as (pre & c & post & prefix & -> & Hq & [Hn Hpre] & Hx & ->);
    [change (2 ^ 62) with 4611686018427387904; lia|lia|left; lia|done|done| |].
  { pose proof (encode_frame_bound rnd FRAME_AUTH_OK x00 pl (random_pad_len r 16 64) ltac:(lia)). lia. }
  destruct (Hrt prefix Hs Hrx) as (frame & Hd & Ho).
  exists (reads post ++ more). rewrite reads_app, client_auth_quiet by done.
  cbn [client_auth_loop app]. rewrite Hx, Hd. cbn [mbind result_bind]. by rewrite Ho.
Qed.

(** C5.  The two ends agree on a session, or one of them fails at a cut behind a frame's
    header.  A client that holds a configured password sends its request; however its bytes
    are cut into reads, unless one ends right behind the six header bytes, the server
    accepts it, keeps what was sent behind it and records the nonce; with such a read it
    fails, answers nothing and records nothing.  Likewise the client reads back the session
    id, the server's receive rate and whether UDP is on, unless a read of the answer ends
    behind the header, which makes it fail.  Clocks differ by at most 120 s, the nonce is new,
    and no two configured passwords give the same proof. *)
Theorem rsq_auth_handshake st rnd rnd_pad r_pad ts password down up profile now_unix now cache
    sid rnd_ok r_ok chunks more early :
  let body := auth_req_body (fill_bytes rnd 32) ts (req_rx_bps down)
                (req_up_bps up profile) profile in
  password ∈ password_list st -> in_u64 ts -> in_u32 down -> in_u32 up ->
  abs_diff ts now_unix <= AUTH_MAX_SKEW_SECS -> cache !! fill_bytes rnd 32 = None ->
  (forall q, q ∈ password_list st ->
     compute_proof (auth_key q) body = compute_proof (auth_key password) body -> q = password) ->
  in_u32 sid -> in_u32 (st_up_mbps st) ->
  concat chunks = encode_auth_req rnd rnd_pad r_pad ts password down up profile ++ early ->
  let served := authenticate_control st now_unix now sid rnd_ok r_ok cache [] (reads chunks ++ more) in
  (header_cut chunks -> served = mkAuthenticated [] false (Err "empty varint") cache)
  /\ (no_cut chunks -> exists ok prefix post,
    served
    = mkAuthenticated ok false
        (Ok (Accepted password (mkAuthClientCaps (req_rx_bps down) (req_up_bps up profile) profile)
               prefix (reads post ++ more)))
        (<[fill_bytes rnd 32 := now]> (filter (cache_live now) cache))
    /\ prefix ++ concat post = early
    /\ forall rchunks rmore late, concat rchunks = ok ++ late ->
       (header_cut rchunks -> client_auth_loop [] (reads rchunks ++ rmore) = Err "empty varint")
       /\ (no_cut rchunks -> exists script, client_auth_loop [] (reads rchunks ++ rmore)
            = Ok (AuthDone (mkAuthOk sid (server_rx st) (st_udp st)) script))).
Proof.
  intros body Hin Hts Hd Hu Hskew Hc Hinj Hsid Hup Hch served. unfold served. clear served.
  destruct (auth_accepts_user rnd rnd_pad r_pad ts password down up profile (password_list st)
    now_unix now cache Hin Hts Hd Hu Hskew Hc Hinj) as (frame & Hdec & Hver).
  pose proof (decode_auth_req rnd rnd_pad r_pad ts password down up profile) as Hfull.
  pose proof (Hfull []) as H0. rewrite app_nil_r, Hdec in H0.
  assert (Hf : forall f g : DecodedFrame, Ok (Some f) = Ok (Some g) -> f = g) by congruence.
  apply Hf in H0. clear Hf. subst frame. clear Hdec.
  fold body in Hver, Hfull. unfold encode_auth_req in Hch, Hfull. cbv zeta in Hch, Hfull.
  fold (req_rx_bps down) (req_up_bps up profile) body in Hch, Hfull.
  pose proof (random_pad_len_bounds r_pad 32 128 ltac:(lia)) as Hp.
  set (pl := body ++ compute_proof (auth_key password) body) in *.
  assert (Hpl : zlen pl <= 132).
  { unfold pl. rewrite zlen_app. unfold zlen. rewrite length_compute_proof.
    pose proof (length_auth_req_body (fill_bytes rnd 32) ts (req_rx_bps down)
      (req_up_bps up profile) profile (length_fill_bytes _ _)) as Hb. fold body in Hb. lia. }
  split.
  { intros Hcut. apply (auth_loop_cut rnd_pad FRAME_AUTH_REQ x00 pl (random_pad_len r_pad 32 128) chunks early);
      [change (2 ^ 62) with 4611686018427387904; lia|lia|left; lia|done|done]. }
  intros Hcut. destruct (frame_arrives rnd_pad FRAME_AUTH_REQ x00 pl (random_pad_len r_pad 32 128) chunks early
    16384) as (pre & c & post & prefix & -> & Hq & [Hn Hpre] & Hx & ->);
    [change (2 ^ 62) with 4611686018427387904; lia|lia|left; lia|done|done| |].
  { pose proof (encode_frame_bound rnd_pad FRAME_AUTH_REQ x00 pl (random_pad_len r_pad 32 128)
      ltac:(lia)). lia. }
  exists (encode_auth_ok rnd_ok r_ok sid (server_rx st) (st_udp st)), prefix, post.
  split_and!; [|done|].
  - rewrite reads_app, auth_loop_quiet by done. cbn [authenticate_control app].
    rewrite Hx, Hfull, Hver. cbn [default from_option id].
    rewrite consumed_encoded by (change (2 ^ 62) with 4611686018427387904; lia || (left; lia)).
    unfold zlen. by rewrite Nat2Z.id, drop_app_length.
  - intros rchunks rmore late Hr. split.
    + unfold encode_auth_ok in Hr. intros Hcut'. eapply client_auth_cut; [| | |exact Hr|exact Hcut'].
      * apply auth_ok_payload_short.
      * pose proof (random_pad_len_bounds r_ok 16 64 ltac:(lia)). lia.
      * pose proof (random_pad_len_bounds r_ok 16 64 ltac:(lia)). left. lia.
    + revert Hr. apply client_reads_auth_ok; [done|].
      unfold server_rx, MBPS_TO_BPS, in_u32 in *. change (2 ^ 62) with 4611686018427387904.
      case_match; lia.
Qed.

(** *** Opening a stream *)

Lemma server_reads_open rnd target r chunks more early : zlen target <= 12000 ->
  utf8_valid target = true ->
  concat chunks = encode_tcp_open rnd target (random_pad_len r 64 512) ++ early ->
  no_cut chunks -> Forall (fun c => zlen c <= 4096) chunks ->
  exists prefix post, tcp_open_loop [] (reads chunks ++ more) = Ok (Opened target prefix (reads post ++ more))
    /\ prefix ++ concat post = early.
Proof.
  intros Hl Hu Hch Hcut Hs. unfold encode_tcp_open in Hch.
  pose proof (random_pad_len_bounds r 64 512 ltac:(lia)) as Hp.
  set (pad := random_pad_len r 64 512) in *.
  pose proof (encode_frame_bound rnd FRAME_TCP_OPEN x00 target pad ltac:(lia)) as He.
  destruct (frame_arrives rnd FRAME_TCP_OPEN x00 target pad chunks early 16384)
    as (pre & c & post & prefix & -> & Hq & [Hn Hpre] & Hx & ->);
    [change (2 ^ 62) with 4611686018427387904; lia|lia|left; lia|done|done|lia|].
  exists prefix, post. split; [|done].
  apply Forall_app in Hs as [_ Hs]. apply Forall_cons in Hs as [Hc _].
  rewrite reads_app, open_loop_quiet by done. rewrite app_nil_l.
  cbn [tcp_open_loop]. rewrite Hn, (proj2 (Z.ltb_ge _ _)) by (rewrite zlen_app; lia).
  rewrite Hx. apply open_loop_done; [change (2 ^ 62) with 4611686018427387904; lia|lia|left; lia|done].
Qed.

Lemma client_reads_ok rnd chunks more late : concat chunks = encode_tcp_ok rnd 0 ++ late ->
  no_cut chunks -> Forall (fun c => zlen c <= 512) chunks ->
  exists prefix post, tcp_reply_loop [] (reads chunks ++ more) = Ok (StreamOpen prefix (reads post ++ more))
    /\ prefix ++ concat post = late.
Proof.
  intros Hch Hcut Hs. unfold encode_tcp_ok in Hch.
  destruct (frame_arrives rnd FRAME_TCP_OK x00 (str "ok") 0 chunks late 8192)
    as (pre & c & post & prefix & -> & Hq & [Hn Hpre] & Hx & ->); [done|done|by right|done|done|done|].
  exists prefix, post. split; [|done].
  apply Forall_app in Hs as [_ Hs]. apply Forall_cons in Hs as [Hc _].
  rewrite reads_app, reply_loop_quiet by done. rewrite app_nil_l.
  change (zlen (encode_frame rnd FRAME_TCP_OK x00 (str "ok") 0)) with 9 in Hpre.
  cbn [tcp_reply_loop]. rewrite (reply_incomplete _ Hn). cbn [mbind result_bind].
  rewrite (proj2 (Z.ltb_ge _ _)) by (rewrite zlen_app; lia).
  rewrite Hx, reply_loop_eq.
  destruct (tcp_reply_roundtrip rnd [] 0 prefix) as [Hr _]; [done..|].
  unfold encode_tcp_ok in Hr. by rewrite Hr.
Qed.

Lemma client_reads_refusal rnd msg chunks more late : zlen msg <= 4000 ->
  concat chunks = encode_tcp_err rnd msg 0 ++ late ->
  no_cut chunks -> Forall (fun c => zlen c <= 512) chunks ->
  exists text, tcp_reply_loop [] (reads chunks ++ more) = Err ("rsq tcp open rejected: " +:+ text).
Proof.
  intros Hm Hch Hcut Hs. unfold encode_tcp_err in Hch.
  pose proof (encode_frame_bound rnd FRAME_TCP_ERR x00 msg 0 ltac:(lia)) as He.
  destruct (frame_arrives rnd FRAME_TCP_ERR x00 msg 0 chunks late 8192)
    as (pre & c & post & prefix & -> & Hq & [Hn Hpre] & Hx & ->);
    [change (2 ^ 62) with 4611686018427387904; lia|done|by right|done|done|lia|].
  apply Forall_app in Hs as [_ Hs]. apply Forall_cons in Hs as [Hc _].
  rewrite reads_app, reply_loop_quiet by done. rewrite app_nil_l.
  cbn [tcp_reply_loop]. rewrite (reply_incomplete _ Hn). cbn [mbind result_bind].
  rewrite (proj2 (Z.ltb_ge _ _)) by (rewrite zlen_app; lia).
  rewrite Hx, reply_loop_eq. unfold try_decode_tcp_reply.
  rewrite wire_len_encoded, decode_encoded
    by (done || (change (2 ^ 62) with 4611686018427387904; lia) || (by right)).
  cbn [mbind result_bind ok_or frame_type payload].
  rewrite (proj2 (Z.ltb_ge _ _)) by (rewrite zlen_app; pose proof (zlen_nonneg prefix); lia).
  rewrite bool_decide_eq_false_2, bool_decide_eq_true_2 by done. cbn [mbind result_bind].
  rewrite slice_from_app. cbn [mbind result_bind]. by eexists.
Qed.

(** C4.  Opening a TCP stream through RSQ.  The client's open request, for a target of at most
    3000 bytes of UTF-8 and sent with application data right behind it, is cut into reads of
    at most the 4096 bytes of the server's buffer.
    Unless one ends right behind the six bytes of the header, which makes the server fail
    without an answer, the server connects to the address the target resolves to and relays
    what came behind the request; a target that cannot be resolved or reached is answered
    with a refusal (its text, of at most 900 bytes here, is read back whole).  The answer,
    cut into reads of at most the client's 512 bytes, opens the stream at the client with
    whatever the target already sent kept behind it, or makes the client report the refusal;
    again a read that ends right behind the header makes it fail instead. *)
Theorem rsq_tcp_handshake lookup_host connect rnd rnd_ok r ctx now cm destination domain
    chunks more early :
  let target := dial_target destination domain in
  zlen target <= 3000 -> utf8_valid target = true ->
  concat chunks = tcp_open_request rnd r destination domain ++ early ->
  Forall (fun c => zlen c <= 4096) chunks ->
  let s := handle_tcp_stream lookup_host connect rnd_ok ctx now (reads chunks ++ more) cm in
  (header_cut chunks -> s = mkTcpServed [] (Err "empty varint") cm)
  /\ (no_cut chunks ->
  match (addr ← resolve_target lookup_host target; _ ← connect addr; Ok addr) with
  | Ok addr =>
      (exists relay post, ts_result s = Ok (Some relay) /\ rr_dest relay = addr
       /\ rr_prefix relay ++ concat post = early /\ rr_script relay = reads post ++ more)
      /\ forall rchunks rmore late, concat rchunks = ts_sent s ++ late ->
         Forall (fun c => zlen c <= 512) rchunks ->
         (header_cut rchunks -> tcp_reply_loop [] (reads rchunks ++ rmore) = Err "empty varint")
         /\ (no_cut rchunks -> exists prefix post, tcp_reply_loop [] (reads rchunks ++ rmore)
              = Ok (StreamOpen prefix (reads post ++ rmore)) /\ prefix ++ concat post = late)
  | Err e => zlen (str e) <= 900 -> ts_result s = Ok None /\ ts_cm s = cm
      /\ forall rchunks rmore late, concat rchunks = ts_sent s ++ late ->
         Forall (fun c => zlen c <= 512) rchunks ->
         (header_cut rchunks -> tcp_reply_loop [] (reads rchunks ++ rmore) = Err "empty varint")
         /\ (no_cut rchunks -> exists text, tcp_reply_loop [] (reads rchunks ++ rmore)
              = Err ("rsq tcp open rejected: " +:+ text))
  | Panic e => ts_result s = Panic e
  end).
Proof.
  intros target Hl Hu Hch Hsz s. unfold tcp_open_request in Hch. fold target in Hch. split.
  { intros Hcut. unfold encode_tcp_open in Hch. pose proof (random_pad_len_bounds r 64 512 ltac:(lia)).
    unfold s, handle_tcp_stream. erewrite open_loop_cut; [done| | | |exact Hch|exact Hcut];
      [change (2 ^ 62) with 4611686018427387904; lia|lia|left; lia]. }
  intros Hcut. destruct (server_reads_open rnd target r chunks more early ltac:(lia) Hu Hch Hcut Hsz)
    as (prefix & post & Ho & He).
  assert (Hrefused : forall msg rchunks rmore late, zlen msg <= 4000 -> concat rchunks = encode_tcp_err rnd_ok msg 0 ++ late ->
    Forall (fun c => zlen c <= 512) rchunks ->
    (header_cut rchunks -> tcp_reply_loop [] (reads rchunks ++ rmore) = Err "empty varint")
    /\ (no_cut rchunks -> exists text, tcp_reply_loop [] (reads rchunks ++ rmore) = Err ("rsq tcp open rejected: " +:+ text))).
  { intros msg rchunks rmore late Hm Hr Hs. split; [|intros; by eapply client_reads_refusal].
    unfold encode_tcp_err in Hr. intros Hcut'. eapply reply_loop_cut; [| | |exact Hr|exact Hcut'];
      [change (2 ^ 62) with 4611686018427387904; lia|done|by right]. }
  unfold s, handle_tcp_stream. rewrite Ho.
  destruct (resolve_target lookup_host target) as [addr|e|e]; cbn [mbind result_bind].
  2:{ intros Hle. split_and!; [done..|]. cbn [ts_sent]. intros rchunks rmore late.
      apply Hrefused. rewrite !zlen_app. change (zlen (str "resolve ")) with 8. change (zlen (str ": ")) with 2. lia. }
  2:{ done. }
  destruct (connect addr) as [u|e|e]; cbn [mbind result_bind].
  2:{ intros Hle. split_and!; [done..|]. cbn [ts_sent]. intros rchunks rmore late.
      apply Hrefused. rewrite !zlen_app. change (zlen (str "connect ")) with 8. change (zlen (str ": ")) with 2. lia. }
  2:{ done. }
  destruct (ctx_user cm (rc_password ctx)) as [name limits].
  destruct (begin_muxed _ _ _ _ _ _ _) as [session cm']. cbn [ts_sent ts_result]. split.
  - by exists (mkRsqRelay session addr prefix (reads post ++ more) (downlink_target_bps ctx limits)
      (uplink_target_bps ctx limits)), post.
  - intros rchunks rmore late Hr Hs. split; [|intros; by eapply client_reads_ok].
    unfold encode_tcp_ok in Hr. intros Hcut'. eapply reply_loop_cut; [| | |exact Hr|exact Hcut']; [done|done|by right].
Qed.
End Handshakes.

(** *** Witnesses *)

Definition toy_state : AppState :=
  mkAppState [str "other"; str "user-a"] 20 100 true (str "rsq-in").

#[local] Existing Instance toy_hmac.

Lemma rsq_auth_handshake_witness :
  exists ok prefix post,
    authenticate_control toy_state 1100 500 77 (fun _ => x00) 0 ∅ []
      (reads [take 40 (toy_req 1000); drop 40 (toy_req 1000) ++ str "ping"] ++ [])
    = mkAuthenticated ok false (Ok (Accepted (str "user-a") toy_caps prefix (reads post ++ [])))
        (<[toy_nonce := 500]> ∅)
    /\ prefix ++ concat post = str "ping".
Proof.
  destruct (rsq_auth_handshake toy_state (fun _ => x07) (fun _ => x00) 0 1000 (str "user-a") 100 50
    Video 1100 500 ∅ 77 (fun _ => x00) 0
    [take 40 (toy_req 1000); drop 40 (toy_req 1000) ++ str "ping"] [] (str "ping"))
    as [_ Hok];
    [set_solver|done..| | |done|done|reflexivity|].
  - done.
  - intros q Hq. set_unfold. destruct Hq as [-> | [-> | []]]; [|done]. vm_compute. congruence.
  - destruct Hok as (ok & prefix & post & Ha & He & _); [intros [|[|[|j]]]; vm_compute; congruence|].
    exists ok, prefix, post. split; [|done]. rewrite Ha. done.
Defined.

Definition toy_dest : SocketAddr := mkSocketAddr (V4 (192 * 2 ^ 24 + 2)) 443.
Definition toy_ctx : RsqRelayCtx := mkRsqRelayCtx (str "rsq-in") (str "user-a") 0 0 0 Browse.
Definition toy_open : list byte := tcp_open_request (fun _ => x00) 0 toy_dest None.

Lemma rsq_tcp_handshake_witness :
  let serve connect := handle_tcp_stream (fun _ => Err "no dns") connect (fun _ => x00) toy_ctx 9
    (reads [take 20 toy_open; drop 20 toy_open ++ str "GET"; str " /"] ++ []) (with_registry new_registry) in
  (exists relay post, ts_result (serve (fun _ => Ok tt)) = Ok (Some relay) /\ rr_dest relay = toy_dest
     /\ rr_prefix relay ++ concat post = str "GET /")
  /\ ts_result (serve (fun _ => Err "refused")) = Ok None.
Proof.
  intros serve. unfold serve.
  assert (Hcut : no_cut [take 20 toy_open; drop 20 toy_open ++ str "GET"; str " /"])
    by (intros [|[|[|[|j]]]]; vm_compute; congruence).
  assert (Hsz : Forall (fun c => zlen c <= 4096) [take 20 toy_open; drop 20 toy_open ++ str "GET"; str " /"])
    by (repeat constructor; done).
  split.
  - destruct (rsq_tcp_handshake (fun _ => Err "no dns") (fun _ => Ok tt) (fun _ => x00) (fun _ => x00) 0
      toy_ctx 9 (with_registry new_registry) toy_dest None
      [take 20 toy_open; drop 20 toy_open ++ str "GET"; str " /"] [] (str "GET /"))
      as [_ Hok]; [done|reflexivity|reflexivity|exact Hsz|].
    destruct (Hok Hcut) as [(relay & post & H1 & H2 & H3 & _) _]. exists relay, post. done.
  - destruct (rsq_tcp_handshake (fun _ => Err "no dns") (fun _ => Err "refused") (fun _ => x00) (fun _ => x00) 0
      toy_ctx 9 (with_registry new_registry) toy_dest None
      [take 20 toy_open; drop 20 toy_open ++ str "GET"; str " /"] [] (str "GET /"))
      as [_ Hok]; [done|reflexivity|reflexivity|exact Hsz|]. destruct (Hok Hcut) as [H1 _]; [done|]. exact H1.
Defined.

(** ** Copying *)

Lemma prefixed_reads_concat size : 0 < size -> forall turns prefix, (length prefix <= turns)%nat ->
  exists chunks, prefixed_reads turns size prefix = reads chunks /\ concat chunks = prefix
    /\ Forall (fun c => c <> []) chunks.
Proof.
  intros Hs. induction turns as [|turns IH]; intros [|b prefix] Hl; simpl in Hl |- *; try lia; [by exists []..|].
  destruct (Z.to_nat size) as [|k] eqn:Ek; [lia|]. cbn [take drop].
  destruct (IH (drop k prefix)) as (chunks & -> & Hc & Hf); [rewrite length_drop; lia|].
  exists ((b :: take k prefix) :: chunks). split_and!; [done| |by constructor].
  simpl. by rewrite Hc, take_drop.
Qed.

(** What a copy loop wrote is a run of whole reads from the front, and what it
    charged is what it wrote, however it ended. *)
Lemma rsq_copy_charged fuel profile r s up : forall chunks paced p now cm out cm' e,
  Forall (fun c => c <> []) chunks ->
  0 <= rt_uplink (runtime_of cm (s_user s)) -> 0 <= rt_downlink (runtime_of cm (s_user s)) ->
  charged_of (s_user s) cm + zlen (concat chunks) < 2 ^ 64 ->
  rsq_copy fuel profile r s up paced p now cm (reads chunks) = Ok (out, cm', e) ->
  charged_of (s_user s) cm' = charged_of (s_user s) cm + zlen out
  /\ exists sent rest, chunks = sent ++ rest /\ out = concat sent
  /\ (max_traffic_bytes (s_limits s) = None -> e <> CopyStuck -> rest = [] /\ e = CopyWaiting).
Proof.
  induction chunks as [|b chunks IH]; intros paced p now cm out cm' e Hf Hu Hd Hw; cbn [reads fmap list_fmap].
  { intros [= <- <- <-]. rewrite Z.add_0_r. split; [done|]. by exists [], []. }
  apply Forall_cons in Hf as [Hb Hf]. cbn [rsq_copy].
  destruct b as [|x b]; [done|]. set (buf := x :: b) in *.
  destruct (user_quota_ok cm (s_user s) (s_limits s)) as [ok cm1] eqn:Hq.
  pose proof Hq as Hq'. apply quota_ok_value in Hq as [Hok Hk].
  pose proof (zlen_nonneg (concat chunks)). pose proof (zlen_nonneg buf).
  cbn [concat] in Hw. rewrite zlen_app in Hw.
  assert (Hsame : charged_of (s_user s) cm1 = charged_of (s_user s) cm) by (unfold charged_of; by rewrite Hk).
  destruct ok; cbn [negb].
  2:{ intros [= <- <- <-]. rewrite Hsame, Z.add_0_r. split; [done|]. exists [], (buf :: chunks).
      split_and!; [done..|]. intros Hn. unfold user_quota_ok in Hq'. rewrite Hn in Hq'. done. }
  destruct (pacer_write_all _ _ _ _ _) as [[[t p']|]|?|?]; cbn [mbind result_bind]; [|..|done|done].
  2:{ intros [= <- <- <-]. rewrite Hsame, Z.add_0_r. split; [done|]. exists [], (buf :: chunks). done. }
  destruct (rsq_copy _ _ _ _ _ _ _ _ _ _) as [[[out1 cm2] e1]|?|?] eqn:Hr; cbn [mbind result_bind]; [|done..].
  intros [= <- <- <-].
  pose proof (charge_runtime s up (zlen buf) cm1 (s_user s)) as Hc.
  rewrite decide_True, Hk in Hc by done. cbv zeta in Hc. unfold u64, wrap in Hc.
  unfold charged_of in Hw |- *. rewrite !Z.mod_small in Hc by (destruct up; lia).
  apply IH in Hr as (Hch & sent & rest & -> & -> & Hall); [|done|rewrite Hc; cbn; destruct up; lia..|].
  2:{ unfold charged_of. rewrite Hc. cbn. destruct up; lia. }
  unfold charged_of in Hch. rewrite Hch, Hc. cbn [rt_uplink rt_downlink].
  rewrite app_comm_cons. fold buf. rewrite zlen_app.
  split; [destruct up; lia|]. exists (buf :: sent), rest. done.
Qed.
