(* ===== verification/RsqUdp.v ===== *)
(** * RSQ UDP sessions

    [rsq/server.rs] ([handle_udp_datagram], [relay_udp_back], the pruning of idle
    sessions), [rsq/udp_client.rs] and [rsq/udp_demux.rs].

    A UDP socket the server binds is a number; its [closed] flag, which the session
    table and the task that relays back share, is membership of a set.  Datagrams
    arrive one at a time at given instants; resolution, binding and sending are
    arguments. *)
From stdpp Require Import base tactics gmap list strings.
From Stdlib Require Import ZArith Lia.
From Stdlib Require Import Strings.Byte.
From S2P Require Import Prelude Text Ip DnsRouter RsqProtocol RsqUdpFragment RsqSession.

Local Open Scope Z_scope.

(** ** Server *)

Definition UDP_SESSION_IDLE : Z := 60 * 1000000000.

Record UdpSession := mkUdpSession {
  us_socket : nat;
  us_return_addr : list byte;
  us_relay_started : bool;
  us_last_active : Z;
}.
(** A spawned [relay_udp_back]. *)
Record BackRelay := mkBackRelay {
  br_session_id : Z;
  br_socket : nat;
  br_return_addr : list byte;
}.
Record UdpServer := mkUdpServer {
  uv_sessions : gmap Z UdpSession;
  uv_packets : UdpReassembler;
  uv_bound : nat;
  uv_closed : gset nat;
  uv_relays : list BackRelay;
}.
Definition set_sessions (u : UdpServer) (m : gmap Z UdpSession) : UdpServer :=
  mkUdpServer m (uv_packets u) (uv_bound u) (uv_closed u) (uv_relays u).
Definition set_packets (u : UdpServer) (p : UdpReassembler) : UdpServer :=
  mkUdpServer (uv_sessions u) p (uv_bound u) (uv_closed u) (uv_relays u).
Definition set_closed (u : UdpServer) (c : gset nat) : UdpServer :=
  mkUdpServer (uv_sessions u) (uv_packets u) (uv_bound u) c (uv_relays u).

(** A datagram sent: from which socket, where to, and its payload. *)
Record Sent := mkSent {
  sent_socket : nat;
  sent_to : SocketAddr;
  sent_payload : list byte;
}.

(** Every session socket is bound to [0.0.0.0:0], an IPv4 address. *)
Definition SESSION_BIND : SocketAddr := mkSocketAddr (V4 0) 0.

Section Server.
Variable resolve : list byte -> result SocketAddr.
(** [UdpSocket::bind] of an address (the socket gets the given number) and [send_to]: what
    the system says to them. *)
Variable bind : SocketAddr -> nat -> result unit.
Variable send : Sent -> result unit.

(** The session of a message, bound on first use. *)
Definition udp_session (now : Z) (msg : UdpMessage) (u : UdpServer) : result UdpSession * UdpServer :=
  match uv_sessions u !! session_id msg with
  | Some s => (Ok s, u)
  | None =>
      match context "bind udp session" (bind SESSION_BIND (uv_bound u)) with
      | Ok _ =>
          let s := mkUdpSession (uv_bound u) (addr msg) false now in
          (Ok s, mkUdpServer (<[session_id msg := s]> (uv_sessions u)) (uv_packets u)
                   (S (uv_bound u)) (uv_closed u) (uv_relays u))
      | Err e => (Err e, u)
      | Panic e => (Panic e, u)
      end
  end.

(** A complete message: its session is touched, the task that relays back is
    spawned once, the payload goes out. *)
Definition forward_message (now : Z) (msg : UdpMessage) (u : UdpServer)
  : result (option Sent) * UdpServer :=
  match context "parse udp target" (resolve (addr msg)) with
  | Err e => (Err e, u)
  | Panic e => (Panic e, u)
  | Ok target =>
      match udp_session now msg u with
      | (Err e, u) => (Err e, u)
      | (Panic e, u) => (Panic e, u)
      | (Ok s, u) =>
          let relays := if us_relay_started s then uv_relays u
                        else uv_relays u ++ [mkBackRelay (session_id msg) (us_socket s) (us_return_addr s)] in
          let s' := mkUdpSession (us_socket s) (us_return_addr s) true now in
          let u := mkUdpServer (<[session_id msg := s']> (uv_sessions u)) (uv_packets u) (uv_bound u)
                     (uv_closed u) relays in
          let d := mkSent (us_socket s) target (udp_payload msg) in
          match context "udp send" (send d) with
          | Ok _ => (Ok (Some d), u)
          | Err e => (Err e, u)
          | Panic e => (Panic e, u)
          end
      end
  end.

Definition handle_udp_datagram (now : Z) (data : list byte) (u : UdpServer)
  : result (option Sent) * UdpServer :=
  match context "decode udp message" (udp_decode data) with
  | Err e => (Err e, u)
  | Panic e => (Panic e, u)
  | Ok msg =>
      if is_udp_session_close msg then
        (Ok None,
         match uv_sessions u !! session_id msg with
         | Some s => set_closed (set_sessions u (delete (session_id msg) (uv_sessions u)))
                       ({[us_socket s]} ∪ uv_closed u)
         | None => u
         end)
      else
        match ensure_fragment_ready msg with
        | Err e => (Err e, u)
        | Panic e => (Panic e, u)
        | Ok _ =>
            match ingest now (prune_expired now (uv_packets u)) msg with
            | (Ok (Some m), packets) => forward_message now m (set_packets u packets)
            | (Ok None, packets) => (Ok None, set_packets u packets)
            | (Err e, packets) => (Err e, set_packets u packets)
            | (Panic e, packets) => (Panic e, set_packets u packets)
            end
        end
  end.

(** Datagrams in order of arrival; the connection's loop ignores errors. *)
Fixpoint serve_datagrams (frames : list (Z * list byte)) (u : UdpServer)
  : list (result (option Sent)) * UdpServer :=
  match frames with
  | [] => ([], u)
  | (now, data) :: frames =>
      let '(r, u) := handle_udp_datagram now data u in
      let '(rs, u) := serve_datagrams frames u in
      (r :: rs, u)
  end.
End Server.

(** The pruning task, every 15 seconds, and the end of the connection. *)
Definition session_active (now : Z) (s : UdpSession) : bool :=
  Z.max (now - us_last_active s) 0 <? UDP_SESSION_IDLE.
Definition prune_sessions (now : Z) (u : UdpServer) : UdpServer :=
  let idle := filter (fun kv => session_active now kv.2 = false) (uv_sessions u) in
  set_closed (set_sessions u (filter (fun kv => session_active now kv.2 = true) (uv_sessions u)))
    (list_to_set (us_socket <$> (map_to_list idle).*2) ∪ uv_closed u).
Definition end_sessions (u : UdpServer) : UdpServer :=
  set_closed (set_sessions u ∅) (list_to_set (us_socket <$> (map_to_list (uv_sessions u)).*2) ∪ uv_closed u).

(** [relay_udp_back]: each turn looks at the flag and then waits for a datagram or the
    end of the connection.  The frames sent; [send_datagram] succeeds. *)
Inductive BackEvent :=
| BRecv (payload : list byte) (from : SocketAddr)
| BRecvError (e : string)
| BConnClosed.
Fixpoint relay_udp_back (r : BackRelay) (packet_id : Z) (script : list (bool * BackEvent))
  : result (list (list byte)) :=
  match script with
  | [] => Ok []
  | (true, _) :: _ => Ok []
  | (false, BRecv payload _) :: script =>
      frames ← fragment_payload (br_session_id r) packet_id (br_return_addr r) payload;
      rest ← relay_udp_back r (wrap 16 (packet_id + 1)) script;
      Ok (frames ++ rest)
  | (false, BRecvError e) :: _ => Err "udp recv back"
  | (false, BConnClosed) :: _ => Ok []
  end.

(** ** Client *)

Definition UDP_DEMUX_QUEUE_CAP : Z := 128.

(** [UdpDemux]: the channel a session's datagrams go to, what is queued in each
    channel, how many were made, and the reassembler of the reading loop.  A channel is
    open while a session refers to it, its sender. *)
Definition Queue := list (list byte * SocketAddr).
Record UdpDemux := mkUdpDemux {
  dm_sessions : gmap Z nat;
  dm_channels : gmap nat Queue;
  dm_next : nat;
  dm_packets : UdpReassembler;
}.
Definition set_dm_sessions (d : UdpDemux) (m : gmap Z nat) : UdpDemux :=
  mkUdpDemux m (dm_channels d) (dm_next d) (dm_packets d).
Definition set_dm_channels (d : UdpDemux) (m : gmap nat Queue) : UdpDemux :=
  mkUdpDemux (dm_sessions d) m (dm_next d) (dm_packets d).
Definition set_dm_packets (d : UdpDemux) (p : UdpReassembler) : UdpDemux :=
  mkUdpDemux (dm_sessions d) (dm_channels d) (dm_next d) p.

Definition demux_new : UdpDemux := mkUdpDemux ∅ ∅ 0 ∅.
Definition demux_register (id : Z) (d : UdpDemux) : nat * UdpDemux :=
  (dm_next d, mkUdpDemux (<[id := dm_next d]> (dm_sessions d)) (<[dm_next d := []]> (dm_channels d))
                (S (dm_next d)) (dm_packets d)).
Definition demux_unregister (id : Z) (d : UdpDemux) : UdpDemux := set_dm_sessions d (delete id (dm_sessions d)).
Definition demux_clear (d : UdpDemux) : UdpDemux := set_dm_sessions d ∅.

(** [try_send] on the bounded channel of a session, if it has one. *)
Definition try_send (id : Z) (item : list byte * SocketAddr) (d : UdpDemux) : UdpDemux :=
  match dm_sessions d !! id with
  | Some c =>
      let q := default [] (dm_channels d !! c) in
      if zlen q <? UDP_DEMUX_QUEUE_CAP then set_dm_channels d (<[c := q ++ [item]]> (dm_channels d)) else d
  | None => d
  end.

Section Client.
(** [ToSocketAddrs], and the iteration order of the reassembler's map. *)
Variable to_socket_addrs : list byte -> result (list SocketAddr).
Variable next_key : UdpReassembler -> option (Z * Z).

Definition parse_addr (s : list byte) : result SocketAddr :=
  match parse_socket_addr s with
  | Some a => Ok a
  | None => addrs ← to_socket_addrs s; ok_or "resolve udp addr" (head addrs)
  end.

(** A turn of [read_loop]. *)
Definition demux_datagram (now : Z) (data : list byte) (d : UdpDemux) : UdpDemux :=
  match udp_decode data with
  | Ok msg =>
      if is_udp_session_close msg then demux_unregister (session_id msg) d
      else
        match ensure_fragment_ready msg with
        | Ok _ =>
            match ingest now (dm_packets d) msg with
            | (Ok (Some m), packets) =>
                match parse_addr (addr m) with
                | Ok a => try_send (session_id m) (udp_payload m, a) (set_dm_packets d packets)
                | _ => set_dm_packets d packets
                end
            | (Ok None, packets) =>
                set_dm_packets d (prune_stale next_key now 256 (prune_expired now packets))
            | (_, packets) => set_dm_packets d (prune_expired now packets)
            end
        | _ => d
        end
  | _ => d
  end.
Fixpoint demux_loop (frames : list (Z * list byte)) (d : UdpDemux) : UdpDemux :=
  match frames with
  | [] => d
  | (now, data) :: frames => demux_loop frames (demux_datagram now data d)
  end.
End Client.

(** [RsqUdpIo]: its session, its receiver and its packet counter. *)
Record RsqUdpIo := mkRsqUdpIo {
  io_session_id : Z;
  io_rx : nat;
  io_packet_id : Z;
}.
Definition rsq_udp_socket (id : Z) (d : UdpDemux) : RsqUdpIo * UdpDemux :=
  let '(rx, d) := demux_register id d in (mkRsqUdpIo id rx 0, d).

(** The datagrams [send_to] sends, and the bytes it reports. *)
Definition udp_send_to (io : RsqUdpIo) (buf : list byte) (target : SocketAddr)
  : result (list (list byte) * Z) * RsqUdpIo :=
  let io' := mkRsqUdpIo (io_session_id io) (io_rx io) (wrap 16 (io_packet_id io + 1)) in
  match fragment_payload (io_session_id io) (io_packet_id io) (format_address target) buf with
  | Ok frames => (Ok (frames, zlen buf), io')
  | Err e => (Err e, io')
  | Panic e => (Panic e, io')
  end.

(** [recv_from] into [size] bytes: nothing while the channel is empty and open. *)
Definition channel_open (c : nat) (d : UdpDemux) : bool :=
  existsb (fun kv => (kv.2 =? c)%nat) (map_to_list (dm_sessions d)).
Definition udp_recv_from (io : RsqUdpIo) (size : Z) (d : UdpDemux)
  : result (option (list byte * SocketAddr)) * UdpDemux :=
  match default [] (dm_channels d !! io_rx io) with
  | (payload, a) :: q =>
      (Ok (Some (take (Z.to_nat (Z.min (zlen payload) size)) payload, a)),
       set_dm_channels d (<[io_rx io := q]> (dm_channels d)))
  | [] => if channel_open (io_rx io) d then (Ok None, d) else (Err "rsq udp closed", d)
  end.

(** [Drop]: the datagram sent, and the queue removed. *)
Definition udp_io_drop (io : RsqUdpIo) (d : UdpDemux) : list byte * UdpDemux :=
  (encode_udp_session_close (io_session_id io), demux_unregister (io_session_id io) d).

(** ** One packet through the reassembler *)

Section OnePacket.
Variables (sid pid lo hi : Z).
Hypothesis Hspan : hi - lo < FRAGMENT_TTL.

Definition same_packet (msg : UdpMessage) : Prop := session_id msg = sid /\ packet_id msg = pid.

(** Assemblies of this packet were started between [lo] and [hi]. *)
Definition recent (p : UdpReassembler) : Prop :=
  forall e, p !! (sid, pid) = Some e -> exists t, started e = Some t /\ lo <= t <= hi.

Lemma ingest_fragment_view p1 p2 entry msg : same_packet msg ->
  p1 !! (sid, pid) = p2 !! (sid, pid) ->
  (ingest_fragment p1 (sid, pid) entry msg).1 = (ingest_fragment p2 (sid, pid) entry msg).1
  /\ (ingest_fragment p1 (sid, pid) entry msg).2 !! (sid, pid)
     = (ingest_fragment p2 (sid, pid) entry msg).2 !! (sid, pid).
Proof.
  intros _ Hp. unfold ingest_fragment. cbv zeta.
  repeat case_match; simplify_eq; cbn [fst snd]; rewrite ?lookup_delete_eq, ?lookup_insert_eq; done.
Qed.

Lemma ingest_view now p1 p2 msg : same_packet msg -> p1 !! (sid, pid) = p2 !! (sid, pid) ->
  (ingest now p1 msg).1 = (ingest now p2 msg).1
  /\ (ingest now p1 msg).2 !! (sid, pid) = (ingest now p2 msg).2 !! (sid, pid).
Proof.
  intros [Hs Hq] Hp. unfold ingest. cbv zeta. rewrite Hs, Hq, Hp.
  destruct (_ <=? 1); [done|]. destruct (asm_count _ =? 0); [by apply ingest_fragment_view|].
  destruct (negb _); [cbn; by rewrite !lookup_delete_eq|].
  destruct (asm_addr _); [|by apply ingest_fragment_view].
  destruct (negb _); [cbn; by rewrite !lookup_delete_eq|by apply ingest_fragment_view].
Qed.

Lemma ingest_fragment_recent p entry msg t : started entry = Some t -> lo <= t <= hi ->
  recent (ingest_fragment p (sid, pid) entry msg).2.
Proof.
  intros Ht Hr e. unfold ingest_fragment. cbv zeta.
  repeat case_match; cbn [snd]; rewrite ?lookup_delete_eq, ?lookup_insert_eq; intros [=]; subst; eauto.
Qed.

Lemma ingest_recent now p msg : same_packet msg -> lo <= now <= hi -> recent p ->
  recent (ingest now p msg).2.
Proof.
  intros [Hs Hq] Hn Hr. unfold ingest. cbv zeta. rewrite Hs, Hq.
  destruct (_ <=? 1); [done|].
  assert (He : forall e, e = default default_assembly (p !! (sid, pid)) ->
    exists t, started (match started e with None => mkPacketAssembly (fragments e) (asm_count e) (asm_addr e) (Some now)
                       | Some _ => e end) = Some t /\ lo <= t <= hi).
  { intros e ->. destruct (p !! (sid, pid)) as [e|] eqn:E; cbn [default from_option id].
    - destruct (Hr e E) as (t & Ht & Hb). rewrite Ht. eauto.
    - cbn. eauto. }
  destruct (He _ eq_refl) as (t & Ht & Hb). clear He.
  set (entry := match started _ with None => _ | Some _ => _ end) in *. clearbody entry.
  assert (Hdel : recent (delete (sid, pid) p)) by (intros e; by rewrite lookup_delete_eq).
  destruct (asm_count entry =? 0); [by apply (ingest_fragment_recent p (mkPacketAssembly _ _ _ (started entry)) msg t)|].
  pose proof (ingest_fragment_recent p entry msg t Ht Hb).
  destruct (negb _); [done|]. destruct (asm_addr entry); [|done]. by destruct (negb _).
Qed.

Lemma prune_keeps now p : lo <= now <= hi -> recent p ->
  prune_expired now p !! (sid, pid) = p !! (sid, pid).
Proof.
  intros Hn Hr. unfold prune_expired. destruct (p !! (sid, pid)) as [e|] eqn:E.
  - apply map_lookup_filter_Some. split; [done|]. destruct (Hr e E) as (t & Ht & Hb).
    unfold fragment_live. cbn [snd]. rewrite Ht. lia.
  - apply map_lookup_filter_None. by left.
Qed.

(** A datagram of this packet. *)
Definition of_packet (frame : list byte) : Prop :=
  exists m, udp_decode frame = Ok m /\ same_packet m /\ 1 <= fragment_count m.

Lemma handle_one resolve bind send now frame u p : of_packet frame -> lo <= now <= hi ->
  uv_packets u !! (sid, pid) = p !! (sid, pid) -> recent p ->
  exists q, q !! (sid, pid) = (receive now p frame).2 !! (sid, pid)
  /\ recent (receive now p frame).2
  /\ handle_udp_datagram resolve bind send now frame u
     = match (receive now p frame).1 with
       | Ok (Some m) => forward_message resolve bind send now m (set_packets u q)
       | Ok None => (Ok None, set_packets u q)
       | Err e => (Err e, set_packets u q)
       | Panic e => (Panic e, set_packets u q)
       end.
Proof.
  intros (m & Hd & Hm & Hc) Hn Hu Hr. unfold receive, handle_udp_datagram. rewrite Hd. cbn [context].
  assert (Hcl : is_udp_session_close m = false).
  { unfold is_udp_session_close. rewrite (proj2 (Z.eqb_neq _ _)) by lia. done. }
  assert (Hok : ensure_fragment_ready m = Ok tt).
  { unfold ensure_fragment_ready. by rewrite (proj2 (Z.eqb_neq _ _)) by lia. }
  rewrite Hcl, Hok.
  assert (Hpu : prune_expired now (uv_packets u) !! (sid, pid) = p !! (sid, pid)).
  { rewrite prune_keeps; [done|done|]. intros e. rewrite Hu. apply Hr. }
  destruct (ingest_view now _ _ m Hm Hpu) as [H1 H2].
  exists (ingest now (prune_expired now (uv_packets u)) m).2. split_and!; [done|by apply ingest_recent|].
  rewrite <-H1. by destruct (ingest now (prune_expired now (uv_packets u)) m) as [[[]| |] q].
Qed.

Lemma serve_packet resolve bind send msg : forall frames u p p' n,
  Forall (fun tf => lo <= tf.1 <= hi /\ of_packet tf.2) frames ->
  uv_packets u !! (sid, pid) = p !! (sid, pid) -> recent p ->
  receive_all p frames = (replicate n (Ok None) ++ [Ok (Some msg)], p') ->
  exists now q, serve_datagrams resolve bind send frames u
    = let '(r, u') := forward_message resolve bind send now msg (set_packets u q) in
      (replicate n (Ok None) ++ [r], u').
Proof.
  induction frames as [|[now frame] frames IH]; intros u p p' n Hf Hu Hr Hrun.
  { cbn in Hrun. injection Hrun as H _. by destruct n. }
  apply Forall_cons in Hf as [[Hn Hp] Hf]. cbn [receive_all serve_datagrams] in Hrun |- *.
  destruct (handle_one resolve bind send now frame u p Hp Hn Hu Hr) as (q & Hq & Hr' & ->).
  destruct (receive now p frame) as [r p1] eqn:E. cbn [fst snd] in *.
  destruct (receive_all p1 frames) as [rs p2] eqn:E2. destruct n as [|n]; cbn [replicate app] in Hrun.
  - injection Hrun as -> Hrs ->. destruct frames; [|by destruct p0; cbn in E2; repeat case_match; simplify_eq].
    exists now, q. cbn [serve_datagrams]. by destruct (forward_message _ _ _ _ _ _).
  - injection Hrun as -> Hrs ->. subst rs.
    destruct (IH (set_packets u q) p1 p' n Hf Hq Hr' E2) as (now' & q' & ->).
    exists now', q'. by destruct (forward_message _ _ _ _ _ _).
Qed.
End OnePacket.

(** ** End to end *)

Lemma digits_length radix fuel : forall v acc,
  (length (digits_go radix fuel v acc) <= fuel + length acc)%nat.
Proof.
  induction fuel as [|fuel IH]; intros v acc; cbn [digits_go]; [lia|].
  case_match; [cbn; lia|]. etrans; [apply IH|]. cbn. lia.
Qed.
Lemma join_length sep k l : Forall (fun x => length x <= k)%nat l ->
  (length (join sep l) <= (k + 1) * length l)%nat.
Proof.
  induction 1 as [|x l Hx _ IH]; [cbn; lia|]. destruct l as [|y l]; [cbn; lia|].
  change (join sep (x :: y :: l)) with (x ++ sep :: join sep (y :: l)).
  rewrite length_app. cbn [length] in *. lia.
Qed.
Lemma shown_length f l : (forall v : Z, length (f v) <= 40)%nat -> (length (join x3a (map f l)) <= 41 * length l)%nat
  /\ (length (join x2e (map f l)) <= 41 * length l)%nat.
Proof.
  intros Hf. assert (H : Forall (fun x => length x <= 40)%nat (map f l))
    by (apply Forall_fmap, Forall_true; intros; apply Hf).
  split; (etrans; [by apply (join_length _ 40)|]; rewrite length_map; lia).
Qed.

Lemma show_ip_length ip : (length (show_ip ip) <= 1000)%nat.
Proof.
  assert (Hd : forall r v, (length (digits_go r 40 v []) <= 40)%nat)
    by (intros; etrans; [apply digits_length|cbn; lia]).
  assert (H4 : forall a, (length (show_ipv4 a) <= 164)%nat)
    by (intros a; exact (proj2 (shown_length show_uint (octets4 a) (Hd 10)))).
  destruct ip as [a|a]; cbn [show_ip]; [specialize (H4 a); lia|].
  unfold show_ipv6. destruct (to_ipv4_mapped a) as [v|].
  { rewrite length_app. specialize (H4 v). cbn [length str]. change (length (str "::ffff:")) with 7%nat. lia. }
  assert (Hs : forall l, (length l <= 8 -> length (join x3a (map show_hex l)) <= 328)%nat).
  { intros l Hl. etrans; [exact (proj1 (shown_length show_hex l (Hd 16)))|]. lia. }
  destruct (zero_run _ _ _ _) as [st len]. case_match.
  - rewrite !length_app. change (length (str "::")) with 2%nat.
    pose proof (Hs (take st (segments a))) as H1. pose proof (Hs (drop (st + len) (segments a))) as H2.
    rewrite length_take in H1. rewrite length_drop in H2. change (length (segments a)) with 8%nat in *. lia.
  - specialize (Hs (segments a)). change (length (segments a)) with 8%nat in *. lia.
Qed.

Lemma format_address_text a : sa_wf a ->
  utf8_valid (format_address a) = true /\ zlen (format_address a) < 2 ^ 62.
Proof.
  intros [Hip Hp]. split.
  - apply utf8_ascii.
    assert (Hi : Forall (fun b => bz b < 128) (show_ip (sa_ip a))).
    { eapply Forall_impl; [apply show_ip_chars|]. intros b [H|H]; lia. }
    assert (Hport : Forall (fun b => bz b < 128) (show_uint (sa_port a))).
    { pose (f p := forallb (fun b => bz b <? 128) (show_uint p)).
      assert (Hf : f (sa_port a) = true).
      { apply (all_below_spec (256 * 256) f 0); [by vm_compute|]. unfold in_u16 in Hp. lia. }
      unfold f in Hf. rewrite forallb_forall in Hf. apply Forall_forall.
      intros b Hb%list_elem_of_In%Hf. by apply Z.ltb_lt. }
    unfold format_address. destruct (sa_ip a); rewrite !Forall_app; split_and!; try done;
      repeat constructor.
  - pose proof (show_ip_length (sa_ip a)) as Hi.
    assert (Hd : (length (show_uint (sa_port a)) <= 40)%nat) by (etrans; [apply digits_length|cbn; lia]).
    unfold format_address, zlen. change (2 ^ 62) with 4611686018427387904.
    destruct (sa_ip a); rewrite !length_app; cbn [length str];
      change (length (str ":")) with 1%nat; change (length (str "[")) with 1%nat;
      change (length (str "]:")) with 2%nat; lia.
Qed.

Section EndToEnd.
Variable lookup_host : list byte -> result (list SocketAddr).
Variables (bind : SocketAddr -> nat -> result unit) (send : Sent -> result unit).

Definition socket_of (u : UdpServer) (sid : Z) : nat :=
  match uv_sessions u !! sid with Some s => us_socket s | None => uv_bound u end.
(** What binding the socket of a session says: nothing is bound for one that has its socket. *)
Definition session_bound (u : UdpServer) (sid : Z) : result unit :=
  match uv_sessions u !! sid with Some _ => Ok tt | None => bind SESSION_BIND (uv_bound u) end.

Lemma forward_outcome now msg u target : resolve_target lookup_host (addr msg) = Ok target ->
  let d := mkSent (socket_of u (session_id msg)) target (udp_payload msg) in
  exists u', forward_message (resolve_target lookup_host) bind send now msg u
    = (_ ← context "bind udp session" (session_bound u (session_id msg)); _ ← context "udp send" (send d); Ok (Some d), u')
  /\ (session_bound u (session_id msg) = Ok tt -> exists s, uv_sessions u' !! session_id msg = Some s /\ us_relay_started s = true
     /\ us_socket s = socket_of u (session_id msg)).
Proof.
  intros Hres d. unfold forward_message. rewrite Hres. cbn [context]. unfold udp_session, socket_of, session_bound in *.
  destruct (uv_sessions u !! session_id msg) as [s|] eqn:Es.
  - cbn [context mbind result_bind]. fold d. destruct (send d); cbn [context mbind result_bind]; eexists; (split; [done|]);
      intros _; cbn [uv_sessions]; rewrite lookup_insert_eq; by eexists.
  - destruct (bind SESSION_BIND (uv_bound u)) as [[]|e|e]; cbn [context mbind result_bind]; [|by eexists..].
    cbn [us_socket us_relay_started]. fold d. destruct (send d); cbn [context mbind result_bind]; eexists; (split; [done|]);
      intros _; cbn [uv_sessions]; rewrite lookup_insert_eq; by eexists.
Qed.
End EndToEnd.

(** C6.  A datagram through RSQ is handed to the network once.  The datagrams [send_to] makes
    of a buffer of at most MAX_UDP_PAYLOAD bytes, arriving in any order within five seconds at
    a server that is not already assembling that packet, make it call [send_to] once, with the
    buffer and the target, on the socket of that session, which on first use it binds to
    [0.0.0.0:0]; nothing is sent before the last of them.  What the system says to binding
    and sending is the outcome (it refuses an IPv6 target on that socket and a payload above
    65507 bytes); once the socket is bound, the task that relays back is running. *)
Theorem rsq_udp_delivered lookup_host bind send io buf target u :
  in_u32 (io_session_id io) -> in_u16 (io_packet_id io) -> sa_wf target ->
  zlen buf <= MAX_UDP_PAYLOAD -> uv_packets u !! (io_session_id io, io_packet_id io) = None ->
  let d := mkSent (socket_of u (io_session_id io)) target buf in
  let bound := session_bound bind u (io_session_id io) in
  exists frames, (udp_send_to io buf target).1 = Ok (frames, zlen buf)
  /\ forall frames' times start, frames' ≡ₚ frames -> length times = length frames' ->
     Forall (fun t => start <= t < start + FRAGMENT_TTL) times ->
     exists u', serve_datagrams (resolve_target lookup_host) bind send (zip times frames') u
       = (replicate (length frames' - 1) (Ok None)
            ++ [_ ← context "bind udp session" bound; _ ← context "udp send" (send d); Ok (Some d)], u')
     /\ (bound = Ok tt -> exists s, uv_sessions u' !! io_session_id io = Some s /\ us_relay_started s = true
         /\ us_socket s = socket_of u (io_session_id io)).
Proof.
  intros Hsid Hpid Ht Hlen Hnone d bound.
  destruct (format_address_text target Ht) as [Hutf Hal].
  unfold udp_send_to.
  pose proof (fragment_payload_bounds (io_session_id io) (io_packet_id io) (format_address target) buf
    Hsid Hpid Hutf Hal) as Hb.
  destruct (fragment_payload _ _ _ _) as [frames|e|e] eqn:Hfp; [|lia|done].
  exists frames. split; [done|]. intros frames' times start Hperm Hl Htimes.
  pose proof (fragments_reassemble _ _ _ buf frames frames' times (uv_packets u)
    Hsid Hpid Hutf Hal Hfp Hperm Hl Hnone) as Hrun.
  destruct Hb as (_ & Hcnt & Hdec).
  assert (Hof : Forall (fun tf => start <= tf.1 <= start + FRAGMENT_TTL - 1
    /\ of_packet (io_session_id io) (io_packet_id io) tf.2) (zip times frames')).
  { apply Forall_forall. intros [t f] Hin. cbn [fst snd].
    assert (Hint : t ∈ times /\ f ∈ frames').
    { apply list_elem_of_lookup in Hin as [k Hk]. apply lookup_zip_Some in Hk as [H1 H2].
      split; by eapply list_elem_of_lookup_2. }
    destruct Hint as [Hint Hinf]. rewrite Forall_forall in Htimes. pose proof (Htimes t Hint).
    rewrite Hperm in Hinf. destruct (Hdec f Hinf) as (m & Hm & H1 & H2 & _ & _ & _ & Hc).
    split; [lia|]. exists m. split_and!; [done|done|lia]. }
  assert (Hrec : recent (io_session_id io) (io_packet_id io) start (start + FRAGMENT_TTL - 1) (uv_packets u))
    by (intros e; by rewrite Hnone).
  destruct (serve_packet (io_session_id io) (io_packet_id io) start (start + FRAGMENT_TTL - 1)
    ltac:(lia) (resolve_target lookup_host) bind send _ _ u _ _ _ Hof eq_refl Hrec Hrun) as (now & q & ->).
  destruct (forward_outcome lookup_host bind send now
    (mkUdpMessage (io_session_id io) (io_packet_id io) 0 1 (format_address target) buf)
    (set_packets u q) target) as (u' & -> & Hs); [by apply resolve_format|].
  by exists u'.
Qed.

Definition toy_io : RsqUdpIo := mkRsqUdpIo 5 0 9.
Definition toy_target : SocketAddr := mkSocketAddr (V4 16843009) 53.
Definition new_server : UdpServer := mkUdpServer ∅ ∅ 0 ∅ [].

Lemma rsq_udp_delivered_witness :
  exists frames, (udp_send_to toy_io (repeat x2a (Z.to_nat 1500)) toy_target).1 = Ok (frames, 1500)
  /\ exists u' s, serve_datagrams (resolve_target (fun _ => Err "no dns")) (fun _ _ => Ok tt) (fun _ => Ok tt)
       (zip [7; 3] (rev frames)) new_server
     = ([Ok None; Ok (Some (mkSent 0 toy_target (repeat x2a (Z.to_nat 1500))))], u')
     /\ uv_sessions u' !! 5 = Some s.
Proof.
  destruct (rsq_udp_delivered (fun _ => Err "no dns") (fun _ _ => Ok tt) (fun _ => Ok tt) toy_io
    (repeat x2a (Z.to_nat 1500)) toy_target new_server) as (frames & Hs & Hd);
    [done|done|done|vm_compute; congruence|done|].
  assert (Hl : length frames = 2%nat).
  { unfold udp_send_to in Hs. destruct (fragment_payload _ _ _ _) as [fs|?|?] eqn:E; [|done..].
    injection Hs as <-. vm_compute in E. by injection E as <-. }
  exists frames. split; [exact Hs|].
  destruct (Hd (rev frames) [7; 3] 0) as (u' & Hrun & Hses).
  - apply Permutation_sym, Permutation_rev.
  - by rewrite length_rev, Hl.
  - repeat constructor; vm_compute; congruence.
  - destruct (Hses eq_refl) as (s & Hs' & _). exists u', s. rewrite Hrun, length_rev, Hl. done.
Defined.

(** ** Replies *)

(** A payload of one fragment. *)
Definition single (sid pid : Z) (a payload : list byte) : UdpMessage := mkUdpMessage sid pid 0 1 a payload.

Lemma single_wf sid pid t payload : in_u32 sid -> in_u16 pid -> sa_wf t ->
  udp_wf (single sid pid (format_address t) payload).
Proof.
  intros Hs Hp Ht. destruct (format_address_text t Ht). unfold udp_wf, single, in_u8. cbn.
  split_and!; (done || lia).
Qed.

Lemma single_fragment sid pid a payload : zlen payload <= MAX_FRAGMENT_PAYLOAD ->
  fragment_payload sid pid a payload = Ok [udp_encode (single sid pid a payload) []].
Proof. intros H. unfold fragment_payload. by rewrite (proj2 (Z.leb_le _ _)) by done. Qed.

Lemma handle_single resolve bind send now sid pid t payload u :
  in_u32 sid -> in_u16 pid -> sa_wf t ->
  handle_udp_datagram resolve bind send now (udp_encode (single sid pid (format_address t) payload) []) u
  = forward_message resolve bind send now (single sid pid (format_address t) payload)
      (set_packets u (prune_expired now (uv_packets u))).
Proof.
  intros Hs Hp Ht. unfold handle_udp_datagram. by rewrite udp_decode_encode by (by apply single_wf).
Qed.

Lemma demux_single to_addrs next_key now sid pid t payload d : in_u32 sid -> in_u16 pid -> sa_wf t ->
  demux_datagram to_addrs next_key now (udp_encode (single sid pid (format_address t) payload) []) d
  = try_send sid (payload, t) (set_dm_packets d (dm_packets d)).
Proof.
  intros Hs Hp Ht. unfold demux_datagram. rewrite udp_decode_encode by (by apply single_wf).
  cbn. unfold parse_addr. by rewrite parse_format_address.
Qed.

(** Replies carry the wrong address.  A client socket sends to two targets; the
    server sends both datagrams from one socket; whatever arrives there, from the
    second target or from anyone else, is handed to the client's [recv_from] as
    coming from the first. *)
Theorem udp_reply_label lookup_host bind send to_addrs next_key sid first second a b now now' u reply
    from d0 :
  in_u32 sid -> sa_wf first -> sa_wf second ->
  (forall a n, bind a n = Ok tt) -> (forall x, send x = Ok tt) -> uv_sessions u !! sid = None ->
  zlen a <= MAX_FRAGMENT_PAYLOAD -> zlen b <= MAX_FRAGMENT_PAYLOAD ->
  zlen reply <= MAX_FRAGMENT_PAYLOAD ->
  let '(io, d) := rsq_udp_socket sid d0 in
  let '(r1, io) := udp_send_to io a first in
  let '(r2, io) := udp_send_to io b second in
  exists f1 f2 u' r frames,
    r1 = Ok ([f1], zlen a) /\ r2 = Ok ([f2], zlen b)
    /\ serve_datagrams (resolve_target lookup_host) bind send [(now, f1); (now', f2)] u
       = ([Ok (Some (mkSent (uv_bound u) first a)); Ok (Some (mkSent (uv_bound u) second b))], u')
    /\ last (uv_relays u') = Some r /\ br_socket r = uv_bound u
    /\ relay_udp_back r 0 [(false, BRecv reply from)] = Ok frames
    /\ (udp_recv_from io 65535 (demux_loop to_addrs next_key (map (pair now') frames) d)).1
       = Ok (Some (reply, first)).
Proof.
  intros Hsid Hf Hs Hbind Hsend Hnew Ha Hb Hr. unfold rsq_udp_socket, demux_register, udp_send_to.
  cbn [io_session_id io_packet_id io_rx]. change (wrap 16 (0 + 1)) with 1.
  rewrite !single_fragment by done.
  eexists _, _, _, _, _. split; [done|]. split; [done|]. split.
  { cbn [serve_datagrams io_session_id io_packet_id]. rewrite handle_single by done. unfold forward_message.
    cbn [single addr session_id udp_payload]. rewrite resolve_format by done. cbn [context].
    unfold udp_session. cbn [single session_id addr set_packets uv_sessions uv_bound uv_closed uv_relays].
    rewrite Hnew, Hbind. cbn [context uv_sessions us_socket us_return_addr us_relay_started uv_packets
      uv_bound uv_closed uv_relays]. rewrite Hsend. cbn [context].
    rewrite handle_single by done. unfold forward_message.
    cbn [single addr session_id udp_payload]. rewrite resolve_format by done. cbn [context].
    unfold udp_session. cbn [single session_id set_packets uv_sessions uv_packets uv_bound uv_closed uv_relays].
    rewrite lookup_insert_eq. cbn [us_socket us_return_addr us_relay_started].
    rewrite Hsend. cbn [context]. done. }
  cbn [uv_relays]. split; [apply last_snoc|]. split; [done|]. split.
  { cbn [relay_udp_back br_session_id br_return_addr]. rewrite single_fragment by done.
    cbn [mbind result_bind app]. done. }
  cbn [map demux_loop]. rewrite demux_single by done. unfold try_send.
  cbn [set_dm_packets dm_sessions dm_channels dm_packets]. rewrite !lookup_insert_eq.
  cbn [default from_option id]. change (zlen [] <? UDP_DEMUX_QUEUE_CAP) with true. cbv iota.
  unfold udp_recv_from. cbn [set_dm_channels dm_channels io_rx]. rewrite lookup_insert_eq.
  cbn [default from_option id app fst]. rewrite take_ge; [done|].
  unfold MAX_FRAGMENT_PAYLOAD, zlen in *. lia.
Qed.

Lemma udp_reply_label_witness :
  let second := mkSocketAddr (V4 134744072) 443 in
  let '(io, d) := rsq_udp_socket 5 demux_new in
  let '(r1, io) := udp_send_to io (str "query") toy_target in
  let '(r2, io) := udp_send_to io (str "hello") second in
  exists f1 f2 u' r frames,
    r1 = Ok ([f1], 5) /\ r2 = Ok ([f2], 5)
    /\ serve_datagrams (resolve_target (fun _ => Err "no dns")) (fun _ _ => Ok tt) (fun _ => Ok tt)
         [(1, f1); (2, f2)] new_server
       = ([Ok (Some (mkSent 0 toy_target (str "query"))); Ok (Some (mkSent 0 second (str "hello")))], u')
    /\ relay_udp_back r 0 [(false, BRecv (str "reply") second)] = Ok frames
    /\ (udp_recv_from io 65535 (demux_loop (fun _ => Err "no dns") (fun _ => None) (map (pair 2) frames) d)).1
       = Ok (Some (str "reply", toy_target)).
Proof.
  destruct (udp_reply_label (fun _ => Err "no dns") (fun _ _ => Ok tt) (fun _ => Ok tt) (fun _ => Err "no dns")
    (fun _ => None) 5 toy_target (mkSocketAddr (V4 134744072) 443) (str "query") (str "hello") 1 2 new_server
    (str "reply") (mkSocketAddr (V4 134744072) 443) demux_new)
    as (f1 & f2 & u' & r & frames & H1 & H2 & H3 & _ & _ & H4 & H5);
    [done..|vm_compute; congruence|vm_compute; congruence|vm_compute; congruence|].
  exists f1, f2, u', r, frames. split_and!; [exact H1|exact H2|exact H3|exact H4|exact H5].
Defined.

(** *** Queues stay bounded *)

Definition queues_bounded (d : UdpDemux) : Prop :=
  forall c q, dm_channels d !! c = Some q -> zlen q <= UDP_DEMUX_QUEUE_CAP.

Lemma try_send_bounded id item d : queues_bounded d -> queues_bounded (try_send id item d).
Proof.
  intros Hb. unfold try_send. destruct (dm_sessions d !! id) as [c|]; [|done].
  destruct (Z.ltb_spec (zlen (default [] (dm_channels d !! c))) UDP_DEMUX_QUEUE_CAP) as [Hl|]; [|done].
  intros c' q. cbn [set_dm_channels dm_channels]. rewrite lookup_insert_Some.
  intros [[_ <-] | [_ Hq]]; [|by eapply Hb]. rewrite zlen_app. change (zlen [item]) with 1. lia.
Qed.

(** Whatever arrives, no session queues more than 128 datagrams. *)
Lemma demux_bounded to_addrs next_key frames : forall d, queues_bounded d ->
  queues_bounded (demux_loop to_addrs next_key frames d).
Proof.
  induction frames as [|[now data] frames IH]; intros d Hb; [done|]. cbn [demux_loop]. apply IH.
  unfold demux_datagram. destruct (udp_decode data) as [m|?|?]; [|done..].
  destruct (is_udp_session_close m); [done|]. destruct (ensure_fragment_ready m); [|done..].
  destruct (ingest now (dm_packets d) m) as [[[m'|]|?|?] packets]; [|done..].
  destruct (parse_addr to_addrs (addr m')); [|done..]. by apply try_send_bounded.
Qed.
