(* ===== verification/Hysteria.v ===== *)
(** * RST and Hysteria2

    The two protocols that authenticate with an HTTP/3 request and then relay over
    the same QUIC connection: [rst/] and [hysteria2/] ([auth.rs], [protocol.rs],
    [relay.rs], [server.rs], [client.rs], [udp_client.rs]).  Their [protocol.rs] are
    the same file, and the rest differs in names and in the points [Flavour] lists.

    HTTP/3 carries requests and responses unchanged.  The [http] crate's header
    values are the class [HttpHeader]; varints and UDP messages are those of
    [RsqProtocol], whose source the two [protocol.rs] repeat. *)
From stdpp Require Import base tactics gmap list strings relations.
From Stdlib Require Import ZArith Lia.
From Stdlib Require Import Strings.Byte.
From S2P Require Import Prelude Json Text Ip Dest DnsRouter RateLimit Users Connections Relay.
From S2P Require Import RsqTraffic RsqProtocol RsqAuth RsqControl RsqSession RsqUdp.

Local Open Scope Z_scope.

(** ** Wire format *)

Definition TCP_REQUEST_ID : Z := 1025.
Definition TCP_STATUS_OK : byte := x00.
Definition TCP_STATUS_ERROR : byte := x01.

Definition padding_section (rnd : nat -> byte) (padding_len : Z) : list byte :=
  if 0 <? padding_len then fill_bytes rnd (Z.to_nat padding_len) else [].

Definition encode_tcp_request (rnd : nat -> byte) (addr : list byte) (padding_len : Z) : list byte :=
  let buf := write_varint [] TCP_REQUEST_ID in
  let buf := write_varint buf (zlen addr) in
  let buf := buf ++ addr in
  write_varint buf padding_len ++ padding_section rnd padding_len.

(** [buf.copy_to_bytes(n)] and [buf.advance(n)] behind their length tests. *)
Definition copy_to_bytes (err : string) (n : Z) (buf : list byte) : result (list byte * list byte) :=
  if zlen buf <? n then Err err else Ok (take (Z.to_nat n) buf, drop (Z.to_nat n) buf).

Definition decode_tcp_request (buf : list byte) : result (list byte * list byte) :=
  '(id, buf) ← read_varint buf;
  if negb (id =? TCP_REQUEST_ID) then Err "unexpected message id"
  else
    '(addr_len, buf) ← read_varint buf;
    '(addr_bytes, buf) ← copy_to_bytes "truncated address" addr_len buf;
    addr ← context "address utf8" (from_utf8 addr_bytes);
    '(pad_len, buf) ← read_varint buf;
    '(_, buf) ← copy_to_bytes "truncated padding" pad_len buf;
    Ok (addr, buf).

Definition encode_tcp_response (rnd : nat -> byte) (ok : bool) (message : list byte) (padding_len : Z)
  : list byte :=
  let buf := [if ok then TCP_STATUS_OK else TCP_STATUS_ERROR] in
  let buf := write_varint buf (zlen message) ++ message in
  write_varint buf padding_len ++ padding_section rnd padding_len.

Definition decode_tcp_response (buf : list byte) : result (bool * list byte * list byte) :=
  match buf with
  | [] => Err "truncated tcp response"
  | status :: buf =>
      '(msg_len, buf) ← read_varint buf;
      '(msg_bytes, buf) ← copy_to_bytes "truncated message" msg_len buf;
      message ← context "message utf8" (from_utf8 msg_bytes);
      '(pad_len, buf) ← read_varint buf;
      '(_, buf) ← copy_to_bytes "truncated padding" pad_len buf;
      Ok (bool_decide (status = TCP_STATUS_OK), message, buf)
  end.

(** The response, if complete, and the buffer left. *)
Definition try_decode_tcp_response (buf : list byte) : result (option (bool * list byte) * list byte) :=
  match buf with
  | [] => Ok (None, buf)
  | _ =>
      match decode_tcp_response buf with
      | Ok (ok, message, rest) => Ok (Some (ok, message), rest)
      | Err e => if str_contains e "truncated" then Ok (None, buf) else Err e
      | Panic e => Panic e
      end
  end.

(** ** Authentication *)

(** Where the two protocols differ. *)
Record Flavour := mkFlavour {
  fl_name : string;
  fl_authority : list byte;
  fl_auth_header : list byte;
  fl_rx_header : list byte;
  fl_udp_header : list byte;
  fl_padding_header : list byte;
  fl_guards_destination : bool;
  fl_answers_connect_errors : bool;
}.
Definition rst : Flavour :=
  mkFlavour "rst" (str "rst") (str "rst-auth") (str "rst-cc-rx") (str "rst-udp") (str "rst-padding") true true.
Definition hysteria2 : Flavour :=
  mkFlavour "hysteria2" (str "hysteria") (str "hysteria-auth") (str "hysteria-cc-rx") (str "hysteria-udp")
    (str "hysteria-padding") false false.

(** [HeaderValue]: made from text, which may be refused, and read back as text,
    which succeeds on visible ASCII only. *)
Definition visible_ascii (s : list byte) : Prop := Forall (fun b => 32 <= bz b < 127) s.
Class HttpHeader := {
  HeaderValue : Type;
  header_from_str : list byte -> option HeaderValue;
  header_to_str : HeaderValue -> option (list byte);
  header_visible s : visible_ascii s -> exists v, header_from_str s = Some v /\ header_to_str v = Some s;
  header_text v s : header_to_str v = Some s -> Forall (fun b => bz b < 128) s;
}.

Section Auth.
Context `{HttpHeader}.

Abbreviation HeaderMap := (gmap (list byte) HeaderValue).





(** [random_padding]: letters; the draws are an argument. *)
Definition random_padding (draw : nat -> byte) (len : nat) : list byte :=
  map (fun i => u8 (97 + bz (draw i) `mod` 26)) (seq 0 len).





End Auth.

(** ** TCP streams *)

Record H3RelayCtx := mkH3RelayCtx {
  hc_inbound_tag : list byte;
  hc_password : list byte;
  hc_server_down_mbps : Z;
  hc_allow_private : bool;
}.

(** [speed_bps]. *)
Definition ctx_speed_bps (ctx : H3RelayCtx) (limits : UserLimits) : option Z :=
  match positive (speed_bps limits) with
  | Some v => Some v
  | None =>
      if 0 <? hc_server_down_mbps ctx then Some (hc_server_down_mbps ctx * MBPS_TO_BPS) else None
  end.

(** An open stream: the session, the destination, the reads to come and the limiter
    both directions share. *)
Record H3Relay := mkH3Relay {
  hr_session : UserRelaySession;
  hr_dest : SocketAddr;
  hr_script : list ReadEvent;
  hr_limiter : option Z;
}.
Record H3Served := mkH3Served {
  hs_sent : list byte;
  hs_result : result (option H3Relay);
  hs_cm : ConnectionManager;
}.

Section Streams.
Variable fl : Flavour.
Variable lookup_host : list byte -> result (list SocketAddr).
Variable connect : SocketAddr -> result unit.
Variable rnd : nat -> byte.

(** [resolve_target]. *)
Definition h3_resolve_target (target : list byte) : result SocketAddr :=
  match parse_socket_addr target with
  | Some a => Ok a
  | None =>
      addrs ← context ("resolve " +:+ fl_name fl +:+ " target") (lookup_host target);
      ok_or ("no addresses for " +:+ String.string_of_list_byte target) (head addrs)
  end.

(** [handle_tcp_stream] on the target of a request and what its stream still holds. *)
Definition serve_target (ctx : H3RelayCtx) (now : Z) (target : list byte) (script : list ReadEvent)
    (cm : ConnectionManager) : H3Served :=
  match h3_resolve_target target with
  | Err e => mkH3Served [] (Err e) cm
  | Panic e => mkH3Served [] (Panic e) cm
  | Ok addr =>
      if fl_guards_destination fl && is_forbidden_dest addr (hc_allow_private ctx) then
        mkH3Served (encode_tcp_response rnd false (str "destination forbidden") 0) (Ok None) cm
      else
        match connect addr with
        | Err e =>
            if fl_answers_connect_errors fl then
              mkH3Served (encode_tcp_response rnd false (str "connect: " ++ str e) 0) (Ok None) cm
            else mkH3Served [] (Err ("connect " +:+ String.string_of_list_byte target)) cm
        | Panic e => mkH3Served [] (Panic e) cm
        | Ok _ =>
            let '(user_name, limits) := ctx_user cm (hc_password ctx) in
            let '(session, cm) := begin_muxed cm now (hc_inbound_tag ctx) user_name limits (Some addr) None in
            let '(limiter, cm) := user_limiter cm user_name (ctx_speed_bps ctx limits) in
            mkH3Served (encode_tcp_response rnd true (str "ok") 0)
              (Ok (Some (mkH3Relay session addr script limiter))) cm
        end
  end.

(** One read of up to 4096 bytes must hold the request. *)
Definition h3_handle_tcp_stream (ctx : H3RelayCtx) (now : Z) (script : list ReadEvent) (cm : ConnectionManager)
  : H3Served :=
  match script with
  | RData chunk :: script =>
      match context "decode tcp request" (decode_tcp_request chunk) with
      | Ok (target, _) => serve_target ctx now target script cm
      | Err e => mkH3Served [] (Err e) cm
      | Panic e => mkH3Served [] (Panic e) cm
      end
  | REof :: _ => mkH3Served [] (Err "stream closed before request") cm
  | RError _ :: _ => mkH3Served [] (Err "read tcp request") cm
  | RTimeout :: _ | [] => mkH3Served [] (Ok None) cm
  end.
End Streams.

Definition rst_handle_tcp_stream := h3_handle_tcp_stream rst.
Definition hy2_handle_tcp_stream := h3_handle_tcp_stream hysteria2.

(** The two copy loops of an open stream, each run alone: the loops of
    [relay_user_half], with the buffers their reader returns up to its end. *)
Definition copy_recv_to_tcp (fuel : nat) (s : UserRelaySession) (lim : option RateLimiter) (now : Z)
    (cm : ConnectionManager) (chunks : list (list byte)) : result (option (list byte * ConnectionManager)) :=
  relay_user_half fuel s true lim now cm chunks.
Definition copy_tcp_to_send (fuel : nat) (s : UserRelaySession) (lim : option RateLimiter) (now : Z)
    (cm : ConnectionManager) (chunks : list (list byte)) : result (option (list byte * ConnectionManager)) :=
  relay_user_half fuel s false lim now cm chunks.

(** [read_tcp_response]: whether the request was granted, what was read behind the
    answer, and the reads to come. *)
Inductive ResponseRead :=
| Responded (ok : bool) (prefix : list byte) (script : list ReadEvent)
| ResponseWaiting (buf : list byte).

Section Client.
Variable fl : Flavour.

Fixpoint read_tcp_response (buf : list byte) (script : list ReadEvent) : result ResponseRead :=
  '(o, buf) ← try_decode_tcp_response buf;
  match o with
  | Some (ok, _) => Ok (Responded ok buf script)
  | None =>
      match script with
      | [] => Ok (ResponseWaiting buf)
      | REof :: _ => Err (fl_name fl +:+ ": stream closed before tcp response")
      | RError e :: _ => Err e
      | RTimeout :: _ => Err (fl_name fl +:+ ": read tcp response timeout")
      | RData chunk :: script =>
          if 8192 <? zlen (buf ++ chunk) then Err (fl_name fl +:+ ": tcp response too large")
          else read_tcp_response (buf ++ chunk) script
      end
  end.

(** [dial_tcp_inner] on an open stream: what it writes, and what it makes of the answer. *)
Definition h3_open_request (rnd : nat -> byte) (r : Z) (destination : SocketAddr)
    (domain : option (list byte)) : list byte :=
  encode_tcp_request rnd (dial_target destination domain) (random_pad_len r 64 512).
Definition h3_open_reply (script : list ReadEvent) : result ResponseRead :=
  r ← read_tcp_response [] script;
  match r with
  | Responded false _ _ => Err (fl_name fl +:+ " tcp request rejected")
  | _ => Ok r
  end.
End Client.

(** *** Retry *)

Definition WEDGE_REBUILD_AFTER : Z := 2.
Definition says (err : list byte) (pats : list string) : bool :=
  existsb (fun p => contains (to_ascii_lowercase err) (str p)) pats.
Definition is_timeout_like (err : list byte) : bool :=
  says err ["timeout"; "timed out"; "time out"; "dial queue"; "saturated"].
Definition should_reset_hy2_session (err : list byte) : bool :=
  says err ["auth failed"; "quic connect"; "hysteria2: quic connect timeout"; "h3 connection closed";
            "connection lost"; "connection closed"; "application closed";
            "timed out waiting for connection"].

(** [dial_tcp] of RST around the outcome of its first attempt ([None] for success),
    told whether the session is dead: the counter of timeouts, and what it does. *)
Inductive DialNext := Connected | GiveUp (err : list byte) | RebuildAndRetry | RetryOnly.
Definition rst_dial_next (timeouts : Z) (dead : bool) (first : option (list byte)) : Z * DialNext :=
  match first with
  | None => (0, Connected)
  | Some err =>
      if dead then (0, RebuildAndRetry)
      else if negb (is_timeout_like err) then (timeouts, GiveUp err)
      else
        let n := wrap 32 (timeouts + 1) in
        if n <? WEDGE_REBUILD_AFTER then (n, GiveUp err) else (0, RebuildAndRetry)
  end.
Definition hy2_dial_next (first : option (list byte)) : DialNext :=
  match first with
  | None => Connected
  | Some err => if should_reset_hy2_session err then RebuildAndRetry else RetryOnly
  end.

(** *** Port hopping *)

(** [next_port_for]; [draw] is the number [random_range] returns. *)
Definition next_port_for (port : Z) (port_start port_end : option Z) (draw : Z) : result Z :=
  match port_start, port_end with
  | Some start, Some end_ =>
      if start =? end_ then Ok start
      else if end_ <? start then Panic "cannot sample empty range"
      else Ok draw
  | _, _ => Ok port
  end.

(** ** UDP *)

(** [ensure_fragment_ready]. *)
Definition h3_ensure_fragment_ready (msg : UdpMessage) : result unit :=
  if fragment_count msg =? 1 then Ok tt else Err "udp fragmentation is not supported yet".

Record H3UdpSession := mkH3UdpSession {
  hu_socket : nat;
  hu_return_addr : list byte;
  hu_relay_started : bool;
}.
Record H3UdpServer := mkH3UdpServer {
  hv_sessions : gmap Z H3UdpSession;
  hv_bound : nat;
  hv_relays : list BackRelay;
}.

Section UdpServer.
Variable resolve : list byte -> result SocketAddr.
Variable bind : SocketAddr -> nat -> result unit.
Variable send : Sent -> result unit.

(** [handle_udp_datagram], run without another datagram of the session in between. *)
Definition h3_handle_udp_datagram (data : list byte) (u : H3UdpServer)
  : result (option Sent) * H3UdpServer :=
  let found :=
    msg ← context "decode udp message" (udp_decode data);
    _ ← h3_ensure_fragment_ready msg;
    target ← context "parse udp target" (resolve (addr msg));
    s ← match hv_sessions u !! session_id msg with
        | Some s => Ok s
        | None =>
            _ ← context "bind udp session" (bind SESSION_BIND (hv_bound u));
            Ok (mkH3UdpSession (hv_bound u) (addr msg) false)
        end;
    Ok (msg, target, s) in
  match found with
  | Err e => (Err e, u)
  | Panic e => (Panic e, u)
  | Ok (msg, target, s) =>
      let bound := match hv_sessions u !! session_id msg with Some _ => hv_bound u | None => S (hv_bound u) end in
      let relays := if hu_relay_started s then hv_relays u
                    else hv_relays u ++ [mkBackRelay (session_id msg) (hu_socket s) (hu_return_addr s)] in
      let u := mkH3UdpServer
                 (<[session_id msg := mkH3UdpSession (hu_socket s) (hu_return_addr s) true]> (hv_sessions u))
                 bound relays in
      let d := mkSent (hu_socket s) target (udp_payload msg) in
      match context "udp send" (send d) with
      | Ok _ => (Ok (Some d), u)
      | Err e => (Err e, u)
      | Panic e => (Panic e, u)
      end
  end.
End UdpServer.

(** A datagram relayed back. *)
Definition h3_relay_back (r : BackRelay) (payload : list byte) : list byte :=
  udp_encode (mkUdpMessage (br_session_id r) 0 0 1 (br_return_addr r) payload) [].

(** [send_to] of the client. *)
Definition h3_udp_send_to (sid : Z) (buf : list byte) (target : SocketAddr) : list byte :=
  udp_encode (mkUdpMessage sid 0 0 1 (format_address target) buf) [].

(** A client socket: the task that reads datagrams for it, and its channel. *)
Record H3UdpReader := mkH3UdpReader {
  ur_session : Z;
  ur_queue : Queue;
}.

Section UdpClient.
Variable to_socket_addrs : list byte -> result (list SocketAddr).

(** The body of a reader's loop on the datagram it got. *)
Definition reader_takes (data : list byte) (r : H3UdpReader) : H3UdpReader :=
  match udp_decode data with
  | Ok msg =>
      if session_id msg =? ur_session r then
        match parse_addr to_socket_addrs (addr msg) with
        | Ok a => mkH3UdpReader (ur_session r) (ur_queue r ++ [(udp_payload msg, a)])
        | _ => r
        end
      else r
  | _ => r
  end.

(** The readers of one connection wait for datagrams together: each datagram goes to
    one of them. *)
Inductive deliver (data : list byte) : list H3UdpReader -> list H3UdpReader -> Prop :=
| deliver_to i r rs : rs !! i = Some r -> deliver data rs (<[i := reader_takes data r]> rs).
Inductive deliver_all : list (list byte) -> list H3UdpReader -> list H3UdpReader -> Prop :=
| deliver_none rs : deliver_all [] rs rs
| deliver_one data datas rs rs' rs'' :
    deliver data rs rs' -> deliver_all datas rs' rs'' -> deliver_all (data :: datas) rs rs''.
End UdpClient.

(** ** Waiting for a connect in flight *)

(** The tasks of [get_connection] and [establish] around [connect_inflight] and
    [connect_notify]: one holds the flag, another fails to take it and then
    subscribes to the notification, two steps, and the holder's guard first stores the
    flag and then notifies, two more.  (RST runs its TCP dial under a timeout, which
    is outside these steps; its UDP dial and both dials of Hysteria2 have none.) *)
Inductive gate_pc := Trying | Holding | Releasing | Missed | Subscribed | Through.
Record Gate := mkGate {
  inflight : bool;
  gate_tasks : list gate_pc;
}.
Definition wake (p : gate_pc) : gate_pc := match p with Subscribed => Trying | _ => p end.

Inductive gate_step : Gate -> Gate -> Prop :=
| g_cached ts i b : ts !! i = Some Trying -> gate_step (mkGate b ts) (mkGate b (<[i := Through]> ts))
| g_take ts i : ts !! i = Some Trying -> gate_step (mkGate false ts) (mkGate true (<[i := Holding]> ts))
| g_miss ts i : ts !! i = Some Trying -> gate_step (mkGate true ts) (mkGate true (<[i := Missed]> ts))
| g_subscribe ts i b : ts !! i = Some Missed -> gate_step (mkGate b ts) (mkGate b (<[i := Subscribed]> ts))
| g_release ts i : ts !! i = Some Holding -> gate_step (mkGate true ts) (mkGate false (<[i := Releasing]> ts))
| g_notify ts i b : ts !! i = Some Releasing ->
    gate_step (mkGate b ts) (mkGate b (map wake (<[i := Through]> ts))).

(** ** Requests and responses *)

Lemma read_varint_loop_more x n : forall value buf v rest,
  read_varint_loop n value buf = Ok (v, rest) -> read_varint_loop n value (buf ++ x) = Ok (v, rest ++ x).
Proof.
  induction n as [|n IH]; intros value buf v rest Hr; cbn [read_varint_loop] in *; [by simplify_eq|].
  destruct buf as [|b buf]; [done|]. cbn in Hr |- *. by apply IH.
Qed.

(** More input does not change what was read. *)
Lemma read_varint_more x buf v rest : read_varint buf = Ok (v, rest) ->
  read_varint (buf ++ x) = Ok (v, rest ++ x).
Proof.
  destruct buf as [|b buf]; [done|]. unfold read_varint. cbn [length Nat.eqb app get_u8 mbind result_bind].
  destruct (1 <? _); [|by intros [= <- <-]].
  destruct (Z.ltb_spec (zlen buf) (Z.shiftl 1 (Z.shiftr (bz b) 6) - 1)) as [|Hl]; [done|].
  rewrite (proj2 (Z.ltb_ge _ _)) by (rewrite zlen_app; pose proof (zlen_nonneg x); lia).
  apply read_varint_loop_more.
Qed.

Lemma copy_more err n x buf a rest : copy_to_bytes err n buf = Ok (a, rest) ->
  copy_to_bytes err n (buf ++ x) = Ok (a, rest ++ x).
Proof.
  unfold copy_to_bytes. destruct (Z.ltb_spec (zlen buf) n) as [|Hl]; [done|]. intros [= <- <-].
  rewrite (proj2 (Z.ltb_ge _ _)) by (rewrite zlen_app; pose proof (zlen_nonneg x); lia).
  unfold zlen in Hl. by rewrite take_app_le, drop_app_le by lia.
Qed.

Lemma copy_app err a rest : copy_to_bytes err (zlen a) (a ++ rest) = Ok (a, rest).
Proof.
  unfold copy_to_bytes. rewrite (proj2 (Z.ltb_ge _ _)) by (rewrite zlen_app; pose proof (zlen_nonneg rest); lia).
  unfold zlen. by rewrite Nat2Z.id, take_app_length, drop_app_length.
Qed.

Lemma decode_request_more x buf a rest : decode_tcp_request buf = Ok (a, rest) ->
  decode_tcp_request (buf ++ x) = Ok (a, rest ++ x).
Proof.
  unfold decode_tcp_request.
  destruct (read_varint buf) as [[id b1]|?|?] eqn:E1; cbn [mbind result_bind]; [|done..].
  rewrite (read_varint_more x _ _ _ E1). cbn [mbind result_bind]. destruct (negb _); [done|].
  destruct (read_varint b1) as [[n b2]|?|?] eqn:E2; cbn [mbind result_bind]; [|done..].
  rewrite (read_varint_more x _ _ _ E2). cbn [mbind result_bind].
  destruct (copy_to_bytes _ n b2) as [[ab b3]|?|?] eqn:E3; cbn [mbind result_bind]; [|done..].
  rewrite (copy_more _ _ x _ _ _ E3). cbn [mbind result_bind].
  destruct (context _ (from_utf8 ab)) as [ad|?|?]; cbn [mbind result_bind]; [|done..].
  destruct (read_varint b3) as [[m b4]|?|?] eqn:E4; cbn [mbind result_bind]; [|done..].
  rewrite (read_varint_more x _ _ _ E4). cbn [mbind result_bind].
  destruct (copy_to_bytes _ m b4) as [[pb b5]|?|?] eqn:E5; cbn [mbind result_bind]; [|done..].
  rewrite (copy_more _ _ x _ _ _ E5). cbn [mbind result_bind]. by intros [= <- <-].
Qed.

Lemma zlen_padding rnd n : 0 <= n -> zlen (padding_section rnd n) = n.
Proof.
  intros Hn. unfold padding_section. destruct (Z.ltb_spec 0 n).
  - unfold zlen. rewrite length_fill_bytes. lia.
  - assert (n = 0) as -> by lia. done.
Qed.

(** The server reads back the request, and leaves what is behind it. *)
Lemma decode_request_encoded rnd target pad rest : zlen target < 2 ^ 62 -> 0 <= pad < 2 ^ 62 ->
  utf8_valid target = true ->
  decode_tcp_request (encode_tcp_request rnd target pad ++ rest) = Ok (target, rest).
Proof.
  intros Hl Hp Hu. unfold encode_tcp_request, decode_tcp_request.
  rewrite !(write_varint_app (_ ++ _)), (write_varint_app (write_varint _ _)), <-!app_assoc.
  rewrite read_write_varint by done. cbn [mbind result_bind].
  change (negb (TCP_REQUEST_ID =? TCP_REQUEST_ID)) with false. cbv iota.
  rewrite read_write_varint by (split; [apply zlen_nonneg|done]). cbn [mbind result_bind].
  rewrite copy_app. cbn [mbind result_bind]. rewrite from_utf8_valid by done. cbn [context mbind result_bind].
  rewrite read_write_varint by done. cbn [mbind result_bind].
  rewrite <-(zlen_padding rnd pad) at 1 by lia. rewrite copy_app. done.
Qed.

(** A request cut short is never taken for a whole one. *)
Lemma decode_request_prefix rnd target pad k : zlen target < 2 ^ 62 -> 0 <= pad < 2 ^ 62 ->
  utf8_valid target = true -> (k < length (encode_tcp_request rnd target pad))%nat ->
  is_ok (decode_tcp_request (take k (encode_tcp_request rnd target pad))) = false.
Proof.
  intros Hl Hp Hu Hk. set (enc := encode_tcp_request rnd target pad) in *.
  destruct (decode_tcp_request (take k enc)) as [[a rest]|?|?] eqn:E; [|done..].
  apply (decode_request_more (drop k enc)) in E. rewrite take_drop in E.
  pose proof (decode_request_encoded rnd target pad [] Hl Hp Hu) as Hd. fold enc in Hd.
  rewrite app_nil_r, E in Hd. injection Hd as _ Hr.
  apply app_eq_nil in Hr as [_ Hr]. apply (f_equal length) in Hr. rewrite length_drop in Hr. cbn in Hr. lia.
Qed.

(** *** Responses *)

Section Response.
Variables (rnd : nat -> byte) (ok : bool) (msg : list byte) (pad : Z).
Hypotheses (Hl : zlen msg < 2 ^ 62) (Hp : 0 <= pad < 2 ^ 62) (Hu : utf8_valid msg = true).

Let status : byte := if ok then TCP_STATUS_OK else TCP_STATUS_ERROR.
Let V1 : list byte := write_varint [] (zlen msg).
Let V2 : list byte := write_varint [] pad.
Let P : list byte := padding_section rnd pad.

Lemma response_shape : encode_tcp_response rnd ok msg pad = status :: V1 ++ msg ++ V2 ++ P.
Proof.
  unfold encode_tcp_response. rewrite (write_varint_app (_ ++ _)), (write_varint_app [_]), <-!app_assoc. done.
Qed.

Lemma decode_response_encoded rest :
  try_decode_tcp_response (encode_tcp_response rnd ok msg pad ++ rest) = Ok (Some (ok, msg), rest).
Proof.
  rewrite response_shape, <-app_comm_cons, <-!app_assoc. unfold try_decode_tcp_response, decode_tcp_response.
  unfold V1. rewrite read_write_varint by (split; [apply zlen_nonneg|done]). cbn [mbind result_bind].
  rewrite copy_app. cbn [mbind result_bind]. rewrite from_utf8_valid by done. cbn [context mbind result_bind].
  unfold V2. rewrite read_write_varint by done. cbn [mbind result_bind].
  unfold P. rewrite <-(zlen_padding rnd pad) at 1 by lia. rewrite copy_app. cbn [mbind result_bind].
  unfold status. by destruct ok.
Qed.

(** Right before a length, a cut response is an error instead of incomplete. *)
Definition response_cut (k : nat) : Prop := k = 1%nat \/ k = (1 + length V1 + length msg)%nat.

Lemma decode_response_prefix k : (k < length (encode_tcp_response rnd ok msg pad))%nat ->
  (~ response_cut k -> try_decode_tcp_response (take k (encode_tcp_response rnd ok msg pad))
     = Ok (None, take k (encode_tcp_response rnd ok msg pad)))
  /\ (response_cut k -> try_decode_tcp_response (take k (encode_tcp_response rnd ok msg pad))
     = Err "empty varint").
Proof.
  rewrite response_shape. intros Hk. cbn [length] in Hk. rewrite !length_app in Hk.
  assert (HV1 : forall r, read_varint (V1 ++ r) = Ok (zlen msg, r))
    by (intros r; apply read_write_varint; split; [apply zlen_nonneg|done]).
  assert (HV2 : forall r, read_varint (V2 ++ r) = Ok (pad, r)) by (intros r; by apply read_write_varint).
  assert (HL : forall v, (0 < length (write_varint [] v))%nat)
    by (intros v; pose proof (write_varint_nonempty v); destruct (write_varint [] v); [done|cbn; lia]).
  pose proof (HL (zlen msg)) as HL1. pose proof (HL pad) as HL2. fold V1 in HL1. fold V2 in HL2.
  unfold response_cut. destruct k as [|k]; [split; [done|lia]|]. cbn [take].
  unfold try_decode_tcp_response, decode_tcp_response.
  destruct (Nat.lt_ge_cases k (length V1)) as [H1|H1].
  { rewrite take_app_le by lia. destruct k as [|k]; [split; [lia|done]|].
    unfold V1 in *. rewrite read_varint_truncated by (done || lia || (split; [apply zlen_nonneg|done])).
    split; [done|lia]. }
  rewrite take_app_ge, HV1 by lia. cbn [mbind result_bind].
  destruct (Nat.lt_ge_cases (k - length V1) (length msg)) as [H2|H2].
  { rewrite take_app_le by lia. unfold copy_to_bytes.
    rewrite (proj2 (Z.ltb_lt _ _)) by (unfold zlen; rewrite length_take; lia). split; [done|lia]. }
  rewrite take_app_ge by lia. rewrite copy_app. cbn [mbind result_bind].
  rewrite from_utf8_valid by done. cbn [context mbind result_bind].
  set (k2 := (k - length V1 - length msg)%nat).
  destruct (Nat.lt_ge_cases k2 (length V2)) as [H3|H3].
  { rewrite take_app_le by lia. destruct k2 as [|k'] eqn:E; [split; [lia|done]|].
    unfold V2 in *. rewrite read_varint_truncated by (done || lia). split; [done|lia]. }
  rewrite take_app_ge, HV2 by lia. cbn [mbind result_bind].
  unfold copy_to_bytes. rewrite (proj2 (Z.ltb_lt _ _)).
  - split; [done|lia].
  - pose proof (zlen_padding rnd pad ltac:(lia)) as Hz. fold P in Hz. unfold zlen in *. rewrite length_take. lia.
Qed.
End Response.

(** ** Streams *)

Lemma response_loop_eq fl buf script : read_tcp_response fl buf script
  = ('(o, buf) ← try_decode_tcp_response buf;
     match o with
     | Some (ok, _) => Ok (Responded ok buf script)
     | None =>
         match script with
         | [] => Ok (ResponseWaiting buf)
         | REof :: _ => Err (fl_name fl +:+ ": stream closed before tcp response")
         | RError e :: _ => Err e
         | RTimeout :: _ => Err (fl_name fl +:+ ": read tcp response timeout")
         | RData chunk :: script =>
             if 8192 <? zlen (buf ++ chunk) then Err (fl_name fl +:+ ": tcp response too large")
             else read_tcp_response fl (buf ++ chunk) script
         end
     end).
Proof. by destruct script. Qed.

Lemma response_loop_quiet fl pre rest : forall buf,
  (forall j, try_decode_tcp_response (buf ++ concat (take j pre)) = Ok (None, buf ++ concat (take j pre))
     /\ zlen (buf ++ concat (take j pre)) <= 8192) ->
  read_tcp_response fl buf (reads pre ++ rest) = read_tcp_response fl (buf ++ concat pre) rest.
Proof.
  induction pre as [|c pre IH]; intros buf Hj; [by rewrite app_nil_r|].
  destruct (Hj 0%nat) as [H0 _]. cbn [take concat] in H0. rewrite app_nil_r in H0.
  destruct (Hj 1%nat) as [_ H1]. cbn [take concat] in H1. rewrite take_0 in H1. cbn [concat] in H1.
  rewrite app_nil_r in H1.
  change (reads (c :: pre) ++ rest) with (RData c :: reads pre ++ rest). rewrite response_loop_eq, H0.
  cbn [mbind result_bind]. rewrite (proj2 (Z.ltb_ge _ _)) by done.
  rewrite IH; [cbn [concat]; by rewrite <-app_assoc|]. intros j. rewrite <-!app_assoc. exact (Hj (S j)).
Qed.

(** No read of an answer ends right before one of its lengths. *)
Definition answer_uncut (msg : list byte) (chunks : list (list byte)) : Prop :=
  forall j, ~ response_cut msg (length (concat (take j chunks))).

Definition answer_cut (msg : list byte) (chunks : list (list byte)) : Prop :=
  exists j, response_cut msg (length (concat (take j chunks))).
#[local] Instance response_cut_dec msg k : Decision (response_cut msg k).
Proof. unfold response_cut. apply _. Defined.

(** With such a read the client fails, whatever comes next. *)
Lemma client_reads_cut_response fl rnd ok msg chunks more late : zlen msg <= 4000 -> utf8_valid msg = true ->
  concat chunks = encode_tcp_response rnd ok msg 0 ++ late -> answer_cut msg chunks ->
  Forall (fun c => zlen c <= 512) chunks ->
  read_tcp_response fl [] (reads chunks ++ more) = Err "empty varint".
Proof.
  intros Hm Hu Hch Hcut Hs. set (enc := encode_tcp_response rnd ok msg 0) in *.
  assert (Hm' : zlen msg < 2 ^ 62) by (change (2 ^ 62) with 4611686018427387904; lia).
  assert (Hv : (length (write_varint [] (zlen msg)) <= 8)%nat) by (unfold write_varint; repeat case_match; simpl; lia).
  assert (Hpos : forall k, response_cut msg k -> (k < length enc)%nat /\ (k <= length msg + 9)%nat).
  { intros k Hk. unfold enc. rewrite response_shape. cbn [length]. rewrite !length_app.
    pose proof (write_varint_nonempty 0) as H0. pose proof (write_varint_nonempty (zlen msg)) as H1.
    destruct (write_varint [] 0); [done|]. unfold response_cut in Hk.
    destruct (write_varint [] (zlen msg)); [done|]. cbn [length] in *. lia. }
  destruct (first_cut (response_cut msg) chunks) as (pre & c & post & -> & Hc & Hn); [unfold response_cut; lia|done|].
  destruct (Hpos _ Hc) as [Hlt Hle].
  assert (Hall : forall q, (exists r, concat pre ++ c = q ++ r) -> q = take (length q) enc).
  { intros q [r Hr]. rewrite concat_app in Hch. cbn [concat] in Hch. rewrite app_assoc, Hr, <-app_assoc in Hch.
    apply (f_equal (take (length q))) in Hch. rewrite take_app_length in Hch. apply (f_equal length) in Hr. rewrite !length_app in *.
    by rewrite take_app_le in Hch by lia. }
  assert (Hpre : forall j, try_decode_tcp_response (concat (take j pre)) = Ok (None, concat (take j pre)) /\ zlen (concat (take j pre)) <= 8192).
  { intros j. assert (Hp : concat pre = concat (take j pre) ++ concat (drop j pre)) by (by rewrite <-concat_app, take_drop).
    pose proof (f_equal length Hp) as Hpl. rewrite length_app in Hpl. rewrite length_app in Hlt, Hle. split; [|unfold zlen in *; lia].
    rewrite (Hall (concat (take j pre))) by (eexists; rewrite Hp, <-app_assoc; done).
    apply decode_response_prefix; [done|done|done|unfold enc in *; lia|apply Hn]. }
  rewrite reads_app, response_loop_quiet by exact Hpre. rewrite app_nil_l.
  destruct (Hpre (length pre)) as [Hd Hz]. rewrite take_ge in Hd, Hz by lia. rewrite response_loop_eq, Hd. cbn [mbind result_bind].
  rewrite (proj2 (Z.ltb_ge _ _)) by (unfold zlen in *; lia).
  rewrite response_loop_eq, (Hall (concat pre ++ c)) by (exists []; by rewrite app_nil_r).
  destruct (decode_response_prefix rnd ok msg 0 Hm' ltac:(done) Hu (length (concat pre ++ c)) Hlt) as [_ He]. fold enc in He. by rewrite (He Hc).
Qed.

Lemma client_reads_response fl rnd ok msg chunks more late : zlen msg <= 4000 -> utf8_valid msg = true ->
  concat chunks = encode_tcp_response rnd ok msg 0 ++ late -> answer_uncut msg chunks ->
  Forall (fun c => zlen c <= 512) chunks ->
  exists prefix post, read_tcp_response fl [] (reads chunks ++ more) = Ok (Responded ok prefix (reads post ++ more))
    /\ prefix ++ concat post = late.
Proof.
  intros Hm Hu Hch Hcut Hs. set (enc := encode_tcp_response rnd ok msg 0) in *.
  assert (Hm' : zlen msg < 2 ^ 62) by (change (2 ^ 62) with 4611686018427387904; lia).
  assert (Henc : zlen enc <= zlen msg + 20).
  { unfold enc. rewrite response_shape. change (padding_section rnd 0) with (@nil byte).
    assert (Hv : forall v, (length (write_varint [] v) <= 8)%nat)
      by (intros v; unfold write_varint; repeat case_match; simpl; lia).
    unfold zlen. cbn [length]. rewrite !length_app. cbn [length].
    pose proof (Hv (zlen msg)). pose proof (Hv 0). unfold zlen in *. lia. }
  destruct (cut_at enc chunks late Hch) as (pre & c & post & prefix & -> & Hlen & Ht & Hx & Hy);
    [unfold enc; by rewrite response_shape|].
  assert (Hall : forall j, try_decode_tcp_response (concat (take j pre)) = Ok (None, concat (take j pre))
    /\ zlen (concat (take j pre)) < zlen enc).
  { intros j. assert (Hp : concat (take j pre) = take (length (concat (take j pre))) enc
      /\ (length (concat (take j pre)) < length enc)%nat) by (by apply prefix_of_cut).
    destruct Hp as [Hp Hpl]. split; [|unfold zlen in *; lia]. rewrite Hp.
    apply decode_response_prefix; [done|done|done|done|].
    destruct (Nat.le_ge_cases j (length pre)) as [Hj|Hj].
    - pose proof (Hcut j) as Hc. by rewrite take_app_le in Hc by lia.
    - pose proof (Hcut (length pre)) as Hc. rewrite take_app_le, (take_ge pre (length pre)) in Hc by lia.
      by rewrite (take_ge pre j) by lia. }
  exists prefix, post. split; [|done].
  apply Forall_app in Hs as [_ Hs]. apply Forall_cons in Hs as [Hc _].
  rewrite reads_app, response_loop_quiet.
  2:{ intros j. rewrite app_nil_l. destruct (Hall j). split; [done|lia]. }
  destruct (Hall (length pre)) as [Hn Hpre]. rewrite take_ge in Hn, Hpre by lia.
  rewrite app_nil_l, response_loop_eq, Hn. cbn [mbind result_bind].
  rewrite (proj2 (Z.ltb_ge _ _)) by (rewrite zlen_app; lia).
  rewrite Hx, response_loop_eq. unfold enc. rewrite decode_response_encoded by done. done.
Qed.

Lemma open_request_bounds r : 0 <= random_pad_len r 64 512 < 2 ^ 62.
Proof. pose proof (random_pad_len_bounds r 64 512 ltac:(lia)). change (2 ^ 62) with 4611686018427387904. lia. Qed.

(** A request must arrive in one read.  Cut anywhere, it is refused: the server
    sends nothing and drops the stream, whatever arrives next. *)
Theorem h3_request_in_pieces fl lookup_host connect rnd rnd_ok r ctx now cm destination domain k more :
  let target := dial_target destination domain in
  let request := h3_open_request rnd r destination domain in
  zlen target < 2 ^ 62 -> utf8_valid target = true -> (k < length request)%nat ->
  let s := h3_handle_tcp_stream fl lookup_host connect rnd_ok ctx now (RData (take k request) :: more) cm in
  hs_sent s = [] /\ is_ok (hs_result s) = false /\ hs_cm s = cm.
Proof.
  intros target request Hl Hu Hk s. unfold s, h3_handle_tcp_stream.
  pose proof (decode_request_prefix rnd target (random_pad_len r 64 512) k Hl (open_request_bounds r) Hu Hk) as Hd.
  unfold request, h3_open_request. fold target.
  destruct (decode_tcp_request _) as [[]|?|?]; [done|..]; done.
Qed.

(** C8.  Opening a TCP stream through RST or Hysteria2, for a target (UTF-8) that resolves
    to an address which the server does not forbid and which can be connected to.  A request
    that arrives whole in one read makes the server connect there and relay what it reads
    from then on; data that came in the same read as the request is lost, and a request
    cut into several reads is dropped without an answer.  The answer, cut into reads of at
    most 512 bytes, opens the stream at the client with whatever the target already sent kept
    behind it, unless a read ends right before one of the two lengths in the answer: then the
    client fails. *)
Theorem h3_tcp_handshake fl lookup_host connect rnd rnd_ok r ctx now cm destination domain early more addr :
  let target := dial_target destination domain in
  zlen target < 2 ^ 62 -> utf8_valid target = true ->
  h3_resolve_target fl lookup_host target = Ok addr -> connect addr = Ok tt ->
  fl_guards_destination fl && is_forbidden_dest addr (hc_allow_private ctx) = false ->
  let s := h3_handle_tcp_stream fl lookup_host connect rnd_ok ctx now
             (RData (h3_open_request rnd r destination domain ++ early) :: more) cm in
  (exists relay, hs_result s = Ok (Some relay) /\ hr_dest relay = addr /\ hr_script relay = more)
  /\ (forall k, (k < length (h3_open_request rnd r destination domain))%nat ->
      let cut := h3_handle_tcp_stream fl lookup_host connect rnd_ok ctx now
                   (RData (take k (h3_open_request rnd r destination domain)) :: more) cm in
      hs_sent cut = [] /\ is_ok (hs_result cut) = false /\ hs_cm cut = cm)
  /\ forall chunks rest late, concat chunks = hs_sent s ++ late ->
     Forall (fun c => zlen c <= 512) chunks ->
     (answer_cut (str "ok") chunks -> h3_open_reply fl (reads chunks ++ rest) = Err "empty varint")
     /\ (answer_uncut (str "ok") chunks ->
         exists prefix post, h3_open_reply fl (reads chunks ++ rest) = Ok (Responded true prefix (reads post ++ rest))
           /\ prefix ++ concat post = late).
Proof.
  intros target Hl Hu Hres Hconn Hguard s.
  assert (Hs : exists cm' relay, s = mkH3Served (encode_tcp_response rnd_ok true (str "ok") 0) (Ok (Some relay)) cm'
    /\ hr_dest relay = addr /\ hr_script relay = more).
  { unfold s, h3_handle_tcp_stream, h3_open_request. fold target.
    rewrite decode_request_encoded by (done || apply open_request_bounds). cbn [context].
    unfold serve_target. rewrite Hres, Hguard, Hconn.
    destruct (ctx_user cm (hc_password ctx)) as [name limits].
    destruct (begin_muxed _ _ _ _ _ _ _) as [session cm1]. destruct (user_limiter _ _ _) as [lim cm2].
    by eexists _, _. }
  destruct Hs as (cm' & relay & -> & Hd & Hsc). cbn [hs_result hs_sent]. split; [by exists relay|].
  split; [intros k Hk; by apply h3_request_in_pieces|].
  intros chunks rest late Hch Hsz. unfold h3_open_reply. split; intros Hcut.
  - by rewrite (client_reads_cut_response fl rnd_ok true (str "ok") chunks rest late).
  - destruct (client_reads_response fl rnd_ok true (str "ok") chunks rest late) as (prefix & post & Hr & Hp);
      [done..|]. exists prefix, post. by rewrite Hr.
Qed.

(** C10.  What the destination guard of RST covers.  No TCP stream is ever relayed to
    a forbidden destination, whatever a client sends and names resolve to; the
    datagram path has no such test, and sends to the loopback address. *)
Theorem rst_destination_guard :
  (forall lookup_host connect rnd ctx now script cm relay,
     hs_result (rst_handle_tcp_stream lookup_host connect rnd ctx now script cm) = Ok (Some relay) ->
     is_forbidden_dest (hr_dest relay) (hc_allow_private ctx) = false)
  /\ (let loopback := mkSocketAddr (V4 2130706433) 53 in
      is_forbidden_dest loopback false = true
      /\ forall lookup_host payload, exists u,
           h3_handle_udp_datagram (h3_resolve_target rst lookup_host) (fun _ _ => Ok tt) (fun _ => Ok tt)
             (h3_udp_send_to 1 payload loopback) (mkH3UdpServer ∅ 0 [])
           = (Ok (Some (mkSent 0 loopback payload)), u)).
Proof.
  split.
  - intros lookup_host connect rnd ctx now script cm relay. unfold rst_handle_tcp_stream, h3_handle_tcp_stream.
    destruct script as [|[chunk| | |] script]; [done| |done..].
    destruct (context _ _) as [[target rest]|?|?]; [|done..]. unfold serve_target.
    destruct (h3_resolve_target rst lookup_host target) as [addr|?|?]; [|done..].
    change (fl_guards_destination rst) with true. rewrite andb_true_l.
    destruct (is_forbidden_dest addr (hc_allow_private ctx)) eqn:Hf; [done|].
    destruct (connect addr) as [u|e|e]; [|done..].
    destruct (ctx_user cm (hc_password ctx)) as [name limits].
    destruct (begin_muxed _ _ _ _ _ _ _) as [session cm1]. destruct (user_limiter _ _ _) as [lim cm2].
    cbn [hs_result]. intros [= <-]. exact Hf.
  - intros loopback. split; [done|]. intros lookup_host payload. eexists.
    unfold h3_handle_udp_datagram, h3_udp_send_to.
    rewrite udp_decode_encode by (by apply (single_wf 1 0 loopback payload)). cbn [context].
    cbn [mbind result_bind h3_ensure_fragment_ready fragment_count Z.eqb]. cbn [addr session_id].
    unfold h3_resolve_target. rewrite parse_format_address by done. done.
Qed.

(** ** Authentication *)

Lemma visible_check s : forallb (in_range 32 126) s = true -> visible_ascii s.
Proof.
  rewrite forallb_forall. intros Hs. apply Forall_forall. intros b Hb%list_elem_of_In%Hs.
  unfold in_range in Hb. bool_props. lia.
Qed.


Section AuthFacts.
Context `{HttpHeader}.





End AuthFacts.

(** ** UDP sockets of one connection *)

(** Client sockets steal each other's datagrams.  Alone on its connection, a
    socket receives every reply in order; as soon as a second one reads from the same
    connection, any reply can be taken by the wrong reader and is then dropped. *)
Theorem udp_sockets_steal to_addrs sid target payloads : in_u32 sid -> sa_wf target ->
  let reply p := h3_relay_back (mkBackRelay sid 0 (format_address target)) p in
  (forall rs, deliver_all to_addrs (map reply payloads) [mkH3UdpReader sid []] rs ->
     rs = [mkH3UdpReader sid (map (fun p => (p, target)) payloads)])
  /\ forall other, other <> sid ->
     deliver_all to_addrs (map reply payloads) [mkH3UdpReader sid []; mkH3UdpReader other []]
       [mkH3UdpReader sid []; mkH3UdpReader other []].
Proof.
  intros Hsid Ht reply.
  assert (Htake : forall r p, reader_takes to_addrs (reply p) r
    = if sid =? ur_session r then mkH3UdpReader (ur_session r) (ur_queue r ++ [(p, target)]) else r).
  { intros r p. unfold reader_takes, reply, h3_relay_back. cbn [br_session_id br_return_addr].
    rewrite udp_decode_encode by (by apply (single_wf sid 0 target p)). cbn [session_id addr udp_payload].
    unfold parse_addr. by rewrite parse_format_address. }
  split.
  - assert (Hgen : forall ps q rs, deliver_all to_addrs (map reply ps) [mkH3UdpReader sid q] rs ->
      rs = [mkH3UdpReader sid (q ++ map (fun p => (p, target)) ps)]).
    { induction ps as [|p ps IH]; intros q rs Hd; cbn [map] in *; inversion Hd as [|? ? ? ? ? H1 H2]; subst.
      - by rewrite app_nil_r.
      - inversion H1 as [i r ? Hi]; subst. apply list_lookup_singleton_Some in Hi as [-> <-].
        cbn [insert list_insert] in H2. rewrite Htake in H2. cbn [ur_session ur_queue] in H2.
        rewrite Z.eqb_refl in H2. apply IH in H2. by rewrite H2, <-app_assoc. }
    intros rs. apply (Hgen payloads []).
  - intros other Hne. induction payloads as [|p ps IH]; cbn [map]; [constructor|].
    eapply deliver_one; [|exact IH].
    assert (Hd := deliver_to to_addrs (reply p) 1 (mkH3UdpReader other [])
      [mkH3UdpReader sid []; mkH3UdpReader other []] eq_refl).
    rewrite Htake in Hd. cbn [ur_session insert list_insert] in Hd.
    by rewrite (proj2 (Z.eqb_neq _ _)) in Hd by done.
Qed.

(** ** Lost wake-ups *)

Definition holders (ts : list gate_pc) : Z :=
  sum_of (fun p => match p with Holding => 1 | _ => 0 end) ts.

Lemma holders_wake ts : holders (map wake ts) = holders ts.
Proof. induction ts as [|p ts IH]; [done|]. cbn. unfold holders, sum_of in IH. rewrite IH. by destruct p. Qed.

Lemma holders_trying n : holders (replicate n Trying) = 0.
Proof. induction n as [|n IH]; [done|]. exact IH. Qed.

Lemma gate_step_holders g g' : gate_step g g' ->
  holders (gate_tasks g) = Z.b2z (inflight g) -> holders (gate_tasks g') = Z.b2z (inflight g').
Proof.
  destruct 1; cbn [gate_tasks inflight]; rewrite ?holders_wake; unfold holders; intros Hh;
    erewrite sum_of_insert by done; cbn in *; lia.
Qed.

(** C16.  Connecting one at a time.  Of any number of dials at most one holds
    [connect_inflight], and it is held exactly while one of them connects.  But a
    dial can wait for ever: one that fails to take the flag and subscribes to the
    notification only after the holder has released and notified is never woken; the
    flag is free, the others are done, and no step is left (but for the timeout RST
    has around its TCP dials). *)
Theorem connect_gate n :
  (forall g, rtc gate_step (mkGate false (replicate n Trying)) g ->
     holders (gate_tasks g) = Z.b2z (inflight g))
  /\ rtc gate_step (mkGate false [Trying; Trying]) (mkGate false [Through; Subscribed])
  /\ forall g, ~ gate_step (mkGate false [Through; Subscribed]) g.
Proof.
  split_and!.
  - intros g Hr.
    assert (H0 : holders (gate_tasks (mkGate false (replicate n Trying)))
      = Z.b2z (inflight (mkGate false (replicate n Trying)))) by apply holders_trying.
    revert H0. induction Hr; eauto using gate_step_holders.
  - eapply rtc_l; [by apply (g_take [Trying; Trying] 0)|]. eapply rtc_l; [by apply (g_miss [Holding; Trying] 1)|].
    eapply rtc_l; [by apply (g_release [Holding; Missed] 0)|].
    eapply rtc_l; [by apply (g_notify [Releasing; Missed] 0)|].
    eapply rtc_l; [by apply (g_subscribe [Through; Missed] 1)|]. apply rtc_refl.
  - intros g Hs. inversion Hs as [? i ? Hi|? i Hi|? i Hi|? i ? Hi|? i Hi|? i ? Hi]; subst;
      by destruct i as [|[|[]]].
Qed.

(** ** Witnesses *)

Definition h3_toy_ctx : H3RelayCtx := mkH3RelayCtx (str "rst-in") (str "user-a") 10 false.
Definition h3_toy_dest : SocketAddr := mkSocketAddr (V4 134744072) 443.

Lemma connect_gate_witness :
  holders (gate_tasks (mkGate true [Holding; Missed])) = 1.
Proof.
  apply (proj1 (connect_gate 2) (mkGate true [Holding; Missed])).
  eapply rtc_l; [by apply (g_take [Trying; Trying] 0)|].
  eapply rtc_once, (g_miss [Holding; Trying] 1). done.
Defined.

Lemma h3_tcp_handshake_witness :
  exists relay, hs_result (h3_handle_tcp_stream rst (fun _ => Err "no dns") (fun _ => Ok tt) (fun _ => x00)
      h3_toy_ctx 9 (RData (h3_open_request (fun _ => x00) 0 h3_toy_dest None ++ str "GET") :: [RData (str " /")])
      (with_registry new_registry)) = Ok (Some relay)
    /\ hr_dest relay = h3_toy_dest /\ hr_script relay = [RData (str " /")].
Proof.
  destruct (h3_tcp_handshake rst (fun _ => Err "no dns") (fun _ => Ok tt) (fun _ => x00) (fun _ => x00) 0
    h3_toy_ctx 9 (with_registry new_registry) h3_toy_dest None (str "GET") [RData (str " /")] h3_toy_dest)
    as [H _]; [reflexivity..|]. exact H.
Defined.

Lemma h3_request_in_pieces_witness :
  let request := h3_open_request (fun _ => x00) 0 h3_toy_dest None in
  let s := h3_handle_tcp_stream hysteria2 (fun _ => Err "no dns") (fun _ => Ok tt) (fun _ => x00)
    h3_toy_ctx 9 (RData (take 20 request) :: [RData (drop 20 request)]) (with_registry new_registry) in
  hs_sent s = [] /\ is_ok (hs_result s) = false.
Proof.
  intros request s.
  destruct (h3_request_in_pieces hysteria2 (fun _ => Err "no dns") (fun _ => Ok tt) (fun _ => x00) (fun _ => x00)
    0 h3_toy_ctx 9 (with_registry new_registry) h3_toy_dest None 20 [RData (drop 20 request)])
    as (H1 & H2 & _); [reflexivity|reflexivity|vm_compute; lia|]. split; [exact H1|exact H2].
Defined.

Lemma rst_destination_guard_witness :
  exists relay, hs_result (rst_handle_tcp_stream (fun _ => Err "no dns") (fun _ => Ok tt) (fun _ => x00) h3_toy_ctx 9
    [RData (h3_open_request (fun _ => x00) 0 h3_toy_dest None)] (with_registry new_registry)) = Ok (Some relay)
  /\ is_forbidden_dest (hr_dest relay) false = false.
Proof.
  destruct (hs_result (rst_handle_tcp_stream (fun _ => Err "no dns") (fun _ => Ok tt) (fun _ => x00) h3_toy_ctx 9
    [RData (h3_open_request (fun _ => x00) 0 h3_toy_dest None)] (with_registry new_registry)))
    as [[relay|]|e|e] eqn:E; [|vm_compute in E; discriminate..].
  exists relay. split; [done|]. exact (proj1 rst_destination_guard _ _ _ h3_toy_ctx _ _ _ relay E).
Defined.

Definition toy_header : HttpHeader.
Proof.
  refine {| HeaderValue := list byte;
            header_from_str s := if forallb (fun b => negb (bz b <? 32) && negb (bz b =? 127)) s
                                 then Some s else None;
            header_to_str v := if forallb (in_range 32 126) v then Some v else None |}.
  - intros s Hs. exists s. assert (Hf : forall b, In b s -> 32 <= bz b < 127).
    { intros b Hb. unfold visible_ascii in Hs. rewrite Forall_forall in Hs. by apply Hs, list_elem_of_In. }
    rewrite (proj2 (forallb_forall _ s)), (proj2 (forallb_forall (in_range 32 126) s)); [done|..].
    + intros b Hb. specialize (Hf b Hb). unfold in_range. apply andb_true_iff. split; apply Z.leb_le; lia.
    + intros b Hb. specialize (Hf b Hb). apply andb_true_iff. split; apply negb_true_iff;
        [apply Z.ltb_ge|apply Z.eqb_neq]; lia.
  - intros v s. destruct (forallb (in_range 32 126) v) eqn:E; [|done]. intros [= ->].
    apply visible_check in E. eapply Forall_impl; [exact E|]. cbv beta. lia.
Defined.
#[local] Existing Instance toy_header.


Lemma udp_sockets_steal_witness :
  deliver_all (fun _ => Err "no dns")
    (map (fun p => h3_relay_back (mkBackRelay 1 0 (format_address h3_toy_dest)) p) [str "a"; str "b"])
    [mkH3UdpReader 1 []; mkH3UdpReader 2 []] [mkH3UdpReader 1 []; mkH3UdpReader 2 []].
Proof.
  destruct (udp_sockets_steal (fun _ => Err "no dns") 1 h3_toy_dest [str "a"; str "b"]) as [_ H]; [done|done|].
  by apply H.
Defined.
