(* ===== verification/RsqPool.v ===== *)
(** * The RSQ client's session

    [rsq/client.rs]: the one QUIC session an outbound keeps ([RsqShared]), who may
    replace it ([get_connection], [establish_session], [reset_session], the close
    watcher, the probe loop), and the retry of a dial.

    Tasks interleave at their shared accesses: a step of the relation is one access.
    Connections are numbered in the order they are made. *)
From stdpp Require Import base tactics gmap list strings relations.
From Stdlib Require Import ZArith Lia.
From Stdlib Require Import Strings.Byte.
From S2P Require Import Prelude Json Text Ip RsqTraffic RsqProtocol Obfs.

Local Open Scope Z_scope.

(** ** Configuration *)

Definition DEFAULT_IDLE_TIMEOUT : Z := 180.
Definition DEFAULT_KEEP_ALIVE : Z := 25.
Definition DEFAULT_PROBE_INTERVAL : Z := 12.
Definition DEFAULT_STREAM_OPEN_TIMEOUT : Z := 8.
Definition DEFAULT_MAX_SESSION_AGE : Z := 30 * 60.

(** Seconds; the products wrap. *)
Definition parse_duration_secs (s : option (list byte)) : option Z :=
  s ← s;
  let scaled suffix k := n ← parse_uint 64 suffix; Some (wrap 64 (n * k)) in
  let stripped pat := (@rev byte) <$> strip_prefix (rev s) pat in
  match stripped (str "s") with
  | Some secs => parse_uint 64 secs
  | None =>
      match stripped (str "m") with
      | Some mins => scaled mins 60
      | None => match stripped (str "h") with Some hours => scaled hours 3600 | None => None end
      end
  end.

Record RsqOutboundInner := mkRsqOutboundInner {
  ob_tag : list byte;
  ob_server : list byte;
  ob_port : Z;
  ob_password : list byte;
  ob_up_mbps : Z;
  ob_down_mbps : Z;
  ob_sni : option (list byte);
  ob_insecure : bool;
  ob_obfs : option (list byte * ObfsVersion);
  ob_profile : TrafficProfile;
  ob_idle_timeout : Z;
  ob_keep_alive_period : Z;
  ob_probe_interval : Z;
  ob_stream_open_timeout : Z;
  ob_max_session_age : Z;
  ob_use_brutal : bool;
  ob_disable_mtu_discovery : bool;
}.

(** [RsqOutbound::new], and whether it spawns the warm-up. *)
Definition rsq_outbound_new (tag : list byte) (raw : Value) : result (RsqOutboundInner * bool) :=
  let field v k := get v k in
  let text v k := x ← get v k; as_str x in
  let flag v k := x ← get v k; as_bool x in
  let number v k := x ← get v k; as_u64 x in
  let tls := field raw "tls" in
  let obfs :=
    o ← field raw "obfs";
    if bool_decide (flag o "enabled" = Some false) then None
    else
      let version := parse_version (number o "version") in
      (fun p => (p, version)) <$> or_else (text o "password") (text raw "password") in
  port ← ok_or "rsq: server_port required" (number raw "server_port");
  server ← ok_or "rsq: server required" (text raw "server");
  password ← ok_or "rsq: password required" (text raw "password");
  let dur k d := default d (parse_duration_secs (text raw k)) in
  Ok (mkRsqOutboundInner tag server (wrap 16 port) password
        (wrap 32 (default 0 (number raw "up_mbps"))) (wrap 32 (default 0 (number raw "down_mbps")))
        (t ← tls; text t "server_name") (default false (t ← tls; flag t "insecure"))
        obfs (parse_profile (field raw "traffic_profile"))
        (dur "idle_timeout" DEFAULT_IDLE_TIMEOUT) (dur "keep_alive_period" DEFAULT_KEEP_ALIVE)
        (dur "probe_interval" DEFAULT_PROBE_INTERVAL)
        (dur "stream_open_timeout" DEFAULT_STREAM_OPEN_TIMEOUT)
        (dur "max_session_age" DEFAULT_MAX_SESSION_AGE)
        (default false (or_else (flag raw "brutal") (flag raw "use_brutal")))
        (default false (flag raw "disable_mtu_discovery")),
      default false (flag raw "warm_up")).

(** [next_udp_session_id], on the counter. *)
Definition next_udp_session_id (counter : Z) : Z * Z :=
  let id := wrap 32 counter in
  ((if id =? 0 then 1 else id), wrap 64 (counter + 1)).

(** ** Errors of a dial *)

Definition mentions (err : list byte) (pats : list string) : bool :=
  existsb (fun p => contains (to_ascii_lowercase err) (str p)) pats.
Definition should_fail_fast_without_retry (err : list byte) : bool :=
  mentions err ["dial queue timeout"; "wait for session connect timed out";
                "outbound dial concurrency saturated"; "session generation expired"].
Definition should_reset_rsq_session (err : list byte) : bool :=
  mentions err ["auth"; "quic connect"; "rsq: quic connect timeout"; "connection lost";
                "connection closed"; "application closed"; "timed out waiting for connection";
                "open stream timeout"; "read tcp reply timeout"; "stream closed before tcp reply";
                "auth read timeout"].
Definition EXPIRED : list byte := str "rsq: session generation expired".
Definition WAIT_TIMED_OUT : list byte := str "rsq: wait for session connect timed out".
Definition LOST : list byte := str "rsq: session lost after establish".

(** ** State *)

Record RsqSession := mkRsqSession {
  ss_connection : nat;
  ss_generation : Z;
  ss_created_at : Z;
  ss_udp_enabled : bool;
}.
Record RsqShared := mkRsqShared {
  session : option RsqSession;
  connect_inflight : bool;
  generation : Z;
  probe_task_started : bool;
}.
(** The shared cell, the connections closed so far, how many were made, the time. *)
Record PoolEnv := mkPoolEnv {
  shared : RsqShared;
  closed : gset nat;
  made : nat;
  now : Z;
}.
Definition set_shared (e : PoolEnv) (sh : RsqShared) : PoolEnv := mkPoolEnv sh (closed e) (made e) (now e).
Definition set_session (e : PoolEnv) (s : option RsqSession) : PoolEnv :=
  set_shared e (mkRsqShared s (connect_inflight (shared e)) (generation (shared e)) (probe_task_started (shared e))).
Definition set_connecting (e : PoolEnv) (b : bool) : PoolEnv :=
  set_shared e (mkRsqShared (session (shared e)) b (generation (shared e)) (probe_task_started (shared e))).
Definition bump_generation (e : PoolEnv) : PoolEnv :=
  set_shared e (mkRsqShared (session (shared e)) (connect_inflight (shared e))
                  (wrap 32 (generation (shared e) + 1)) (probe_task_started (shared e))).
Definition set_probe_started (e : PoolEnv) : PoolEnv :=
  set_shared e (mkRsqShared (session (shared e)) (connect_inflight (shared e)) (generation (shared e)) true).
Definition close_connection (e : PoolEnv) (c : nat) : PoolEnv :=
  mkPoolEnv (shared e) ({[c]} ∪ closed e) (made e) (now e).

Definition session_is_usable (max_age : Z) (e : PoolEnv) (s : RsqSession) : bool :=
  negb (bool_decide (ss_connection s ∈ closed e)) && (now e - ss_created_at s <? max_age).
Definition cached_session (max_age : Z) (e : PoolEnv) : option RsqSession :=
  s ← session (shared e); if session_is_usable max_age e s then Some s else None.
Definition generation_still_current (e : PoolEnv) (g : Z) : bool := generation (shared e) =? g.

Definition reset_session (e : PoolEnv) : PoolEnv :=
  match session (shared e) with
  | Some s => close_connection (bump_generation (set_session e None)) (ss_connection s)
  | None => e
  end.

(** The close watcher of connection [c], made for generation [g]. *)
Definition close_watcher (c : nat) (g : Z) (e : PoolEnv) : PoolEnv :=
  match session (shared e) with
  | Some s =>
      if bool_decide (ss_connection s = c) && (ss_generation s =? g) then set_session e None else e
  | None => e
  end.

(** ** Tasks *)

(** A dial (its first attempt or the retry), a UDP dial, or the probe loop. *)
Inductive task_kind := Dial (first : bool) | Udp (first : bool) | Probe.
Definition holds_guard (k : task_kind) : bool := match k with Probe => false | _ => true end.
Definition release (k : task_kind) (e : PoolEnv) : PoolEnv := if holds_guard k then set_connecting e false else e.

Inductive task_pc :=
| Start (k : task_kind)
| Get (k : task_kind)
| Claim (k : task_kind)
| Waiting (k : task_kind)
| EstCheck (k : task_kind)
| EstReset (k : task_kind)
| EstBump (k : task_kind)
| EstConnect (k : task_kind) (g : Z)
| EstStore (k : task_kind) (s : RsqSession)
| EstFinal (k : task_kind)
| EstDone (k : task_kind) (s : RsqSession)
| EstFailed (k : task_kind) (err : list byte)
| Has (k : task_kind) (s : RsqSession)
| Using (k : task_kind) (s : RsqSession)
| Retry (k : task_kind)
| Served
| Failed (err : list byte)
| ProbeSleep (fails : Z)
| Probing (fails : Z).

(** What a caller of [get_connection] or [establish_session] does with the session. *)
Definition obtained (k : task_kind) (s : RsqSession) : task_pc :=
  match k with
  | Dial _ => Has k s
  | Udp _ => if ss_udp_enabled s then Served else Failed (str "rsq: server udp disabled")
  | Probe => ProbeSleep 0
  end.

(** What it does with an error: [dial_tcp] and [dial_udp] around the first attempt. *)
Definition failed (k : task_kind) (err : list byte) : task_pc :=
  match k with
  | Dial true =>
      if should_fail_fast_without_retry err then Failed err
      else if should_reset_rsq_session err then Retry (Dial false)
      else Failed err
  | Udp true => Retry (Udp false)
  | Probe => ProbeSleep 0
  | _ => Failed err
  end.

Section Steps.
Variable max_age : Z.

Inductive tstep (e : PoolEnv) : task_pc -> PoolEnv -> task_pc -> Prop :=
(** [get_connection] *)
| t_cached k s : cached_session max_age e = Some s -> tstep e (Get k) e (obtained k s)
| t_missing k : cached_session max_age e = None -> tstep e (Get k) e (Claim k)
| t_claim k : connect_inflight (shared e) = false ->
    tstep e (Claim k) (set_connecting e true) (EstCheck k)
| t_busy k : connect_inflight (shared e) = true -> tstep e (Claim k) e (Waiting k)
| t_notified k : tstep e (Waiting k) e (Get k)
| t_wait_timeout k : tstep e (Waiting k) e (failed k WAIT_TIMED_OUT)
(** [establish_session], and the drop of the guard behind it *)
| t_est_cached k s : cached_session max_age e = Some s -> tstep e (EstCheck k) e (EstDone k s)
| t_est_missing k : cached_session max_age e = None -> tstep e (EstCheck k) e (EstReset k)
| t_est_reset k : tstep e (EstReset k) (reset_session e) (EstBump k)
| t_est_bump k : tstep e (EstBump k) (bump_generation e) (EstConnect k (wrap 32 (generation (shared e) + 1)))
| t_est_connected k g udp :
    tstep e (EstConnect k g) (mkPoolEnv (shared e) (closed e) (S (made e)) (now e))
      (EstStore k (mkRsqSession (made e) g (now e) udp))
| t_est_error k g err : tstep e (EstConnect k g) e (EstFailed k err)
| t_est_store k s : tstep e (EstStore k s) (set_session e (Some s)) (EstFinal k)
| t_est_final k s : cached_session max_age e = Some s -> tstep e (EstFinal k) e (EstDone k s)
| t_est_lost k : cached_session max_age e = None -> tstep e (EstFinal k) e (EstFailed k LOST)
| t_est_done k s : tstep e (EstDone k s) (release k e) (obtained k s)
| t_est_failed k err : tstep e (EstFailed k err) (release k e) (failed k err)
(** [dial_tcp_inner] behind [get_connection], and the retry *)
| t_current k s : generation_still_current e (ss_generation s) = true ->
    tstep e (Has k s) e (Using k s)
| t_expired k s : generation_still_current e (ss_generation s) = false ->
    tstep e (Has k s) e (failed k EXPIRED)
| t_open_expired k s : generation_still_current e (ss_generation s) = false ->
    tstep e (Using k s) e (failed k EXPIRED)
| t_open_error k s err : tstep e (Using k s) e (failed k err)
| t_opened k s : generation_still_current e (ss_generation s) = true -> tstep e (Using k s) e Served
| t_retry k : tstep e (Retry k) (reset_session e) (Start k)
(** The probe loop *)
| t_probe_none n : cached_session max_age e = None -> tstep e (ProbeSleep n) e (ProbeSleep 0)
| t_probe n s : cached_session max_age e = Some s -> tstep e (ProbeSleep n) e (Probing n)
| t_probe_ok n : tstep e (Probing n) e (ProbeSleep 0)
| t_probe_timeout n : tstep e (Probing n) (reset_session e) (EstCheck Probe)
| t_probe_failed n : n + 1 < 2 -> tstep e (Probing n) e (ProbeSleep (n + 1))
| t_probe_failed_again n : 2 <= n + 1 -> tstep e (Probing n) (reset_session e) (EstCheck Probe).

(** A pool of tasks and what happens around them: a task that enters [get_connection]
    starts the probe loop, once ([maybe_start_probe_loop]); a connection ends, its watcher
    runs, the outbound is closed, time passes. *)
Inductive wstep : PoolEnv * list task_pc -> PoolEnv * list task_pc -> Prop :=
| w_start e ts i k : ts !! i = Some (Start k) ->
    wstep (e, ts) (set_probe_started e,
                   <[i := Get k]> ts ++ (if probe_task_started (shared e) then [] else [ProbeSleep 0]))
| w_task e e' ts i p p' : ts !! i = Some p -> tstep e p e' p' -> wstep (e, ts) (e', <[i := p']> ts)
| w_conn_closed e ts c : wstep (e, ts) (close_connection e c, ts)
| w_watcher e ts c g : c ∈ closed e -> wstep (e, ts) (close_watcher c g e, ts)
| w_close e ts : wstep (e, ts) (reset_session e, ts)
| w_time e ts t : now e <= t -> wstep (e, ts) (mkPoolEnv (shared e) (closed e) (made e) t, ts).
End Steps.

Definition initial : PoolEnv := mkPoolEnv (mkRsqShared None false 0 false) ∅ 0 0.

(** ** Who connects *)

Definition inside (p : task_pc) : bool :=
  match p with
  | EstCheck _ | EstReset _ | EstBump _ | EstConnect _ _ | EstStore _ _ | EstFinal _ | EstDone _ _
  | EstFailed _ _ => true
  | _ => false
  end.
Definition is_probe (k : task_kind) : bool := match k with Probe => true | _ => false end.
Definition probing (p : task_pc) : bool :=
  match p with
  | Start k | Get k | Claim k | Waiting k | EstCheck k | EstReset k | EstBump k | EstConnect k _ | EstStore k _
  | EstFinal k | EstDone k _ | EstFailed k _ | Has k _ | Using k _ | Retry k => is_probe k
  | Served | Failed _ => false
  | ProbeSleep _ | Probing _ => true
  end.
(** The probe loop never enters [get_connection]. *)
Definition kind_ok (p : task_pc) : Prop :=
  match p with Start k | Get k | Claim k | Waiting k | Has k _ | Using k _ | Retry k => is_probe k = false | _ => True end.

Record guard_inv (e : PoolEnv) (ts : list task_pc) : Prop := {
  gi_kinds : forall i p, ts !! i = Some p -> kind_ok p;
  gi_guarded : forall i p, ts !! i = Some p -> inside p = true -> probing p = false -> connect_inflight (shared e) = true;
  gi_alone : forall i j p q, ts !! i = Some p -> ts !! j = Some q ->
    inside p = true -> inside q = true -> probing p = false -> probing q = false -> i = j;
  gi_probe : forall i j p q, ts !! i = Some p -> ts !! j = Some q -> probing p = true -> probing q = true -> i = j;
  gi_started : forall i p, ts !! i = Some p -> probing p = true -> probe_task_started (shared e) = true;
}.

Lemma reset_session_cases e :
  (session (shared e) = None /\ reset_session e = e)
  \/ (session (shared e) <> None /\ session (shared (reset_session e)) = None
      /\ connect_inflight (shared (reset_session e)) = connect_inflight (shared e)).
Proof. unfold reset_session. destruct (session (shared e)); [by right|by left]. Qed.
Lemma reset_session_none e : session (shared (reset_session e)) = None.
Proof. by destruct (reset_session_cases e) as [[? ->] | (_ & ? & _)]. Qed.
Lemma reset_inflight e : connect_inflight (shared (reset_session e)) = connect_inflight (shared e).
Proof. by destruct (reset_session_cases e) as [[_ ->] | (_ & _ & ?)]. Qed.
Lemma reset_started e : probe_task_started (shared (reset_session e)) = probe_task_started (shared e).
Proof. unfold reset_session. by destruct (session (shared e)). Qed.

Lemma obtained_outside k s : inside (obtained k s) = false /\ probing (obtained k s) = is_probe k /\ kind_ok (obtained k s).
Proof. destruct k as [[] | [] | ]; cbn; [done..|by destruct (ss_udp_enabled s)|by destruct (ss_udp_enabled s)|done]. Qed.
Lemma failed_outside k err : inside (failed k err) = false /\ probing (failed k err) = is_probe k /\ kind_ok (failed k err).
Proof. destruct k as [[] | [] | ]; simpl; try done. by repeat case_match. Qed.

(** What a step of a task does to the right to connect: a dial comes in by claiming it, and
    gives it back when it leaves. *)
Lemma tstep_guard max_age e p e' p' : kind_ok p -> tstep max_age e p e' p' ->
  kind_ok p' /\ probing p' = probing p /\ probe_task_started (shared e') = probe_task_started (shared e)
  /\ (probing p = true -> connect_inflight (shared e') = connect_inflight (shared e))
  /\ (probing p = false ->
      (inside p = true /\ inside p' = false) \/ (inside p = inside p' /\ connect_inflight (shared e') = connect_inflight (shared e))
      \/ (inside p = false /\ connect_inflight (shared e) = false /\ connect_inflight (shared e') = true)).
Proof.
  intros Hk Hs. destruct Hs; cbn [kind_ok probing inside] in *;
    try pose proof (obtained_outside k s); try pose proof (failed_outside k EXPIRED);
    try pose proof (failed_outside k WAIT_TIMED_OUT); try pose proof (failed_outside k err); destruct_and?;
    rewrite ?reset_started, ?reset_inflight; split_and!;
    try first [done|congruence|by intros; right; left|by intros; left|by intros; right; right
              |unfold release; destruct k; done|intros _; right; left; split; congruence
              |intros; left; split; congruence].
Qed.

Lemma guard_inv_step max_age w w' : wstep max_age w w' -> guard_inv w.1 w.2 -> guard_inv w'.1 w'.2.
Proof.
  destruct 1 as [e ts i k Hi|e e' ts i p p' Hp Ht|e ts c|e ts c g Hc|e ts|e ts t Ht]; cbn [fst snd]; intros [Hk Hg Ha Hpr Hst].
  - pose proof (Hk _ _ Hi) as Hki. cbn [kind_ok] in Hki.
    set (new := if probe_task_started (shared e) then [] else [ProbeSleep 0]).
    assert (Hlook : forall j q, (<[i := Get k]> ts ++ new) !! j = Some q ->
      (inside q = false /\ probing q = false /\ kind_ok q) \/ ts !! j = Some q
      \/ (q = ProbeSleep 0 /\ j = length ts /\ probe_task_started (shared e) = false)).
    { intros j q. rewrite lookup_app_Some. intros [Hj|[Hlen Hj]].
      - apply list_lookup_insert_Some in Hj as [(-> & <- & _)|[_ Hj]]; [left|right; left; done]. done.
      - right. right. unfold new in Hj. destruct (probe_task_started (shared e)); [done|]. apply list_lookup_singleton_Some in Hj as [Hj <-].
        rewrite length_insert in *. split_and!; [done|lia|done]. }
    constructor.
    + intros j q Hq. destruct (Hlook j q Hq) as [(_ & _ & ?)|[Hj|(-> & _)]]; [done|eauto|done].
    + intros j q Hq Hin Hno. destruct (Hlook j q Hq) as [(? & _)|[Hj|(-> & _)]]; [congruence|exact (Hg j q Hj Hin Hno)|done].
    + intros j l q q' Hq Hq' Hin Hin' Hn Hn'. destruct (Hlook j q Hq) as [(? & _)|[Hj|(-> & _)]]; [congruence| |done].
      destruct (Hlook l q' Hq') as [(? & _)|[Hl|(-> & _)]]; [congruence|eauto|done].
    + intros j l q q' Hq Hq' Hn Hn'. destruct (Hlook j q Hq) as [(_ & ? & _)|[Hj|(-> & -> & Hs)]]; [congruence| |];
        (destruct (Hlook l q' Hq') as [(_ & ? & _)|[Hl|(-> & -> & Hs')]]; [congruence| |]).
      * eauto.
      * by rewrite (Hst j q Hj Hn) in Hs'.
      * by rewrite (Hst l q' Hl Hn') in Hs.
      * done.
    + done.
  - destruct (tstep_guard max_age e p e' p' (Hk i p Hp) Ht) as (Hk' & Hpp & Hs' & Hcp & Hcd).
    assert (Hothers : forall j q, ts !! j = Some q -> j <> i -> inside q = true -> probing q = false -> connect_inflight (shared e') = true /\ (probing p = true \/ inside p' = false)).
    { intros j q Hq Hne Hin Hno. pose proof (Hg j q Hq Hin Hno) as Hcon. destruct (probing p) eqn:Ep; [rewrite Hcp by done; split; [done|by left]|].
      destruct (Hcd eq_refl) as [[Hip Hip']|[[Hip Hc]|(_ & Hc & _)]].
      - exfalso. apply Hne. eapply Ha; eauto.
      - rewrite Hc. split; [done|right]. destruct (inside p') eqn:E; [|done]. exfalso. apply Hne. by eapply Ha; eauto; congruence.
      - congruence. }
    constructor.
    + intros j q. rewrite list_lookup_insert_Some. intros [(_ & <- & _)|[_ Hq]]; eauto.
    + intros j q. rewrite list_lookup_insert_Some. intros [(_ & <- & _)|[Hne Hq]] Hin Hno.
      * rewrite Hpp in Hno. destruct (Hcd Hno) as [[_ ?]|[[Hip Hc]|(_ & _ & Hc)]]; [congruence|rewrite Hc; eapply Hg; eauto; congruence|done].
      * by apply (Hothers j q).
    + intros j l q q'. rewrite !list_lookup_insert_Some.
      intros [(-> & <- & _)|[Hne Hq]] [(-> & <- & _)|[Hne' Hq']] Hin Hin' Hno Hno'; [done| | |eauto].
      * destruct (Hothers l q' Hq') as [_ [?|?]]; [done..|congruence|congruence].
      * destruct (Hothers j q Hq) as [_ [?|?]]; [done..|congruence|congruence].
    + intros j l q q'. rewrite !list_lookup_insert_Some.
      intros [(-> & <- & _)|[Hne Hq]] [(-> & <- & _)|[Hne' Hq']] Hno Hno'; [done| | |eauto].
      * rewrite Hpp in Hno. eauto.
      * rewrite Hpp in Hno'. eauto.
    + intros j q. rewrite list_lookup_insert_Some, Hs'. intros [(_ & <- & _)|[_ Hq]] Hno; [rewrite Hpp in Hno|]; eauto.
  - by constructor.
  - unfold close_watcher. destruct (session (shared e)) as [s|]; [|by constructor]. destruct (_ && _); by constructor.
  - constructor; rewrite ?reset_inflight, ?reset_started; done.
  - by constructor.
Qed.

(** ** The session in the cell *)

(** What an establishing task relies on: nobody else stores a session or moves the
    generation. *)
Definition settled (e : PoolEnv) (p : task_pc) : Prop :=
  match p with
  | EstBump _ => session (shared e) = None
  | EstConnect _ g => session (shared e) = None /\ generation (shared e) = g
  | EstStore _ s => session (shared e) = None /\ generation (shared e) = ss_generation s
  | _ => True
  end.
Definition current (e : PoolEnv) : Prop :=
  forall s, session (shared e) = Some s -> ss_generation s = generation (shared e).
(** The probe loop and a dial connecting at the same time. *)
Definition overlap (ts : list task_pc) : Prop :=
  exists i j p q, ts !! i = Some p /\ ts !! j = Some q /\ inside p = true /\ inside q = true /\ probing p = true /\ probing q = false.

Lemma settled_outside e p : inside p = false -> settled e p.
Proof. by destruct p. Qed.
Lemma reset_current e : current (reset_session e).
Proof. intros s. by rewrite reset_session_none. Qed.
Lemma reset_settled e p : settled e p -> settled (reset_session e) p.
Proof.
  destruct (reset_session_cases e) as [[_ ->] | (Hs & _ & _)]; [done|].
  destruct p; simpl; try done; intros; destruct_and?; congruence.
Qed.
Lemma tstep_cell max_age e p e' p' : current e -> settled e p -> tstep max_age e p e' p' ->
  current e' /\ settled e' p' /\ (inside p = true \/ forall q, settled e q -> settled e' q).
Proof.
  intros Hc Hs Hstep. destruct Hstep; cbn [settled inside] in *;
    try pose proof (obtained_outside k s); try pose proof (failed_outside k EXPIRED);
    try pose proof (failed_outside k WAIT_TIMED_OUT); try pose proof (failed_outside k err); destruct_and?;
    (split; [try done|split; [try done; try by apply settled_outside|first [by left|right; try done; apply reset_settled]]]).
  all: try apply reset_current; try apply reset_session_none.
  - intros s Hses. cbn in Hses. congruence.
  - intros s' [= <-]. cbn. congruence.
  - intros s' Hses. unfold release in *. destruct (holds_guard k); apply Hc; done.
  - intros s' Hses. unfold release in *. destruct (holds_guard k); apply Hc; done.
Qed.

Record cell_inv (e : PoolEnv) (ts : list task_pc) : Prop := {
  ci_current : current e;
  ci_settled : forall i p, ts !! i = Some p -> settled e p;
}.
Lemma cell_step max_age w w' : wstep max_age w w' -> guard_inv w.1 w.2 -> ~ overlap w.2 -> cell_inv w.1 w.2 -> cell_inv w'.1 w'.2.
Proof.
  destruct 1 as [e ts i k Hi|e e' ts i p p' Hp Ht|e ts c|e ts c g Hc|e ts|e ts t Ht]; cbn [fst snd]; intros Hg Hno [Hcur Hset].
  - constructor; [exact Hcur|]. intros j q. rewrite lookup_app_Some. intros [Hj|[_ Hj]].
    + apply list_lookup_insert_Some in Hj as [(_ & <- & _)|[_ Hj]]; [done|]. specialize (Hset j q Hj). by destruct q.
    + destruct (probe_task_started (shared e)); [done|]. by apply list_lookup_singleton_Some in Hj as [_ <-].
  - destruct (tstep_cell max_age e p e' p' Hcur (Hset i p Hp) Ht) as (Hc' & Hs' & Hq). constructor; [done|].
    intros j q. rewrite list_lookup_insert_Some. intros [(_ & <- & _)|[Hne Hj]]; [done|].
    destruct Hq as [Hin|Hq]; [|eauto]. apply settled_outside. destruct (inside q) eqn:Eq; [|done]. exfalso.
    destruct (probing p) eqn:Ep, (probing q) eqn:Eq'.
    + apply Hne. by eapply (gi_probe _ _ Hg).
    + apply Hno. by exists i, j, p, q.
    + apply Hno. by exists j, i, q, p.
    + apply Hne. by eapply (gi_alone _ _ Hg).
  - constructor; [exact Hcur|]. intros j q Hj. specialize (Hset j q Hj). by destruct q.
  - unfold close_watcher. destruct (session (shared e)) as [s|] eqn:Es; [|done]. destruct (_ && _); [|done].
    constructor; [by intros s'|]. intros j q Hj. specialize (Hset j q Hj). destruct q; cbn in Hset |- *; try done; destruct_and?; congruence.
  - constructor; [apply reset_current|]. intros j q Hj. apply reset_settled; eauto.
  - constructor; [exact Hcur|]. intros j q Hj. specialize (Hset j q Hj). by destruct q.
Qed.

Definition fresh_dial (p : task_pc) : Prop := p = Start (Dial true) \/ p = Start (Udp true).
(** Steps of runs in which the two do not overlap. *)
Definition calm_step (max_age : Z) (w w' : PoolEnv * list task_pc) : Prop := ~ overlap w.2 /\ wstep max_age w w'.

Lemma initial_inv ts : Forall fresh_dial ts -> guard_inv initial ts /\ cell_inv initial ts.
Proof.
  intros Hf. assert (Hd : forall i p, ts !! i = Some p -> fresh_dial p)
    by (intros i p Hp; by eapply Forall_lookup_1).
  split; constructor; [..|done|]; intros.
  all: match goal with H : _ !! _ = Some ?p |- _ => by destruct (Hd _ p H) as [-> | ->] end.
Qed.
Lemma guard_run max_age w w' : rtc (wstep max_age) w w' -> guard_inv w.1 w.2 -> guard_inv w'.1 w'.2.
Proof. induction 1 as [|w0 w1 w2 Hs _ IH]; [done|]. intros. apply IH. by eapply guard_inv_step. Qed.

(** C14.  Dials share the right to connect, and the session.  Any number of TCP and UDP
    dials, the first of which starts the probe loop, interleaved in any way with each other,
    with the probe loop, with connections that end, their watchers and resets: at most one
    dial is connecting, and besides it at most the one probe loop.  As long as those two
    have not been connecting at the same time (the probe loop does not claim the right), the
    session in the cell belongs to the current generation, so a dial that finds one is not
    turned away as expired unless the session is reset behind its back. *)
Theorem dials_share_session max_age dials w :
  Forall fresh_dial dials ->
  (rtc (wstep max_age) (initial, dials) w -> forall i j p q, w.2 !! i = Some p -> w.2 !! j = Some q ->
     inside p = true -> inside q = true -> probing p = probing q -> i = j)
  /\ (rtc (calm_step max_age) (initial, dials) w ->
     forall s, session (shared w.1) = Some s -> generation_still_current w.1 (ss_generation s) = true).
Proof.
  intros Hf. destruct (initial_inv dials Hf) as [Hg Hc]. split.
  - intros Hr i j p q Hp Hq Hin Hin' Hk. apply guard_run in Hr as [_ _ Ha Hpr _]; [|done].
    destruct (probing p) eqn:E; [by eapply Hpr|by eapply Ha].
  - intros Hr. assert (inv : guard_inv w.1 w.2 /\ cell_inv w.1 w.2).
    { remember (initial, dials) as w0 eqn:E. assert (Hw : guard_inv w0.1 w0.2 /\ cell_inv w0.1 w0.2) by (by subst). clear E Hf Hg Hc.
      induction Hr as [|w0 w1 w2 [Hno Hs] _ IH]; [done|]. apply IH. destruct Hw. split; [by eapply guard_inv_step|by eapply cell_step]. }
    intros s Hs. apply Z.eqb_eq. symmetry. by apply inv.
Qed.

Ltac move_start i := eapply rtc_l; [eapply (w_start _ _ _ i); reflexivity|]; cbn [list_insert insert app].
Ltac move_task i rule :=
  eapply rtc_l; [eapply (w_task _ _ _ _ i); [reflexivity|eapply rule; vm_compute; reflexivity]|];
  cbn [list_insert insert obtained failed].
(** The steps of a task that connects, up to the store. *)
Ltac connect_upto i :=
  move_task i t_est_missing; move_task i t_est_reset; move_task i t_est_bump.
Ltac connected i :=
  eapply rtc_l; [eapply (w_task _ _ _ _ i); [reflexivity|exact (t_est_connected _ _ _ _ true)]|]; cbn [list_insert insert].
Ltac stored i := move_task i t_est_store; move_task i t_est_final; move_task i t_est_done.

(** A calm step of a concrete pool, where the tasks can be looked at one by one. *)
Lemma calm_pool ts : existsb (fun p => inside p && probing p) ts = false -> ~ overlap ts.
Proof.
  intros He (i & j & p & q & Hp & _ & Hin & _ & Hpr & _). apply not_true_iff_false in He. apply He, existsb_exists.
  exists p. split; [by apply list_elem_of_In, list_elem_of_lookup; exists i|]. by rewrite Hin, Hpr.
Qed.
Ltac calm_start i := eapply rtc_l; [split; [apply calm_pool; reflexivity|eapply (w_start _ _ _ i); reflexivity]|]; cbn [list_insert insert app].
Ltac calm_task i rule :=
  eapply rtc_l; [split; [apply calm_pool; reflexivity|eapply (w_task _ _ _ _ i); [reflexivity|eapply rule; vm_compute; reflexivity]]|];
  cbn [list_insert insert obtained failed ss_udp_enabled].

Lemma dials_share_session_witness :
  exists w, rtc (calm_step DEFAULT_MAX_SESSION_AGE) (initial, [Start (Dial true); Start (Udp true)]) w
    /\ w.2 = [Served; Served; ProbeSleep 0]
    /\ forall s, session (shared w.1) = Some s -> generation_still_current w.1 (ss_generation s) = true.
Proof.
  assert (Hr : exists e, rtc (calm_step DEFAULT_MAX_SESSION_AGE) (initial, [Start (Dial true); Start (Udp true)])
    (e, [Served; Served; ProbeSleep 0])).
  { eexists. calm_start 0%nat. calm_start 1%nat. calm_task 0%nat t_missing. calm_task 0%nat t_claim. calm_task 0%nat t_est_missing.
    calm_task 0%nat t_est_reset. calm_task 0%nat t_est_bump.
    eapply rtc_l; [split; [apply calm_pool; reflexivity|eapply (w_task _ _ _ _ 0%nat); [reflexivity|exact (t_est_connected _ _ _ _ true)]]|]; cbn [list_insert insert].
    calm_task 0%nat t_est_store. calm_task 0%nat t_est_final. calm_task 0%nat t_est_done. calm_task 0%nat t_current. calm_task 0%nat t_opened.
    calm_task 1%nat t_cached. apply rtc_refl. }
  destruct Hr as [e Hr]. exists (e, [Served; Served; ProbeSleep 0]). split_and!; [done|done|].
  refine (proj2 (dials_share_session DEFAULT_MAX_SESSION_AGE [Start (Dial true); Start (Udp true)] _ _) Hr).
  constructor; [by left|]. constructor; [by right|constructor].
Defined.

(** ** When the probe loop and a dial overlap *)

(** A usable session of an old generation: every TCP dial takes it and is turned away,
    without a reset. *)
Lemma stale_dial max_age e s f e1 p1 : cached_session max_age e = Some s ->
  generation_still_current e (ss_generation s) = false ->
  tstep max_age e (Get (Dial f)) e1 p1 ->
  e1 = e /\ p1 = Has (Dial f) s
  /\ forall e2 p2, tstep max_age e1 p1 e2 p2 -> e2 = e /\ p2 = Failed EXPIRED.
Proof.
  intros Hc Hg H1. inversion H1; subst; [|congruence].
  assert (s0 = s) as -> by congruence. split_and!; [done..|].
  intros e2 p2 H2. inversion H2; subst; [congruence|]. split; [done|]. by destruct f.
Qed.
(** A UDP dial takes it and looks no further. *)
Lemma stale_udp max_age e s f e1 p1 : cached_session max_age e = Some s -> ss_udp_enabled s = true ->
  tstep max_age e (Get (Udp f)) e1 p1 -> e1 = e /\ p1 = Served.
Proof.
  intros Hc Hu H1. inversion H1; subst; [|congruence]. assert (s0 = s) as -> by congruence. cbn. by rewrite Hu.
Qed.

(** C15.  The probe loop breaks the guard.  It calls [establish_session] without
    claiming [connect_inflight], so it can connect at the same time as a dial; when
    the dial, which took the later generation, stores first, the cell is left with a
    live session of an older generation.  From then on every TCP dial takes that
    session, fails as expired and, since that error is not retried, changes nothing:
    TCP through the outbound is dead until the session ends by itself.  UDP dials, which do
    not compare generations, go on over it. *)
Theorem probe_race_kills_outbound :
  exists e s, rtc (wstep DEFAULT_MAX_SESSION_AGE)
      (initial, [Start (Dial true); Start (Dial true)]) (e, [Served; Served; ProbeSleep 0])
  /\ cached_session DEFAULT_MAX_SESSION_AGE e = Some s
  /\ (forall first e1 p1, tstep DEFAULT_MAX_SESSION_AGE e (Get (Dial first)) e1 p1 ->
       e1 = e /\ forall e2 p2, tstep DEFAULT_MAX_SESSION_AGE e1 p1 e2 p2 ->
         e2 = e /\ p2 = Failed EXPIRED)
  /\ (forall first e1 p1, tstep DEFAULT_MAX_SESSION_AGE e (Get (Udp first)) e1 p1 -> e1 = e /\ p1 = Served).
Proof.
  eexists _, (mkRsqSession 2 3 0 true). split; [|split; [|split]].
  - move_start 0%nat. move_start 1%nat. move_task 0%nat t_missing. move_task 0%nat t_claim. connect_upto 0%nat.
    connected 0%nat. stored 0%nat. move_task 0%nat t_current. move_task 0%nat t_opened.
    move_task 2%nat t_probe. move_task 2%nat t_probe_timeout. connect_upto 2%nat.
    move_task 1%nat t_missing. move_task 1%nat t_claim. connect_upto 1%nat. connected 1%nat. stored 1%nat.
    move_task 1%nat t_current. move_task 1%nat t_opened.
    connected 2%nat. stored 2%nat. apply rtc_refl.
  - vm_compute. reflexivity.
  - intros f e1 p1 H1. apply stale_dial with (s := mkRsqSession 2 3 0 true) in H1 as (He & _ & H2);
      [by rewrite He in *|by vm_compute|by vm_compute].
  - intros f e1 p1 H1. by apply stale_udp with (s := mkRsqSession 2 3 0 true) in H1; [|by vm_compute|].
Qed.

(** ** The retry *)

Lemma starts_with_more s pat r : starts_with s pat = true -> starts_with (s ++ r) pat = true.
Proof.
  revert s. induction pat as [|p pat IH]; intros [|c s]; cbn [starts_with app]; try done;
    [by destruct r|]. intros [Hc H]%andb_true_iff. rewrite Hc. by apply IH.
Qed.
Lemma contains_app_r s pat r : contains s pat = true -> contains (s ++ r) pat = true.
Proof.
  induction s as [|c s IH]; cbn [contains app]; rewrite orb_true_iff.
  - intros [H | H]; [|done]. destruct pat; [|done]. by destruct r.
  - rewrite orb_true_iff. intros [H | H]; [left; by apply (starts_with_more (c :: s))|auto].
Qed.
Lemma contains_app_l s pat l : contains s pat = true -> contains (l ++ s) pat = true.
Proof. intros H. induction l as [|c l IH]; [done|]. cbn [app contains]. by rewrite IH, orb_true_r. Qed.

(** The text [dial_tcp_inner] returns for a refusal of the server. *)
Definition rejected (msg : list byte) : list byte := str "rsq tcp open rejected: " ++ msg.

(** What the retry reacts to.  A stream that cannot be opened on the session,
    by error or by timeout, is reported as "open rsq stream", the context put around
    both, and neither resets the session nor is retried, although "open stream
    timeout" is on the list of texts that should; and a server's refusal to connect to
    any target whose name contains "auth" does reset it, ending the other streams. *)
Theorem retry_by_text :
  (forall k, failed (Dial k) (str "open rsq stream") = Failed (str "open rsq stream"))
  /\ (forall err, should_reset_rsq_session (str "rsq: open stream timeout" ++ err) = true)
  /\ (forall verb target err, contains (to_ascii_lowercase target) (str "auth") = true ->
       should_reset_rsq_session (rejected (str verb ++ target ++ str ": " ++ err)) = true)
  /\ failed (Dial true) (rejected (str "connect oauth.example.com:443: Connection refused (os error 111)"))
     = Retry (Dial false).
Proof.
  split_and!.
  - by intros [].
  - intros err. unfold should_reset_rsq_session, mentions, to_ascii_lowercase. rewrite map_app.
    apply existsb_exists. exists "open stream timeout"%string. split; [simpl; tauto|].
    by apply contains_app_r.
  - intros verb target err Ht. unfold should_reset_rsq_session, mentions.
    apply existsb_exists. exists "auth"%string. split; [simpl; tauto|].
    unfold rejected, to_ascii_lowercase in *. rewrite !map_app.
    by apply contains_app_l, contains_app_l, contains_app_r.
  - by vm_compute.
Qed.

Lemma retry_by_text_witness :
  should_reset_rsq_session (rejected (str "resolve " ++ str "AUTH.local:80" ++ str ": " ++ str "no such host"))
  = true.
Proof.
  exact (proj1 (proj2 (proj2 retry_by_text)) "resolve "%string (str "AUTH.local:80") (str "no such host")
    ltac:(vm_compute; reflexivity)).
Defined.
