(* ===== verification/Config.v ===== *)
(** * Configuration

    [rsb-config/src/lib.rs] (options, their validation and the tags they give), the
    readers of inbound configurations in [rsq/mod.rs], [rst/mod.rs] and
    [hysteria2/mod.rs], those of outbounds in [rst/client.rs] and
    [hysteria2/client.rs] (RSQ's is in [RsqPool]), and [parse_listen] of [direct.rs].

    JSON text is turned into values by [serde_json]; the structures read here with
    [serde_json::from_value] (the TLS section and the user list) are decoded as the
    derived code does, from objects and from arrays.  Durations are in seconds, those
    of RST in milliseconds. *)
From stdpp Require Import base tactics gmap list strings sorting.
From Stdlib Require Import ZArith Lia.
From Stdlib Require Import Strings.Byte.
From S2P Require Import Prelude Json Text Ip RuleSets Users DnsRouter Groups.
From S2P Require Import Obfs RsqPool.

Local Open Scope Z_scope.

(** ** Options *)

Record OutboundCfg := mkOutboundCfg {
  oc_kind : list byte;
  oc_tag : option (list byte);
  oc_raw : Value;
}.
Record OutboundProvider := mkOutboundProvider {
  op_kind : list byte;
  op_url : list byte;
  op_tag : option (list byte);
  op_user_agent : option (list byte);
  op_selector_tag : option (list byte);
}.
Record Options := mkOptions {
  o_dns : option DnsOptions;
  o_inbounds : list InboundCfg;
  o_outbounds : list OutboundCfg;
  o_route : option RouteOptions;
  o_providers : list OutboundProvider;
}.

(** The loops over tags: [what] is the message of a duplicate. *)
Fixpoint insert_tags (prefix : string) (msg : string) (l : list (option (list byte)))
    (tags : gset (list byte)) : result (gset (list byte)) :=
  match l with
  | [] => Ok tags
  | None :: l => insert_tags prefix msg l tags
  | Some t :: l =>
      let key := str prefix ++ t in
      if bool_decide (key ∈ tags) then Err msg else insert_tags prefix msg l ({[key]} ∪ tags)
  end.

Definition validate (o : Options) : result unit :=
  if bool_decide (o_inbounds o = []) && bool_decide (o_outbounds o = []) then
    Err "config must contain at least one inbound or outbound"
  else
    tags ← insert_tags "out:" "duplicate outbound tag" (map oc_tag (o_outbounds o)) ∅;
    _ ← insert_tags "in:" "duplicate inbound tag" (map ib_tag (o_inbounds o)) tags;
    Ok tt.

Definition route_final (o : Options) : option (list byte) :=
  r ← o_route o; or_else (ro_final_tag r) (ro_final r).

Definition outbound_tag (ob : OutboundCfg) (i : Z) : list byte := default (show_uint i) (oc_tag ob).

Definition default_outbound_tag (o : Options) : result (list byte) :=
  match route_final o with
  | Some t => Ok t
  | None =>
      match o_outbounds o with
      | first :: _ => Ok (outbound_tag first 0)
      | [] => Err "no outbounds configured"
      end
  end.

Definition ALL_INBOUND_TYPES : list (list byte) :=
  map str ["mixed"; "http"; "socks"; "direct"; "dns"; "hysteria2"; "rsq"; "rst"; "tun"]%string.
Definition ALL_OUTBOUND_TYPES : list (list byte) :=
  map str ["direct"; "block"; "dns"; "selector"; "urltest"; "fallback"; "hysteria2"; "rsq"; "rst"]%string.
Definition is_known_inbound (kind : list byte) : bool := bool_decide (kind ∈ ALL_INBOUND_TYPES).
Definition is_known_outbound (kind : list byte) : bool := bool_decide (kind ∈ ALL_OUTBOUND_TYPES).

(** [raw.get(k)] with one of the [as_*] accessors. *)
Definition text (v : Value) (k : string) : option (list byte) := x ← get v k; as_str x.
Definition flag (v : Value) (k : string) : option bool := x ← get v k; as_bool x.
Definition number (v : Value) (k : string) : option Z := x ← get v k; as_u64 x.

(** [udp_tunnel_endpoints] before it is sorted: the servers of QUIC outbounds. *)
Definition UDP_KINDS : list (list byte) := map str ["rsq"; "rst"; "hysteria2"]%string.
Definition tunnel_endpoint (ob : OutboundCfg) : option (list byte * Z) :=
  if negb (existsb (eq_ignore_ascii_case (oc_kind ob)) UDP_KINDS) then None
  else
    let server := trim (default [] (text (oc_raw ob) "server")) in
    if bool_decide (server = []) then None
    else
      let port := u16 (default 0 (or_else (number (oc_raw ob) "server_port") (number (oc_raw ob) "port"))) in
      if port =? 0 then None else Some (server, port).

(** The order of pairs of a [String] and a [u16]. *)
Fixpoint bytes_le (a b : list byte) : bool :=
  match a, b with
  | [], _ => true
  | _ :: _, [] => false
  | x :: a, y :: b => if bz x =? bz y then bytes_le a b else bz x <? bz y
  end.
Definition endpoint_le (p q : list byte * Z) : bool :=
  if bool_decide (p.1 = q.1) then p.2 <=? q.2 else bytes_le p.1 q.1.
Fixpoint insert_endpoint (p : list byte * Z) (l : list (list byte * Z)) : list (list byte * Z) :=
  match l with
  | [] => [p]
  | q :: l' => if endpoint_le p q then p :: l else q :: insert_endpoint p l'
  end.
Definition sort_endpoints (l : list (list byte * Z)) : list (list byte * Z) :=
  foldr insert_endpoint [] l.
(** [dedup]: of equal neighbours the first stays. *)
Fixpoint dedup_endpoints (l : list (list byte * Z)) : list (list byte * Z) :=
  match l with
  | [] => []
  | p :: l' =>
      match dedup_endpoints l' with
      | q :: r => if bool_decide (p = q) then q :: r else p :: q :: r
      | [] => [p]
      end
  end.
Definition udp_tunnel_endpoints (o : Options) : list (list byte * Z) :=
  dedup_endpoints (sort_endpoints (omap tunnel_endpoint (o_outbounds o))).

(** ** Listening address *)

Definition parse_listen (raw : Value) : result SocketAddr :=
  let listen := default (str "127.0.0.1") (text raw "listen") in
  let port := u16 (default 1080 (number raw "listen_port")) in
  let host := if contains listen (str ":") && negb (starts_with listen (str "["))
              then str "[" ++ listen ++ str "]" else listen in
  ok_or "invalid socket address syntax" (parse_socket_addr (host ++ str ":" ++ show_uint port)).

(** ** Structures read by serde *)

Definition de_bool (v : Value) : result bool :=
  match v with Bool b => Ok b | _ => Err "invalid type: expected a boolean" end.
Definition de_string (v : Value) : result (list byte) :=
  match v with Str s => Ok s | _ => Err "invalid type: expected a string" end.
Definition de_option_string (v : Value) : result (option (list byte)) :=
  match v with Null => Ok None | _ => Some <$> de_string v end.
Definition de_field {A} (d : A) (de : Value -> result A) (o : option Value) : result A :=
  match o with Some v => de v | None => Ok d end.
Fixpoint de_seq {A} (de : Value -> result A) (l : list Value) : result (list A) :=
  match l with
  | [] => Ok []
  | v :: l => a ← de v; r ← de_seq de l; Ok (a :: r)
  end.

(** [RsqTls], [RstTls] and [Hy2Tls]. *)
Record TlsCfg := mkTlsCfg {
  tls_enabled : bool;
  tls_certificate_path : option (list byte);
  tls_key_path : option (list byte);
  tls_certificate : option (list byte);
  tls_key : option (list byte);
}.
Definition de_tls (v : Value) : result TlsCfg :=
  match v with
  | Object fields =>
      e ← de_field false de_bool (get v "enabled");
      cp ← de_field None de_option_string (get v "certificate_path");
      kp ← de_field None de_option_string (get v "key_path");
      c ← de_field None de_option_string (get v "certificate");
      k ← de_field None de_option_string (get v "key");
      Ok (mkTlsCfg e cp kp c k)
  | Array (e :: cp :: kp :: rest) =>
      e ← de_bool e;
      cp ← de_option_string cp;
      kp ← de_option_string kp;
      c ← de_field None de_option_string (rest !! 0%nat);
      k ← de_field None de_option_string (rest !! 1%nat);
      if (2 <? length rest)%nat then Err "invalid length" else Ok (mkTlsCfg e cp kp c k)
  | Array _ => Err "invalid length"
  | _ => Err "invalid type: expected struct"
  end.

(** [RsqUser], [RstUser] and [Hy2User]. *)
Definition de_user (v : Value) : result (list byte) :=
  match v with
  | Object _ => match get v "password" with Some p => de_string p | None => Err "missing field `password`" end
  | Array [p] => de_string p
  | Array _ => Err "invalid length"
  | _ => Err "invalid type: expected struct"
  end.
Definition de_users (v : Value) : result (list (list byte)) :=
  match v with Array l => de_seq de_user l | _ => Err "invalid type: expected a sequence" end.

(** The users of a VMess or VLESS inbound: entries without a UUID are passed over. *)
Fixpoint uuid_users `{UserCrypto} (l : list Value) : result (list (list byte)) :=
  match l with
  | [] => Ok []
  | u :: l =>
      match text u "uuid" with
      | Some id => uid ← ok_or "invalid uuid" (uuid_parse id); r ← uuid_users l; Ok (uid :: r)
      | None => uuid_users l
      end
  end.

(** ** Inbounds *)

(** The fields the three server configurations share, and what obfuscates. *)
Record ServerConfig := mkServerConfig {
  sc_listen : SocketAddr;
  sc_inbound_tag : list byte;
  sc_cert_path : list byte;
  sc_key_path : list byte;
  sc_passwords : list (list byte);
  sc_up_mbps : Z;
  sc_down_mbps : Z;
  sc_udp : bool;
  sc_allow_private : bool;
  sc_obfs : option (list byte * ObfsVersion);
}.

(** [parse_obfs] of RSQ and RST; RSQ indexes the user list without a test, behind
    one that excludes the empty list. *)
Definition parse_obfs (raw : Value) (users : list (list byte)) : result (option (list byte * ObfsVersion)) :=
  match get raw "obfs" with
  | None => Ok None
  | Some cfg =>
      if bool_decide (flag cfg "enabled" = Some false) then Ok None
      else
        let version := parse_version (number cfg "version") in
        match text cfg "password" with
        | Some pass => Ok (Some (pass, version))
        | None =>
            match users with
            | [u] => Ok (Some (u, version))
            | [] => Panic "index out of bounds"
            | _ => Err "obfs.password required when multiple users are configured"
            end
        end
  end.
(** Hysteria2 takes a password or leaves obfuscation off. *)
Definition hy2_obfs (raw : Value) (_ : list (list byte)) : result (option (list byte * ObfsVersion)) :=
  Ok ((fun p => (p, V1)) <$> (o ← get raw "obfs"; text o "password")).

(** The constructors, up to the words in their messages. *)
Definition quic_inbound_new (obfs : Value -> list (list byte) -> result (option (list byte * ObfsVersion)))
    (guards : bool) (tag : list byte) (raw : Value) : result ServerConfig :=
  let listen := default (str "0.0.0.0") (text raw "listen") in
  port ← ok_or "listen_port required" (number raw "listen_port");
  let port := u16 port in
  tls ← de_tls (default (Object []) (get raw "tls"));
  if negb (tls_enabled tls) then Err "tls.enabled is required"
  else
    cert ← ok_or "tls certificate_path required" (or_else (tls_certificate_path tls) (tls_certificate tls));
    key ← ok_or "tls key_path required" (or_else (tls_key_path tls) (tls_key tls));
    users ← match get raw "users" with Some v => de_users v | None => Ok [] end;
    let users := match users with
                 | [] => match text raw "password" with Some p => [p] | None => [] end
                 | _ => users
                 end in
    if bool_decide (users = []) then Err "users or password required"
    else
      obfs ← obfs raw users;
      addr ← ok_or "invalid socket address syntax" (parse_socket_addr (listen ++ str ":" ++ show_uint port));
      Ok (mkServerConfig addr tag cert key users
            (u32 (default 0 (number raw "up_mbps"))) (u32 (default 0 (number raw "down_mbps")))
            (default true (flag raw "udp"))
            (guards && default false (flag raw "allow_private")) obfs).
Definition rsq_inbound_new := quic_inbound_new parse_obfs false.
Definition rst_inbound_new := quic_inbound_new parse_obfs true.
Definition hy2_inbound_new := quic_inbound_new hy2_obfs false.

(** ** Outbounds *)

Record RstOutboundCfg := mkRstOutboundCfg {
  rst_tag : list byte;
  rst_server : list byte;
  rst_port : Z;
  rst_password : list byte;
  rst_up_mbps : Z;
  rst_down_mbps : Z;
  rst_sni : option (list byte);
  rst_insecure : bool;
  rst_obfs : option (list byte * ObfsVersion);
  rst_idle_timeout : Z;
  rst_keep_alive_period : Z;
  rst_stream_open_timeout : Z;
  rst_max_session_age : Z;
  rst_use_brutal : bool;
  rst_dial_concurrency : Z;
}.
Definition DEFAULT_DIAL_CONCURRENCY : Z := 12.

Definition rst_outbound_new (tag : list byte) (raw : Value) : result RstOutboundCfg :=
  let tls := get raw "tls" in
  password ← ok_or "rst: password required" (text raw "password");
  let obfs :=
    o ← get raw "obfs";
    if bool_decide (flag o "enabled" = Some false) then None
    else Some (default password (text o "password"), parse_version (number o "version")) in
  let use_brutal := default true (v ← or_else (get raw "brutal") (get raw "use_brutal"); as_bool v) in
  let dial_concurrency :=
    match number raw "dial_concurrency" with
    | Some n => if 0 <? n then n else DEFAULT_DIAL_CONCURRENCY
    | None => DEFAULT_DIAL_CONCURRENCY
    end in
  server ← ok_or "rst: server required" (text raw "server");
  port ← ok_or "rst: server_port required" (number raw "server_port");
  let dur k d := default d (s ← text raw k; Groups.parse_duration_str s) in
  Ok (mkRstOutboundCfg tag server (u16 port) password
        (u32 (default 0 (number raw "up_mbps"))) (u32 (default 0 (number raw "down_mbps")))
        (t ← tls; text t "server_name") (default false (t ← tls; flag t "insecure")) obfs
        (dur "idle_timeout" 30000) (dur "keep_alive_period" 10000)
        (dur "stream_open_timeout" 15000) (dur "max_session_age" (30 * 60 * 1000))
        use_brutal dial_concurrency).

Record Hy2OutboundCfg := mkHy2OutboundCfg {
  hy2_tag : list byte;
  hy2_server : list byte;
  hy2_port : Z;
  hy2_port_range : option (Z * Z);
  hy2_hop_interval : option Z;
  hy2_password : list byte;
  hy2_up_mbps : Z;
  hy2_down_mbps : Z;
  hy2_sni : option (list byte);
  hy2_insecure : bool;
  hy2_obfs_password : option (list byte);
  hy2_idle_timeout : Z;
  hy2_keep_alive_period : Z;
  hy2_probe_interval : Z;
  hy2_stream_open_timeout : Z;
  hy2_max_session_age : Z;
  hy2_disable_mtu_discovery : bool;
}.

(** The port, and the range to hop in. *)
Definition hy2_ports (raw : Value) : result (Z * option (Z * Z)) :=
  match get raw "server_ports" with
  | Some (Str ports) =>
      match split_once x2d ports with
      | Some (start, end_) =>
          s ← ok_or "invalid port range start" (parse_uint 16 (trim start));
          e ← ok_or "invalid port range end" (parse_uint 16 (trim end_));
          Ok (s, Some (s, e))
      | None => s ← ok_or "invalid port" (parse_uint 16 ports); Ok (s, None)
      end
  | Some _ => Err "server_ports must be string"
  | None =>
      p ← ok_or "hysteria2: server_port required" (number raw "server_port");
      Ok (u16 p, None)
  end.

Definition hy2_outbound_new (tag : list byte) (raw : Value) : result Hy2OutboundCfg :=
  let tls := get raw "tls" in
  let obfs := o ← get raw "obfs"; text o "password" in
  '(port, range) ← hy2_ports raw;
  let hop_interval := parse_duration_secs (text raw "hop_interval") in
  server ← ok_or "hysteria2: server required" (text raw "server");
  password ← ok_or "hysteria2: password required" (text raw "password");
  let dur k d := default d (parse_duration_secs (text raw k)) in
  Ok (mkHy2OutboundCfg tag server port range hop_interval password
        (u32 (default 0 (number raw "up_mbps"))) (u32 (default 0 (number raw "down_mbps")))
        (t ← tls; text t "server_name") (default false (t ← tls; flag t "insecure")) obfs
        (dur "idle_timeout" 30) (dur "keep_alive_period" 10) (dur "probe_interval" 20)
        (dur "stream_open_timeout" 15) (dur "max_session_age" (30 * 60))
        (default false (flag raw "disable_mtu_discovery"))).

(** ** Tags *)

Lemma insert_tags_spec prefix msg : forall l tags,
  (exists tags', insert_tags prefix msg l tags = Ok tags'
     /\ NoDup (omap id l) /\ (forall t, t ∈ omap id l -> str prefix ++ t ∉ tags)
     /\ forall k, k ∈ tags' <-> k ∈ tags \/ exists t, t ∈ omap id l /\ k = str prefix ++ t)
  \/ (insert_tags prefix msg l tags = Err msg
      /\ ~ (NoDup (omap id l) /\ forall t, t ∈ omap id l -> str prefix ++ t ∉ tags)).
Proof.
  induction l as [|[t|] l IH]; intros tags; cbn [insert_tags omap list_omap id].
  - left. exists tags. split_and!; [done|constructor|by intros t ?%elem_of_nil|].
    intros k. split; [auto|]. intros [?|(t & ?%elem_of_nil & _)]; done.
  - case_bool_decide as Hin.
    { right. split; [done|]. intros [_ Hn]. apply (Hn t); [left|done]. }
    destruct (IH ({[str prefix ++ t]} ∪ tags)) as [(tags' & -> & Hnd & Hf & Hk)|[-> Hbad]].
    + left. exists tags'. split_and!; [done| | |].
      * constructor; [|done]. intros Ht. apply (Hf t Ht). set_solver.
      * intros t' [->|Ht']%elem_of_cons; [done|]. specialize (Hf t' Ht'). set_solver.
      * intros k. rewrite Hk, elem_of_union, elem_of_singleton. split.
        -- intros [[->|?]|(t' & ? & ->)]; [right; exists t; split; [left|done]|auto|
             right; exists t'; split; [by right|done]].
        -- intros [?|(t' & [->|?]%elem_of_cons & ->)]; [auto|auto|]. right. by exists t'.
    + right. split; [done|]. intros [Hnd Hf]. apply NoDup_cons in Hnd as [Ht Hnd]. apply Hbad. split; [done|].
      intros t' Ht'. rewrite elem_of_union, elem_of_singleton. intros [Heq%app_inv_head|Hin'].
      * subst. done.
      * apply (Hf t'); [by right|done].
  - apply IH.
Qed.

Lemma tag_keys_disjoint t t' : str "out:" ++ t <> str "in:" ++ t'.
Proof. done. Qed.

(** Validation of a configuration.  It passes exactly when there is something
    to run, the outbounds that name a tag name different ones, and so do the
    inbounds; an inbound and an outbound may share a tag. *)
Lemma validate_iff o :
  validate o = Ok tt <->
  (o_inbounds o <> [] \/ o_outbounds o <> [])
  /\ NoDup (omap id (map oc_tag (o_outbounds o))) /\ NoDup (omap id (map ib_tag (o_inbounds o))).
Proof.
  unfold validate.
  destruct (bool_decide (o_inbounds o = []) && bool_decide (o_outbounds o = [])) eqn:E.
  { apply andb_true_iff in E as [->%bool_decide_eq_true ->%bool_decide_eq_true].
    split; [done|]. by intros [[|] _]. }
  assert (Hne : o_inbounds o <> [] \/ o_outbounds o <> []).
  { apply andb_false_iff in E as [H|H]; apply bool_decide_eq_false in H; auto. }
  destruct (insert_tags_spec "out:" "duplicate outbound tag" (map oc_tag (o_outbounds o)) ∅)
    as [(tags & -> & Hnd & _ & Hk)|[-> Hbad]]; cbn [mbind result_bind].
  2:{ split; [done|]. intros (_ & Hnd & _). destruct Hbad. split; [done|]. set_solver. }
  destruct (insert_tags_spec "in:" "duplicate inbound tag" (map ib_tag (o_inbounds o)) tags)
    as [(tags' & -> & Hnd' & _)|[-> Hbad]]; cbn [mbind result_bind]; [done|].
  split; [done|]. intros (_ & _ & Hnd'). destruct Hbad. split; [done|].
  intros t _ [?%elem_of_empty|(t' & _ & Heq)]%Hk; [done|].
  symmetry in Heq. by apply tag_keys_disjoint in Heq.
Qed.

(** ** Tunnel endpoints *)

Lemma bytes_le_total a : forall b, bytes_le a b = true \/ bytes_le b a = true.
Proof.
  induction a as [|x a IH]; intros [|y b]; simpl; auto.
  destruct (Z.eqb_spec (bz x) (bz y)) as [E|]; [rewrite E, Z.eqb_refl; apply IH|].
  rewrite (proj2 (Z.eqb_neq (bz y) (bz x))) by lia. rewrite !Z.ltb_lt. lia.
Qed.
Lemma bytes_le_antisym a : forall b, bytes_le a b = true -> bytes_le b a = true -> a = b.
Proof.
  induction a as [|x a IH]; intros [|y b]; simpl; try done.
  destruct (Z.eqb_spec (bz x) (bz y)) as [E|].
  - rewrite E, Z.eqb_refl. intros H1 H2. by rewrite (bz_inj _ _ E), (IH b).
  - rewrite (proj2 (Z.eqb_neq (bz y) (bz x))) by lia. rewrite !Z.ltb_lt. lia.
Qed.
Lemma bytes_le_trans a : forall b c, bytes_le a b = true -> bytes_le b c = true -> bytes_le a c = true.
Proof.
  induction a as [|x a IH]; intros [|y b] [|z c]; simpl; try done.
  destruct (Z.eqb_spec (bz x) (bz y)), (Z.eqb_spec (bz y) (bz z)), (Z.eqb_spec (bz x) (bz z));
    rewrite ?Z.ltb_lt; try lia; eauto.
Qed.

Definition endpoint_order (p q : list byte * Z) : Prop := endpoint_le p q = true.
#[export] Instance endpoint_trans : Transitive endpoint_order.
Proof.
  intros [s1 p1] [s2 p2] [s3 p3]. unfold endpoint_order, endpoint_le. cbn [fst snd].
  repeat case_bool_decide; subst; rewrite ?Z.leb_le; try done; try lia; eauto using bytes_le_trans.
  intros H1 H2. by destruct (bytes_le_antisym _ _ H1 H2).
Qed.
Lemma endpoint_total p q : endpoint_le p q = false -> endpoint_order q p.
Proof.
  destruct p as [s1 p1], q as [s2 p2]. unfold endpoint_order, endpoint_le. cbn [fst snd].
  repeat case_bool_decide; subst; try done; [rewrite Z.leb_le, Z.leb_gt; lia|].
  intros Hf. destruct (bytes_le_total s1 s2); congruence.
Qed.
Lemma endpoint_antisym p q : endpoint_order p q -> endpoint_order q p -> p = q.
Proof.
  destruct p as [s1 p1], q as [s2 p2]. unfold endpoint_order, endpoint_le. cbn [fst snd].
  repeat case_bool_decide; subst; rewrite ?Z.leb_le; try done; [intros; f_equal; lia|].
  intros H1 H2. by destruct (bytes_le_antisym _ _ H1 H2).
Qed.

Lemma insert_endpoint_perm p l : insert_endpoint p l ≡ₚ p :: l.
Proof.
  induction l as [|q l IH]; simpl; [done|]. destruct (endpoint_le p q); [done|]. rewrite IH. constructor.
Qed.
Lemma sort_endpoints_perm l : sort_endpoints l ≡ₚ l.
Proof. induction l as [|p l IH]; simpl; [done|]. by rewrite insert_endpoint_perm, IH. Qed.

Lemma insert_endpoint_sorted p l : StronglySorted endpoint_order l ->
  StronglySorted endpoint_order (insert_endpoint p l).
Proof.
  induction 1 as [|q l Hs IH Hf]; simpl; [repeat constructor|].
  destruct (endpoint_le p q) eqn:E.
  - constructor; [by constructor|]. constructor; [done|]. eapply Forall_impl; [exact Hf|].
    intros r Hr. etrans; [exact E|done].
  - constructor; [done|]. rewrite insert_endpoint_perm. constructor; [by apply endpoint_total|done].
Qed.
Lemma sort_endpoints_sorted l : StronglySorted endpoint_order (sort_endpoints l).
Proof. induction l; simpl; [constructor|]. by apply insert_endpoint_sorted. Qed.

Lemma dedup_elem l p : p ∈ dedup_endpoints l <-> p ∈ l.
Proof.
  induction l as [|q l IH]; simpl; [done|]. rewrite elem_of_cons, <-IH.
  destruct (dedup_endpoints l) as [|r l']; [by rewrite elem_of_cons|].
  case_bool_decide; subst; rewrite !elem_of_cons; naive_solver.
Qed.
Lemma dedup_sorted l : StronglySorted endpoint_order l ->
  StronglySorted endpoint_order (dedup_endpoints l) /\ NoDup (dedup_endpoints l).
Proof.
  induction 1 as [|p l Hs [IHs IHn] Hf]; simpl; [split; constructor|].
  assert (Hf' : Forall (endpoint_order p) (dedup_endpoints l)).
  { rewrite Forall_forall in Hf |- *. intros q Hq. apply Hf, dedup_elem, Hq. }
  destruct (dedup_endpoints l) as [|q l']; [split; repeat constructor; set_solver|].
  case_bool_decide as Hpq; [done|]. split; [by constructor|]. constructor; [|done].
  intros [->|Hin]%elem_of_cons; [done|]. apply Hpq.
  apply StronglySorted_inv in IHs as [_ Hq]. rewrite Forall_forall in Hq.
  apply Forall_cons in Hf' as [Hpq' _]. apply endpoint_antisym; [done|by apply Hq].
Qed.

(** The endpoints kept reachable while QUIC is blocked.  They are listed in
    order and once each, and they are the servers and ports of the outbounds that
    tunnel over UDP. *)
Theorem tunnel_endpoints_spec o :
  StronglySorted endpoint_order (udp_tunnel_endpoints o) /\ NoDup (udp_tunnel_endpoints o)
  /\ forall e, e ∈ udp_tunnel_endpoints o <->
       exists ob, ob ∈ o_outbounds o /\ tunnel_endpoint ob = Some e.
Proof.
  unfold udp_tunnel_endpoints.
  destruct (dedup_sorted _ (sort_endpoints_sorted (omap tunnel_endpoint (o_outbounds o)))) as [Hs Hn].
  split_and!; [done|done|]. intros e. rewrite dedup_elem, sort_endpoints_perm, list_elem_of_omap.
  naive_solver.
Qed.

(** ** Inbounds *)

(** [P] holds of the value, if there is one, and there is no panic. *)
Definition yields {A} (P : A -> Prop) (r : result A) : Prop :=
  match r with Ok a => P a | Err _ => True | Panic _ => False end.
Lemma yields_bind {A B} (P : A -> Prop) (Q : B -> Prop) (m : result A) (f : A -> result B) :
  yields P m -> (forall a, P a -> yields Q (f a)) -> yields Q (m ≫= f).
Proof. destruct m; simpl; auto. Qed.
Lemma yields_ok_or {A} (P : A -> Prop) msg o : (forall a, o = Some a -> P a) -> yields P (ok_or msg o).
Proof. destruct o; simpl; auto. Qed.
Ltac yields_step := apply (yields_bind (fun _ => True)); [|intros ? _].

Lemma de_string_safe v : yields (fun _ => True) (de_string v).
Proof. by destruct v. Qed.
Lemma de_option_string_safe v : yields (fun _ => True) (de_option_string v).
Proof. by destruct v. Qed.
Lemma de_bool_safe v : yields (fun _ => True) (de_bool v).
Proof. by destruct v. Qed.
Lemma de_field_safe {A} (d : A) de o : (forall v, yields (fun _ => True) (de v)) ->
  yields (fun _ => True) (de_field d de o).
Proof. intros H. destruct o; simpl; auto. Qed.
#[local] Hint Resolve de_string_safe de_option_string_safe de_bool_safe de_field_safe : core.

Lemma de_tls_safe v : yields (fun _ => True) (de_tls v).
Proof.
  destruct v as [| | | |[|e [|cp [|kp rest]]]|]; try done; cbn [de_tls]; repeat (yields_step; [by auto|]);
    [by destruct (_ <? _)%nat|done].
Qed.
Lemma de_users_safe v : yields (fun _ => True) (de_users v).
Proof.
  destruct v as [| | | |l|]; try done. cbn [de_users]. induction l as [|v l IH]; [done|]. cbn [de_seq].
  apply (yields_bind (fun _ => True)).
  - destruct v as [| | | |[|p []]|]; try done; cbn [de_user]; [auto|]. destruct (get _ _); simpl; auto.
  - intros u _. by apply (yields_bind (fun _ => True)).
Qed.
Lemma parse_obfs_safe raw users : users <> [] -> yields (fun _ => True) (parse_obfs raw users).
Proof. intros Hu. unfold parse_obfs. repeat case_match; done. Qed.

Lemma quic_inbound_yields obfs guards tag raw :
  (forall users, users <> [] -> yields (fun _ => True) (obfs raw users)) ->
  yields (fun cfg => sc_passwords cfg <> [] /\ sc_inbound_tag cfg = tag
            /\ in_u32 (sc_up_mbps cfg) /\ in_u32 (sc_down_mbps cfg)
            /\ (sc_allow_private cfg = true -> flag raw "allow_private" = Some true))
    (quic_inbound_new obfs guards tag raw).
Proof.
  intros Ho. unfold quic_inbound_new. yields_step; [by apply yields_ok_or|].
  yields_step; [apply de_tls_safe|]. destruct (negb _); [done|].
  do 2 (yields_step; [by apply yields_ok_or|]).
  yields_step; [destruct (get raw "users"); [apply de_users_safe|done]|].
  case_bool_decide as Hu; [done|]. yields_step; [by apply Ho|]. yields_step; [by apply yields_ok_or|].
  cbn [yields sc_passwords sc_inbound_tag sc_up_mbps sc_down_mbps sc_allow_private]. split_and!; [done|done|..].
  1,2: unfold in_u32, u32, wrap; by apply Z.mod_pos_bound.
  destruct guards; [|done]. destruct (flag raw "allow_private") as [[]|]; done.
Qed.

(** What makes a server.  Reading the configuration of an RSQ, RST or Hysteria2
    inbound does not panic; a server it yields has at least one password, rates
    that fit their type, and relays to private destinations only when told to. *)
Theorem quic_inbound_sound new tag raw :
  new ∈ [rsq_inbound_new; rst_inbound_new; hy2_inbound_new] ->
  match new tag raw with
  | Ok cfg => sc_passwords cfg <> [] /\ sc_inbound_tag cfg = tag
              /\ in_u32 (sc_up_mbps cfg) /\ in_u32 (sc_down_mbps cfg)
              /\ (sc_allow_private cfg = true -> flag raw "allow_private" = Some true)
  | Err _ => True
  | Panic _ => False
  end.
Proof.
  rewrite !elem_of_cons, elem_of_nil. intros [-> | [-> | [-> | []]]];
    apply quic_inbound_yields; intros users Hu; (done || by apply parse_obfs_safe).
Qed.

Definition toy_tls : Value :=
  Object [(str "enabled", Bool true); (str "certificate_path", Str (str "c.pem")); (str "key_path", Str (str "k.pem"))].
Definition toy_server (listen : string) : Value :=
  Object [(str "listen", Str (str listen)); (str "listen_port", Num (PosInt 8443)); (str "tls", toy_tls);
          (str "password", Str (str "secret"))].
Lemma quic_inbound_sound_witness :
  exists cfg, rsq_inbound_new (str "in") (toy_server "0.0.0.0") = Ok cfg /\ sc_passwords cfg <> [].
Proof.
  pose proof (quic_inbound_sound rsq_inbound_new (str "in") (toy_server "0.0.0.0") ltac:(set_solver)) as H.
  destruct (rsq_inbound_new (str "in") (toy_server "0.0.0.0")) as [cfg|e|e] eqn:E; [|vm_compute in E; discriminate..].
  exists cfg. split; [done|]. apply H.
Defined.

(** Where a local proxy listens on an IPv6 address, a server does not: its address
    is put together without the brackets. *)
Example listen_on_ipv6 :
  parse_listen (toy_server "::1") = Ok (mkSocketAddr (V6 1) 8443)
  /\ is_ok (rsq_inbound_new (str "in") (toy_server "::1")) = false
  /\ is_ok (rsq_inbound_new (str "in") (toy_server "[::1]")) = true.
Proof. by vm_compute. Qed.

(** ** Obfuscation keys *)

(** The key of a server with one user, and that of a client with its password, are
    the same when both have the same [obfs] section. *)
Lemma obfs_keys_agree tag raw raw' u inner w :
  get raw "obfs" = get raw' "obfs" -> text raw' "password" = Some u ->
  rsq_outbound_new tag raw' = Ok (inner, w) -> parse_obfs raw [u] = Ok (ob_obfs inner).
Proof.
  intros Ho Hp. unfold rsq_outbound_new, parse_obfs. rewrite Ho.
  fold (text raw' "password"). rewrite Hp.
  destruct (x ← get raw' "server_port"; as_u64 x); cbn [ok_or mbind result_bind]; [|done].
  destruct (x ← get raw' "server"; as_str x); cbn [ok_or mbind result_bind]; [|done].
  intros [= <- <-]. cbn [ob_obfs]. destruct (get raw' "obfs") as [o|]; [|done]. cbn [mbind option_bind].
  change (x ← get o "enabled"; as_bool x) with (flag o "enabled").
  case_bool_decide; [done|].
  change (x ← get o "version"; as_u64 x) with (number o "version").
  change (x ← get o "password"; as_str x) with (text o "password").
  by destruct (text o "password").
Qed.
