(* ===== verification/Subscription.v ===== *)
(** * Subscriptions and share links

    [rsb-core/src/subscription.rs] (fetching a list of share links, turning each into
    an outbound, merging them into the options) and the links the command line
    prints, [rsq/share.rs] and [rst/share.rs].

    The [url] crate is the class [UrlCrate]: what it says of a link made of plain
    characters, which is all the links printed here are when their fields are.
    Base64, the JSON reader, HTTP and the file system are arguments. *)
From stdpp Require Import base tactics gmap list strings.
From Stdlib Require Import ZArith Lia.
From Stdlib Require Import Strings.Byte.
From S2P Require Import Prelude Json Text Ip Srs RsqTraffic Obfs RsqPool Config.

Local Open Scope Z_scope.

(** ** Share links *)

Definition unreserved (b : byte) : bool :=
  in_range 65 90 b || in_range 97 122 b || in_range 48 57 b
  || bool_decide (b ∈ [x2d; x5f; x2e; x7e]).
(** [{b:02X}] *)
Definition upper_hex (d : Z) : byte := u8 (if d <? 10 then 48 + d else 55 + d).
Definition pct_byte (b : byte) : list byte :=
  if unreserved b then [b] else [x25; upper_hex (bz b / 16); upper_hex (bz b `mod` 16)].
Definition pct_encode_userinfo (s : list byte) : list byte := concat (map pct_byte s).

(** [push] of the pairs in order. *)
Definition pair_text (kv : list byte * list byte) : list byte := kv.1 ++ str "=" ++ kv.2.
Definition query_string (pairs : list (list byte * list byte)) : list byte :=
  match pairs with
  | [] => []
  | p :: ps => str "?" ++ pair_text p ++ concat (map (fun q => str "&" ++ pair_text q) ps)
  end.
Definition fragment_string (f : option (list byte)) : list byte :=
  match f with Some n => str "#" ++ n | None => [] end.

(** [filter(|s| !s.is_empty())] and [filter(|v| *v > 0)]. *)
Definition non_empty (s : option (list byte)) : option (list byte) :=
  s ← s; if bool_decide (s = []) then None else Some s.
Definition non_zero (v : option Z) : option Z := v ← v; if 0 <? v then Some v else None.
Definition push_some {A} (k : string) (show : A -> list byte) (o : option A) : list (list byte * list byte) :=
  match o with Some v => [(str k, show v)] | None => [] end.
Definition push_if (k v : string) (b : bool) : list (list byte * list byte) :=
  if b then [(str k, str v)] else [].

Record ShareLink := mkShareLink {
  sl_password : list byte;
  sl_server : list byte;
  sl_port : Z;
  sl_name : option (list byte);
  sl_sni : option (list byte);
  sl_up_mbps : option Z;
  sl_down_mbps : option Z;
  sl_profile : option (list byte);
  sl_obfs_password : option (list byte);
  sl_obfs_version : option Z;
  sl_insecure : bool;
}.
(** The pairs both links start with. *)
Definition common_pairs (l : ShareLink) : list (list byte * list byte) :=
  push_some "sni" id (non_empty (sl_sni l))
  ++ push_some "up" show_uint (non_zero (sl_up_mbps l))
  ++ push_some "down" show_uint (non_zero (sl_down_mbps l))
  ++ push_some "profile" id (non_empty (sl_profile l))
  ++ match non_empty (sl_obfs_password l) with
     | Some p => [(str "obfs", str "salamander"); (str "obfs-password", p)]
     | None => []
     end
  ++ push_if "obfs-version" "2" (bool_decide (sl_obfs_version l = Some 2)).
Definition encode_link (scheme : string) (pairs : list (list byte * list byte)) (l : ShareLink) : list byte :=
  str scheme ++ str "://" ++ pct_encode_userinfo (sl_password l) ++ str "@" ++ sl_server l
  ++ str ":" ++ show_uint (sl_port l) ++ query_string pairs ++ fragment_string (non_empty (sl_name l)).

Definition rsq_pairs (l : ShareLink) : list (list byte * list byte) :=
  common_pairs l ++ push_if "insecure" "1" (sl_insecure l).
(** [RsqShareLink::encode] *)
Definition rsq_link_encode (l : ShareLink) : list byte := encode_link "rsq" (rsq_pairs l) l.

(** [RstShareLink::encode]; its field [brutal] is not read. *)
Definition rst_pairs (warm_up udp : bool) (l : ShareLink) : list (list byte * list byte) :=
  common_pairs l ++ push_if "warm_up" "0" (negb warm_up) ++ push_if "udp" "0" (negb udp)
  ++ push_if "insecure" "1" (sl_insecure l) ++ [(str "brutal", str "1")].
Definition rst_link_encode (warm_up udp : bool) (l : ShareLink) : list byte :=
  encode_link "rst" (rst_pairs warm_up udp l) l.

(** ** Reading links *)

(** [u8::from_str_radix] of the two characters behind a percent sign. *)
Definition hex_byte (a b : byte) : option Z :=
  if bool_decide (a = x2b) then to_digit 16 b
  else x ← to_digit 16 a; y ← to_digit 16 b; Some (x * 16 + y).
Fixpoint decode_bytes (s : list byte) : list byte :=
  match s with
  | [] => []
  | c :: s1 =>
      if bool_decide (c = x25) then
        match s1 with
        | a :: b :: rest =>
            match hex_byte a b with
            | Some v => u8 v :: decode_bytes rest
            | None => c :: decode_bytes s1
            end
        | _ => c :: decode_bytes s1
        end
      else c :: decode_bytes s1
  end.
Definition decode_url_userinfo (input : list byte) : list byte := from_utf8_lossy (decode_bytes input).

(** Characters no part of a link gives a meaning to, and those with a percent sign. *)
Definition plain (s : list byte) : Prop := Forall (fun b => unreserved b = true) s.
Definition plain_pct (s : list byte) : Prop := Forall (fun b => unreserved b = true \/ b = x25) s.

Class UrlCrate := {
  Url : Type;
  url_parse : list byte -> option Url;
  url_username : Url -> list byte;
  url_host_str : Url -> option (list byte);
  url_port : Url -> option Z;
  url_fragment : Url -> option (list byte);
  url_query_pairs : Url -> list (list byte * list byte);
  (** A link in a scheme of its own, all of plain characters, has the parts it was
      written with. *)
  url_plain scheme user host port pairs frag :
    scheme ∈ [str "rsq"; str "rst"; str "hysteria2"] ->
    plain_pct user -> plain host -> host <> [] -> in_u16 port ->
    Forall (fun kv => plain kv.1 /\ kv.1 <> [] /\ plain kv.2) pairs ->
    (match frag with Some f => plain f | None => True end) ->
    exists u, url_parse (scheme ++ str "://" ++ user ++ str "@" ++ host ++ str ":" ++ show_uint port
                         ++ query_string pairs ++ fragment_string frag) = Some u
      /\ url_username u = user /\ url_host_str u = Some host /\ url_port u = Some port
      /\ url_fragment u = frag /\ url_query_pairs u = pairs;
}.

(** [query_pairs().into_owned().collect()] into a map: the last value of a key. *)
Definition params_get (pairs : list (list byte * list byte)) (k : string) : option (list byte) :=
  assoc (str k) (rev pairs).

Definition opt_value {A} (f : A -> Value) (o : option A) : Value :=
  match o with Some a => f a | None => Null end.
Definition nat_value (v : Z) : Value := Num (PosInt v).

Section Links.
Context `{UrlCrate}.
Variable b64_decode : list byte -> option (list byte).
Variable json_parse : list byte -> option Value.

Definition cfg_str (config : Value) (k : string) (d : string) : Value :=
  Str (default (str d) (text config k)).
Definition parse_vmess (link : list byte) : result Value :=
  encoded ← ok_or "Invalid vmess link" (strip_prefix link (str "vmess://"));
  decoded ← ok_or "invalid base64" (b64_decode encoded);
  json ← from_utf8 decoded;
  config ← match json_parse json with
           | Some (Object f) => Ok (Object f)
           | _ => Err "invalid json"
           end;
  Ok (Object
    [(str "type", Str (str "vmess")); (str "tag", cfg_str config "ps" "vmess");
     (str "server", cfg_str config "add" "");
     (str "server_port", nat_value (default 443 (number config "port")));
     (str "uuid", cfg_str config "id" ""); (str "security", cfg_str config "scy" "auto");
     (str "alter_id", nat_value (default 0 (number config "aid")));
     (str "tls", Object [(str "enabled", Bool (bool_decide (text config "tls" = Some (str "tls"))));
                         (str "server_name", cfg_str config "sni" "")])]).

(** The host and port of a link, and its parameters. *)
Definition tag_of (url : Url) (d : string) : Value := Str (default (str d) (url_fragment url)).
Definition port_of (url : Url) : Value := nat_value (default 443 (url_port url)).
Definition param (url : Url) (k : string) : option (list byte) := params_get (url_query_pairs url) k.
Definition param_is (url : Url) (k v : string) : bool :=
  match param url k with Some s => bool_decide (s = str v) | None => false end.
Definition param_on (url : Url) (k : string) : bool :=
  match param url k with
  | Some s => negb (bool_decide (s = str "0")) && negb (bool_decide (s = str "false"))
  | None => true
  end.
Definition param_u32 (url : Url) (k : string) (d : Z) : Value :=
  nat_value (default d (s ← param url k; parse_uint 32 s)).
Definition tls_value (url : Url) (host : list byte) (insecure : string) : Value :=
  Object [(str "enabled", Bool true);
          (str "server_name", Str (default host (param url "sni")));
          (str "insecure", Bool (param_is url insecure "1"))].

Definition parse_vless (link : list byte) : result Value :=
  url ← ok_or "invalid url" (url_parse link);
  host ← ok_or "No host" (url_host_str url);
  Ok (Object
    [(str "type", Str (str "vless")); (str "tag", tag_of url "vless"); (str "server", Str host);
     (str "server_port", port_of url); (str "uuid", Str (url_username url));
     (str "flow", Str (default [] (param url "flow")));
     (str "tls", Object [(str "enabled", Bool (param_is url "security" "tls"));
                         (str "server_name", Str (default [] (param url "sni")))])]).

Definition parse_shadowsocks (link : list byte) : result Value :=
  url ← ok_or "invalid url" (url_parse link);
  decoded ← ok_or "invalid base64" (b64_decode (url_username url));
  decoded ← from_utf8 decoded;
  match split x3a decoded with
  | method :: ((_ :: _) as rest) =>
      Ok (Object
        [(str "type", Str (str "shadowsocks")); (str "tag", tag_of url "ss");
         (str "server", Str (default [] (url_host_str url))); (str "server_port", port_of url);
         (str "method", Str method);
         (str "password", Str (join x3a rest))])
  | _ => Err "Invalid shadowsocks format"
  end.

Definition parse_trojan (link : list byte) : result Value :=
  url ← ok_or "invalid url" (url_parse link);
  host ← ok_or "No host" (url_host_str url);
  Ok (Object
    [(str "type", Str (str "trojan")); (str "tag", tag_of url "trojan"); (str "server", Str host);
     (str "server_port", port_of url); (str "password", Str (url_username url));
     (str "tls", tls_value url host "allowInsecure")]).

(** [str::replace]: every occurrence, from the left; one round per character. *)
Fixpoint replace_go (fuel : nat) (pat rep s : list byte) : list byte :=
  match fuel, s with
  | S fuel, c :: s' =>
      if starts_with s pat then rep ++ replace_go fuel pat rep (drop (length pat) s)
      else c :: replace_go fuel pat rep s'
  | _, _ => s
  end.
Definition replace (pat rep s : list byte) : list byte := replace_go (length s) pat rep s.

Definition parse_hysteria2 (link : list byte) : result Value :=
  let link := if starts_with link (str "hy2://") then replace (str "hy2://") (str "hysteria2://") link
              else link in
  url ← ok_or "invalid url" (url_parse link);
  host ← ok_or "No host" (url_host_str url);
  Ok (Object
    [(str "type", Str (str "hysteria2")); (str "tag", tag_of url "hy2"); (str "server", Str host);
     (str "server_port", port_of url); (str "password", Str (url_username url));
     (str "up_mbps", param_u32 url "up" 100); (str "down_mbps", param_u32 url "down" 100);
     (str "obfs", opt_value (fun ty => Object
        [(str "type", Str ty); (str "password", Str (default [] (param url "obfs-password")))])
        (param url "obfs"));
     (str "tls", tls_value url host "insecure")]).

(** The [obfs] section of RSQ and RST links. *)
Definition link_obfs (url : Url) : Value :=
  opt_value (fun ty => Object
    [(str "enabled", Bool true); (str "type", Str ty);
     (str "password", Str (default [] (param url "obfs-password")));
     (str "version", nat_value (default 1 (s ← param url "obfs-version"; parse_uint 64 s)))])
    (param url "obfs").

Definition parse_rsq (link : list byte) : result Value :=
  url ← ok_or "invalid url" (url_parse link);
  host ← ok_or "No host" (url_host_str url);
  Ok (Object
    [(str "type", Str (str "rsq")); (str "tag", tag_of url "rsq"); (str "server", Str host);
     (str "server_port", port_of url);
     (str "password", Str (decode_url_userinfo (url_username url)));
     (str "up_mbps", param_u32 url "up" 0); (str "down_mbps", param_u32 url "down" 0);
     (str "traffic_profile", Str (default (str "video") (param url "profile")));
     (str "obfs", link_obfs url); (str "tls", tls_value url host "insecure")]).

Definition parse_rst (link : list byte) : result Value :=
  url ← ok_or "invalid url" (url_parse link);
  host ← ok_or "No host" (url_host_str url);
  Ok (Object
    [(str "type", Str (str "rst")); (str "tag", tag_of url "rst"); (str "server", Str host);
     (str "server_port", port_of url);
     (str "password", Str (decode_url_userinfo (url_username url)));
     (str "up_mbps", param_u32 url "up" 0); (str "down_mbps", param_u32 url "down" 0);
     (str "traffic_profile", Str (default (str "video") (param url "profile")));
     (str "warm_up", Bool (param_on url "warm_up")); (str "udp", Bool (param_on url "udp"));
     (str "auto_reconnect", Bool (param_on url "auto_reconnect")); (str "brutal", Bool true);
     (str "obfs", link_obfs url); (str "tls", tls_value url host "insecure")]).

Definition parse_single_link (link : list byte) : result Value :=
  if starts_with link (str "vmess://") then parse_vmess link
  else if starts_with link (str "vless://") then parse_vless link
  else if starts_with link (str "ss://") then parse_shadowsocks link
  else if starts_with link (str "trojan://") then parse_trojan link
  else if starts_with link (str "hysteria2://") || starts_with link (str "hy2://") then parse_hysteria2 link
  else if starts_with link (str "rsq://") then parse_rsq link
  else if starts_with link (str "rst://") then parse_rst link
  else Err "Unknown link format".

(** What a line of a subscription contributes: blank lines and comments are passed
    over, links that cannot be read are logged and skipped. *)
Definition line_node (line : list byte) : result (option Value) :=
  let line := trim line in
  if bool_decide (line = []) || starts_with line (str "#") then Ok None
  else match parse_single_link line with
       | Ok v => Ok (Some v)
       | Err _ => Ok None
       | Panic e => Panic e
       end.
Fixpoint lines_nodes (ls : list (list byte)) : result (list Value) :=
  match ls with
  | [] => Ok []
  | l :: ls => o ← line_node l; vs ← lines_nodes ls; Ok (match o with Some v => v :: vs | None => vs end)
  end.
Definition parse_share_links (content : list byte) : result (list Value) := lines_nodes (lines content).

Definition SCHEMES : list (list byte) :=
  map str ["vmess://"; "vless://"; "ss://"; "trojan://"; "hysteria2://"; "rsq://"; "rst://"]%string.
Definition parse_content (content : list byte) : result (list Value) :=
  let content := trim content in
  if existsb (starts_with content) SCHEMES then parse_share_links content
  else
    match b64_decode content with
    | Some decoded => if utf8_valid decoded then parse_share_links decoded else parse_share_links content
    | None => parse_share_links content
    end.
End Links.

(** ** Fetching *)

Record SubscriptionCfg := mkSubscriptionCfg {
  sub_url : list byte;
  sub_user_agent : option (list byte);
}.
Definition subscription_new (url : list byte) : SubscriptionCfg :=
  mkSubscriptionCfg url (Some (str "rsbox/0.1.0")).

(** The file system, the working directory and HTTP. *)
Class Files := {
  exists_path : list byte -> bool;
  read_to_string : list byte -> result (list byte);
  current_dir : option (list byte);
  http_get : list byte -> list byte -> result (list byte);
}.

Section Fetch.
Context `{UrlCrate} `{Files}.
Variable b64_decode : list byte -> option (list byte).
Variable json_parse : list byte -> option Value.

(** [Path::is_absolute] and [Path::join] on Unix, the second for a relative path. *)
Definition is_absolute (path : list byte) : bool := starts_with path (str "/").
Definition path_join (dir path : list byte) : list byte :=
  if bool_decide (dir = []) || ends_with dir (str "/") then dir ++ path else dir ++ str "/" ++ path.

Definition resolve_file_path (url : list byte) (config_dir : option (list byte)) : result (list byte) :=
  raw ← ok_or "invalid file url" (strip_prefix url (str "file://"));
  let path := trim_start_matches x2f raw in
  if is_absolute path then Ok path
  else
    let candidates := option_list ((fun dir => path_join dir path) <$> config_dir)
                      ++ option_list ((fun dir => path_join dir path) <$> current_dir) in
    match List.find exists_path candidates with
    | Some c => Ok c
    | None => ok_or "cannot resolve subscription file path" (head candidates)
    end.

Definition fetch_from_base (s : SubscriptionCfg) (config_dir : option (list byte)) : result (list Value) :=
  if starts_with (sub_url s) (str "file://") then
    path ← resolve_file_path (sub_url s) config_dir;
    content ← context "read subscription file" (read_to_string path);
    parse_content b64_decode json_parse content
  else
    content ← context "Failed to fetch subscription"
                (http_get (sub_url s) (default (str "rsbox/0.1.0") (sub_user_agent s)));
    parse_content b64_decode json_parse content.

(** ** Merging *)

Definition remove_key (k : string) (fields : list (list byte * Value)) : list (list byte * Value) :=
  filter (fun kv => kv.1 <> str k) fields.
Definition value_to_outbound (value : Value) : result OutboundCfg :=
  match value with
  | Object fields =>
      kind ← ok_or "subscription node missing type" (v ← assoc (str "type") fields; as_str v);
      let fields := remove_key "type" fields in
      let tag := v ← assoc (str "tag") fields; as_str v in
      Ok (mkOutboundCfg kind tag (Object (remove_key "tag" fields)))
  | _ => Err "subscription node must be a JSON object"
  end.

(** The options' outbounds, the tags in use and the count while merging. *)
Record Merge := mkMerge {
  mg_outbounds : list OutboundCfg;
  mg_tags : gset (list byte);
  mg_added : Z;
}.
(** The loop over the nodes of a provider, with the tags it collects. *)
Fixpoint merge_nodes (nodes : list Value) (m : Merge) (node_tags : list (list byte))
  : Merge * list (list byte) :=
  match nodes with
  | [] => (m, node_tags)
  | node :: nodes =>
      match value_to_outbound node with
      | Ok ob =>
          match oc_tag ob with
          | Some tag =>
              if bool_decide (tag ∈ mg_tags m) then merge_nodes nodes m node_tags
              else merge_nodes nodes
                     (mkMerge (mg_outbounds m ++ [ob]) ({[tag]} ∪ mg_tags m) (mg_added m + 1))
                     (node_tags ++ [tag])
          | None => merge_nodes nodes (mkMerge (mg_outbounds m ++ [ob]) (mg_tags m) (mg_added m + 1)) node_tags
          end
      | _ => merge_nodes nodes m node_tags
      end
  end.
Definition selector_cfg (tag : list byte) (members : list (list byte)) : OutboundCfg :=
  mkOutboundCfg (str "selector") (Some tag) (Object [(str "outbounds", Array (map Str members))]).
Definition merge_selector (p : OutboundProvider) (m : Merge) (node_tags : list (list byte)) : Merge :=
  match or_else (op_selector_tag p) (op_tag p) with
  | Some sel =>
      if bool_decide (node_tags = []) || bool_decide (sel ∈ mg_tags m) then m
      else mkMerge (mg_outbounds m ++ [selector_cfg sel node_tags]) ({[sel]} ∪ mg_tags m) (mg_added m)
  | None => m
  end.
Fixpoint merge_providers (config_dir : option (list byte)) (ps : list OutboundProvider) (m : Merge)
  : result Merge :=
  match ps with
  | [] => Ok m
  | p :: ps =>
      if negb (bool_decide (op_kind p = str "subscription")) then merge_providers config_dir ps m
      else
        let sub := subscription_new (op_url p) in
        let sub := match op_user_agent p with
                   | Some ua => mkSubscriptionCfg (sub_url sub) (Some ua)
                   | None => sub
                   end in
        nodes ← fetch_from_base sub config_dir;
        let '(m, node_tags) := merge_nodes nodes m [] in
        merge_providers config_dir ps (merge_selector p m node_tags)
  end.
Definition merge_start (o : Options) : Merge :=
  mkMerge (o_outbounds o) (list_to_set (omap oc_tag (o_outbounds o))) 0.
Definition merge_outbound_providers (config_dir : option (list byte)) (o : Options)
  : result (Options * Z) :=
  if bool_decide (o_providers o = []) then Ok (o, 0)
  else
    m ← merge_providers config_dir (o_providers o) (merge_start o);
    Ok (mkOptions (o_dns o) (o_inbounds o) (mg_outbounds m) (o_route o) (o_providers o), mg_added m).
End Fetch.

(** ** Percent encoding *)

Definition pct_check (v : Z) : bool :=
  let b := u8 v in
  (unreserved b && negb (bool_decide (b = x25)))
  || (negb (unreserved b)
      && bool_decide (hex_byte (upper_hex (bz b / 16)) (upper_hex (bz b `mod` 16)) = Some (bz b))).
Lemma pct_check_all : all_below 256 0 pct_check = true.
Proof. by vm_compute. Qed.
Lemma pct_byte_cases b :
  (unreserved b = true /\ b <> x25)
  \/ (unreserved b = false /\ hex_byte (upper_hex (bz b / 16)) (upper_hex (bz b `mod` 16)) = Some (bz b)).
Proof.
  pose proof (all_below_spec _ _ _ pct_check_all (bz b) (bz_range b)) as Hc.
  unfold pct_check in Hc. rewrite u8_bz in Hc. apply orb_true_iff in Hc as [[H1 H2]%andb_true_iff|[H1 H2]%andb_true_iff].
  - left. split; [done|]. by apply negb_true_iff, bool_decide_eq_false in H2.
  - right. apply negb_true_iff in H1. by apply bool_decide_eq_true in H2.
Qed.

Lemma decode_pct s : decode_bytes (pct_encode_userinfo s) = s.
Proof.
  induction s as [|b s IH]; [done|]. unfold pct_encode_userinfo. cbn [map concat]. fold (pct_encode_userinfo s).
  unfold pct_byte. destruct (pct_byte_cases b) as [[-> Hn]|[-> Hx]].
  - cbn [app decode_bytes]. by rewrite bool_decide_eq_false_2, IH by done.
  - cbn [app decode_bytes]. by rewrite bool_decide_eq_true_2, Hx, u8_bz, IH by done.
Qed.

Lemma utf8_step_valid l : l <> [] -> utf8_valid l = true ->
  exists n, utf8_step l = (true, n) /\ (1 <= n <= length l)%nat /\ utf8_valid (drop n l) = true.
Proof.
  destruct l as [|b0 l1]; [done|]. intros _. cbn [utf8_valid utf8_step].
  destruct (bz b0 <? 128); [intros Hv; exists 1%nat; split_and!; [done|simpl; lia|simpl; lia|done]|].
  destruct l1 as [|b1 l2]; [done|].
  destruct (in_range 194 223 b0) eqn:E2.
  { intros [H1 H2]%andb_true_iff. exists 2%nat. unfold in_range in E2. bool_props.
    rewrite !(proj2 (Z.eqb_neq (bz b0) _)) by lia. rewrite H1. split_and!; [done|simpl; lia|simpl; lia|done]. }
  destruct l2 as [|b2 l3]; [done|].
  destruct (in_range 224 239 b0) eqn:E3.
  { intros [[H1 H2]%andb_true_iff H3]%andb_true_iff. exists 3%nat. unfold in_range in E3. bool_props.
    rewrite !(proj2 (Z.eqb_neq (bz b0) 240)), !(proj2 (Z.eqb_neq (bz b0) 244)) by lia.
    rewrite H1, H2. split_and!; [done|simpl; lia|simpl; lia|done]. }
  destruct l3 as [|b3 l4]; [done|].
  destruct (in_range 240 244 b0) eqn:E4; [|done].
  intros [[[H1 H2]%andb_true_iff H3]%andb_true_iff H4]%andb_true_iff. exists 4%nat. unfold in_range in E4. bool_props.
  rewrite !(proj2 (Z.eqb_neq (bz b0) 224)), !(proj2 (Z.eqb_neq (bz b0) 237)) by lia.
  rewrite H1, H2, H3. split_and!; [done|simpl; lia|simpl; lia|done].
Qed.

Lemma lossy_valid l : utf8_valid l = true -> from_utf8_lossy l = l.
Proof.
  assert (H : forall fuel l, (length l <= fuel)%nat -> utf8_valid l = true -> lossy_go fuel l = l).
  { induction fuel as [|fuel IH]; intros [|b m] Hl Hv; cbn [lossy_go]; try done; [simpl in Hl; lia|].
    destruct (utf8_step_valid (b :: m) ltac:(done) Hv) as (n & -> & Hn & Hd).
    rewrite IH; [apply take_drop| |done]. rewrite length_drop. lia. }
  intros Hv. by apply H.
Qed.

(** What the link printer encodes, the link reader decodes. *)
Lemma userinfo_roundtrip s : utf8_valid s = true -> decode_url_userinfo (pct_encode_userinfo s) = s.
Proof. intros Hv. unfold decode_url_userinfo. by rewrite decode_pct, lossy_valid. Qed.

Lemma upper_hex_plain d : 0 <= d < 16 -> unreserved (upper_hex d) = true.
Proof.
  intros Hd. pose (f d := unreserved (upper_hex d)).
  apply (all_below_spec 16 f 0 ltac:(by vm_compute) d). lia.
Qed.
Lemma pct_encode_plain s : plain_pct (pct_encode_userinfo s).
Proof.
  unfold plain_pct, pct_encode_userinfo. apply Forall_concat, Forall_forall. intros l Hl.
  apply list_elem_of_fmap in Hl as (b & -> & _). unfold pct_byte.
  destruct (unreserved b) eqn:E; [constructor; [by left|constructor]|].
  pose proof (bz_range b). constructor; [by right|]. constructor; [left|constructor; [left|constructor]];
    apply upper_hex_plain; [split; [apply Z.div_pos; lia|apply Z.div_lt_upper_bound; lia]|apply Z.mod_pos_bound; lia].
Qed.

(** ** Links printed here are read back *)

Definition option_plain (o : option (list byte)) : Prop := match o with Some s => plain s | None => True end.
Record link_plain (l : ShareLink) : Prop := {
  lp_password : utf8_valid (sl_password l) = true;
  lp_server : plain (sl_server l) /\ sl_server l <> [];
  lp_port : in_u16 (sl_port l);
  lp_name : option_plain (sl_name l);
  lp_sni : option_plain (sl_sni l);
  lp_up : match sl_up_mbps l with Some v => in_u32 v | None => True end;
  lp_down : match sl_down_mbps l with Some v => in_u32 v | None => True end;
  lp_profile : option_plain (sl_profile l);
  lp_obfs : option_plain (sl_obfs_password l);
}.

Definition pair_plain (kv : list byte * list byte) : Prop := plain kv.1 /\ kv.1 <> [] /\ plain kv.2.
Lemma plain_check s : forallb unreserved s = true -> plain s.
Proof. rewrite forallb_forall. intros H. apply Forall_forall. intros b Hb%list_elem_of_In. by apply H. Qed.
Lemma digits_plain s : Forall is_digit s -> plain s.
Proof.
  intros Hs. eapply Forall_impl; [exact Hs|]. intros b Hb. unfold is_digit in Hb. unfold unreserved, in_range.
  rewrite (proj2 (Z.leb_le 48 (bz b))), (proj2 (Z.leb_le (bz b) 57)) by lia. by rewrite !orb_true_r.
Qed.
Lemma push_some_plain {A} k (show : A -> list byte) o : forallb unreserved (str k) = true -> str k <> [] ->
  (forall v, o = Some v -> plain (show v)) -> Forall pair_plain (push_some k show o).
Proof.
  intros Hk Hne Hv. destruct o as [v|]; repeat constructor; [by apply plain_check|done|by apply Hv].
Qed.
Lemma push_if_plain k v b : forallb unreserved (str k) = true -> str k <> [] -> forallb unreserved (str v) = true ->
  Forall pair_plain (push_if k v b).
Proof. intros. destruct b; repeat constructor; by try apply plain_check. Qed.
Lemma non_empty_plain o v : option_plain o -> non_empty o = Some v -> plain v.
Proof. destruct o as [s|]; [|done]. cbn. case_bool_decide; [done|]. intros Hs Ho. by simplify_eq/=. Qed.
Lemma non_zero_plain o v : match o with Some v => in_u32 v | None => True end -> non_zero o = Some v ->
  plain (show_uint v).
Proof.
  destruct o as [s|]; [|done]. cbn. unfold in_u32. intros Hs. case_match; [|done]. intros [= ->].
  apply digits_plain, show_uint_digits. lia.
Qed.

Lemma common_pairs_plain l : link_plain l -> Forall pair_plain (common_pairs l).
Proof.
  intros []. unfold common_pairs. repeat apply Forall_app_2;
    first [apply push_some_plain; [done|done|]; eauto using non_empty_plain, non_zero_plain
          |apply push_if_plain; done|idtac].
  destruct (non_empty (sl_obfs_password l)) eqn:E; [|constructor].
  repeat constructor; try (by apply plain_check); try done. by eapply non_empty_plain.
Qed.

(** Membership in a closed list. *)
Ltac is_member := apply (bool_decide_eq_true_1 _); vm_compute; reflexivity.

Section Roundtrip.
Context `{UrlCrate}.

(** The URL of a printed link. *)
Lemma link_parsed scheme pairs l : scheme ∈ ["rsq"; "rst"]%string -> link_plain l -> Forall pair_plain pairs ->
  exists u, url_parse (encode_link scheme pairs l) = Some u
    /\ url_username u = pct_encode_userinfo (sl_password l) /\ url_host_str u = Some (sl_server l)
    /\ url_port u = Some (sl_port l) /\ url_fragment u = non_empty (sl_name l) /\ url_query_pairs u = pairs.
Proof.
  intros Hs [] Hp. unfold encode_link. apply url_plain; try done.
  - rewrite !elem_of_cons, elem_of_nil in Hs. destruct Hs as [-> | [-> | []]]; set_solver.
  - apply pct_encode_plain.
  - apply lp_server0.
  - apply lp_server0.
  - destruct (non_empty (sl_name l)) eqn:E; [|done]. by apply (non_empty_plain (sl_name l)).
Qed.

(** The last value of a key. *)
Lemma assoc_app {A} k (l1 l2 : list (list byte * A)) : assoc k (l1 ++ l2) = or_else (assoc k l1) (assoc k l2).
Proof. induction l1 as [|[k' v] l1 IH]; [done|]. cbn [app assoc]. by case_bool_decide. Qed.
Lemma params_push_some {A} k k' (show : A -> list byte) o rest :
  params_get (push_some k show o ++ rest) k'
  = or_else (params_get rest k') (if bool_decide (str k = str k') then show <$> o else None).
Proof.
  unfold params_get. rewrite rev_app_distr, assoc_app. f_equal.
  destruct o; cbn; case_bool_decide; done.
Qed.
Lemma params_push_if k v b k' rest :
  params_get (push_if k v b ++ rest) k'
  = or_else (params_get rest k') (if bool_decide (str k = str k') && b then Some (str v) else None).
Proof.
  unfold params_get. rewrite rev_app_distr, assoc_app. f_equal.
  destruct b; cbn; case_bool_decide; done.
Qed.

(** Comparisons of literal keys. *)
Ltac literal_keys :=
  repeat match goal with
  | |- context [bool_decide (str ?a = str ?b)] =>
      let r := eval vm_compute in (bool_decide (str a = str b)) in
      change (bool_decide (str a = str b)) with r; cbv iota
  end.

(** What the pairs both links start with say of a key they may hold. *)
Definition common_value (l : ShareLink) (k : string) : option (list byte) :=
  if String.eqb k "sni" then non_empty (sl_sni l)
  else if String.eqb k "up" then show_uint <$> non_zero (sl_up_mbps l)
  else if String.eqb k "down" then show_uint <$> non_zero (sl_down_mbps l)
  else if String.eqb k "profile" then non_empty (sl_profile l)
  else if String.eqb k "obfs" then (fun _ => str "salamander") <$> non_empty (sl_obfs_password l)
  else if String.eqb k "obfs-password" then non_empty (sl_obfs_password l)
  else if String.eqb k "obfs-version" && bool_decide (sl_obfs_version l = Some 2) then Some (str "2")
  else None.

Lemma or_else_None {A} (o : option A) : or_else o None = o.
Proof. by destruct o. Qed.
Definition link_keys : list string :=
  ["sni"; "up"; "down"; "profile"; "obfs"; "obfs-password"; "obfs-version"]%string.
Lemma common_params l rest k : k ∈ link_keys ++ ["insecure"]%string ->
  params_get (common_pairs l ++ rest) k = or_else (params_get rest k) (common_value l k).
Proof.
  intros Hk. unfold common_pairs.
  replace (match non_empty (sl_obfs_password l) with
           | Some p => [(str "obfs", str "salamander"); (str "obfs-password", p)] | None => [] end)
    with (push_some "obfs" (fun _ : list byte => str "salamander") (non_empty (sl_obfs_password l))
          ++ push_some "obfs-password" id (non_empty (sl_obfs_password l)))
    by (by destruct (non_empty (sl_obfs_password l))).
  unfold link_keys in Hk. cbn [app] in Hk. rewrite <-!app_assoc, !params_push_some, params_push_if.
  rewrite !elem_of_cons, elem_of_nil in Hk. destruct_or! Hk; try done; subst k; literal_keys;
    rewrite ?or_else_None, ?option_fmap_id; cbn [andb];
    unfold common_value; cbn [String.eqb Ascii.eqb Bool.eqb andb];
    try (destruct (bool_decide (sl_obfs_version l = Some 2))); rewrite ?or_else_None; done.
Qed.

Lemma assoc_remove {A} k k0 (fs : list (list byte * A)) : k <> k0 ->
  assoc k (filter (fun kv => kv.1 <> k0) fs) = assoc k fs.
Proof.
  intros Hk. induction fs as [|[k' v] fs IH]; [done|]. rewrite filter_cons. cbn [assoc fst].
  case_decide as Hn; cbn [assoc].
  - by rewrite IH.
  - subst. rewrite (bool_decide_eq_false_2 (k0 = k)) by done. done.
Qed.

(** A node becomes an outbound with its fields. *)
Lemma node_outbound fields kind tag :
  assoc (str "type") fields = Some (Str kind) -> assoc (str "tag") fields = Some (Str tag) ->
  exists raw, value_to_outbound (Object fields) = Ok (mkOutboundCfg kind (Some tag) raw)
    /\ forall k, str k <> str "type" -> str k <> str "tag" -> get raw k = assoc (str k) fields.
Proof.
  intros Hk Ht. unfold value_to_outbound, remove_key. rewrite Hk. cbn [mbind option_bind as_str ok_or result_bind].
  rewrite assoc_remove, Ht by done. cbn [mbind option_bind as_str]. eexists. split; [done|].
  intros k H1 H2. cbn [get]. by rewrite !assoc_remove.
Qed.

Ltac literal_fields := repeat (cbn [assoc fst snd]; literal_keys).

(** The rates of a link. *)
Lemma link_rate o : match o with Some v => in_u32 v | None => True end ->
  wrap 32 (default 0 (s ← (show_uint <$> non_zero o); parse_uint 32 s)) = default 0 o.
Proof.
  destruct o as [v|]; [|done]. unfold in_u32, non_zero. intros Hv. cbn [mbind option_bind].
  destruct (Z.ltb_spec 0 v); cbn [fmap option_fmap option_map mbind option_bind].
  - rewrite parse_show_uint by lia. unfold wrap. by apply Z.mod_small.
  - replace v with 0 by lia. done.
Qed.

(** The URL of a printed link, seen by the readers. *)
Record link_url (l : ShareLink) (u : Url) : Prop := {
  lu_username : url_username u = pct_encode_userinfo (sl_password l);
  lu_host : url_host_str u = Some (sl_server l);
  lu_port : url_port u = Some (sl_port l);
  lu_fragment : url_fragment u = non_empty (sl_name l);
  lu_param k : k ∈ link_keys ->
    param u k = common_value l k;
  lu_insecure : param_is u "insecure" "1" = sl_insecure l;
}.
Lemma link_read scheme more l : scheme ∈ ["rsq"; "rst"]%string -> link_plain l -> Forall pair_plain more ->
  (forall k, k ∈ link_keys ->
     params_get more k = None) ->
  params_get more "insecure" = (if sl_insecure l then Some (str "1") else None) ->
  exists u, url_parse (encode_link scheme (common_pairs l ++ more) l) = Some u /\ link_url l u.
Proof.
  intros Hs Hl Hm Hk Hi.
  destruct (link_parsed scheme (common_pairs l ++ more) l) as (u & Hu & Hus & Hh & Hp & Hf & Hq); [done|done|..].
  { apply Forall_app_2; [by apply common_pairs_plain|done]. }
  exists u. split; [done|]. split; try done.
  - intros k Hin. unfold param. rewrite Hq, common_params by (apply elem_of_app; by left). by rewrite Hk.
  - unfold param_is, param. rewrite Hq, common_params, Hi by is_member. by destruct (sl_insecure l).
Qed.

Lemma rsq_link_read l : link_plain l -> exists u, url_parse (rsq_link_encode l) = Some u /\ link_url l u.
Proof.
  intros Hl. apply (link_read "rsq" (push_if "insecure" "1" (sl_insecure l)) l);
    [is_member|done|by apply push_if_plain|..].
  - intros k Hk. rewrite <-(app_nil_r (push_if _ _ _)), params_push_if.
    unfold link_keys in Hk. rewrite !elem_of_cons, elem_of_nil in Hk.
    destruct_or! Hk; try done; subst k; literal_keys; done.
  - by destruct (sl_insecure l).
Qed.
Lemma rst_link_read w d l : link_plain l -> exists u, url_parse (rst_link_encode w d l) = Some u /\ link_url l u.
Proof.
  intros Hl. apply (link_read "rst" (push_if "warm_up" "0" (negb w) ++ push_if "udp" "0" (negb d)
    ++ push_if "insecure" "1" (sl_insecure l) ++ [(str "brutal", str "1")]) l); [is_member|done|..].
  - repeat apply Forall_app_2; try (by apply push_if_plain).
    constructor; [split_and!; [by apply plain_check|done|by apply plain_check]|constructor].
  - intros k Hk. rewrite !params_push_if.
    unfold link_keys in Hk. rewrite !elem_of_cons, elem_of_nil in Hk.
    destruct_or! Hk; try done; subst k; literal_keys; done.
  - rewrite !params_push_if. literal_keys. by destruct (sl_insecure l).
Qed.

Section Fields.
Variables (l : ShareLink) (u : Url).
Hypotheses (Hl : link_plain l) (Hu : link_url l u).

Lemma link_password : decode_url_userinfo (url_username u) = sl_password l.
Proof. rewrite (lu_username l u Hu). apply userinfo_roundtrip, Hl. Qed.
Lemma link_up : wrap 32 (default 0 (as_u64 (param_u32 u "up" 0))) = default 0 (sl_up_mbps l).
Proof.
  unfold param_u32. rewrite (lu_param l u Hu) by is_member. cbn [as_u64 nat_value].
  apply link_rate, Hl.
Qed.
Lemma link_down : wrap 32 (default 0 (as_u64 (param_u32 u "down" 0))) = default 0 (sl_down_mbps l).
Proof.
  unfold param_u32. rewrite (lu_param l u Hu) by is_member. cbn [as_u64 nat_value].
  apply link_rate, Hl.
Qed.
Lemma link_sni : text (tls_value u (sl_server l) "insecure") "server_name"
  = Some (default (sl_server l) (non_empty (sl_sni l))).
Proof.
  unfold text, tls_value. cbn [get]. literal_fields. cbn [mbind option_bind as_str].
  by rewrite (lu_param l u Hu) by is_member.
Qed.
Lemma link_insecure : flag (tls_value u (sl_server l) "insecure") "insecure" = Some (sl_insecure l).
Proof.
  unfold flag, tls_value. cbn [get]. literal_fields. cbn [mbind option_bind as_bool].
  by rewrite (lu_insecure l u Hu).
Qed.
Lemma link_port : wrap 16 (default 443 (url_port u)) = sl_port l.
Proof. rewrite (lu_port l u Hu). apply Z.mod_small, Hl. Qed.

(** The key a client takes from the section: that of the link, or its own password. *)
Lemma link_key password :
  bool_decide (flag (link_obfs u) "enabled" = Some false) = false
  /\ (default password (text (link_obfs u) "password"), parse_version (number (link_obfs u) "version"))
     = match non_empty (sl_obfs_password l) with
       | Some p => (p, if bool_decide (sl_obfs_version l = Some 2) then V2 else V1)
       | None => (password, V1)
       end.
Proof.
  unfold link_obfs. rewrite !(lu_param l u Hu) by is_member. cbn [common_value String.eqb Ascii.eqb Bool.eqb andb].
  destruct (non_empty (sl_obfs_password l)) as [p|]; cbn [fmap option_fmap option_map opt_value]; [|done].
  unfold flag, text, number. cbn [get]. literal_fields. split; [done|]. cbn [mbind option_bind as_str as_u64 nat_value].
  by destruct (bool_decide (sl_obfs_version l = Some 2)).
Qed.
End Fields.

(** C30.  A printed RSQ link is imported.  When its fields are made of plain characters,
    the password of any, reading the link gives an outbound of type [rsq] under its
    name with the server, port, password, rates, server name, profile and flags the
    link was printed with.  Obfuscation is the exception: a link without it gives a
    client that obfuscates with the account's password. *)
Theorem rsq_link_imported l : link_plain l ->
  exists node ob inner, parse_rsq (rsq_link_encode l) = Ok node /\ value_to_outbound node = Ok ob
  /\ oc_kind ob = str "rsq" /\ oc_tag ob = Some (default (str "rsq") (non_empty (sl_name l)))
  /\ rsq_outbound_new (str "out") (oc_raw ob) = Ok (inner, false)
  /\ ob_server inner = sl_server l /\ ob_port inner = sl_port l /\ ob_password inner = sl_password l
  /\ ob_up_mbps inner = default 0 (sl_up_mbps l) /\ ob_down_mbps inner = default 0 (sl_down_mbps l)
  /\ ob_sni inner = Some (default (sl_server l) (non_empty (sl_sni l)))
  /\ ob_insecure inner = sl_insecure l
  /\ ob_profile inner = from_name (default (str "video") (non_empty (sl_profile l)))
  /\ ob_obfs inner = Some (match non_empty (sl_obfs_password l) with
                           | Some p => (p, if bool_decide (sl_obfs_version l = Some 2) then V2 else V1)
                           | None => (sl_password l, V1)
                           end).
Proof.
  intros Hl. destruct (rsq_link_read l Hl) as (u & Hu & Hlu).
  unfold parse_rsq. rewrite Hu. cbn [ok_or mbind result_bind]. rewrite (lu_host l u Hlu). cbn [ok_or mbind result_bind].
  set (fields := [(str "type", _); _; _; _; _; _; _; _; _; _]).
  destruct (node_outbound fields (str "rsq") (default (str "rsq") (non_empty (sl_name l)))) as (raw & Hv & Hget);
    [by unfold fields; literal_fields|unfold fields, tag_of; literal_fields; by rewrite (lu_fragment l u Hlu)|].
  eexists (Object fields), (mkOutboundCfg _ _ _), _. rewrite Hv. unfold rsq_outbound_new. cbv zeta beta. cbn [oc_raw oc_kind oc_tag]. rewrite !Hget by done.
  unfold fields. literal_fields. cbn [mbind option_bind as_str as_u64 as_bool ok_or result_bind].
  unfold port_of. cbn [as_u64 nat_value ok_or mbind result_bind].
  do 5 (split; [reflexivity|]).
  cbn [ob_server ob_port ob_password ob_up_mbps ob_down_mbps ob_sni ob_insecure ob_profile ob_obfs].
  destruct (link_key l u Hlu (sl_password l)) as [Hon Hkey].
  split_and!.
  - done.
  - by apply link_port.
  - by apply link_password.
  - by apply link_up.
  - by apply link_down.
  - by apply link_sni.
  - pose proof (link_insecure l u Hlu) as Hi. unfold flag in Hi. by rewrite Hi.
  - by rewrite (lu_param l u Hlu) by is_member.
  - unfold flag in Hon. rewrite Hon, <-Hkey. unfold text, number.
    rewrite (link_password l u Hl Hlu). by destruct (x ← get (link_obfs u) "password"; as_str x).
Qed.

(** A printed RST link is imported, and what is lost.  The client has the server,
    the account, the rates and the TLS settings of the link, but the link's [warm_up]
    and [udp] have no effect on it.  A link without an obfuscation password gives a
    client that obfuscates with the account's password, where a server without an
    [obfs] section takes packets plain. *)
Theorem rst_link_imported l w d server_raw : link_plain l -> get server_raw "obfs" = None ->
  parse_obfs server_raw [sl_password l] = Ok None
  /\ exists node ob, parse_rst (rst_link_encode w d l) = Ok node /\ value_to_outbound node = Ok ob
       /\ oc_kind ob = str "rst"
       /\ rst_outbound_new (str "out") (oc_raw ob)
          = Ok (mkRstOutboundCfg (str "out") (sl_server l) (sl_port l) (sl_password l)
                  (default 0 (sl_up_mbps l)) (default 0 (sl_down_mbps l))
                  (Some (default (sl_server l) (non_empty (sl_sni l)))) (sl_insecure l)
                  (Some (match non_empty (sl_obfs_password l) with
                         | Some p => (p, if bool_decide (sl_obfs_version l = Some 2) then V2 else V1)
                         | None => (sl_password l, V1)
                         end))
                  30000 10000 15000 (30 * 60 * 1000) true DEFAULT_DIAL_CONCURRENCY).
Proof.
  intros Hl Hsrv. split; [unfold parse_obfs; by rewrite Hsrv|].
  destruct (rst_link_read w d l Hl) as (u & Hu & Hlu).
  unfold parse_rst. rewrite Hu. cbn [ok_or mbind result_bind]. rewrite (lu_host l u Hlu). cbn [ok_or mbind result_bind].
  set (fields := [(str "type", _); _; _; _; _; _; _; _; _; _; _; _; _; _]).
  destruct (node_outbound fields (str "rst") (default (str "rst") (non_empty (sl_name l)))) as (raw & Hv & Hget);
    [by unfold fields; literal_fields|unfold fields, tag_of; literal_fields; by rewrite (lu_fragment l u Hlu)|].
  eexists (Object fields), (mkOutboundCfg _ _ _). rewrite Hv. unfold rst_outbound_new, text, number, flag.
  cbv zeta. cbn [oc_raw]. rewrite !Hget by done.
  unfold fields. literal_fields. unfold port_of.
  cbn [mbind option_bind as_str as_u64 as_bool nat_value ok_or result_bind].
  do 3 (split; [reflexivity|]).
  destruct (link_key l u Hlu (sl_password l)) as [Hon Hkey]. unfold flag in Hon.
  rewrite Hon, <-Hkey, (link_password l u Hl Hlu). unfold u16, u32.
  rewrite (link_port l u Hl Hlu), (link_up l u Hl Hlu), (link_down l u Hl Hlu).
  pose proof (link_sni l u Hlu) as Hs. pose proof (link_insecure l u Hlu) as Hi. unfold text in Hs. unfold flag in Hi.
  by rewrite Hs, Hi.
Qed.
End Roundtrip.

(** ** Lists of links *)

Section Content.
Context `{UrlCrate}.
Variable b64_decode : list byte -> option (list byte).
Variable json_parse : list byte -> option Value.

Lemma from_utf8_safe s : yields (fun _ => True) (from_utf8 s).
Proof. unfold from_utf8. by destruct (utf8_valid s). Qed.
Lemma ok_or_safe {A} msg (o : option A) : yields (fun _ => True) (ok_or msg o).
Proof. by destruct o. Qed.
#[local] Hint Resolve from_utf8_safe ok_or_safe : core.

Lemma parse_single_link_safe link : yields (fun _ => True) (parse_single_link b64_decode json_parse link).
Proof.
  assert (Hhost : forall (f : Url -> list byte -> result Value) l,
    (forall u h, yields (fun _ => True) (f u h)) ->
    yields (fun _ => True)
      (url ← ok_or "invalid url" (url_parse l); host ← ok_or "No host" (url_host_str url); f url host)).
  { intros f l Hf. by repeat (yields_step; [done|]). }
  unfold parse_single_link. repeat case_match; try done; try (by apply Hhost).
  - unfold parse_vmess. do 3 (yields_step; [done|]). yields_step; [by repeat case_match|done].
  - unfold parse_shadowsocks. do 3 (yields_step; [done|]). by repeat case_match.
Qed.

(** What a line is worth by itself. *)
Definition line_value (line : list byte) : option Value :=
  let line := trim line in
  if bool_decide (line = []) || starts_with line (str "#") then None
  else match parse_single_link b64_decode json_parse line with Ok v => Some v | _ => None end.

Lemma share_links_lines content :
  parse_share_links b64_decode json_parse content = Ok (omap line_value (lines content)).
Proof.
  unfold parse_share_links. induction (lines content) as [|l ls IH]; [done|]. cbn [lines_nodes omap list_omap].
  unfold line_node, line_value. destruct (bool_decide (trim l = []) || starts_with (trim l) (str "#")).
  { cbn [mbind result_bind]. by rewrite IH. }
  pose proof (parse_single_link_safe (trim l)) as Hs. destruct (parse_single_link _ _ _) as [v|e|e]; [..|done];
    cbn [mbind result_bind]; by rewrite IH.
Qed.

Definition b64_char (b : byte) : bool :=
  in_range 65 90 b || in_range 97 122 b || in_range 48 57 b || bool_decide (b ∈ [x2b; x2f; x3d]).
Hypothesis b64_alphabet : forall s d, b64_decode s = Some d -> Forall (fun b => b64_char b = true) s.

(** What a subscription yields.  The text is read as Base64 when it decodes to
    text, and as it is otherwise; the test for a scheme in front changes nothing.
    Each line then counts for itself: lines that are blank, comments or not readable
    add nothing and cost the others nothing. *)
Theorem subscription_content content :
  let text := match b64_decode (trim content) with
              | Some d => if utf8_valid d then d else trim content
              | None => trim content
              end in
  parse_content b64_decode json_parse content = Ok (omap line_value (lines text)).
Proof.
  intros text. unfold parse_content, text. clear text. set (c := trim content).
  destruct (existsb (starts_with c) SCHEMES) eqn:E.
  - rewrite share_links_lines. destruct (b64_decode c) as [d|] eqn:Ed; [|done].
    apply b64_alphabet in Ed. exfalso. apply existsb_exists in E as (scheme & Hin & [t ->]%starts_with_spec).
    unfold SCHEMES in Hin. apply Forall_app in Ed as [Ed _]. rewrite Forall_forall in Ed.
    cbn [map In] in Hin. destruct_or! Hin; subst; try done;
      (specialize (Ed x3a); vm_compute in Ed; discriminate Ed; apply list_elem_of_In; cbn; tauto).
  - destruct (b64_decode c) as [d|]; [|by rewrite share_links_lines].
    destruct (utf8_valid d); by rewrite share_links_lines.
Qed.
End Content.

(** ** Merging into the options *)

Definition tags_of (obs : list OutboundCfg) : list (list byte) := omap oc_tag obs.
Lemma tags_of_map obs : omap id (map oc_tag obs) = tags_of obs.
Proof. induction obs as [|ob obs IH]; [done|]. cbn. by destruct (oc_tag ob); cbn in *; rewrite IH. Qed.
Lemma tags_of_app a b : tags_of (a ++ b) = tags_of a ++ tags_of b.
Proof. apply omap_app. Qed.
Definition tag_list (o : option (list byte)) : list (list byte) :=
  match o with Some t => [t] | None => [] end.
Lemma tags_of_one ob : tags_of [ob] = tag_list (oc_tag ob).
Proof. by cbn; destruct (oc_tag ob). Qed.

(** The tags in use are those of the outbounds, each used once. *)
Record merge_inv (m : Merge) : Prop := {
  mi_nodup : NoDup (tags_of (mg_outbounds m));
  mi_tags t : t ∈ mg_tags m <-> t ∈ tags_of (mg_outbounds m);
}.
Lemma merge_push m ob added : merge_inv m ->
  (match oc_tag ob with Some t => t ∉ mg_tags m | None => True end) ->
  merge_inv (mkMerge (mg_outbounds m ++ [ob])
    (match oc_tag ob with Some t => {[t]} ∪ mg_tags m | None => mg_tags m end) added).
Proof.
  intros [Hn Ht] Hob. split; cbn [mg_outbounds mg_tags]; rewrite tags_of_app, tags_of_one.
  - apply NoDup_app. split_and!; [done| |destruct (oc_tag ob); [apply NoDup_singleton|constructor]].
    intros t Hin. destruct (oc_tag ob) as [t'|]; cbn [tag_list]; [|apply not_elem_of_nil].
    rewrite list_elem_of_singleton. intros ->. by apply Hob, Ht.
  - intros t. rewrite elem_of_app. destruct (oc_tag ob) as [t'|]; cbn [tag_list].
    + rewrite elem_of_union, elem_of_singleton, list_elem_of_singleton, Ht. tauto.
    + rewrite Ht, elem_of_nil. tauto.
Qed.

(** What one provider adds: nodes, counted and with their tags, and maybe a selector. *)
Lemma merge_nodes_spec : forall nodes m tags m' tags', merge_inv m ->
  merge_nodes nodes m tags = (m', tags') -> merge_inv m' /\ exists extra,
    mg_outbounds m' = mg_outbounds m ++ extra /\ mg_added m' = mg_added m + zlen extra
    /\ tags' = tags ++ tags_of extra.
Proof.
  induction nodes as [|node nodes IH]; intros m tags m' tags' Hm; cbn [merge_nodes].
  { intros [= <- <-]. split; [done|]. exists []. rewrite !app_nil_r, Z.add_0_r. done. }
  assert (Hskip : merge_nodes nodes m tags = (m', tags') -> merge_inv m' /\ exists extra,
    mg_outbounds m' = mg_outbounds m ++ extra /\ mg_added m' = mg_added m + zlen extra
    /\ tags' = tags ++ tags_of extra) by eauto.
  destruct (value_to_outbound node) as [ob|?|?]; [|done..].
  assert (Hpush : forall ts, (match oc_tag ob with Some t => t ∉ mg_tags m | None => True end) ->
    merge_nodes nodes (mkMerge (mg_outbounds m ++ [ob])
      (match oc_tag ob with Some t => {[t]} ∪ mg_tags m | None => mg_tags m end) (mg_added m + 1))
      (tags ++ tag_list (oc_tag ob)) = (m', tags') -> ts = tags ->
    merge_inv m' /\ exists extra, mg_outbounds m' = mg_outbounds m ++ extra
      /\ mg_added m' = mg_added m + zlen extra /\ tags' = tags ++ tags_of extra).
  { intros ts Hob Hr ->. destruct (IH _ _ _ _ (merge_push m ob (mg_added m + 1) Hm Hob) Hr)
      as (Hm' & extra & H1 & H2 & H3). cbn [mg_outbounds mg_added] in *. split; [done|].
    exists (ob :: extra). rewrite H1, H2, H3, <-!app_assoc. split_and!; [done|unfold zlen; simpl; lia|].
    by change (ob :: extra) with ([ob] ++ extra); rewrite tags_of_app, tags_of_one. }
  destruct (oc_tag ob) as [t|]; cbn [tag_list] in Hpush.
  - case_bool_decide as Hin; [done|]. intros Hr. by apply (Hpush tags).
  - intros Hr. rewrite app_nil_r in Hpush. by apply (Hpush tags).
Qed.

Lemma merge_selector_spec p m tags : merge_inv m ->
  merge_inv (merge_selector p m tags) /\ mg_added (merge_selector p m tags) = mg_added m
  /\ exists sel, mg_outbounds (merge_selector p m tags) = mg_outbounds m ++ sel
     /\ (sel = [] \/ exists t, sel = [selector_cfg t tags] /\ tags <> []).
Proof.
  intros Hm. unfold merge_selector.
  assert (Hsame : merge_inv m /\ mg_added m = mg_added m /\ exists sel, mg_outbounds m = mg_outbounds m ++ sel
     /\ (sel = [] \/ exists t, sel = [selector_cfg t tags] /\ tags <> [])).
  { split_and!; [done..|]. exists []. rewrite app_nil_r. auto. }
  destruct (or_else _ _) as [t|]; [|done].
  destruct (bool_decide (tags = []) || bool_decide (t ∈ mg_tags m)) eqn:E; [done|].
  apply orb_false_iff in E as [Ht%bool_decide_eq_false Hin%bool_decide_eq_false].
  split_and!; [by apply (merge_push m (selector_cfg t tags))|done|].
  exists [selector_cfg t tags]. split; [done|]. right. by exists t.
Qed.

Section Merging.
Context `{UrlCrate} `{Files}.
Variable b64_decode : list byte -> option (list byte).
Variable json_parse : list byte -> option Value.

Lemma merge_providers_spec dir : forall ps m m', merge_inv m ->
  merge_providers b64_decode json_parse dir ps m = Ok m' -> merge_inv m' /\ exists extra,
    mg_outbounds m' = mg_outbounds m ++ extra
    /\ mg_added m' - mg_added m <= zlen extra <= mg_added m' - mg_added m + zlen ps.
Proof.
  induction ps as [|p ps IH]; intros m m' Hm; cbn [merge_providers].
  { intros [= <-]. split; [done|]. exists []. rewrite app_nil_r, Z.sub_diag. done. }
  assert (Hz : zlen (p :: ps) = zlen ps + 1) by (unfold zlen; simpl; lia). rewrite Hz.
  destruct (negb _).
  { intros Hr. destruct (IH m m' Hm Hr) as (Hm' & extra & H1 & H2). split; [done|]. exists extra. split; [done|lia]. }
  destruct (fetch_from_base _ _ _ _) as [nodes|?|?]; cbn [mbind result_bind]; [|done..].
  destruct (merge_nodes nodes m []) as [m1 tags] eqn:Hn. intros Hr.
  destruct (merge_nodes_spec _ _ _ _ _ Hm Hn) as (Hm1 & ex1 & E1 & A1 & _).
  destruct (merge_selector_spec p m1 tags Hm1) as (Hm2 & A2 & sel & E2 & Hsel).
  destruct (IH _ _ Hm2 Hr) as (Hm' & ex2 & E3 & A3). split; [done|].
  exists (ex1 ++ sel ++ ex2). rewrite E3, E2, E1, <-!app_assoc. split; [done|].
  rewrite !zlen_app. assert (0 <= zlen sel <= 1) by (destruct Hsel as [-> | (t & -> & _)]; unfold zlen; simpl; lia). lia.
Qed.

Lemma merge_start_inv o : NoDup (tags_of (o_outbounds o)) -> merge_inv (merge_start o).
Proof. intros Hn. split; [done|]. intros t. cbn. by rewrite elem_of_list_to_set. Qed.

(** C31.  Merging subscriptions keeps a configuration valid.  The outbounds that were
    there stay in front, what is added has new tags of its own, so that the second
    validation never fails, and at most one selector comes with each provider. *)
Theorem merge_keeps_valid dir o o' n : validate o = Ok tt ->
  merge_outbound_providers b64_decode json_parse dir o = Ok (o', n) ->
  validate o' = Ok tt /\ o_inbounds o' = o_inbounds o /\ o_route o' = o_route o
  /\ exists extra, o_outbounds o' = o_outbounds o ++ extra
     /\ n <= zlen extra <= n + zlen (o_providers o).
Proof.
  rewrite validate_iff. intros (Hne & Hout & Hin). rewrite tags_of_map in Hout.
  unfold merge_outbound_providers. case_bool_decide as Hp.
  { intros [= <- <-]. rewrite validate_iff, tags_of_map. split_and!; [done..|].
    exists []. rewrite app_nil_r, Hp. done. }
  destruct (merge_providers _ _ _ _ _) as [m|?|?] eqn:Hm; cbn [mbind result_bind]; [|done..]. intros [= <- <-].
  destruct (merge_providers_spec _ _ _ _ (merge_start_inv o Hout) Hm) as ([Hn _] & extra & E & A).
  cbn [merge_start mg_outbounds mg_added] in E, A.
  rewrite validate_iff. cbn [o_inbounds o_outbounds o_route]. rewrite tags_of_map. split_and!; [|done|done|done|done|].
  - destruct Hne as [?|Hne]; [by left|right]. rewrite E. by destruct (o_outbounds o).
  - exists extra. split; [done|lia].
Qed.
End Merging.

(** ** Witnesses *)

(** A reader of links of the plain form. *)
Record toy_url := mkToyUrl {
  tu_user : list byte;
  tu_host : list byte;
  tu_port : Z;
  tu_frag : option (list byte);
  tu_pairs : list (list byte * list byte);
}.
Definition cut (c : byte) (s : list byte) : list byte * option (list byte) :=
  match split_once c s with Some (a, b) => (a, Some b) | None => (s, None) end.
Definition toy_parse (s : list byte) : option toy_url :=
  '(_, r) ← split_once x3a s;
  r ← strip_prefix r (str "//");
  let '(r, frag) := cut x23 r in
  let '(r, query) := cut x3f r in
  '(user, r) ← split_once x40 r;
  '(host, port) ← split_once x3a r;
  port ← parse_uint 16 port;
  let pairs := match query with Some q => omap (split_once x3d) (split x26 q) | None => [] end in
  Some (mkToyUrl user host port frag pairs).

Lemma plain_not c s : unreserved c = false -> plain s -> c ∉ s.
Proof. intros Hc Hs Hin. unfold plain in Hs. rewrite Forall_forall in Hs. apply Hs in Hin. congruence. Qed.
Lemma plain_pct_not c s : unreserved c = false -> c <> x25 -> plain_pct s -> c ∉ s.
Proof.
  intros Hc Hn Hs Hin. unfold plain_pct in Hs. rewrite Forall_forall in Hs. apply Hs in Hin as [?| ->]; congruence.
Qed.
Lemma split_one c s : c ∉ s -> split c s = [s].
Proof.
  induction s as [|b s IH]; intros Hn; [done|]. apply not_elem_of_cons in Hn as [? ?]. cbn [split].
  by rewrite bool_decide_eq_false_2, IH by done.
Qed.
Lemma split_cons c a b : c ∉ a -> split c (a ++ c :: b) = a :: split c b.
Proof.
  induction a as [|x a IH]; intros Hn; cbn [app split]; [by rewrite bool_decide_eq_true_2|].
  apply not_elem_of_cons in Hn as [? ?]. by rewrite bool_decide_eq_false_2, IH by done.
Qed.
Lemma split_once_absent c s : c ∉ s -> split_once c s = None.
Proof.
  induction s as [|b s IH]; intros Hn; [done|]. apply not_elem_of_cons in Hn as [? ?]. cbn [split_once].
  by rewrite bool_decide_eq_false_2, IH by done.
Qed.
Lemma cut_here c a b : c ∉ a -> cut c (a ++ c :: b) = (a, Some b).
Proof. intros. unfold cut. by rewrite split_once_app. Qed.
Lemma cut_absent c s : c ∉ s -> cut c s = (s, None).
Proof. intros. unfold cut. by rewrite split_once_absent. Qed.

Definition query_body (p : list byte * list byte) (ps : list (list byte * list byte)) : list byte :=
  pair_text p ++ concat (map (fun q => str "&" ++ pair_text q) ps).
Lemma pair_text_not c p : unreserved c = false -> c <> x3d -> pair_plain p -> c ∉ pair_text p.
Proof.
  intros Hc Hn (H1 & _ & H2). unfold pair_text. rewrite !elem_of_app.
  intros [Hin|[Hin|Hin]]; [by apply (plain_not c p.1)| |by apply (plain_not c p.2)].
  apply list_elem_of_singleton in Hin. by subst.
Qed.
Lemma query_body_not c p ps : unreserved c = false -> c <> x3d -> c <> x26 -> Forall pair_plain (p :: ps) ->
  c ∉ query_body p ps.
Proof.
  intros Hc H1 H2 Hf. unfold query_body. rewrite elem_of_app. apply Forall_cons in Hf as [Hp Hf].
  intros [Hin|Hin]; [by apply (pair_text_not c p) in Hin|].
  induction Hf as [|q ps Hq _ IH]; [by apply elem_of_nil in Hin|]. cbn [map concat] in Hin.
  rewrite !elem_of_app in Hin. destruct Hin as [[Hin|Hin]|Hin]; [|by apply (pair_text_not c q) in Hin|auto].
  apply list_elem_of_singleton in Hin. by subst.
Qed.
Lemma query_body_pairs : forall ps p, Forall pair_plain (p :: ps) ->
  omap (split_once x3d) (split x26 (query_body p ps)) = p :: ps.
Proof.
  assert (Hone : forall p, pair_plain p -> split_once x3d (pair_text p) = Some p).
  { intros [k v] (Hk & _). cbn [fst] in Hk. unfold pair_text. cbn [fst snd].
    by apply split_once_app, plain_not. }
  induction ps as [|q ps IH]; intros p Hf; apply Forall_cons in Hf as [Hp Hf]; unfold query_body; cbn [map concat].
  - rewrite app_nil_r, split_one by (by apply pair_text_not). cbn [omap list_omap]. by rewrite Hone.
  - change ((str "&" ++ pair_text q) ++ ?x) with (x26 :: pair_text q ++ x).
    rewrite split_cons by (by apply pair_text_not). cbn [omap list_omap]. rewrite Hone by done. f_equal.
    by apply (IH q).
Qed.

Lemma toy_url_plain scheme user host port pairs frag :
  scheme ∈ [str "rsq"; str "rst"; str "hysteria2"] ->
  plain_pct user -> plain host -> host <> [] -> in_u16 port -> Forall pair_plain pairs ->
  toy_parse (scheme ++ str "://" ++ user ++ str "@" ++ host ++ str ":" ++ show_uint port
             ++ query_string pairs ++ fragment_string frag) = Some (mkToyUrl user host port frag pairs).
Proof.
  intros Hs Hu Hh _ Hport Hps. unfold in_u16 in Hport.
  assert (Hsc : x3a ∉ scheme).
  { rewrite !elem_of_cons, elem_of_nil in Hs. destruct Hs as [-> | [-> | [-> | []]]];
      by apply (bool_decide_eq_true_1 _). }
  assert (Hd : plain (show_uint port)) by (apply digits_plain, show_uint_digits; lia).
  set (main := user ++ str "@" ++ host ++ str ":" ++ show_uint port).
  assert (Hmain : forall c, unreserved c = false -> c ∉ [x25; x40; x3a] -> c ∉ main).
  { intros c Hc Hn. rewrite !not_elem_of_cons in Hn. destruct Hn as (H1 & H2 & H3 & _).
    unfold main. rewrite !elem_of_app. intros [Hin|[Hin|[Hin|[Hin|Hin]]]];
      [by apply (plain_pct_not c user)|apply list_elem_of_singleton in Hin; by subst|by apply (plain_not c host)
      |apply list_elem_of_singleton in Hin; by subst|by apply (plain_not c (show_uint port))]. }
  assert (Hrest : forall query, (match query with Some q => omap (split_once x3d) (split x26 q) | None => [] end) = pairs ->
    ('(user, r) ← split_once x40 main; '(host, port) ← split_once x3a r; port ← parse_uint 16 port;
     let pairs := match query with Some q => omap (split_once x3d) (split x26 q) | None => [] end in
     Some (mkToyUrl user host port frag pairs)) = Some (mkToyUrl user host port frag pairs)).
  { intros query Hq. unfold main. change (str "@" ++ ?x) with (x40 :: x). rewrite split_once_app by (by apply plain_pct_not).
    cbn [mbind option_bind]. change (str ":" ++ ?x) with (x3a :: x). rewrite split_once_app by (by apply plain_not).
    cbn [mbind option_bind]. rewrite parse_show_uint by lia. cbn [mbind option_bind]. by rewrite Hq. }
  unfold toy_parse. change (str "://" ++ ?x) with (x3a :: str "//" ++ x). rewrite split_once_app by done.
  cbn [mbind option_bind]. rewrite strip_prefix_app. cbn [mbind option_bind].
  assert (Hq : forall r, cut x23 (main ++ r ++ fragment_string frag) = (main ++ r, frag) \/ x23 ∈ main ++ r).
  { intros r. destruct (decide (x23 ∈ main ++ r)); [by right|left]. rewrite app_assoc. destruct frag as [f|].
    - by apply cut_here.
    - cbn [fragment_string]. rewrite app_nil_r. by apply cut_absent. }
  replace (user ++ str "@" ++ host ++ str ":" ++ show_uint port ++ query_string pairs ++ fragment_string frag)
    with (main ++ query_string pairs ++ fragment_string frag) by (unfold main; by rewrite <-!app_assoc).
  destruct pairs as [|p ps].
  - destruct (Hq []) as [E|Hin]; [cbn [query_string]; rewrite E|].
    + rewrite app_nil_r, cut_absent by (by apply Hmain; [|is_member]). by apply (Hrest None).
    + rewrite app_nil_r in Hin. by apply Hmain in Hin; [..|is_member].
  - change (query_string (p :: ps)) with (x3f :: query_body p ps) in *.
    destruct (Hq (x3f :: query_body p ps)) as [E|Hin]; [rewrite E|].
    + rewrite cut_here by (by apply Hmain; [|is_member]).
      apply (Hrest (Some (query_body p ps))). by apply query_body_pairs.
    + exfalso. rewrite elem_of_app, elem_of_cons in Hin. destruct Hin as [Hin|[Hin|Hin]]; [|done|].
      * by apply Hmain in Hin; [..|is_member].
      * by apply query_body_not in Hin.
Qed.

Definition toy_url_crate : UrlCrate.
Proof.
  refine {| Url := toy_url; url_parse := toy_parse; url_username := tu_user;
            url_host_str u := Some (tu_host u); url_port u := Some (tu_port u); url_fragment := tu_frag;
            url_query_pairs := tu_pairs |}.
  intros scheme user host port pairs frag Hs Hu Hh Hne Hp Hps _.
  exists (mkToyUrl user host port frag pairs). split; [by apply toy_url_plain|done].
Defined.
#[local] Existing Instance toy_url_crate.

Definition toy_link : ShareLink :=
  mkShareLink (str "p@ss") (str "example.com") 8443 (Some (str "node1")) None (Some 50) None
    (Some (str "raw")) None None true.
Lemma toy_link_plain : link_plain toy_link.
Proof. split; try done; try (by apply plain_check); (split; [by apply plain_check|done]). Qed.

Lemma rsq_link_imported_witness :
  exists node ob inner, parse_rsq (rsq_link_encode toy_link) = Ok node /\ value_to_outbound node = Ok ob
    /\ rsq_outbound_new (str "out") (oc_raw ob) = Ok (inner, false) /\ ob_password inner = str "p@ss"
    /\ ob_obfs inner = Some (str "p@ss", V1).
Proof.
  destruct (rsq_link_imported toy_link toy_link_plain)
    as (node & ob & inner & H1 & H2 & _ & _ & H3 & _ & _ & H4 & _ & _ & _ & _ & _ & H5).
  exists node, ob, inner. split_and!; [exact H1|exact H2|exact H3|exact H4|exact H5].
Defined.

Lemma rst_link_imported_witness :
  parse_obfs (toy_server "0.0.0.0") [str "p@ss"] = Ok None
  /\ exists node ob cfg, parse_rst (rst_link_encode false false toy_link) = Ok node
     /\ value_to_outbound node = Ok ob /\ rst_outbound_new (str "out") (oc_raw ob) = Ok cfg
     /\ rst_obfs cfg = Some (str "p@ss", V1).
Proof.
  destruct (rst_link_imported toy_link false false (toy_server "0.0.0.0") toy_link_plain eq_refl)
    as (H1 & node & ob & H2 & H3 & _ & H4).
  split; [exact H1|]. eexists node, ob, _. split_and!; [exact H2|exact H3|exact H4|reflexivity].
Defined.

(** A subscription that is not encoded: a comment, a link, a line of noise. *)
Definition toy_content : list byte :=
  str "# nodes" ++ [x0a] ++ rsq_link_encode toy_link ++ [x0a] ++ str "noise".
(** A decoder that takes what is in the alphabet as it is. *)
Definition toy_b64 (s : list byte) : option (list byte) := if forallb b64_char s then Some s else None.
Lemma toy_b64_alphabet s d : toy_b64 s = Some d -> Forall (fun b => b64_char b = true) s.
Proof.
  unfold toy_b64. destruct (forallb b64_char s) eqn:E; [|done]. intros _. apply Forall_forall.
  intros b Hb%list_elem_of_In. rewrite forallb_forall in E. by apply E.
Qed.
Lemma subscription_content_witness :
  exists nodes, parse_content toy_b64 (fun _ => None) toy_content = Ok nodes /\ length nodes = 1%nat.
Proof.
  eexists. split; [apply (subscription_content toy_b64 (fun _ => None) toy_b64_alphabet toy_content)|].
  by vm_compute.
Defined.

Definition toy_files : Files :=
  {| exists_path _ := true; read_to_string _ := Ok toy_content; current_dir := None;
     http_get _ _ := Err "offline" |}.
#[local] Existing Instance toy_files.
Definition toy_options : Options :=
  mkOptions None [] [mkOutboundCfg (str "direct") (Some (str "direct")) (Object [])] None
    [mkOutboundProvider (str "subscription") (str "file://nodes.txt") None None (Some (str "auto"))].
Lemma merge_keeps_valid_witness :
  exists o', merge_outbound_providers (fun _ => None) (fun _ => None) (Some (str "/etc/rsbox")) toy_options = Ok (o', 1)
    /\ validate o' = Ok tt /\ omap oc_tag (o_outbounds o') = [str "direct"; str "node1"; str "auto"].
Proof.
  destruct (merge_outbound_providers (fun _ => None) (fun _ => None) (Some (str "/etc/rsbox")) toy_options)
    as [[o' n]|e|e] eqn:E; [|vm_compute in E; discriminate..].
  destruct (merge_keeps_valid (fun _ => None) (fun _ => None) (Some (str "/etc/rsbox")) toy_options o' n eq_refl E)
    as (Hv & _). exists o'. vm_compute in E. injection E as <- <-. done.
Defined.

(** ** Paths *)

(** A subscription file is looked for under the configuration's directory, or the
    working directory, whatever its URL: an absolute path is not used as such. *)
Lemma file_path_relative `{Files} url dir path : resolve_file_path url (Some dir) = Ok path ->
  exists rest, path = path_join dir rest \/ exists cwd, current_dir = Some cwd /\ path = path_join cwd rest.
Proof.
  unfold resolve_file_path. destruct (strip_prefix url (str "file://")) as [raw|]; cbn [ok_or mbind result_bind]; [|done].
  assert (Hrel : is_absolute (trim_start_matches x2f raw) = false).
  { induction raw as [|b raw IH]; [done|]. cbn [trim_start_matches]. case_bool_decide as Hb; [done|].
    unfold is_absolute. cbn. by rewrite bool_decide_eq_false_2. }
  rewrite Hrel. set (rest := trim_start_matches x2f raw). intros Hf. exists rest.
  assert (Hin : path ∈ [path_join dir rest] ++ option_list ((fun d => path_join d rest) <$> current_dir)).
  { destruct (List.find _ _) as [c|] eqn:E.
    - apply find_some in E as [E _]. injection Hf as <-. by apply list_elem_of_In.
    - cbn in Hf. injection Hf as <-. by left. }
  apply elem_of_app in Hin as [->%list_elem_of_singleton|Hin]; [by left|right].
  destruct current_dir as [cwd|]; cbn in Hin; [|by apply elem_of_nil in Hin].
  apply list_elem_of_singleton in Hin as ->. by exists cwd.
Qed.
