(* ===== verification/Engine.v ===== *)
(** * Putting the program together

    [rsb-protocol/src]: the registry of types ([registry.rs]), the builders
    ([build.rs]), the constructors of the local inbounds ([MixedInbound::new],
    [DirectInbound::new], [DnsInbound::new], [TunInbound::new]), the managers of
    inbounds ([InboundManager] of [rsb-core/src/lib.rs]), the running program
    ([engine.rs]) and the reload of its configuration ([reload.rs]).

    What binding a socket or opening a device does is an argument ([binds]); closing
    an inbound does not fail in any of the types.  Loading rule sets and looking up
    names are those of [RuleSets] and [DnsRouter].  Endpoints and services, of which
    the build has none but the control API, are left out. *)
From stdpp Require Import base tactics gmap list strings.
From Stdlib Require Import ZArith Lia.
From Stdlib Require Import Strings.Byte.
From S2P Require Import Prelude Json Text Ip Srs Route RuleSets Users Connections DnsRouter Groups.
From S2P Require Import Inbound.
From S2P Require Import Obfs RsqPool Config.

Local Open Scope Z_scope.

(** ** Inbounds *)

Definition as_i64 (v : Value) : option Z :=
  match v with
  | Num (PosInt n) => if n <? 2 ^ 63 then Some n else None
  | Num (NegInt n) => Some n
  | _ => None
  end.
(** [as i32] *)
Definition to_i32 (v : Z) : Z := (v + 2 ^ 31) `mod` 2 ^ 32 - 2 ^ 31.

Record MixedCfg := mkMixedCfg {
  mx_listen : SocketAddr;
  mx_mode : ProxyMode;
  mx_tcp_fast_open : bool;
  mx_tcp_multi_path : bool;
  mx_sniff : bool;
  mx_sniff_override : bool;
}.
Definition mixed_inbound_new (kind : list byte) (raw : Value) : result MixedCfg :=
  let mode := if bool_decide (kind = str "http") then Http
              else if bool_decide (kind = str "socks") then Socks else Mixed in
  listen ← parse_listen raw;
  Ok (mkMixedCfg listen mode (default false (flag raw "tcp_fast_open"))
        (default false (flag raw "tcp_multi_path")) (default false (flag raw "sniff"))
        (default false (flag raw "sniff_override_destination"))).

Record TunCfg := mkTunCfg {
  tn_name : list byte;
  tn_mtu : Z;
  tn_address : list byte;
  tn_auto_route : bool;
  tn_strict_route : bool;
  tn_raw_fd : option Z;
}.
Definition parse_tun_address (raw : Value) : list byte :=
  let first := v ← get raw "address"; arr ← as_array v; x ← head arr; as_str x in
  match first with
  | Some a => a
  | None => default (str "172.19.0.1/30") (text raw "inet4_address")
  end.
Definition tun_inbound_new (raw : Value) : TunCfg :=
  let raw_fd := to_i32 <$> (v ← or_else (get raw "fd") (get raw "file_descriptor"); as_i64 v) in
  let auto_route := match raw_fd with
                    | Some _ => false
                    | None => default true (flag raw "auto_route")
                    end in
  mkTunCfg (default (str "tun0") (text raw "interface_name")) (u16 (default 1500 (number raw "mtu")))
    (parse_tun_address raw) auto_route (default true (flag raw "strict_route")) raw_fd.

Inductive InboundBody :=
| MixedInbound (cfg : MixedCfg)
| DirectInbound (listen : SocketAddr)
| DnsInbound (listen : SocketAddr)
| QuicInbound (cfg : ServerConfig)
| TunInbound (cfg : TunCfg).
Record InboundObj := mkInboundObj {
  in_tag : list byte;
  in_kind : list byte;
  in_body : InboundBody;
}.

(** ** The registry *)

Definition kind_is (kind : list byte) (names : list string) : bool := bool_decide (kind ∈ map str names).

Definition build_inbound (ib : InboundCfg) (tag : list byte) : result InboundObj :=
  let kind := ib_kind ib in
  let raw := ib_raw ib in
  body ← (if kind_is kind ["mixed"; "http"; "socks"] then MixedInbound <$> mixed_inbound_new kind raw
          else if kind_is kind ["direct"] then DirectInbound <$> parse_listen raw
          else if kind_is kind ["hysteria2"] then QuicInbound <$> hy2_inbound_new tag raw
          else if kind_is kind ["rsq"] then QuicInbound <$> rsq_inbound_new tag raw
          else if kind_is kind ["rst"] then QuicInbound <$> rst_inbound_new tag raw
          else if kind_is kind ["tun"] then Ok (TunInbound (tun_inbound_new raw))
          else if kind_is kind ["dns"] then DnsInbound <$> parse_listen raw
          else Err "unknown inbound type");
  Ok (mkInboundObj tag kind body).

(** An outbound, with the initial choice of a group. *)
Definition build_outbound (ob : OutboundCfg) (tag : list byte) : result (Outbound * option nat) :=
  let kind := oc_kind ob in
  let raw := oc_raw ob in
  let leaf := (mkOutbound tag (Leaf kind), None) in
  if kind_is kind ["direct"; "block"; "dns"] then Ok leaf
  else if kind_is kind ["hysteria2"] then _ ← hy2_outbound_new tag raw; Ok leaf
  else if kind_is kind ["rsq"] then _ ← rsq_outbound_new tag raw; Ok leaf
  else if kind_is kind ["rst"] then _ ← rst_outbound_new tag raw; Ok leaf
  else if kind_is kind ["selector"] then Ok (prod_map id Some (selector_new tag raw))
  else if kind_is kind ["urltest"] then Ok (prod_map id Some (urltest_new tag raw))
  else if kind_is kind ["fallback"] then prod_map id Some <$> fallback_new tag raw
  else Err "unknown outbound type".

(** ** The builders *)

Fixpoint build_outbounds_from (i : Z) (obs : list OutboundCfg) : result (list (Outbound * option nat)) :=
  match obs with
  | [] => Ok []
  | ob :: obs =>
      o ← build_outbound ob (outbound_tag ob i);
      r ← build_outbounds_from (i + 1) obs;
      Ok (o :: r)
  end.
(** The outbounds and the cells of the groups among them. *)
Definition build_outbounds (o : Options) : result (list Outbound * Cells) :=
  built ← build_outbounds_from 0 (o_outbounds o);
  if bool_decide (built = []) then Err "no outbounds configured"
  else Ok (map fst built,
           foldl (fun c b => match b.2 with Some i => <[Groups.ob_tag b.1 := i]> c | None => c end) ∅ built).

Fixpoint build_inbounds_from (i : Z) (ibs : list InboundCfg) : result (list InboundObj) :=
  match ibs with
  | [] => Ok []
  | ib :: ibs =>
      b ← build_inbound ib (inbound_tag ib i);
      r ← build_inbounds_from (i + 1) ibs;
      Ok (b :: r)
  end.
Definition build_inbounds (o : Options) : result (list InboundObj) := build_inbounds_from 0 (o_inbounds o).

(** [inbound_listen_map]: later inbounds of a tag win. *)
Definition inbound_listen_map (o : Options) : gmap (list byte) SocketAddr :=
  foldl (fun m '(i, ib) =>
           match parse_listen (ib_raw ib) with
           | Ok addr => <[inbound_tag ib (Z.of_nat i) := addr]> m
           | _ => m
           end) ∅ (zip (seq 0 (length (o_inbounds o))) (o_inbounds o)).

(** ** [InboundManager] *)

(** The inbounds, each with whether it is running. *)
Abbreviation InboundManager := (list (InboundObj * bool)).
Definition inbound_manager_new (l : list InboundObj) : InboundManager := map (fun b => (b, false)) l.

Section Engine.
Context `{UserCrypto} `{RuleSets.World} `{Zlib}.
Variable binds : InboundObj -> result unit.
Variable to_socket_addrs : list byte -> result (list SocketAddr).

(** The QUIC servers bind in a task of their own. *)
Definition inbound_start (b : InboundObj) : result unit :=
  match in_body b with QuicInbound _ => Ok tt | _ => binds b end.
Fixpoint start_all (m : InboundManager) : result unit * InboundManager :=
  match m with
  | [] => (Ok tt, [])
  | (b, on) :: m' =>
      match inbound_start b with
      | Ok _ => let '(r, m'') := start_all m' in (r, (b, true) :: m'')
      | Err e => (Err e, m)
      | Panic e => (Panic e, m)
      end
  end.
Definition close_all (m : InboundManager) : InboundManager := map (fun x => (x.1, false)) m.

(** ** [RsBox] *)

Record RsBox := mkRsBox {
  bx_options : Options;
  bx_inbound : InboundManager;
  bx_outbound : OutboundManager;
  bx_cells : Cells;
  bx_router : RuleRouter;
  bx_connections : ConnectionManager;
  bx_dns : nat;
  bx_world : DnsRouter.World;
}.

(** [RsBox::new]; the iteration orders of the rule-set loader are arguments, and so is what
    building the endpoints and the services comes to. *)
Definition rsbox_new (build_endpoints build_services : Options -> result unit) (disk : Disk) (geosite_order geoip_order : list (list byte)) (w : DnsRouter.World)
    (o : Options) : result RsBox * Disk * DnsRouter.World :=
  let '(dns, w) := build_context to_socket_addrs w (o_dns o) in
  match default_outbound_tag o with
  | Err e => (Err e, disk, w)
  | Panic e => (Panic e, disk, w)
  | Ok default_tag =>
      let outs := '(obs, cells) ← build_outbounds o; m ← manager_new obs default_tag; Ok (m, cells) in
      match outs with
      | Err e => (Err e, disk, w)
      | Panic e => (Panic e, disk, w)
      | Ok (outbound, cells) =>
          let w := match routers w !! dns with
                   | Some r => set_router w dns (set_outbounds r)
                   | None => w
                   end in
          let route := default (mkRouteOptions [] [] None None None None None None) (o_route o) in
          match load_rule_sets disk route default_tag geosite_order geoip_order with
          | (Err e, disk) => (Err e, disk, w)
          | (Panic e, disk) => (Panic e, disk, w)
          | (Ok router, disk) =>
              let cm := with_registry (from_options (o_inbounds o)) in
              (inbounds ← build_inbounds o;
               _ ← build_endpoints o;
               _ ← build_services o;
               Ok (mkRsBox o (inbound_manager_new inbounds) outbound cells router cm dns w), disk, w)
          end
      end
  end.

Definition set_inbound (b : RsBox) (m : InboundManager) : RsBox :=
  mkRsBox (bx_options b) m (bx_outbound b) (bx_cells b) (bx_router b) (bx_connections b) (bx_dns b) (bx_world b).
Definition rsbox_start (b : RsBox) : result unit * RsBox :=
  let '(r, m) := start_all (bx_inbound b) in (context "start inbounds" r, set_inbound b m).
Definition rsbox_close (b : RsBox) : RsBox :=
  mkRsBox (bx_options b) (close_all (bx_inbound b)) (bx_outbound b) (bx_cells b) (bx_router b)
    (bx_connections b) (bx_dns b) (unregister_resolved_service (bx_world b) (str "local")).

(** ** Reloading *)

Definition reload_users_now (b : RsBox) (o : Options) : RsBox :=
  mkRsBox (bx_options b) (bx_inbound b) (bx_outbound b) (bx_cells b) (bx_router b)
    (reload_users (bx_connections b) (o_inbounds o)) (bx_dns b) (bx_world b).
(** [ConfigReload::reload_users], with the options the program has. *)
Definition reload_current_users (b : RsBox) : RsBox := reload_users_now b (bx_options b).
(** [ConfigReload::reload]: every step keeps what the steps before it have done. *)
Definition reload (b : RsBox) (o : Options) : result unit * RsBox :=
  let b := reload_users_now b o in
  let '(_, w) := build_context to_socket_addrs (bx_world b) (o_dns o) in
  let b := mkRsBox (bx_options b) (bx_inbound b) (bx_outbound b) (bx_cells b) (bx_router b)
             (bx_connections b) (bx_dns b) w in
  match default_outbound_tag o with
  | Err e => (Err e, b)
  | Panic e => (Panic e, b)
  | Ok _ =>
      let b := set_inbound b (close_all (bx_inbound b)) in
      match build_inbounds o with
      | Err e => (Err e, b)
      | Panic e => (Panic e, b)
      | Ok inbounds =>
          let '(r, m) := start_all (inbound_manager_new inbounds) in
          let b := set_inbound b m in
          match context "start inbounds after reload" r with
          | Ok _ => (Ok tt, mkRsBox o (bx_inbound b) (bx_outbound b) (bx_cells b) (bx_router b)
                              (bx_connections b) (bx_dns b) (bx_world b))
          | Err e => (Err e, b)
          | Panic e => (Panic e, b)
          end
      end
  end.
End Engine.

(** ** Building *)

(** The tag of each configured outbound or inbound. *)
Definition outbound_tags (o : Options) : list (list byte) :=
  imap (fun i ob => outbound_tag ob (Z.of_nat i)) (o_outbounds o).
Definition inbound_tags (o : Options) : list (list byte) :=
  imap (fun i ib => inbound_tag ib (Z.of_nat i)) (o_inbounds o).

Lemma build_outbound_known ob tag b : build_outbound ob tag = Ok b ->
  is_known_outbound (oc_kind ob) = true /\ Groups.ob_tag b.1 = tag /\ kind b.1 = oc_kind ob.
Proof.
  unfold build_outbound, kind_is.
  assert (Hk : forall names : list string, incl (map str names) ALL_OUTBOUND_TYPES ->
    bool_decide (oc_kind ob ∈ map str names) = true -> is_known_outbound (oc_kind ob) = true).
  { intros names Hi Hin%bool_decide_eq_true. apply bool_decide_eq_true, list_elem_of_In, Hi. by apply list_elem_of_In. }
  assert (Hone : forall s : string, bool_decide (oc_kind ob ∈ map str [s]) = true -> oc_kind ob = str s)
    by (intros s Hin%bool_decide_eq_true; by apply list_elem_of_singleton in Hin).
  repeat match goal with
  | |- context [if bool_decide (_ ∈ map str ?names) then _ else _] =>
      let E := fresh "E" in
      destruct (bool_decide (oc_kind ob ∈ map str names)) eqn:E;
      [let Hin := fresh in assert (Hin : incl (map str names) ALL_OUTBOUND_TYPES) by (intros x Hx; cbn in Hx |- *; tauto);
       specialize (Hk names Hin E)|]
  end; try done.
  - by intros [= <-].
  - destruct (hy2_outbound_new tag (oc_raw ob)); [|done..]. by intros [= <-].
  - destruct (rsq_outbound_new tag (oc_raw ob)); [|done..]. by intros [= <-].
  - destruct (rst_outbound_new tag (oc_raw ob)); [|done..]. by intros [= <-].
  - intros [= <-]. split_and!; [done..|]. by rewrite (Hone _ E3).
  - intros [= <-]. split_and!; [done..|]. by rewrite (Hone _ E4).
  - unfold fallback_new. destruct (bool_decide (member_tags (oc_raw ob) = [])); [done|]. intros [= <-].
    split_and!; [done..|]. by rewrite (Hone _ E5).
Qed.

Lemma build_outbounds_from_known : forall obs i built, build_outbounds_from i obs = Ok built ->
  Forall (fun ob => is_known_outbound (oc_kind ob) = true) obs
  /\ map (fun b => Groups.ob_tag b.1) built = imap (fun j ob => outbound_tag ob (i + Z.of_nat j)) obs.
Proof.
  induction obs as [|ob obs IH]; intros i built; cbn [build_outbounds_from].
  { intros [= <-]. by split. }
  destruct (build_outbound ob (outbound_tag ob i)) as [b|?|?] eqn:Eb; cbn [mbind result_bind]; [|done..].
  destruct (build_outbounds_from (i + 1) obs) as [r|?|?] eqn:Er; cbn [mbind result_bind]; [|done..].
  intros [= <-]. apply build_outbound_known in Eb as (Hk & Ht & _). destruct (IH _ _ Er) as [Hf Hm].
  split; [by constructor|]. cbn [map imap]. rewrite Ht, Hm. f_equal; [by rewrite Z.add_0_r|].
  apply imap_ext. intros j x _. cbn. f_equal. lia.
Qed.

Lemma build_inbounds_from_known : forall ibs i built, build_inbounds_from i ibs = Ok built ->
  map in_tag built = imap (fun j ib => inbound_tag ib (i + Z.of_nat j)) ibs
  /\ map in_kind built = map ib_kind ibs.
Proof.
  induction ibs as [|ib ibs IH]; intros i built; cbn [build_inbounds_from].
  { intros [= <-]. by split. }
  unfold build_inbound. destruct (if kind_is (ib_kind ib) ["mixed"; "http"; "socks"]%string then _ else _) as [body|?|?];
    cbn [mbind result_bind]; [|done..].
  destruct (build_inbounds_from (i + 1) ibs) as [r|?|?] eqn:Er; cbn [mbind result_bind]; [|done..].
  intros [= <-]. destruct (IH _ _ Er) as [Hm Hk]. cbn [map imap in_tag in_kind]. rewrite Hm, Hk. split; [|done].
  f_equal; [by rewrite Z.add_0_r|]. apply imap_ext. intros j x _. cbn. f_equal. lia.
Qed.

Section Facts.
Context `{UserCrypto} `{RuleSets.World} `{Zlib}.
Variable binds : InboundObj -> result unit.
Variable to_socket_addrs : list byte -> result (list SocketAddr).

(** C32.  What a program that was built consists of.  Every outbound is of a supported
    type, under its own tag or its number, and every inbound is there under its own,
    not yet running; the default outbound exists, and nothing is counted yet.  One
    outbound of another type, from a subscription for one, and nothing is built. *)
Theorem rsbox_new_sound build_endpoints build_services disk gs gi w o :
  match (rsbox_new to_socket_addrs build_endpoints build_services disk gs gi w o).1.1 with
  | Ok b =>
      Forall (fun ob => is_known_outbound (oc_kind ob) = true) (o_outbounds o)
      /\ map Groups.ob_tag (outbounds (bx_outbound b)) = outbound_tags o
      /\ (exists t d, default_outbound_tag o = Ok t /\ manager_get (bx_outbound b) t = Ok d /\ Groups.ob_tag d = t)
      /\ map (fun x => in_tag x.1) (bx_inbound b) = inbound_tags o
      /\ Forall (fun x => x.2 = false) (bx_inbound b)
      /\ bx_connections b = with_registry (from_options (o_inbounds o)) /\ bx_options b = o
  | _ => True
  end.
Proof.
  unfold rsbox_new. destruct (build_context _ _ _) as [dns w'].
  destruct (default_outbound_tag o) as [t|?|?]; [|done..].
  unfold build_outbounds. destruct (build_outbounds_from 0 (o_outbounds o)) as [built|?|?] eqn:Eo;
    cbn [mbind result_bind]; [|done..].
  case_bool_decide; [done|]. cbn [mbind result_bind].
  destruct (manager_new (map fst built) t) as [m|?|?] eqn:Em; cbn [mbind result_bind]; [|done..].
  destruct (load_rule_sets _ _ _ _ _) as [[router|?|?] disk']; [|done..]. cbn [fst].
  unfold build_inbounds. destruct (build_inbounds_from 0 (o_inbounds o)) as [ins|?|?] eqn:Ei;
    cbn [mbind result_bind]; [|done..].
  destruct (build_endpoints o); cbn [mbind result_bind]; [|done..].
  destruct (build_services o); cbn [mbind result_bind]; [|done..].
  cbn [bx_outbound bx_inbound bx_connections bx_options].
  apply build_outbounds_from_known in Eo as [Hk Ht]. apply build_inbounds_from_known in Ei as [Hi _].
  assert (Hm : outbounds m = map fst built).
  { unfold manager_new in Em. destruct (_ !! t); [|done]. by injection Em as <-. }
  split_and!; try done.
  - rewrite Hm, map_map. exact Ht.
  - exists t. pose proof (manager_get_spec _ _ _ t Em) as Hg. unfold manager_new in Em.
    destruct (index_loop_lookup t (map fst built)) as [Hf Hlt].
    destruct (index_loop 0 (map fst built) ∅ !! t) as [i|] eqn:Eix; [|done]. cbn in Hf.
    destruct (lookup_lt_is_Some_2 (map fst built) i (Hlt i eq_refl)) as [d Hd]. rewrite Hd in Hf.
    rewrite <-Hf in Hg. exists d. split_and!; [done|done|]. symmetry in Hf. unfold find_last in Hf.
    apply find_some in Hf as [_ Hf]. by apply bool_decide_eq_true in Hf.
  - unfold inbound_manager_new. rewrite map_map. exact Hi.
  - unfold inbound_manager_new. apply Forall_forall. intros x Hx. apply list_elem_of_fmap in Hx as (b & -> & _). done.
Qed.

(** An unsupported outbound stops the program from being built. *)
Lemma unknown_outbound_fails build_endpoints build_services disk gs gi w o ob : ob ∈ o_outbounds o -> is_known_outbound (oc_kind ob) = false ->
  is_ok (rsbox_new to_socket_addrs build_endpoints build_services disk gs gi w o).1.1 = false.
Proof.
  intros Hin Hk. unfold rsbox_new, build_outbounds. destruct (build_context _ _ _) as [dns w'].
  destruct (default_outbound_tag o) as [t|?|?]; [|done..].
  destruct (build_outbounds_from 0 (o_outbounds o)) as [built|?|?] eqn:Eo; cbn [mbind result_bind]; [|done..].
  apply build_outbounds_from_known in Eo as [Hf _]. rewrite Forall_forall in Hf. specialize (Hf ob Hin). congruence.
Qed.

(** ** Starting and reloading *)

(** The inbounds before the first that cannot bind run; that one and those behind it
    do not. *)
Definition started (m : InboundManager) (r : result unit) : Prop :=
  exists up down, m = map (fun b => (b, true)) up ++ map (fun b => (b, false)) down
    /\ Forall (fun b => inbound_start binds b = Ok tt) up
    /\ match down with
       | [] => r = Ok tt
       | b :: _ => is_ok (inbound_start binds b) = false /\ is_ok r = false
       end.
Lemma start_all_spec l : forall r m, start_all binds (inbound_manager_new l) = (r, m) ->
  map fst m = l /\ started m r.
Proof.
  induction l as [|b l IH]; intros r m; cbn [inbound_manager_new map start_all].
  { intros [= <- <-]. split; [done|]. by exists [], []. }
  destruct (inbound_start binds b) as [[]|e|e] eqn:Es.
  - destruct (start_all binds (map (fun b => (b, false)) l)) as [r' m'] eqn:Er. intros [= <- <-].
    destruct (IH _ _ Er) as (Hm & up & down & -> & Hup & Hdown). split; [cbn; by rewrite Hm|].
    exists (b :: up), down. split_and!; [done|by constructor|done].
  - intros [= <- <-]. split; [cbn; f_equal; rewrite map_map; by rewrite map_id|].
    exists [], (b :: l). cbn. rewrite Es. done.
  - intros [= <- <-]. split; [cbn; f_equal; rewrite map_map; by rewrite map_id|].
    exists [], (b :: l). cbn. rewrite Es. done.
Qed.

(** C33.  What a reload changes, and when.  Outbounds, routing rules and the name
    server the inbounds use are never changed.  The users are replaced before the
    new configuration is looked at, also when it is then refused, and a new name
    server, without outbounds, is registered as [local].  On success the new inbounds
    run and the new options are the options; when the new inbounds cannot be built
    nothing runs any more; when one cannot start, those before it run; a
    configuration without outbounds is refused with the inbounds as they were. *)
Theorem reload_outcomes b o :
  let '(r, b') := reload binds to_socket_addrs b o in
  (bx_outbound b' = bx_outbound b /\ bx_cells b' = bx_cells b /\ bx_router b' = bx_router b /\ bx_dns b' = bx_dns b)
  /\ bx_connections b' = reload_users (bx_connections b) (o_inbounds o)
  /\ (exists id rt, registry (bx_world b') !! str "local" = Some id /\ routers (bx_world b) !! id = None
        /\ routers (bx_world b') !! id = Some rt /\ outbounds_set rt = false)
  /\ match r with
     | Ok _ => bx_options b' = o /\ map (fun x => in_tag x.1) (bx_inbound b') = inbound_tags o
               /\ Forall (fun x => x.2 = true) (bx_inbound b')
     | _ => bx_options b' = bx_options b
            /\ ((is_ok (default_outbound_tag o) = false /\ bx_inbound b' = bx_inbound b)
                \/ (is_ok (build_inbounds o) = false /\ Forall (fun x => x.2 = false) (bx_inbound b'))
                \/ exists ins r', build_inbounds o = Ok ins /\ map fst (bx_inbound b') = ins
                     /\ started (bx_inbound b') r' /\ is_ok r' = false)
     end.
Proof.
  destruct (reload binds to_socket_addrs b o) as [r b'] eqn:Hr. revert Hr.
  unfold reload, build_context. cbn [bx_world reload_users_now]. set (id := base.fresh _). set (rt := router_new _ _).
  set (w := register_resolved_service _ _ _).
  assert (Hw : exists id rt, registry w !! str "local" = Some id /\ routers (bx_world b) !! id = None
    /\ routers w !! id = Some rt /\ outbounds_set rt = false).
  { exists id, rt. cbn. split_and!; [by rewrite lookup_insert_eq| |by rewrite lookup_insert_eq|done].
    apply not_elem_of_dom, is_fresh. }
  destruct (default_outbound_tag o) as [t|e|e].
  2,3: intros [= <- <-]; cbn; split_and!; [done..|]; by left.
  destruct (build_inbounds o) as [ins|e|e] eqn:Ei.
  2,3: intros [= <- <-]; cbn; split_and!; [done..|]; right; left; split; [done|];
       apply Forall_forall; intros x Hx; by apply list_elem_of_fmap in Hx as (y & -> & _).
  destruct (start_all binds (inbound_manager_new ins)) as [r' m] eqn:Es.
  apply start_all_spec in Es as [Hm Hs].
  destruct r' as [[]|e|e]; cbn [context].
  2,3: intros [= <- <-]; cbn; split_and!; [done..|]; right; right; by eauto 10.
  intros [= <- <-]. cbn. split_and!; [done..| |].
  - apply build_inbounds_from_known in Ei as [Hi _]. rewrite <-(map_map fst in_tag), Hm. exact Hi.
  - destruct Hs as (up & down & -> & _ & Hd). destruct down as [|d down]; [|by destruct Hd].
    rewrite app_nil_r. apply Forall_forall. intros x Hx. by apply list_elem_of_fmap in Hx as (y & -> & _).
Qed.

(** A refused reload takes the limits away.  An empty configuration is refused,
    but after it no password and no UUID belongs to a user any more: the servers go
    on letting clients in by their passwords, now without limits. *)
Theorem refused_reload_drops_users b dns providers :
  let o := mkOptions dns [] [] None providers in
  let '(r, b') := reload binds to_socket_addrs b o in
  is_ok r = false /\ bx_inbound b' = bx_inbound b /\ bx_options b' = bx_options b
  /\ forall p, lookup_password (users (bx_connections b')) p = None
     /\ lookup_uuid (users (bx_connections b')) p = None.
Proof.
  intros o. unfold reload, o, build_context. cbn. split_and!; done.
Qed.
End Facts.
