(* ===== verification/Vmess.v ===== *)
(** * VMess

    [rsb-protocol/src/vmess_aead.rs] (key derivation, the sealed request and response
    headers, both ends of the handshake, the response stream of the client) and
    [vmess.rs] (the configurations, the headers for UDP, the server).

    SHA-256, MD5, CRC-32, AES-128 and AES-128-GCM come from external crates: the class
    [VmessCrypto], whose laws are the sizes of their outputs, that a block or a
    message is opened with the key it was sealed with, and that what AES-GCM opens is
    what it seals.  FNV-1a and the nested HMAC are the file's own.  The clock and
    the random draws are arguments; TLS below the stream is not modelled. *)
From stdpp Require Import base tactics gmap list strings.
From Stdlib Require Import ZArith Lia.
From Stdlib Require Import Strings.Byte.
From S2P Require Import Prelude Json Text Ip DnsWire Users Connections Relay Codec Sniff Vless Config.

Local Open Scope Z_scope.

Class VmessCrypto := {
  sha256 : list byte -> list byte;
  md5 : list byte -> list byte;
  crc32 : list byte -> Z;
  aes_encrypt : list byte -> list byte -> list byte;
  aes_decrypt : list byte -> list byte -> list byte;
  gcm_seal : list byte -> list byte -> list byte -> list byte -> list byte;
  gcm_open : list byte -> list byte -> list byte -> list byte -> option (list byte);
  sha256_length : forall m, length (sha256 m) = 32%nat;
  md5_length : forall m, length (md5 m) = 16%nat;
  crc32_range : forall m, in_u32 (crc32 m);
  aes_encrypt_length : forall k b, length b = 16%nat -> length (aes_encrypt k b) = 16%nat;
  aes_decrypt_encrypt : forall k b, length b = 16%nat -> aes_decrypt k (aes_encrypt k b) = b;
  gcm_seal_length : forall k n m aad, length (gcm_seal k n m aad) = (length m + 16)%nat;
  gcm_open_seal : forall k n m aad, gcm_open k n (gcm_seal k n m aad) aad = Some m;
  gcm_seal_open : forall k n c aad m, gcm_open k n c aad = Some m -> c = gcm_seal k n m aad;
}.

(** ** Key derivation *)

Section Kdf.
Context `{VmessCrypto}.

(** [HashFactory] and its two implementations. *)
Inductive HashFactory :=
| Sha256Factory
| HmacFactory (key : list byte) (parent : HashFactory).

(** [HashState]: what has been fed to a SHA-256 hasher, or a [GoHmac]. *)
Inductive HashState :=
| Sha256State (data : list byte)
| HmacState (factory : HashFactory) (key ipad opad : list byte) (inner outer : HashState).

(** [pad] with the key's bytes xored into its front. *)
Fixpoint xor_front (pad key : list byte) : list byte :=
  match pad, key with
  | p :: pad, k :: key => bxor p k :: xor_front pad key
  | pad, _ => pad
  end.
Definition key_block (key : list byte) : list byte := if 64 <? zlen key then sha256 key else key.
Definition ipad_opad (key : list byte) : list byte * list byte :=
  (xor_front (replicate 64 x36) (key_block key), xor_front (replicate 64 x5c) (key_block key)).

Fixpoint hash_update (data : list byte) (h : HashState) : HashState :=
  match h with
  | Sha256State d => Sha256State (d ++ data)
  | HmacState f k ip op inner outer => HmacState f k ip op (hash_update data inner) outer
  end.

(** [HashFactory::new_hasher].  [GoHmac::new] resets the two hashers it makes, which
    leaves a new hasher as it is ([reset_new_hasher]). *)
Fixpoint new_hasher (f : HashFactory) : HashState :=
  match f with
  | Sha256Factory => Sha256State []
  | HmacFactory key parent =>
      let '(ipad, opad) := ipad_opad key in
      HmacState parent key ipad opad (hash_update ipad (new_hasher parent)) (new_hasher parent)
  end.
Definition hash_reset (h : HashState) : HashState :=
  match h with
  | Sha256State _ => Sha256State []
  | HmacState f k _ _ _ _ => new_hasher (HmacFactory k f)
  end.

(** [HashState::finalize] of the hasher of a factory; its state is not used again. *)
Fixpoint hash_finalize (f : HashFactory) (h : HashState) : list byte :=
  match f, h with
  | Sha256Factory, Sha256State d => sha256 d
  | HmacFactory _ parent, HmacState _ _ _ opad inner outer =>
      let inner_digest := hash_finalize parent inner in
      hash_finalize parent (hash_update inner_digest (hash_update opad (hash_reset outer)))
  | _, _ => []
  end.

Definition build_kdf_chain (path : list (list byte)) : HashFactory :=
  foldl (fun current p => HmacFactory p current) (HmacFactory (str "VMess AEAD KDF") Sha256Factory) path.
Definition vmess_aead_kdf (key : list byte) (path : list (list byte)) : list byte :=
  let factory := build_kdf_chain path in
  hash_finalize factory (hash_update key (hash_reset (new_hasher factory))).

Definition kdf16 (key : list byte) (path : list (list byte)) : list byte := take 16 (vmess_aead_kdf key path).
Definition kdf12 (key : list byte) (path : list (list byte)) : list byte := take 12 (vmess_aead_kdf key path).

Definition vmess_cmd_key (uuid : list byte) : list byte :=
  md5 (uuid ++ str "c48619fe-8f02-49e0-b9e9-edf763e17e21").
End Kdf.

Definition KDF_AUTH_ID : list byte := str "AES Auth ID Encryption".
Definition KDF_HDR_LEN_KEY : list byte := str "VMess Header AEAD Key_Length".
Definition KDF_HDR_LEN_IV : list byte := str "VMess Header AEAD Nonce_Length".
Definition KDF_HDR_KEY : list byte := str "VMess Header AEAD Key".
Definition KDF_HDR_IV : list byte := str "VMess Header AEAD Nonce".
Definition KDF_RESP_LEN_KEY : list byte := str "AEAD Resp Header Len Key".
Definition KDF_RESP_LEN_IV : list byte := str "AEAD Resp Header Len IV".
Definition KDF_RESP_KEY : list byte := str "AEAD Resp Header Key".
Definition KDF_RESP_IV : list byte := str "AEAD Resp Header IV".
Definition SECURITY_NONE : Z := 5.
Definition CMD_TCP : byte := x01.

(** ** Headers *)

Definition fnv1a32 (data : list byte) : Z :=
  foldl (fun hash b => u32 (Z.lxor hash (bz b) * 16777619)) 2166136261 data.

Definition encode_header (request_key request_nonce : list byte) (response_header : byte) (dest : SocketAddr)
    (command : byte) (draw : byte) : list byte :=
  let padding_len := bz draw `mod` 16 in
  let header := [x01] ++ request_nonce ++ request_key ++ [response_header] ++ [x00]
    ++ [u8 (Z.lor (padding_len * 16) SECURITY_NONE)] ++ [x00] ++ [command]
    ++ encode_port_first_socksaddr dest ++ replicate (Z.to_nat padding_len) x00 in
  header ++ be_encode 4 (fnv1a32 header).

Record RequestHeader := mkRequestHeader {
  rh_host : list byte;
  rh_port : Z;
  rh_key : list byte;
  rh_nonce : list byte;
  rh_response_header : byte;
  rh_option : byte;
}.
Definition parse_request_header (header : list byte) : result RequestHeader :=
  if zlen header <? 38 then Err "truncated vmess request header"
  else
    version ← index header 0;
    if negb (bz version =? 1) then Err "unsupported vmess version"
    else
      request_nonce ← slice_at header 1 16;
      request_key ← slice_at header 17 16;
      response_header ← index header 33;
      option ← index header 34;
      p ← index header 35;
      let padding_len := Z.shiftr (bz p) 4 in
      command ← index header 37;
      if negb (bool_decide (command = CMD_TCP)) then Err "unsupported vmess command"
      else
        let body_end := zlen header - 4 in
        body ← slice_to header body_end;
        let checksum := fnv1a32 body in
        expected ← slice_at header body_end 4;
        if negb (checksum =? be_decode expected) then Err "vmess header checksum mismatch"
        else if zlen header <? 4 + padding_len then Err "vmess padding"
        else
          let addr_end := zlen header - (4 + padding_len) in
          if addr_end <=? 38 then Err "truncated vmess address"
          else
            port ← u16_at header 38;
            atyp ← index header 40;
            addr ← (if addr_end <? 41 then Panic "slice index starts after its end"
                    else slice_at header 41 (addr_end - 41));
            '(host, _) ← read_address addr atyp;
            Ok (mkRequestHeader host port request_key request_nonce response_header option).

Section Handshake.
Context `{VmessCrypto}.

(** [auth_id], with the four bytes drawn. *)
Definition auth_id (key : list byte) (ts : Z) (draw : list byte) : list byte :=
  let front := be_encode 8 ts ++ draw in
  aes_encrypt (kdf16 key [KDF_AUTH_ID]) (front ++ be_encode 4 (crc32 front)).
Definition decode_auth_id (cmd_key auth : list byte) : option Z :=
  let decoded := aes_decrypt (kdf16 cmd_key [KDF_AUTH_ID]) auth in
  if negb (crc32 (take 12 decoded) =? be_decode (drop 12 decoded)) then None
  else Some (be_decode (take 8 decoded)).
Definition auth_timestamp_valid (now ts : Z) : bool := abs_diff ts now <=? 120.

Definition open_aead (key nonce ciphertext aad : list byte) : result (list byte) :=
  ok_or "gcm open: aead::Error" (gcm_open key nonce ciphertext aad).

(** The random draws of a client. *)
Record Draws := mkDraws {
  d_auth : list byte;
  d_key : list byte;
  d_nonce : list byte;
  d_response_header : byte;
  d_padding : byte;
  d_connection_nonce : list byte;
}.
(** What a header and its length are sealed with. *)
Definition seal_header_len (cmd_key auth connection_nonce header_len : list byte) : list byte :=
  gcm_seal (kdf16 cmd_key [KDF_HDR_LEN_KEY; auth; connection_nonce])
    (kdf12 cmd_key [KDF_HDR_LEN_IV; auth; connection_nonce]) header_len auth.
Definition seal_header (cmd_key auth connection_nonce header : list byte) : list byte :=
  gcm_seal (kdf16 cmd_key [KDF_HDR_KEY; auth; connection_nonce])
    (kdf12 cmd_key [KDF_HDR_IV; auth; connection_nonce]) header auth.
(** [write_handshake]: the packet; the keys are [d_key] and [d_nonce]. *)
Definition write_handshake (uuid : list byte) (ts : Z) (dest : SocketAddr) (command : byte) (d : Draws) : list byte :=
  let cmd_key := vmess_cmd_key uuid in
  let auth := auth_id cmd_key ts (d_auth d) in
  let header := encode_header (d_key d) (d_nonce d) (d_response_header d) dest command (d_padding d) in
  auth ++ seal_header_len cmd_key auth (d_connection_nonce d) (be_encode 2 (zlen header))
  ++ d_connection_nonce d ++ seal_header cmd_key auth (d_connection_nonce d) header.

(** The first user whose key decodes the id to a time close to now. *)
Fixpoint match_user (now : Z) (auth : list byte) (users : list (list byte)) : option (list byte) :=
  match users with
  | [] => None
  | uid :: users =>
      match decode_auth_id (vmess_cmd_key uid) auth with
      | Some ts => if auth_timestamp_valid now ts then Some uid else match_user now auth users
      | None => match_user now auth users
      end
  end.

(** [accept_handshake] up to name lookup; the rest of the stream is the last
    component. *)
Definition accept_request (now : Z) (users : list (list byte)) (s : list byte)
  : result (list byte * RequestHeader * list byte) :=
  '(auth, s) ← read_exact 16 s;
  user ← ok_or "vmess auth failed" (match_user now auth users);
  let cmd_key := vmess_cmd_key user in
  '(len_cipher, s) ← read_exact 18 s;
  '(connection_nonce, s) ← read_exact 8 s;
  len_plain ← open_aead (kdf16 cmd_key [KDF_HDR_LEN_KEY; auth; connection_nonce])
    (kdf12 cmd_key [KDF_HDR_LEN_IV; auth; connection_nonce]) len_cipher auth;
  if zlen len_plain <? 2 then Err "truncated vmess header length"
  else
    header_len ← u16_at len_plain 0;
    '(hdr_cipher, s) ← read_exact (header_len + 16) s;
    header ← open_aead (kdf16 cmd_key [KDF_HDR_KEY; auth; connection_nonce])
      (kdf12 cmd_key [KDF_HDR_IV; auth; connection_nonce]) hdr_cipher auth;
    rh ← parse_request_header header;
    Ok (user, rh, s).

Record VmessAcceptResult := mkAccept {
  va_user : list byte;
  va_dest : SocketAddr;
  va_request_key : list byte;
  va_request_nonce : list byte;
  va_response_header : byte;
  va_option : byte;
}.
Definition accept_handshake (lookup_host : list byte -> Z -> result (list SocketAddr)) (now : Z)
    (users : list (list byte)) (s : list byte) : result (VmessAcceptResult * list byte) :=
  '(user, rh, s) ← accept_request now users s;
  dest ← first_address lookup_host (rh_host rh) (rh_port rh);
  Ok (mkAccept user dest (rh_key rh) (rh_nonce rh) (rh_response_header rh) (rh_option rh), s).

(** ** The response *)

Definition resp_len_key (request_key : list byte) := kdf16 (take 16 (sha256 request_key)) [KDF_RESP_LEN_KEY].
Definition resp_len_nonce (request_nonce : list byte) := kdf12 (take 16 (sha256 request_nonce)) [KDF_RESP_LEN_IV].
Definition resp_key (request_key : list byte) := kdf16 (take 16 (sha256 request_key)) [KDF_RESP_KEY].
Definition resp_nonce (request_nonce : list byte) := kdf12 (take 16 (sha256 request_nonce)) [KDF_RESP_IV].

Definition write_server_response (request_key request_nonce : list byte) (response_header option : byte) : list byte :=
  gcm_seal (resp_len_key request_key) (resp_len_nonce request_nonce) (be_encode 2 4) []
  ++ gcm_seal (resp_key request_key) (resp_nonce request_nonce) [response_header; option; x00; x00] [].

Definition read_response (request_key request_nonce : list byte) (s : list byte) : result (list byte) :=
  '(len_buf, s) ← read_exact 18 s;
  len_plain ← open_aead (resp_len_key request_key) (resp_len_nonce request_nonce) len_buf [];
  if zlen len_plain <? 2 then Err "truncated vmess response length"
  else
    header_len ← u16_at len_plain 0;
    '(hdr_buf, s) ← read_exact (header_len + 16) s;
    _ ← open_aead (resp_key request_key) (resp_nonce request_nonce) hdr_buf [];
    Ok s.
End Handshake.

(** ** The client's response stream *)

Section Stream.
Context `{VmessCrypto}.
Variables request_key request_nonce : list byte.

(** The bytes collected so far; those of the header are [need] in the end. *)
Inductive VmessResponseState :=
| RespLen (buf : list byte)
| RespHeader (need : Z) (buf : list byte)
| RespDone.

Definition io_error {A} (o : option A) : result A := ok_or "gcm open: aead::Error" o.

(** [advance_response]: [None] when the response has been read.  The state is set to
    [Done] while the loop body runs, and stays so when it returns an error. *)
Definition advance_header (need : Z) (buf : list byte) (inner : list arrival)
  : option polled * VmessResponseState * list arrival :=
  match inner_poll (Z.to_nat (need - zlen buf)) inner with
  | (PReady bs, inner) =>
      let buf := buf ++ bs in
      if zlen buf <? need then (Some (PPending false), RespHeader need buf, inner)
      else match gcm_open (resp_key request_key) (resp_nonce request_nonce) buf [] with
           | Some _ => (None, RespDone, inner)
           | None => (Some PError, RespDone, inner)
           end
  | (PError, inner) => (Some PError, RespDone, inner)
  | (PPending w, inner) => (Some (PPending w), RespHeader need buf, inner)
  end.
Definition advance_len (buf : list byte) (inner : list arrival)
  : option polled * VmessResponseState * list arrival :=
  match inner_poll (18 - length buf) inner with
  | (PReady bs, inner) =>
      let buf := buf ++ bs in
      if zlen buf <? 18 then (Some (PPending false), RespLen buf, inner)
      else match gcm_open (resp_len_key request_key) (resp_len_nonce request_nonce) buf [] with
           | Some (hi :: lo :: _) => advance_header (bz hi * 256 + bz lo + 16) [] inner
           | _ => (Some PError, RespDone, inner)
           end
  | (PError, inner) => (Some PError, RespDone, inner)
  | (PPending w, inner) => (Some (PPending w), RespLen buf, inner)
  end.
Definition advance_response (st : VmessResponseState) (inner : list arrival)
  : option polled * VmessResponseState * list arrival :=
  match st with
  | RespDone => (None, RespDone, inner)
  | RespLen buf => advance_len buf inner
  | RespHeader need buf => advance_header need buf inner
  end.

Definition vmess_poll_read (cap : nat) (st : VmessResponseState) (inner : list arrival)
  : polled * VmessResponseState * list arrival :=
  match advance_response st inner with
  | (Some r, st, inner) => (r, st, inner)
  | (None, st, inner) => let '(r, inner) := inner_poll cap inner in (r, st, inner)
  end.
(** [wrap_stream] *)
Definition wrap_stream : VmessResponseState := RespLen [].
End Stream.

(** ** The server *)

Section Server.
Context `{UserCrypto} `{VmessCrypto}.
Variable lookup_host : list byte -> Z -> result (list SocketAddr).
Variable connect : SocketAddr -> result unit.
(** Seconds since the epoch, and of the connection manager's clock. *)
Variables unix_now now : Z.

(** [serve_vmess], behind the TLS handshake. *)
Definition serve_vmess (users : list (list byte)) (inbound_tag : list byte) (s : list byte)
    (cm : ConnectionManager) : Served :=
  match accept_handshake lookup_host unix_now users s with
  | Ok (accepted, _) =>
      let evs := [ToClient (write_server_response (va_request_key accepted) (va_request_nonce accepted)
                              (va_response_header accepted) (va_option accepted))] in
      match connect (va_dest accepted) with
      | Ok _ => start_relay (evs ++ [Connect (va_dest accepted)])
                  (begin_for_uuid cm now inbound_tag (Some (va_dest accepted)) None (va_user accepted))
      | r => fail evs r cm
      end
  | r => fail [] r cm
  end.

(** ** Configuration *)

Record VmessInboundCfg := mkVmessInbound {
  vi_listen : SocketAddr;
  vi_users : list (list byte);
  vi_tls_cert : list byte;
  vi_tls_key : list byte;
}.
Definition vmess_inbound_new (raw : Value) : result VmessInboundCfg :=
  listen ← parse_listen raw;
  users ← match (v ← get raw "users"; as_array v) with Some l => uuid_users l | None => Ok [] end;
  users ← match users, text raw "uuid" with
          | [], Some id => uid ← ok_or "invalid uuid" (uuid_parse id); Ok [uid]
          | us, _ => Ok us
          end;
  if bool_decide (users = []) then Err "vmess inbound: uuid/users required"
  else
    tls ← ok_or "vmess inbound: tls required" (get raw "tls");
    cert ← ok_or "vmess inbound: certificate" (v ← or_else (get tls "certificate_path") (get tls "certificate"); as_str v);
    key ← ok_or "vmess inbound: key" (v ← or_else (get tls "key_path") (get tls "key"); as_str v);
    Ok (mkVmessInbound listen users cert key).

Record VmessOutboundCfg := mkVmessOutbound {
  vo_server : list byte;
  vo_port : Z;
  vo_uuid : list byte;
  vo_security : list byte;
  vo_packet_encoding : list byte;
  vo_global_padding : bool;
  vo_authenticated_length : bool;
  vo_tls : option Value;
  vo_sni : option (list byte);
}.
Definition vmess_outbound_new (raw : Value) : result VmessOutboundCfg :=
  uuid_str ← ok_or "vmess: uuid required" (text raw "uuid");
  server ← ok_or "vmess: server required" (text raw "server");
  port ← ok_or "vmess: server_port required" (number raw "server_port");
  uuid ← ok_or "vmess: invalid uuid" (uuid_parse uuid_str);
  Ok (mkVmessOutbound server (u16 port) uuid (default (str "auto") (text raw "security"))
        (default [] (text raw "packet_encoding")) (default false (flag raw "global_padding"))
        (default false (flag raw "authenticated_length")) (get raw "tls")
        (tls ← get raw "tls"; text tls "server_name")).

(** ** The headers for UDP *)

Definition vmess_options (global_padding authenticated_length : bool) : byte :=
  u8 (Z.lor (if global_padding then 8 else 0) (if authenticated_length then 16 else 0)).
Definition security_type (security : list byte) : byte :=
  if bool_decide (security = str "aes-128-gcm") then x03
  else if bool_decide (security = str "chacha20-poly1305") then x04
  else if bool_decide (security = str "none") then x05
  else if bool_decide (security = str "zero") then x00
  else x01.
(** [transport::address_from_socket] *)
Definition address_from_socket (addr : SocketAddr) : list byte := encode_socks_address addr.
(** The draws: the nonce, the padding, the initialisation vector. *)
Definition encrypt_vmess_body (uuid req iv : list byte) : list byte :=
  uuid ++ iv ++ gcm_seal uuid iv req [].
Definition vmess_udp_front (ts : Z) (nonce : list byte) (options pad security command : byte) : list byte :=
  [x01] ++ be_encode 4 ts ++ nonce ++ [x00; options; x00; pad; security; x00; command].
Definition build_vmess_header (uuid : list byte) (ts : Z) (dest : SocketAddr) (command : byte)
    (global_padding authenticated_length : bool) (security nonce : list byte) (draw : byte) (iv : list byte)
  : list byte :=
  let padding_len := bz draw `mod` 16 in
  let req := vmess_udp_front ts nonce (vmess_options global_padding authenticated_length) (u8 padding_len)
               (security_type security) command
             ++ be_encode 2 (sa_port dest) ++ address_from_socket dest
             ++ replicate (Z.to_nat padding_len) x00 in
  encrypt_vmess_body uuid req iv.
Definition build_vmess_mux_xudp_header (uuid : list byte) (ts : Z) (global_padding authenticated_length : bool)
    (nonce : list byte) (draw : byte) (iv : list byte) : list byte :=
  let padding_len := bz draw `mod` 16 in
  let req := vmess_udp_front ts nonce (vmess_options global_padding authenticated_length) (u8 padding_len) x01 x03
             ++ be_encode 2 MUX_XUDP_PORT ++ [x02] ++ [u8 (zlen MUX_ADDR)] ++ MUX_ADDR
             ++ replicate (Z.to_nat padding_len) x00 in
  encrypt_vmess_body uuid req iv.
End Server.

(** ** The derived keys are nested HMACs *)

Section KdfFacts.
Context `{VmessCrypto}.

(** The reference: [HMAC] over a hash function. *)
Definition hmac (h : list byte -> list byte) (key msg : list byte) : list byte :=
  h ((ipad_opad key).2 ++ h ((ipad_opad key).1 ++ msg)).
Fixpoint hash_of (f : HashFactory) : list byte -> list byte :=
  match f with
  | Sha256Factory => sha256
  | HmacFactory key parent => hmac (hash_of parent) key
  end.

Lemma reset_new_hasher f : hash_reset (new_hasher f) = new_hasher f.
Proof. by destruct f. Qed.
Lemma hash_update_nil h : hash_update [] h = h.
Proof. induction h as [d|f k ip op inner IH outer _]; cbn; [by rewrite app_nil_r|by rewrite IH]. Qed.
Lemma hash_update_app a b h : hash_update b (hash_update a h) = hash_update (a ++ b) h.
Proof. induction h as [d|f k ip op inner IH outer _]; cbn; [by rewrite app_assoc|by rewrite IH]. Qed.

(** A hasher computes the function of its factory on all it was fed. *)
Lemma hash_finalize_spec f : forall msg, hash_finalize f (hash_update msg (new_hasher f)) = hash_of f msg.
Proof.
  induction f as [|key parent IH]; intros msg; [done|].
  cbn [new_hasher ipad_opad hash_update hash_finalize hash_of]. unfold hmac. cbn [fst snd ipad_opad].
  by rewrite reset_new_hasher, !hash_update_app, !IH.
Qed.

Lemma hash_of_length f : forall msg, length (hash_of f msg) = 32%nat.
Proof. induction f as [|key parent IH]; intros msg; [apply sha256_length|apply IH]. Qed.

(** Keys are derived as the protocol defines it.  The chain of hashers that reset,
    feed and replace each other computes SHA-256 wrapped in one HMAC for the
    protocol's label and one more for each element of the path, innermost first. *)
Theorem kdf_is_nested_hmac key path :
  vmess_aead_kdf key path
  = foldl hmac (hmac sha256 (str "VMess AEAD KDF")) path key
  /\ length (vmess_aead_kdf key path) = 32%nat.
Proof.
  unfold vmess_aead_kdf. rewrite reset_new_hasher, hash_finalize_spec. split; [|apply hash_of_length].
  unfold build_kdf_chain.
  enough (forall f, hash_of (foldl (fun current p => HmacFactory p current) f path) = foldl hmac (hash_of f) path)
    as -> by done.
  induction path as [|p path IH]; intros f; [done|]. cbn [foldl]. by rewrite IH.
Qed.

Lemma length_kdf key path : length (vmess_aead_kdf key path) = 32%nat.
Proof. unfold vmess_aead_kdf. rewrite reset_new_hasher, hash_finalize_spec. apply hash_of_length. Qed.
End KdfFacts.

(** ** The request header *)

Lemma fnv1a32_range data : in_u32 (fnv1a32 data).
Proof.
  unfold fnv1a32. assert (Hi : in_u32 2166136261) by (unfold in_u32; lia). revert Hi.
  generalize 2166136261. induction data as [|b data IH]; intros h Hh; [done|]. cbn [foldl]. apply IH.
  unfold in_u32, u32, wrap. by apply Z.mod_pos_bound.
Qed.

Lemma padding_byte draw : let p := bz draw `mod` 16 in
  Z.shiftr (bz (u8 (Z.lor (p * 16) SECURITY_NONE))) 4 = p.
Proof.
  cbv zeta. set (p := bz draw `mod` 16). assert (Hp : 0 <= p < 16) by (apply Z.mod_pos_bound; lia).
  assert (forall q, (0 <= q < 16)%nat -> Z.shiftr (bz (u8 (Z.lor (Z.of_nat q * 16) SECURITY_NONE))) 4 = Z.of_nat q) as Hall.
  { intros q Hq. do 16 (destruct q as [|q]; [by vm_compute|]). lia. }
  specialize (Hall (Z.to_nat p) ltac:(lia)). by rewrite Z2Nat.id in Hall by lia.
Qed.

Section Header.
Variables (key nonce : list byte) (resp draw : byte) (dest : SocketAddr).
Hypotheses (Hkey : zlen key = 16) (Hnonce : zlen nonce = 16) (Hdest : sa_wf dest).

Let pad : Z := bz draw `mod` 16.
Let sec : byte := u8 (Z.lor (pad * 16) SECURITY_NONE).
Let body : list byte :=
  [x01] ++ nonce ++ key ++ [resp] ++ [x00] ++ [sec] ++ [x00] ++ [CMD_TCP]
  ++ encode_port_first_socksaddr dest ++ replicate (Z.to_nat pad) x00.
Let header : list byte := encode_header key nonce resp dest CMD_TCP draw.

Lemma pad_range : 0 <= pad < 16.
Proof. apply Z.mod_pos_bound. lia. Qed.

Lemma header_body : header = body ++ be_encode 4 (fnv1a32 body).
Proof. done. Qed.

Lemma port_first_split : encode_port_first_socksaddr dest
  = be_encode 2 (sa_port dest) ++ vtype (VIp (sa_ip dest)) :: vaddr (VIp (sa_ip dest)).
Proof. by destruct dest as [[a|a] port]. Qed.

Lemma zlen_body : zlen body = 41 + vhost_len (VIp (sa_ip dest)) + pad.
Proof.
  unfold body. rewrite port_first_split. change (vtype ?h :: ?l) with ([vtype h] ++ l).
  rewrite !zlen_app, Hkey, Hnonce, zlen_vaddr by apply Hdest.
  unfold zlen. rewrite length_be_encode, length_replicate. cbn [length]. pose proof pad_range. lia.
Qed.

Lemma vhost_len_pos : 4 <= vhost_len (VIp (sa_ip dest)).
Proof. destruct (sa_ip dest); cbn; lia. Qed.

Lemma header_fields_vmess :
  index header 0 = Ok x01 /\ slice_at header 1 16 = Ok nonce /\ slice_at header 17 16 = Ok key
  /\ index header 33 = Ok resp /\ index header 34 = Ok x00 /\ index header 35 = Ok sec
  /\ index header 37 = Ok CMD_TCP /\ u16_at header 38 = Ok (sa_port dest)
  /\ index header 40 = Ok (vtype (VIp (sa_ip dest)))
  /\ slice_at header 41 (vhost_len (VIp (sa_ip dest))) = Ok (vaddr (VIp (sa_ip dest))).
Proof.
  rewrite header_body. unfold body. rewrite port_first_split, <-!app_assoc. cbn [app].
  pose proof (zlen_vaddr (VIp (sa_ip dest)) (proj1 Hdest)) as Hva. pose proof vhost_len_pos as Hv.
  set (va := vaddr (VIp (sa_ip dest))) in *. set (vt := vtype (VIp (sa_ip dest))).
  assert (Hp : zlen (be_encode 2 (sa_port dest)) = 2) by (unfold zlen; by rewrite length_be_encode).
  split_and!; seek ltac:(fun _ => lia); rewrite ?Hnonce, ?Hkey, ?Hp; sought. apply Hdest.
Qed.

Lemma parse_encoded_header :
  parse_request_header header
  = Ok (mkRequestHeader (show_ip (sa_ip dest)) (sa_port dest) key nonce resp x00).
Proof.
  destruct header_fields_vmess as (H0 & H1 & H2 & H3 & H4 & H5 & H6 & H7 & H8 & H9).
  pose proof zlen_body as Hb. pose proof vhost_len_pos as Hv. pose proof pad_range as Hp.
  assert (Hs : zlen (be_encode 4 (fnv1a32 body)) = 4) by (unfold zlen; by rewrite length_be_encode).
  assert (Hl : zlen header = zlen body + 4) by (rewrite header_body, zlen_app; lia).
  unfold parse_request_header. rewrite Hl.
  rewrite (proj2 (Z.ltb_ge _ 38)) by lia. rewrite H0. cbn [mbind result_bind].
  change (negb (bz x01 =? 1)) with false. cbn match. rewrite H1, H2, H3, H4, H5. cbn [mbind result_bind].
  rewrite H6. cbn [mbind result_bind]. rewrite bool_decide_eq_true_2 by done. cbn [negb].
  replace (zlen body + 4 - 4) with (zlen body) by lia.
  assert (Hsec : Z.shiftr (bz sec) 4 = pad) by apply padding_byte. rewrite Hsec.
  replace (slice_to header (zlen body)) with (Ok body) by (rewrite header_body; symmetry; apply slice_to_app).
  cbn [mbind result_bind].
  replace (slice_at header (zlen body) 4) with (Ok (be_encode 4 (fnv1a32 body)))
    by (rewrite header_body, <-(app_nil_r (be_encode 4 _)); symmetry; by apply slice_at_app_eq).
  cbn [mbind result_bind]. rewrite be_decode_encode by apply fnv1a32_range. rewrite Z.eqb_refl. cbn [negb].
  rewrite (proj2 (Z.ltb_ge _ _)) by lia. rewrite (proj2 (Z.leb_gt _ _)) by lia.
  rewrite H7, H8. cbn [mbind result_bind]. rewrite (proj2 (Z.ltb_ge _ 41)) by lia.
  replace (zlen body + 4 - (4 + pad) - 41) with (vhost_len (VIp (sa_ip dest))) by lia. rewrite H9. cbn [mbind result_bind].
  pose proof (read_address_host (VIp (sa_ip dest)) (proj1 Hdest) []) as Hr. rewrite app_nil_r in Hr. by rewrite Hr.
Qed.
End Header.

(** ** The handshake *)

Section HandshakeFacts.
Context `{VmessCrypto}.

Record draws_ok (d : Draws) : Prop := {
  dk_auth : zlen (d_auth d) = 4;
  dk_key : zlen (d_key d) = 16;
  dk_nonce : zlen (d_nonce d) = 16;
  dk_connection_nonce : zlen (d_connection_nonce d) = 8;
}.

Lemma auth_id_length key ts draw : zlen draw = 4 -> zlen (auth_id key ts draw) = 16.
Proof.
  intros Hd. unfold auth_id, zlen in *. rewrite aes_encrypt_length; [done|].
  rewrite !length_app, !length_be_encode. lia.
Qed.

Lemma decode_auth_id_encoded key ts draw : in_u64 ts -> zlen draw = 4 ->
  decode_auth_id key (auth_id key ts draw) = Some ts.
Proof.
  intros Hts Hd. unfold decode_auth_id, auth_id. set (front := be_encode 8 ts ++ draw).
  assert (Hf : length front = 12%nat) by (unfold front, zlen in *; rewrite length_app, length_be_encode; lia).
  rewrite aes_decrypt_encrypt by (rewrite length_app, length_be_encode; lia).
  rewrite take_app_le, drop_app_ge, take_ge by lia. rewrite Hf. change (12 - 12)%nat with O. rewrite drop_0.
  rewrite be_decode_encode by apply crc32_range.
  rewrite Z.eqb_refl. cbn [negb]. rewrite take_app_le by lia. unfold front.
  rewrite <-(length_be_encode 8 ts) at 1. by rewrite take_app_length, be_decode_encode.
Qed.

Lemma match_user_only now auth users uid ts : uid ∈ users ->
  decode_auth_id (vmess_cmd_key uid) auth = Some ts -> abs_diff ts now <= 120 ->
  (forall u, u ∈ users -> decode_auth_id (vmess_cmd_key u) auth <> None -> u = uid) ->
  match_user now auth users = Some uid.
Proof.
  intros Hin Hdec Hts Honly. induction users as [|u users IH]; [by apply elem_of_nil in Hin|]. cbn [match_user].
  destruct (decode_auth_id (vmess_cmd_key u) auth) as [t|] eqn:E.
  - assert (u = uid) as -> by (apply Honly; [left|by rewrite E]). rewrite Hdec in E. injection E as <-.
    unfold auth_timestamp_valid. by rewrite (proj2 (Z.leb_le _ _)).
  - apply IH.
    + apply elem_of_cons in Hin as [->|]; [congruence|done].
    + intros v Hv. apply Honly. by right.
Qed.

Lemma read_exact_front l rest n : zlen l = n -> read_exact n (l ++ rest) = Ok (l, rest).
Proof.
  intros <-. unfold read_exact. rewrite zlen_app. pose proof (zlen_nonneg rest).
  rewrite (proj2 (Z.ltb_ge _ _)) by lia. unfold zlen. rewrite Nat2Z.id. by rewrite take_app_length, drop_app_length.
Qed.
Lemma zlen_seal k n m aad : zlen (gcm_seal k n m aad) = zlen m + 16.
Proof. unfold zlen. rewrite gcm_seal_length. lia. Qed.

Lemma zlen_header key nonce resp dest draw : zlen key = 16 -> zlen nonce = 16 -> sa_wf dest ->
  0 <= zlen (encode_header key nonce resp dest CMD_TCP draw) < 2 ^ 16.
Proof.
  intros Hk Hn Hd. rewrite (header_body key nonce resp draw dest), zlen_app, zlen_body by done.
  unfold zlen. rewrite length_be_encode. pose proof (pad_range draw).
  destruct (sa_ip dest); cbn [vhost_len]; lia.
Qed.

(** The server reads exactly the request. *)
Lemma accept_request_written now users uuid ts dest d rest :
  let auth := auth_id (vmess_cmd_key uuid) ts (d_auth d) in
  draws_ok d -> sa_wf dest -> match_user now auth users = Some uuid ->
  accept_request now users (write_handshake uuid ts dest CMD_TCP d ++ rest)
  = Ok (uuid, mkRequestHeader (show_ip (sa_ip dest)) (sa_port dest) (d_key d) (d_nonce d) (d_response_header d) x00, rest).
Proof.
  intros auth [Ha Hk Hn Hc] Hd Hm. unfold accept_request, write_handshake. cbv zeta. fold auth.
  set (header := encode_header _ _ _ _ _ _).
  assert (Hh : 0 <= zlen header < 2 ^ 16) by by apply zlen_header.
  assert (H2 : zlen (be_encode 2 (zlen header)) = 2) by (unfold zlen; by rewrite length_be_encode).
  rewrite <-!app_assoc. rewrite read_exact_front by by apply auth_id_length. cbn [mbind result_bind].
  rewrite Hm. cbn [ok_or mbind result_bind].
  rewrite read_exact_front by (unfold seal_header_len; rewrite zlen_seal; lia). cbn [mbind result_bind].
  rewrite read_exact_front by done. cbn [mbind result_bind].
  unfold open_aead, seal_header_len. rewrite gcm_open_seal. cbn [ok_or mbind result_bind].
  rewrite H2. change (2 <? 2) with false. cbn match.
  pose proof (u16_at_here (zlen header) [] Hh) as H16. rewrite app_nil_r in H16. rewrite H16. cbn [mbind result_bind].
  rewrite read_exact_front by (unfold seal_header; apply zlen_seal). cbn [mbind result_bind].
  unfold seal_header. rewrite gcm_open_seal. cbn [ok_or mbind result_bind].
  unfold header. by rewrite parse_encoded_header.
Qed.

Lemma read_response_written key nonce resp option down :
  read_response key nonce (write_server_response key nonce resp option ++ down) = Ok down.
Proof.
  unfold read_response, write_server_response, open_aead. rewrite <-app_assoc.
  rewrite read_exact_front by (by rewrite zlen_seal). cbn [mbind result_bind]. rewrite gcm_open_seal. cbn [ok_or mbind result_bind].
  change (zlen (be_encode 2 4) <? 2) with false. cbn match. change (u16_at (be_encode 2 4) 0) with (Ok 4).
  cbn [mbind result_bind]. rewrite read_exact_front by (by rewrite zlen_seal). cbn [mbind result_bind].
  by rewrite gcm_open_seal.
Qed.
End HandshakeFacts.

(** C21.  The handshake.  A server whose clock is within two minutes of the client's, and
    in whose list the user's id decodes for that user only, reads the request and
    nothing behind it, answers, connects to the destination and starts a session of
    that user; the client's reader takes exactly the answer off the stream. *)
Theorem vmess_handshake `{UserCrypto} `{VmessCrypto} lookup_host connect unix_now now users tag uuid ts dest d
    payload down addrs cm :
  let auth := auth_id (vmess_cmd_key uuid) ts (d_auth d) in
  let request := write_handshake uuid ts dest CMD_TCP d in
  let answer := write_server_response (d_key d) (d_nonce d) (d_response_header d) x00 in
  draws_ok d -> sa_wf dest -> in_u64 ts -> abs_diff ts unix_now <= 120 -> uuid ∈ users ->
  (forall u, u ∈ users -> decode_auth_id (vmess_cmd_key u) auth <> None -> u = uuid) ->
  lookup_host (show_ip (sa_ip dest)) (sa_port dest) = Ok (dest :: addrs) -> connect dest = Ok tt ->
  accept_handshake lookup_host unix_now users (request ++ payload)
    = Ok (mkAccept uuid dest (d_key d) (d_nonce d) (d_response_header d) x00, payload)
  /\ serve_vmess lookup_host connect unix_now now users tag (request ++ payload) cm
    = start_relay [ToClient answer; Connect dest] (begin_for_uuid cm now tag (Some dest) None uuid)
  /\ read_response (d_key d) (d_nonce d) (answer ++ down) = Ok down.
Proof.
  intros auth request answer Hd Hdest Hts Hnow Hin Honly Hl Hc.
  assert (Hm : match_user unix_now auth users = Some uuid).
  { apply (match_user_only _ _ _ _ ts); [done| |done|done]. apply decode_auth_id_encoded; [done|apply Hd]. }
  assert (Ha : accept_handshake lookup_host unix_now users (request ++ payload)
    = Ok (mkAccept uuid dest (d_key d) (d_nonce d) (d_response_header d) x00, payload)).
  { unfold accept_handshake, request, first_address. rewrite accept_request_written by done.
    cbn [mbind result_bind rh_host rh_port]. by rewrite Hl. }
  split_and!; [done| |apply read_response_written].
  unfold serve_vmess. rewrite Ha. cbn [va_dest]. by rewrite Hc.
Qed.

Lemma read_exact_inv n s l rest : 0 <= n -> read_exact n s = Ok (l, rest) -> s = l ++ rest /\ zlen l = n.
Proof.
  unfold read_exact. intros Hn. destruct (zlen s <? n) eqn:E; [done|]. bool_props. intros [= <- <-].
  split; [by rewrite take_drop|]. unfold zlen in *. rewrite length_take. lia.
Qed.

Lemma match_user_inv `{VmessCrypto} now auth users user : match_user now auth users = Some user ->
  user ∈ users /\ exists ts, decode_auth_id (vmess_cmd_key user) auth = Some ts /\ abs_diff ts now <= 120.
Proof.
  induction users as [|v us IH]; [done|]. cbn [match_user].
  destruct (decode_auth_id (vmess_cmd_key v) auth) as [t|] eqn:Ed; [destruct (auth_timestamp_valid now t) eqn:Et|].
  - intros [= ->]. split; [left|]. exists t. split; [done|]. by apply Z.leb_le.
  - intros [? ?]%IH. split; [by right|done].
  - intros [? ?]%IH. split; [by right|done].
Qed.
Lemma be_encode_bytes hi lo : [hi; lo] = be_encode 2 (bz hi * 256 + bz lo).
Proof.
  rewrite be_encode_two. pose proof (bz_range hi). pose proof (bz_range lo).
  f_equal; [|f_equal]; apply bz_inj; rewrite bz_u8.
  - rewrite Z.shiftr_div_pow2 by lia. change (2 ^ 8) with 256. rewrite Z.div_add_l, Z.div_small by lia. rewrite Z.mod_small; lia.
  - rewrite Z.add_comm, Z.mod_add, Z.mod_small; lia.
Qed.

(** C22.  Nobody is let in without a key.  When the server accepts a stream, the stream
    begins with an id that a configured user's key decodes to a time at most two
    minutes away, followed by a header sealed with keys derived from that same user's
    key and that id: only who knows the user's UUID can have written it. *)
Theorem vmess_accept_sound `{VmessCrypto} now users s user rh rest :
  accept_request now users s = Ok (user, rh, rest) ->
  exists auth ts nonce header,
    user ∈ users /\ decode_auth_id (vmess_cmd_key user) auth = Some ts /\ abs_diff ts now <= 120
    /\ s = auth ++ seal_header_len (vmess_cmd_key user) auth nonce (be_encode 2 (zlen header)) ++ nonce
            ++ seal_header (vmess_cmd_key user) auth nonce header ++ rest
    /\ parse_request_header header = Ok rh.
Proof.
  unfold accept_request.
  destruct (read_exact 16 s) as [[auth s1]|?|?] eqn:E1; cbn [mbind result_bind]; [|done..].
  destruct (match_user now auth users) as [u|] eqn:Em; cbn [ok_or mbind result_bind]; [|done].
  destruct (read_exact 18 s1) as [[lc s2]|?|?] eqn:E2; cbn [mbind result_bind]; [|done..].
  destruct (read_exact 8 s2) as [[nonce s3]|?|?] eqn:E3; cbn [mbind result_bind]; [|done..].
  unfold open_aead. destruct (gcm_open _ _ lc auth) as [lp|] eqn:Eo; cbn [ok_or mbind result_bind]; [|done].
  destruct (zlen lp <? 2) eqn:El; [done|]. bool_props.
  destruct (u16_at lp 0) as [n|?|?] eqn:En; cbn [mbind result_bind]; [|done..].
  destruct (read_exact (n + 16) s3) as [[hc s4]|?|?] eqn:E4; cbn [mbind result_bind]; [|done..].
  destruct (gcm_open _ _ hc auth) as [header|] eqn:Eh; cbn [ok_or mbind result_bind]; [|done].
  destruct (parse_request_header header) as [r|?|?] eqn:Ep; cbn [mbind result_bind]; [|done..].
  intros [= -> -> ->].
  apply gcm_seal_open in Eo, Eh.
  apply read_exact_inv in E1 as [-> _]; [|lia]. apply read_exact_inv in E2 as [-> Hlc]; [|lia].
  apply read_exact_inv in E3 as [-> _]; [|lia].
  assert (Hlp : zlen lp = 2) by (rewrite Eo, zlen_seal in Hlc; lia).
  destruct lp as [|hi [|lo [|? ?]]]; unfold zlen in Hlp; cbn [length] in Hlp; try lia.
  cbn in En. injection En as <-. pose proof (bz_range hi). pose proof (bz_range lo).
  apply read_exact_inv in E4 as [-> Hhc]; [|lia].
  assert (Hz : zlen header = bz hi * 256 + bz lo) by (rewrite Eh, zlen_seal in Hhc; lia).
  assert (Hlp2 : [hi; lo] = be_encode 2 (zlen header)) by (rewrite Hz; apply be_encode_bytes).
  apply match_user_inv in Em as (Hu & ts & Hdec & Hts). exists auth, ts, nonce, header. split_and!; [done..| |done].
  unfold seal_header_len, seal_header. rewrite <-Hlp2, <-Eo, <-Eh. done.
Qed.

(** ** Malformed headers *)

(** The header of a client that leaves no room for an address. *)
Definition short_header : list byte :=
  let body := [x01] ++ replicate 36 x00 ++ [CMD_TCP; x00] in body ++ be_encode 4 (fnv1a32 body).

(** Headers that stop the server's task.  Reading a header panics only when it ends one
    or two bytes behind the command, where the port and the type of the address
    should be; and it does then, though every byte of it is authenticated. *)
Theorem request_header_panics header :
  match parse_request_header header with
  | Panic _ => exists p, index header 35 = Ok p /\ 39 <= zlen header - (4 + Z.shiftr (bz p) 4) <= 40
  | _ => True
  end
  /\ is_panic (parse_request_header short_header) = true.
Proof.
  split; [|by vm_compute]. unfold parse_request_header.
  destruct (zlen header <? 38) eqn:E; [done|]. bool_props.
  destruct (index_ok header 0) as [v ->]; [lia|]. cbn [mbind result_bind].
  destruct (negb (bz v =? 1)); [done|].
  destruct (slice_at_ok header 1 16) as [n ->]; [lia..|]. destruct (slice_at_ok header 17 16) as [k ->]; [lia..|].
  destruct (index_ok header 33) as [r ->]; [lia|]. destruct (index_ok header 34) as [o ->]; [lia|].
  destruct (index_ok header 35) as [p Hp]; [lia|]. rewrite Hp. cbn [mbind result_bind].
  destruct (index_ok header 37) as [c ->]; [lia|]. cbn [mbind result_bind].
  destruct (negb _); [done|].
  unfold slice_to. rewrite (proj2 (Z.ltb_ge (zlen header) (zlen header - 4))) by lia. cbn [mbind result_bind].
  destruct (slice_at_ok header (zlen header - 4) 4) as [x ->]; [lia..|]. cbn [mbind result_bind].
  destruct (negb _); [done|]. destruct (zlen header <? 4 + Z.shiftr (bz p) 4) eqn:Ep; [done|]. bool_props.
  destruct (_ <=? 38) eqn:Ea; [done|]. bool_props. assert (0 <= Z.shiftr (bz p) 4) by (apply Z.shiftr_nonneg, bz_range).
  unfold u16_at. destruct (index_ok header 38) as [h ->]; [lia|]. destruct (index_ok header (38 + 1)) as [l ->]; [lia|].
  destruct (index_ok header 40) as [t ->]; [lia|]. cbn [mbind result_bind].
  destruct (_ <? 41) eqn:E41; bool_props.
  - cbn [mbind result_bind]. exists p. split; [done|lia].
  - destruct (slice_at_ok header 41 (zlen header - (4 + Z.shiftr (bz p) 4) - 41)) as [a ->]; [lia..|]. cbn [mbind result_bind].
    pose proof (read_address_safe a t) as Hr. by destruct (read_address a t) as [[? ?]|?|?].
Qed.

(** ** The response stream *)

Section StreamFacts.
Context `{VmessCrypto}.
Variables (key nonce : list byte) (resp option : byte).

Let len_part : list byte := gcm_seal (resp_len_key key) (resp_len_nonce nonce) (be_encode 2 4) [].
Let hdr_part : list byte := gcm_seal (resp_key key) (resp_nonce nonce) [resp; option; x00; x00] [].

Lemma answer_parts : write_server_response key nonce resp option = len_part ++ hdr_part
  /\ length len_part = 18%nat /\ length hdr_part = 20%nat.
Proof. split; [done|]. unfold len_part, hdr_part. by rewrite !gcm_seal_length. Qed.

Lemma inner_poll_split a rest inner : a <> [] -> rest <> [] ->
  inner_poll (length a) (Arrive (a ++ rest) :: inner) = (PReady a, Arrive rest :: inner).
Proof.
  intros Ha Hr. cbn [inner_poll]. rewrite length_app. destruct rest as [|x rest]; [done|]. cbn [length].
  rewrite (proj2 (Nat.leb_gt _ _)) by lia. by rewrite take_app_length, drop_app_length.
Qed.
Lemma inner_poll_whole cap a inner : (length a <= cap)%nat -> inner_poll cap (Arrive a :: inner) = (PReady a, inner).
Proof. intros Ha. cbn [inner_poll]. by rewrite (proj2 (Nat.leb_le _ _)). Qed.

Lemma advance_header_read inner inner' : inner_poll 20 inner = (PReady hdr_part, inner') ->
  advance_header key nonce 20 [] inner = (None, RespDone, inner').
Proof.
  intros Hi. destruct answer_parts as (_ & _ & Hh). unfold advance_header.
  change (Z.to_nat (20 - zlen [])) with 20%nat. rewrite Hi.
  cbn [app]. unfold zlen at 1. rewrite Hh. change (Z.of_nat 20 <? 20) with false. cbn match.
  unfold hdr_part. by rewrite gcm_open_seal.
Qed.
Lemma advance_len_read inner inner' : inner_poll 18 inner = (PReady len_part, inner') ->
  advance_len key nonce [] inner = advance_header key nonce 20 [] inner'.
Proof.
  intros Hi. destruct answer_parts as (_ & Hl & _). unfold advance_len.
  change (18 - length [])%nat with 18%nat. rewrite Hi.
  cbn [app]. unfold zlen at 1. rewrite Hl. change (Z.of_nat 18 <? 18) with false. cbn match.
  unfold len_part. rewrite gcm_open_seal. by rewrite be_encode_two.
Qed.
Lemma advance_header_short a inner : (length a < 20)%nat ->
  advance_header key nonce 20 [] (Arrive a :: inner) = (Some (PPending false), RespHeader 20 a, inner).
Proof.
  intros Ha. unfold advance_header. change (Z.to_nat (20 - zlen [])) with 20%nat.
  rewrite inner_poll_whole by lia. cbn [app]. unfold zlen. by rewrite (proj2 (Z.ltb_lt _ _)) by lia.
Qed.
Lemma advance_len_short a inner : (length a < 18)%nat ->
  advance_len key nonce [] (Arrive a :: inner) = (Some (PPending false), RespLen a, inner).
Proof.
  intros Ha. unfold advance_len. change (18 - length [])%nat with 18%nat.
  rewrite inner_poll_whole by lia. cbn [app]. unfold zlen. by rewrite (proj2 (Z.ltb_lt _ _)) by lia.
Qed.

(** Once the answer is read the stream forwards. *)
Lemma drain_done cap inner inner' fuel : (1 <= cap)%nat ->
  advance_len key nonce [] inner = (None, RespDone, inner') ->
  Forall (fun a => a = NotYet \/ arrived a <> []) inner' -> (polls inner' < fuel)%nat ->
  drain (vmess_poll_read key nonce cap) fuel (RespLen []) inner = (concat (map arrived inner'), AtEnd).
Proof.
  intros Hc Ha Hne Hf. destruct fuel as [|fuel]; [lia|].
  transitivity (drain (vmess_poll_read key nonce cap) (S fuel) RespDone inner').
  - cbn [drain]. unfold vmess_poll_read. cbn [advance_response]. by rewrite Ha.
  - by apply (drain_forward _ cap).
Qed.
Lemma drain_stalls cap inner inner' st fuel :
  advance_len key nonce [] inner = (Some (PPending false), st, inner') -> (0 < fuel)%nat ->
  drain (vmess_poll_read key nonce cap) fuel (RespLen []) inner = ([], Stalled).
Proof.
  intros Ha Hf. destruct fuel as [|fuel]; [lia|]. cbn [drain]. unfold vmess_poll_read. cbn [advance_response].
  by rewrite Ha.
Qed.

(** Polls that have nothing yet change nothing. *)
Lemma drain_waits cap waits st inner fuel : (waits < fuel)%nat -> st <> RespDone ->
  (forall need buf, st = RespHeader need buf -> zlen buf < need) ->
  drain (vmess_poll_read key nonce cap) fuel st (replicate waits NotYet ++ inner)
  = drain (vmess_poll_read key nonce cap) (fuel - waits) st inner.
Proof.
  intros Hf Hst Hneed. revert fuel Hf. induction waits as [|w IH]; intros fuel Hf; [by rewrite Nat.sub_0_r|].
  destruct fuel as [|fuel]; [lia|].
  transitivity (drain (vmess_poll_read key nonce cap) fuel st (replicate w NotYet ++ inner)); [by destruct st|].
  by apply IH; lia.
Qed.
End StreamFacts.

(** How the answer may be cut.  When the server's 38 bytes arrive together, or in two
    pieces cut behind the 18 bytes of the sealed length, reading delivers exactly
    what follows them; cut anywhere else the reading task is never woken again, since
    the stream reports that it is pending while the connection was ready. *)
Theorem vmess_response_cuts `{VmessCrypto} key nonce resp option cap waits k bs inner fuel :
  let answer := write_server_response key nonce resp option in
  (1 <= cap)%nat -> (0 < k <= 38)%nat -> bs <> [] ->
  Forall (fun a => a = NotYet \/ arrived a <> []) inner ->
  (waits + polls (Arrive bs :: inner) + 2 < fuel)%nat ->
  drain (vmess_poll_read key nonce cap) fuel wrap_stream
    (replicate waits NotYet ++ Arrive (take k answer) :: Arrive (drop k answer ++ bs) :: inner)
  = if bool_decide (k = 18%nat \/ k = 38%nat) then (bs ++ concat (map arrived inner), AtEnd) else ([], Stalled).
Proof.
  intros answer Hc Hk Hbs Hne Hf. unfold wrap_stream.
  rewrite drain_waits by (done || lia).
  destruct (answer_parts key nonce resp option) as (Hans & Hl & Hh). unfold answer. rewrite Hans.
  set (lp := gcm_seal (resp_len_key key) _ _ _) in *. set (hp := gcm_seal (resp_key key) _ _ _) in *.
  assert (Hln : lp <> []) by (intros Hx%(f_equal length); change (length lp = 0%nat) in Hx; lia).
  assert (Hhn : hp <> []) by (intros Hx%(f_equal length); change (length hp = 0%nat) in Hx; lia).
  assert (Hne' : Forall (fun a => a = NotYet \/ arrived a <> []) (Arrive bs :: inner)) by by constructor; [right|].
  destruct (decide (k = 18%nat)) as [->|H18]; [|destruct (decide (k = 38%nat)) as [->|H38]].
  - rewrite bool_decide_eq_true_2 by by left. rewrite <-Hl, take_app_length, drop_app_length.
    apply (drain_done _ _ _ _ (Arrive bs :: inner)); [done| |done|lia].
    erewrite (advance_len_read _ _ resp option) by (rewrite inner_poll_whole by (by rewrite Hl); done).
    eapply (advance_header_read _ _ resp option). rewrite <-Hh. by apply inner_poll_split.
  - rewrite bool_decide_eq_true_2 by by right. rewrite (take_ge (lp ++ hp)), (drop_ge (lp ++ hp)) by (rewrite length_app, Hl, Hh; done). cbn [app].
    apply (drain_done _ _ _ _ (Arrive bs :: inner)); [done| |done|lia].
    erewrite (advance_len_read _ _ resp option) by (rewrite <-Hl; by apply inner_poll_split).
    eapply (advance_header_read _ _ resp option). apply inner_poll_whole. change (length hp <= 20)%nat. lia.
  - rewrite bool_decide_eq_false_2 by lia.
    destruct (Nat.lt_ge_cases k 18) as [Hlt|Hge].
    + eapply drain_stalls; [|lia]. apply advance_len_short. rewrite length_take. lia.
    + eapply drain_stalls; [|lia]. rewrite take_app_ge by lia.
      erewrite (advance_len_read _ _ resp option)
        by (rewrite <-Hl; apply inner_poll_split; [done|];
            intros Hd; apply (f_equal length) in Hd; rewrite length_take in Hd; cbn in Hd; lia).
      apply advance_header_short. rewrite length_take. lia.
Qed.

(** ** Instances *)

(** Functions that satisfy the laws, for the examples. *)
Definition fit (n : nat) (m : list byte) : list byte := take n (m ++ replicate n x00).
Lemma fit_length n m : length (fit n m) = n.
Proof. unfold fit. rewrite length_take, length_app, length_replicate. lia. Qed.
Definition toy_open (k n c aad : list byte) : option (list byte) :=
  if bool_decide (16 <= length c)%nat && bool_decide (drop (length c - 16) c = replicate 16 x00)
  then Some (take (length c - 16) c) else None.
Definition toy_vmess : VmessCrypto.
Proof.
  refine {| sha256 := fit 32; md5 := fit 16; crc32 := fun m => zlen m `mod` 2 ^ 32;
            aes_encrypt := fun _ b => b; aes_decrypt := fun _ b => b;
            gcm_seal := fun _ _ m _ => m ++ replicate 16 x00; gcm_open := toy_open |}.
  - apply fit_length.
  - apply fit_length.
  - intros m. unfold in_u32. by apply Z.mod_pos_bound.
  - done.
  - done.
  - intros k n m aad. by rewrite length_app, length_replicate.
  - intros k n m aad. unfold toy_open. rewrite length_app, length_replicate.
    replace (length m + 16 - 16)%nat with (length m) by lia. rewrite drop_app_length, take_app_length.
    by rewrite !bool_decide_eq_true_2 by (done || lia).
  - intros k n c aad m. unfold toy_open. destruct (_ && _) eqn:E; [|done]. apply andb_prop in E as [_ Hd].
    apply bool_decide_eq_true in Hd. intros [= <-]. by rewrite <-Hd, take_drop.
Defined.
Definition demo_draws : Draws :=
  mkDraws [x01; x02; x03; x04] (replicate 16 x0a) (replicate 16 x0b) x2a x07 (replicate 8 x0c).

Lemma kdf_is_nested_hmac_witness :
  length (vmess_aead_kdf (H := toy_vmess) (str "key") [KDF_HDR_KEY; str "id"; str "nonce"]) = 32%nat.
Proof. exact (proj2 (kdf_is_nested_hmac (H := toy_vmess) (str "key") [KDF_HDR_KEY; str "id"; str "nonce"])). Defined.

Lemma demo_draws_ok : draws_ok demo_draws.
Proof. split; reflexivity. Qed.

Lemma vmess_handshake_witness :
  let request := write_handshake (H := toy_vmess) demo_uuid 1000 demo_dest CMD_TCP demo_draws in
  let sv := serve_vmess (H := demo_crypto) (H0 := toy_vmess) demo_lookup (fun _ => Ok tt) 1100 0 [demo_uuid] (str "in")
              (request ++ str "hello") (with_registry new_registry) in
  length (sv_events sv) = 3%nat /\ nth_error (sv_events sv) 1 = Some (Connect demo_dest).
Proof.
  intros request sv. unfold sv, request.
  rewrite (proj1 (proj2 (vmess_handshake (H := demo_crypto) (H0 := toy_vmess) demo_lookup (fun _ => Ok tt) 1100 0
    [demo_uuid] (str "in") demo_uuid 1000 demo_dest demo_draws (str "hello") [] [] (with_registry new_registry)
    demo_draws_ok ltac:(done) ltac:(done) ltac:(done) ltac:(by left)
    ltac:(by intros u [->|Hu%elem_of_nil]%elem_of_cons) eq_refl eq_refl))).
  by vm_compute.
Defined.

Definition demo_request : list byte := write_handshake (H := toy_vmess) demo_uuid 1000 demo_dest CMD_TCP demo_draws.
Definition demo_header : RequestHeader :=
  mkRequestHeader (str "1.1.1.1") 443 (replicate 16 x0a) (replicate 16 x0b) x2a x00.
Lemma vmess_accept_sound_witness :
  accept_request (H := toy_vmess) 1100 [demo_uuid] demo_request = Ok (demo_uuid, demo_header, [])
  /\ exists auth ts, decode_auth_id (H := toy_vmess) (vmess_cmd_key (H := toy_vmess) demo_uuid) auth = Some ts
     /\ abs_diff ts 1100 <= 120.
Proof.
  assert (Ha : accept_request (H := toy_vmess) 1100 [demo_uuid] demo_request = Ok (demo_uuid, demo_header, []))
    by (vm_compute; reflexivity).
  split; [exact Ha|].
  destruct (vmess_accept_sound (H := toy_vmess) 1100 [demo_uuid] demo_request demo_uuid demo_header [] Ha)
    as (auth & ts & _ & _ & _ & Hd & Ht & _).
  exists auth, ts. split; [exact Hd|exact Ht].
Defined.

Lemma vmess_response_cuts_witness :
  let answer := write_server_response (H := toy_vmess) (d_key demo_draws) (d_nonce demo_draws) x2a x00 in
  drain (vmess_poll_read (H := toy_vmess) (d_key demo_draws) (d_nonce demo_draws) 8) 40 wrap_stream
    (NotYet :: Arrive (take 20 answer) :: Arrive (drop 20 answer ++ str "data") :: [NotYet; Arrive (str "more")]) = ([], Stalled).
Proof.
  exact (vmess_response_cuts (H := toy_vmess) (d_key demo_draws) (d_nonce demo_draws) x2a x00 8 1 20 (str "data")
    [NotYet; Arrive (str "more")] 40 ltac:(lia) ltac:(lia) ltac:(done)
    ltac:(constructor; [by left|constructor; [by right|constructor]]) ltac:(vm_compute; lia)).
Defined.
