(* ===== verification/Hello.v ===== *)
(** * ClientHello and REALITY sessions

    [rsb-protocol/src/utls/hello.rs] (the ClientHello a client sends and the server's
    readers of it), [reality.rs] (the session id that authenticates a client) and
    [reality_session.rs] (its verification).

    AES-GCM, HKDF, X25519 and Base64 come from external crates: the class
    [RealityCrypto], whose laws are the lengths of their outputs, that a message is
    opened with the key it was sealed with and with nothing else, and that the two
    sides of a key exchange agree.  Random draws and the clock are arguments. *)
From stdpp Require Import base tactics gmap list strings.
From Stdlib Require Import ZArith Lia.
From Stdlib Require Import Strings.Byte.
From S2P Require Import Prelude Json Text Ip DnsWire Codec Sniff Config Subscription.

Local Open Scope Z_scope.

(** ** ClientHello *)

Inductive Profile := Chrome | Edge | Firefox | Safari | Ios | RandomProfile.
Definition profile_parse (name : list byte) : option Profile :=
  if bool_decide (name = str "chrome") then Some Chrome
  else if bool_decide (name = str "edge") then Some Edge
  else if bool_decide (name = str "firefox") then Some Firefox
  else if bool_decide (name = str "safari") then Some Safari
  else if bool_decide (name = str "ios") then Some Ios
  else if bool_decide (name = str "random") then Some RandomProfile
  else None.

Definition push_ext (typ : Z) (data : list byte) : list byte :=
  be_encode 2 typ ++ be_encode 2 (zlen data) ++ data.
Definition encode_sni (host : list byte) : list byte :=
  be_encode 2 (zlen host + 3) ++ [x00] ++ be_encode 2 (zlen host) ++ host.
Definition encode_alpn (protos : list (list byte)) : list byte :=
  let inner := concat (map (fun p => u8 (zlen p) :: p) protos) in be_encode 2 (zlen inner) ++ inner.
Definition encode_groups : list byte :=
  [x00; x08] ++ concat (map (be_encode 2) [29; 23; 24; 25]).
Definition encode_key_share (pubkey : list byte) : list byte :=
  [x00; x24] ++ be_encode 2 29 ++ be_encode 2 32 ++ pubkey.
Definition encode_sig_algs : list byte :=
  let algs := [1027; 2052; 1025; 1283; 2053; 1281; 2054; 1537] in
  be_encode 2 (zlen algs * 2) ++ concat (map (be_encode 2) algs).

(** [grease16], from the 32 bits drawn. *)
Definition grease16 (draw : Z) : Z :=
  let b := Z.lor 10 (Z.land draw 15) in b * 256 + b.

Definition client_ciphers (profile : Profile) : list Z :=
  match profile with
  | Firefox => [4865; 4867; 4866; 49195; 49199; 49196; 49200; 52393; 52392; 49171; 49172; 156; 157; 47; 53]
  | Safari | Ios => [4865; 4866; 4867; 49196; 49195; 52393; 49200; 49199; 52392; 49188; 49187; 49162; 49161;
                     157; 156; 61; 60; 53; 47]
  | _ => [2570; 4865; 4866; 4867; 49195; 49199; 49196; 49200; 52393; 52392; 49171; 49172; 156; 157; 47; 53; 6682]
  end.

(** The draws: the two GREASE values, the random, the session id. *)
Record HelloDraws := mkHelloDraws {
  hd_g1 : Z;
  hd_g2 : Z;
  hd_random : list byte;
  hd_session_id : list byte;
}.
Definition alpn_list : list (list byte) := [str "h2"; str "http/1.1"].
(** The extensions, in their order. *)
Definition client_exts (profile : Profile) (sni key_share : list byte) (d : HelloDraws) : list (Z * list byte) :=
  let front := [(0, encode_sni sni); (23, []); (65281, [x00]); (10, encode_groups); (11, [x00]);
                (43, [x04; x03; x04; x03; x03])] in
  match profile with
  | Firefox => front ++ [(45, [x01; x01]); (51, encode_key_share key_share); (16, encode_alpn alpn_list);
                         (13, encode_sig_algs)]
  | Safari | Ios => front ++ [(51, encode_key_share key_share); (16, encode_alpn alpn_list); (13, encode_sig_algs);
                              (45, [x01; x01])]
  | _ => [(grease16 (hd_g1 d), [])] ++ front
         ++ [(51, encode_key_share key_share); (16, encode_alpn alpn_list); (13, encode_sig_algs); (45, [x01; x01]);
             (grease16 (hd_g2 d), [])]
  end.
Definition exts_bytes (l : list (Z * list byte)) : list byte := concat (map (fun e => push_ext e.1 e.2) l).
(** The record around a random, a session id, cipher suites and extensions. *)
Definition hello_record (random session_id : list byte) (ciphers : list Z) (exts : list byte) : list byte :=
  let body := [x03; x03] ++ random ++ [x20] ++ session_id ++ be_encode 2 (zlen ciphers * 2)
              ++ concat (map (be_encode 2) ciphers) ++ [x01; x00] ++ be_encode 2 (zlen exts) ++ exts in
  let hs := [x01] ++ be_encode 3 (zlen body) ++ body in
  [x16; x03; x01] ++ be_encode 2 (zlen hs) ++ hs.
Definition build_client_hello_with_ciphers (profile : Profile) (sni key_share : list byte) (ciphers : list Z)
    (d : HelloDraws) : list byte :=
  hello_record (hd_random d) (hd_session_id d) ciphers (exts_bytes (client_exts profile sni key_share d)).
Definition build_client_hello (profile : Profile) (sni key_share : list byte) (d : HelloDraws) : list byte :=
  build_client_hello_with_ciphers profile sni key_share (client_ciphers profile) d.

(** ** Reading a ClientHello *)

Record HelloLayout := mkHelloLayout {
  random_offset : Z;
  session_id_offset : Z;
}.
Definition hello_layout (hello : list byte) : option HelloLayout :=
  if zlen hello <? 50 then None
  else if negb (bool_decide (hello !! 0%nat = Some x16)) then None
  else if negb (bool_decide (hello !! 5%nat = Some x01)) then None
  else Some (mkHelloLayout (9 + 2) (9 + 2 + 32 + 1)).

(** [slice.get(o..o + n)] *)
Definition slice_get (l : list byte) (o n : Z) : option (list byte) :=
  if zlen l <? o + n then None else Some (take (Z.to_nat n) (drop (Z.to_nat o) l)).

Definition client_hello_random (hello : list byte) : option (list byte) :=
  layout ← hello_layout hello; slice_get hello (random_offset layout) 32.

(** The front of a ClientHello up to its cipher suites: their bytes and the offset
    behind them. *)
Definition hello_front (record : list byte) : option (list byte) :=
  if zlen record <? 5 then None
  else if negb (bool_decide (record !! 0%nat = Some x16)) then None
  else
    let hs := drop 5 record in
    if bool_decide (hs !! 0%nat = Some x01) then Some hs else None.

Definition client_hello_extensions (record : list byte) : result (option (list byte)) :=
  match hello_front record with
  | None => Ok None
  | Some hs =>
      sid ← index hs (4 + 2 + 32);
      let i := 39 + bz sid in
      if zlen hs <? i + 2 then Ok None
      else
        cipher_len ← u16_at hs i;
        let i := i + (2 + cipher_len) in
        if zlen hs <=? i then Ok None
        else
          comp_len ← index hs i;
          let i := i + (1 + bz comp_len) in
          if zlen hs <? i + 2 then Ok None
          else
            ext_len ← u16_at hs i;
            Ok (slice_get hs (i + 2) ext_len)
  end.

(** The entries of a key share, from the third byte of the extension on. *)
Fixpoint key_share_entries (fuel : nat) (data : list byte) : option (list byte) :=
  match fuel, data with
  | S fuel, g1 :: g0 :: l1 :: l0 :: data =>
      let group := be_decode [g1; g0] in
      let key_len := be_decode [l1; l0] in
      if zlen data <? key_len then None
      else if (group =? 29) && (key_len =? 32) then Some (take 32 data)
      else key_share_entries fuel (drop (Z.to_nat key_len) data)
  | _, _ => None
  end.
Fixpoint key_share_loop (fuel : nat) (exts : list byte) : option (list byte) :=
  match fuel, exts with
  | S fuel, t1 :: t0 :: l1 :: l0 :: exts =>
      let ext_type := be_decode [t1; t0] in
      let ext_val_len := be_decode [l1; l0] in
      let next := key_share_loop fuel (drop (Z.to_nat ext_val_len) exts) in
      if (ext_type =? 51) && (38 <=? ext_val_len) && (ext_val_len <=? zlen exts) then
        let data := take (Z.to_nat ext_val_len) exts in
        match key_share_entries (length data) (drop 2 data) with
        | Some pk => Some pk
        | None => next
        end
      else next
  | _, _ => None
  end.
Definition parse_client_hello_key_share (record : list byte) : result (option (list byte)) :=
  exts ← client_hello_extensions record;
  Ok (exts ← exts; key_share_loop (length exts) exts).

(** The first protocol of an ALPN extension. *)
Definition first_alpn (data : list byte) : option (option (list byte)) :=
  match data with
  | l1 :: l0 :: rest =>
      match rest with
      | n :: rest =>
          if 0 <? be_decode [l1; l0] then
            if bz n <=? zlen rest then
              Some (let p := take (Z.to_nat (bz n)) rest in if utf8_valid p then Some p else None)
            else None
          else None
      | [] => None
      end
  | _ => Some None
  end.
Fixpoint alpn_loop (fuel : nat) (exts : list byte) : option (list byte) :=
  match fuel, exts with
  | S fuel, t1 :: t0 :: l1 :: l0 :: exts =>
      let ext_type := be_decode [t1; t0] in
      let ext_val_len := be_decode [l1; l0] in
      let next := alpn_loop fuel (drop (Z.to_nat ext_val_len) exts) in
      if (ext_type =? 16) && (3 <=? ext_val_len) && (ext_val_len <=? zlen exts) then
        match first_alpn (take (Z.to_nat ext_val_len) exts) with
        | Some r => r
        | None => next
        end
      else next
  | _, _ => None
  end.
Definition parse_client_hello_alpn (record : list byte) : result (option (list byte)) :=
  exts ← client_hello_extensions record;
  Ok (exts ← exts; alpn_loop (length exts) exts).

Definition PREFERENCE : list Z := [4865; 4866; 4867].
(** [chunks(2)], the pairs among them. *)
Fixpoint cipher_chunks (l : list byte) : list Z :=
  match l with
  | a :: b :: l => be_decode [a; b] :: cipher_chunks l
  | _ => []
  end.
Definition pick_client_tls13_cipher (record : list byte) : result (option Z) :=
  match hello_front record with
  | None => Ok None
  | Some hs =>
      sid ← index hs (4 + 2 + 32);
      let i := 39 + bz sid in
      if zlen hs <? i + 2 then Ok None
      else
        cipher_len ← u16_at hs i;
        Ok (ciphers ← slice_get hs (i + 2) cipher_len;
            head (filter (fun pref => pref ∈ cipher_chunks ciphers) PREFERENCE))
  end.

(** ** REALITY sessions *)

Class RealityCrypto := {
  x_public : list byte -> list byte;
  x_dh : list byte -> list byte -> list byte;
  hkdf_sha256 : list byte -> list byte -> list byte -> nat -> list byte;
  gcm256_seal : list byte -> list byte -> list byte -> list byte -> list byte;
  gcm256_open : list byte -> list byte -> list byte -> list byte -> option (list byte);
  x_public_length : forall s, length s = 32%nat -> length (x_public s) = 32%nat;
  x_dh_agree : forall a b, x_dh a (x_public b) = x_dh b (x_public a);
  gcm256_seal_length : forall k n m aad, length (gcm256_seal k n m aad) = (length m + 16)%nat;
  gcm256_open_seal : forall k n m aad, gcm256_open k n (gcm256_seal k n m aad) aad = Some m;
  gcm256_seal_open : forall k n c aad m, gcm256_open k n c aad = Some m -> c = gcm256_seal k n m aad;
}.

Definition DEFAULT_MAX_TIME_DIFF : Z := 120.

(** The hellos of a client, from the secret drawn. *)
Definition generate_client_hello `{RealityCrypto} (profile : Profile) (sni secret : list byte) (d : HelloDraws) : list byte :=
  build_client_hello profile sni (x_public secret) d.
Definition generate_shadowtls_client_hello `{RealityCrypto} (profile : Profile) (sni secret : list byte) (d : HelloDraws) : list byte :=
  build_client_hello_with_ciphers profile sni (x_public secret) [4865] d.

(** [l[o..o + n]] replaced. *)
Definition overwrite (l : list byte) (o : Z) (new : list byte) : list byte :=
  take (Z.to_nat o) l ++ new ++ drop (Z.to_nat o + length new) l.
Definition zero_session_id (hello : list byte) (layout : HelloLayout) : list byte :=
  overwrite hello (session_id_offset layout) (replicate 32 x00).

Section Session.
Context `{RealityCrypto}.

Definition reality_auth_key (random shared : list byte) : list byte :=
  hkdf_sha256 (take 20 random) shared (str "REALITY") 32.

Definition session_plain (ver : byte * byte * byte) (ts : Z) (short_id : list byte) : list byte :=
  [ver.1.1; ver.1.2; ver.2; x00] ++ be_encode 4 (u32 ts) ++ short_id.
(** [patch_reality_session]; the public key and the short id are those of the
    configuration. *)
Definition patch_reality_session (secret hello public_key short_id : list byte) (ver : byte * byte * byte) (ts : Z)
  : result (list byte * list byte) :=
  layout ← ok_or "reality hello layout" (hello_layout hello);
  random ← ok_or "reality random" (client_hello_random hello);
  let zeroed := zero_session_id hello layout in
  let aad := drop 5 zeroed in
  let auth_key := reality_auth_key random (x_dh secret public_key) in
  let sealed := gcm256_seal auth_key (drop 20 random) (session_plain ver ts short_id) aad in
  if negb (zlen sealed =? 32) then Err "reality session id length"
  else Ok (overwrite zeroed (session_id_offset layout) sealed, auth_key).

(** A byte of an allowed id that is zero fits every byte. *)
Definition short_id_matches (allowed sid : list byte) : bool :=
  forallb (fun p => bool_decide (p.1 = x00) || bool_decide (p.1 = p.2)) (zip allowed sid).
Definition validate_session_plain (plain : list byte) (short_ids : list (list byte)) (max_time_diff now : Z) : result unit :=
  let max_diff := if max_time_diff =? 0 then DEFAULT_MAX_TIME_DIFF else max_time_diff in
  ts ← slice_at plain 4 4;
  if max_diff <? abs_diff now (be_decode ts) then Err "reality timestamp out of range"
  else
    sid ← slice_at plain 8 8;
    if existsb (fun allowed => short_id_matches allowed sid) short_ids then Ok tt
    else Err "reality short_id mismatch".

Record VerifiedSession := mkVerifiedSession {
  vs_auth_key : list byte;
  vs_client_hello : list byte;
  vs_client_pub : list byte;
  vs_cipher : Z;
}.
Definition verify_reality_session (record private_key : list byte) (short_ids : list (list byte))
    (max_time_diff now : Z) : result VerifiedSession :=
  layout ← ok_or "reality: client hello layout" (hello_layout record);
  random ← ok_or "reality: client random" (client_hello_random record);
  client_pub ← parse_client_hello_key_share record;
  client_pub ← ok_or "reality: key share" client_pub;
  cipher ← pick_client_tls13_cipher record;
  cipher ← ok_or "reality: tls1.3 cipher" cipher;
  let auth_key := reality_auth_key random (x_dh private_key client_pub) in
  sid_len ← index record (session_id_offset layout - 1);
  if negb (bz sid_len =? 32) then Err "reality: unexpected session id length"
  else
    ciphertext ← slice_at record (session_id_offset layout) 32;
    let aad := drop 5 (zero_session_id record layout) in
    plain ← ok_or "reality session decrypt failed" (gcm256_open auth_key (drop 20 random) ciphertext aad);
    if zlen plain <? 16 then Err "reality session plaintext too short"
    else
      _ ← validate_session_plain plain short_ids max_time_diff now;
      Ok (mkVerifiedSession auth_key record client_pub cipher).
End Session.

(** ** Configuration *)

(** [u8::from_str_radix] of a chunk of one or two characters; a chunk that starts
    inside a character panics. *)
Definition continuation (b : byte) : bool := in_range 128 191 b.
Fixpoint hex_chunks (s : list byte) : result (list byte) :=
  match s with
  | [] => Ok []
  | [a] => if continuation a then Panic "byte index is not a char boundary"
           else Ok (match to_digit 16 a with Some v => [u8 v] | None => [] end)
  | a :: b :: s =>
      if continuation a || match s with c :: _ => continuation c | [] => false end
      then Panic "byte index is not a char boundary"
      else r ← hex_chunks s; Ok (match hex_byte a b with Some v => u8 v :: r | None => r end)
  end.
Definition decode_hex (s : list byte) : result (list byte) := hex_chunks (trim s).
(** [decode_short_id] and [decode_short_id_hex] *)
Definition decode_short_id (s : list byte) : result (list byte) :=
  bytes ← decode_hex s;
  Ok (take 8 bytes ++ replicate (8 - length bytes) x00).

Fixpoint short_id_array (l : list Value) : result (list (list byte)) :=
  match l with
  | [] => Ok []
  | v :: l =>
      match as_str v with
      | Some hex => x ← decode_short_id hex; r ← short_id_array l; Ok (x :: r)
      | None => short_id_array l
      end
  end.
Definition decode_short_ids (raw : Value) : result (list (list byte)) :=
  reality ← ok_or "reality block" (get raw "reality");
  out ← match (v ← get reality "short_id"; as_array v) with
        | Some arr => short_id_array arr
        | None => match text reality "short_id" with
                  | Some hex => x ← decode_short_id hex; Ok [x]
                  | None => Ok []
                  end
        end;
  if bool_decide (out = []) then Err "reality short_id required" else Ok out.

Section Config.
(** The two Base64 alphabets. *)
Variables b64_url b64_std : list byte -> option (list byte).
Context `{Users.UserCrypto}.

Definition decode_reality_private_key (b64 : list byte) : result (list byte) :=
  let trimmed := trim b64 in
  bytes ← ok_or "invalid base64" (or_else (b64_url trimmed) (b64_std trimmed));
  if negb (zlen bytes =? 32) then Err "reality private_key length" else Ok bytes.

Definition XRAY_REALITY_VERSION : byte * byte * byte := (x01, x08, x01).
Definition reality_version (tls : Value) : byte * byte * byte :=
  match (r ← get tls "reality"; number r "xver") with
  | Some v => (u8 v, x00, x00)
  | None => XRAY_REALITY_VERSION
  end.
Definition is_reality (raw : option Value) : bool :=
  default (bool_decide (is_Some (t ← raw; get t "reality"))) (t ← raw; r ← get t "reality"; flag r "enabled").

Record RealityConfig := mkRealityConfig {
  rc_public_key : list byte;
  rc_short_id : list byte;
  rc_server_name : list byte;
  rc_fingerprint : Profile;
}.
Definition parse_reality (tls : Value) : result RealityConfig :=
  reality ← ok_or "reality block" (get tls "reality");
  pk_b64 ← ok_or "reality public_key" (text reality "public_key");
  bytes ← ok_or "invalid base64" (or_else (b64_url (trim pk_b64)) (b64_std (trim pk_b64)));
  if negb (zlen bytes =? 32) then Err "Condition failed: `bytes.len() == 32`"
  else
    let server_name := default (str "www.microsoft.com")
      (or_else (text tls "server_name")
        (or_else (text reality "server_name")
          (v ← get reality "server_names"; a ← as_array v; x ← head a; as_str x))) in
    let fp := default Chrome
      (name ← or_else (text reality "fingerprint") (u ← get tls "utls"; text u "fingerprint"); profile_parse name) in
    short_id ← decode_short_id (default [] (text reality "short_id"));
    Ok (mkRealityConfig bytes short_id server_name fp).

Definition parse_handshake_dest (reality : Value) : result (list byte * Z) :=
  match get reality "handshake" with
  | Some hs =>
      server ← ok_or "reality handshake.server" (text hs "server");
      Ok (server, u16 (default 443 (number hs "server_port")))
  | None => server ← ok_or "reality handshake dest" (text reality "dest"); Ok (server, 443)
  end.

Record RealityVlessCfg := mkRealityVless {
  rv_listen : SocketAddr;
  rv_users : list (list byte);
  rv_private_key : list byte;
  rv_short_ids : list (list byte);
  rv_max_time_diff : Z;
  rv_handshake : list byte * Z;
}.
Definition reality_vless_new (raw : Value) : result RealityVlessCfg :=
  listen ← parse_listen raw;
  users ← match (v ← get raw "users"; as_array v) with Some l => uuid_users l | None => Ok [] end;
  if bool_decide (users = []) then Err "reality vless: uuid/users required"
  else
    tls ← ok_or "reality vless: tls required" (get raw "tls");
    reality ← ok_or "reality block" (get tls "reality");
    pk_b64 ← ok_or "reality private_key" (text reality "private_key");
    private_key ← decode_reality_private_key pk_b64;
    short_ids ← decode_short_ids tls;
    let max_time_diff := default 0 (number reality "max_time_diff") in
    dest ← parse_handshake_dest reality;
    Ok (mkRealityVless listen users private_key short_ids max_time_diff dest).

(** [utls/mod.rs] *)
Definition fingerprint_name (tls : option Value) : option (list byte) :=
  name ← (t ← tls; v ← or_else (u ← get t "utls"; get u "fingerprint") (get t "fingerprint"); as_str v);
  if bool_decide (name = []) then None else Some name.
Definition utls_enabled (tls : option Value) : bool :=
  if default false (t ← tls; u ← get t "utls"; flag u "enabled") then true
  else bool_decide (is_Some (fingerprint_name tls)).
End Config.

(** ** The form of a ClientHello *)

Lemma slice_get_at l o n d : 0 <= o -> 0 <= n -> slice_at l o n = Ok d -> slice_get l o n = Some d.
Proof.
  unfold slice_at, slice_to, slice_from, slice_get. intros Ho Hn. destruct (zlen l <? o + n) eqn:E; [done|].
  bool_props. cbn [mbind result_bind]. destruct (_ <? o); [done|]. intros [= <-].
  rewrite Z2Nat.inj_add, take_drop_commute by lia. done.
Qed.
Lemma zlen_be n v : zlen (be_encode n v) = Z.of_nat n.
Proof. unfold zlen. by rewrite length_be_encode. Qed.
Lemma zlen_be_list l : zlen (concat (map (be_encode 2) l)) = zlen l * 2.
Proof.
  induction l as [|c l IH]; [done|]. cbn [map concat]. rewrite zlen_app, zlen_be, IH, zlen_cons. lia.
Qed.
Lemma cipher_chunks_encoded l : Forall in_u16 l -> cipher_chunks (concat (map (be_encode 2) l)) = l.
Proof.
  induction 1 as [|c l Hc _ IH]; [done|]. cbn [map concat]. rewrite be_encode_two. cbn [app cipher_chunks].
  rewrite IH. f_equal. rewrite <-(be_encode_two c). by apply be_decode_u16.
Qed.

Section Record.
Variables (random : list byte) (ciphers : list Z) (exts : list byte).
Hypotheses (Hrandom : zlen random = 32) (Hciphers : Forall in_u16 ciphers) (Hnc : zlen ciphers < 2 ^ 15)
  (Hexts : zlen exts < 2 ^ 16).

Let tail : list byte :=
  be_encode 2 (zlen ciphers * 2) ++ concat (map (be_encode 2) ciphers) ++ [x01; x00] ++ be_encode 2 (zlen exts) ++ exts.
(** The record as a front of 44 bytes, the session id, and the rest. *)
Let front (n : Z) : list byte :=
  [x16; x03; x01] ++ be_encode 2 (n + 43) ++ [x01] ++ be_encode 3 (n + 39) ++ [x03; x03] ++ random ++ [x20].

Lemma hello_record_split sid :
  hello_record random sid ciphers exts = front (zlen sid + zlen tail - 4) ++ sid ++ tail.
Proof.
  unfold hello_record, front. fold tail. cbv zeta. set (body := [x03; x03] ++ _).
  assert (Hb : zlen body = 35 + zlen sid + zlen tail).
  { unfold body. rewrite !zlen_app, Hrandom. change (zlen [x03; x03]) with 2. change (zlen [x20]) with 1. lia. }
  assert (Hh : zlen ([x01] ++ be_encode 3 (zlen body) ++ body) = 39 + zlen sid + zlen tail).
  { rewrite !zlen_app, zlen_be, Hb. change (zlen [x01]) with 1. lia. }
  rewrite Hh, Hb. unfold body. rewrite <-!app_assoc.
  replace (39 + zlen sid + zlen tail) with (zlen sid + zlen tail - 4 + 43) by lia.
  by replace (35 + zlen sid + zlen tail) with (zlen sid + zlen tail - 4 + 39) by lia.
Qed.
Lemma zlen_front n : zlen (front n) = 44.
Proof. unfold front. rewrite !zlen_app, !zlen_be, Hrandom. done. Qed.

Section Id.
Variable sid : list byte.
Hypothesis Hsid : zlen sid = 32.
Let record : list byte := hello_record random sid ciphers exts.
Let hs : list byte := drop 5 record.

Lemma zlen_tail : 6 <= zlen tail.
Proof.
  unfold tail. rewrite !zlen_app, !zlen_be, zlen_be_list. change (zlen [x01; x00]) with 2.
  pose proof (zlen_nonneg exts). pose proof (zlen_nonneg ciphers). lia.
Qed.
Lemma zlen_record : zlen record = 76 + zlen tail.
Proof. unfold record. rewrite hello_record_split, !zlen_app, zlen_front. lia. Qed.

Lemma hello_layout_record : hello_layout record = Some (mkHelloLayout 11 44).
Proof.
  unfold hello_layout. rewrite zlen_record. pose proof zlen_tail. rewrite (proj2 (Z.ltb_ge _ _)) by lia.
  unfold record. rewrite hello_record_split. unfold front. rewrite be_encode_two. done.
Qed.
Lemma random_record : client_hello_random record = Some random.
Proof.
  unfold client_hello_random. rewrite hello_layout_record. cbn [mbind option_bind random_offset].
  apply slice_get_at; [lia..|]. unfold record. rewrite hello_record_split. unfold front. rewrite <-!app_assoc. cbn [app].
  seek ltac:(fun _ => rewrite ?zlen_be; lia). rewrite !zlen_be. sought.
Qed.
Lemma session_id_record : index record 43 = Ok x20 /\ slice_at record 44 32 = Ok sid.
Proof.
  unfold record. rewrite hello_record_split. split.
  - unfold front. rewrite <-!app_assoc. cbn [app]. seek ltac:(fun _ => rewrite ?zlen_be; lia). rewrite !zlen_be, ?Hrandom. sought.
  - apply slice_at_app_eq; [apply zlen_front|done].
Qed.
Lemma overwrite_record new : zlen new = 32 ->
  overwrite record 44 new = hello_record random new ciphers exts.
Proof.
  intros Hn. unfold overwrite, record. rewrite !hello_record_split, Hsid, Hn.
  pose proof (zlen_front (32 + zlen tail - 4)) as Hf. set (f := front _) in *. unfold zlen in Hf, Hn, Hsid.
  change (Z.to_nat 44) with 44%nat. rewrite take_app_length' by lia.
  rewrite (app_assoc f sid). by rewrite (drop_app_length' (f ++ sid)) by (rewrite length_app; lia).
Qed.

Lemma hello_front_record : hello_front record = Some hs.
Proof.
  unfold hello_front, hs. rewrite zlen_record. pose proof zlen_tail. rewrite (proj2 (Z.ltb_ge _ _)) by lia.
  unfold record. rewrite hello_record_split. unfold front. rewrite be_encode_two. done.
Qed.
Lemma hs_split : exists h, zlen h = 38 /\ hs = h ++ [x20] ++ sid ++ tail.
Proof.
  unfold hs, record. rewrite hello_record_split. unfold front. rewrite be_encode_two, <-!app_assoc. cbn [app drop].
  eexists (x01 :: be_encode 3 _ ++ [x03; x03] ++ random). split; [|cbn [app]; by rewrite <-!app_assoc].
  rewrite zlen_cons, !zlen_app, zlen_be, Hrandom. done.
Qed.
Lemma zlen_ciphers : in_u16 (zlen ciphers * 2).
Proof. unfold in_u16. pose proof (zlen_nonneg ciphers). lia. Qed.
Lemma zlen_exts : in_u16 (zlen exts).
Proof. unfold in_u16. pose proof (zlen_nonneg exts). lia. Qed.

Lemma hs_parts : exists h, zlen h = 38
  /\ hs = h ++ x20 :: sid ++ be_encode 2 (zlen ciphers * 2) ++ concat (map (be_encode 2) ciphers)
            ++ x01 :: x00 :: be_encode 2 (zlen exts) ++ exts ++ []
  /\ zlen hs = 77 + zlen ciphers * 2 + zlen exts
  /\ zlen (concat (map (be_encode 2) ciphers)) = zlen ciphers * 2
  /\ zlen (be_encode 2 (zlen ciphers * 2)) = 2 /\ zlen (be_encode 2 (zlen exts)) = 2
  /\ 0 <= zlen ciphers /\ 0 <= zlen exts.
Proof.
  destruct hs_split as (h & Hh & ->). exists h. unfold tail. rewrite app_nil_r.
  split_and!; [done|done| |apply zlen_be_list|apply zlen_be|apply zlen_be|apply zlen_nonneg|apply zlen_nonneg].
  rewrite !zlen_app, Hh, Hsid, !zlen_be, zlen_be_list. change (zlen [x20]) with 1. change (zlen [x01; x00]) with 2. lia.
Qed.
(** Finds the field, by the lengths of the parts. *)
Local Ltac find_field := seek ltac:(fun _ => lia); sought.

Lemma extensions_record : client_hello_extensions record = Ok (Some exts).
Proof.
  unfold client_hello_extensions. rewrite hello_front_record.
  destruct hs_parts as (h & Hh & Hhs & Hlen & Hc & Hb & He & Hn1 & Hn2). rewrite Hlen. rewrite Hhs.
  pose proof zlen_ciphers as Hc2. pose proof zlen_exts as He2.
  assert (H1 : forall k, index (h ++ x20 :: k) (4 + 2 + 32) = Ok x20) by (intros k; find_field).
  rewrite H1. cbn [mbind result_bind]. change (bz x20) with 32. rewrite (proj2 (Z.ltb_ge _ _)) by lia.
  set (k := concat _ ++ _) in *.
  match goal with |- context [u16_at ?l ?o] => assert (H2 : u16_at l o = Ok (zlen ciphers * 2)) by (find_field; done) end.
  rewrite H2. cbn [mbind result_bind]. rewrite (proj2 (Z.leb_gt _ _)) by lia. unfold k in *. clear H2.
  set (k2 := be_encode 2 (zlen exts) ++ _) in *.
  match goal with |- context [index ?l ?o] => assert (H3 : index l o = Ok x01) by find_field end.
  rewrite H3. cbn [mbind result_bind]. change (bz x01) with 1. rewrite (proj2 (Z.ltb_ge _ _)) by lia. unfold k2. clear H3.
  match goal with |- context [u16_at ?l ?o] => assert (H4 : u16_at l o = Ok (zlen exts)) by (find_field; done) end.
  rewrite H4. cbn [mbind result_bind]. f_equal. apply slice_get_at; [lia..|]. find_field.
Qed.

Lemma cipher_record : pick_client_tls13_cipher record
  = Ok (head (filter (fun pref => pref ∈ ciphers) PREFERENCE)).
Proof.
  unfold pick_client_tls13_cipher. rewrite hello_front_record.
  destruct hs_parts as (h & Hh & Hhs & Hlen & Hc & Hb & He & Hn1 & Hn2). rewrite Hlen. rewrite Hhs.
  assert (H1 : forall k, index (h ++ x20 :: k) (4 + 2 + 32) = Ok x20) by (intros k; find_field).
  rewrite H1. cbn [mbind result_bind]. change (bz x20) with 32. rewrite (proj2 (Z.ltb_ge _ _)) by lia.
  set (k := concat _ ++ _) in *.
  match goal with |- context [u16_at ?l ?o] =>
    assert (H2 : u16_at l o = Ok (zlen ciphers * 2)) by (find_field; apply zlen_ciphers) end.
  rewrite H2. cbn [mbind result_bind]. f_equal. unfold k.
  rewrite (slice_get_at _ _ _ (concat (map (be_encode 2) ciphers))) by (lia || find_field).
  cbn [mbind option_bind]. by rewrite cipher_chunks_encoded.
Qed.
End Id.
End Record.

(** ** Extensions *)

Definition ext_ok (e : Z * list byte) : Prop := in_u16 e.1 /\ zlen e.2 < 2 ^ 16.
(** The value of the first extension for which [f] has one. *)
Definition first_ext {A} (f : Z * list byte -> option A) (l : list (Z * list byte)) : option A :=
  foldr (fun e r => match f e with Some a => Some a | None => r end) None l.

Lemma ext_cons e rest : ext_ok e -> exists t1 t0 l1 l0,
  push_ext e.1 e.2 ++ rest = t1 :: t0 :: l1 :: l0 :: e.2 ++ rest
  /\ be_decode [t1; t0] = e.1 /\ be_decode [l1; l0] = zlen e.2.
Proof.
  intros [Ht Hl]. unfold push_ext. rewrite !be_encode_two. do 4 eexists. cbn [app]. split; [done|].
  rewrite <-!be_encode_two, !be_decode_u16; [done|unfold in_u16; pose proof (zlen_nonneg e.2); lia|done].
Qed.
Lemma take_ext (d rest : list byte) : take (Z.to_nat (zlen d)) (d ++ rest) = d.
Proof. unfold zlen. by rewrite Nat2Z.id, take_app_length. Qed.
Lemma drop_ext (d rest : list byte) : drop (Z.to_nat (zlen d)) (d ++ rest) = rest.
Proof. unfold zlen. by rewrite Nat2Z.id, drop_app_length. Qed.

Lemma ext_fits (d rest : list byte) : (zlen d <=? zlen (d ++ rest)) = true.
Proof. rewrite zlen_app. apply Z.leb_le. pose proof (zlen_nonneg rest). lia. Qed.

Definition key_share_of (e : Z * list byte) : option (list byte) :=
  if (e.1 =? 51) && (38 <=? zlen e.2) then key_share_entries (length e.2) (drop 2 e.2) else None.
Definition alpn_of (e : Z * list byte) : option (option (list byte)) :=
  if (e.1 =? 16) && (3 <=? zlen e.2) then first_alpn e.2 else None.

Lemma key_share_exts l : Forall ext_ok l -> forall fuel, (length l <= fuel)%nat ->
  key_share_loop fuel (exts_bytes l) = first_ext key_share_of l.
Proof.
  induction 1 as [|e l He _ IH]; intros [|fuel] Hf; cbn [length] in Hf; try lia; [done..|].
  unfold exts_bytes. cbn [map concat]. destruct (ext_cons e (exts_bytes l) He) as (t1 & t0 & l1 & l0 & E & Ht & Hl).
  unfold exts_bytes in E. rewrite E. cbn [key_share_loop]. rewrite Ht, Hl, take_ext, drop_ext.
  rewrite ext_fits, andb_true_r. fold (exts_bytes l). rewrite IH by lia. cbn [first_ext foldr].
  unfold key_share_of. by destruct ((e.1 =? 51) && (38 <=? zlen e.2)).
Qed.
Lemma alpn_exts l : Forall ext_ok l -> forall fuel, (length l <= fuel)%nat ->
  alpn_loop fuel (exts_bytes l) = default None (first_ext alpn_of l).
Proof.
  induction 1 as [|e l He _ IH]; intros [|fuel] Hf; cbn [length] in Hf; try lia; [done..|].
  unfold exts_bytes. cbn [map concat]. destruct (ext_cons e (exts_bytes l) He) as (t1 & t0 & l1 & l0 & E & Ht & Hl).
  unfold exts_bytes in E. rewrite E. cbn [alpn_loop]. rewrite Ht, Hl, take_ext, drop_ext.
  rewrite ext_fits, andb_true_r. fold (exts_bytes l). rewrite IH by lia. cbn [first_ext foldr].
  unfold alpn_of. destruct ((e.1 =? 16) && (3 <=? zlen e.2)); [|done]. by destruct (first_alpn e.2).
Qed.
Lemma length_exts l : (length l <= length (exts_bytes l))%nat.
Proof.
  induction l as [|e l IH]; [done|]. unfold exts_bytes in *. cbn [map concat length]. unfold push_ext at 1.
  rewrite !length_app, length_be_encode. lia.
Qed.
Lemma zlen_exts_bytes l : zlen (exts_bytes l) = foldr (fun e n => 4 + zlen e.2 + n) 0 l.
Proof.
  induction l as [|e l IH]; [done|]. unfold exts_bytes in *. cbn [map concat foldr]. unfold push_ext at 1.
  rewrite !zlen_app, !zlen_be, IH. lia.
Qed.

(** Two of the sixteen draws in four give a reserved value. *)
Lemma grease_values draw : grease16 draw ∈ [2570; 2827; 3598; 3855].
Proof.
  unfold grease16. set (b := Z.land draw 15).
  assert (Hb : 0 <= b < 16) by (unfold b; change 15 with (Z.ones 4); rewrite Z.land_ones by lia; by apply Z.mod_pos_bound).
  assert (Hall : forall q, (q < 16)%nat -> Z.lor 10 (Z.of_nat q) * 256 + Z.lor 10 (Z.of_nat q) ∈ [2570; 2827; 3598; 3855]).
  { intros q Hq. apply (bool_decide_eq_true_1 _). do 16 (destruct q as [|q]; [by vm_compute|]). lia. }
  specialize (Hall (Z.to_nat b) ltac:(lia)). by rewrite Z2Nat.id in Hall by lia.
Qed.

Section Built.
Variables (profile : Profile) (sni key_share : list byte) (d : HelloDraws).
Hypotheses (Hsni : zlen sni <= 60000) (Hks : zlen key_share = 32).

Lemma zlen_sni : zlen (encode_sni sni) = zlen sni + 5.
Proof. unfold encode_sni. rewrite !zlen_app, !zlen_be. change (zlen [x00]) with 1. lia. Qed.
Lemma zlen_key_share : zlen (encode_key_share key_share) = 38.
Proof. unfold encode_key_share. rewrite !zlen_app, !zlen_be, Hks. done. Qed.

Lemma client_exts_short : zlen (exts_bytes (client_exts profile sni key_share d)) <= zlen sni + 300.
Proof.
  pose proof zlen_sni as Hs. pose proof zlen_key_share as Hk.
  assert (Hal : zlen (encode_alpn alpn_list) = 14) by by vm_compute. assert (Hsa : zlen encode_sig_algs = 18) by by vm_compute.
  assert (Hgr : zlen encode_groups = 10) by by vm_compute.
  rewrite zlen_exts_bytes. destruct profile; unfold client_exts; cbn [app foldr fst snd];
    rewrite Hs, Hk, Hal, Hsa, Hgr; change (zlen []) with 0; change (zlen [x00]) with 1;
    change (zlen [x01; x01]) with 2; change (zlen [x04; x03; x04; x03; x03]) with 5; lia.
Qed.
Lemma client_exts_ok : Forall ext_ok (client_exts profile sni key_share d)
  /\ zlen (exts_bytes (client_exts profile sni key_share d)) < 2 ^ 16.
Proof.
  pose proof (grease_values (hd_g1 d)) as H1. pose proof (grease_values (hd_g2 d)) as H2.
  assert (Hg : forall v, v ∈ [2570; 2827; 3598; 3855] -> in_u16 v).
  { intros v Hv. unfold in_u16. repeat (apply elem_of_cons in Hv as [-> | Hv]; [lia|]). by apply elem_of_nil in Hv. }
  apply Hg in H1, H2. pose proof zlen_sni as Hs. pose proof zlen_key_share as Hk. pose proof (zlen_nonneg sni).
  assert (Hal : zlen (encode_alpn alpn_list) = 14) by by vm_compute. assert (Hsa : zlen encode_sig_algs = 18) by by vm_compute.
  assert (Hgr : zlen encode_groups = 10) by by vm_compute.
  split.
  - destruct profile; unfold client_exts; cbn [app]; repeat (apply Forall_cons; split); try apply Forall_nil;
      split; cbn [fst snd]; rewrite ?Hs, ?Hk, ?Hal, ?Hsa, ?Hgr; try done; unfold in_u16; try lia; by vm_compute.
  - pose proof client_exts_short. lia.
Qed.

Lemma key_share_entry : key_share_of (51, encode_key_share key_share) = Some key_share.
Proof.
  unfold key_share_of. cbn [fst snd]. rewrite zlen_key_share. change ((51 =? 51) && (38 <=? 38)) with true. cbn match.
  unfold encode_key_share. rewrite !be_encode_two. cbn [app drop length].
  assert (Hl : (32 <= length key_share)%nat) by (unfold zlen in Hks; lia).
  cbn [key_share_entries]. change (be_decode [u8 (Z.shiftr 29 8); u8 29]) with 29. change (be_decode [u8 (Z.shiftr 32 8); u8 32]) with 32.
  rewrite Hks. change (32 <? 32) with false. cbn. f_equal. apply take_ge. unfold zlen in Hks. lia.
Qed.
End Built.

Lemma first_ext_skip {A} (f : Z * list byte -> option A) e l : f e = None -> first_ext f (e :: l) = first_ext f l.
Proof. intros He. cbn. by rewrite He. Qed.
Lemma first_ext_here {A} (f : Z * list byte -> option A) e l a : f e = Some a -> first_ext f (e :: l) = Some a.
Proof. intros He. cbn. by rewrite He. Qed.
Lemma key_share_other t d : t <> 51 -> key_share_of (t, d) = None.
Proof. intros Ht. unfold key_share_of. cbn [fst]. by rewrite (proj2 (Z.eqb_neq _ _)). Qed.
Lemma alpn_other t d : t <> 16 -> alpn_of (t, d) = None.
Proof. intros Ht. unfold alpn_of. cbn [fst]. by rewrite (proj2 (Z.eqb_neq _ _)). Qed.
Lemma grease_other draw t : t < 2570 -> grease16 draw <> t.
Proof.
  intros Ht He. pose proof (grease_values draw) as Hg. rewrite He in Hg.
  repeat (apply elem_of_cons in Hg as [-> | Hg]; [lia|]). by apply elem_of_nil in Hg.
Qed.

Lemma client_exts_values profile sni key_share d : zlen key_share = 32 ->
  first_ext key_share_of (client_exts profile sni key_share d) = Some key_share
  /\ first_ext alpn_of (client_exts profile sni key_share d) = Some (Some (str "h2")).
Proof.
  intros Hks. pose proof (grease_other (hd_g1 d) 51 ltac:(lia)) as G1. pose proof (grease_other (hd_g1 d) 16 ltac:(lia)) as G2.
  split; destruct profile; unfold client_exts; cbn [app].
  1-6: repeat (rewrite first_ext_skip by (apply key_share_other; done || lia)); by apply first_ext_here, key_share_entry.
  all: repeat (rewrite first_ext_skip by (apply alpn_other; done || lia)); by apply first_ext_here.
Qed.

Record draws_wf (d : HelloDraws) : Prop := {
  dw_random : zlen (hd_random d) = 32;
  dw_session_id : zlen (hd_session_id d) = 32;
}.
Lemma client_ciphers_ok profile : Forall in_u16 (client_ciphers profile) /\ zlen (client_ciphers profile) < 2 ^ 15
  /\ head (filter (fun pref => pref ∈ client_ciphers profile) PREFERENCE) = Some 4865.
Proof.
  split_and!; [|destruct profile; by vm_compute..].
  destruct profile; repeat (constructor; [unfold in_u16; lia|]); constructor.
Qed.

(** The server's view of a ClientHello.  Whatever browser is imitated, and whatever is
    drawn, the record a client builds has its random and its session id where the
    readers look for them, and they find in it the client's key, the protocol [h2]
    and the suite TLS_AES_128_GCM_SHA256. *)
Lemma client_hello_read profile sni key_share d : zlen sni <= 60000 -> zlen key_share = 32 -> draws_wf d ->
  let hello := build_client_hello profile sni key_share d in
  hello_layout hello = Some (mkHelloLayout 11 44)
  /\ client_hello_random hello = Some (hd_random d)
  /\ slice_at hello 44 32 = Ok (hd_session_id d)
  /\ parse_client_hello_key_share hello = Ok (Some key_share)
  /\ parse_client_hello_alpn hello = Ok (Some (str "h2"))
  /\ pick_client_tls13_cipher hello = Ok (Some 4865).
Proof.
  intros Hsni Hks [Hr Hs] hello. destruct (client_exts_ok profile sni key_share d Hsni Hks) as [Hok Hlen].
  destruct (client_ciphers_ok profile) as (Hc & Hnc & Hpick). destruct (client_exts_values profile sni key_share d Hks) as [Hk Ha].
  unfold hello, build_client_hello, build_client_hello_with_ciphers. split_and!.
  - by apply hello_layout_record.
  - by apply random_record.
  - by apply session_id_record.
  - unfold parse_client_hello_key_share. rewrite extensions_record by done. cbn [mbind result_bind option_bind].
    rewrite key_share_exts by (done || apply length_exts). by rewrite Hk.
  - unfold parse_client_hello_alpn. rewrite extensions_record by done. cbn [mbind result_bind option_bind].
    rewrite alpn_exts by (done || apply length_exts). by rewrite Ha.
  - rewrite cipher_record by done. by rewrite Hpick.
Qed.
Lemma client_hello_id profile sni key_share d : zlen sni <= 60000 -> zlen key_share = 32 -> draws_wf d ->
  index (build_client_hello profile sni key_share d) 43 = Ok x20.
Proof.
  intros Hsni Hks [Hr Hs]. destruct (client_exts_ok profile sni key_share d Hsni Hks) as [_ Hlen].
  unfold build_client_hello, build_client_hello_with_ciphers. by apply session_id_record.
Qed.

(** ** Sessions *)

Lemma hello_layout_inv record layout : hello_layout record = Some layout ->
  layout = mkHelloLayout 11 44 /\ 50 <= zlen record.
Proof.
  unfold hello_layout. destruct (zlen record <? 50) eqn:E; [done|]. bool_props.
  destruct (negb _); [done|]. destruct (negb _); [done|]. by intros [= <-].
Qed.
Lemma index_drop5 (record : list byte) i : 0 <= i -> index (drop 5 record) i = index record (i + 5).
Proof.
  intros Hi. unfold index. rewrite lookup_drop. by replace (5 + Z.to_nat i)%nat with (Z.to_nat (i + 5)) by lia.
Qed.

(** On a record long enough the readers do not panic, and extensions are behind a
    session id that is there. *)
Lemma extensions_safe record : 50 <= zlen record ->
  match client_hello_extensions record with
  | Ok (Some _) => exists sid, index record 43 = Ok sid /\ 46 + bz sid <= zlen record
  | Ok None => True
  | _ => False
  end.
Proof.
  intros Hr. unfold client_hello_extensions, hello_front.
  rewrite (proj2 (Z.ltb_ge _ _)) by lia. destruct (negb _); [done|]. case_bool_decide; [|done].
  rewrite index_drop5 by lia. destruct (index_ok record (4 + 2 + 32 + 5)) as [sid Hsid]; [lia|]. rewrite Hsid.
  cbn [mbind result_bind]. pose proof (bz_range sid).
  assert (Hz : zlen (drop 5 record) = zlen record - 5) by (unfold zlen in *; rewrite length_drop; lia).
  destruct (zlen (drop 5 record) <? 39 + bz sid + 2) eqn:E1; [done|]. bool_props.
  destruct (u16_at_ok (drop 5 record) (39 + bz sid)) as (cl & -> & Hcl); [lia..|]. cbn [mbind result_bind].
  destruct (_ <=? _) eqn:E2; [done|]. bool_props.
  destruct (index_ok (drop 5 record) (39 + bz sid + (2 + cl))) as [cm ->]; [lia|]. cbn [mbind result_bind].
  pose proof (bz_range cm). destruct (zlen (drop 5 record) <? _) eqn:E3; [done|]. bool_props.
  match goal with |- context [u16_at ?l ?i] => destruct (u16_at_ok l i) as (el & -> & Hel); [lia..|] end.
  cbn [mbind result_bind]. destruct (slice_get _ _ _); [|done]. exists sid. split; [done|lia].
Qed.
Lemma pick_safe record : 50 <= zlen record -> is_panic (pick_client_tls13_cipher record) = false.
Proof.
  intros Hr. unfold pick_client_tls13_cipher, hello_front.
  rewrite (proj2 (Z.ltb_ge _ _)) by lia. destruct (negb _); [done|]. case_bool_decide; [|done].
  rewrite index_drop5 by lia. destruct (index_ok record (4 + 2 + 32 + 5)) as [sid Hsid]; [lia|]. rewrite Hsid.
  cbn [mbind result_bind]. pose proof (bz_range sid).
  destruct (zlen (drop 5 record) <? 39 + bz sid + 2) eqn:E1; [done|]. bool_props.
  by destruct (u16_at_ok (drop 5 record) (39 + bz sid)) as (cl & -> & Hcl); [lia..|].
Qed.

Section SessionFacts.
Context `{RealityCrypto}.

(** What the server has learned when it takes a client for one of its own. *)
Definition authentic (record private_key : list byte) (short_ids : list (list byte)) (max_time_diff now : Z)
    (vs : VerifiedSession) : Prop :=
  exists random plain,
    client_hello_random record = Some random
    /\ parse_client_hello_key_share record = Ok (Some (vs_client_pub vs))
    /\ vs_auth_key vs = reality_auth_key random (x_dh private_key (vs_client_pub vs))
    /\ slice_at record 44 32
       = Ok (gcm256_seal (vs_auth_key vs) (drop 20 random) plain (drop 5 (zero_session_id record (mkHelloLayout 11 44))))
    /\ abs_diff now (be_decode (take 4 (drop 4 plain))) <= (if max_time_diff =? 0 then 120 else max_time_diff)
    /\ exists allowed, allowed ∈ short_ids /\ short_id_matches allowed (take 8 (drop 8 plain)) = true.

Lemma slice_at_take (l : list byte) o n : 0 <= o -> 0 <= n -> o + n <= zlen l ->
  slice_at l o n = Ok (take (Z.to_nat n) (drop (Z.to_nat o) l)).
Proof.
  intros Ho Hn Hl. destruct (slice_at_ok l o n) as [d Hd]; [lia..|]. rewrite Hd. f_equal.
  pose proof (slice_get_at l o n d Ho Hn Hd) as Hg. unfold slice_get in Hg. rewrite (proj2 (Z.ltb_ge _ _)) in Hg by lia.
  by injection Hg as <-.
Qed.

Lemma validate_inv plain short_ids max_time_diff now : 16 <= zlen plain ->
  match validate_session_plain plain short_ids max_time_diff now with
  | Ok _ => abs_diff now (be_decode (take 4 (drop 4 plain))) <= (if max_time_diff =? 0 then 120 else max_time_diff)
            /\ exists allowed, allowed ∈ short_ids /\ short_id_matches allowed (take 8 (drop 8 plain)) = true
  | Err _ => True
  | Panic _ => False
  end.
Proof.
  intros Hp. unfold validate_session_plain. rewrite !slice_at_take by lia. cbn [mbind result_bind].
  destruct (_ <? _) eqn:E; [done|]. bool_props. destruct (existsb _ _) eqn:Ex; [|done]. split; [exact E|].
  apply existsb_exists in Ex as (a & Ha & Hm). exists a. split; [by apply list_elem_of_In|done].
Qed.

(** Who passes for a REALITY client.  Verification never panics, whatever the record; it
    accepts only a record whose session id was sealed, over the whole ClientHello with
    that id blanked, under the key that the server's secret and the client's key share
    give; and what was sealed is fresh and carries an allowed short id. *)
Lemma verify_session_sound record private_key short_ids max_time_diff now :
  match verify_reality_session record private_key short_ids max_time_diff now with
  | Ok vs => authentic record private_key short_ids max_time_diff now vs /\ vs_client_hello vs = record
  | Err _ => True
  | Panic _ => False
  end.
Proof.
  unfold verify_reality_session.
  destruct (hello_layout record) as [layout|] eqn:El; cbn [ok_or mbind result_bind]; [|done].
  apply hello_layout_inv in El as [-> Hr].
  destruct (client_hello_random record) as [random|] eqn:Er; cbn [ok_or mbind result_bind]; [|done].
  pose proof (extensions_safe record Hr) as Hs.
  destruct (parse_client_hello_key_share record) as [[client_pub|]|?|?] eqn:Ek; cbn [mbind result_bind ok_or]; [|done|done|];
    pose proof Ek as Ek'; unfold parse_client_hello_key_share in Ek';
    destruct (client_hello_extensions record) as [[exts|]|?|?]; cbn [mbind result_bind option_bind ok_or] in Ek'; try done.
  destruct Hs as (sid & Hsid & Hlen).
  pose proof (pick_safe record Hr) as Hp. destruct (pick_client_tls13_cipher record) as [[c|]|?|?]; cbn [ok_or mbind result_bind]; [|done..].
  cbn [session_id_offset]. change (44 - 1) with 43. rewrite Hsid. cbn [mbind result_bind].
  destruct (bz sid =? 32) eqn:E32; cbn [negb]; [|done]. bool_props.
  rewrite (slice_at_take record 44 32) by lia. cbn [mbind result_bind].
  destruct (gcm256_open _ _ _ _) as [plain|] eqn:Eo; cbn [ok_or mbind result_bind]; [|done]. apply gcm256_seal_open in Eo.
  destruct (zlen plain <? 16) eqn:Ep; [done|]. bool_props.
  pose proof (validate_inv plain short_ids max_time_diff now Ep) as Hv.
  destruct (validate_session_plain _ _ _ _) as [[]|?|?]; cbn [mbind result_bind]; [|done..].
  split; [|done]. exists random, plain. cbn [vs_auth_key vs_client_pub]. split_and!; [done|exact Ek|done| |apply Hv|apply Hv].
  rewrite (slice_at_take record 44 32) by lia. by rewrite Eo.
Qed.
End SessionFacts.

(** An empty short id among the allowed ones lets every short id in. *)
Lemma short_id_wildcard sid : short_id_matches (replicate 8 x00) sid = true.
Proof. unfold short_id_matches. do 8 (destruct sid as [|? sid]; [done|]; cbn). done. Qed.

Section Accepted.
Context `{RealityCrypto}.
Variables (profile : Profile) (sni key_share : list byte) (d : HelloDraws).
Hypotheses (Hsni : zlen sni <= 60000) (Hks : zlen key_share = 32) (Hd : draws_wf d).

Definition with_session_id (new : list byte) : HelloDraws :=
  mkHelloDraws (hd_g1 d) (hd_g2 d) (hd_random d) new.
Lemma overwrite_hello new : zlen new = 32 ->
  overwrite (build_client_hello profile sni key_share d) 44 new
  = build_client_hello profile sni key_share (with_session_id new).
Proof.
  intros Hn. destruct (client_exts_ok profile sni key_share d Hsni Hks) as [_ Hlen].
  unfold build_client_hello, build_client_hello_with_ciphers. apply overwrite_record; [apply Hd..|done].
Qed.
Lemma with_session_id_wf new : zlen new = 32 -> draws_wf (with_session_id new).
Proof. intros Hn. split; [apply Hd|done]. Qed.
End Accepted.

Lemma session_plain_valid ver ts short_id short_ids max_time_diff now :
  zlen short_id = 8 ->
  abs_diff now (u32 ts) <= (if max_time_diff =? 0 then 120 else max_time_diff) ->
  (exists allowed, allowed ∈ short_ids /\ short_id_matches allowed short_id = true) ->
  zlen (session_plain ver ts short_id) = 16
  /\ validate_session_plain (session_plain ver ts short_id) short_ids max_time_diff now = Ok tt.
Proof.
  intros Hid Hts (allowed & Hal & Hm).
  assert (H1 : slice_at (session_plain ver ts short_id) 4 4 = Ok (be_encode 4 (u32 ts)))
    by (apply slice_at_app_eq; [done|apply zlen_be]).
  assert (H2 : slice_at (session_plain ver ts short_id) 8 8 = Ok short_id).
  { unfold session_plain. rewrite app_assoc, <-(app_nil_r (_ ++ short_id)), <-app_assoc.
    apply slice_at_app_eq; [by rewrite zlen_app, zlen_be|done]. }
  split; [unfold session_plain; rewrite !zlen_app, zlen_be, Hid; done|].
  unfold validate_session_plain. rewrite H1, H2. cbn [mbind result_bind].
  rewrite be_decode_encode by (unfold u32, wrap; by apply Z.mod_pos_bound).
  rewrite (proj2 (Z.ltb_ge _ _)) by exact Hts.
  rewrite (proj2 (existsb_exists _ _)); [done|]. exists allowed. split; [by apply list_elem_of_In|done].
Qed.

(** REALITY clients are recognised.  For every browser profile, the session id a client
    seals with the server's public key is accepted by the server that has the private
    one, when the clocks agree and the short id is allowed: both sides then hold the
    same authentication key, and the server has read the client's key share. *)
Lemma session_accepted `{RealityCrypto} profile sni secret private_key short_id short_ids ver ts
    max_time_diff now d :
  zlen sni <= 60000 -> length secret = 32%nat -> draws_wf d -> zlen short_id = 8 ->
  abs_diff now (u32 ts) <= (if max_time_diff =? 0 then 120 else max_time_diff) ->
  (exists allowed, allowed ∈ short_ids /\ short_id_matches allowed short_id = true) ->
  let hello := build_client_hello profile sni (x_public secret) d in
  exists d' auth_key, let hello' := build_client_hello profile sni (x_public secret) d' in
    draws_wf d' /\ patch_reality_session secret hello (x_public private_key) short_id ver ts = Ok (hello', auth_key)
    /\ verify_reality_session hello' private_key short_ids max_time_diff now
       = Ok (mkVerifiedSession auth_key hello' (x_public secret) 4865).
Proof.
  intros Hsni Hsec Hd Hid Hts Hsi hello.
  assert (Hks : zlen (x_public secret) = 32) by (unfold zlen; by rewrite x_public_length).
  destruct (session_plain_valid ver ts short_id short_ids max_time_diff now Hid Hts Hsi) as [Hpl Hval].
  destruct (client_hello_read profile sni (x_public secret) d Hsni Hks Hd) as (Hl & Hr & _). fold hello in Hl, Hr.
  pose proof (overwrite_hello profile sni (x_public secret) d Hsni Hks Hd) as Hov. fold hello in Hov.
  set (auth_key := reality_auth_key (hd_random d) (x_dh secret (x_public private_key))).
  set (zeroed := build_client_hello profile sni (x_public secret) (with_session_id d (replicate 32 x00))).
  assert (Hz : zero_session_id hello (mkHelloLayout 11 44) = zeroed) by (by apply Hov).
  set (sealed := gcm256_seal auth_key (drop 20 (hd_random d)) (session_plain ver ts short_id) (drop 5 zeroed)).
  assert (Hse : zlen sealed = 32) by (unfold sealed, zlen in *; rewrite gcm256_seal_length; lia).
  assert (Hd' : draws_wf (with_session_id d sealed)) by by apply with_session_id_wf.
  set (hello' := build_client_hello profile sni (x_public secret) (with_session_id d sealed)).
  exists (with_session_id d sealed), auth_key. split; [exact Hd'|]. fold hello'. split.
  - unfold patch_reality_session. rewrite Hl. cbn [ok_or mbind result_bind]. rewrite Hr. cbn [ok_or mbind result_bind session_id_offset].
    rewrite Hz. fold auth_key. fold sealed. rewrite Hse. cbn [Z.eqb negb]. do 2 f_equal.
    unfold zeroed. rewrite overwrite_hello by (done || by apply with_session_id_wf). done.
  - destruct (client_hello_read profile sni (x_public secret) _ Hsni Hks Hd') as (Hl' & Hr' & Hs' & Hk' & _ & Hc').
    fold hello' in Hl', Hr', Hs', Hk', Hc'. unfold verify_reality_session.
    rewrite Hl'. cbn [ok_or mbind result_bind]. rewrite Hr', Hk'. cbn [ok_or mbind result_bind]. rewrite Hc'.
    cbn [ok_or mbind result_bind session_id_offset]. change (44 - 1) with 43.
    assert (H43 : index hello' 43 = Ok x20) by by apply client_hello_id.
    rewrite H43. cbn [mbind result_bind].
    change (negb (bz x20 =? 32)) with false. cbn match. rewrite Hs'. cbn [mbind result_bind hd_random hd_session_id with_session_id].
    rewrite (x_dh_agree private_key secret). fold auth_key.
    replace (zero_session_id hello' _) with zeroed
      by (unfold zero_session_id, hello'; cbn [session_id_offset]; by rewrite overwrite_hello by (done || by apply with_session_id_wf)).
    unfold sealed at 1. rewrite gcm256_open_seal. cbn [ok_or mbind result_bind]. rewrite Hpl. change (16 <? 16) with false. cbn match.
    by rewrite Hval.
Qed.

(** ** Instances *)

(** Functions that satisfy the laws, for the examples. *)
Definition toy_seal (k n m aad : list byte) : list byte := m ++ replicate 16 x00.
Definition toy_unseal (k n c aad : list byte) : option (list byte) :=
  if bool_decide (16 <= length c)%nat && bool_decide (drop (length c - 16) c = replicate 16 x00)
  then Some (take (length c - 16) c) else None.
Lemma toy_unseal_seal k n m aad : toy_unseal k n (toy_seal k n m aad) aad = Some m.
Proof.
  unfold toy_unseal, toy_seal. rewrite length_app, length_replicate.
  replace (length m + 16 - 16)%nat with (length m) by lia. rewrite drop_app_length, take_app_length.
  by rewrite !bool_decide_eq_true_2 by (done || lia).
Qed.
Lemma toy_seal_unseal k n c aad m : toy_unseal k n c aad = Some m -> c = toy_seal k n m aad.
Proof.
  unfold toy_unseal, toy_seal. destruct (_ && _) eqn:E; [|done]. apply andb_prop in E as [_ Hd].
  apply bool_decide_eq_true in Hd. intros [= <-]. by rewrite <-Hd, take_drop.
Qed.
Lemma bxor_comm a b : bxor a b = bxor b a.
Proof. unfold bxor. by rewrite Z.lxor_comm. Qed.
Definition toy_reality : RealityCrypto.
Proof.
  refine {| x_public := id; x_dh := zip_with bxor; hkdf_sha256 := fun _ ikm _ n => take n (ikm ++ replicate n x00);
            gcm256_seal := toy_seal; gcm256_open := toy_unseal |}.
  - done.
  - intros a b. unfold id. revert b. induction a as [|x a IH]; intros [|y b]; [done..|]. cbn. by rewrite bxor_comm, IH.
  - intros k n m aad. unfold toy_seal. by rewrite length_app, length_replicate.
  - apply toy_unseal_seal.
  - apply toy_seal_unseal.
Defined.
Definition demo_hello_draws : HelloDraws := mkHelloDraws 3 9 (replicate 32 x0d) (replicate 32 x0e).
