(* ===== verification/Tls13.v ===== *)
(** * TLS 1.3 by hand, and the REALITY handshake

    [rsb-protocol/src/utls/tls13.rs] (key schedule, records, the client's handshake, the
    server's of its module [server], and the streams that follow), with
    [reality_cert.rs] (the certificate a REALITY server makes up and its check).

    Hashes, HMAC, AES-GCM and Ed25519 come from external crates: the class
    [TlsCrypto], over [RealityCrypto] of [Hello].  A handshake is a function of the
    bytes the peer sends; the two seconds a server waits for the client's Finished are
    taken to be enough.  The streams run on the arrivals of [Vless]. *)
From stdpp Require Import base tactics gmap list strings.
From Stdlib Require Import ZArith Lia.
From Stdlib Require Import Strings.Byte.
From S2P Require Import Prelude Json Text DnsWire Codec Sniff Vless Hello.

Local Open Scope Z_scope.

Inductive Tls13Hash := Sha256 | Sha384.
Definition hash_len (hash : Tls13Hash) : nat := match hash with Sha256 => 32 | Sha384 => 48 end.

Class TlsCrypto `{RealityCrypto} := {
  digest : Tls13Hash -> list byte -> list byte;
  hmac_with : Tls13Hash -> list byte -> list byte -> list byte;
  hmac_sha512 : list byte -> list byte -> list byte;
  gcm128_seal : list byte -> list byte -> list byte -> list byte -> list byte;
  gcm128_open : list byte -> list byte -> list byte -> list byte -> option (list byte);
  ed25519_public : list byte -> list byte;
  ed25519_sign : list byte -> list byte -> list byte;
  hmac_with_length : forall h k m, length (hmac_with h k m) = hash_len h;
  hmac_sha512_length : forall k m, length (hmac_sha512 k m) = 64%nat;
  gcm128_seal_length : forall k n m aad, length (gcm128_seal k n m aad) = (length m + 16)%nat;
  gcm128_open_seal : forall k n m aad, gcm128_open k n (gcm128_seal k n m aad) aad = Some m;
  ed25519_public_length : forall s, length (ed25519_public s) = 32%nat;
  ed25519_sign_length : forall s m, length (ed25519_sign s m) = 64%nat;
}.

Definition TLS13_AES_128_GCM_SHA256 : Z := 4865.
Definition TLS13_AES_256_GCM_SHA384 : Z := 4866.

Section Tls.
Context `{TlsCrypto}.

(** ** Records *)

Inductive Tls13Cipher :=
| Aes128 (key : list byte)
| Aes256 (key : list byte).
Definition aead_seal (c : Tls13Cipher) (nonce plain aad : list byte) : list byte :=
  match c with Aes128 k => gcm128_seal k nonce plain aad | Aes256 k => gcm256_seal k nonce plain aad end.
Definition aead_open (c : Tls13Cipher) (nonce enc aad : list byte) : option (list byte) :=
  match c with Aes128 k => gcm128_open k nonce enc aad | Aes256 k => gcm256_open k nonce enc aad end.
(** [new_from_slice]: the key must have the length of the cipher. *)
Definition aes128_new (key : list byte) : result Tls13Cipher :=
  if zlen key =? 16 then Ok (Aes128 key) else Err "invalid length".
Definition aes256_new (key : list byte) : result Tls13Cipher :=
  if zlen key =? 32 then Ok (Aes256 key) else Err "invalid length".

Definition record_nonce (base_iv : list byte) (seq : Z) : list byte :=
  take 4 base_iv ++ zip_with bxor (drop 4 base_iv) (be_encode 8 seq).
Definition decrypt_record (c : Tls13Cipher) (base_iv : list byte) (seq : Z) (aad enc : list byte) : result (list byte) :=
  ok_or "decrypt: aead::Error" (aead_open c (record_nonce base_iv seq) enc aad).
Definition record_header (ct_len : Z) : list byte :=
  [x17; x03; x03; u8 (Z.shiftr ct_len 8); u8 (Z.land ct_len 255)].
Definition encrypt_record (c : Tls13Cipher) (base_iv : list byte) (seq : Z) (plain : list byte) : list byte :=
  let hdr := record_header (zlen plain + 16) in
  hdr ++ aead_seal c (record_nonce base_iv seq) plain hdr.
(** The comment names handshake as the inner type; the byte written is that of
    application data. *)
Definition encrypt_handshake (c : Tls13Cipher) (base_iv : list byte) (seq : Z) (inner : list byte) : list byte :=
  encrypt_record c base_iv seq (inner ++ [x17]).

Definition read_tls_record (s : list byte) : result (list byte * list byte) :=
  '(hdr, s) ← read_exact 5 s;
  len ← u16_at hdr 3;
  '(body, s) ← read_exact len s;
  Ok (hdr ++ body, s).

(** [read_exact] with what is left of the stream, also when it ends too early. *)
Definition take_exact (n : Z) (s : list byte) : option (list byte) * list byte :=
  if zlen s <? n then (None, []) else (Some (take (Z.to_nat n) s), drop (Z.to_nat n) s).
(** Records of type [change_cipher_spec] are passed over.  The contents, their type and
    the next sequence number; and what is left of the stream. *)
Fixpoint read_encrypted_record (fuel : nat) (c : Tls13Cipher) (base_iv : list byte) (seq : Z) (s : list byte)
  : result (list byte * byte * Z) * list byte :=
  match fuel with
  | O => (Err "early eof", s)
  | S fuel =>
      match take_exact 5 s with
      | (Some [t; _; _; hi; lo] as hdr, s) =>
          match take_exact (be_decode [hi; lo]) s with
          | (Some enc, s) =>
              if bool_decide (t = x14) then read_encrypted_record fuel c base_iv seq s
              else
                (plain ← decrypt_record c base_iv seq (default [] hdr) enc;
                 Ok (take (length plain - 1) plain, default x16 (last plain), u64 (seq + 1)), s)
          | (None, s) => (Err "early eof", s)
          end
      | (_, s) => (Err "early eof", s)
      end
  end.

(** ** Handshake messages *)

(** The length in the three bytes behind a type. *)
Definition msg_len (a b c : byte) : Z := be_decode [a; b; c].
Fixpoint handshake_contains (fuel : nat) (msgs : list byte) (msg_type : byte) : bool :=
  match fuel, msgs with
  | S fuel, t :: a :: b :: c :: rest =>
      if bool_decide (t = msg_type) then true
      else if zlen rest <? msg_len a b c then false
      else handshake_contains fuel (drop (Z.to_nat (msg_len a b c)) rest) msg_type
  | _, _ => false
  end.
Definition msgs_contain (msgs : list byte) (msg_type : byte) : bool := handshake_contains (length msgs) msgs msg_type.

Definition emit_middlebox_ccs : list byte := [x14; x03; x03; x00; x01; x01].

(** Each message in a record of its own. *)
Fixpoint write_encrypted_handshake (fuel : nat) (c : Tls13Cipher) (base_iv : list byte) (seq : Z) (inner : list byte)
  : list byte :=
  match fuel, inner with
  | S fuel, t :: a :: b :: d :: rest =>
      let len := msg_len a b d in
      if zlen rest <? len then []
      else encrypt_handshake c base_iv seq (t :: a :: b :: d :: take (Z.to_nat len) rest)
           ++ write_encrypted_handshake fuel c base_iv (u64 (seq + 1)) (drop (Z.to_nat len) rest)
  | _, _ => []
  end.
Definition write_handshake_msgs (c : Tls13Cipher) (base_iv inner : list byte) : list byte :=
  write_encrypted_handshake (length inner) c base_iv 0 inner.
Definition write_encrypted_handshake_combined (c : Tls13Cipher) (base_iv inner : list byte) : list byte :=
  encrypt_handshake c base_iv 0 inner.

(** ** Key schedule *)

Definition transcript_hash (hash : Tls13Hash) (transcript : list byte) : list byte := digest hash transcript.
Definition hkdf_extract (hash : Tls13Hash) (salt ikm : list byte) : list byte := hmac_with hash salt ikm.
Fixpoint hkdf_blocks (fuel : nat) (hash : Tls13Hash) (prk info : list byte) (len : nat) (t out : list byte) (counter : Z)
  : list byte :=
  match fuel with
  | O => out
  | S fuel =>
      if (length out <? len)%nat then
        let block := hmac_with hash prk (t ++ info ++ [u8 counter]) in
        hkdf_blocks fuel hash prk info len block (out ++ block) (counter + 1)
      else out
  end.
Definition hkdf_expand (hash : Tls13Hash) (prk info : list byte) (len : nat) : list byte :=
  take len (hkdf_blocks (S len) hash prk info len [] [] 1).
Definition expand_label (hash : Tls13Hash) (secret : list byte) (label : string) (context : list byte) (len : nat) : list byte :=
  let full_label := str "tls13 " ++ str label in
  let hkdf_label := be_encode 2 (Z.of_nat len) ++ [u8 (zlen full_label)] ++ full_label ++ [u8 (zlen context)] ++ context in
  hkdf_expand hash secret hkdf_label len.

Record HandshakeKeys := mkHandshakeKeys {
  hk_read_key : list byte;
  hk_read_iv : list byte;
  hk_write_key : list byte;
  hk_write_iv : list byte;
  hk_client_secret : list byte;
  hk_hs_secret : list byte;
}.
Definition traffic_keys (hash : Tls13Hash) (client_secret server_secret hs_secret : list byte) (key_len : nat) : HandshakeKeys :=
  mkHandshakeKeys (expand_label hash server_secret "key" [] key_len) (expand_label hash server_secret "iv" [] 12)
    (expand_label hash client_secret "key" [] key_len) (expand_label hash client_secret "iv" [] 12)
    client_secret hs_secret.
Definition derive_handshake_keys (hash : Tls13Hash) (shared transcript_hash : list byte) (key_len : nat) : HandshakeKeys :=
  let zero := replicate (hash_len hash) x00 in
  let early := hkdf_extract hash (digest hash []) zero in
  let derived := expand_label hash early "derived" [] (hash_len hash) in
  let hs_secret := hkdf_extract hash derived shared in
  traffic_keys hash (expand_label hash hs_secret "c hs traffic" transcript_hash 32)
    (expand_label hash hs_secret "s hs traffic" transcript_hash 32) hs_secret key_len.
Definition derive_application_keys (hash : Tls13Hash) (hs_secret transcript : list byte) (key_len : nat) : HandshakeKeys :=
  let th := transcript_hash hash transcript in
  traffic_keys hash (expand_label hash hs_secret "c ap traffic" th 32)
    (expand_label hash hs_secret "s ap traffic" th 32) hs_secret key_len.
Definition build_finished (hash : Tls13Hash) (hs_secret transcript : list byte) : list byte :=
  let th := transcript_hash hash transcript in
  let finished_key := expand_label hash hs_secret "finished" [] 32 in
  [x14; x00; x00; x20] ++ take 32 (hmac_with hash finished_key th).

Definition cipher_key_len (cipher : Z) : nat := if cipher =? TLS13_AES_256_GCM_SHA384 then 32%nat else 16%nat.
Definition cipher_hash (cipher : Z) : Tls13Hash := if cipher =? TLS13_AES_256_GCM_SHA384 then Sha384 else Sha256.
Definition suite_cipher (cipher : Z) (key : list byte) : result Tls13Cipher :=
  if cipher =? TLS13_AES_128_GCM_SHA256 then aes128_new key
  else if cipher =? TLS13_AES_256_GCM_SHA384 then aes256_new key
  else Err "unsupported cipher suite".

(** ** The certificate *)

Definition ED25519_OID : list byte := [x06; x03; x2b; x65; x70].
Definition verify_reality_cert (auth_key ed25519_pub signature : list byte) : bool :=
  if negb (zlen signature =? 64) || negb (zlen ed25519_pub =? 32) then false
  else bool_decide (hmac_sha512 auth_key ed25519_pub = signature).

(** A bit string at the front of [der] with at least [least] bytes of contents; the
    [n] bytes behind its count of unused bits, as the code skips those. *)
Definition bit_string (least n : Z) (der : list byte) : option (list byte) :=
  match der with
  | x03 :: len :: unused :: rest =>
      if (bz len <=? 1 + zlen rest) && (least <=? bz len) && (bz unused + n <=? zlen rest)
      then Some (take (Z.to_nat n) (drop (Z.to_nat (bz unused)) rest)) else None
  | _ => None
  end.
(** The loop over [j]: while three bytes are left. *)
Fixpoint find_key (der : list byte) : option (list byte) :=
  match der with
  | [] => None
  | _ :: der' =>
      if zlen der <? 3 then None
      else match bit_string 33 32 der with Some k => Some k | None => find_key der' end
  end.
Fixpoint find_ed25519_pubkey (der : list byte) : option (list byte) :=
  match der with
  | [] => None
  | _ :: der' =>
      if zlen der <=? 5 then None
      else if starts_with der ED25519_OID then
        match find_key (drop 5 der) with Some k => Some k | None => find_ed25519_pubkey der' end
      else find_ed25519_pubkey der'
  end.
(** The loop over [i]: while four bytes are left. *)
Fixpoint find_signature (der : list byte) : option (list byte) :=
  match der with
  | [] => None
  | _ :: der' =>
      if zlen der <? 4 then None
      else match bit_string 64 64 der with Some k => Some k | None => find_signature der' end
  end.
Definition find_certificate_signature (der : list byte) : option (list byte) :=
  if zlen der <? 70 then None
  else
    match find_signature (drop (length der - 80) der) with
    | Some s => Some s
    | None => Some (drop (length der - 64) der)
    end.
Definition parse_reality_cert_parts (cert : list byte) : option (list byte * list byte) :=
  pubkey ← find_ed25519_pubkey cert;
  signature ← find_certificate_signature cert;
  Some (pubkey, signature).

(** The 220 bytes, in the order of their positions. *)
Definition build_reality_cert_der (auth_key pubkey : list byte) : list byte :=
  [x30; x82; x00; x00; x30] ++ replicate 15 x00 ++ ED25519_OID ++ [x03; x21; x00] ++ pubkey
  ++ replicate 90 x00 ++ [x03; x41; x00] ++ take 64 (hmac_sha512 auth_key pubkey) ++ replicate 3 x00.
Definition wrap_tls_cert_handshake (cert_der : list byte) : list byte :=
  let entry := be_encode 3 (zlen cert_der) ++ cert_der ++ [x00; x00] in
  let body := [x00] ++ be_encode 3 (zlen entry) ++ entry in
  [x0b] ++ be_encode 3 (zlen body) ++ body.
(** From the seed of the key pair. *)
Definition cert_message (auth_key seed : list byte) : list byte :=
  wrap_tls_cert_handshake (build_reality_cert_der auth_key (ed25519_public seed)).
Definition build_encrypted_extensions (alpn : option (list byte)) : list byte :=
  match alpn with
  | None => [x08; x00; x00; x00]
  | Some proto =>
      let ext := [x00; x10] ++ be_encode 2 (2 + 1 + zlen proto) ++ be_encode 2 (1 + zlen proto)
                 ++ [u8 (zlen proto)] ++ proto in
      [x08] ++ be_encode 3 (zlen ext) ++ ext
  end.

(** The first certificate message decides. *)
Fixpoint verify_certificate_loop (fuel : nat) (msgs auth_key : list byte) : result unit :=
  match fuel, msgs with
  | S fuel, t :: a :: b :: c :: rest =>
      if bool_decide (rest = []) then Err "reality: certificate message missing"
      else if zlen rest <? msg_len a b c then Err "reality: certificate message missing"
      else
        let next := verify_certificate_loop fuel (drop (Z.to_nat (msg_len a b c)) rest) auth_key in
        if bool_decide (t = x0b) then
          match parse_reality_cert_parts (take (Z.to_nat (msg_len a b c)) rest) with
          | Some (pubkey, sig) =>
              if verify_reality_cert auth_key pubkey sig then Ok tt
              else Err "reality certificate HMAC verification failed"
          | None => next
          end
        else next
  | _, _ => Err "reality: certificate message missing"
  end.
Definition verify_reality_certificate (msgs auth_key : list byte) : result unit :=
  verify_certificate_loop (length msgs) msgs auth_key.

(** ** ServerHello *)

Fixpoint server_key_share (fuel : nat) (hs : list byte) (i end_ : Z) : result (option (list byte)) :=
  match fuel with
  | O => Ok None
  | S fuel =>
      if (i + 4 <=? end_) && (i + 4 <=? zlen hs) then
        ext_type ← u16_at hs i;
        ext_data_len ← u16_at hs (i + 2);
        let i := i + 4 in
        ext_data ← ok_or "server hello extension truncated" (slice_get hs i ext_data_len);
        let next := server_key_share fuel hs (i + ext_data_len) end_ in
        if (ext_type =? 51) && (4 <=? zlen ext_data) then
          group ← u16_at ext_data 0;
          key_len ← u16_at ext_data 2;
          if (group =? 29) && (key_len =? 32) && (4 + key_len <=? zlen ext_data)
          then Ok (slice_get ext_data 4 key_len) else next
        else next
      else Ok None
  end.
Definition parse_server_hello (record : list byte) : result (list byte * Z) :=
  hs ← slice_from record 5;
  if negb ((4 <? zlen hs) && bool_decide (hs !! 0%nat = Some x02)) then Err "expected ServerHello"
  else
    sess_len ← index hs (4 + 2 + 32);
    let i := 38 + (1 + bz sess_len) in
    if zlen hs <? i + 3 then Err "server hello truncated"
    else
      cipher ← u16_at hs i;
      let i := i + (2 + 1) in
      if zlen hs <? i + 2 then Err "server hello missing extensions"
      else
        ext_len ← u16_at hs i;
        let i := i + 2 in
        pk ← server_key_share (length hs) hs i (i + ext_len);
        pk ← ok_or "server key share missing" pk;
        Ok (pk, cipher).

(** [build_server_hello], with the 32 bytes drawn. *)
Definition server_hello_exts (server_pub : list byte) : list byte :=
  [x00; x2b; x00; x02; x03; x04] ++ [x00; x33; x00; x24] ++ [x00; x1d; x00; x20] ++ server_pub.
Definition server_hello_record (random session_id : list byte) (cipher : Z) (compression : byte) (exts : list byte) : list byte :=
  let body := [x03; x03] ++ random ++ [u8 (zlen session_id)] ++ session_id ++ be_encode 2 cipher ++ [compression]
              ++ be_encode 2 (zlen exts) ++ exts in
  let hs := [x02] ++ be_encode 3 (zlen body) ++ body in
  [x16; x03; x03] ++ be_encode 2 (zlen hs) ++ hs.
Definition build_server_hello (client_hello : list byte) (cipher : Z) (server_pub random : list byte) : result (list byte) :=
  layout ← ok_or "client hello layout" (hello_layout client_hello);
  sid_len ← index client_hello (session_id_offset layout - 1);
  if negb (bz sid_len =? 32) then Err "reality server hello: expected 32-byte legacy session id"
  else
    session_id ← slice_at client_hello (session_id_offset layout) (bz sid_len);
    Ok (server_hello_record random session_id cipher x00 (server_hello_exts server_pub)).

(** ** The client's handshake *)

(** With the session id blanked. *)
Definition client_hello_tls_transcript (record : list byte) : list byte :=
  let hs := drop 5 record in
  match hello_layout record with
  | None => hs
  | Some layout =>
      let off := session_id_offset layout - 5 in
      match hs !! Z.to_nat (off - 1) with
      | Some sid_len =>
          if (off <? zlen hs) && (bz sid_len =? 32) && (off + 32 <=? zlen hs)
          then overwrite hs off (replicate 32 x00) else hs
      | None => hs
      end
  end.

(** Up to sixteen records, until a Finished is among the messages. *)
Fixpoint read_flight (n : nat) (c : Tls13Cipher) (iv : list byte) (seq : Z) (msgs s : list byte)
  : result (list byte * list byte) :=
  match n with
  | O => if msgs_contain msgs x14 then Ok (msgs, s) else Err "server Finished missing in handshake"
  | S n =>
      let '(r, s) := read_encrypted_record (S (length s)) c iv seq s in
      '(plain, _, seq) ← context "read server encrypted handshake" r;
      let msgs := msgs ++ plain in
      if msgs_contain msgs x14 then Ok (msgs, s) else read_flight n c iv seq msgs s
  end.

Record AppKeys := mkAppKeys {
  ak_read_key : list byte;
  ak_read_iv : list byte;
  ak_write_key : list byte;
  ak_write_iv : list byte;
}.
(** [tls13_handshake_core], given what the server sends; the keys, what the client sends
    behind its hello, and what is left of the server's bytes. *)
Definition tls13_handshake_core (client_hello secret : list byte) (auth_key : option (list byte)) (s : list byte)
  : result (AppKeys * list byte * list byte) :=
  let transcript := match auth_key with Some _ => client_hello_tls_transcript client_hello | None => drop 5 client_hello end in
  '(server_hello, s) ← context "read server hello" (read_tls_record s);
  let transcript := transcript ++ drop 5 server_hello in
  '(server_pub, cipher) ← context "parse server hello" (parse_server_hello server_hello);
  let shared := x_dh secret server_pub in
  let hash := cipher_hash cipher in
  let th := transcript_hash hash transcript in
  let key_len := cipher_key_len cipher in
  let hs := derive_handshake_keys hash shared th key_len in
  read_cipher ← suite_cipher cipher (hk_read_key hs);
  write_cipher ← suite_cipher cipher (hk_write_key hs);
  '(server_msgs, s) ← read_flight 16 read_cipher (hk_read_iv hs) 0 [] s;
  let transcript := transcript ++ server_msgs in
  _ ← match auth_key with Some key => verify_reality_certificate server_msgs key | None => Ok tt end;
  let client_finished := build_finished hash (hk_client_secret hs) transcript in
  let reply := emit_middlebox_ccs ++ write_handshake_msgs write_cipher (hk_write_iv hs) client_finished in
  let app_transcript := match auth_key with Some _ => transcript | None => transcript ++ client_finished end in
  let app := derive_application_keys hash (hk_hs_secret hs) app_transcript key_len in
  Ok (mkAppKeys (hk_read_key app) (hk_read_iv app) (hk_write_key app) (hk_write_iv app), reply, s).

(** ** Streams *)

Record TlsStream := mkTlsStream {
  ts_read : Tls13Cipher;
  ts_write : Tls13Cipher;
  ts_read_iv : list byte;
  ts_write_iv : list byte;
  ts_read_seq : Z;
  ts_write_seq : Z;
  ts_read_buf : list byte;
  ts_read_hdr : list byte;
}.
Definition stream_new (r w : Tls13Cipher) (riv wiv : list byte) : TlsStream := mkTlsStream r w riv wiv 0 0 [] [].

(** [UtlsTlsStream::handshake]: AES-128 whatever was negotiated. *)
Definition client_stream (app : AppKeys) : result TlsStream :=
  r ← context "app read cipher" (aes128_new (ak_read_key app));
  w ← context "app write cipher" (aes128_new (ak_write_key app));
  Ok (stream_new r w (ak_read_iv app) (ak_write_iv app)).

Definition set_hdr (st : TlsStream) (hdr : list byte) : TlsStream :=
  mkTlsStream (ts_read st) (ts_write st) (ts_read_iv st) (ts_write_iv st) (ts_read_seq st) (ts_write_seq st)
    (ts_read_buf st) hdr.
Definition set_read_buf (st : TlsStream) (buf : list byte) : TlsStream :=
  mkTlsStream (ts_read st) (ts_write st) (ts_read_iv st) (ts_write_iv st) (ts_read_seq st) (ts_write_seq st)
    buf (ts_read_hdr st).
Definition next_record (st : TlsStream) : TlsStream :=
  mkTlsStream (ts_read st) (ts_write st) (ts_read_iv st) (ts_write_iv st) (u64 (ts_read_seq st + 1)) (ts_write_seq st)
    (ts_read_buf st) [].

(** Polling until [need] bytes are there; a poll that reads nothing is the end. *)
Inductive filled := Full (bytes : list byte) | Waiting (bytes : list byte) | Broken (bytes : list byte).
Fixpoint fill (fuel : nat) (need : nat) (acc : list byte) (inner : list arrival) : filled * list arrival :=
  if (need <=? length acc)%nat then (Full acc, inner)
  else
    match fuel with
    | O => (Broken acc, inner)
    | S fuel =>
        match inner_poll (need - length acc) inner with
        | (PReady [], inner) => (Broken acc, inner)
        | (PReady bs, inner) => fill fuel need (acc ++ bs) inner
        | (PPending _, inner) => (Waiting acc, inner)
        | (PError, inner) => (Broken acc, inner)
        end
    end.
Definition fill_to (need : nat) (acc : list byte) (inner : list arrival) : filled * list arrival :=
  fill (need - length acc) need acc inner.

(** [poll_read_app_plain]: the bytes of a header are kept between polls, those of a
    body are not. *)
Fixpoint poll_app_plain (fuel : nat) (st : TlsStream) (inner : list arrival) : polled * TlsStream * list arrival :=
  match fuel with
  | O => (PError, st, inner)
  | S fuel =>
      match fill_to 5 (ts_read_hdr st) inner with
      | (Full hdr, inner) =>
          let st := set_hdr st hdr in
          let body := fill_to (Z.to_nat (be_decode (drop 3 hdr))) [] inner in
          if bool_decide (hdr !! 0%nat = Some x14) then
            match body with
            | (Full _, inner) => poll_app_plain fuel (set_hdr st []) inner
            | (Waiting _, inner) => (PPending true, st, inner)
            | (Broken _, inner) => (PError, st, inner)
            end
          else if negb (bool_decide (hdr !! 0%nat = Some x17)) then (PError, st, inner)
          else
            match body with
            | (Full enc, inner) =>
                match decrypt_record (ts_read st) (ts_read_iv st) (ts_read_seq st) hdr enc with
                | Ok plain =>
                    let data := if bool_decide (last plain = Some x17) then take (length plain - 1) plain else plain in
                    (PReady data, next_record st, inner)
                | _ => (PError, set_hdr st [], inner)
                end
            | (Waiting _, inner) => (PPending true, st, inner)
            | (Broken _, inner) => (PError, st, inner)
            end
      | (Waiting hdr, inner) => (PPending true, set_hdr st hdr, inner)
      | (Broken hdr, inner) => (PError, set_hdr st hdr, inner)
      end
  end.
Definition tls_poll_read (cap : nat) (st : TlsStream) (inner : list arrival) : polled * TlsStream * list arrival :=
  match ts_read_buf st with
  | _ :: _ => (PReady (take cap (ts_read_buf st)), set_read_buf st (drop cap (ts_read_buf st)), inner)
  | [] =>
      match poll_app_plain (S (polls inner)) st inner with
      | (PReady data, st, inner) => (PReady (take cap data), set_read_buf st (drop cap data), inner)
      | r => r
      end
  end.
(** [poll_write], given what the socket answers: how many bytes it takes, that it is
    not ready, or an error.  The record is sealed and the sequence number advanced
    before the socket is asked; what goes out is what the socket takes. *)
Inductive socket_answer := Takes (n : nat) | NotReady | Refuses.
Inductive written := WReady (n : nat) | WPending | WError.
Definition tls_record (st : TlsStream) (buf : list byte) : list byte :=
  encrypt_record (ts_write st) (ts_write_iv st) (ts_write_seq st) (buf ++ [x17]).
Definition sealed (st : TlsStream) : TlsStream :=
  mkTlsStream (ts_read st) (ts_write st) (ts_read_iv st) (ts_write_iv st) (ts_read_seq st) (u64 (ts_write_seq st + 1))
    (ts_read_buf st) (ts_read_hdr st).
Definition tls_poll_write (st : TlsStream) (buf : list byte) (socket : socket_answer) : written * list byte * TlsStream :=
  let enc := tls_record st buf in
  match socket with
  | Takes n => (if (length enc =? n)%nat then WReady (length buf) else WError, take n enc, sealed st)
  | NotReady => (WPending, [], sealed st)
  | Refuses => (WError, [], sealed st)
  end.
(** [write_all] of one buffer after another, as the relays call it: a poll that was not
    ready is repeated with the same buffer. *)
Inductive write_end := WroteAll | WriteBlocked | WriteFailed.
Fixpoint tls_write_all (st : TlsStream) (bufs : list (list byte)) (socket : list socket_answer) : list byte * write_end :=
  match bufs, socket with
  | [], _ => ([], WroteAll)
  | _ :: _, [] => ([], WriteBlocked)
  | buf :: rest, answer :: socket =>
      match tls_poll_write st buf answer with
      | (WReady _, out, st) => let '(more, e) := tls_write_all st rest socket in (out ++ more, e)
      | (WPending, out, st) => let '(more, e) := tls_write_all st bufs socket in (out ++ more, e)
      | (WError, out, _) => (out, WriteFailed)
      end
  end.

(** ** The server's handshake *)

Definition build_certificate_verify (hash : Tls13Hash) (transcript seed : list byte) : list byte :=
  let th := transcript_hash hash transcript in
  let ctx := replicate 64 x20 ++ str "TLS 1.3, server CertificateVerify" ++ [x00] ++ th in
  let sig := ed25519_sign seed ctx in
  let body := [x08; x07] ++ be_encode 2 (zlen sig) ++ sig in
  [x0f] ++ be_encode 3 (zlen body) ++ body.

(** [accept_reality_core] up to the client's Finished: what the server sends, its
    handshake keys and its application keys. *)
Definition server_flight (session : VerifiedSession) (server_hello : list byte) (cipher : Z) (eph_secret : list byte)
    (mirrored : bool) (seed : list byte) : result (list byte * HandshakeKeys * HandshakeKeys) :=
  let transcript := client_hello_tls_transcript (vs_client_hello session) ++ drop 5 server_hello in
  let shared := x_dh eph_secret (vs_client_pub session) in
  let hash := cipher_hash cipher in
  let th := transcript_hash hash transcript in
  let key_len := cipher_key_len cipher in
  let hs := derive_handshake_keys hash shared th key_len in
  write_cipher ← suite_cipher cipher (hk_read_key hs);
  _ ← suite_cipher cipher (hk_write_key hs);
  alpn ← parse_client_hello_alpn (vs_client_hello session);
  let msgs := build_encrypted_extensions alpn ++ cert_message (vs_auth_key session) seed in
  let msgs := msgs ++ build_certificate_verify hash (transcript ++ msgs) seed in
  let server_traffic := expand_label hash (hk_hs_secret hs) "s hs traffic" th 32 in
  let msgs := msgs ++ build_finished hash server_traffic (transcript ++ msgs) in
  let flight := if mirrored && (400 <? zlen (vs_client_hello session))
                then write_encrypted_handshake_combined write_cipher (hk_read_iv hs) msgs
                else write_handshake_msgs write_cipher (hk_read_iv hs) msgs in
  let app := derive_application_keys hash (hk_hs_secret hs) (transcript ++ msgs) key_len in
  Ok (server_hello ++ emit_middlebox_ccs ++ flight, hs, app).

(** [read_encrypted_handshake], of up to eight records, whose outcome is ignored; what
    it leaves of the client's bytes. *)
Fixpoint drain_client_finished (n : nat) (c : Tls13Cipher) (iv : list byte) (seq : Z) (msgs s : list byte) : list byte :=
  match n with
  | O => s
  | S n =>
      match read_encrypted_record (S (length s)) c iv seq s with
      | (Ok (plain, _, seq), s) =>
          let msgs := msgs ++ plain in
          if msgs_contain msgs x14 then s else drain_client_finished n c iv seq msgs s
      | (_, s) => s
      end
  end.
Definition accept_reality_core (session : VerifiedSession) (server_hello : list byte) (cipher : Z) (eph_secret : list byte)
    (mirrored : bool) (seed s : list byte) : result (TlsStream * list byte * list byte) :=
  '(out, hs, app) ← server_flight session server_hello cipher eph_secret mirrored seed;
  finished_cipher ← suite_cipher cipher (hk_write_key hs);
  let s := drain_client_finished 8 finished_cipher (hk_write_iv hs) 0 [] s in
  r ← suite_cipher cipher (hk_write_key app);
  w ← suite_cipher cipher (hk_read_key app);
  Ok (stream_new r w (hk_write_iv app) (hk_read_iv app), out, s).
(** [accept_reality], with the ephemeral secret and the random drawn. *)
Definition accept_reality (session : VerifiedSession) (eph_secret random seed s : list byte)
  : result (TlsStream * list byte * list byte) :=
  server_hello ← build_server_hello (vs_client_hello session) (vs_cipher session) (x_public eph_secret) random;
  accept_reality_core session server_hello (vs_cipher session) eph_secret false seed s.
End Tls.
(** ** Reading what was written *)

Lemma u16_header v : 0 <= v < 2 ^ 16 ->
  be_decode [u8 (Z.shiftr v 8); u8 (Z.land v 255)] = v.
Proof.
  intros Hv. assert (Hl : u8 (Z.land v 255) = u8 v).
  { apply bz_inj. rewrite !bz_u8. change 255 with (Z.ones 8). rewrite Z.land_ones by lia. change (2 ^ 8) with 256. apply Z.mod_mod. lia. }
  rewrite Hl, <-be_encode_two. by apply be_decode_u16.
Qed.

Lemma fill_full fuel need acc inner : (need <= length acc)%nat -> fill fuel need acc inner = (Full acc, inner).
Proof. intros Hn. destruct fuel; cbn [fill]; by rewrite (proj2 (Nat.leb_le _ _)) by lia. Qed.

(** However the bytes are cut, without waiting between the pieces. *)
Lemma fill_pieces : forall fuel need acc want pieces rest,
  Forall (fun p => p <> []) pieces -> concat pieces = want ++ rest ->
  (length acc + length want = need)%nat -> (length want <= fuel)%nat ->
  exists pieces', fill fuel need acc (map Arrive pieces) = (Full (acc ++ want), map Arrive pieces')
    /\ Forall (fun p => p <> []) pieces' /\ concat pieces' = rest.
Proof.
  induction fuel as [|fuel IH]; intros need acc want pieces rest Hne Hc Hn Hf.
  { destruct want; cbn [length] in *; [|lia]. rewrite app_nil_r in *. exists pieces. rewrite fill_full by lia. done. }
  destruct (decide (want = [])) as [->|Hw].
  { cbn [length] in Hn. rewrite app_nil_r in *. exists pieces. rewrite fill_full by lia. done. }
  destruct pieces as [|p pieces]; [by destruct want|]. apply Forall_cons in Hne as [Hp Hne]. cbn [concat] in Hc.
  assert (Hw1 : (1 <= length want)%nat) by (destruct want; [done|cbn; lia]).
  assert (Hp1 : (1 <= length p)%nat) by (destruct p; [done|cbn; lia]).
  cbn [fill map]. rewrite (proj2 (Nat.leb_gt _ _)) by lia.
  replace (need - length acc)%nat with (length want) by lia. cbn [inner_poll].
  destruct (length p <=? length want)%nat eqn:E.
  - apply Nat.leb_le in E.
    assert (exists w, want = p ++ w) as [w ->].
    { apply app_eq_inv in Hc as [(k & -> & _)|(k & -> & _)]; [|by exists k].
      rewrite length_app in E. destruct k; [|cbn in E; lia]. exists []. by rewrite !app_nil_r. }
    rewrite length_app in *.
    edestruct (IH need (acc ++ p) w pieces rest) as (pieces' & Hfill & Hne' & Hc'); [done| |rewrite length_app; lia|lia|].
    + rewrite <-app_assoc in Hc. by apply app_inv_head in Hc.
    + exists pieces'. destruct p as [|b p]; [done|]. rewrite Hfill. by rewrite app_assoc.
  - apply Nat.leb_gt in E.
    assert (exists p2, p = want ++ p2) as [p2 ->].
    { apply app_eq_inv in Hc as [(k & -> & _)|(k & -> & _)]; [by exists k|]. rewrite length_app in E. lia. }
    rewrite take_app_length, drop_app_length. exists (p2 :: pieces).
    destruct want as [|x t]; [done|]. set (want := x :: t) in *.
    rewrite fill_full by (rewrite length_app; lia). split; [done|]. split.
    + constructor; [|done]. intros ->. rewrite app_nil_r in E. lia.
    + cbn [concat]. rewrite <-app_assoc in Hc. by apply app_inv_head in Hc.
Qed.

Section Streams.
Context `{TlsCrypto}.

Lemma aead_open_seal c nonce plain aad : aead_open c nonce (aead_seal c nonce plain aad) aad = Some plain.
Proof. destruct c; [apply gcm128_open_seal|apply gcm256_open_seal]. Qed.
Lemma aead_seal_length c nonce plain aad : length (aead_seal c nonce plain aad) = (length plain + 16)%nat.
Proof. destruct c; [apply gcm128_seal_length|apply gcm256_seal_length]. Qed.

(** One record after another, through the writing side of a stream. *)
Fixpoint tls_writes (st : TlsStream) (bufs : list (list byte)) : list byte :=
  match bufs with
  | [] => []
  | buf :: bufs => tls_record st buf ++ tls_writes (sealed st) bufs
  end.

(** The reader's state fits the writer's. *)
Record paired (w r : TlsStream) : Prop := {
  pa_cipher : ts_read r = ts_write w;
  pa_iv : ts_read_iv r = ts_write_iv w;
  pa_seq : ts_read_seq r = ts_write_seq w;
  pa_hdr : ts_read_hdr r = [];
}.

Lemma poll_record w r data pieces rest fuel : paired w r -> zlen data + 17 < 2 ^ 16 ->
  Forall (fun p => p <> []) pieces -> concat pieces = tls_record w data ++ rest ->
  exists pieces', poll_app_plain (S fuel) r (map Arrive pieces) = (PReady data, next_record r, map Arrive pieces')
    /\ Forall (fun p => p <> []) pieces' /\ concat pieces' = rest.
Proof.
  intros [Hc Hi Hs Hh] Hlen Hne Hcat. unfold tls_record, encrypt_record in Hcat. cbv zeta in Hcat.
  set (hdr := record_header _) in *. set (enc := aead_seal _ _ _ _) in *. rewrite <-app_assoc in Hcat.
  assert (Hdec : be_decode (drop 3 hdr) = zlen enc).
  { unfold hdr, record_header, enc. cbn [drop]. rewrite u16_header.
    - unfold zlen. rewrite aead_seal_length. lia.
    - rewrite zlen_app. change (zlen [x17]) with 1. pose proof (zlen_nonneg data). lia. }
  destruct (fill_pieces (5 - 0) 5 [] hdr pieces (enc ++ rest)) as (p1 & Hf1 & Hne1 & Hc1); [done..|unfold hdr; cbn; lia|].
  destruct (fill_pieces (length enc - 0) (length enc) [] enc p1 rest) as (p2 & Hf2 & Hne2 & Hc2); [done|done|done|cbn; lia|].
  exists p2. split; [|done]. cbn [poll_app_plain]. unfold fill_to. rewrite Hh. cbn [length app] in *. rewrite Hf1.
  change (hdr !! 0%nat) with (Some x17). rewrite Hdec. unfold zlen. rewrite Nat2Z.id, Hf2. cbn.
  unfold decrypt_record. rewrite Hc, Hi, Hs. unfold enc, hdr. rewrite aead_open_seal. cbn [ok_or].
  rewrite last_snoc. rewrite (bool_decide_eq_false_2 (Some x17 = Some x14)) by done.
  rewrite !(bool_decide_eq_true_2 (Some x17 = Some x17)) by done. cbn [negb].
  rewrite length_app, Nat.add_sub, take_app_length. done.
Qed.

Lemma tls_read_all cap : (1 <= cap)%nat -> forall fuel bufs w r buf pieces,
  paired w r -> ts_read_buf r = buf ->
  Forall (fun b => b <> [] /\ zlen b + 17 < 2 ^ 16) bufs ->
  Forall (fun p => p <> []) pieces -> concat pieces = tls_writes w bufs ->
  (length buf + length (concat bufs) < fuel)%nat ->
  drain (tls_poll_read cap) fuel r (map Arrive pieces) = (buf ++ concat bufs, Failed).
Proof.
  intros Hcap. induction fuel as [|fuel IH]; intros bufs w r buf pieces Hp Hb Hbufs Hne Hcat Hf; [lia|].
  cbn [drain]. unfold tls_poll_read at 1. rewrite Hb. destruct buf as [|b buf].
  - destruct bufs as [|data bufs].
    { cbn [tls_writes] in Hcat. destruct Hne as [|p pieces Hp1 Hne]; [|by destruct p].
      cbn [poll_app_plain map]. rewrite (pa_hdr _ _ Hp). cbn. done. }
    apply Forall_cons in Hbufs as [[Hd Hlen] Hbufs]. cbn [tls_writes] in Hcat.
    assert (Hcat' : concat pieces = tls_record w data ++ tls_writes (sealed w) bufs) by exact Hcat.
    destruct (poll_record w r data pieces _ (polls (map Arrive pieces)) Hp Hlen Hne Hcat') as (p' & -> & Hne' & Hc').
    destruct cap as [|cap]; [lia|]. destruct data as [|x data]; [done|]. cbn [take]. cbn [concat length] in Hf.
    rewrite length_app in Hf. cbn [length] in Hf.
    rewrite (IH bufs (sealed w) _ (drop cap data)); [| |done..|rewrite length_drop; lia].
    + cbn [drop concat app]. by rewrite app_assoc, take_drop.
    + destruct Hp as [Hc1 Hi1 Hs1 Hh1]. split; [exact Hc1|exact Hi1|cbn; by rewrite Hs1|done].
  - destruct cap as [|cap]; [lia|]. cbn [take drop]. cbn [length] in Hf.
    rewrite (IH bufs w _ (drop cap buf)); [by cbn [app]; rewrite app_assoc, take_drop| |done..|rewrite length_drop; lia].
    by destruct Hp.
Qed.

(** A body that is cut short when the socket has nothing more. *)
Lemma fill_cut p1 p2 : p1 <> [] -> p2 <> [] ->
  fill_to (length (p1 ++ p2)) [] [Arrive p1; NotYet; Arrive p2] = (Waiting p1, [Arrive p2])
  /\ fill_to (length (p1 ++ p2)) [] [Arrive p2] = (Broken p2, []).
Proof.
  intros H1 H2. assert (L1 : (1 <= length p1)%nat) by (destruct p1; [done|cbn; lia]).
  assert (L2 : (1 <= length p2)%nat) by (destruct p2; [done|cbn; lia]). unfold fill_to. rewrite Nat.sub_0_r.
  rewrite length_app. remember (length p1 + length p2)%nat as n eqn:En. destruct n as [|[|n]]; [lia..|].
  split; cbn [fill]; rewrite (proj2 (Nat.leb_gt _ _)) by (cbn; lia); cbn [inner_poll];
    rewrite (proj2 (Nat.leb_le _ _)) by (cbn [length]; lia).
  - destruct p1 as [|a p1]; [done|]. by rewrite (proj2 (Nat.leb_gt _ _)) by (cbn [length app] in *; lia).
  - destruct p2 as [|a p2]; [done|]. by rewrite (proj2 (Nat.leb_gt _ _)) by (cbn [length app] in *; lia).
Qed.
Lemma record_cut w r data p1 p2 fuel : paired w r -> zlen data + 17 < 2 ^ 16 ->
  tls_record w data = p1 ++ p2 -> (5 < length p1)%nat -> p2 <> [] ->
  exists st, poll_app_plain (S fuel) r [Arrive p1; NotYet; Arrive p2] = (PPending true, st, [Arrive p2])
    /\ ts_read_buf st = ts_read_buf r
    /\ forall fuel', poll_app_plain (S fuel') st [Arrive p2] = (PError, st, []).
Proof.
  intros [Hc Hi Hs Hh] Hlen He H5 Hp2. unfold tls_record, encrypt_record in He. cbv zeta in He.
  set (hdr := record_header _) in *. set (enc := aead_seal _ _ _ _) in *.
  assert (exists q, p1 = hdr ++ q) as [q ->].
  { apply app_eq_inv in He as [(k & E & _)|(k & -> & _)]; [|by exists k].
    apply (f_equal length) in E. rewrite length_app in E. cbn in E. lia. }
  rewrite <-app_assoc in He. apply app_inv_head in He.
  assert (Hq : q <> []) by (intros ->; cbn in H5; lia).
  assert (Hdec : be_decode (drop 3 hdr) = zlen enc).
  { unfold hdr, record_header, enc. cbn [drop]. rewrite u16_header.
    - unfold zlen. rewrite aead_seal_length. lia.
    - rewrite zlen_app. change (zlen [x17]) with 1. pose proof (zlen_nonneg data). lia. }
  destruct (fill_cut q p2 Hq Hp2) as [F1 F2]. exists (set_hdr r hdr). split_and!; [|done|].
  - cbn [poll_app_plain]. rewrite Hh. 
    assert (F0 : forall l, fill_to 5 [] (Arrive (hdr ++ q) :: l) = (Full hdr, Arrive q :: l)) by (intros l; by destruct q).
    rewrite F0. rewrite Hdec. unfold zlen. rewrite Nat2Z.id, He, F1. done.
  - intros fuel'. cbn [poll_app_plain ts_read_hdr set_hdr]. unfold fill_to at 1. rewrite fill_full by (cbn; lia).
    rewrite Hdec. unfold zlen. rewrite Nat2Z.id, He, F2. done.
Qed.

Lemma length_tls_record w data : length (tls_record w data) = (length data + 22)%nat.
Proof. unfold tls_record, encrypt_record. cbv zeta. rewrite length_app, aead_seal_length, length_app. cbn. lia. Qed.

(** A socket that takes every record whole. *)
Definition takes_whole (bufs : list (list byte)) : list socket_answer := map (fun b => Takes (length b + 22)) bufs.
Lemma write_all_whole bufs : forall w, tls_write_all w bufs (takes_whole bufs) = (tls_writes w bufs, WroteAll).
Proof.
  induction bufs as [|b bufs IH]; intros w; [done|]. cbn [tls_write_all takes_whole map tls_poll_write tls_writes].
  rewrite length_tls_record, Nat.eqb_refl, take_ge by (rewrite length_tls_record; lia).
  fold (takes_whole bufs). by rewrite IH.
Qed.

(** A record that does not open ends the connection. *)
Lemma record_refused w r data fuel : ts_read_hdr r = [] -> zlen data + 17 < 2 ^ 16 ->
  is_ok (decrypt_record (ts_read r) (ts_read_iv r) (ts_read_seq r) (take 5 (tls_record w data)) (drop 5 (tls_record w data))) = false ->
  exists st, poll_app_plain (S fuel) r [Arrive (tls_record w data)] = (PError, st, []).
Proof.
  intros Hh Hlen. unfold tls_record, encrypt_record. cbv zeta. set (hdr := record_header _). set (enc := aead_seal _ _ _ _).
  change (take 5 (hdr ++ enc)) with hdr. change (drop 5 (hdr ++ enc)) with enc. intros Hd.
  assert (Hdec : be_decode (drop 3 hdr) = zlen enc).
  { unfold hdr, record_header, enc. cbn [drop]. rewrite u16_header.
    - unfold zlen. rewrite aead_seal_length. lia.
    - rewrite zlen_app. change (zlen [x17]) with 1. pose proof (zlen_nonneg data). lia. }
  assert (Hne : enc <> []) by (intros E; apply (f_equal length) in E; unfold enc in E; rewrite aead_seal_length in E; cbn in E; lia).
  destruct (fill_pieces (length enc - 0) (length enc) [] enc [enc] []) as (p & Hf & Hp & Hc);
    [by constructor|by cbn; rewrite app_nil_r|done|cbn; lia|].
  destruct p as [|q p]; [|apply Forall_cons in Hp as [Hq _]; by destruct q].
  exists (set_hdr (set_hdr r hdr) []). cbn [poll_app_plain]. rewrite Hh.
  assert (F0 : fill_to 5 [] [Arrive (hdr ++ enc)] = (Full hdr, [Arrive enc])) by (by destruct enc).
  rewrite F0, Hdec. unfold zlen, fill_to. rewrite Nat2Z.id. cbn [length map] in Hf |- *. rewrite Hf.
  change (hdr !! 0%nat) with (Some x17). cbn [ts_read ts_read_iv ts_read_seq set_hdr].
  destruct (decrypt_record _ _ _ _ _); [done|reflexivity..].
Qed.

(** C20.  A TLS connection between two streams in step.  While the writer's socket takes
    each record whole, all buffers are written, and what is written is read, however
    the bytes are cut on the way, as long as they are there when the reader asks: every
    buffer in its order, and an error (no close_notify is looked for) where the
    connection ends.  The other cases lose the connection.  When the reader's socket has
    no more to give in the middle of a record, the bytes read of its body are lost: of
    that record nothing is delivered even though the rest of it arrives.  When the
    writer's socket takes only part of a record, the write fails.  And when it is not
    ready, the buffer is sealed again under the next number: the writer is told that all
    was written, but a reader whose cipher does not open that record under the number it
    is at delivers nothing. *)
Theorem tls_stream_delivery cap w r bufs fuel : (1 <= cap)%nat -> paired w r -> ts_read_buf r = [] ->
  Forall (fun b => b <> [] /\ zlen b + 17 < 2 ^ 16) bufs -> (S (length (concat bufs)) < fuel)%nat ->
  (exists out, tls_write_all w bufs (takes_whole bufs) = (out, WroteAll)
     /\ forall pieces, Forall (fun p => p <> []) pieces -> concat pieces = out ->
          drain (tls_poll_read cap) fuel r (map Arrive pieces) = (concat bufs, Failed))
  /\ forall data, zlen data + 17 < 2 ^ 16 ->
       (forall p1 p2, tls_record w data = p1 ++ p2 -> (5 < length p1)%nat -> p2 <> [] ->
          drain (tls_poll_read cap) fuel r [Arrive p1; NotYet; Arrive p2] = ([], Failed))
       /\ (forall n socket, n <> (length data + 22)%nat ->
             tls_write_all w [data] (Takes n :: socket) = (take n (tls_record w data), WriteFailed))
       /\ exists late, tls_write_all w [data] [NotReady; Takes (length data + 22)] = (late, WroteAll)
            /\ (is_ok (decrypt_record (ts_read r) (ts_read_iv r) (ts_read_seq r) (take 5 late) (drop 5 late)) = false ->
                 drain (tls_poll_read cap) fuel r [Arrive late] = ([], Failed)).
Proof.
  intros Hcap Hp Hb Hbufs Hf. split.
  { exists (tls_writes w bufs). split; [apply write_all_whole|]. intros pieces Hne Hcat.
    by apply (tls_read_all cap Hcap fuel bufs w r []); cbn [length]; lia || done. }
  intros data Hlen. destruct fuel as [|[|fuel]]; [lia..|]. split_and!.
  - intros p1 p2 He H5 Hp2. cbn [drain]. unfold tls_poll_read at 1. rewrite Hb.
    destruct (record_cut w r data p1 p2 (polls [Arrive p1; NotYet; Arrive p2]) Hp Hlen He H5 Hp2) as (st & -> & Hbuf & H2).
    unfold tls_poll_read at 1. by rewrite Hbuf, Hb, H2.
  - intros n socket Hn. cbn [tls_write_all tls_poll_write]. rewrite length_tls_record.
    by rewrite (proj2 (Nat.eqb_neq _ _)) by done.
  - exists (tls_record (sealed w) data). split.
    { cbn [tls_write_all tls_poll_write]. rewrite length_tls_record, Nat.eqb_refl, take_ge by (rewrite length_tls_record; lia).
      cbn [app]. by rewrite app_nil_r. }
    intros Hd. cbn [drain]. unfold tls_poll_read at 1. rewrite Hb.
    destruct (record_refused (sealed w) r data (polls [Arrive (tls_record (sealed w) data)]) (pa_hdr _ _ Hp) Hlen Hd) as [st ->].
    done.
Qed.

(** ** Records and messages, read back *)

Lemma take_exact_app (a b : list byte) n : zlen a = n -> take_exact n (a ++ b) = (Some a, b).
Proof.
  intros <-. unfold take_exact. rewrite zlen_app, (proj2 (Z.ltb_ge _ _)) by (pose proof (zlen_nonneg b); lia).
  unfold zlen. by rewrite Nat2Z.id, take_app_length, drop_app_length.
Qed.
Lemma ccs_skipped fuel c iv seq s :
  read_encrypted_record (S fuel) c iv seq (emit_middlebox_ccs ++ s) = read_encrypted_record fuel c iv seq s.
Proof.
  cbn [read_encrypted_record]. change (emit_middlebox_ccs ++ s) with ([x14; x03; x03; x00; x01] ++ [x01] ++ s).
  rewrite take_exact_app by done. cbn match. rewrite take_exact_app by done. done.
Qed.
Lemma handshake_record_read fuel c iv seq inner s : zlen inner + 17 < 2 ^ 16 ->
  read_encrypted_record (S fuel) c iv seq (encrypt_handshake c iv seq inner ++ s) = (Ok (inner, x17, u64 (seq + 1)), s).
Proof.
  intros Hlen. unfold encrypt_handshake, encrypt_record. cbv zeta. rewrite <-app_assoc.
  set (enc := aead_seal _ _ _ _). cbn [read_encrypted_record]. rewrite (take_exact_app (record_header _)) by done.
  unfold record_header at 1. cbn match. assert (He : zlen enc = zlen (inner ++ [x17]) + 16).
  { unfold enc, zlen. rewrite aead_seal_length. lia. }
  rewrite zlen_app in He. change (zlen [x17]) with 1 in He.
  rewrite u16_header by (rewrite zlen_app; change (zlen [x17]) with 1; pose proof (zlen_nonneg inner); lia).
  rewrite (take_exact_app enc) by (rewrite zlen_app; exact He). rewrite bool_decide_eq_false_2 by done. cbn [default].
  unfold decrypt_record, enc. rewrite aead_open_seal. cbn [ok_or mbind result_bind].
  by rewrite last_snoc, length_app, Nat.add_sub, take_app_length.
Qed.

(** A handshake message, and messages one after another. *)
Definition hs_msg (m : byte * list byte) : list byte := m.1 :: be_encode 3 (zlen m.2) ++ m.2.
Definition hs_msgs (ms : list (byte * list byte)) : list byte := concat (map hs_msg ms).
Definition msg_ok (m : byte * list byte) : Prop := zlen m.2 < 60000.

Lemma hs_msg_form m rest : msg_ok m -> exists a b c,
  hs_msg m ++ rest = m.1 :: a :: b :: c :: m.2 ++ rest /\ msg_len a b c = zlen m.2
  /\ hs_msg m = m.1 :: a :: b :: c :: m.2.
Proof.
  intros Hm. unfold hs_msg, msg_len. unfold msg_ok in Hm. pose proof (zlen_nonneg m.2).
  destruct (be_encode 3 (zlen m.2)) as [|a [|b [|c [|? ?]]]] eqn:E; apply (f_equal length) in E as El;
    rewrite length_be_encode in El; try done. exists a, b, c. split_and!; [done| |done].
  rewrite <-E. apply be_decode_encode. change (256 ^ Z.of_nat 3) with 16777216. lia.
Qed.
Lemma length_hs_msgs ms : (length ms <= length (hs_msgs ms))%nat.
Proof.
  induction ms as [|m ms IH]; [done|]. unfold hs_msgs in *. cbn [map concat length]. rewrite length_app.
  unfold hs_msg at 1. cbn [length]. lia.
Qed.

Lemma contains_msgs ms t : Forall msg_ok ms -> forall fuel, (length ms <= fuel)%nat ->
  handshake_contains fuel (hs_msgs ms) t = existsb (fun m => bool_decide (m.1 = t)) ms.
Proof.
  induction 1 as [|m ms Hm _ IH]; intros [|fuel] Hf; cbn [length] in Hf; try lia; [done..|].
  unfold hs_msgs. cbn [map concat]. destruct (hs_msg_form m (hs_msgs ms) Hm) as (a & b & c & E & Hl & _).
  unfold hs_msgs in E. rewrite E. cbn [handshake_contains existsb]. case_bool_decide; [done|]. cbn [orb]. rewrite Hl.
  rewrite (proj2 (Z.ltb_ge _ _)) by (rewrite zlen_app; pose proof (zlen_nonneg (concat (map hs_msg ms))); lia).
  rewrite drop_ext. fold (hs_msgs ms). apply IH. lia.
Qed.
Lemma msgs_contain_msgs ms t : Forall msg_ok ms ->
  msgs_contain (hs_msgs ms) t = existsb (fun m => bool_decide (m.1 = t)) ms.
Proof. intros Hms. apply contains_msgs; [done|apply length_hs_msgs]. Qed.

(** The records of a flight. *)
Fixpoint flight (c : Tls13Cipher) (iv : list byte) (seq : Z) (ms : list (byte * list byte)) : list byte :=
  match ms with
  | [] => []
  | m :: ms => encrypt_handshake c iv seq (hs_msg m) ++ flight c iv (u64 (seq + 1)) ms
  end.
Lemma write_msgs c iv ms : Forall msg_ok ms -> forall fuel seq, (length ms <= fuel)%nat ->
  write_encrypted_handshake fuel c iv seq (hs_msgs ms) = flight c iv seq ms.
Proof.
  induction 1 as [|m ms Hm _ IH]; intros [|fuel] seq Hf; cbn [length] in Hf; try lia; [done..|].
  unfold hs_msgs. cbn [map concat]. destruct (hs_msg_form m (hs_msgs ms) Hm) as (a & b & d & E & Hl & Em).
  unfold hs_msgs in E. rewrite E. cbn [write_encrypted_handshake flight]. cbv zeta. rewrite Hl.
  rewrite (proj2 (Z.ltb_ge _ _)) by (rewrite zlen_app; pose proof (zlen_nonneg (concat (map hs_msg ms))); lia).
  rewrite drop_ext, take_ext, <-Em. fold (hs_msgs ms). by rewrite IH by lia.
Qed.
Lemma write_handshake_msgs_flight c iv ms : Forall msg_ok ms -> write_handshake_msgs c iv (hs_msgs ms) = flight c iv 0 ms.
Proof. intros Hms. apply write_msgs; [done|apply length_hs_msgs]. Qed.
Lemma zlen_hs_msg m : zlen (hs_msg m) = 4 + zlen m.2.
Proof. unfold hs_msg. rewrite zlen_cons, zlen_app, zlen_be. lia. Qed.
Lemma hs_msgs_snoc ms m : hs_msgs (ms ++ [m]) = hs_msgs ms ++ hs_msg m.
Proof. unfold hs_msgs. rewrite map_app, concat_app. cbn. by rewrite app_nil_r. Qed.

(** A flight with one Finished, its last message, is read to its end. *)
Lemma read_flight_msgs c iv fin : msg_ok fin -> fin.1 = x14 -> forall ms seen n seq s,
  Forall msg_ok (seen ++ ms) -> Forall (fun m => m.1 <> x14) (seen ++ ms) -> (length ms < n)%nat ->
  read_flight n c iv seq (hs_msgs seen) (flight c iv seq (ms ++ [fin]) ++ s)
  = Ok (hs_msgs (seen ++ ms ++ [fin]), s).
Proof.
  intros Hfin Ht ms. induction ms as [|m ms IH]; intros seen [|n] seq s Hok Hty Hn; cbn [length] in Hn; try lia.
  - rewrite !app_nil_r in Hok. cbn [app flight read_flight]. rewrite app_nil_r.
    rewrite handshake_record_read by (rewrite zlen_hs_msg; unfold msg_ok in Hfin; lia). cbn [context mbind result_bind].
    rewrite <-hs_msgs_snoc. rewrite msgs_contain_msgs by (apply Forall_app; split; [done|by constructor]).
    rewrite existsb_app. cbn [existsb]. rewrite bool_decide_eq_true_2 by done. by rewrite orb_true_r.
  - apply Forall_app in Hok as Hok2. destruct Hok2 as [Hok1 Hok2]. apply Forall_cons in Hok2 as [Hm _].
    cbn [app flight read_flight]. rewrite <-app_assoc.
    rewrite handshake_record_read by (rewrite zlen_hs_msg; unfold msg_ok in Hm; lia). cbn [context mbind result_bind].
    rewrite <-hs_msgs_snoc.
    assert (E : seen ++ m :: ms = (seen ++ [m]) ++ ms) by (by rewrite <-app_assoc). rewrite E in Hok, Hty.
    rewrite msgs_contain_msgs by (by apply Forall_app in Hok as [? _]).
    replace (existsb _ _) with false.
    + rewrite IH by (done || lia). by rewrite <-app_assoc.
    + symmetry. apply Forall_app in Hty as [Hty _]. clear -Hty. induction Hty as [|x l Hx _ IH]; [done|].
      cbn. by rewrite bool_decide_eq_false_2.
Qed.

(** ** Keys *)

Lemma hkdf_blocks_long hash prk info len : forall fuel t out counter, (len <= length out + fuel)%nat ->
  (len <= length (hkdf_blocks fuel hash prk info len t out counter))%nat.
Proof.
  induction fuel as [|fuel IH]; intros t out counter Hl; cbn [hkdf_blocks]; [lia|].
  destruct (_ <? _)%nat eqn:E; [|by apply Nat.ltb_ge in E]. apply IH. rewrite length_app, hmac_with_length.
  destruct hash; cbn [hash_len]; lia.
Qed.
Lemma expand_label_length hash secret label context len : zlen (expand_label hash secret label context len) = Z.of_nat len.
Proof.
  unfold expand_label, hkdf_expand, zlen. cbv zeta. rewrite length_take. f_equal. apply Nat.min_l, hkdf_blocks_long. cbn. lia.
Qed.
Lemma finished_msg hash secret transcript :
  exists mac, build_finished hash secret transcript = hs_msg (x14, mac) /\ zlen mac = 32.
Proof.
  unfold build_finished. set (mac := take 32 _).
  assert (Hm : zlen mac = 32).
  { unfold mac, zlen. rewrite length_take, hmac_with_length. by destruct hash. }
  exists mac. split; [|done]. unfold hs_msg. cbn [fst snd]. by rewrite Hm.
Qed.

(** ** The server's messages *)

(** Some bytes, one variable each. *)
Local Ltac spell l := repeat (destruct l as [|? l]; [discriminate|]); destruct l as [|? l]; [|discriminate].

Lemma cert_parts auth_key pubkey : length pubkey = 32%nat ->
  let entry := be_encode 3 220 ++ build_reality_cert_der auth_key pubkey ++ [x00; x00] in
  parse_reality_cert_parts ([x00] ++ be_encode 3 225 ++ entry) = Some (pubkey, hmac_sha512 auth_key pubkey).
Proof.
  intros Hp. unfold build_reality_cert_der. pose proof (hmac_sha512_length auth_key pubkey) as Hs.
  set (sig := hmac_sha512 auth_key pubkey) in *. clearbody sig. spell pubkey. spell sig.
  vm_compute. reflexivity.
Qed.
Lemma zlen_cert auth_key pubkey : length pubkey = 32%nat -> zlen (build_reality_cert_der auth_key pubkey) = 220.
Proof.
  intros Hp. unfold build_reality_cert_der, zlen. rewrite !length_app, !length_replicate, length_take, hmac_sha512_length, Hp.
  done.
Qed.
Lemma cert_msg auth_key seed : exists body,
  cert_message auth_key seed = hs_msg (x0b, body) /\ zlen body = 229
  /\ parse_reality_cert_parts body = Some (ed25519_public seed, hmac_sha512 auth_key (ed25519_public seed)).
Proof.
  pose proof (ed25519_public_length seed) as Hp. unfold cert_message, wrap_tls_cert_handshake. cbv zeta.
  rewrite (zlen_cert auth_key _ Hp). set (entry := be_encode 3 220 ++ _).
  assert (He : zlen entry = 225) by (unfold entry; rewrite !zlen_app, zlen_be, (zlen_cert auth_key _ Hp); done).
  rewrite He. exists ([x00] ++ be_encode 3 225 ++ entry). split_and!; [reflexivity| |].
  - rewrite !zlen_app, zlen_be, He. done.
  - apply cert_parts. exact Hp.
Qed.
Lemma reality_cert_verified auth_key seed :
  verify_reality_cert auth_key (ed25519_public seed) (hmac_sha512 auth_key (ed25519_public seed)) = true.
Proof.
  unfold verify_reality_cert, zlen. rewrite hmac_sha512_length, ed25519_public_length. cbn. by apply bool_decide_eq_true_2.
Qed.

(** A message of another type is passed over. *)
Lemma verify_skip m ms fuel auth_key : msg_ok m -> m.1 <> x0b -> ms <> [] ->
  verify_certificate_loop (S fuel) (hs_msgs (m :: ms)) auth_key = verify_certificate_loop fuel (hs_msgs ms) auth_key.
Proof.
  intros Hm Ht Hms. unfold hs_msgs at 1. cbn [map concat].
  destruct (hs_msg_form m (hs_msgs ms) Hm) as (a & b & c & E & Hl & _). unfold hs_msgs in E. rewrite E.
  cbn [verify_certificate_loop]. rewrite Hl, drop_ext. fold (hs_msgs ms).
  rewrite bool_decide_eq_false_2.
  - rewrite (proj2 (Z.ltb_ge _ _)) by (rewrite zlen_app; pose proof (zlen_nonneg (hs_msgs ms)); lia).
    by rewrite bool_decide_eq_false_2.
  - intros [_ En]%app_eq_nil. destruct ms; [done|]. discriminate En.
Qed.
Lemma verify_here body ms fuel auth_key pubkey sig : zlen body < 60000 -> body <> [] ->
  parse_reality_cert_parts body = Some (pubkey, sig) -> verify_reality_cert auth_key pubkey sig = true ->
  verify_certificate_loop (S fuel) (hs_msgs ((x0b, body) :: ms)) auth_key = Ok tt.
Proof.
  intros Hm Hb Hp Hv. unfold hs_msgs. cbn [map concat].
  destruct (hs_msg_form (x0b, body) (hs_msgs ms) Hm) as (a & b & c & E & Hl & _). unfold hs_msgs in E. rewrite E.
  cbn [verify_certificate_loop fst snd] in *. rewrite Hl, take_ext. fold (hs_msgs ms).
  rewrite bool_decide_eq_false_2 by (by intros [? _]%app_eq_nil).
  rewrite (proj2 (Z.ltb_ge _ _)) by (rewrite zlen_app; pose proof (zlen_nonneg (hs_msgs ms)); lia).
  by rewrite bool_decide_eq_true_2, Hp, Hv.
Qed.

Lemma extensions_msg alpn : zlen (default [] alpn) < 256 ->
  exists body, build_encrypted_extensions alpn = hs_msg (x08, body) /\ zlen body < 300.
Proof.
  intros Ha. destruct alpn as [proto|]; [|by exists []]. change (zlen proto < 256) in Ha. unfold build_encrypted_extensions. cbv zeta.
  exists ([x00; x10] ++ be_encode 2 (2 + 1 + zlen proto) ++ be_encode 2 (1 + zlen proto) ++ [u8 (zlen proto)] ++ proto).
  split; [reflexivity|]. rewrite !zlen_app, !zlen_be. change (zlen [x00; x10]) with 2.
  change (zlen [u8 (zlen proto)]) with 1. lia.
Qed.
Lemma verify_msg hash transcript seed :
  exists body, build_certificate_verify hash transcript seed = hs_msg (x0f, body) /\ zlen body = 68.
Proof.
  unfold build_certificate_verify. cbv zeta. set (sig := ed25519_sign _ _).
  exists ([x08; x07] ++ be_encode 2 (zlen sig) ++ sig). split; [reflexivity|].
  rewrite !zlen_app, zlen_be. unfold zlen at 2. unfold sig. rewrite ed25519_sign_length. done.
Qed.

(** ** ServerHello *)

Lemma read_record_app t minor hs rest : zlen hs < 2 ^ 16 ->
  let record := [t; x03; minor] ++ be_encode 2 (zlen hs) ++ hs in
  read_tls_record (record ++ rest) = Ok (record, rest) /\ drop 5 record = hs.
Proof.
  intros Hl record. pose proof (zlen_nonneg hs). split; [|unfold record; by rewrite be_encode_two].
  unfold record, read_tls_record. rewrite app_assoc, <-app_assoc.
  rewrite (read_bytes_app ([t; x03; minor] ++ be_encode 2 (zlen hs))) by (rewrite zlen_app, zlen_be; done).
  cbn [mbind result_bind]. rewrite (u16_at_skip [t; x03; minor]) by done.
  change (3 - zlen [t; x03; minor]) with 0. rewrite <-(app_nil_r (be_encode 2 (zlen hs))), u16_at_here by (unfold in_u16; lia).
  cbn [mbind result_bind]. rewrite (read_bytes_app hs) by done. cbn [mbind result_bind]. by rewrite app_nil_r.
Qed.
Lemma server_hello_parsed random session_id cipher server_pub :
  length random = 32%nat -> length session_id = 32%nat -> in_u16 cipher -> length server_pub = 32%nat ->
  parse_server_hello (server_hello_record random session_id cipher x00 (server_hello_exts server_pub))
  = Ok (server_pub, cipher).
Proof.
  intros Hr Hs Hc Hp. assert (Hcc : cipher = be_decode (be_encode 2 cipher)) by (symmetry; by apply be_decode_u16).
  rewrite Hcc at 2. unfold server_hello_record. rewrite be_encode_two. generalize (u8 (Z.shiftr cipher 8)) (u8 cipher).
  intros hi lo. clear Hc Hcc. spell random. spell session_id. spell server_pub. vm_compute. reflexivity.
Qed.

(** ** The two sides *)

Definition known_suite (cipher : Z) : Prop := cipher = TLS13_AES_128_GCM_SHA256 \/ cipher = TLS13_AES_256_GCM_SHA384.
Lemma suite_cipher_ok cipher hash secret label context : known_suite cipher ->
  exists c, suite_cipher cipher (expand_label hash secret label context (cipher_key_len cipher)) = Ok c.
Proof.
  intros Hc. pose proof (expand_label_length hash secret label context (cipher_key_len cipher)) as Hl.
  revert Hl. generalize (expand_label hash secret label context (cipher_key_len cipher)) as key. intros key Hl.
  unfold suite_cipher, aes128_new, aes256_new. rewrite Hl. destruct Hc as [-> | ->]; by eexists.
Qed.
Lemma handshake_ciphers_ok cipher hash shared th : known_suite cipher ->
  let hs := derive_handshake_keys hash shared th (cipher_key_len cipher) in
  (exists c, suite_cipher cipher (hk_read_key hs) = Ok c) /\ exists c, suite_cipher cipher (hk_write_key hs) = Ok c.
Proof.
  intros Hc. unfold derive_handshake_keys, traffic_keys. cbv zeta. cbn [hk_read_key hk_write_key].
  split; by apply suite_cipher_ok.
Qed.

Lemma application_ciphers_ok cipher hash hs_secret transcript : known_suite cipher ->
  let ak := derive_application_keys hash hs_secret transcript (cipher_key_len cipher) in
  (exists c, suite_cipher cipher (hk_read_key ak) = Ok c) /\ exists c, suite_cipher cipher (hk_write_key ak) = Ok c.
Proof.
  intros Hc. unfold derive_application_keys, traffic_keys. cbv zeta. cbn [hk_read_key hk_write_key].
  split; by apply suite_cipher_ok.
Qed.

Lemma flight_front c iv seq ms fin : Forall msg_ok ms -> msg_ok fin ->
  exists m s, msg_ok m /\ flight c iv seq (ms ++ [fin]) = encrypt_handshake c iv seq (hs_msg m) ++ s.
Proof. intros [|m ms' Hm _] Hfin; [exists fin|exists m]; eexists; (split; [done|reflexivity]). Qed.
Lemma read_flight_ccs n c iv seq msgs ms fin s : Forall msg_ok ms -> msg_ok fin ->
  read_flight (S n) c iv seq msgs (emit_middlebox_ccs ++ flight c iv seq (ms ++ [fin]) ++ s)
  = read_flight (S n) c iv seq msgs (flight c iv seq (ms ++ [fin]) ++ s).
Proof.
  intros Hms Hfin. destruct (flight_front c iv seq ms fin Hms Hfin) as (m & s' & Hm & ->).
  unfold msg_ok in Hm. cbn [read_flight]. rewrite ccs_skipped, <-app_assoc. cbn [emit_middlebox_ccs app length].
  by rewrite !handshake_record_read by (rewrite zlen_hs_msg; lia).
Qed.

(** A flight is read whether its messages are in records of their own or in one. *)
Lemma flight_read c iv ms fin : Forall msg_ok (ms ++ [fin]) -> Forall (fun m => m.1 <> x14) ms -> (length ms < 16)%nat ->
  fin.1 = x14 -> forall s,
  read_flight 16 c iv 0 [] (emit_middlebox_ccs ++ write_handshake_msgs c iv (hs_msgs (ms ++ [fin])) ++ s)
  = Ok (hs_msgs (ms ++ [fin]), s).
Proof.
  intros Hok Hty Hlen Hft s. rewrite write_handshake_msgs_flight by done. apply Forall_app in Hok as [Hms Hfin].
  apply Forall_cons in Hfin as [Hfin _]. rewrite read_flight_ccs by done.
  change (read_flight 16 c iv 0 [] ?s) with (read_flight 16 c iv 0 (hs_msgs []) s).
  by rewrite (read_flight_msgs c _ fin Hfin Hft ms []) by (done || lia).
Qed.
Lemma combined_read c iv ms fin : Forall msg_ok (ms ++ [fin]) -> fin.1 = x14 -> zlen (hs_msgs (ms ++ [fin])) < 60000 ->
  forall s, read_flight 16 c iv 0 [] (emit_middlebox_ccs ++ write_encrypted_handshake_combined c iv (hs_msgs (ms ++ [fin])) ++ s)
  = Ok (hs_msgs (ms ++ [fin]), s).
Proof.
  intros Hok Hft Hlen s. unfold write_encrypted_handshake_combined. cbn [read_flight]. rewrite ccs_skipped.
  cbn [emit_middlebox_ccs app length]. rewrite handshake_record_read by lia. cbn [context mbind result_bind app].
  rewrite msgs_contain_msgs by done. rewrite existsb_app. cbn [existsb]. rewrite bool_decide_eq_true_2 by done.
  by rewrite orb_true_r.
Qed.

Section Sides.
Variables (session : VerifiedSession) (server_hello : list byte) (cipher : Z) (eph_secret seed : list byte)
  (alpn : option (list byte)) (mirrored : bool).
Hypotheses (Hsuite : known_suite cipher)
  (Halpn : parse_client_hello_alpn (vs_client_hello session) = Ok alpn) (Hal : zlen (default [] alpn) < 256).

Definition hello_transcript : list byte :=
  client_hello_tls_transcript (vs_client_hello session) ++ drop 5 server_hello.
Definition handshake_keys : HandshakeKeys :=
  derive_handshake_keys (cipher_hash cipher) (x_dh eph_secret (vs_client_pub session))
    (transcript_hash (cipher_hash cipher) hello_transcript) (cipher_key_len cipher).
Definition application_keys (msgs : list byte) : HandshakeKeys :=
  derive_application_keys (cipher_hash cipher) (hk_hs_secret handshake_keys) (hello_transcript ++ msgs)
    (cipher_key_len cipher).

Lemma server_flight_sent : exists msgs wc enc,
  suite_cipher cipher (hk_read_key handshake_keys) = Ok wc
  /\ (forall late, read_flight 16 wc (hk_read_iv handshake_keys) 0 [] (emit_middlebox_ccs ++ enc ++ late) = Ok (msgs, late))
  /\ verify_reality_certificate msgs (vs_auth_key session) = Ok tt
  /\ server_flight session server_hello cipher eph_secret mirrored seed
     = Ok (server_hello ++ emit_middlebox_ccs ++ enc, handshake_keys, application_keys msgs).
Proof.
  unfold server_flight. cbv zeta. fold hello_transcript. fold handshake_keys.
  destruct (handshake_ciphers_ok cipher (cipher_hash cipher) (x_dh eph_secret (vs_client_pub session))
              (transcript_hash (cipher_hash cipher) hello_transcript) Hsuite) as [[wc Hwc] [rc Hrc]].
  fold handshake_keys in Hwc, Hrc.
  rewrite Hwc. cbn [mbind result_bind]. rewrite Hrc. cbn [mbind result_bind]. rewrite Halpn. cbn [mbind result_bind].
  destruct (extensions_msg alpn Hal) as (ee & -> & Hee).
  destruct (cert_msg (vs_auth_key session) seed) as (cert & -> & Hcert & Hparts).
  match goal with |- context [build_certificate_verify ?h ?t ?s] => destruct (verify_msg h t s) as (cv & -> & Hcv) end.
  match goal with |- context [build_finished ?h ?k ?t] => destruct (finished_msg h k t) as (mac & -> & Hmac) end.
  assert (Hok : Forall msg_ok ([(x08, ee); (x0b, cert); (x0f, cv)] ++ [(x14, mac)]))
    by (repeat (apply Forall_cons; split); try apply Forall_nil; unfold msg_ok; cbn [snd]; lia).
  assert (E : ((hs_msg (x08, ee) ++ hs_msg (x0b, cert)) ++ hs_msg (x0f, cv)) ++ hs_msg (x14, mac)
              = hs_msgs ([(x08, ee); (x0b, cert); (x0f, cv)] ++ [(x14, mac)])).
  { unfold hs_msgs. cbn [map app concat]. by rewrite app_nil_r, <-!app_assoc. }
  assert (Hlen : zlen (hs_msgs ([(x08, ee); (x0b, cert); (x0f, cv)] ++ [(x14, mac)])) < 60000).
  { rewrite <-E, !zlen_app, !zlen_hs_msg. cbn [snd]. lia. }
  rewrite E. exists (hs_msgs ([(x08, ee); (x0b, cert); (x0f, cv)] ++ [(x14, mac)])), wc. eexists.
  split; [reflexivity|]. split; [|split; [|reflexivity]].
  - intros late. destruct (mirrored && _); [by apply combined_read|apply flight_read; [done|by repeat constructor|cbn; lia|done]].
  - unfold verify_reality_certificate. pose proof (length_hs_msgs ([(x08, ee); (x0b, cert); (x0f, cv)] ++ [(x14, mac)])) as Hl.
    cbn [app length] in Hl |- *. destruct (length (hs_msgs _)) as [|[|fuel]]; [lia..|].
    rewrite verify_skip by (done || unfold msg_ok; cbn [snd]; lia).
    eapply verify_here; [lia|by intros ->|exact Hparts|apply reality_cert_verified].
Qed.

(** The server takes the client's answer off the stream. *)
Lemma finished_drained c iv mac s : zlen mac = 32 ->
  drain_client_finished 8 c iv 0 [] (emit_middlebox_ccs ++ write_handshake_msgs c iv (hs_msg (x14, mac)) ++ s) = s.
Proof.
  intros Hm. assert (Hok : Forall msg_ok [(x14, mac)]) by (constructor; [unfold msg_ok; cbn [snd]; lia|constructor]).
  assert (E : hs_msg (x14, mac) = hs_msgs [(x14, mac)]) by (unfold hs_msgs; cbn [map concat]; by rewrite app_nil_r).
  rewrite E, write_handshake_msgs_flight by done. cbn [flight]. rewrite app_nil_r. cbn [drain_client_finished].
  rewrite ccs_skipped. cbn [emit_middlebox_ccs app length].
  rewrite handshake_record_read by (rewrite zlen_hs_msg; cbn [snd]; lia). cbn [app].
  rewrite E, msgs_contain_msgs by done. done.
Qed.
End Sides.

(** What the client does with a flight. *)
Lemma client_handshake client_hello secret auth_key server_hello cipher eph_secret hs msgs enc wc rc transcript late :
  (forall rest, read_tls_record (server_hello ++ rest) = Ok (server_hello, rest)) ->
  parse_server_hello server_hello = Ok (x_public eph_secret, cipher) ->
  transcript = client_hello_tls_transcript client_hello ++ drop 5 server_hello ->
  hs = derive_handshake_keys (cipher_hash cipher) (x_dh secret (x_public eph_secret))
         (transcript_hash (cipher_hash cipher) transcript) (cipher_key_len cipher) ->
  suite_cipher cipher (hk_read_key hs) = Ok wc -> suite_cipher cipher (hk_write_key hs) = Ok rc ->
  (forall late, read_flight 16 wc (hk_read_iv hs) 0 [] (emit_middlebox_ccs ++ enc ++ late) = Ok (msgs, late)) ->
  verify_reality_certificate msgs auth_key = Ok tt ->
  let ak := derive_application_keys (cipher_hash cipher) (hk_hs_secret hs) (transcript ++ msgs) (cipher_key_len cipher) in
  tls13_handshake_core client_hello secret (Some auth_key) (server_hello ++ emit_middlebox_ccs ++ enc ++ late)
  = Ok (mkAppKeys (hk_read_key ak) (hk_read_iv ak) (hk_write_key ak) (hk_write_iv ak),
        emit_middlebox_ccs ++ write_handshake_msgs rc (hk_write_iv hs)
          (build_finished (cipher_hash cipher) (hk_client_secret hs) (transcript ++ msgs)), late).
Proof.
  intros Hread Hparse -> -> Hwc Hrc Hfl Hv ak. unfold tls13_handshake_core.
  rewrite Hread. cbn [context mbind result_bind]. rewrite Hparse. cbn [context mbind result_bind]. rewrite Hwc.
  cbn [mbind result_bind]. rewrite Hrc. cbn [mbind result_bind]. rewrite Hfl. cbn [mbind result_bind]. by rewrite Hv.
Qed.

Lemma server_hello_made hello server_pub random sid : hello_layout hello = Some (mkHelloLayout 11 44) ->
  index hello 43 = Ok x20 -> slice_at hello 44 32 = Ok sid -> zlen sid = 32 -> length server_pub = 32%nat ->
  length random = 32%nat -> exists sh,
  build_server_hello hello 4865 server_pub random = Ok sh
  /\ (forall rest, read_tls_record (sh ++ rest) = Ok (sh, rest))
  /\ parse_server_hello sh = Ok (server_pub, 4865).
Proof.
  intros Hl Hid Hsid Hz Hp Hr. exists (server_hello_record random sid 4865 x00 (server_hello_exts server_pub)). split_and!.
  - unfold build_server_hello. rewrite Hl. cbn [ok_or mbind result_bind session_id_offset]. change (44 - 1) with 43. rewrite Hid.
    cbn [mbind result_bind]. change (bz x20) with 32. cbn [Z.eqb negb Pos.eqb]. rewrite Hsid. done.
  - intros rest. unfold server_hello_record. cbv zeta. apply read_record_app.
    rewrite !zlen_app, !zlen_be, Hz. unfold server_hello_exts. rewrite !zlen_app. unfold zlen. rewrite Hr, Hp. cbn. lia.
  - apply server_hello_parsed; [done|unfold zlen in Hz; lia|unfold in_u16; lia|done].
Qed.

(** The two sides complete a handshake under a suite, over whatever ServerHello the
    client can read; with AES-256, the client then has no stream. *)
Definition completes (cipher : Z) (hello secret auth_key : list byte)
    (accept : list byte -> result (TlsStream * list byte * list byte)) : Prop :=
  exists out reply keys server,
    (forall late, tls13_handshake_core hello secret (Some auth_key) (out ++ late) = Ok (keys, reply, late))
    /\ (forall early, accept (reply ++ early) = Ok (server, out, early))
    /\ if cipher =? 4865
       then exists client, client_stream keys = Ok client
              /\ paired client server /\ paired server client /\ ts_read_buf client = [] /\ ts_read_buf server = []
       else client_stream keys = Err "app read cipher".

Lemma read_key_length hash hs_secret transcript key_len :
  zlen (hk_read_key (derive_application_keys hash hs_secret transcript key_len)) = Z.of_nat key_len.
Proof.
  unfold derive_application_keys, traffic_keys. cbv zeta. cbn [hk_read_key]. apply expand_label_length.
Qed.

Lemma handshake_completes cipher hello secret auth_key sh eph_secret mirrored seed alpn : known_suite cipher ->
  parse_client_hello_alpn hello = Ok alpn -> zlen (default [] alpn) < 256 ->
  (forall rest, read_tls_record (sh ++ rest) = Ok (sh, rest)) -> parse_server_hello sh = Ok (x_public eph_secret, cipher) ->
  completes cipher hello secret auth_key
    (accept_reality_core (mkVerifiedSession auth_key hello (x_public secret) 4865) sh cipher eph_secret mirrored seed).
Proof.
  intros Hsuite Ha Hal Hread Hparse. set (session := mkVerifiedSession _ _ _ _).
  destruct (server_flight_sent session sh cipher eph_secret seed alpn mirrored Hsuite Ha Hal) as (msgs & wc & enc & Hwc & Hfl & Hv & Hsf).
  destruct (handshake_ciphers_ok cipher (cipher_hash cipher) (x_dh eph_secret (x_public secret))
              (transcript_hash (cipher_hash cipher) (hello_transcript session sh)) Hsuite) as [_ [rc Hrc]].
  change (suite_cipher cipher (hk_write_key (handshake_keys session sh cipher eph_secret)) = Ok rc) in Hrc.
  assert (Hhs : handshake_keys session sh cipher eph_secret
                = derive_handshake_keys (cipher_hash cipher) (x_dh secret (x_public eph_secret))
                    (transcript_hash (cipher_hash cipher) (hello_transcript session sh)) (cipher_key_len cipher))
    by (unfold handshake_keys; cbn [vs_client_pub session]; by rewrite (x_dh_agree eph_secret secret)).
  pose proof (fun late => client_handshake hello secret auth_key sh cipher eph_secret _ msgs enc wc rc (hello_transcript session sh)
    late Hread Hparse eq_refl Hhs Hwc Hrc Hfl Hv) as Hcl. cbv zeta in Hcl.
  set (hs := handshake_keys session sh cipher eph_secret) in *. set (tr := hello_transcript session sh ++ _) in *.
  destruct (finished_msg (cipher_hash cipher) (hk_client_secret hs) tr) as (mac & Efin & Hmac). rewrite Efin in Hcl.
  destruct (application_ciphers_ok cipher (cipher_hash cipher) (hk_hs_secret hs) tr Hsuite) as [[wa Hwa] [ra Hra]].
  set (ak := derive_application_keys _ _ _ _) in *.
  exists (sh ++ emit_middlebox_ccs ++ enc),
    (emit_middlebox_ccs ++ write_handshake_msgs rc (hk_write_iv hs) (hs_msg (x14, mac))),
    (mkAppKeys (hk_read_key ak) (hk_read_iv ak) (hk_write_key ak) (hk_write_iv ak)),
    (stream_new ra wa (hk_write_iv ak) (hk_read_iv ak)).
  split; [intros late; rewrite <-!app_assoc; exact (Hcl late)|]. split.
  { intros early. unfold accept_reality_core. rewrite Hsf. cbn [mbind result_bind]. fold hs. rewrite Hrc. cbn [mbind result_bind].
    rewrite <-!app_assoc, finished_drained by done.
    change (application_keys session sh cipher eph_secret msgs) with ak. rewrite Hra. cbn [mbind result_bind]. by rewrite Hwa. }
  unfold client_stream. cbn [ak_read_key ak_write_key ak_read_iv ak_write_iv]. destruct Hsuite as [-> | ->].
  - cbn [Z.eqb Pos.eqb TLS13_AES_128_GCM_SHA256]. exists (stream_new wa ra (hk_read_iv ak) (hk_write_iv ak)).
    change (suite_cipher TLS13_AES_128_GCM_SHA256 ?k) with (aes128_new k) in Hwa, Hra. rewrite Hwa, Hra.
    split_and!; [reflexivity|split; reflexivity|split; reflexivity|reflexivity|reflexivity].
  - cbn [Z.eqb Pos.eqb TLS13_AES_256_GCM_SHA384]. unfold aes128_new, ak. by rewrite read_key_length.
Qed.

(** With the ServerHello the server makes up itself. *)
Lemma local_handshake profile sni secret d auth_key eph_secret random seed :
  zlen sni <= 60000 -> length secret = 32%nat -> draws_wf d -> length eph_secret = 32%nat -> length random = 32%nat ->
  let hello := build_client_hello profile sni (x_public secret) d in
  completes 4865 hello secret auth_key
    (accept_reality (mkVerifiedSession auth_key hello (x_public secret) 4865) eph_secret random seed).
Proof.
  intros Hsni Hsec Hd Heph Hrand hello.
  assert (Hks : zlen (x_public secret) = 32) by (unfold zlen; by rewrite x_public_length).
  destruct (client_hello_read profile sni (x_public secret) d Hsni Hks Hd) as (Hl & _ & Hsid & _ & Ha & _).
  pose proof (client_hello_id profile sni (x_public secret) d Hsni Hks Hd) as Hid. fold hello in Hl, Hsid, Ha, Hid.
  destruct (server_hello_made hello (x_public eph_secret) random (hd_session_id d) Hl Hid Hsid (dw_session_id d Hd)
              (x_public_length _ Heph) Hrand) as (sh & Hsh & Hread & Hparse).
  unfold accept_reality. cbn [vs_client_hello vs_cipher]. rewrite Hsh.
  by apply (handshake_completes 4865 hello secret auth_key sh eph_secret false seed (Some (str "h2"))); [left|..].
Qed.

(** ** Failures *)

Lemma core_key_length client_hello secret auth_key s sh rest pub cipher keys reply left :
  read_tls_record s = Ok (sh, rest) -> parse_server_hello sh = Ok (pub, cipher) ->
  tls13_handshake_core client_hello secret auth_key s = Ok (keys, reply, left) ->
  known_suite cipher /\ zlen (ak_read_key keys) = Z.of_nat (cipher_key_len cipher).
Proof.
  intros Hr Hp. unfold tls13_handshake_core. rewrite Hr. cbn [context mbind result_bind]. rewrite Hp. cbn [context mbind result_bind].
  set (hs := derive_handshake_keys _ _ _ _).
  destruct (suite_cipher cipher (hk_read_key hs)) as [rc|?|?] eqn:Es; cbn [mbind result_bind]; [|done..].
  assert (Hk : known_suite cipher).
  { unfold suite_cipher in Es. destruct (cipher =? TLS13_AES_128_GCM_SHA256) eqn:E1; [left; by apply Z.eqb_eq|].
    destruct (cipher =? TLS13_AES_256_GCM_SHA384) eqn:E2; [right; by apply Z.eqb_eq|done]. }
  destruct (suite_cipher cipher (hk_write_key hs)) as [wc|?|?]; cbn [mbind result_bind]; [|done..].
  destruct (read_flight _ _ _ _ _ _) as [[msgs s']|?|?]; cbn [mbind result_bind]; [|done..].
  set (chk := match auth_key with Some key => verify_reality_certificate msgs key | None => Ok tt end).
  destruct chk as [[]|?|?]; cbn [mbind result_bind]; [|done..]. 
  set (ak := derive_application_keys _ _ _ _). intros He. split; [exact Hk|].
  replace keys with (mkAppKeys (hk_read_key ak) (hk_read_iv ak) (hk_write_key ak) (hk_write_iv ak)) by congruence.
  cbn [ak_read_key]. apply read_key_length.
Qed.

(** The suites a client can use.  Every browser profile offers both AES suites, and
    the handshake is carried through under either of them.  But the stream behind it is
    always set up for AES-128: when the server has chosen TLS_AES_256_GCM_SHA384, a
    handshake that succeeded is followed by a failure, with or without REALITY and
    whatever the server sent. *)
Theorem utls_suites client_hello secret auth_key s sh rest pub cipher keys reply left :
  read_tls_record s = Ok (sh, rest) -> parse_server_hello sh = Ok (pub, cipher) ->
  tls13_handshake_core client_hello secret auth_key s = Ok (keys, reply, left) ->
  (forall profile, TLS13_AES_128_GCM_SHA256 ∈ client_ciphers profile /\ TLS13_AES_256_GCM_SHA384 ∈ client_ciphers profile)
  /\ (cipher = TLS13_AES_128_GCM_SHA256 \/ cipher = TLS13_AES_256_GCM_SHA384)
  /\ (cipher = TLS13_AES_256_GCM_SHA384 -> client_stream keys = Err "app read cipher").
Proof.
  intros Hr Hp Hc. destruct (core_key_length _ _ _ _ _ _ _ _ _ _ _ Hr Hp Hc) as [Hk Hl]. split_and!; [|exact Hk|].
  - intros profile. split; apply (bool_decide_eq_true_1 _); by destruct profile; vm_compute.
  - intros ->. unfold client_stream, aes128_new. rewrite Hl. done.
Qed.
End Streams.

Lemma server_key_share_safe hs end_ : forall fuel i, 0 <= i -> is_panic (server_key_share fuel hs i end_) = false.
Proof.
  induction fuel as [|fuel IH]; intros i Hi; cbn [server_key_share]; [done|].
  destruct ((i + 4 <=? end_) && (i + 4 <=? zlen hs)) eqn:E; [|done]. bool_props.
  destruct (u16_at_ok hs i) as (t & -> & Ht); [lia..|]. cbn [mbind result_bind].
  destruct (u16_at_ok hs (i + 2)) as (n & -> & Hn); [lia..|]. cbn [mbind result_bind].
  destruct (slice_get hs (i + 4) n) as [ext|]; cbn [ok_or mbind result_bind]; [|done].
  specialize (IH (i + 4 + n) ltac:(lia)). destruct ((t =? 51) && (4 <=? zlen ext)) eqn:E2; [|done]. bool_props.
  destruct (u16_at_ok ext 0) as (g & -> & Hg); [lia..|]. cbn [mbind result_bind].
  destruct (u16_at_ok ext 2) as (k & -> & Hkl); [lia..|]. cbn [mbind result_bind].
  by destruct (_ && _ && _).
Qed.

(** Parsing a ServerHello.  The client takes the length of the session id from byte 38
    of the message before it has looked at the message's length: among the records it
    can read, a ServerHello of 5 to 38 bytes panics, and nothing else does. *)
Theorem server_hello_panics record : 5 <= zlen record ->
  (is_panic (parse_server_hello record) = true
   <-> (exists t, record !! 5%nat = Some t /\ t = x02) /\ 10 <= zlen record <= 43).
Proof.
  intros Hr. unfold parse_server_hello, slice_from. rewrite (proj2 (Z.ltb_ge _ _)) by lia. cbn [mbind result_bind].
  change (Z.to_nat 5) with 5%nat. assert (Hz : zlen (drop 5 record) = zlen record - 5) by (unfold zlen in *; rewrite length_drop; lia).
  rewrite lookup_drop. change (5 + 0)%nat with 5%nat. set (hs := drop 5 record) in *.
  destruct (4 <? zlen hs) eqn:E4; cbn [andb negb]; bool_props; [|split; [done|lia]].
  case_bool_decide as H2; cbn [negb]; [|split; [done|intros [(t & Ht & ->) _]; congruence]].
  split.
  - intros Hp. split; [by exists x02|]. split; [lia|]. apply Z.nlt_ge. intros Hlt.
    destruct (index_ok hs (4 + 2 + 32)) as [sl Hs]; [lia|]. rewrite Hs in Hp. cbn [mbind result_bind] in Hp.
    pose proof (bz_range sl). destruct (zlen hs <? 38 + (1 + bz sl) + 3) eqn:E5; [done|]. bool_props.
    destruct (u16_at_ok hs (38 + (1 + bz sl))) as (c & Hc & _); [lia..|]. rewrite Hc in Hp. cbn [mbind result_bind] in Hp.
    destruct (zlen hs <? 38 + (1 + bz sl) + (2 + 1) + 2) eqn:E6; [done|]. bool_props.
    destruct (u16_at_ok hs (38 + (1 + bz sl) + (2 + 1))) as (el & He & _); [lia..|]. rewrite He in Hp. cbn [mbind result_bind] in Hp.
    pose proof (server_key_share_safe hs (38 + (1 + bz sl) + (2 + 1) + 2 + el) (length hs) (38 + (1 + bz sl) + (2 + 1) + 2) ltac:(lia)) as Hks.
    destruct (server_key_share _ _ _ _) as [[pk|]|?|?]; done.
  - intros [_ Hl]. unfold index. rewrite lookup_ge_None_2; [done|]. unfold zlen in *. lia.
Qed.

(** ** Instances *)

(** A cipher whose tag is the nonce. *)
Definition nonce_tag (n : list byte) : list byte := take 16 (n ++ replicate 16 x00).
Lemma length_nonce_tag n : length (nonce_tag n) = 16%nat.
Proof. unfold nonce_tag. rewrite length_take, length_app, length_replicate. lia. Qed.
Definition tagged_seal (k n m aad : list byte) : list byte := m ++ nonce_tag n.
Definition tagged_open (k n c aad : list byte) : option (list byte) :=
  if bool_decide (16 <= length c)%nat && bool_decide (drop (length c - 16) c = nonce_tag n)
  then Some (take (length c - 16) c) else None.
Definition toy_tls13 : @TlsCrypto toy_reality.
Proof.
  refine (@Build_TlsCrypto toy_reality (fun _ m => take 8 m) (fun h _ m => take (hash_len h) (m ++ replicate (hash_len h) x00))
    (fun k m => take 64 (k ++ m ++ replicate 64 x00)) tagged_seal tagged_open (fun _ => replicate 32 x02)
    (fun _ _ => replicate 64 x03) _ _ _ _ _ _); try done.
  - intros h k m. rewrite length_take, length_app, length_replicate. lia.
  - intros k m. rewrite length_take, !length_app, length_replicate. lia.
  - intros k n m aad. unfold tagged_seal. rewrite length_app, length_nonce_tag. done.
  - intros k n m aad. unfold tagged_open, tagged_seal. rewrite length_app, length_nonce_tag, Nat.add_sub.
    rewrite drop_app_length, take_app_length. rewrite !bool_decide_eq_true_2 by (done || lia). done.
Defined.
Definition demo_pair : TlsStream := stream_new (Aes128 (replicate 16 x01)) (Aes128 (replicate 16 x01)) (replicate 12 x02) (replicate 12 x02).

Lemma tls_stream_delivery_witness :
  let out := (tls_write_all (H0 := toy_tls13) demo_pair [str "ab"; str "cde"] (takes_whole [str "ab"; str "cde"])).1 in
  drain (tls_poll_read (H0 := toy_tls13) 2) 20 demo_pair (map Arrive [take 3 out; take 20 (drop 3 out); drop 23 out])
  = (str "abcde", Failed)
  /\ let late := (tls_write_all (H0 := toy_tls13) demo_pair [str "ab"] [NotReady; Takes 24]).1 in
     drain (tls_poll_read (H0 := toy_tls13) 2) 20 demo_pair [Arrive late] = ([], Failed).
Proof.
  destruct (tls_stream_delivery (H0 := toy_tls13) 2 demo_pair demo_pair [str "ab"; str "cde"] 20) as [(out & Hw & Hr) H].
  - lia.
  - split; reflexivity.
  - reflexivity.
  - repeat constructor; discriminate || reflexivity.
  - vm_compute. lia.
  - split.
    + rewrite Hw. cbn [fst]. apply Hr; vm_compute in Hw; injection Hw as <-; [repeat constructor; discriminate|reflexivity].
    + destruct (H (str "ab") ltac:(reflexivity)) as (_ & _ & late & Hl & Hn). change (length (str "ab") + 22)%nat with 24%nat in Hl.
      rewrite Hl. cbn [fst]. apply Hn. vm_compute in Hl. injection Hl as <-. vm_compute. reflexivity.
Defined.

(** A server that chooses AES-256. *)
Definition demo_tls_hello : list byte := build_client_hello Safari (str "example.com") (replicate 32 x21) demo_hello_draws.
Definition demo_tls_out : list byte :=
  match accept_reality (H0 := toy_tls13) (mkVerifiedSession (replicate 32 x05) demo_tls_hello (replicate 32 x21) 4866)
          (replicate 32 x31) (replicate 32 x32) (replicate 32 x33) [] with
  | Ok (_, out, _) => out
  | _ => []
  end.
Definition demo_tls_core : result (AppKeys * list byte * list byte) :=
  tls13_handshake_core (H0 := toy_tls13) demo_tls_hello (replicate 32 x21) (Some (replicate 32 x05)) demo_tls_out.
Definition demo_tls_keys : AppKeys :=
  match demo_tls_core with Ok (keys, _, _) => keys | _ => mkAppKeys [] [] [] [] end.
Definition demo_tls_reply : list byte := match demo_tls_core with Ok (_, reply, _) => reply | _ => [] end.
Definition demo_server_hello : list byte := take 127 demo_tls_out.

Lemma utls_suites_witness : client_stream demo_tls_keys = Err "app read cipher".
Proof.
  refine (proj2 (proj2 (utls_suites (H0 := toy_tls13) demo_tls_hello (replicate 32 x21) (Some (replicate 32 x05)) demo_tls_out
    demo_server_hello (drop 127 demo_tls_out) (replicate 32 x31) 4866 demo_tls_keys demo_tls_reply [] _ _ _)) _);
    vm_compute; reflexivity.
Defined.

Lemma server_hello_panics_witness :
  is_panic (parse_server_hello ([x16; x03; x03; x00; x06; x02; x00; x00; x02; x03; x03])) = true.
Proof.
  refine (proj2 (server_hello_panics [x16; x03; x03; x00; x06; x02; x00; x00; x02; x03; x03] _) _).
  - vm_compute. discriminate.
  - split; [exists x02; split; reflexivity|]. split; vm_compute; discriminate.
Defined.
