(* ===== verification/Reality.v ===== *)
(** * The REALITY inbound

    [rsb-protocol/src/reality_inbound.rs] and [reality_mirror.rs]: a connection whose
    ClientHello authenticates its client ([Hello]) is taken through a TLS handshake
    ([Tls13]) behind the ServerHello of the site that is imitated; any other is relayed to that
    site.  What the site answers is an argument, absent when it cannot be reached; random
    draws, the clock and what the peer sends are arguments too. *)
From stdpp Require Import base tactics gmap list strings.
From Stdlib Require Import ZArith Lia.
From Stdlib Require Import Strings.Byte.
From S2P Require Import Prelude Json Text DnsWire Codec Sniff Config Vless Hello Tls13.

Local Open Scope Z_scope.

(** ** The mirrored ServerHello *)

Record ParsedServerHello := mkParsedServerHello {
  ph_random : list byte;
  ph_cipher : Z;
  ph_compression : byte;
  ph_extensions : list byte;
}.
Definition parse_server_hello_body (hs : list byte) : result ParsedServerHello :=
  if negb (bool_decide (hs !! 0%nat = Some x02)) then Err "not ServerHello handshake"
  else
    sid_len ← index hs (4 + 2 + 32);
    let i := 38 + (1 + bz sid_len) in
    if zlen hs <? i + 3 then Err "server hello truncated before cipher"
    else
      cipher ← u16_at hs i;
      compression ← index hs (i + 2);
      let i := i + 2 + 1 in
      if zlen hs <? i + 2 then Err "server hello missing extensions"
      else
        ext_len ← u16_at hs i;
        let i := i + 2 in
        if zlen hs <? i + ext_len then Err "server hello extensions truncated"
        else
          extensions ← slice_at hs i ext_len;
          random ← slice_at hs (4 + 2) 32;
          Ok (mkParsedServerHello random cipher compression extensions).

(** The entries of a list, as in a ClientHello; the patched extension. *)
Fixpoint patch_entries (fuel : nat) (data : list byte) (k list_end : Z) (eph_pub : list byte) : result (option (list byte)) :=
  match fuel with
  | O => Ok None
  | S fuel =>
      if k + 4 <=? list_end then
        group ← u16_at data k;
        key_len ← u16_at data (k + 2);
        let k := k + 4 in
        if zlen data <? k + key_len then Ok None
        else if (group =? 29) && (key_len =? 32) then Ok (Some (overwrite data k eph_pub))
        else patch_entries fuel data (k + key_len) list_end eph_pub
      else Ok None
  end.
(** A single X25519 entry, as in a ServerHello. *)
Definition single_entry (data : list byte) : result bool :=
  if 36 <=? zlen data then
    group ← u16_at data 0;
    key_len ← u16_at data 2;
    Ok ((group =? 29) && (key_len =? 32) && (4 + key_len <=? zlen data))
  else Ok false.
Definition patch_key_share_entries (data eph_pub : list byte) : result (option (list byte)) :=
  single ← single_entry data;
  if (single : bool) then Ok (Some (overwrite data 4 eph_pub))
  else if zlen data <? 2 then Ok None
  else
    list_len ← u16_at data 0;
    patch_entries (length data) data 2 (Z.min (2 + list_len) (zlen data)) eph_pub.
Fixpoint patch_key_share (fuel : nat) (extensions : list byte) (i : Z) (eph_pub : list byte) : result (list byte) :=
  match fuel with
  | O => Err "reality mirror: X25519 key_share not found in dest ServerHello"
  | S fuel =>
      if i + 4 <=? zlen extensions then
        ext_type ← u16_at extensions i;
        ext_val_len ← u16_at extensions (i + 2);
        let i := i + 4 in
        let next := patch_key_share fuel extensions (i + ext_val_len) eph_pub in
        if (ext_type =? 51) && (4 <=? ext_val_len) && (i + ext_val_len <=? zlen extensions) then
          data ← slice_at extensions i ext_val_len;
          patched ← patch_key_share_entries data eph_pub;
          match patched with
          | Some data => Ok (overwrite extensions i data)
          | None => next
          end
        else next
      else Err "reality mirror: X25519 key_share not found in dest ServerHello"
  end.
Definition rebuild_server_hello (dest_record client_sid eph_pub : list byte) : result (list byte * Z) :=
  hs ← slice_from dest_record 5;
  parsed ← parse_server_hello_body hs;
  if negb ((ph_cipher parsed =? 4865) || (ph_cipher parsed =? 4866) || (ph_cipher parsed =? 4867))
  then Err "reality mirror: dest cipher not TLS1.3"
  else
    extensions ← patch_key_share (length (ph_extensions parsed)) (ph_extensions parsed) 0 eph_pub;
    Ok (server_hello_record (ph_random parsed) client_sid (ph_cipher parsed) (ph_compression parsed) extensions, ph_cipher parsed).

Section Inbound.
Context `{TlsCrypto}.

Record MirroredHello := mkMirroredHello {
  mh_server_hello : list byte;
  mh_change_cipher_spec : list byte;
  mh_cipher : Z;
  mh_eph_secret : list byte;
}.
(** [mirror_dest_handshake], given what the site sends and the ephemeral secret drawn. *)
Definition mirror_dest_handshake (client_hello : list byte) (dest : option (list byte)) (eph_secret : list byte)
  : result MirroredHello :=
  s ← ok_or "reality mirror: connect" dest;
  '(server_hello, s) ← read_tls_record s;
  if negb ((5 <? zlen server_hello) && bool_decide (server_hello !! 0%nat = Some x16)
           && bool_decide (server_hello !! 5%nat = Some x02))
  then Err "reality mirror: expected ServerHello record"
  else
    '(ccs, _) ← read_tls_record s;
    if negb (bool_decide (ccs !! 0%nat = Some x14)) then Err "reality mirror: expected ChangeCipherSpec after ServerHello"
    else
      layout ← ok_or "client hello layout" (hello_layout client_hello);
      sid_len ← index client_hello (session_id_offset layout - 1);
      if negb (bz sid_len =? 32) then Err "reality mirror: expected 32-byte client session id"
      else
        client_sid ← slice_at client_hello (session_id_offset layout) (bz sid_len);
        '(server_hello, cipher) ← rebuild_server_hello server_hello client_sid (x_public eph_secret);
        _ ← parse_client_hello_key_share client_hello;
        Ok (mkMirroredHello server_hello ccs cipher eph_secret).

(** The draws of a server: the secret of the mirrored handshake, and of the local one
    with its random; and the seed of the certificate's key. *)
Record ServerDraws := mkServerDraws {
  sd_mirror : list byte;
  sd_local : list byte;
  sd_random : list byte;
  sd_seed : list byte;
}.
Definition accept_reality_mirror (session : VerifiedSession) (mirror : MirroredHello) (seed s : list byte)
  : result (TlsStream * list byte * list byte) :=
  accept_reality_core session (mh_server_hello mirror) (mh_cipher mirror) (mh_eph_secret mirror) true seed s.
Definition mirror_and_accept (session : VerifiedSession) (dest : option (list byte)) (d : ServerDraws) (s : list byte)
  : result (TlsStream * list byte * list byte) :=
  match mirror_dest_handshake (vs_client_hello session) dest (sd_mirror d) with
  | Ok mirror => accept_reality_mirror session mirror (sd_seed d) s
  | Err _ => accept_reality session (sd_local d) (sd_random d) (sd_seed d) s
  | Panic e => Panic e
  end.

(** [serve_connection], up to the VLESS request: a tunnel, with what the server sent and
    what is left of the client's bytes; or what the site is sent, first and then. *)
Inductive reality_served :=
| RealityTunnel (session : VerifiedSession) (stream : TlsStream) (sent rest : list byte)
| Passthrough (client_hello rest : list byte).
Definition serve_connection (private_key : list byte) (short_ids : list (list byte)) (max_time_diff now : Z)
    (dest : option (list byte)) (d : ServerDraws) (s : list byte) : result reality_served :=
  '(client_hello, s) ← read_tls_record s;
  match verify_reality_session client_hello private_key short_ids max_time_diff now with
  | Ok session =>
      '(stream, sent, rest) ← mirror_and_accept session dest d s;
      Ok (RealityTunnel session stream sent rest)
  | Err _ =>
      _ ← ok_or "reality passthrough connect" dest;
      Ok (Passthrough client_hello s)
  | Panic e => Panic e
  end.

(** ** Clients *)

Variables b64_url b64_std : list byte -> option (list byte).

(** [reality_connect], from the clock, what is drawn and what the server sends: the
    stream, what was sent to get it, and what is left. *)
Definition reality_connect (tls : Value) (sni : option (list byte)) (secret : list byte) (d : HelloDraws) (ts : Z) (s : list byte)
  : result (TlsStream * list byte * list byte) :=
  cfg ← parse_reality b64_url b64_std tls;
  let server_name := default (rc_server_name cfg) sni in
  let hello := generate_client_hello (rc_fingerprint cfg) server_name secret d in
  '(hello, auth_key) ← patch_reality_session secret hello (rc_public_key cfg) (rc_short_id cfg) (reality_version tls) ts;
  '(keys, reply, s) ← tls13_handshake_core hello secret (Some auth_key) s;
  stream ← client_stream keys;
  Ok (stream, hello ++ reply, s).

(** [utls::connect]: when the handshake fails, a second connection is made with rustls. *)
Inductive utls_outcome :=
| UtlsStream (stream : TlsStream) (sent rest : list byte)
| RustlsFallback (server_name : list byte) (insecure : bool).
Definition utls_connect (server : list byte) (tls : option Value) (sni : option (list byte)) (secret : list byte)
    (d : HelloDraws) (s : list byte) : result utls_outcome :=
  let insecure := default false (t ← tls; flag t "insecure") in
  let server_name := default server (or_else sni (t ← tls; text t "server_name")) in
  let profile := default Chrome (name ← fingerprint_name tls; profile_parse name) in
  let hello := generate_client_hello profile server_name secret d in
  match
    '(keys, reply, s) ← tls13_handshake_core hello secret None s;
    stream ← client_stream keys;
    Ok (stream, hello ++ reply, s)
  with
  | Ok (stream, sent, rest) => Ok (UtlsStream stream sent rest)
  | Err _ => Ok (RustlsFallback server_name insecure)
  | Panic e => Panic e
  end.
End Inbound.

(** ** The form of a ServerHello *)

Section Form.
Variables (random sid : list byte) (cipher : Z) (comp : byte) (l : list (Z * list byte)).
Hypotheses (Hrandom : zlen random = 32) (Hsid : zlen sid < 256) (Hcipher : in_u16 cipher) (Hl : Forall ext_ok l)
  (Hexts : zlen (exts_bytes l) < 60000).

Let record : list byte := server_hello_record random sid cipher comp (exts_bytes l).
Let hs : list byte := drop 5 record.

Lemma server_hs_form : exists v, zlen v = 3
  /\ hs = (x02 :: v ++ [x03; x03]) ++ random ++ u8 (zlen sid) :: sid ++ be_encode 2 cipher ++ comp
          :: be_encode 2 (zlen (exts_bytes l)) ++ exts_bytes l
  /\ zlen hs = 44 + zlen sid + zlen (exts_bytes l)
  /\ record = [x16; x03; x03] ++ be_encode 2 (zlen hs) ++ hs.
Proof.
  unfold hs, record, server_hello_record. cbv zeta. rewrite be_encode_two. cbn [app drop].
  set (body := x03 :: x03 :: random ++ _).
  assert (Hb : zlen body = 40 + zlen sid + zlen (exts_bytes l)).
  { unfold body. rewrite !zlen_cons, zlen_app, zlen_cons, !zlen_app, zlen_cons, zlen_app, !zlen_be. lia. }
  exists (be_encode 3 (zlen body)). split_and!; [apply zlen_be| |rewrite zlen_cons, zlen_app, zlen_be, Hb; lia|done].
  rewrite <-app_assoc. done.
Qed.

(** Where the parts of the message are. *)
Lemma server_hs_fields :
  hs !! 0%nat = Some x02
  /\ index hs 38 = Ok (u8 (zlen sid))
  /\ u16_at hs (39 + zlen sid) = Ok cipher
  /\ index hs (41 + zlen sid) = Ok comp
  /\ u16_at hs (42 + zlen sid) = Ok (zlen (exts_bytes l))
  /\ slice_at hs 6 32 = Ok random
  /\ exists pre, zlen pre = 44 + zlen sid /\ hs = pre ++ exts_bytes l.
Proof.
  destruct server_hs_form as (v & Hv & E & _ & _). rewrite E. pose proof (zlen_nonneg sid).
  set (front := x02 :: v ++ [x03; x03]).
  assert (Hf : zlen front = 6) by (unfold front; rewrite zlen_cons, zlen_app, Hv; done).
  pose proof (zlen_be 2 cipher) as Hb1. pose proof (zlen_be 2 (zlen (exts_bytes l))) as Hb2.
  split_and!; [done|..].
  - seek ltac:(fun _ => lia). sought.
  - seek ltac:(fun _ => lia). sought. done.
  - seek ltac:(fun _ => lia). sought.
  - seek ltac:(fun _ => lia). sought. unfold in_u16. pose proof (zlen_nonneg (exts_bytes l)). lia.
  - seek ltac:(fun _ => lia). sought.
  - exists (front ++ random ++ u8 (zlen sid) :: sid ++ be_encode 2 cipher ++ comp :: be_encode 2 (zlen (exts_bytes l))).
    split; [|by rewrite <-!app_assoc; cbn [app]; rewrite <-!app_assoc].
    rewrite !zlen_app, zlen_cons, !zlen_app, zlen_cons. lia.
Qed.

Lemma bz_sid_len : bz (u8 (zlen sid)) = zlen sid.
Proof. rewrite bz_u8. apply Z.mod_small. pose proof (zlen_nonneg sid). lia. Qed.

Lemma server_body_parsed : parse_server_hello_body hs = Ok (mkParsedServerHello random cipher comp (exts_bytes l)).
Proof.
  destruct server_hs_form as (_ & _ & _ & Hlen & _). pose proof (zlen_nonneg sid) as Hn1. pose proof (zlen_nonneg (exts_bytes l)) as Hn2.
  destruct server_hs_fields as (H0 & H1 & H2 & H3 & H4 & H5 & pre & Hpre & E).
  unfold parse_server_hello_body. rewrite bool_decide_eq_true_2 by done. cbn [negb]. change (4 + 2 + 32) with 38.
  rewrite H1. cbn [mbind result_bind]. rewrite bz_sid_len, Hlen.
  replace (38 + (1 + zlen sid)) with (39 + zlen sid) by lia. rewrite (proj2 (Z.ltb_ge _ _)) by lia. rewrite H2. cbn [mbind result_bind].
  replace (39 + zlen sid + 2) with (41 + zlen sid) by lia. rewrite H3. cbn [mbind result_bind].
  replace (41 + zlen sid + 1) with (42 + zlen sid) by lia. rewrite (proj2 (Z.ltb_ge _ _)) by lia. rewrite H4. cbn [mbind result_bind].
  rewrite (proj2 (Z.ltb_ge _ _)) by lia. rewrite E at 1. rewrite <-(app_nil_r (exts_bytes l)) at 1.
  rewrite slice_at_app_eq by (done || lia). cbn [mbind result_bind]. change (4 + 2) with 6. by rewrite H5.
Qed.
End Form.

(** A value found among the extensions of a ServerHello. *)
Definition share_of (e : Z * list byte) : option (list byte) :=
  if (e.1 =? 51) && (4 <=? zlen e.2) then
    match u16_at e.2 0, u16_at e.2 2 with
    | Ok group, Ok key_len =>
        if (group =? 29) && (key_len =? 32) && (4 + key_len <=? zlen e.2) then slice_get e.2 4 key_len else None
    | _, _ => None
    end
  else None.

Section Exts.
Variables (e : Z * list byte) (pre rest : list byte).
Hypothesis He : ext_ok e.
Let all : list byte := pre ++ push_ext e.1 e.2 ++ rest.
Lemma zlen_push : zlen (push_ext e.1 e.2) = 4 + zlen e.2.
Proof. unfold push_ext. rewrite !zlen_app, !zlen_be. lia. Qed.
Lemma ext_at : u16_at all (zlen pre) = Ok e.1 /\ u16_at all (zlen pre + 2) = Ok (zlen e.2)
  /\ slice_at all (zlen pre + 4) (zlen e.2) = Ok e.2 /\ zlen all = zlen pre + 4 + zlen e.2 + zlen rest.
Proof.
  destruct He as [Ht Hn]. pose proof (zlen_nonneg e.2). pose proof (zlen_be 2 e.1) as H1. pose proof (zlen_be 2 (zlen e.2)) as H2.
  unfold all. split_and!; [| | |rewrite !zlen_app, zlen_push; lia]; unfold push_ext; rewrite <-!app_assoc; seek ltac:(fun _ => lia); sought.
  - done.
  - unfold in_u16. lia.
Qed.
End Exts.

Lemma server_key_share_exts l : Forall ext_ok l -> forall fuel pre, (length l < fuel)%nat ->
  server_key_share fuel (pre ++ exts_bytes l) (zlen pre) (zlen pre + zlen (exts_bytes l)) = Ok (first_ext share_of l).
Proof.
  induction 1 as [|e l He _ IH]; intros [|fuel] pre Hf; cbn [length] in Hf; try lia; cbn [server_key_share].
  { rewrite (proj2 (Z.leb_gt _ _)); [done|]. change (zlen (exts_bytes [])) with 0. lia. }
  unfold exts_bytes. cbn [map concat]. fold (exts_bytes l). destruct (ext_at e pre (exts_bytes l) He) as (H1 & H2 & H3 & H4).
  pose proof (zlen_nonneg (exts_bytes l)). pose proof (zlen_nonneg e.2).
  rewrite H4, zlen_app, zlen_push. rewrite !(proj2 (Z.leb_le _ _)) by lia. cbn [andb]. rewrite H1. cbn [mbind result_bind]. rewrite H2.
  cbn [mbind result_bind]. rewrite (slice_get_at _ _ _ e.2) by (done || pose proof (zlen_nonneg pre); lia). cbn [ok_or mbind result_bind].
  assert (Hn : server_key_share fuel (pre ++ push_ext e.1 e.2 ++ exts_bytes l) (zlen pre + 4 + zlen e.2)
                 (zlen pre + (4 + zlen e.2 + zlen (exts_bytes l))) = Ok (first_ext share_of l)).
  { specialize (IH fuel (pre ++ push_ext e.1 e.2) ltac:(lia)). rewrite zlen_app, zlen_push, <-app_assoc in IH.
    replace (zlen pre + 4 + zlen e.2) with (zlen pre + (4 + zlen e.2)) by lia.
    by replace (zlen pre + (4 + zlen e.2 + zlen (exts_bytes l))) with (zlen pre + (4 + zlen e.2) + zlen (exts_bytes l)) by lia. }
  rewrite Hn. change (first_ext share_of (e :: l)) with (match share_of e with Some a => Some a | None => first_ext share_of l end).
  generalize (first_ext share_of l) as r. intros r. unfold share_of. destruct ((e.1 =? 51) && (4 <=? zlen e.2)) eqn:E; [|done]. bool_props.
  destruct (u16_at_ok e.2 0) as (g & -> & _); [lia..|]. destruct (u16_at_ok e.2 2) as (k & -> & Hk); [lia..|]. cbn [mbind result_bind].
  destruct ((g =? 29) && (k =? 32) && (4 + k <=? zlen e.2)) eqn:E2; [|done]. bool_props. unfold slice_get.
  by rewrite (proj2 (Z.ltb_ge _ _)) by lia.
Qed.

(** The one X25519 entry of a ServerHello's key share. *)
Definition x25519_share (key : list byte) : Z * list byte := (51, [x00; x1d; x00; x20] ++ key).
Lemma share_of_x25519 key : zlen key = 32 -> share_of (x25519_share key) = Some key.
Proof.
  intros Hk. unfold share_of, x25519_share. cbn [fst snd]. rewrite zlen_app, Hk. change (zlen [x00; x1d; x00; x20]) with 4.
  change (u16_at ([x00; x1d; x00; x20] ++ key) 0) with (@Ok Z 29). change (u16_at ([x00; x1d; x00; x20] ++ key) 2) with (@Ok Z 32).
  cbn. unfold slice_get. rewrite !zlen_cons, Hk. cbn. f_equal. apply take_ge. unfold zlen in Hk. lia.
Qed.
Lemma share_of_other e : e.1 <> 51 -> share_of e = None.
Proof. intros He. unfold share_of. by rewrite (proj2 (Z.eqb_neq _ _)). Qed.
Lemma x25519_share_ok key : zlen key = 32 -> ext_ok (x25519_share key).
Proof. intros Hk. split; unfold x25519_share, in_u16; cbn [fst snd]; [lia|]. rewrite zlen_app, Hk. done. Qed.

Lemma overwrite_at (pre d d' rest : list byte) : length d = length d' ->
  overwrite (pre ++ d ++ rest) (zlen pre) d' = pre ++ d' ++ rest.
Proof.
  intros Hd. unfold overwrite, zlen. rewrite Nat2Z.id, take_app_length, <-Hd. do 2 f_equal.
  by rewrite app_assoc, <-length_app, drop_app_length.
Qed.
Lemma patch_x25519 key eph : zlen key = 32 -> zlen eph = 32 ->
  patch_key_share_entries (x25519_share key).2 eph = Ok (Some (x25519_share eph).2).
Proof.
  intros Hk He. unfold patch_key_share_entries, single_entry, x25519_share. cbn [snd]. rewrite zlen_app, Hk.
  change (36 <=? zlen [x00; x1d; x00; x20] + 32) with true. cbn match.
  change (u16_at ([x00; x1d; x00; x20] ++ key) 0) with (@Ok Z 29). change (u16_at ([x00; x1d; x00; x20] ++ key) 2) with (@Ok Z 32).
  cbn [mbind result_bind]. change ((29 =? 29) && (32 =? 32) && (4 + 32 <=? zlen [x00; x1d; x00; x20] + 32)) with true. cbn match.
  do 2 f_equal. rewrite <-(app_nil_r key) at 1. change 4 with (zlen [x00; x1d; x00; x20]).
  rewrite overwrite_at by (unfold zlen in *; lia). by rewrite app_nil_r.
Qed.

Section Patch.
Variables (key eph : list byte) (b : list (Z * list byte)).
Hypotheses (Hkey : zlen key = 32) (Heph : zlen eph = 32).

(** The first key share is patched, and nothing else. *)
Lemma patch_exts a : Forall ext_ok a -> Forall (fun e => e.1 <> 51) a -> forall fuel pre, (length a < fuel)%nat ->
  patch_key_share fuel (pre ++ exts_bytes (a ++ x25519_share key :: b)) (zlen pre) eph
  = Ok (pre ++ exts_bytes (a ++ x25519_share eph :: b)).
Proof.
  induction 1 as [|e a He _ IH]; intros Ha [|fuel] pre Hf; cbn [length] in Hf; try lia; cbn [patch_key_share app].
  - unfold exts_bytes. cbn [map concat]. fold (exts_bytes b).
    destruct (ext_at _ pre (exts_bytes b) (x25519_share_ok key Hkey)) as (H1 & H2 & H3 & H4).
    pose proof (zlen_nonneg (exts_bytes b)). assert (Hn : zlen (x25519_share key).2 = 36) by (cbn [x25519_share snd]; rewrite zlen_app, Hkey; done).
    rewrite H4, Hn. rewrite (proj2 (Z.leb_le _ _)) by lia. rewrite H1. cbn [mbind result_bind]. rewrite H2. cbn [mbind result_bind].
    rewrite Hn. change ((x25519_share key).1 =? 51) with true. rewrite (proj2 (Z.leb_le (zlen pre + 4 + 36) _)) by lia.
    change (true && (4 <=? 36) && true) with true. cbn match. rewrite Hn in H3. rewrite H3. cbn [mbind result_bind].
    rewrite patch_x25519 by done. cbn [mbind result_bind]. f_equal. unfold push_ext. rewrite <-!app_assoc.
    change (x25519_share eph).1 with (x25519_share key).1.
    assert (Hn' : zlen (x25519_share eph).2 = 36) by (cbn [x25519_share snd]; rewrite zlen_app, Heph; done). rewrite Hn, Hn'.
    set (front := pre ++ be_encode 2 (x25519_share key).1 ++ be_encode 2 36).
    assert (Hfr : forall d, pre ++ be_encode 2 (x25519_share key).1 ++ be_encode 2 36 ++ d = front ++ d)
      by (intros d; unfold front; by rewrite <-!app_assoc).
    rewrite !Hfr.
    replace (zlen pre + 4) with (zlen front) by (unfold front; rewrite !zlen_app, !zlen_be; lia).
    apply overwrite_at. unfold zlen in *. lia.
  - apply Forall_cons in Ha as [Ht Ha]. unfold exts_bytes. cbn [map concat]. fold (exts_bytes (a ++ x25519_share key :: b)).
    fold (exts_bytes (a ++ x25519_share eph :: b)).
    destruct (ext_at _ pre (exts_bytes (a ++ x25519_share key :: b)) He) as (H1 & H2 & _ & H4).
    pose proof (zlen_nonneg (exts_bytes (a ++ x25519_share key :: b))). pose proof (zlen_nonneg e.2).
    rewrite H4, (proj2 (Z.leb_le _ _)) by lia. rewrite H1. cbn [mbind result_bind]. rewrite H2. cbn [mbind result_bind].
    rewrite (proj2 (Z.eqb_neq _ _)) by done. cbn [andb].
    specialize (IH Ha fuel (pre ++ push_ext e.1 e.2) ltac:(lia)). rewrite zlen_app, zlen_push, <-!app_assoc in IH.
    by replace (zlen pre + 4 + zlen e.2) with (zlen pre + (4 + zlen e.2)) by lia.
Qed.
End Patch.

(** ** The mirrored handshake *)

Lemma server_hello_read random sid cipher comp l pk :
  zlen random = 32 -> zlen sid < 256 -> in_u16 cipher -> Forall ext_ok l -> zlen (exts_bytes l) < 60000 ->
  first_ext share_of l = Some pk ->
  let record := server_hello_record random sid cipher comp (exts_bytes l) in
  (forall rest, read_tls_record (record ++ rest) = Ok (record, rest)) /\ parse_server_hello record = Ok (pk, cipher).
Proof.
  intros Hr Hs Hc Hl He Hpk record.
  destruct (server_hs_form random sid cipher comp l Hr) as (v & Hv & _ & Hlen & Hrec). fold record in Hlen, Hrec.
  destruct (server_hs_fields random sid cipher comp l Hr Hc He) as (F0 & F1 & F2 & _ & F4 & _ & pre & Hpre & E).
  fold record in F0, F1, F2, F4, E. pose proof (zlen_nonneg sid) as N1. pose proof (zlen_nonneg (exts_bytes l)) as N2.
  split; [intros rest; rewrite Hrec; apply read_record_app; lia|].
  unfold parse_server_hello, slice_from. rewrite (proj2 (Z.ltb_ge _ _)).
  2: { rewrite Hrec, zlen_app. change (zlen [x16; x03; x03]) with 3. rewrite zlen_app, zlen_be. lia. }
  cbn [mbind result_bind]. change (Z.to_nat 5) with 5%nat. rewrite F0. rewrite (proj2 (Z.ltb_lt _ _)) by lia.
  rewrite bool_decide_eq_true_2 by done. cbn [andb negb]. change (4 + 2 + 32) with 38. rewrite F1. cbn [mbind result_bind].
  rewrite bz_sid_len by done. replace (38 + (1 + zlen sid)) with (39 + zlen sid) by lia.
  rewrite (proj2 (Z.ltb_ge _ _)) by lia. rewrite F2. cbn [mbind result_bind].
  replace (39 + zlen sid + (2 + 1)) with (42 + zlen sid) by lia.
  rewrite (proj2 (Z.ltb_ge _ _)) by lia. rewrite F4. cbn [mbind result_bind].
  replace (42 + zlen sid + 2) with (zlen pre) by lia. rewrite E at 2.
  rewrite server_key_share_exts; [by rewrite Hpk|done|].
  unfold zlen in Hlen, N1. pose proof (length_exts l). lia.
Qed.

Lemma read_exact_split n s a b : read_exact n s = Ok (a, b) -> s = a ++ b.
Proof. unfold read_exact. destruct (_ <? _); [done|]. intros [= <- <-]. by rewrite take_drop. Qed.
Lemma read_tls_record_split s r rest : read_tls_record s = Ok (r, rest) -> s = r ++ rest.
Proof.
  unfold read_tls_record. destruct (read_exact 5 s) as [[hdr s1]|?|?] eqn:E1; cbn [mbind result_bind]; [|done..].
  destruct (u16_at hdr 3) as [len|?|?]; cbn [mbind result_bind]; [|done..].
  destruct (read_exact len s1) as [[body s2]|?|?] eqn:E2; cbn [mbind result_bind]; [|done..]. intros [= <- <-].
  apply read_exact_split in E1 as ->. apply read_exact_split in E2 as ->. by rewrite app_assoc.
Qed.

(** What a site answers: a ServerHello with one key share, of X25519, and a change of
    ciphers. *)
Record SiteHello := mkSiteHello {
  sh_random : list byte;
  sh_sid : list byte;
  sh_cipher : Z;
  sh_comp : byte;
  sh_before : list (Z * list byte);
  sh_key : list byte;
  sh_after : list (Z * list byte);
}.
Record site_ok (h : SiteHello) : Prop := {
  so_random : zlen (sh_random h) = 32;
  so_sid : zlen (sh_sid h) <= 32;
  so_cipher : 4865 <= sh_cipher h <= 4867;
  so_before : Forall ext_ok (sh_before h) /\ Forall (fun e => e.1 <> 51) (sh_before h);
  so_after : Forall ext_ok (sh_after h);
  so_key : zlen (sh_key h) = 32;
  so_len : zlen (exts_bytes (sh_before h ++ x25519_share (sh_key h) :: sh_after h)) < 60000;
}.
Definition site_exts (h : SiteHello) (key : list byte) : list (Z * list byte) := sh_before h ++ x25519_share key :: sh_after h.
Definition site_hello (h : SiteHello) : list byte :=
  server_hello_record (sh_random h) (sh_sid h) (sh_cipher h) (sh_comp h) (exts_bytes (site_exts h (sh_key h))).
Definition mirrored_hello (h : SiteHello) (sid key : list byte) : list byte :=
  server_hello_record (sh_random h) sid (sh_cipher h) (sh_comp h) (exts_bytes (site_exts h key)).

Lemma first_ext_before h key : site_ok h -> zlen key = 32 -> first_ext share_of (site_exts h key) = Some key.
Proof.
  intros Hh Hk. destruct (so_before h Hh) as [_ Hb]. unfold site_exts. induction Hb as [|e l He _ IH].
  - by apply first_ext_here, share_of_x25519.
  - cbn [app]. rewrite first_ext_skip by by apply share_of_other. exact IH.
Qed.
Lemma site_exts_ok h key : site_ok h -> zlen key = 32 ->
  Forall ext_ok (site_exts h key) /\ zlen (exts_bytes (site_exts h key)) < 60000.
Proof.
  intros Hh Hk. split.
  - apply Forall_app. split; [apply Hh|]. constructor; [by apply x25519_share_ok|apply Hh].
  - pose proof (so_len h Hh) as Hl. unfold site_exts. unfold exts_bytes in *. rewrite map_app, concat_app, zlen_app in Hl |- *.
    cbn [map concat] in Hl |- *. rewrite zlen_app in Hl |- *. rewrite !zlen_push in Hl |- *.
    cbn [x25519_share snd] in Hl |- *. rewrite zlen_app in Hl |- *. rewrite (so_key h Hh) in Hl. lia.
Qed.
Lemma site_hello_rebuilt h sid key : site_ok h -> zlen key = 32 ->
  rebuild_server_hello (site_hello h) sid key = Ok (mirrored_hello h sid key, sh_cipher h).
Proof.
  intros Hh Hk. destruct (site_exts_ok h (sh_key h) Hh (so_key h Hh)) as [He Hl].
  pose proof (so_sid h Hh) as Hs. pose proof (so_cipher h Hh) as Hc.
  assert (Hc' : in_u16 (sh_cipher h)) by (unfold in_u16; lia).
  destruct (server_hs_form (sh_random h) (sh_sid h) (sh_cipher h) (sh_comp h) (site_exts h (sh_key h)) (so_random h Hh)) as (_ & _ & _ & _ & Hrec).
  unfold rebuild_server_hello, site_hello, slice_from. rewrite (proj2 (Z.ltb_ge _ _)).
  2: { rewrite Hrec, zlen_app. change (zlen [x16; x03; x03]) with 3. rewrite zlen_app, zlen_be. pose proof (zlen_nonneg (drop 5 (server_hello_record (sh_random h) (sh_sid h) (sh_cipher h) (sh_comp h) (exts_bytes (site_exts h (sh_key h)))))). lia. }
  cbn [mbind result_bind]. change (Z.to_nat 5) with 5%nat.
  rewrite server_body_parsed; [|apply Hh|lia|done|done]. cbn [mbind result_bind ph_cipher ph_extensions ph_random ph_compression].
  replace ((sh_cipher h =? 4865) || (sh_cipher h =? 4866) || (sh_cipher h =? 4867)) with true
    by (assert (sh_cipher h = 4865 \/ sh_cipher h = 4866 \/ sh_cipher h = 4867) as [-> |[-> | ->]] by lia; done). cbn [negb].
  pose proof (patch_exts (sh_key h) key (sh_after h) (so_key h Hh) Hk (sh_before h) (proj1 (so_before h Hh)) (proj2 (so_before h Hh))) as Hp.
  fold (site_exts h (sh_key h)) in Hp. fold (site_exts h key) in Hp.
  specialize (Hp (length (exts_bytes (site_exts h (sh_key h)))) []). cbn [app] in Hp. change (zlen []) with 0 in Hp.
  rewrite Hp; [done|]. pose proof (length_exts (site_exts h (sh_key h))) as Hx. unfold site_exts in Hx at 1. rewrite length_app in Hx. cbn [length] in Hx. lia.
Qed.

Section Served.
Context `{TlsCrypto}.
Variables (profile : Profile) (sni secret : list byte) (d : HelloDraws).
Hypotheses (Hsni : zlen sni <= 60000) (Hsec : length secret = 32%nat) (Hd : draws_wf d).
Let hello : list byte := build_client_hello profile sni (x_public secret) d.

Lemma hello_key_length : zlen (x_public secret) = 32.
Proof. unfold zlen. by rewrite x_public_length. Qed.
Lemma client_hello_record_read rest : read_tls_record (hello ++ rest) = Ok (hello, rest).
Proof.
  unfold hello, build_client_hello, build_client_hello_with_ciphers, hello_record. cbv zeta. apply read_record_app.
  rewrite !zlen_app, !zlen_be, zlen_be_list, (dw_random d Hd), (dw_session_id d Hd).
  pose proof (client_exts_short profile sni (x_public secret) d hello_key_length).
  assert (zlen (client_ciphers profile) <= 19) by (destruct profile; vm_compute; discriminate).
  change (zlen [x01]) with 1. change (zlen [x03; x03]) with 2. change (zlen [x20]) with 1. change (zlen [x01; x00]) with 2. lia.
Qed.

Lemma site_mirrored h eph_secret more : site_ok h -> length eph_secret = 32%nat ->
  mirror_dest_handshake hello (Some (site_hello h ++ emit_middlebox_ccs ++ more)) eph_secret
  = Ok (mkMirroredHello (mirrored_hello h (hd_session_id d) (x_public eph_secret)) emit_middlebox_ccs (sh_cipher h) eph_secret).
Proof.
  intros Hh Heph. assert (Hek : zlen (x_public eph_secret) = 32) by (unfold zlen; by rewrite x_public_length).
  destruct (client_hello_read profile sni (x_public secret) d Hsni hello_key_length Hd) as (Hl & _ & Hsid & Hks & _ & _).
  pose proof (client_hello_id profile sni (x_public secret) d Hsni hello_key_length Hd) as Hid. fold hello in Hl, Hsid, Hks, Hid.
  destruct (site_exts_ok h (sh_key h) Hh (so_key h Hh)) as [He Hlen]. pose proof (so_sid h Hh). pose proof (so_cipher h Hh).
  destruct (server_hello_read (sh_random h) (sh_sid h) (sh_cipher h) (sh_comp h) (site_exts h (sh_key h)) (sh_key h)
    (so_random h Hh) ltac:(lia) ltac:(unfold in_u16; lia) He Hlen (first_ext_before h _ Hh (so_key h Hh))) as [Hread _].
  fold (site_hello h) in Hread. unfold mirror_dest_handshake. cbn [ok_or mbind result_bind]. rewrite Hread. cbn [mbind result_bind].
  assert (Hsh : (5 <? zlen (site_hello h)) && bool_decide (site_hello h !! 0%nat = Some x16) && bool_decide (site_hello h !! 5%nat = Some x02) = true).
  { destruct (server_hs_form (sh_random h) (sh_sid h) (sh_cipher h) (sh_comp h) (site_exts h (sh_key h)) (so_random h Hh)) as (v & _ & E & Hz & Hrec).
    fold (site_hello h) in E, Hz, Hrec. pose proof (zlen_nonneg (sh_sid h)). pose proof (zlen_nonneg (exts_bytes (site_exts h (sh_key h)))).
    rewrite Hrec. rewrite !zlen_app, zlen_be. rewrite (proj2 (Z.ltb_lt _ _)) by (change (zlen [x16; x03; x03]) with 3; lia).
    rewrite be_encode_two, E. done. }
  rewrite Hsh. cbn [negb].
  assert (Hccs : read_tls_record (emit_middlebox_ccs ++ more) = Ok (emit_middlebox_ccs, more)).
  { unfold read_tls_record. change (emit_middlebox_ccs ++ more) with ([x14; x03; x03; x00; x01] ++ [x01] ++ more).
    rewrite read_bytes_app by done. cbn [mbind result_bind]. change (u16_at [x14; x03; x03; x00; x01] 3) with (@Ok Z 1).
    cbn [mbind result_bind]. by rewrite read_bytes_app. }
  rewrite Hccs. cbn [mbind result_bind]. change (negb (bool_decide (emit_middlebox_ccs !! 0%nat = Some x14))) with false. cbn match.
  rewrite Hl. cbn [ok_or mbind result_bind session_id_offset]. change (44 - 1) with 43. rewrite Hid. cbn [mbind result_bind].
  change (bz x20) with 32. cbn [Z.eqb Pos.eqb negb]. rewrite Hsid. cbn [mbind result_bind]. rewrite site_hello_rebuilt by done.
  cbn [mbind result_bind]. by rewrite Hks.
Qed.

Lemma mirrored_hello_read h sid key : site_ok h -> zlen sid = 32 -> zlen key = 32 ->
  (forall rest, read_tls_record (mirrored_hello h sid key ++ rest) = Ok (mirrored_hello h sid key, rest))
  /\ parse_server_hello (mirrored_hello h sid key) = Ok (key, sh_cipher h).
Proof.
  intros Hh Hs Hk. destruct (site_exts_ok h key Hh Hk) as [He Hlen]. pose proof (so_cipher h Hh).
  exact (server_hello_read (sh_random h) sid (sh_cipher h) (sh_comp h) (site_exts h key) key (so_random h Hh) ltac:(lia)
    ltac:(unfold in_u16; lia) He Hlen (first_ext_before h key Hh Hk)).
Qed.

(** What the site sends, if it can be reached, and the suite of the connection. *)
Definition site_sends (site : option (SiteHello * list byte)) : option (list byte) :=
  '(h, more) ← site; Some (site_hello h ++ emit_middlebox_ccs ++ more).
Definition site_suite (site : option (SiteHello * list byte)) : Z :=
  match site with Some (h, _) => sh_cipher h | None => 4865 end.

Section Answered.
Variables (auth_key : list byte) (site : option (SiteHello * list byte)) (sd : ServerDraws).
Hypotheses (Hm : length (sd_mirror sd) = 32%nat) (Hl : length (sd_local sd) = 32%nat) (Hr : length (sd_random sd) = 32%nat)
  (Hsite : forall h more, site = Some (h, more) -> site_ok h).
Let session : VerifiedSession := mkVerifiedSession auth_key hello (x_public secret) 4865.

(** A client's hello is answered, with the site's ServerHello or without. *)
Lemma mirror_and_accept_completes : known_suite (site_suite site) ->
  completes (site_suite site) hello secret auth_key (mirror_and_accept session (site_sends site) sd).
Proof.
  intros Hsuite. unfold mirror_and_accept, session. cbn [vs_client_hello].
  destruct site as [[h more]|]; cbn [site_sends site_suite mbind option_bind] in *; [|by apply local_handshake].
  pose proof (Hsite h more eq_refl) as Hh. rewrite site_mirrored by done.
  unfold accept_reality_mirror. cbn [mh_server_hello mh_cipher mh_eph_secret].
  assert (Hek : zlen (x_public (sd_mirror sd)) = 32) by (unfold zlen; by rewrite x_public_length).
  destruct (mirrored_hello_read h (hd_session_id d) (x_public (sd_mirror sd)) Hh (dw_session_id d Hd) Hek) as [Hread Hparse].
  destruct (client_hello_read profile sni (x_public secret) d Hsni hello_key_length Hd) as (_ & _ & _ & _ & Ha & _). fold hello in Ha.
  exact (handshake_completes (sh_cipher h) hello secret auth_key _ (sd_mirror sd) true (sd_seed sd) _ Hsuite Ha eq_refl Hread Hparse).
Qed.
(** A site that chooses ChaCha20-Poly1305 is mirrored, and then the suite is not known. *)
Lemma mirror_unsupported s : site_suite site = 4867 ->
  mirror_and_accept session (site_sends site) sd s = Err "unsupported cipher suite".
Proof.
  intros Hc. unfold mirror_and_accept, session. cbn [vs_client_hello].
  destruct site as [[h more]|]; cbn [site_sends site_suite mbind option_bind] in *; [|done].
  rewrite site_mirrored by eauto. unfold accept_reality_mirror, accept_reality_core, server_flight.
  cbn [mh_server_hello mh_cipher mh_eph_secret]. by rewrite Hc.
Qed.
End Answered.
End Served.

Lemma decode_short_id_length s id : decode_short_id s = Ok id -> zlen id = 8.
Proof.
  unfold decode_short_id. destruct (decode_hex s) as [bytes|?|?]; cbn [mbind result_bind]; [|done..]. intros [= <-].
  unfold zlen. rewrite length_app, length_take, length_replicate. lia.
Qed.
Lemma parse_reality_short_id b64_url b64_std tls cfg : parse_reality b64_url b64_std tls = Ok cfg -> zlen (rc_short_id cfg) = 8.
Proof.
  unfold parse_reality. destruct (ok_or "reality block" _) as [reality|?|?]; cbn [mbind result_bind]; [|done..].
  destruct (ok_or "reality public_key" _) as [pk|?|?]; cbn [mbind result_bind]; [|done..].
  destruct (ok_or "invalid base64" _) as [bytes|?|?]; cbn [mbind result_bind]; [|done..]. destruct (negb _); [done|]. cbv zeta.
  destruct (decode_short_id _) as [id|?|?] eqn:E; cbn [mbind result_bind]; [|done..]. intros [= <-].
  by eapply decode_short_id_length.
Qed.

(** C18.  A REALITY connection, end to end.  A client whose configuration has the server's
    public key, an allowed short id and a name of at most 60000 bytes, and whose clock is
    within the allowed difference (120 s by default), seals its session into a ClientHello of whatever
    browser; the inbound recognises it and answers behind the ServerHello of the site it
    imitates, with that site's random, suite and extensions and its own key, or behind
    one it makes up when the site cannot be reached.  What follows depends on the suite
    of the site.  With TLS_AES_128_GCM_SHA256, or without the site, both sides complete
    the handshake: their streams fit, in both directions, and neither has consumed a
    byte of what the other sends next.  With TLS_AES_256_GCM_SHA384 the server has its
    tunnel, but the client fails after the handshake.  With TLS_CHACHA20_POLY1305_SHA256
    the server fails, whatever the client sends. *)
Theorem reality_connection `{TlsCrypto} b64_url b64_std tls cfg sni secret private_key short_ids ts max_time_diff now d
    (site : option (SiteHello * list byte)) sd :
  parse_reality b64_url b64_std tls = Ok cfg -> rc_public_key cfg = x_public private_key ->
  (exists allowed, allowed ∈ short_ids /\ short_id_matches allowed (rc_short_id cfg) = true) ->
  abs_diff now (u32 ts) <= (if max_time_diff =? 0 then 120 else max_time_diff) ->
  zlen (default (rc_server_name cfg) sni) <= 60000 -> length secret = 32%nat -> draws_wf d ->
  length (sd_mirror sd) = 32%nat -> length (sd_local sd) = 32%nat -> length (sd_random sd) = 32%nat ->
  (forall h more, site = Some (h, more) -> site_ok h) ->
  exists hello auth_key,
    let session := mkVerifiedSession auth_key hello (x_public secret) 4865 in
    let connect := reality_connect b64_url b64_std tls sni secret d ts in
    let serve := serve_connection private_key short_ids max_time_diff now (site_sends site) sd in
    patch_reality_session secret (generate_client_hello (rc_fingerprint cfg) (default (rc_server_name cfg) sni) secret d)
      (rc_public_key cfg) (rc_short_id cfg) (reality_version tls) ts = Ok (hello, auth_key)
    /\ (site_suite site <> 4867 -> exists out reply server,
          (forall early, serve (hello ++ reply ++ early) = Ok (RealityTunnel session server out early))
          /\ if site_suite site =? 4865
             then exists client, (forall late, connect (out ++ late) = Ok (client, hello ++ reply, late))
                    /\ paired client server /\ paired server client /\ ts_read_buf client = [] /\ ts_read_buf server = []
             else forall late, connect (out ++ late) = Err "app read cipher")
    /\ (site_suite site = 4867 -> forall s, serve (hello ++ s) = Err "unsupported cipher suite").
Proof.
  intros Hcfg Hpk Hsi Hts Hsni Hsec Hd Hm Hl Hr Hsite. pose proof (parse_reality_short_id _ _ _ _ Hcfg) as Hid.
  set (name := default (rc_server_name cfg) sni) in *.
  destruct (session_accepted (rc_fingerprint cfg) name secret private_key (rc_short_id cfg) short_ids (reality_version tls) ts
    max_time_diff now d Hsni Hsec Hd Hid Hts Hsi) as (d' & auth_key & Hd' & Hpatch & Hver).
  exists (build_client_hello (rc_fingerprint cfg) name (x_public secret) d'), auth_key. cbv zeta.
  split; [by rewrite Hpk|]. split.
  - intros Hc. assert (Hsuite : known_suite (site_suite site)).
    { destruct site as [[h more]|]; [|by left]. pose proof (so_cipher h (Hsite h more eq_refl)).
      unfold site_suite, known_suite, TLS13_AES_128_GCM_SHA256, TLS13_AES_256_GCM_SHA384 in *. lia. }
    destruct (mirror_and_accept_completes (rc_fingerprint cfg) name secret d' Hsni Hsec Hd' auth_key site sd Hm Hl Hr Hsite Hsuite)
      as (out & reply & keys & server & Hcore & Hacc & Hpair).
    exists out, reply, server. split.
    { intros early. unfold serve_connection. rewrite client_hello_record_read by done. cbn [mbind result_bind]. rewrite Hver, Hacc. done. }
    assert (Hconn : forall late, reality_connect b64_url b64_std tls sni secret d ts (out ++ late)
      = stream ← client_stream keys; Ok (stream, build_client_hello (rc_fingerprint cfg) name (x_public secret) d' ++ reply, late)).
    { intros late. unfold reality_connect. rewrite Hcfg. cbn [mbind result_bind]. unfold generate_client_hello. fold name.
      rewrite Hpk, Hpatch. cbn [mbind result_bind]. by rewrite Hcore. }
    destruct (site_suite site =? 4865).
    + destruct Hpair as (client & Hcs & Hpair). exists client. split; [|exact Hpair]. intros late. by rewrite Hconn, Hcs.
    + intros late. by rewrite Hconn, Hpair.
  - intros Hc s. unfold serve_connection. rewrite client_hello_record_read by done. cbn [mbind result_bind].
    rewrite Hver, mirror_unsupported by done. done.
Qed.

(** C19.  Who passes for a REALITY client, and who does not.  Of a peer whose first record
    can be read, that record is its ClientHello.  It gets a tunnel only if the hello
    carries a session id that was sealed, over the whole hello, under the key that the
    server's secret and the hello's own key share give, and that is fresh and has an
    allowed short id.  A peer whose hello is nothing of the kind gets the imitated site:
    that is sent the ClientHello and everything behind it, byte for byte (or the
    connection fails, when the site cannot be reached).  And nobody who was verified is
    passed on to the site. *)
Theorem reality_gatekeeping `{TlsCrypto} private_key short_ids max_time_diff now site sd s :
  let served := serve_connection private_key short_ids max_time_diff now site sd s in
  match read_tls_record s with
  | Ok (hello, rest) =>
      let genuine := authentic hello private_key short_ids max_time_diff now in
      s = hello ++ rest
      /\ (forall session stream sent left, served = Ok (RealityTunnel session stream sent left) ->
            vs_client_hello session = hello /\ genuine session)
      /\ ((forall session, ~ genuine session) ->
            served = match site with Some _ => Ok (Passthrough hello rest) | None => Err "reality passthrough connect" end)
      /\ (forall h r, served = Ok (Passthrough h r) -> h = hello /\ r = rest
            /\ forall session, verify_reality_session hello private_key short_ids max_time_diff now <> Ok session)
  | Err e => served = Err e
  | Panic e => served = Panic e
  end.
Proof.
  cbv zeta. unfold serve_connection. destruct (read_tls_record s) as [[hello rest]|?|?] eqn:Er; cbn [mbind result_bind]; [|done..].
  apply read_tls_record_split in Er. pose proof (verify_session_sound hello private_key short_ids max_time_diff now) as Hs.
  split; [done|]. destruct (verify_reality_session hello _ _ _ _) as [session|e|e] eqn:Ev; [| |done].
  - destruct Hs as [Ha Hh]. destruct (mirror_and_accept session site sd rest) as [[[stream sent] left]|?|?]; cbn [mbind result_bind];
      split_and!; intros; try done; try (by exfalso; eapply H1); simplify_eq; done.
  - destruct site; cbn [ok_or mbind result_bind]; split_and!; intros; simplify_eq; try done.
Qed.

(** ** Instances *)

(** A site's ServerHello, with the version before its key share. *)
Definition demo_site : SiteHello :=
  mkSiteHello (replicate 32 x61) (replicate 32 x62) 4865 x00 [(43, [x03; x04])] (replicate 32 x63) [].
Lemma demo_site_ok : site_ok demo_site.
Proof.
  split; cbn; try done; try (split; repeat constructor; unfold in_u16; cbn; try lia; done).
Qed.
Definition demo_server_draws : ServerDraws :=
  mkServerDraws (replicate 32 x31) (replicate 32 x34) (replicate 32 x32) (replicate 32 x33).

(** A configuration, with keys written as they are. *)
Definition demo_reality : Value := Object [
  (str "server_name", Str (str "example.com"));
  (str "reality", Object [(str "public_key", Str (replicate 32 x42)); (str "short_id", Str (str "0a0b"));
                          (str "fingerprint", Str (str "firefox"))])].
Definition demo_cfg : RealityConfig :=
  mkRealityConfig (replicate 32 x42) ([x0a; x0b] ++ replicate 6 x00) (str "example.com") Firefox.

Lemma reality_connection_witness :
  exists hello out reply server client session,
    (forall late, reality_connect (H0 := toy_tls13) Some Some demo_reality None (replicate 32 x21) demo_hello_draws 1000 (out ++ late)
                  = Ok (client, hello ++ reply, late))
    /\ (forall early, serve_connection (H0 := toy_tls13) (replicate 32 x42) [[x0a; x0b] ++ replicate 6 x00] 0 1100
                        (Some (site_hello demo_site ++ emit_middlebox_ccs ++ [])) demo_server_draws (hello ++ reply ++ early)
                      = Ok (RealityTunnel session server out early))
    /\ paired client server /\ paired server client.
Proof.
  destruct (reality_connection (H0 := toy_tls13) Some Some demo_reality demo_cfg None (replicate 32 x21) (replicate 32 x42)
    [[x0a; x0b] ++ replicate 6 x00] 1000 0 1100 demo_hello_draws (Some (demo_site, [])) demo_server_draws)
    as (hello & auth_key & _ & H & _); [vm_compute; reflexivity|reflexivity| |vm_compute; discriminate|vm_compute; discriminate
      |reflexivity|split; reflexivity|reflexivity|reflexivity|reflexivity| |].
  - exists ([x0a; x0b] ++ replicate 6 x00). split; [left|vm_compute; reflexivity].
  - intros h more E. injection E as <- _. exact demo_site_ok.
  - destruct H as (out & reply & server & Hs & client & Hc & Hp & Hp' & _); [discriminate|].
    eexists hello, out, reply, server, client, _. split_and!; [exact Hc|exact Hs|exact Hp|exact Hp'].
Defined.
