(* ===== verification/ShadowTls.v ===== *)
(** * ShadowTLS

    [rsb-protocol/src/shadowtls/]: the session id that marks a client ([handshake.rs]),
    the relay that lets the client complete a TLS handshake with another site while the
    server watches ([server.rs], [v3.rs]), the framed connection that follows ([v3.rs],
    and [v2.rs] for version 2), and the configuration.

    HMAC-SHA1 and SHA-256 come from external crates: the class [ShadowCrypto].  A running
    HMAC is the bytes it has been given so far.  The TLS of the client is rustls, which reads
    and writes through the connections modelled here; the streams run on the arrivals of
    [Vless].  Random draws are arguments. *)
From stdpp Require Import base tactics gmap list strings.
From Stdlib Require Import ZArith Lia.
From Stdlib Require Import Strings.Byte.
From S2P Require Import Prelude Json Text Ip DnsWire Codec Sniff Users Connections Relay Config Vless Hello Tls13 Reality.

Local Open Scope Z_scope.

Class ShadowCrypto := {
  hmac_sha1 : list byte -> list byte -> list byte;
  st_sha256 : list byte -> list byte;
  hmac_sha1_length : forall k m, length (hmac_sha1 k m) = 20%nat;
  st_sha256_length : forall m, length (st_sha256 m) = 32%nat;
}.

Definition SERVER_RANDOM_INDEX : Z := 11.
Definition SESSION_ID_START : Z := 39.

Section Shadow.
Context `{ShadowCrypto}.

(** The first bytes of an HMAC. *)
Definition tag4 (password msg : list byte) : list byte := take 4 (hmac_sha1 password msg).

(** ** The marked ClientHello *)

(** [generate_v3_session_id], of a handshake message, with the 28 bytes drawn. *)
Definition generate_v3_session_id (password client_hello draw : list byte) : list byte :=
  if zlen client_hello <? SESSION_ID_START + 32 then replicate 32 x00
  else draw ++ tag4 password (take 39 client_hello ++ (draw ++ replicate 4 x00) ++ drop 71 client_hello).

Fixpoint match_password (hs : list byte) (users : list (list byte * list byte)) : option (list byte) :=
  match users with
  | [] => None
  | (_, password) :: users =>
      if bool_decide (tag4 password (take 67 hs ++ replicate 4 x00 ++ drop 71 hs) = take 4 (drop 67 hs))
      then Some password else match_password hs users
  end.
Definition verify_v3_client_hello (record : list byte) (users : list (list byte * list byte)) : option (list byte) :=
  if (zlen record <? 6) || negb (bool_decide (record !! 0%nat = Some x16)) then None
  else
    let hs := drop 5 record in
    if negb (bool_decide (hs !! 0%nat = Some x01)) then None
    else if zlen hs <? SESSION_ID_START + 32 then None
    else if negb (bool_decide (hs !! 38%nat = Some x20)) then None
    else match_password hs users.

(** [replace_client_hello_key_share]: the first x25519 share, of which the loop leaves out the
    last place. *)
Fixpoint replace_share_loop (n : nat) (i : nat) (record public_key : list byte) : option (list byte) :=
  match n with
  | O => None
  | S n =>
      if bool_decide (take 4 (drop i record) = [x00; x1d; x00; x20])
      then Some (take (i + 4) record ++ public_key ++ drop (i + 36) record)
      else replace_share_loop n (S i) record public_key
  end.
Definition replace_client_hello_key_share (record public_key : list byte) : result (list byte) :=
  ok_or "client hello key share extension missing" (replace_share_loop (length record - 36) 0 record public_key).
(** An empty session id becomes one of 32 bytes; the lengths grow. *)
Definition insert_session_id (record : list byte) : list byte :=
  let hs_len := be_decode (take 3 (drop 6 record)) + 32 in
  let rec_len := u16 (be_decode (take 2 (drop 3 record)) + 32) in
  take 3 record ++ be_encode 2 rec_len ++ take 1 (drop 5 record) ++ be_encode 3 hs_len
    ++ take 34 (drop 9 record) ++ [x20] ++ replicate 32 x00 ++ drop 44 record.
Definition sign_session_id (record password draw : list byte) : list byte :=
  if zlen record <? 5 + SESSION_ID_START + 32 then record
  else
    let session_id := draw ++ tag4 password (take 39 (drop 5 record) ++ (draw ++ replicate 4 x00) ++ drop 76 record) in
    take 44 record ++ session_id ++ drop 76 record.
Definition patch_v3_session_id (record password draw : list byte) : list byte :=
  if negb (bool_decide (record !! 0%nat = Some x16)) || (zlen record <? 5) then record
  else if negb (bool_decide (record !! 5%nat = Some x01)) then record
  else
    match record !! 43%nat with
    | None => record
    | Some sid_len =>
        if bz sid_len =? 0 then sign_session_id (insert_session_id record) password draw
        else if negb (bz sid_len =? 32) then record
        else sign_session_id record password draw
    end.
(** [patch_client_hello_buffer]: the buffer, and whether a ClientHello was found; [n] offsets
    are left. *)
Fixpoint patch_loop (n offset : nat) (buf password draw : list byte) : list byte * bool :=
  match n with
  | O => (buf, false)
  | S n =>
      let len := be_decode (take 2 (drop (offset + 3) buf)) in
      let stop := Z.of_nat offset + 5 + len in
      if negb (bool_decide (buf !! offset = Some x16)) || ((zlen buf <? stop) || (len <? 4))
         || negb (bool_decide (buf !! (offset + 5)%nat = Some x01)) then patch_loop n (S offset) buf password draw
      else
        let record := take (5 + Z.to_nat len) (drop offset buf) in
        (take offset buf ++ patch_v3_session_id record password draw ++ drop (Z.to_nat stop) buf, true)
  end.
Definition patch_client_hello_buffer (buf password draw : list byte) : list byte * bool :=
  patch_loop (length buf - 6) 0 buf password draw.

(** ** ServerHello *)

Definition kdf (password server_random : list byte) : list byte := st_sha256 (password ++ server_random).
(** The offset behind the compression method, when there are two bytes there. *)
Definition server_hello_tail (hs : list byte) : result (option Z) :=
  if zlen hs <=? 38 + 3 then Ok None
  else
    sid_len ← index hs 38;
    let i := 38 + (1 + bz sid_len + 2 + 1) in
    if zlen hs <? i + 2 then Ok None else Ok (Some i).
(** Named for the suite; the two bytes it reads are behind it. *)
Definition server_hello_cipher (hs : list byte) : result (option Z) :=
  i ← server_hello_tail hs;
  match i with
  | Some i => c ← u16_at hs i; Ok (Some c)
  | None => Ok None
  end.
Fixpoint version_loop (fuel : nat) (exts : list byte) (j : Z) : result bool :=
  match fuel with
  | O => Ok false
  | S fuel =>
      if j + 4 <=? zlen exts then
        ext_type ← u16_at exts j;
        ext_val_len ← u16_at exts (j + 2);
        let j := j + 4 in
        if ext_type =? 43 then
          if (ext_val_len =? 2) && (j + 2 <=? zlen exts) then v ← u16_at exts j; Ok (v =? 772) else Ok false
        else if zlen exts <? j + ext_val_len then Ok false
        else version_loop fuel exts (j + ext_val_len)
      else Ok false
  end.
Definition is_server_hello_tls13 (hs : list byte) : result bool :=
  i ← server_hello_tail hs;
  match i with
  | None => Ok false
  | Some i =>
      ext_len ← u16_at hs i;
      let i := i + 2 in
      if zlen hs <? i + ext_len then Ok false
      else exts ← slice_at hs i ext_len; version_loop (length exts) exts 0
  end.
Definition extract_server_random (frame : list byte) : option (list byte) :=
  if (zlen frame <? SERVER_RANDOM_INDEX + 32) || negb (bool_decide (frame !! 5%nat = Some x02)) then None
  else Some (take 32 (drop 11 frame)).

(** ** Wrapped records of the handshake *)

Definition xor_slice (data key : list byte) : list byte :=
  imap (fun i b => bxor b (key !!! (i mod length key)%nat)) data.
(** A record with the payload, in front of it the tag. *)
Definition app_frame (tag payload : list byte) : list byte :=
  [x17; x03; x03] ++ be_encode 2 (4 + zlen payload) ++ tag ++ payload.
(** The wrapped record, and the HMAC that has taken its payload. *)
Definition wrap_server_app_data (frame password server_random hmac_write : list byte) : list byte * list byte :=
  let xored := xor_slice (drop 5 frame) (kdf password server_random) in
  let hmac_write := hmac_write ++ xored in
  (app_frame (tag4 password hmac_write) xored, hmac_write).
(** Without the tag: the header moves to the payload, with the payload's length. *)
Definition unwrap_shadowtls_app_record (record key : list byte) : list byte :=
  take 3 record ++ be_encode 2 (zlen record - 9) ++ xor_slice (drop 9 record) key.

Record V3HandshakeConn := mkV3Handshake {
  hc_password : list byte;
  hc_pending : list byte;
  hc_random : option (list byte);
  hc_hmac : option (list byte);
  hc_tls13 : bool;
  hc_authorized : bool;
}.
Definition v3_handshake_new (password : list byte) : V3HandshakeConn := mkV3Handshake password [] None None false false.

(** What a record does to the connection, and what rustls gets of it. *)
Definition take_record (st : V3HandshakeConn) (record : list byte) : result (V3HandshakeConn * list byte) :=
  if bool_decide (record !! 0%nat = Some x16) && (SERVER_RANDOM_INDEX + 32 <? zlen record)
     && bool_decide (record !! 5%nat = Some x02) then
    let random := take 32 (drop 11 record) in
    hello13 ← is_server_hello_tls13 (drop 5 record);
    cipher ← server_hello_cipher (drop 5 record);
    let tls13 := hello13 || match cipher with Some c => (4865 <=? c) && (c <=? 4867) | None => false end in
    Ok (mkV3Handshake (hc_password st) (hc_pending st) (Some random) (Some random) tls13
          (if tls13 then hc_authorized st else true), record)
  else if bool_decide (record !! 0%nat = Some x17) then
    match hc_hmac st with
    | Some mac =>
        if 9 <? zlen record then
          let mac := mac ++ drop 9 record in
          let ok := bool_decide (tag4 (hc_password st) mac = take 4 (drop 5 record)) in
          Ok (mkV3Handshake (hc_password st) (hc_pending st) (hc_random st) (Some mac) (hc_tls13 st) ok,
              if ok then unwrap_shadowtls_app_record record (kdf (hc_password st) (default [] (hc_random st))) else record)
        else Ok (mkV3Handshake (hc_password st) (hc_pending st) (hc_random st) (Some mac) (hc_tls13 st) false, record)
    | None => Ok (mkV3Handshake (hc_password st) (hc_pending st) (hc_random st) None (hc_tls13 st) false, record)
    end
  else Ok (st, record).

(** ** Polling *)

(** The outcomes of a poll; [VSpin] is a loop that asks again and again at the end of the
    stream. *)
Inductive vpolled := VReady (bs : list byte) | VPending | VError | VSpin | VPanic.
Inductive frame_polled :=
| Frame (hdr body : list byte)
| NoFrame (p : vpolled).
(** [while filled < length]: a read of nothing is not the end. *)
Fixpoint fill_body (fuel need : nat) (acc : list byte) (inner : list arrival) : option (list byte) * vpolled * list arrival :=
  if (need <=? length acc)%nat then (Some acc, VReady [], inner)
  else
    match fuel, inner with
    | O, _ | _, [] => (None, VSpin, inner)
    | S fuel, _ =>
        match inner_poll (need - length acc) inner with
        | (PReady bs, inner) => fill_body fuel need (acc ++ bs) inner
        | (PPending _, inner) => (None, VPending, inner)
        | (PError, inner) => (None, VError, inner)
        end
    end.
(** A header, which must come in one read, and the body of its length.  [stop] is the
    outcome for a header whose type is not read further. *)
Definition poll_frame (stop : byte -> option vpolled) (inner : list arrival) : frame_polled * list arrival :=
  match inner_poll 5 inner with
  | (PReady hdr, inner) =>
      match hdr with
      | [t; _; _; hi; lo] =>
          match stop t with
          | Some p => (NoFrame p, inner)
          | None =>
              let need := Z.to_nat (be_decode [hi; lo]) in
              match fill_body (need + length inner) need [] inner with
              | (Some body, _, inner) => (Frame hdr body, inner)
              | (None, p, inner) => (NoFrame p, inner)
              end
          end
      | _ => (NoFrame (VReady []), inner)
      end
  | (PPending _, inner) => (NoFrame VPending, inner)
  | (PError, inner) => (NoFrame VError, inner)
  end.

Definition set_pending (st : V3HandshakeConn) (p : list byte) : V3HandshakeConn :=
  mkV3Handshake (hc_password st) p (hc_random st) (hc_hmac st) (hc_tls13 st) (hc_authorized st).
Definition v3_handshake_poll (cap : nat) (st : V3HandshakeConn) (inner : list arrival) : vpolled * V3HandshakeConn * list arrival :=
  match hc_pending st with
  | _ :: _ => (VReady (take cap (hc_pending st)), set_pending st (drop cap (hc_pending st)), inner)
  | [] =>
      match poll_frame (fun _ => None) inner with
      | (Frame hdr body, inner) =>
          match take_record st (hdr ++ body) with
          | Ok (st, record) => (VReady (take cap record), set_pending st (drop cap record), inner)
          | _ => (VPanic, st, inner)
          end
      | (NoFrame p, inner) => (p, st, inner)
      end
  end.

(** Reading until the end; a poll that is pending is woken. *)
Inductive vending := VEnd | VFailed | VSpins | VPanics | VFuel.
Fixpoint v_drain {St} (poll : St -> list arrival -> vpolled * St * list arrival) (fuel : nat) (st : St)
    (inner : list arrival) : list byte * vending * St :=
  match fuel with
  | O => ([], VFuel, st)
  | S fuel =>
      match poll st inner with
      | (VReady [], st, _) => ([], VEnd, st)
      | (VReady bs, st, inner) => let '(out, e, st) := v_drain poll fuel st inner in (bs ++ out, e, st)
      | (VPending, st, inner) => v_drain poll fuel st inner
      | (VError, st, _) => ([], VFailed, st)
      | (VSpin, st, _) => ([], VSpins, st)
      | (VPanic, st, _) => ([], VPanics, st)
      end
  end.

(** ** The connection behind the handshake *)

Record VerifiedConn := mkVerifiedConn {
  vc_password : list byte;
  vc_add : list byte;
  vc_verify : list byte;
  vc_ignore : option (list byte);
  vc_pending : list byte;
}.
Definition from_auth (server : bool) (password server_random : list byte) (read_hmac : option (list byte)) (pending : list byte)
  : VerifiedConn :=
  let '(write_tag, read_tag) := if server then ([x53], [x43]) else ([x43], [x53]) in
  mkVerifiedConn password (server_random ++ write_tag) (server_random ++ read_tag) read_hmac pending.

Definition verify_ignore (password body mac : list byte) : bool :=
  bool_decide (tag4 password (mac ++ drop 4 body) = take 4 body).
Definition record_stop (t : byte) : option vpolled := if bool_decide (t = x17) then None else Some VError.
(** A body against the chain of tags. *)
Definition verified_body (cap : nat) (st : VerifiedConn) (body : list byte) (inner : list arrival)
  : vpolled * VerifiedConn * list arrival :=
  if zlen body <? 4 then (VPanic, st, inner)
  else
    let payload := drop 4 body in
    let hash := tag4 (vc_password st) (vc_verify st ++ payload) in
    let verify := vc_verify st ++ payload ++ hash in
    if bool_decide (hash = take 4 body)
    then (VReady (take cap payload), mkVerifiedConn (vc_password st) (vc_add st) verify (vc_ignore st) (drop cap payload), inner)
    else (VError, mkVerifiedConn (vc_password st) (vc_add st) verify (vc_ignore st) [], inner).
Definition forget (st : VerifiedConn) : VerifiedConn :=
  mkVerifiedConn (vc_password st) (vc_add st) (vc_verify st) None (vc_pending st).
(** [VerifiedConn::poll_read]: the first record may still belong to the handshake. *)
Definition verified_poll (cap : nat) (st : VerifiedConn) (inner : list arrival) : vpolled * VerifiedConn * list arrival :=
  match vc_pending st with
  | _ :: _ =>
      (VReady (take cap (vc_pending st)),
       mkVerifiedConn (vc_password st) (vc_add st) (vc_verify st) (vc_ignore st) (drop cap (vc_pending st)), inner)
  | [] =>
      match poll_frame record_stop inner with
      | (NoFrame p, inner) => (p, st, inner)
      | (Frame _ body, inner) =>
          match vc_ignore st with
          | None => verified_body cap st body inner
          | Some mac =>
              if zlen body <? 4 then (VPanic, st, inner)
              else if verify_ignore (vc_password st) body mac then
                match poll_frame record_stop inner with
                | (NoFrame p, inner) => (p, forget st, inner)
                | (Frame _ body, inner) => verified_body cap (forget st) body inner
                end
              else verified_body cap (forget st) body inner
          end
      end
  end.
(** [VerifiedConn::poll_write]: the frame, when the socket takes it whole. *)
Definition verified_write (st : VerifiedConn) (buf : list byte) : list byte * VerifiedConn :=
  let add := vc_add st ++ buf in
  let hash := tag4 (vc_password st) add in
  (app_frame hash buf,
   mkVerifiedConn (vc_password st) (add ++ hash) (vc_verify st) (vc_ignore st) (vc_pending st)).

(** ** The client *)

Definition build_client_auth_frame (password server_random : list byte) : list byte :=
  app_frame (tag4 password (server_random ++ [x43] ++ [])) [].
(** [read_exact], waiting as long as it takes. *)
Fixpoint arrive_exact (need : nat) (inner : list arrival) : option (list byte * list arrival) :=
  match need, inner with
  | O, _ => Some ([], inner)
  | _, [] => None
  | _, NotYet :: inner => arrive_exact need inner
  | _, Arrive bs :: inner =>
      if (length bs <=? need)%nat then
        '(r, inner) ← arrive_exact (need - length bs) inner; Some (bs ++ r, inner)
      else Some (take need bs, Arrive (drop need bs) :: inner)
  end.
(** [stash_post_handshake_records]; a wait of the socket is longer than the 150
    milliseconds.  What is stashed is a whole record. *)
Fixpoint stash_post_handshake_records (fuel : nat) (pending : list byte) (inner : list arrival)
  : result (list byte * list arrival) :=
  match fuel with
  | O => Ok (pending, inner)
  | S fuel =>
      match inner_poll 5 inner with
      | (PReady [t; v1; v0; hi; lo], inner) =>
          '(body, inner) ← ok_or "early eof" (arrive_exact (Z.to_nat (be_decode [hi; lo])) inner);
          if bool_decide (t = x17) then Ok (pending ++ [t; v1; v0; hi; lo] ++ body, inner)
          else stash_post_handshake_records fuel pending inner
      | (_, inner) => Ok (pending, inner)
      end
  end.
(** [connect_v3], from the connection rustls leaves behind: what is sent, and the
    connection. *)
Definition connect_v3 (strict_mode : bool) (st : V3HandshakeConn) (inner : list arrival)
  : result (list byte * VerifiedConn * list arrival) :=
  let server_random := default [] (hc_random st) in
  if strict_mode && negb (hc_tls13 st) then Err "shadowtls v3 strict_mode requires TLS 1.3"
  else if negb (hc_authorized st) then Err "shadowtls v3: traffic hijacked or auth failed"
  else if negb (zlen server_random =? 32) then Err "shadowtls v3: server random not captured"
  else if hc_tls13 st then
    '(pending, inner) ← stash_post_handshake_records (polls inner) (hc_pending st) inner;
    Ok (build_client_auth_frame (hc_password st) server_random,
        from_auth false (hc_password st) server_random (hc_hmac st) pending, inner)
  else Ok ([], from_auth false (hc_password st) server_random (hc_hmac st) (hc_pending st), inner).

(** ** The server *)

Definition client_auth_frame (frame server_random password : list byte) : result bool :=
  t ← index frame 0;
  if negb (bool_decide (t = x17)) || (zlen frame <? 9) then Ok false
  else
    let body := drop 5 frame in
    Ok (bool_decide (tag4 password (server_random ++ [x43] ++ drop 4 body) = take 4 body)).

(** The client's half of the relay: frames go to the site until one authenticates the
    client; the frames sent on, and what is left of the client's bytes. *)
Fixpoint relay_client (fuel : nat) (password server_random s : list byte) : result (list byte * list byte) :=
  match fuel with
  | O => Err "early eof"
  | S fuel =>
      '(frame, s) ← read_tls_record s;
      auth ← client_auth_frame frame server_random password;
      if (auth : bool) then Ok ([], s)
      else '(out, s) ← relay_client fuel password server_random s; Ok (frame ++ out, s)
  end.
(** The site's half: frames of application data are wrapped. *)
Fixpoint relay_site (frames : list (list byte)) (password server_random hmac_write : list byte) : list byte :=
  match frames with
  | [] => []
  | frame :: frames =>
      if bool_decide (frame !! 0%nat = Some x17) then
        let '(out, hmac_write) := wrap_server_app_data frame password server_random hmac_write in
        out ++ relay_site frames password server_random hmac_write
      else frame ++ relay_site frames password server_random hmac_write
  end.
Fixpoint read_frames (n : nat) (s : list byte) : result (list (list byte) * list byte) :=
  match n with
  | O => Ok ([], s)
  | S n => '(frame, s) ← read_tls_record s; '(fs, s) ← read_frames n s; Ok (frame :: fs, s)
  end.

Inductive shadow_served :=
| ShadowTunnel (password : list byte) (conn : VerifiedConn) (to_site to_client rest : list byte)
| ShadowPassthrough (to_site to_client rest site_rest : list byte).
(** [serve_v3] up to the relay to the detour.  [site] is what the site sends, and
    [n] the number of its frames that are relayed before the site's half sees that the
    client has authenticated. *)
Definition serve_v3 (users : list (list byte * list byte)) (strict_mode : bool) (site : option (list byte)) (n : nat) (s : list byte)
  : result shadow_served :=
  '(client_hello, s) ← read_tls_record s;
  site ← ok_or "shadowtls: connect handshake server" site;
  match verify_v3_client_hello client_hello users with
  | None => Ok (ShadowPassthrough client_hello [] s site)
  | Some password =>
      '(server_hello, site) ← read_tls_record site;
      server_random ← ok_or "shadowtls v3: server random missing" (extract_server_random server_hello);
      tls13 ← is_server_hello_tls13 (drop 5 server_hello);
      if strict_mode && negb tls13 then Ok (ShadowPassthrough client_hello server_hello s site)
      else
        '(to_site, s) ← relay_client (length s) password server_random s;
        '(frames, _) ← read_frames n site;
        Ok (ShadowTunnel password (from_auth true password server_random None [])
              (client_hello ++ to_site) (server_hello ++ relay_site frames password server_random server_random) s)
  end.

(** ** Version 2 *)

Definition wrap_app_data (payload : list byte) : list byte := [x17; x03; x03] ++ be_encode 2 (zlen payload) ++ payload.
(** [HashReadConn]: the HMAC of everything the handshake has read. *)
Definition hash_sum (password read : list byte) : list byte := take 8 (hmac_sha1 password read).
(** [V2ClientConn::poll_write], with the flag of the first write. *)
Definition v2_write (first_write : bool) (auth_prefix buf : list byte) : list byte * bool :=
  ((if first_write then auth_prefix else []) ++ wrap_app_data buf, false).
(** [ShadowConn::poll_read].  The buffer of a read is not cut to what is left of the
    record, whose count wraps. *)
Definition v2_poll_read (cap : nat) (read_remaining : Z) (inner : list arrival) : polled * Z * list arrival :=
  if 0 <? read_remaining then
    match inner_poll cap inner with
    | (PReady bs, inner) => (PReady bs, u64 (read_remaining - zlen bs), inner)
    | (r, inner) => (r, read_remaining, inner)
    end
  else
    match inner_poll 5 inner with
    | (PReady [t; _; _; hi; lo], inner) =>
        if negb (bool_decide (t = x17)) then (PError, read_remaining, inner)
        else
          match inner_poll cap inner with
          | (PReady bs, inner) => (PReady bs, Z.max 0 (be_decode [hi; lo] - zlen bs), inner)
          | (r, inner) => (r, read_remaining, inner)
          end
    | (PReady _, inner) => (PReady [], read_remaining, inner)
    | (r, inner) => (r, read_remaining, inner)
    end.
End Shadow.

(** ** Configuration *)

Record V3ServerConfig := mkV3ServerConfig {
  v3_users : list (list byte * list byte);
  v3_handshake_server : list byte;
  v3_handshake_port : Z;
  v3_strict_mode : bool;
  v3_detour : SocketAddr;
}.
Fixpoint shadow_users (l : list Value) : result (list (list byte * list byte)) :=
  match l with
  | [] => Ok []
  | u :: l =>
      let name := default (str "user") (text u "name") in
      password ← ok_or "shadowtls: user password" (text u "password");
      r ← shadow_users l;
      Ok ((name, password) :: r)
  end.
Definition parse_v3_config (raw : Value) (inbound_addrs : list byte -> option SocketAddr) : result V3ServerConfig :=
  users ← match (v ← get raw "users"; as_array v) with Some l => shadow_users l | None => Ok [] end;
  users ← if bool_decide (users = []) then
            password ← ok_or "shadowtls inbound: password/users required" (text raw "password");
            Ok [(str "default", password)]
          else Ok users;
  hs ← ok_or "shadowtls inbound: handshake required" (get raw "handshake");
  server ← ok_or "shadowtls inbound: handshake.server" (text hs "server");
  let port := u16 (default 443 (number hs "server_port")) in
  let strict_mode := default false (flag raw "strict_mode") in
  detour_tag ← ok_or "shadowtls inbound: detour tag required" (text raw "detour");
  detour ← ok_or "shadowtls inbound: detour inbound not found" (inbound_addrs detour_tag);
  Ok (mkV3ServerConfig users server port strict_mode detour).
Definition shadowtls_inbound_new (raw : Value) (inbound_addrs : list byte -> option SocketAddr)
  : result (SocketAddr * V3ServerConfig) :=
  listen ← parse_listen raw;
  let version := default 1 (number raw "version") mod 256 in
  if version =? 3 then cfg ← parse_v3_config raw inbound_addrs; Ok (listen, cfg)
  else Err "shadowtls inbound: only version 3 is supported natively".

Record ShadowTlsOutbound := mkShadowOutbound {
  sto_version : Z;
  sto_password : list byte;
  sto_server : list byte;
  sto_port : Z;
  sto_sni : option (list byte);
  sto_strict_mode : bool;
}.
Definition shadowtls_outbound_new (raw : Value) : result ShadowTlsOutbound :=
  let tls := get raw "tls" in
  let version := default 1 (number raw "version") mod 256 in
  if negb (match tls with Some t => default true (flag t "enabled") | None => false end) then Err "shadowtls: tls.enabled is required"
  else
    server ← ok_or "shadowtls: server required" (text raw "server");
    port ← ok_or "shadowtls: server_port required" (number raw "server_port");
    Ok (mkShadowOutbound version (default [] (text raw "password")) server (u16 port) (t ← tls; text t "server_name")
          (default false (flag raw "strict_mode"))).
(** [open_tunnel] and [client::connect]: which of the three connections is made, to
    which name. *)
Inductive shadow_dial := DialPlainTls | DialV2 | DialV3 (strict_mode : bool).
Definition open_tunnel (o : ShadowTlsOutbound) : result (shadow_dial * list byte) :=
  if (2 <=? sto_version o) && bool_decide (sto_password o = []) then Err "shadowtls: password required"
  else
    let sni := default (sto_server o) (sto_sni o) in
    if sto_version o =? 1 then Ok (DialPlainTls, sni)
    else if sto_version o =? 2 then Ok (DialV2, sni)
    else if sto_version o =? 3 then Ok (DialV3 (sto_strict_mode o), sni)
    else Err "shadowtls: unsupported version".

(** ** Frames *)

Definition frame_header (t : byte) (n : Z) : list byte := [t; x03; x03] ++ be_encode 2 n.
(** A TLS record: its type, and its body. *)
Definition tls_frame (t : byte) (body : list byte) : list byte := frame_header t (zlen body) ++ body.
Lemma frame_header_form t n : exists hi lo, frame_header t n = [t; x03; x03; hi; lo] /\ (in_u16 n -> be_decode [hi; lo] = n).
Proof.
  unfold frame_header. rewrite be_encode_two. do 2 eexists. split; [reflexivity|]. intros Hn. rewrite <-be_encode_two. by apply be_decode_u16.
Qed.
Lemma app_frame_tls tag payload : length tag = 4%nat -> app_frame tag payload = tls_frame x17 (tag ++ payload).
Proof.
  intros Ht. unfold app_frame, tls_frame, frame_header. rewrite zlen_app. unfold zlen at 2. rewrite Ht. by rewrite <-!app_assoc.
Qed.

(** Bytes that arrive in groups of whole records. *)
Definition arrivals (groups : list (list (list byte))) : list arrival := map (fun g => Arrive (concat g)) groups.
Definition regroup {A} (g : list A) (gs : list (list A)) : list (list A) := match g with [] => gs | _ => g :: gs end.

Lemma fill_body_group fuel body (g : list (list byte)) gs :
  (1 <= fuel)%nat -> Forall (fun f => f <> []) g ->
  fill_body fuel (length body) [] (arrivals (regroup (match body with [] => g | _ => body :: g end) gs))
  = (Some body, VReady [], arrivals (regroup g gs)).
Proof.
  intros Hf Hg. destruct body as [|b body]; [by destruct fuel|]. destruct fuel as [|fuel]; [lia|].
  cbn [fill_body]. rewrite (proj2 (Nat.leb_gt _ _)) by (cbn [length]; lia). cbn [arrivals map regroup concat].
  rewrite Nat.sub_0_r. cbn [inner_poll length]. destruct Hg as [|f g Hf1 Hg].
  - cbn [concat]. rewrite app_nil_r, (proj2 (Nat.leb_le _ _)) by (cbn [length]; lia). cbn [app].
    assert (E : fill_body fuel (S (length body)) (b :: body) (arrivals gs) = (Some (b :: body), VReady [], arrivals gs)).
    { destruct fuel; cbn [fill_body length]; by rewrite (proj2 (Nat.leb_le _ _)) by lia. }
    exact E.
  - rewrite (proj2 (Nat.leb_gt _ _)).
    + change (b :: body) with ([b] ++ body). set (bb := [b] ++ body).
      assert (Hb : S (length body) = length bb) by done. rewrite Hb, take_app_length, drop_app_length. cbn [app].
      assert (E : fill_body fuel (length bb) bb (Arrive (concat (f :: g)) :: arrivals gs) = (Some bb, VReady [], arrivals ((f :: g) :: gs))).
      { destruct fuel; cbn [fill_body]; by rewrite (proj2 (Nat.leb_le _ _)) by lia. }
      exact E.
    + cbn [concat]. rewrite !length_app. cbn [length]. destruct f; [done|]. cbn [length]. lia.
Qed.

Lemma poll_frame_group stop t body g gs : in_u16 (zlen body) -> Forall (fun f => f <> []) g ->
  stop t = None ->
  poll_frame stop (arrivals ((tls_frame t body :: g) :: gs)) = (Frame (frame_header t (zlen body)) body, arrivals (regroup g gs)).
Proof.
  intros Hn Hg Hs. destruct (frame_header_form t (zlen body)) as (hi & lo & Hh & Hd). specialize (Hd Hn).
  set (rest := match body with [] => g | _ => body :: g end).
  assert (Hrest : concat (tls_frame t body :: g) = frame_header t (zlen body) ++ concat rest).
  { unfold rest, tls_frame. cbn [concat]. rewrite <-app_assoc. by destruct body. }
  assert (Hp : inner_poll 5 (arrivals ((tls_frame t body :: g) :: gs)) = (PReady (frame_header t (zlen body)), arrivals (regroup rest gs))).
  { unfold arrivals at 1. cbn [map]. rewrite Hrest, Hh. cbn [inner_poll app].
    destruct rest as [|r0 rest0] eqn:Er; [done|]. cbn [regroup].
    assert (Hr0 : r0 <> []).
    { unfold rest in Er. destruct body; [|by injection Er as <- _]. rewrite Er in Hg. by apply Forall_cons in Hg as [? _]. }
    rewrite (proj2 (Nat.leb_gt _ _)); [done|]. cbn [length concat]. rewrite length_app. destruct r0; [done|]. cbn [length]. lia. }
  unfold poll_frame. rewrite Hp, Hh. cbn match. rewrite Hs. cbv zeta. rewrite Hd. unfold zlen. rewrite Nat2Z.id.
  destruct body as [|b0 body0].
  - unfold rest. cbn [length Nat.add]. set (inner := arrivals (regroup g gs)).
    assert (E : forall fuel, fill_body fuel 0 [] inner = (Some [], VReady [], inner)) by (intros []; done). by rewrite E.
  - unfold rest. rewrite (fill_body_group _ (b0 :: body0) g gs) by (done || cbn [length]; lia). done.
Qed.

(** ** The handshake, relayed *)

Lemma length_xor_slice data key : length (xor_slice data key) = length data.
Proof. apply length_imap. Qed.
Lemma xor_slice_twice data key : xor_slice (xor_slice data key) key = data.
Proof.
  unfold xor_slice. apply list_eq. intros i. rewrite !list_lookup_imap. destruct (data !! i); cbn; [|done]. by rewrite bxor_cancel.
Qed.

Section Relay.
Context `{ShadowCrypto}.

Lemma tag4_length password msg : length (tag4 password msg) = 4%nat.
Proof. unfold tag4. rewrite length_take, hmac_sha1_length. done. Qed.

(** A connection during the handshake that has seen the server's random. *)
Definition watching (password random mac : list byte) (tls13 authorized : bool) : V3HandshakeConn :=
  mkV3Handshake password [] (Some random) (Some mac) tls13 authorized.

Lemma take_app_record password random mac tls13 a payload : payload <> [] ->
  let w := wrap_server_app_data (tls_frame x17 payload) password random mac in
  take_record (watching password random mac tls13 a) w.1
  = Ok (watching password random w.2 tls13 true, tls_frame x17 payload).
Proof.
  intros Hp w. unfold wrap_server_app_data in w. cbv zeta in w. cbn [fst snd] in *. subst w. cbn [fst snd].
  assert (Hd : drop 5 (tls_frame x17 payload) = payload).
  { unfold tls_frame. destruct (frame_header_form x17 (zlen payload)) as (hi & lo & -> & _). done. }
  rewrite Hd. set (xored := xor_slice payload (kdf password random)).
  set (tag := tag4 password (mac ++ xored)). assert (Ht : length tag = 4%nat) by apply tag4_length.
  assert (Hx : length xored = length payload) by apply length_xor_slice.
  unfold app_frame. rewrite be_encode_two. set (hi := u8 (Z.shiftr _ 8)). set (lo := u8 (4 + _)).
  destruct tag as [|t0 [|t1 [|t2 [|t3 [|? ?]]]]] eqn:Etag; try discriminate Ht.
  set (record := _ ++ _). unfold take_record.
  change (record !! 0%nat) with (Some x17). rewrite (bool_decide_eq_false_2 (Some x17 = Some x16)) by done. cbn [andb].
  rewrite (bool_decide_eq_true_2 (Some x17 = Some x17)) by done. cbn [watching hc_hmac hc_password hc_random hc_pending hc_tls13 default].
  assert (Hz : 9 < zlen record).
  { unfold record, zlen. cbn [app length]. rewrite Hx. destruct payload; [done|]. cbn [length]. lia. }
  rewrite (proj2 (Z.ltb_lt _ _)) by exact Hz. change (drop 9 record) with xored. change (take 4 (drop 5 record)) with [t0; t1; t2; t3].
  fold tag. rewrite Etag. rewrite (bool_decide_eq_true_2 ([t0; t1; t2; t3] = _)) by done. unfold watching. do 2 f_equal.
  unfold unwrap_shadowtls_app_record. change (take 3 record) with [x17; x03; x03]. change (drop 9 record) with xored.
  replace (xor_slice xored _) with payload by (symmetry; apply xor_slice_twice). unfold tls_frame, frame_header. rewrite <-app_assoc. do 3 f_equal.
  unfold record, zlen. cbn [app length]. rewrite Hx. lia.
Qed.
Lemma take_other_record st t body : t <> x16 -> t <> x17 -> take_record st (tls_frame t body) = Ok (st, tls_frame t body).
Proof.
  intros H1 H2. unfold take_record. change (tls_frame t body !! 0%nat) with (Some t).
  rewrite (bool_decide_eq_false_2 (Some t = Some x16)) by congruence. cbn [andb].
  by rewrite (bool_decide_eq_false_2 (Some t = Some x17)) by congruence.
Qed.

(** What reaches rustls, record by record. *)
Inductive hs_reads : V3HandshakeConn -> list (byte * list byte) -> list (list byte) -> V3HandshakeConn -> Prop :=
| hs_reads_nil st : hs_reads st [] [] st
| hs_reads_cons st t body o st1 ws os st2 :
    in_u16 (zlen body) -> take_record st (tls_frame t body) = Ok (st1, o) -> o <> [] ->
    hs_reads st1 ws os st2 -> hs_reads st ((t, body) :: ws) (o :: os) st2.

Definition frames_of (ws : list (byte * list byte)) : list (list byte) := map (fun w => tls_frame w.1 w.2) ws.
Lemma frames_nonempty ws : Forall (fun f => f <> []) (frames_of ws).
Proof. apply Forall_forall. intros f [w [-> _]]%list_elem_of_fmap. unfold tls_frame, frame_header. done. Qed.

Lemma set_pending_id st : hc_pending st = [] -> set_pending st [] = st.
Proof. by destruct st; cbn; intros ->. Qed.
Lemma take_record_pending st record st' o : take_record st record = Ok (st', o) -> hc_pending st' = hc_pending st.
Proof.
  unfold take_record. destruct (_ && _ && _).
  - destruct (is_server_hello_tls13 _) as [b|?|?]; cbn [mbind result_bind]; [|done..].
    destruct (server_hello_cipher _) as [c|?|?]; cbn [mbind result_bind]; [|done..]. by intros [= <- _].
  - destruct (bool_decide _); [|by intros [= <- _]]. destruct (hc_hmac st); [destruct (9 <? _)|]; by intros [= <- _].
Qed.
(** Groups of whole records, however they are bundled. *)
Definition bundled (fs : list (list byte)) (groups : list (list (list byte))) : Prop :=
  concat groups = fs /\ Forall (fun g => g <> []) groups.
Lemma bundled_cons f fs groups : bundled (f :: fs) groups ->
  exists g gs, groups = (f :: g) :: gs /\ bundled fs (regroup g gs) /\ Forall (fun x => x ∈ f :: fs) g.
Proof.
  intros [Hc Hn]. destruct Hn as [|[|x g] gs Hg Hn]; [done|done|]. cbn [concat app] in Hc. injection Hc as -> <-.
  exists g, gs. split; [done|]. split.
  - split; [|by destruct g; [|constructor]]. by destruct g.
  - apply Forall_forall. intros y Hy. right. apply elem_of_app. by left.
Qed.
Lemma bundled_nil groups : bundled [] groups -> groups = [].
Proof. intros [Hc Hn]. destruct Hn as [|[|x g] gs Hg _]; done. Qed.

Lemma handshake_read_all cap : (1 <= cap)%nat -> forall fuel ws st os st2 groups pend,
  hs_reads st ws os st2 -> hc_pending st = [] -> bundled (frames_of ws) groups ->
  (length pend + length (concat os) < fuel)%nat ->
  v_drain (v3_handshake_poll cap) fuel (set_pending st pend) (arrivals groups) = (pend ++ concat os, VEnd, st2).
Proof.
  intros Hcap. induction fuel as [|fuel IH]; intros ws st os st2 groups pend Hr Hp Hb Hf; [lia|].
  cbn [v_drain]. unfold v3_handshake_poll at 1. cbn [hc_pending set_pending]. destruct pend as [|b pend].
  - destruct Hr as [st|st t body o st1 ws os st2 Hn Ht Ho Hr].
    { apply bundled_nil in Hb as ->. cbn. by rewrite set_pending_id. }
    unfold frames_of in Hb. cbn [map fst snd] in Hb. fold (frames_of ws) in Hb. apply bundled_cons in Hb as (g & gs & -> & Hb & Hg).
    rewrite poll_frame_group; [|done| |done].
    2: { apply Forall_forall. intros y Hy. rewrite Forall_forall in Hg. apply Hg in Hy.
         pose proof (frames_nonempty ((t, body) :: ws)) as Hne. rewrite Forall_forall in Hne. by apply Hne. }
    change (frame_header t (zlen body) ++ body) with (tls_frame t body). rewrite set_pending_id by done. rewrite Ht.
    pose proof (take_record_pending _ _ _ _ Ht) as Hp1. rewrite Hp in Hp1.
    destruct cap as [|cap]; [lia|]. destruct o as [|x o]; [done|]. cbn [take drop]. cbn [concat length] in Hf. rewrite length_app in Hf.
    cbn [length] in Hf. rewrite (IH ws st1 os st2 (regroup g gs) (drop cap o)); [|done..|rewrite length_drop; lia].
    cbn [app concat]. by rewrite app_assoc, take_drop.
  - destruct cap as [|cap]; [lia|]. cbn [take drop].
    change (set_pending (set_pending st (b :: pend)) (drop cap pend)) with (set_pending st (drop cap pend)).
    cbn [length] in Hf. rewrite (IH ws st os st2 groups (drop cap pend)); [|done..|rewrite length_drop; lia].
    cbn [app]. by rewrite app_assoc, take_drop.
Qed.

(** The site's records: a ServerHello, then others; those of application data are not
    empty. *)
Definition site_record_ok (w : byte * list byte) : Prop :=
  w.1 <> x16 /\ (w.1 = x17 -> w.2 <> []) /\ zlen w.2 < 65000.
(** Their wire form behind the server, and the HMAC at the end. *)
Fixpoint wrapped (password random mac : list byte) (ws : list (byte * list byte)) : list (byte * list byte) * list byte :=
  match ws with
  | [] => ([], mac)
  | (t, body) :: ws =>
      if bool_decide (t = x17) then
        let xored := xor_slice body (kdf password random) in
        let '(out, mac') := wrapped password random (mac ++ xored) ws in
        ((t, tag4 password (mac ++ xored) ++ xored) :: out, mac')
      else let '(out, mac') := wrapped password random mac ws in ((t, body) :: out, mac')
  end.

Lemma relay_site_wrapped password random ws : forall mac,
  relay_site (frames_of ws) password random mac = concat (frames_of (wrapped password random mac ws).1).
Proof.
  induction ws as [|[t body] ws IH]; intros mac; [done|]. cbn [frames_of map relay_site wrapped fst snd]. fold (frames_of ws).
  change (tls_frame t body !! 0%nat) with (Some t).
  destruct (bool_decide (t = x17)) eqn:E.
  - apply bool_decide_eq_true in E as ->. rewrite bool_decide_eq_true_2 by done. unfold wrap_server_app_data. cbv zeta.
    assert (Hd : drop 5 (tls_frame x17 body) = body).
    { unfold tls_frame. destruct (frame_header_form x17 (zlen body)) as (hi & lo & -> & _). done. }
    rewrite Hd. specialize (IH (mac ++ xor_slice body (kdf password random))).
    destruct (wrapped password random _ ws) as [out mac'] eqn:Ew. cbn [fst] in *. rewrite IH. unfold frames_of. cbn [map concat fst snd].
    by rewrite app_frame_tls by apply tag4_length.
  - apply bool_decide_eq_false in E. rewrite bool_decide_eq_false_2 by congruence.
    specialize (IH mac). destruct (wrapped password random mac ws) as [out mac'] eqn:Ew. cbn [fst] in *. by rewrite IH.
Qed.

(** The client's connection gives rustls the site's records as they were. *)
Lemma wrapped_reads password random tls13 ws : Forall site_record_ok ws -> forall mac a,
  exists a', hs_reads (watching password random mac tls13 a) (wrapped password random mac ws).1 (frames_of ws)
               (watching password random (wrapped password random mac ws).2 tls13 a')
    /\ (ws = [] -> a' = a) /\ (Exists (fun w => w.1 = x17) ws -> a' = true) /\ (a = true -> a' = true).
Proof.
  induction 1 as [|[t body] ws [Ht [Hb Hl]] _ IH]; intros mac a; cbn [fst snd] in *.
  { exists a. split; [constructor|]. split_and!; [done| |done]. by intros ?%Exists_nil. }
  cbn [wrapped]. pose proof (zlen_nonneg body). destruct (bool_decide (t = x17)) eqn:E.
  - apply bool_decide_eq_true in E as ->. set (xored := xor_slice body (kdf password random)).
    destruct (IH (mac ++ xored) true) as (a' & Hr & _ & _ & Ha). destruct (wrapped password random _ ws) as [out mac'] eqn:Ew. cbn [fst snd] in *.
    exists a'. rewrite Ha in * by done. split; [|done]. cbn [frames_of map fst snd]. fold (frames_of ws).
    eapply hs_reads_cons; [| |done|exact Hr].
    + unfold in_u16. rewrite zlen_app. unfold zlen in *. rewrite tag4_length. unfold xored. rewrite length_xor_slice. lia.
    + pose proof (take_app_record password random mac tls13 a body (Hb eq_refl)) as Htk. cbv zeta in Htk.
      unfold wrap_server_app_data in Htk. cbv zeta in Htk. cbn [fst snd] in Htk.
      assert (Hd : drop 5 (tls_frame x17 body) = body).
      { unfold tls_frame. destruct (frame_header_form x17 (zlen body)) as (hi & lo & -> & _). done. }
      rewrite Hd in Htk. fold xored in Htk. rewrite app_frame_tls in Htk by apply tag4_length. exact Htk.
  - apply bool_decide_eq_false in E. destruct (IH mac a) as (a' & Hr & Hnil & Hex & Ha).
    destruct (wrapped password random mac ws) as [out mac'] eqn:Ew. cbn [fst snd] in *.
    exists a'. split; [|split_and!; [done| |done]].
    + cbn [frames_of map fst snd]. fold (frames_of ws). eapply hs_reads_cons; [unfold in_u16; lia| |done|exact Hr].
      by apply take_other_record.
    + intros [Hx|Hx]%Exists_cons; [done|]. by apply Hex.
Qed.

(** ** Both sides *)

Lemma read_frame_app t body rest : in_u16 (zlen body) -> read_tls_record (tls_frame t body ++ rest) = Ok (tls_frame t body, rest).
Proof.
  intros Hn. unfold tls_frame, frame_header. rewrite <-(app_assoc [t; x03; x03]). apply (read_record_app t x03 body rest).
  unfold in_u16 in Hn. lia.
Qed.

(** What makes a ServerHello usable: its random and its version. *)
Record hello13 (hs random : list byte) : Prop := {
  h13_len : in_u16 (zlen hs);
  h13_type : hs !! 0%nat = Some x02;
  h13_long : 38 < zlen hs;
  h13_random : take 32 (drop 6 hs) = random;
  h13_version : is_server_hello_tls13 hs = Ok true;
}.
Lemma hello13_cipher hs random : hello13 hs random -> exists c, server_hello_cipher hs = Ok c.
Proof.
  intros [_ _ _ _ Hv]. unfold is_server_hello_tls13 in Hv. unfold server_hello_cipher.
  destruct (server_hello_tail hs) as [[i|]|?|?]; cbn [mbind result_bind] in *; [|done..].
  destruct (u16_at hs i) as [c|?|?]; cbn [mbind result_bind] in *; [|done..]. by eexists.
Qed.
Lemma take_server_hello password hs random : hello13 hs random ->
  take_record (v3_handshake_new password) (tls_frame x16 hs) = Ok (watching password random random true false, tls_frame x16 hs).
Proof.
  intros Hh. destruct (hello13_cipher _ _ Hh) as [c Hc]. destruct Hh as [Hn Ht Hl Hr Hv].
  destruct (frame_header_form x16 (zlen hs)) as (hi & lo & Hf & _). unfold take_record, tls_frame. rewrite Hf. cbn [app].
  change (_ !! 0%nat) with (Some x16). rewrite (bool_decide_eq_true_2 (Some x16 = Some x16)) by done.
  rewrite (proj2 (Z.ltb_lt _ _)) by (unfold SERVER_RANDOM_INDEX, zlen in *; cbn [length]; lia).
  change ((x16 :: x03 :: x03 :: hi :: lo :: hs) !! 5%nat) with (hs !! 0%nat). rewrite Ht.
  rewrite (bool_decide_eq_true_2 (Some x02 = Some x02)) by done. cbn [andb]. change (drop 5 (x16 :: x03 :: x03 :: hi :: lo :: hs)) with hs.
  rewrite Hv. cbn [mbind result_bind]. rewrite Hc. cbn [mbind result_bind orb].
  change (drop 11 (x16 :: x03 :: x03 :: hi :: lo :: hs)) with (drop 6 hs). rewrite Hr. done.
Qed.
Lemma server_random_found hs random : hello13 hs random -> extract_server_random (tls_frame x16 hs) = Some random.
Proof.
  intros [Hn Ht Hl Hr Hv]. destruct (frame_header_form x16 (zlen hs)) as (hi & lo & Hf & _). unfold extract_server_random, tls_frame.
  rewrite Hf. cbn [app]. change ((x16 :: x03 :: x03 :: hi :: lo :: hs) !! 5%nat) with (hs !! 0%nat). rewrite Ht.
  rewrite (proj2 (Z.ltb_ge _ _)) by (unfold SERVER_RANDOM_INDEX, zlen in *; cbn [length]; lia).
  rewrite bool_decide_eq_true_2 by done. cbn [orb negb]. change (drop 11 _) with (drop 6 hs). by rewrite Hr.
Qed.

Definition client_frame_ok (password random : list byte) (w : byte * list byte) : Prop :=
  in_u16 (zlen w.2) /\ client_auth_frame (tls_frame w.1 w.2) random password = Ok false.
Lemma auth_frame_accepted password random : client_auth_frame (build_client_auth_frame password random) random password = Ok true.
Proof.
  unfold build_client_auth_frame, app_frame. rewrite app_nil_r. pose proof (tag4_length password (random ++ [x43] ++ [])) as Ht.
  set (tag := tag4 _ _) in *. destruct tag as [|t0 [|t1 [|t2 [|t3 [|? ?]]]]] eqn:E; try discriminate Ht.
  rewrite be_encode_two. set (hi := u8 (Z.shiftr _ 8)). set (lo := u8 (4 + _)). cbn [app].
  set (frame := [x17; x03; x03; hi; lo; t0; t1; t2; t3]). unfold client_auth_frame. change (index frame 0) with (Ok x17).
  cbn [mbind result_bind]. change (negb (bool_decide (x17 = x17)) || (zlen frame <? 9)) with false. cbn match.
  change (drop 5 frame) with [t0; t1; t2; t3]. cbn [drop take]. f_equal. apply bool_decide_eq_true_2. exact E.
Qed.
Lemma relay_client_done password random cf rest : Forall (client_frame_ok password random) cf -> forall fuel, (length cf < fuel)%nat ->
  relay_client fuel password random (concat (frames_of cf) ++ build_client_auth_frame password random ++ rest)
  = Ok (concat (frames_of cf), rest).
Proof.
  induction 1 as [|[t body] cf [Hn Ha] _ IH]; intros [|fuel] Hf; cbn [length] in Hf; try lia; cbn [relay_client].
  - cbn [frames_of map concat app]. unfold build_client_auth_frame at 1. rewrite app_frame_tls by apply tag4_length.
    rewrite read_frame_app by (rewrite app_nil_r; unfold in_u16, zlen; rewrite tag4_length; lia). cbn [mbind result_bind].
    rewrite <-app_frame_tls by apply tag4_length. fold (build_client_auth_frame password random). rewrite auth_frame_accepted. done.
  - unfold frames_of. cbn [map concat fst snd] in *. fold (frames_of cf). rewrite <-app_assoc, read_frame_app by done.
    cbn [mbind result_bind]. rewrite Ha. cbn [mbind result_bind]. rewrite IH by lia. done.
Qed.
Lemma length_frames ws : (length ws <= length (concat (frames_of ws)))%nat.
Proof.
  induction ws as [|w ws IH]; [done|]. unfold frames_of in *. cbn [map concat length]. rewrite length_app.
  unfold tls_frame at 1, frame_header. rewrite !length_app. cbn [length]. lia.
Qed.
Lemma read_frames_app ws rest : Forall (fun w => in_u16 (zlen w.2)) ws ->
  read_frames (length ws) (concat (frames_of ws) ++ rest) = Ok (frames_of ws, rest).
Proof.
  induction 1 as [|[t body] ws Hn _ IH]; [done|]. cbn [length read_frames]. unfold frames_of. cbn [map concat fst snd] in *. fold (frames_of ws).
  rewrite <-app_assoc, read_frame_app by done. cbn [mbind result_bind]. rewrite IH. done.
Qed.

(** The ClientHello with the session id that the password signs. *)
Definition signed_hello (password hello draw : list byte) : list byte :=
  take 39 hello ++ generate_v3_session_id password hello draw ++ drop 71 hello.
Definition hello_frame (minor : byte) (hello : list byte) : list byte := [x16; x03; minor] ++ be_encode 2 (zlen hello) ++ hello.

Lemma match_password_app hs a b : match_password hs a = None -> match_password hs (a ++ b) = match_password hs b.
Proof. induction a as [|[n p] a IH]; [done|]. cbn. by case_bool_decide. Qed.

Section Signed.
Variables (password hello draw : list byte).
Hypotheses (Hlen : 71 <= zlen hello < 65000) (Htype : hello !! 0%nat = Some x01) (Hsid : hello !! 38%nat = Some x20)
  (Hdraw : length draw = 28%nat).
Let signed : list byte := signed_hello password hello draw.

Lemma signed_form : signed = (take 39 hello ++ draw) ++ tag4 password (take 39 hello ++ (draw ++ replicate 4 x00) ++ drop 71 hello) ++ drop 71 hello
  /\ length (take 39 hello ++ draw) = 67%nat.
Proof.
  split; [|rewrite length_app, length_take; unfold zlen in Hlen; lia].
  unfold signed, signed_hello, generate_v3_session_id, SESSION_ID_START. rewrite (proj2 (Z.ltb_ge _ _)) by lia. by rewrite <-!app_assoc.
Qed.
Lemma zlen_signed : zlen signed = zlen hello.
Proof.
  destruct signed_form as [-> H1]. unfold zlen in *. rewrite !length_app, tag4_length, length_drop. rewrite length_app in H1. lia.
Qed.
Lemma signed_matches name post : match_password signed ((name, password) :: post) = Some password.
Proof.
  cbn [match_password]. rewrite bool_decide_eq_true_2; [done|]. destruct signed_form as [-> H1].
  set (front := take 39 hello ++ draw) in *. set (tag := tag4 password (take 39 hello ++ _)).
  assert (Ht : length tag = 4%nat) by apply tag4_length.
  assert (E71 : drop 71 (front ++ tag ++ drop 71 hello) = drop 71 hello)
    by (rewrite app_assoc; rewrite drop_app_length' by (rewrite length_app; lia); done).
  rewrite E71. rewrite (take_app_length' front) by lia. rewrite (drop_app_length' front) by lia. rewrite (take_app_length' tag) by lia.
  unfold tag, front. by rewrite <-!app_assoc.
Qed.
Lemma signed_lookup i : (i < 39)%nat -> signed !! i = hello !! i.
Proof.
  intros Hi. destruct signed_form as [-> H1]. unfold zlen in Hlen. rewrite <-app_assoc, lookup_app_l by (rewrite length_take; lia).
  by rewrite lookup_take_lt by lia.
Qed.
Lemma hello_verified minor name pre post : match_password signed pre = None ->
  verify_v3_client_hello (hello_frame minor signed) (pre ++ (name, password) :: post) = Some password.
Proof.
  intros Hpre. unfold verify_v3_client_hello, hello_frame. rewrite be_encode_two. cbn [app]. set (hi := u8 (Z.shiftr _ 8)). set (lo := u8 (zlen signed)).
  set (record := x16 :: x03 :: minor :: hi :: lo :: signed). change (record !! 0%nat) with (Some x16). change (drop 5 record) with signed.
  rewrite (proj2 (Z.ltb_ge _ _)) by (unfold record; rewrite !zlen_cons, zlen_signed; lia).
  rewrite (bool_decide_eq_true_2 (Some x16 = Some x16)) by done. cbn [orb negb].
  rewrite !signed_lookup by lia. rewrite Htype, Hsid, zlen_signed. rewrite (bool_decide_eq_true_2 (Some x01 = Some x01)) by done.
  rewrite (bool_decide_eq_true_2 (Some x20 = Some x20)) by done. cbn [negb].
  rewrite (proj2 (Z.ltb_ge _ _)) by (unfold SESSION_ID_START; lia). rewrite match_password_app by done. apply signed_matches.
Qed.
End Signed.

(** A ClientHello: version and random, the session id, the rest. *)
Definition hello_message (version_random sid tail : list byte) : list byte :=
  [x01] ++ be_encode 3 (35 + zlen sid + zlen tail) ++ version_random ++ [u8 (zlen sid)] ++ sid ++ tail.
Lemma sign_frame minor password hello draw : 71 <= zlen hello < 65000 -> length draw = 28%nat ->
  sign_session_id (hello_frame minor hello) password draw = hello_frame minor (signed_hello password hello draw).
Proof.
  intros Hl Hd. unfold sign_session_id, hello_frame. rewrite zlen_signed by done. rewrite be_encode_two.
  set (hi := u8 (Z.shiftr _ 8)). set (lo := u8 (zlen hello)). cbn [app].
  rewrite (proj2 (Z.ltb_ge _ _)) by (rewrite !zlen_cons; unfold SESSION_ID_START; lia).
  destruct (signed_form password hello draw Hl) as [-> _]; [done..|]. cbn [take drop app]. by rewrite <-!app_assoc.
Qed.
Lemma insert_frame minor version_random tail : length version_random = 34%nat -> zlen tail < 60000 ->
  insert_session_id (hello_frame minor (hello_message version_random [] tail))
  = hello_frame minor (hello_message version_random (replicate 32 x00) tail).
Proof.
  intros Hv Ht. pose proof (zlen_nonneg tail). unfold hello_frame, hello_message. change (zlen []) with 0. change (zlen (replicate 32 x00)) with 32.
  change (u8 0) with x00. change (u8 32) with x20. rewrite Z.add_0_r.
  set (m := zlen ([x01] ++ be_encode 3 (35 + zlen tail) ++ _)).
  assert (Hm : m = 39 + zlen tail) by (unfold m; rewrite !zlen_app, zlen_be; unfold zlen; cbn [length]; rewrite Hv; lia).
  set (m' := zlen ([x01] ++ be_encode 3 (35 + 32 + zlen tail) ++ _)).
  assert (Hm' : m' = 39 + zlen tail + 32) by (unfold m'; rewrite !zlen_app, zlen_be; unfold zlen; rewrite length_replicate; cbn [length]; rewrite Hv; lia).
  clearbody m m'. subst m m'. set (n3 := be_encode 3 (35 + zlen tail)). set (n2 := be_encode 2 (39 + zlen tail)).
  assert (E3 : be_decode n3 = 35 + zlen tail) by (apply be_decode_encode; lia).
  assert (E2 : be_decode n2 = 39 + zlen tail) by (apply be_decode_encode; lia).
  assert (L3 : length n3 = 3%nat) by apply length_be_encode. assert (L2 : length n2 = 2%nat) by apply length_be_encode.
  destruct n2 as [|a [|b [|? ?]]]; try discriminate L2. destruct n3 as [|c [|d [|e [|? ?]]]]; try discriminate L3.
  unfold insert_session_id. cbn [app]. cbn [take drop]. rewrite drop_0, take_0.
  rewrite (take_app_length' version_random) by lia. replace (drop 35 _) with tail.
  2: { replace 35%nat with (length version_random + 1)%nat by lia. by rewrite <-drop_drop, drop_app_length. }
  rewrite E2, E3. unfold u16, wrap. rewrite Z.mod_small by lia. cbn [app]. by replace (35 + 32 + zlen tail) with (35 + zlen tail + 32) by lia.
Qed.
Lemma zlen_hello_message version_random sid tail : length version_random = 34%nat ->
  zlen (hello_message version_random sid tail) = 39 + zlen sid + zlen tail.
Proof. intros Hv. unfold hello_message. rewrite !zlen_app, zlen_be. unfold zlen. cbn [length]. rewrite Hv. lia. Qed.
(** The bytes that are looked at. *)
Lemma hello_frame_form minor version_random sid tail : length version_random = 34%nat -> zlen sid + zlen tail < 65000 ->
  let hello := hello_message version_random sid tail in
  hello !! 0%nat = Some x01 /\ hello !! 38%nat = Some (u8 (zlen sid))
  /\ exists hi lo, hello_frame minor hello = x16 :: x03 :: minor :: hi :: lo :: hello /\ be_decode [hi; lo] = zlen hello.
Proof.
  intros Hv Hl hello. pose proof (zlen_nonneg sid). pose proof (zlen_nonneg tail). split_and!; [done| |].
  - unfold hello, hello_message. rewrite (app_assoc (be_encode 3 _)), (app_assoc [x01]).
    rewrite lookup_app_r by (rewrite !length_app, length_be_encode, Hv; cbn; lia).
    rewrite !length_app, length_be_encode, Hv. done.
  - unfold hello_frame. rewrite be_encode_two. do 2 eexists. split; [reflexivity|]. rewrite <-be_encode_two.
    apply be_decode_u16. unfold in_u16, hello. rewrite zlen_hello_message by done. lia.
Qed.
(** [patch_v3_session_id]: the message gets a session id when it has none, and is signed. *)
Lemma patched_record minor version_random sid tail password draw :
  length version_random = 34%nat -> zlen tail < 60000 -> sid = [] \/ length sid = 32%nat -> length draw = 28%nat ->
  patch_v3_session_id (hello_frame minor (hello_message version_random sid tail)) password draw
  = hello_frame minor (signed_hello password (hello_message version_random (match sid with [] => replicate 32 x00 | _ => sid end) tail) draw).
Proof.
  intros Hv Ht Hs Hd. pose proof (zlen_nonneg tail).
  destruct (hello_frame_form minor version_random sid tail) as (F0 & F38 & hi & lo & Hf & _); [done|unfold zlen in *; destruct Hs as [->| ->]; cbn; lia|].
  unfold patch_v3_session_id. set (f := hello_frame minor _) in *.
  assert (L0 : f !! 0%nat = Some x16) by (by rewrite Hf). assert (L5 : f !! 5%nat = Some x01) by (by rewrite Hf).
  assert (L43 : f !! 43%nat = Some (u8 (zlen sid))) by (by rewrite Hf).
  rewrite L0, L5, L43. rewrite (bool_decide_eq_true_2 (Some x16 = Some x16)), (bool_decide_eq_true_2 (Some x01 = Some x01)) by done.
  rewrite (proj2 (Z.ltb_ge _ _)) by (rewrite Hf, !zlen_cons; pose proof (zlen_nonneg (hello_message version_random sid tail)); lia).
  cbn [negb orb]. destruct Hs as [->|Hs].
  - unfold f. rewrite insert_frame by done. apply sign_frame; [|done]. rewrite zlen_hello_message by done. change (zlen (replicate 32 x00)) with 32. lia.
  - destruct sid as [|x sid]; [done|]. set (full := x :: sid) in *. assert (Hz : zlen full = 32) by (unfold zlen; lia). rewrite Hz.
    apply sign_frame; [|done]. rewrite zlen_hello_message by done. lia.
Qed.
(** [patch_client_hello_buffer] on a ClientHello with no session id, or one of 32 bytes: the
    server recognises the password, and what follows stays. *)
Lemma patched_hello minor version_random sid tail password draw name rest :
  length version_random = 34%nat -> zlen tail < 60000 -> sid = [] \/ length sid = 32%nat -> length draw = 28%nat ->
  let record := hello_frame minor (hello_message version_random sid tail) in
  exists record', patch_client_hello_buffer (record ++ rest) password draw = (record' ++ rest, true)
    /\ verify_v3_client_hello record' [(name, password)] = Some password.
Proof.
  intros Hv Ht Hs Hd record. pose proof (zlen_nonneg tail) as Hnn.
  pose proof (patched_record minor version_random sid tail password draw Hv Ht Hs Hd) as Hp. fold record in Hp.
  set (full := match sid with [] => replicate 32 x00 | _ => sid end) in *.
  assert (Hfull : zlen full = 32) by (unfold zlen; destruct Hs as [->|Hs]; [done|destruct sid; [done|unfold full; lia]]).
  set (hello := hello_message version_random full tail) in *.
  assert (Hlen : 71 <= zlen hello < 65000) by (unfold hello; rewrite zlen_hello_message by done; lia).
  exists (hello_frame minor (signed_hello password hello draw)). split.
  - destruct (hello_frame_form minor version_random sid tail) as (F0 & _ & hi & lo & Hf & Hdec); [done|unfold zlen in *; destruct Hs as [->| ->]; cbn; lia|].
    set (m := hello_message version_random sid tail) in *.
    assert (Hm : 39 <= zlen m) by (unfold m; rewrite zlen_hello_message by done; pose proof (zlen_nonneg sid); lia).
    assert (Hr : length record = (5 + length m)%nat) by (unfold record; by rewrite Hf).
    assert (Hr5 : (record ++ rest) !! 5%nat = Some x01) by (unfold record; by rewrite Hf).
    unfold patch_client_hello_buffer. rewrite length_app. destruct (length record + length rest - 6)%nat as [|n] eqn:E; [unfold zlen in Hm; lia|].
    cbn [patch_loop]. assert (Hz : be_decode (take 2 (drop 3 (record ++ rest))) = zlen m) by (unfold record; rewrite Hf; exact Hdec).
    cbn [Nat.add]. rewrite Hz, drop_0. replace (Z.to_nat (Z.of_nat 0 + 5 + zlen m)) with (length record) by (unfold zlen; lia).
    replace (S (S (S (S (S (Z.to_nat (zlen m))))))) with (length record) by (unfold zlen; lia).
    rewrite (take_app_length record), (drop_app_length record). rewrite Hr5.
    assert (Hr0 : (record ++ rest) !! 0%nat = Some x16) by (unfold record; by rewrite Hf). rewrite Hr0.
    rewrite (bool_decide_eq_true_2 (Some x16 = Some x16)), (bool_decide_eq_true_2 (Some x01 = Some x01)) by done.
    rewrite (proj2 (Z.ltb_ge _ _)) by (rewrite zlen_app; unfold zlen; lia). rewrite (proj2 (Z.ltb_ge _ _)) by lia.
    cbn [negb orb take app]. by rewrite Hp.
  - destruct (hello_frame_form minor version_random full tail) as (G0 & G38 & _); [done|lia|]. rewrite Hfull in G38.
    by apply (hello_verified password hello draw Hlen G0 G38 Hd minor name [] []).
Qed.
(** Two connections of which one reads what the other writes. *)
Definition chained (w r : VerifiedConn) : Prop := vc_password w = vc_password r /\ vc_add w = vc_verify r.

(** A record that arrives while the client waits is kept as it is, and read as data. *)
Lemma stash_one body : body <> [] -> in_u16 (zlen body) ->
  stash_post_handshake_records (polls [Arrive (tls_frame x17 body)]) [] [Arrive (tls_frame x17 body)] = Ok (tls_frame x17 body, []).
Proof.
  intros Hne Hz. unfold tls_frame. destruct (frame_header_form x17 (zlen body)) as (hi & lo & Hh & Hd). rewrite Hh. specialize (Hd Hz).
  assert (Hb : (1 <= length body)%nat) by (destruct body; [done|cbn; lia]).
  unfold polls. cbn [length Nat.add stash_post_handshake_records]. cbn [app inner_poll].
  rewrite (proj2 (Nat.leb_gt _ _)) by (cbn [length]; lia). cbn [take drop]. rewrite take_0, !drop_0. rewrite Hd. unfold zlen. rewrite Nat2Z.id.
  destruct (length body) as [|n] eqn:En; [lia|]. cbn [arrive_exact]. rewrite En, (proj2 (Nat.leb_le _ _)) by lia.
  rewrite Nat.sub_diag. cbn [arrive_exact mbind option_bind ok_or result_bind]. rewrite bool_decide_eq_true_2 by done.
  by rewrite app_nil_r.
Qed.
Lemma pending_read cap password random mac : (1 <= cap)%nat -> forall fuel pend, (length pend < fuel)%nat ->
  (v_drain (verified_poll cap) fuel (from_auth false password random (Some mac) pend) []).1 = (pend, VEnd).
Proof.
  intros Hcap. induction fuel as [|fuel IH]; intros pend Hf; [lia|]. cbn [v_drain]. destruct pend as [|b pend]; [done|].
  unfold verified_poll. cbn [from_auth vc_pending vc_password vc_add vc_verify vc_ignore]. destruct cap as [|cap]; [lia|]. cbn [take drop].
  specialize (IH (drop cap pend)). cbn [from_auth] in IH. destruct (v_drain _ fuel _ _) as [[out e] st]. cbn [fst length] in *.
  assert (Hoe : (out, e) = (drop cap pend, VEnd)) by (apply IH; rewrite length_drop; lia).
  injection Hoe as -> ->. by rewrite <-app_comm_cons, take_drop.
Qed.
(** The client's end of a handshake with TLS 1.3, after a wait. *)
Lemma connect_after strict_mode password random mac inner pending rest : zlen random = 32 ->
  stash_post_handshake_records (polls inner) [] inner = Ok (pending, rest) ->
  connect_v3 strict_mode (watching password random mac true true) inner
  = Ok (build_client_auth_frame password random, from_auth false password random (Some mac) pending, rest).
Proof.
  intros Hr Hst. unfold connect_v3. cbn [watching hc_random hc_tls13 hc_authorized hc_password hc_hmac hc_pending default negb].
  rewrite andb_false_r. change (id random) with random. rewrite Hr. cbn [Z.eqb Pos.eqb negb]. by rewrite Hst.
Qed.

(** C23.  A ShadowTLS handshake.  A client whose ClientHello is signed with a user's password
    (and by chance with that of no user listed before) completes a TLS handshake with
    another site, which answers with a TLS 1.3 ServerHello and at least one protected
    record, through the server; none of the client's own records carries the tag of an
    authentication frame.  Then that site gets the
    client's records as they are, and the client's TLS gets those of the site as they
    are, wrapped and unwrapped on the way, however whole records are bundled.  The server
    recognises the client's authentication frame and stops there, after relaying the
    records of the site that the client's TLS has read; the connections that both sides
    go on with fit in both directions, and what the client sends next is untouched.
    That is so when nothing reaches the client in the 150 milliseconds it waits after
    the handshake.  A record that does (a ticket of the site, or the server's first
    data) is not unwrapped: the application reads it raw, with its header and tag,
    before anything else. *)
Theorem shadow_handshake name password pre post hello draw minor hs random ws cf strict_mode more rest :
  71 <= zlen hello < 65000 -> hello !! 0%nat = Some x01 -> hello !! 38%nat = Some x20 -> length draw = 28%nat ->
  match_password (signed_hello password hello draw) pre = None ->
  hello13 hs random -> Forall site_record_ok ws -> Exists (fun w => w.1 = x17) ws ->
  Forall (client_frame_ok password random) cf ->
  let client_hello := hello_frame minor (signed_hello password hello draw) in
  let server := from_auth true password random None [] in
  exists out st client,
    serve_v3 (pre ++ (name, password) :: post) strict_mode (Some (tls_frame x16 hs ++ concat (frames_of ws) ++ more)) (length ws)
      (client_hello ++ concat (frames_of cf) ++ build_client_auth_frame password random ++ rest)
    = Ok (ShadowTunnel password server (client_hello ++ concat (frames_of cf)) (concat out) rest)
    /\ (forall cap groups fuel, (1 <= cap)%nat -> bundled out groups ->
          (length (tls_frame x16 hs ++ concat (frames_of ws)) < fuel)%nat ->
          v_drain (v3_handshake_poll cap) fuel (v3_handshake_new password) (arrivals groups)
          = (tls_frame x16 hs ++ concat (frames_of ws), VEnd, st))
    /\ connect_v3 strict_mode st [NotYet] = Ok (build_client_auth_frame password random, client, [])
    /\ chained client server /\ chained server client /\ vc_pending client = []
    /\ forall body cap fuel, body <> [] -> in_u16 (zlen body) -> (1 <= cap)%nat -> (length (tls_frame x17 body) < fuel)%nat ->
         exists late, connect_v3 strict_mode st [Arrive (tls_frame x17 body)] = Ok (build_client_auth_frame password random, late, [])
           /\ (v_drain (verified_poll cap) fuel late []).1 = (tls_frame x17 body, VEnd).
Proof.
  intros Hlen Ht Hs Hd Hpre Hh Hws Hex Hcf client_hello server.
  destruct (wrapped_reads password random true ws Hws random false) as (a' & Hreads & _ & Ha & _). specialize (Ha Hex) as ->.
  destruct (wrapped password random random ws) as [ws' mac] eqn:Ew. cbn [fst snd] in Hreads.
  exists (tls_frame x16 hs :: frames_of ws'), (watching password random mac true true), (from_auth false password random (Some mac) []).
  assert (Hrl : zlen random = 32).
  { destruct Hh as [_ _ Hl Hr _]. rewrite <-Hr. unfold zlen in *. rewrite length_take, length_drop. lia. }
  split_and!; [| | |done|done|done|].
  - unfold serve_v3, client_hello, hello_frame. set (signed := signed_hello password hello draw).
    assert (Hz : zlen signed = zlen hello) by (by apply zlen_signed).
    destruct (read_record_app x16 minor signed (concat (frames_of cf) ++ build_client_auth_frame password random ++ rest)) as [Hread _]; [lia|].
    pose proof (hello_verified password hello draw Hlen Ht Hs Hd minor name pre post Hpre) as Hver. fold signed in Hver.
    unfold hello_frame in Hver. rewrite Hread. cbn [mbind result_bind ok_or]. rewrite Hver.
    rewrite read_frame_app by apply Hh. cbn [mbind result_bind]. rewrite (server_random_found _ _ Hh). cbn [ok_or mbind result_bind].
    assert (Hv : is_server_hello_tls13 (drop 5 (tls_frame x16 hs)) = Ok true).
    { unfold tls_frame. destruct (frame_header_form x16 (zlen hs)) as (hi & lo & -> & _). apply Hh. }
    rewrite Hv. cbn [mbind result_bind negb]. rewrite andb_false_r.
    rewrite relay_client_done; [|done|].
    2: { rewrite !length_app. pose proof (length_frames cf). unfold build_client_auth_frame, app_frame. cbn [app length]. lia. }
    cbn [mbind result_bind]. rewrite read_frames_app.
    2: { eapply Forall_impl; [exact Hws|]. intros w (_ & _ & Hb). unfold in_u16. pose proof (zlen_nonneg w.2). lia. }
    cbn [mbind result_bind]. rewrite relay_site_wrapped, Ew. done.
  - intros cap groups fuel Hcap Hb Hf.
    pose proof (handshake_read_all cap Hcap fuel ((x16, hs) :: ws') (v3_handshake_new password) (tls_frame x16 hs :: frames_of ws)
      (watching password random mac true true) groups []) as Hall.
    apply Hall; [|done|done|done].
    eapply hs_reads_cons; [apply Hh|by apply take_server_hello|done|exact Hreads].
  - by apply connect_after.
  - intros body cap fuel' Hne Hz Hcap Hf. eexists. split; [by apply connect_after, stash_one|by apply pending_read].
Qed.

(** ** The connection that follows *)

Fixpoint verified_frames (w : VerifiedConn) (bufs : list (list byte)) : list (list byte) :=
  match bufs with
  | [] => []
  | buf :: bufs => let '(frame, w) := verified_write w buf in frame :: verified_frames w bufs
  end.
Lemma verified_frames_nonempty bufs : forall w, Forall (fun f => f <> []) (verified_frames w bufs).
Proof. induction bufs as [|b bufs IH]; intros w; constructor; [done|apply IH]. Qed.

(** The first record is not taken for one of the handshake. *)
Definition not_mistaken (r : VerifiedConn) (w : VerifiedConn) (bufs : list (list byte)) : Prop :=
  match vc_ignore r, bufs with
  | Some mac, buf :: _ => verify_ignore (vc_password r) (tag4 (vc_password w) (vc_add w ++ buf) ++ buf) mac = false
  | _, _ => True
  end.

(** Reading one frame. *)
Lemma verified_poll_frame cap w r buf bufs g gs : chained w r -> vc_pending r = [] -> zlen buf < 65000 ->
  not_mistaken r w (buf :: bufs) -> Forall (fun f => f <> []) g ->
  verified_poll cap r (arrivals (((verified_write w buf).1 :: g) :: gs))
  = (VReady (take cap buf),
     mkVerifiedConn (vc_password r) (vc_add r) (vc_add (verified_write w buf).2) None (drop cap buf), arrivals (regroup g gs)).
Proof.
  intros [Hp Hc] Hpend Hlen Hn Hg. cbn [verified_write fst snd vc_add]. set (tag := tag4 (vc_password w) (vc_add w ++ buf)) in *.
  assert (Ht : length tag = 4%nat) by apply tag4_length. rewrite app_frame_tls by done.
  assert (Hz : in_u16 (zlen (tag ++ buf))) by (unfold in_u16; rewrite zlen_app; unfold zlen in *; rewrite Ht; lia).
  assert (Hbody : forall ig, verified_body cap (mkVerifiedConn (vc_password r) (vc_add r) (vc_verify r) ig []) (tag ++ buf) (arrivals (regroup g gs))
    = (VReady (take cap buf), mkVerifiedConn (vc_password r) (vc_add r) (vc_add w ++ buf ++ tag) ig (drop cap buf), arrivals (regroup g gs))).
  { intros ig. unfold verified_body. cbn [vc_password vc_verify vc_add vc_ignore].
    rewrite (proj2 (Z.ltb_ge _ _)) by (rewrite zlen_app; unfold zlen; rewrite Ht; lia).
    rewrite drop_app_length', take_app_length' by done. rewrite <-Hp, <-Hc. fold tag. by rewrite bool_decide_eq_true_2. }
  unfold verified_poll. rewrite Hpend, poll_frame_group by done. unfold not_mistaken in Hn.
  destruct r as [pw add ver ig pend]. cbn [vc_pending vc_ignore vc_password vc_add vc_verify forget] in *. subst pend.
  rewrite <-(app_assoc (vc_add w)). destruct ig as [mac|]; [|apply Hbody].
  rewrite (proj2 (Z.ltb_ge _ _)) by (rewrite zlen_app; unfold zlen; rewrite Ht; lia). fold tag in Hn. rewrite Hn. apply Hbody.
Qed.

Lemma verified_read_all cap : (1 <= cap)%nat -> forall fuel bufs w r groups pend,
  chained w r -> vc_pending r = pend -> not_mistaken r w bufs ->
  Forall (fun b => b <> [] /\ zlen b < 65000) bufs -> bundled (verified_frames w bufs) groups ->
  (length pend + length (concat bufs) < fuel)%nat ->
  (v_drain (verified_poll cap) fuel r (arrivals groups)).1 = (pend ++ concat bufs, VEnd).
Proof.
  intros Hcap. induction fuel as [|fuel IH]; intros bufs w r groups pend Hc Hp Hm Hbufs Hb Hf; [lia|].
  cbn [v_drain]. destruct pend as [|b pend].
  - destruct Hbufs as [|buf bufs [Hne Hlen] Hbufs].
    { apply bundled_nil in Hb as ->. unfold verified_poll. rewrite Hp. done. }
    cbn [verified_frames verified_write] in Hb. apply bundled_cons in Hb as (g & gs & -> & Hb & Hg).
    assert (Hgne : Forall (fun f : list byte => f <> []) g).
    { pose proof (verified_frames_nonempty (buf :: bufs) w) as Hvf. cbn [verified_frames verified_write] in Hvf.
      apply Forall_forall. intros y Hy. rewrite Forall_forall in Hg, Hvf. by apply Hvf, Hg. }
    pose proof (verified_poll_frame cap w r buf bufs g gs Hc Hp Hlen Hm Hgne) as Hpoll. cbn [verified_write fst snd] in Hpoll.
    rewrite Hpoll. destruct cap as [|cap]; [lia|]. destruct buf as [|x buf]; [done|]. cbn [take drop].
    cbn [concat length] in Hf. rewrite length_app in Hf. cbn [length] in Hf.
    match goal with |- context [v_drain _ fuel ?r' _] =>
      pose proof (IH bufs (verified_write w (x :: buf)).2 r' (regroup g gs) (drop cap buf)) as Hih end.
    destruct (v_drain _ fuel _ _) as [[out e] st]. cbn [fst] in *.
    assert (Hoe : (out, e) = (drop cap buf ++ concat bufs, VEnd))
      by (apply Hih; [by destruct Hc|done|by destruct bufs|done|exact Hb|rewrite length_drop; lia]).
    injection Hoe as -> ->. cbn [app concat]. by rewrite app_assoc, take_drop.
  - unfold verified_poll. rewrite Hp. destruct cap as [|cap]; [lia|]. cbn [take drop]. cbn [length] in Hf.
    match goal with |- context [v_drain _ fuel ?r' _] => pose proof (IH bufs w r' groups (drop cap pend)) as Hih end.
    destruct (v_drain _ fuel _ _) as [[out e] st]. cbn [fst] in *.
    assert (Hoe : (out, e) = (drop cap pend ++ concat bufs, VEnd)) by (apply Hih; [done..|rewrite length_drop; lia]).
    injection Hoe as -> ->. cbn [app]. by rewrite app_assoc, take_drop.
Qed.

(** A record that is cut short at the end of the stream. *)
Lemma poll_cut w buf p1 p2 : (verified_write w buf).1 = p1 ++ p2 -> zlen buf < 65000 -> (5 <= length p1)%nat -> p2 <> [] ->
  poll_frame record_stop [Arrive p1] = (NoFrame VSpin, []).
Proof.
  intros He Hlen H5 H2. cbn [verified_write fst] in He. set (tag := tag4 _ _) in He.
  assert (Ht : length tag = 4%nat) by apply tag4_length. rewrite app_frame_tls in He by done. unfold tls_frame in He.
  destruct (frame_header_form x17 (zlen (tag ++ buf))) as (hi & lo & Hh & Hd). rewrite Hh in He.
  assert (Hz : in_u16 (zlen (tag ++ buf))) by (unfold in_u16; rewrite zlen_app; unfold zlen in *; rewrite Ht; lia). specialize (Hd Hz).
  destruct p1 as [|a [|b [|c [|d [|e p]]]]]; cbn [length] in H5; try lia. cbn [app] in He. injection He as <- <- <- <- <- He.
  assert (Hp : (length p < length (tag ++ buf))%nat).
  { rewrite He, length_app. destruct p2; [done|]. cbn [length]. lia. }
  assert (Hspin : forall fuel, fill_body (length (tag ++ buf) + fuel) (length (tag ++ buf)) p [] = (None, VSpin, [])).
  { intros fuel. destruct (length (tag ++ buf)) as [|n] eqn:E; [lia|]. cbn [Nat.add fill_body]. by rewrite (proj2 (Nat.leb_gt _ _)) by lia. }
  unfold poll_frame. cbn [inner_poll]. destruct p as [|x p].
  - cbn [length Nat.leb]. cbn match. change (record_stop x17) with (@None vpolled). cbv zeta. rewrite Hd. unfold zlen. rewrite Nat2Z.id.
    by rewrite Hspin.
  - cbn [length Nat.leb take drop]. cbn match. change (record_stop x17) with (@None vpolled). cbv zeta. rewrite Hd. unfold zlen. rewrite Nat2Z.id.
    destruct (length (tag ++ buf)) as [|n] eqn:E; [lia|]. change (length [Arrive (x :: p)]) with 1%nat. rewrite Nat.add_1_r.
    assert (Hstep : fill_body (S (S n)) (S n) [] [Arrive (x :: p)] = fill_body (S n) (S n) (x :: p) []).
    { set (q := x :: p) in *. cbn [fill_body]. change (length []) with 0%nat. rewrite (proj2 (Nat.leb_gt (S n) 0)) by lia.
      cbn [inner_poll]. rewrite Nat.sub_0_r, (proj2 (Nat.leb_le (length q) (S n))) by lia. done. }
    rewrite Hstep. specialize (Hspin 0%nat). rewrite Nat.add_0_r in Hspin. by rewrite Hspin.
Qed.

(** Data over ShadowTLS.  What one side writes, the other reads, in order, when records
    arrive whole, however they are bundled.  But the reader does not survive a cut: a
    header of which only a part is there is taken for the end of the data, a connection
    that ends within a record keeps the reader in a loop, and a record with less than
    four bytes panics it. *)
Theorem shadow_delivery cap w r bufs groups fuel : (1 <= cap)%nat -> chained w r -> vc_pending r = [] ->
  not_mistaken r w bufs -> Forall (fun b => b <> [] /\ zlen b < 65000) bufs -> bundled (verified_frames w bufs) groups ->
  (length (concat bufs) < fuel)%nat ->
  (v_drain (verified_poll cap) fuel r (arrivals groups)).1 = (concat bufs, VEnd)
  /\ forall buf p1 p2, zlen buf < 65000 -> (verified_write w buf).1 = p1 ++ p2 -> p1 <> [] -> p2 <> [] ->
       (forall inner, (length p1 < 5)%nat -> (v_drain (verified_poll cap) fuel r (Arrive p1 :: inner)).1 = ([], VEnd))
       /\ ((5 <= length p1)%nat -> (v_drain (verified_poll cap) fuel r [Arrive p1]).1 = ([], VSpins))
       /\ forall body, zlen body < 4 -> (v_drain (verified_poll cap) fuel r [Arrive (tls_frame x17 body)]).1 = ([], VPanics).
Proof.
  intros Hcap Hc Hp Hm Hb Hg Hf. split; [by apply (verified_read_all cap Hcap fuel bufs w r groups [])|].
  intros buf p1 p2 Hlen He H1 H2. destruct fuel as [|fuel]; [lia|]. split_and!.
  - intros inner H5. cbn [v_drain]. unfold verified_poll. rewrite Hp. unfold poll_frame. cbn [inner_poll].
    rewrite (proj2 (Nat.leb_le _ _)) by lia. destruct p1 as [|a [|b [|c [|d [|e p]]]]]; try done. cbn [length] in H5. lia.
  - intros H5. cbn [v_drain]. unfold verified_poll. rewrite Hp. by rewrite (poll_cut w buf p1 p2 He Hlen H5 H2).
  - intros body Hb4. cbn [v_drain]. unfold verified_poll. rewrite Hp.
    assert (Ha : [Arrive (tls_frame x17 body)] = arrivals [[tls_frame x17 body]]) by (unfold arrivals; cbn [map concat]; by rewrite app_nil_r).
    rewrite Ha, poll_frame_group; [|unfold in_u16; pose proof (zlen_nonneg body); lia|constructor|done].
    unfold verified_body. rewrite (proj2 (Z.ltb_lt _ _)) by done. by destruct (vc_ignore r).
Qed.

(** Data that is early.  When the server's first data reaches the client within the
    150 milliseconds it listens after the handshake, the client stashes the record as it
    is: what it reads first is the record's header and tag, and then the data. *)
Theorem shadow_early_data strict_mode password random mac buf cap fuel : zlen random = 32 -> zlen buf < 65000 -> (1 <= cap)%nat ->
  let frame := (verified_write (from_auth true password random None []) buf).1 in
  (length frame < fuel)%nat ->
  exists client,
    connect_v3 strict_mode (watching password random mac true true) [Arrive frame]
    = Ok (build_client_auth_frame password random, client, [])
    /\ (v_drain (verified_poll cap) fuel client []).1 = ([x17; x03; x03] ++ be_encode 2 (4 + zlen buf) ++ tag4 password (random ++ [x53] ++ buf) ++ buf, VEnd).
Proof.
  intros Hr Hlen Hcap frame Hf. set (tag := tag4 password (random ++ [x53] ++ buf)).
  assert (Ht : length tag = 4%nat) by apply tag4_length.
  assert (Hz : in_u16 (zlen (tag ++ buf))) by (unfold in_u16; rewrite zlen_app; unfold zlen in *; rewrite Ht; lia).
  assert (Hfr : frame = tls_frame x17 (tag ++ buf)).
  { unfold frame. cbn [verified_write from_auth fst vc_add vc_password]. rewrite app_frame_tls by apply tag4_length.
    by rewrite <-(app_assoc random). }
  exists (from_auth false password random (Some mac) frame).
  split; [rewrite Hfr; apply connect_after; [done|]; apply stash_one; [by destruct tag|done]|].
  rewrite pending_read by done. rewrite Hfr, <-app_frame_tls by done. done.
Qed.
End Relay.

(** ** ServerHello *)

(** The function that should give the suite gives the length of the extensions. *)
Lemma server_hello_cipher_is_length random sid cipher comp l : zlen random = 32 -> zlen sid < 256 -> in_u16 cipher ->
  zlen (exts_bytes l) < 60000 ->
  server_hello_cipher (drop 5 (server_hello_record random sid cipher comp (exts_bytes l))) = Ok (Some (zlen (exts_bytes l))).
Proof.
  intros Hr Hs Hc He. set (hs := drop 5 _).
  destruct (server_hs_form random sid cipher comp l Hr) as (v & _ & _ & Hlen & _).
  destruct (server_hs_fields random sid cipher comp l Hr Hc He) as (_ & F1 & _ & _ & F4 & _). fold hs in Hlen, F1, F4.
  pose proof (zlen_nonneg sid). pose proof (zlen_nonneg (exts_bytes l)).
  unfold server_hello_cipher, server_hello_tail. rewrite (proj2 (Z.leb_gt _ _)) by lia. rewrite F1. cbn [mbind result_bind].
  rewrite bz_sid_len by done. replace (38 + (1 + zlen sid + 2 + 1)) with (42 + zlen sid) by lia.
  rewrite (proj2 (Z.ltb_ge _ _)) by lia. cbn [mbind result_bind]. rewrite F4. done.
Qed.

Definition version_of (e : Z * list byte) : option bool :=
  if e.1 =? 43 then
    Some (if zlen e.2 =? 2 then match u16_at e.2 0 with Ok v => v =? 772 | _ => false end else false)
  else None.
Lemma version_exts l : Forall ext_ok l -> forall fuel pre, (length l < fuel)%nat ->
  version_loop fuel (pre ++ exts_bytes l) (zlen pre) = Ok (default false (first_ext version_of l)).
Proof.
  induction 1 as [|e l He _ IH]; intros [|fuel] pre Hf; cbn [length] in Hf; try lia; cbn [version_loop].
  { rewrite (proj2 (Z.leb_gt _ _)); [done|]. rewrite zlen_app. change (zlen (exts_bytes [])) with 0. lia. }
  unfold exts_bytes. cbn [map concat]. fold (exts_bytes l). destruct (ext_at e pre (exts_bytes l) He) as (H1 & H2 & H3 & H4).
  pose proof (zlen_nonneg (exts_bytes l)). pose proof (zlen_nonneg e.2). pose proof (zlen_nonneg pre).
  rewrite H4. rewrite (proj2 (Z.leb_le _ _)) by lia. rewrite H1. cbn [mbind result_bind]. rewrite H2. cbn [mbind result_bind].
  change (first_ext version_of (e :: l)) with (match version_of e with Some a => Some a | None => first_ext version_of l end).
  unfold version_of at 1. destruct (e.1 =? 43).
  - destruct (zlen e.2 =? 2) eqn:E2; [|done]. bool_props. rewrite (proj2 (Z.leb_le _ _)) by lia. cbn [andb].
    assert (Hv : u16_at (pre ++ push_ext e.1 e.2 ++ exts_bytes l) (zlen pre + 4) = u16_at e.2 0).
    { unfold push_ext. pose proof (zlen_be 2 e.1). pose proof (zlen_be 2 (zlen e.2)). rewrite <-!app_assoc.
      rewrite !u16_at_skip by lia. replace (zlen pre + 4 - zlen pre - _ - _) with 0 by lia.
      destruct e.2 as [|a [|b [|? ?]]]; try (unfold zlen in E2; cbn in E2; lia). done. }
    rewrite Hv. destruct (u16_at_ok e.2 0) as (v & -> & _); [lia..|]. done.
  - rewrite (proj2 (Z.ltb_ge _ _)) by lia. specialize (IH fuel (pre ++ push_ext e.1 e.2) ltac:(lia)).
    rewrite zlen_app, zlen_push, <-app_assoc in IH. by replace (zlen pre + 4 + zlen e.2) with (zlen pre + (4 + zlen e.2)) by lia.
Qed.
(** A ServerHello that names TLS 1.3 in its extensions is usable. *)
Lemma hello13_record random sid cipher comp l : zlen random = 32 -> zlen sid < 256 -> in_u16 cipher -> Forall ext_ok l ->
  zlen (exts_bytes l) < 60000 -> first_ext version_of l = Some true ->
  hello13 (drop 5 (server_hello_record random sid cipher comp (exts_bytes l))) random.
Proof.
  intros Hr Hs Hc Hl He Hv. set (hs := drop 5 _).
  destruct (server_hs_form random sid cipher comp l Hr) as (v & _ & _ & Hlen & _).
  destruct (server_hs_fields random sid cipher comp l Hr Hc He) as (F0 & F1 & _ & _ & F4 & F5 & pre & Hpre & E). fold hs in Hlen, F0, F1, F4, F5, E.
  pose proof (zlen_nonneg sid). pose proof (zlen_nonneg (exts_bytes l)). split; [unfold in_u16; lia|done|lia| |].
  - apply slice_get_at in F5; [|lia..]. unfold slice_get in F5. rewrite (proj2 (Z.ltb_ge _ _)) in F5 by lia. by injection F5 as F5.
  - unfold is_server_hello_tls13, server_hello_tail. rewrite (proj2 (Z.leb_gt _ _)) by lia. rewrite F1. cbn [mbind result_bind].
    rewrite bz_sid_len by done. replace (38 + (1 + zlen sid + 2 + 1)) with (42 + zlen sid) by lia.
    rewrite (proj2 (Z.ltb_ge _ _)) by lia. cbn [mbind result_bind]. rewrite F4. cbn [mbind result_bind].
    rewrite (proj2 (Z.ltb_ge _ _)) by lia. rewrite E. rewrite <-(app_nil_r (exts_bytes l)) at 1.
    rewrite slice_at_app_eq by (done || lia). cbn [mbind result_bind].
    assert (Hf : (length l < length (exts_bytes l))%nat).
    { destruct l as [|e l]; [done|]. pose proof (length_exts l). unfold exts_bytes in *. cbn [map concat length]. unfold push_ext at 1.
      rewrite !length_app, !length_be_encode. lia. }
    pose proof (version_exts l Hl (length (exts_bytes l)) [] Hf) as Hvl. cbn [app] in Hvl. change (zlen []) with 0 in Hvl. by rewrite Hvl, Hv.
Qed.

(** ** Version 2 *)

Lemma v2_header payload : in_u16 (zlen payload) -> exists hi lo,
  wrap_app_data payload = [x17; x03; x03; hi; lo] ++ payload /\ be_decode [hi; lo] = zlen payload.
Proof.
  intros Hn. unfold wrap_app_data. rewrite be_encode_two. do 2 eexists. split; [reflexivity|]. rewrite <-be_encode_two. by apply be_decode_u16.
Qed.
Lemma inner_poll_all cap bs inner : (length bs <= cap)%nat -> inner_poll cap (Arrive bs :: inner) = (PReady bs, inner).
Proof. intros Hl. cbn [inner_poll]. by rewrite (proj2 (Nat.leb_le _ _)). Qed.
Definition pending_arrival (d : list byte) : list arrival := match d with [] => [] | _ => [Arrive d] end.
(** A read takes what fits and leaves the rest. *)
Lemma inner_poll_rest cap bs inner :
  inner_poll cap (Arrive bs :: inner) = (PReady (take cap bs), pending_arrival (drop cap bs) ++ inner).
Proof.
  cbn [inner_poll]. destruct (length bs <=? cap)%nat eqn:E.
  - apply Nat.leb_le in E. by rewrite take_ge, drop_ge.
  - apply Nat.leb_gt in E. destruct (drop cap bs) eqn:Ed; [|done]. apply (f_equal length) in Ed. rewrite length_drop in Ed. cbn in Ed. lia.
Qed.
Lemma v2_read_all cap : (1 <= cap)%nat -> forall fuel ps rest,
  Forall (fun p => p <> [] /\ zlen p < 2 ^ 16) ps -> zlen rest < 2 ^ 16 -> (length rest + length (concat ps) < fuel)%nat ->
  drain (v2_poll_read cap) fuel (zlen rest)
    (pending_arrival rest ++ map (fun p => Arrive (wrap_app_data p)) ps)
  = (rest ++ concat ps, AtEnd).
Proof.
  intros Hcap. induction fuel as [|fuel IH]; intros ps rest Hps Hr Hf; [lia|]. cbn [drain].
  assert (Hnext : forall q ps', Forall (fun p => p <> [] /\ zlen p < 2 ^ 16) ps' -> q <> [] -> zlen q < 2 ^ 16 ->
    (length q + length (concat ps') < S fuel)%nat ->
    zlen q - zlen (take cap q) = zlen (drop cap q) /\ take cap q <> []
    /\ drain (v2_poll_read cap) fuel (zlen (drop cap q))
         (pending_arrival (drop cap q) ++ map (fun p => Arrive (wrap_app_data p)) ps')
       = (drop cap q ++ concat ps', AtEnd)).
  { intros q ps' Hps' Hq Hz Hl. destruct q as [|x q]; [done|]. destruct cap as [|cap]; [lia|]. split_and!; [|done|].
    - unfold zlen. rewrite length_take, length_drop. lia.
    - apply IH; [done|unfold zlen in *; rewrite length_drop; lia|]. rewrite length_drop. cbn [length] in *. lia. }
  destruct rest as [|b rest].
  - cbn [pending_arrival app]. destruct Hps as [|p ps [Hp Hlen] Hps]; [done|]. cbn [map]. change (zlen []) with 0.
    destruct (v2_header p) as (hi & lo & -> & Hd); [unfold in_u16; pose proof (zlen_nonneg p); lia|].
    unfold v2_poll_read at 1. change (0 <? 0) with false. cbn match.
    assert (Hi : forall inner, inner_poll 5 (Arrive ([x17; x03; x03; hi; lo] ++ p) :: inner) = (PReady [x17; x03; x03; hi; lo], Arrive p :: inner))
      by (intros inner; by destruct p).
    rewrite Hi. rewrite bool_decide_eq_true_2 by done. cbn [negb]. rewrite inner_poll_rest, Hd.
    cbn [concat length] in Hf. rewrite length_app in Hf. cbn [length] in Hf.
    destruct (Hnext p ps Hps Hp Hlen ltac:(lia)) as (Hz & Ht & Hdr). destruct (take cap p) as [|x bs] eqn:Et; [done|]. rewrite <-Et in *.
    rewrite Hz, Z.max_r by apply zlen_nonneg. rewrite Hdr. cbn [concat app]. by rewrite app_assoc, take_drop.
  - set (q := b :: rest) in *. unfold v2_poll_read at 1.
    assert (Hpos : 0 < zlen q) by (unfold q; rewrite zlen_cons; pose proof (zlen_nonneg rest); lia).
    rewrite (proj2 (Z.ltb_lt _ _)) by done. change (pending_arrival q) with [Arrive q]. cbn [app]. rewrite inner_poll_rest.
    destruct (Hnext q ps Hps ltac:(done) Hr Hf) as (Hz & Ht & Hdr). destruct (take cap q) as [|x bs] eqn:Et; [done|]. rewrite <-Et in *.
    rewrite Hz. unfold u64, wrap. rewrite Z.mod_small by (unfold zlen in *; rewrite length_drop; lia).
    rewrite Hdr. by rewrite app_assoc, take_drop.
Qed.

(** Records of version 2.  When every record arrives by itself, the reader delivers the
    payloads one after another.  When two arrive together and the reader has room for
    both, the header of the second is delivered as data: a read is not stopped at the
    end of a record. *)
Theorem v2_records cap ps p1 p2 fuel : (1 <= cap)%nat ->
  Forall (fun p => p <> [] /\ zlen p < 2 ^ 16) ps -> (length (concat ps) < fuel)%nat ->
  drain (v2_poll_read cap) fuel 0 (map (fun p => Arrive (wrap_app_data p)) ps) = (concat ps, AtEnd)
  /\ (p1 <> [] -> zlen p1 < 2 ^ 16 -> (length p1 + length (wrap_app_data p2) <= cap)%nat -> (1 < fuel)%nat ->
      drain (v2_poll_read cap) fuel 0 [Arrive (wrap_app_data p1 ++ wrap_app_data p2)] = (p1 ++ wrap_app_data p2, AtEnd)).
Proof.
  intros Hcap Hps Hf. split; [by apply (v2_read_all cap Hcap fuel ps [])|].
  intros Hp1 Hlen Hfit Hf2. destruct fuel as [|[|fuel]]; [lia..|].
  destruct (v2_header p1) as (hi & lo & -> & Hd); [unfold in_u16; pose proof (zlen_nonneg p1); lia|].
  set (q := wrap_app_data p2) in *. rewrite <-app_assoc. cbn [drain]. unfold v2_poll_read at 1. change (0 <? 0) with false. cbn match.
  assert (Hi : inner_poll 5 [Arrive ([x17; x03; x03; hi; lo] ++ p1 ++ q)] = (PReady [x17; x03; x03; hi; lo], [Arrive (p1 ++ q)]))
    by (by destruct p1).
  rewrite Hi. rewrite bool_decide_eq_true_2 by done. cbn [negb]. rewrite inner_poll_all by (rewrite length_app; lia).
  destruct (p1 ++ q) as [|x l] eqn:E; [by destruct p1|]. rewrite <-E. rewrite Hd, zlen_app.
  rewrite Z.max_l by (pose proof (zlen_nonneg q); lia). cbn [drain]. unfold v2_poll_read. cbn. by rewrite app_nil_r.
Qed.

(** A keyed function that starts with a checksum and the end of the message. *)
Definition toy_shadow : ShadowCrypto.
Proof.
  refine {| hmac_sha1 := fun k m => take 20 (foldr bxor x00 (k ++ m) :: reverse m ++ replicate 20 x00); st_sha256 := fun m => take 32 (m ++ replicate 32 x00) |}.
  - intros k m. rewrite length_take. cbn [length]. rewrite length_app, length_replicate. lia.
  - intros m. rewrite length_take, length_app, length_replicate. lia.
Defined.
Definition demo_st_password : list byte := str "pw".
Definition demo_st_random : list byte := replicate 32 x0c.
Definition demo_st_hello : list byte := hello_message (replicate 34 x03) (replicate 32 x00) (str "tail").
Definition demo_st_server_hello : list byte := drop 5 (server_hello_record demo_st_random (replicate 32 x00) 4865 x00 (exts_bytes [(43, [x03; x04])])).
Definition demo_st_site : list (byte * list byte) := [(x14, [x01]); (x17, str "ee"); (x17, str "fin")].
Definition demo_st_client : list (byte * list byte) := [(x14, [x01]); (x17, str "finished")].

Lemma shadow_handshake_witness :
  let client_hello := hello_frame x01 (signed_hello (H := toy_shadow) demo_st_password demo_st_hello (replicate 28 x07)) in
  let server := from_auth true demo_st_password demo_st_random None [] in
  exists out st client,
    serve_v3 (H := toy_shadow) [(str "a", str "other"); (str "u", demo_st_password)] true
      (Some (tls_frame x16 demo_st_server_hello ++ concat (frames_of demo_st_site) ++ str "more")) 3
      (client_hello ++ concat (frames_of demo_st_client) ++ build_client_auth_frame (H := toy_shadow) demo_st_password demo_st_random ++ str "data")
    = Ok (ShadowTunnel demo_st_password server (client_hello ++ concat (frames_of demo_st_client)) (concat out) (str "data"))
    /\ (forall cap groups fuel, (1 <= cap)%nat -> bundled out groups ->
          (length (tls_frame x16 demo_st_server_hello ++ concat (frames_of demo_st_site)) < fuel)%nat ->
          v_drain (v3_handshake_poll (H := toy_shadow) cap) fuel (v3_handshake_new demo_st_password) (arrivals groups)
          = (tls_frame x16 demo_st_server_hello ++ concat (frames_of demo_st_site), VEnd, st))
    /\ connect_v3 (H := toy_shadow) true st [NotYet]
       = Ok (build_client_auth_frame (H := toy_shadow) demo_st_password demo_st_random, client, [])
    /\ chained client server /\ chained server client /\ vc_pending client = [].
Proof.
  destruct (shadow_handshake (H := toy_shadow) (str "u") demo_st_password [(str "a", str "other")] [] demo_st_hello (replicate 28 x07) x01
    demo_st_server_hello demo_st_random demo_st_site demo_st_client true (str "more") (str "data"))
    as (out & st & client & H1 & H2 & H3 & H4 & H5 & H6 & _);
    [..|exists out, st, client; split_and!; [exact H1|exact H2|exact H3|exact H4|exact H5|exact H6]].
  - vm_compute. split; [discriminate|reflexivity].
  - reflexivity.
  - reflexivity.
  - reflexivity.
  - vm_compute. reflexivity.
  - split; [split; vm_compute; congruence|reflexivity|reflexivity|reflexivity|vm_compute; reflexivity].
  - repeat constructor; try discriminate; try done.
  - right. left. reflexivity.
  - repeat constructor; vm_compute; congruence.
Defined.

Lemma shadow_delivery_witness :
  let w := from_auth true demo_st_password demo_st_random None [] in
  let r := from_auth false demo_st_password demo_st_random (Some (str "seen")) [] in
  let groups := [verified_frames (H := toy_shadow) w [str "ab"; str "cde"]] in
  (v_drain (verified_poll (H := toy_shadow) 2) 20 r (arrivals groups)).1 = (concat [str "ab"; str "cde"], VEnd).
Proof.
  refine (proj1 (shadow_delivery (H := toy_shadow) 2 (from_auth true demo_st_password demo_st_random None [])
    (from_auth false demo_st_password demo_st_random (Some (str "seen")) []) [str "ab"; str "cde"]
    [verified_frames (H := toy_shadow) (from_auth true demo_st_password demo_st_random None []) [str "ab"; str "cde"]] 20 _ _ _ _ _ _ _)).
  - lia.
  - done.
  - done.
  - vm_compute. reflexivity.
  - repeat constructor; done.
  - split; [by rewrite <-(app_nil_r (verified_frames _ _)) at 2|repeat constructor; done].
  - vm_compute. lia.
Defined.

Lemma shadow_early_data_witness :
  exists client,
    connect_v3 (H := toy_shadow) true (watching demo_st_password demo_st_random (str "seen") true true)
      [Arrive (verified_write (H := toy_shadow) (from_auth true demo_st_password demo_st_random None []) (str "hi")).1]
    = Ok (build_client_auth_frame (H := toy_shadow) demo_st_password demo_st_random, client, [])
    /\ (v_drain (verified_poll (H := toy_shadow) 4) 20 client []).1
       = ([x17; x03; x03] ++ be_encode 2 (4 + zlen (str "hi"))
            ++ tag4 (H := toy_shadow) demo_st_password (demo_st_random ++ [x53] ++ str "hi") ++ str "hi", VEnd).
Proof.
  refine (shadow_early_data (H := toy_shadow) true demo_st_password demo_st_random (str "seen") (str "hi") 4 20 _ _ _ _).
  - reflexivity.
  - reflexivity.
  - lia.
  - vm_compute. lia.
Defined.

Lemma v2_records_witness :
  drain (v2_poll_read 3) 9 0 (map (fun p => Arrive (wrap_app_data p)) [str "ab"; str "cdefg"]) = (concat [str "ab"; str "cdefg"], AtEnd).
Proof.
  refine (proj1 (v2_records 3 [str "ab"; str "cdefg"] [] [] 9 _ _ _)).
  - lia.
  - repeat constructor; done.
  - vm_compute. lia.
Defined.
