(* ===== verification/Outbounds.v ===== *)
(** * Clients

    The outbounds that speak to another server: [rsb-protocol/src/direct.rs],
    [socks.rs], [http_outbound.rs], [trojan.rs], [vless.rs], [tuic.rs], and what they dial
    through ([detour.rs], [transport.rs], [chain_outbound.rs]); with the inbounds of the same
    files, as far as [Vless] does not have them.

    A client that waits for answers is a [talk]: it consumes the bytes the server sends and
    yields the bytes it has sent itself.  Name lookup and connecting are arguments. *)
From stdpp Require Import base tactics gmap list strings.
From Stdlib Require Import ZArith Lia.
From Stdlib Require Import Strings.Byte.
From S2P Require Import Prelude Json Text Ip DnsWire DnsRouter Users Connections Codec Dial Relay Config Groups Inbound RsqSession RsqUdp Vless Hello Tls13 Reality.

Local Open Scope Z_scope.

(** ** Talking to a server *)

Definition talk (A : Type) : Type := list byte -> result (A * list byte) * list byte.
#[global] Instance talk_ret : MRet talk := fun A a s => (Ok (a, s), []).
#[global] Instance talk_bind : MBind talk := fun A B f m s =>
  match m s with
  | (Ok (a, s), out) => let '(r, out') := f a s in (r, out ++ out')
  | (Err e, out) => (Err e, out)
  | (Panic e, out) => (Panic e, out)
  end.
Definition write_all (bs : list byte) : talk unit := fun s => (Ok (tt, s), bs).
Definition recv_exact (n : Z) : talk (list byte) := fun s => (read_exact n s, []).
Definition lift {A} (r : result A) : talk A := fun s => (a ← r; Ok (a, s), []).
Definition bail {A} (e : string) : talk A := lift (Err e).

(** ** Direct and block *)

(** What connecting to an address comes to, and after how many milliseconds. *)
Record Attempt := mkAttempt {
  at_ms : Z;
  at_error : option string;
}.
Definition DNS_TIMEOUT : Z := 2000.
Definition PER_CANDIDATE : Z := 800.

Section Direct.
(** The system resolver with the time it takes, and [tcp_connect_via]. *)
Variable lookup_host : list byte -> Z -> Z * result (list SocketAddr).
Variable attempt : SocketAddr -> Attempt.

Definition sa_is_ipv4 (a : SocketAddr) : bool := match sa_ip a with V4 _ => true | V6 _ => false end.
(** The addresses to try, and the time that has passed. *)
Definition direct_candidates (destination : SocketAddr) (domain : option (list byte)) : Z * result (list SocketAddr) :=
  if is_unspecified (sa_ip destination) then
    match domain with
    | None => (0, Err "direct outbound needs a domain when destination IP is unspecified")
    | Some host =>
        let '(ms, addrs) := lookup_host host (sa_port destination) in
        if DNS_TIMEOUT <? ms then (DNS_TIMEOUT, Err "direct dns lookup timed out")
        else
          (ms,
           match addrs with
           | Ok addrs =>
               let v4 := List.filter sa_is_ipv4 addrs in
               let v4 := match v4 with [] => addrs | _ => v4 end in
               match v4 with [] => Err "direct dns lookup returned no addresses" | _ => Ok v4 end
           | _ => Err "direct dns lookup failed"
           end)
    end
  else (0, Ok [destination]).
(** The loop over them: the address that is connected. *)
Fixpoint direct_loop (last_err : option string) (ms : Z) (candidates : list SocketAddr) : Z * result SocketAddr :=
  match candidates with
  | [] => (ms, Err (default "direct dial failed"%string last_err))
  | addr :: candidates =>
      let a := attempt addr in
      if PER_CANDIDATE <? at_ms a then direct_loop (Some "direct dial timed out"%string) (ms + PER_CANDIDATE) candidates
      else
        match at_error a with
        | None => (ms + at_ms a, Ok addr)
        | Some e => direct_loop (Some e) (ms + at_ms a) candidates
        end
  end.
Definition direct_dial_tcp (destination : SocketAddr) (domain : option (list byte)) : Z * result SocketAddr :=
  match direct_candidates destination domain with
  | (ms, Ok candidates) => direct_loop None ms candidates
  | (ms, Err e) => (ms, Err e)
  | (ms, Panic e) => (ms, Panic e)
  end.
End Direct.
Definition block_dial {A} : result A := Err "connection blocked by outbound".

(** ** SOCKS *)

Record SocksOutbound := mkSocksOutbound {
  so_server : list byte;
  so_port : Z;
  so_username : option (list byte);
  so_password : option (list byte);
}.
Definition socks_outbound_new (raw : Value) : result SocksOutbound :=
  server ← ok_or "socks outbound: missing server" (text raw "server");
  port ← ok_or "socks outbound: missing server_port" (number raw "server_port");
  Ok (mkSocksOutbound server (u16 port) (text raw "username") (text raw "password")).
(** [connect_proxy]: the address that is connected. *)
Definition socks_proxy_addr (o : SocksOutbound) : result SocketAddr :=
  ok_or "parse socks server" (parse_socket_addr (so_server o ++ str ":" ++ show_uint (so_port o))).

Definition socks5_auth (username password : option (list byte)) : talk unit :=
  _ ← write_all [x05; x01; if bool_decide (is_Some username) then x02 else x00];
  resp ← recv_exact 2;
  version ← lift (index resp 0);
  method ← lift (index resp 1);
  if negb (bool_decide (version = x05)) then bail "invalid socks version"
  else if bool_decide (method = x02) then
    let user := default [] username in
    let pass := default [] password in
    _ ← write_all ([x01; u8 (zlen user)] ++ user ++ [u8 (zlen pass)] ++ pass);
    auth_resp ← recv_exact 2;
    status ← lift (index auth_resp 1);
    if negb (bool_decide (status = x00)) then bail "socks auth failed" else mret tt
  else if negb (bool_decide (method = x00)) then bail "unsupported socks auth method"
  else mret tt.
Definition skip_socks_addr (atyp : byte) : talk unit :=
  if bz atyp =? 1 then _ ← recv_exact 6; mret tt
  else if bz atyp =? 3 then
    len ← recv_exact 1;
    len ← lift (index len 0);
    _ ← recv_exact (bz len + 2);
    mret tt
  else if bz atyp =? 4 then _ ← recv_exact 18; mret tt
  else bail "invalid socks address type".
Definition socks5_connect (destination : SocketAddr) (username password : option (list byte)) : talk unit :=
  _ ← socks5_auth username password;
  let host := show_ip (sa_ip destination) in
  _ ← write_all ([x05; x01; x00; x03; u8 (zlen host)] ++ host ++ be_encode 2 (sa_port destination));
  header ← recv_exact 4;
  status ← lift (index header 1);
  if negb (bool_decide (status = x00)) then bail "socks connect failed"
  else
    atyp ← lift (index header 3);
    skip_socks_addr atyp.
(** [dial_tcp]: the server's address, and the conversation with it. *)
Definition socks_dial_tcp (o : SocksOutbound) (destination : SocketAddr) : result (SocketAddr * talk unit) :=
  addr ← socks_proxy_addr o;
  Ok (addr, socks5_connect destination (so_username o) (so_password o)).

Section Udp.
Variable lookup_host : list byte -> Z -> result (list SocketAddr).
Definition read_socks_bind_addr : talk SocketAddr :=
  header ← recv_exact 4;
  status ← lift (index header 1);
  if negb (bool_decide (status = x00)) then bail "socks udp associate failed"
  else
    atyp ← lift (index header 3);
    if bz atyp =? 1 then
      rest ← recv_exact 6;
      ip ← lift (slice_to rest 4);
      port ← lift (u16_at rest 4);
      mret (mkSocketAddr (V4 (be_decode ip)) port)
    else if bz atyp =? 3 then
      len ← recv_exact 1;
      len ← lift (index len 0);
      domain ← recv_exact (bz len);
      port ← recv_exact 2;
      host ← lift (from_utf8 domain);
      port ← lift (u16_at port 0);
      lift (first_address lookup_host host port)
    else if bz atyp =? 4 then
      rest ← recv_exact 18;
      ip ← lift (slice_to rest 16);
      port ← lift (u16_at rest 16);
      mret (mkSocketAddr (V6 (be_decode ip)) port)
    else bail "invalid socks address type".
Definition socks5_udp_associate : talk SocketAddr :=
  _ ← write_all [x05; x03; x00; x01; x00; x00; x00; x00; x00; x00];
  read_socks_bind_addr.
(** [dial_udp]: where datagrams will be sent. *)
Definition socks_dial_udp (o : SocksOutbound) : result (SocketAddr * talk SocketAddr) :=
  addr ← socks_proxy_addr o;
  Ok (addr, (_ ← socks5_auth (so_username o) (so_password o); socks5_udp_associate)).
End Udp.

(** ** HTTP *)

Record HttpOutbound := mkHttpOutbound {
  ho_server : list byte;
  ho_port : Z;
  ho_username : option (list byte);
  ho_password : option (list byte);
  ho_tls : option Value;
}.
Definition http_outbound_new (raw : Value) : result HttpOutbound :=
  server ← ok_or "http outbound: server required" (text raw "server");
  port ← ok_or "http outbound: server_port required" (number raw "server_port");
  Ok (mkHttpOutbound server (u16 port) (text raw "username") (text raw "password") (get raw "tls")).
Section Http.
(** [STANDARD.encode] of the base64 crate. *)
Variable b64_encode : list byte -> list byte.
Definition connect_request (o : HttpOutbound) (destination : SocketAddr) : list byte :=
  let target := format_address destination in
  str "CONNECT " ++ target ++ str " HTTP/1.1" ++ crlf ++ str "Host: " ++ target ++ crlf
  ++ match ho_username o, ho_password o with
     | Some u, Some p => str "Proxy-Authorization: Basic " ++ b64_encode (u ++ str ":" ++ p) ++ crlf
     | _, _ => []
     end
  ++ crlf.
(** [dial_tcp], given what the reads of at most 1024 bytes return; the text of the only one it
    makes is looked at and dropped. *)
Definition http_dial_tcp (o : HttpOutbound) (destination : SocketAddr) (reads : list (list byte))
  : result (list (list byte)) * list byte :=
  ((text ← from_utf8 (default [] (head reads));
    if contains text (str "200") then Ok (tail reads) else Err "http proxy connect failed"),
   connect_request o destination).
End Http.

(** ** Links *)

(** What an outbound's connection to its server is made of. *)
Inductive TlsKind := TlsReality | TlsUtls | TlsRustls (server_name : list byte).
Inductive Link :=
| TcpLink (server : list byte) (port : Z)
| TlsLink (kind : TlsKind) (server : list byte) (port : Z)
| DetourLink (tag : list byte) (addr : SocketAddr) (domain : option (list byte)) (server_name : option (list byte)).

Definition detour_tag (raw : Value) : option (list byte) := text raw "detour".
Definition tls_enabled (tls : option Value) : bool :=
  match tls with Some t => default true (flag t "enabled") | None => false end.
Definition tls_server_name (tls : option Value) (server : list byte) (sni : option (list byte)) : list byte :=
  default server (or_else sni (t ← tls; text t "server_name")).
(** [tls_connect]. *)
Definition tls_connect (server : list byte) (port : Z) (tls : option Value) (sni : option (list byte)) : Link :=
  TlsLink (if is_reality tls then TlsReality
           else if utls_enabled tls then TlsUtls
           else TlsRustls (tls_server_name tls server sni)) server port.
(** [tls_over_stream]: the name that is asked for. *)
Definition tls_over_stream (tls : option Value) (server : list byte) (sni : option (list byte)) : result (list byte) :=
  if is_reality tls then Err "reality over detour stream is not supported"
  else if utls_enabled tls then Err "utls over detour stream is not supported"
  else Ok (tls_server_name tls server sni).
(** The server's link of [HttpOutbound::dial_tcp]. *)
Definition http_link (o : HttpOutbound) : Link :=
  if match ho_tls o with Some t => default false (flag t "enabled") | None => false end
  then tls_connect (ho_server o) (ho_port o) (ho_tls o) None else TcpLink (ho_server o) (ho_port o).

Section Links.
Context `{UserCrypto}.
Variable lookup_host : list byte -> Z -> result (list SocketAddr).
(** [SharedOutboundManager]: the manager, once it is set. *)
Variable shared : option OutboundManager.

Definition dial_tcp_via_detour (tag : list byte) : result Outbound :=
  m ← ok_or "outbound manager not initialized" shared;
  manager_get m tag.
Definition dial_server_link (detour : option (list byte)) (server : list byte) (port : Z) (tls : option Value)
    (sni : option (list byte)) : result Link :=
  match detour with
  | Some tag =>
      addr ← first_address lookup_host server port;
      _ ← dial_tcp_via_detour tag;
      if tls_enabled tls then
        name ← tls_over_stream tls server sni;
        Ok (DetourLink tag addr sni (Some name))
      else Ok (DetourLink tag addr sni None)
  | None =>
      if tls_enabled tls then Ok (tls_connect server port tls sni) else Ok (TcpLink server port)
  end.

(** ** Trojan *)

Record TrojanOutbound := mkTrojanOutbound {
  to_server : list byte;
  to_port : Z;
  to_password : list byte;
  to_tls : option Value;
  to_sni : option (list byte);
  to_detour : option (list byte);
}.
Definition trojan_outbound_new (raw : Value) : result TrojanOutbound :=
  server ← ok_or "trojan: server required" (text raw "server");
  port ← ok_or "trojan: server_port required" (number raw "server_port");
  password ← ok_or "trojan: password required" (text raw "password");
  Ok (mkTrojanOutbound server (u16 port) password (get raw "tls") (t ← get raw "tls"; text t "server_name") (detour_tag raw)).
(** The link, and what is sent over it first. *)
Definition trojan_connect_cmd (encode : list byte -> SocketAddr -> list byte) (o : TrojanOutbound) (destination : SocketAddr)
  : result (Link * list byte) :=
  link ← dial_server_link (to_detour o) (to_server o) (to_port o) (to_tls o) (to_sni o);
  Ok (link, encode (sha224_hex (to_password o)) destination).
Definition trojan_connect := trojan_connect_cmd encode_trojan_tcp.
Definition trojan_connect_udp := trojan_connect_cmd encode_trojan_udp.

Record TlsInboundCfg := mkTlsInbound {
  ti_listen : SocketAddr;
  ti_users : list (list byte);
  ti_cert : list byte;
  ti_key : list byte;
}.
Definition tls_files (tls : Value) (cert_missing key_missing : string) : result (list byte * list byte) :=
  cert ← ok_or cert_missing (v ← or_else (get tls "certificate_path") (get tls "certificate"); as_str v);
  key ← ok_or key_missing (v ← or_else (get tls "key_path") (get tls "key"); as_str v);
  Ok (cert, key).
Definition trojan_inbound_new (raw : Value) : result TlsInboundCfg :=
  listen ← parse_listen raw;
  let users := match (v ← get raw "users"; as_array v) with
               | Some l => map sha224_hex (omap (fun u => text u "password") l)
               | None => []
               end in
  let users := match users, text raw "password" with [], Some p => [sha224_hex p] | _, _ => users end in
  if bool_decide (users = []) then Err "trojan inbound: password/users required"
  else
    tls ← ok_or "trojan inbound: tls required" (get raw "tls");
    '(cert, key) ← tls_files tls "trojan inbound: tls certificate_path" "trojan inbound: tls key_path";
    Ok (mkTlsInbound listen users cert key).

(** ** VLESS *)

Record VlessOutbound := mkVlessOutbound {
  vl_server : list byte;
  vl_port : Z;
  vl_uuid : list byte;
  vl_flow : option (list byte);
  vl_packet_encoding : list byte;
  vl_tls : option Value;
  vl_sni : option (list byte);
  vl_detour : option (list byte);
}.
Definition vless_outbound_new (raw : Value) : result VlessOutbound :=
  uuid_str ← ok_or "vless: uuid required" (text raw "uuid");
  server ← ok_or "vless: server required" (text raw "server");
  port ← ok_or "vless: server_port required" (number raw "server_port");
  uuid ← ok_or "vless: invalid uuid" (uuid_parse uuid_str);
  Ok (mkVlessOutbound server (u16 port) uuid (text raw "flow") (default (str "xudp") (text raw "packet_encoding"))
        (get raw "tls") (t ← get raw "tls"; text t "server_name") (detour_tag raw)).
Definition use_tls (o : VlessOutbound) : bool := tls_enabled (vl_tls o).
(** How the stream behind the request is read and written: padded by XTLS Vision, plain after
    the answer was read, or by [VlessResponseStream]. *)
Inductive VlessTail := VisionTail | AckedTail | ResponseTail.
Definition vless_connect (o : VlessOutbound) (destination : SocketAddr) : result (Link * list byte * VlessTail) :=
  let vision := is_vision_flow (vl_flow o) in
  let header := build_vless_request (vl_uuid o) destination (vl_flow o) x01 in
  if bool_decide (vl_detour o = None) && use_tls o && vision
  then Ok (tls_connect (vl_server o) (vl_port o) (vl_tls o) (vl_sni o), header, VisionTail)
  else
    link ← dial_server_link (vl_detour o) (vl_server o) (vl_port o) (vl_tls o) (vl_sni o);
    Ok (link, header, if use_tls o && negb vision then AckedTail else ResponseTail).
(** Datagrams behind it: XUDP, or the frames of [udp_over_tcp]. *)
Inductive VlessUdp := XudpTail | FramedTail.
Definition vless_connect_udp (o : VlessOutbound) (destination : SocketAddr) : result (Link * list byte * VlessUdp) :=
  link ← (if bool_decide (is_Some (vl_detour o)) || negb (use_tls o)
          then dial_server_link (vl_detour o) (vl_server o) (vl_port o) (vl_tls o) (vl_sni o)
          else Ok (tls_connect (vl_server o) (vl_port o) (vl_tls o) (vl_sni o)));
  if bool_decide (vl_packet_encoding o = str "xudp")
  then Ok (link, vless_xudp_request_header (vl_uuid o) (vl_flow o), XudpTail)
  else Ok (link, build_vless_request (vl_uuid o) destination (vl_flow o) x02, FramedTail).
Definition vless_inbound_new (raw : Value) : result TlsInboundCfg :=
  listen ← parse_listen raw;
  users ← match (v ← get raw "users"; as_array v) with Some l => uuid_users l | None => Ok [] end;
  users ← match users, text raw "uuid" with
          | [], Some id => uid ← ok_or "invalid uuid" (uuid_parse id); Ok [uid]
          | us, _ => Ok us
          end;
  if bool_decide (users = []) then Err "vless inbound: uuid/users required"
  else
    tls ← ok_or "vless inbound: tls required" (get raw "tls");
    '(cert, key) ← tls_files tls "vless inbound: certificate" "vless inbound: key";
    Ok (mkTlsInbound listen users cert key).

(** ** Chain *)

Definition chain_outbound_new (raw : Value) : result (list (list byte)) :=
  l ← ok_or "chain: outbounds array required" (v ← get raw "outbounds"; as_array v);
  let tags := omap as_str l in
  if bool_decide (tags = []) then Err "chain: at least one outbound tag required" else Ok tags.
Definition chain_dial (tags : list (list byte)) : result Outbound :=
  tag ← ok_or "chain: empty outbounds" (last tags);
  dial_tcp_via_detour tag.
End Links.

(** ** TUIC *)

Record TuicOutbound := mkTuicOutbound {
  tu_server : list byte;
  tu_port : Z;
  tu_uuid : list byte;
  tu_password : list byte;
  tu_sni : list byte;
  tu_insecure : bool;
}.
Definition build_tuic_header (cmd : byte) (uuid password : list byte) (dest : SocketAddr) : list byte :=
  [cmd] ++ uuid ++ [u8 (zlen password)] ++ password
  ++ [match sa_ip dest with V4 _ => x01 | V6 _ => x03 end] ++ ip_octets (sa_ip dest) ++ be_encode 2 (sa_port dest).
Definition build_tuic_connect := build_tuic_header x01.
Definition build_tuic_packet := build_tuic_header x03.
(** [dial_tcp] and [dial_udp], over a stream of the connection. *)
Definition tuic_ask (header : list byte) (refused : string) : talk unit :=
  _ ← write_all header;
  resp ← recv_exact 1;
  status ← lift (index resp 0);
  if negb (bool_decide (status = x00)) then bail refused else mret tt.
Definition tuic_dial_tcp (o : TuicOutbound) (destination : SocketAddr) : talk unit :=
  tuic_ask (build_tuic_connect (tu_uuid o) (tu_password o) destination) "tuic connect rejected".
Definition tuic_dial_udp (o : TuicOutbound) (destination : SocketAddr) : talk unit :=
  tuic_ask (build_tuic_packet (tu_uuid o) (tu_password o) destination) "tuic udp associate rejected".

Section Tuic.
Context `{UserCrypto}.
Definition tuic_outbound_new (raw : Value) : result TuicOutbound :=
  uuid_str ← ok_or "tuic: uuid required" (text raw "uuid");
  server ← ok_or "tuic: server required" (text raw "server");
  port ← ok_or "tuic: server_port required" (number raw "server_port");
  uuid ← ok_or "tuic: invalid uuid" (uuid_parse uuid_str);
  password ← ok_or "tuic: password required" (text raw "password");
  let tls := get raw "tls" in
  Ok (mkTuicOutbound server (u16 port) uuid password (default server (t ← tls; text t "server_name"))
        (default false (t ← tls; flag t "insecure"))).
Fixpoint tuic_users (l : list Value) : result (list (list byte * list byte)) :=
  match l with
  | [] => Ok []
  | u :: l =>
      id ← ok_or "tuic user uuid" (text u "uuid");
      pass ← ok_or "tuic user password" (text u "password");
      id ← ok_or "invalid uuid" (uuid_parse id);
      r ← tuic_users l;
      Ok ((id, pass) :: r)
  end.
Record TuicInboundCfg := mkTuicInbound {
  ui_listen : SocketAddr;
  ui_users : list (list byte * list byte);
  ui_cert : list byte;
  ui_key : list byte;
}.
Definition tuic_inbound_new (raw : Value) : result TuicInboundCfg :=
  listen ← parse_listen raw;
  users ← match (v ← get raw "users"; as_array v) with Some l => tuic_users l | None => Ok [] end;
  if bool_decide (users = []) then Err "tuic inbound: users required"
  else
    tls ← ok_or "tuic inbound: tls required" (get raw "tls");
    '(cert, key) ← tls_files tls "tuic cert" "tuic key";
    Ok (mkTuicInbound listen users cert key).

(** What the server makes of the only read of the header, of at most 512 bytes. *)
Inductive TuicRequest :=
| TuicDest (uid : list byte) (dest : SocketAddr)
| TuicRefused.
Definition read_tuic_dest (atyp : byte) (cursor : list byte) : result SocketAddr :=
  if bz atyp =? 1 then
    if zlen cursor <? 6 then Err "truncated ipv4"
    else ip ← slice_to cursor 4; port ← u16_at cursor 4; Ok (mkSocketAddr (V4 (be_decode ip)) port)
  else if bz atyp =? 3 then
    if zlen cursor <? 18 then Err "truncated ipv6"
    else ip ← slice_to cursor 16; port ← u16_at cursor 16; Ok (mkSocketAddr (V6 (be_decode ip)) port)
  else Err "unsupported tuic address type".
Definition parse_tuic (users : list (list byte * list byte)) (cursor : list byte) : result TuicRequest :=
  match cursor with
  | [] => Err "invalid tuic command"
  | cmd :: cursor =>
      if negb (bool_decide (cmd = x01)) then Err "invalid tuic command"
      else if zlen cursor <? 16 then Err "truncated tuic uuid"
      else
        uid ← slice_to cursor 16;
        cursor ← slice_from cursor 16;
        match cursor with
        | [] => Err "truncated tuic password len"
        | pass_len :: cursor =>
            if zlen cursor <? bz pass_len + 1 then Err "truncated tuic password"
            else
              pass ← slice_to cursor (bz pass_len);
              pass ← from_utf8 pass;
              cursor ← slice_from cursor (bz pass_len);
              if negb (bool_decide ((uid, pass) ∈ users)) then Ok TuicRefused
              else
                atyp ← index cursor 0;
                cursor ← slice_from cursor 1;
                dest ← read_tuic_dest atyp cursor;
                Ok (TuicDest uid dest)
        end
  end.
Variable connect : SocketAddr -> result unit.
Variable now : Z.
Definition handle_tuic_stream (users : list (list byte * list byte)) (inbound_tag : list byte) (read : list byte)
    (cm : ConnectionManager) : Served :=
  match parse_tuic users read with
  | Ok TuicRefused => fail [ToClient [x01]] (Err "tuic auth failed" : result unit) cm
  | Ok (TuicDest uid dest) =>
      let evs := [ToClient [x00]] in
      match connect dest with
      | Ok _ => start_relay (evs ++ [Connect dest]) (begin_for_uuid cm now inbound_tag (Some dest) None uid)
      | r => fail evs r cm
      end
  | r => fail [] r cm
  end.
End Tuic.

(** ** Running a client *)

Lemma run_write {A} bs (f : unit -> talk A) s : (mbind f (write_all bs)) s = let '(r, out) := f tt s in (r, bs ++ out).
Proof. reflexivity. Qed.
Lemma run_read {A} n a (f : list byte -> talk A) s : n = zlen a -> (mbind f (recv_exact n)) (a ++ s) = f a s.
Proof. intros ->. unfold mbind, talk_bind, recv_exact. rewrite read_bytes_app by done. by destruct (f a s). Qed.
Lemma run_lift {A B} (a : A) (f : A -> talk B) s : (mbind f (lift (Ok a))) s = f a s.
Proof. unfold mbind, talk_bind, lift. cbn. by destruct (f a s). Qed.
Lemma run_bind {A B} (m : talk A) (f : A -> talk B) s a s' out :
  m s = (Ok (a, s'), out) -> (mbind f m) s = let '(r, out') := f a s' in (r, out ++ out').
Proof. intros Hm. unfold mbind, talk_bind. by rewrite Hm. Qed.
Lemma run_short {A} n (f : list byte -> talk A) s : zlen s < n -> exists e, (mbind f (recv_exact n)) s = (Err e, []).
Proof.
  intros Hs. unfold mbind, talk_bind, recv_exact, read_exact. rewrite (proj2 (Z.ltb_lt _ _)) by done. by eexists.
Qed.

(** ** SOCKS: a client and the mixed inbound *)

(** The greeting when no method is required. *)
Lemma auth_free user pass s :
  socks5_auth user pass ([x05; x00] ++ s) = (Ok (tt, s), [x05; x01; if bool_decide (is_Some user) then x02 else x00]).
Proof.
  unfold socks5_auth. rewrite run_write, run_read by done. change (index [x05; x00] 0) with (Ok x05). rewrite run_lift.
  change (index [x05; x00] 1) with (Ok x00). rewrite run_lift. reflexivity.
Qed.
Definition socks_request (dest : SocketAddr) : list byte :=
  let host := show_ip (sa_ip dest) in
  [x05; x01; x00; x03; u8 (zlen host)] ++ host ++ be_encode 2 (sa_port dest).
Lemma digits_bound radix fuel : 2 <= radix -> forall k v acc, 0 <= v < radix ^ Z.of_nat (S k) ->
  (length (digits_go radix fuel v acc) <= S k + length acc)%nat.
Proof.
  intros Hr. induction fuel as [|fuel IH]; intros k v acc Hv; cbn [digits_go]; [lia|].
  destruct (v <? radix) eqn:E; [cbn [length]; lia|]. bool_props. destruct k as [|k]; [lia|].
  etrans; [apply (IH k)|cbn [length]; lia]. split; [apply Z.div_pos; lia|].
  apply Z.div_lt_upper_bound; [lia|]. rewrite (Nat2Z.inj_succ (S k)), Z.pow_succ_r in Hv by lia. lia.
Qed.
(** The text of an address has at most 42 characters. *)
Lemma show_ip_short ip : (length (show_ip ip) <= 42)%nat.
Proof.
  assert (H4 : forall a, (length (show_ipv4 a) <= 16)%nat).
  { intros a. unfold show_ipv4. etrans; [apply (join_length _ 3)|done]. unfold octets4. cbn [map].
    repeat (constructor; [apply (digits_bound 10 40 ltac:(lia) 2); pose proof (octet_range 4 0 a); split; [apply octet_range|]; eapply Z.lt_le_trans; [apply octet_range|done]|]). constructor. }
  assert (Hs : forall l, Forall (fun g => 0 <= g < 65536) l -> (length (join x3a (map show_hex l)) <= 5 * length l)%nat).
  { intros l Hl. etrans; [apply (join_length _ 4)|rewrite length_map; lia]. apply Forall_fmap. eapply Forall_impl; [exact Hl|].
    intros g Hg. apply (digits_bound 16 40 ltac:(lia) 3). done. }
  destruct ip as [a|a]; cbn [show_ip]; [specialize (H4 a); lia|]. unfold show_ipv6. destruct (to_ipv4_mapped a) as [v|].
  { rewrite length_app. specialize (H4 v). change (length (str "::ffff:")) with 7%nat. lia. }
  pose proof (segments_range a) as Hr. destruct (zero_run _ _ _ _) as [st len]. case_match.
  - rewrite !length_app. change (length (str "::")) with 2%nat. pose proof (Hs _ (Forall_take _ st _ Hr)) as H1.
    pose proof (Hs _ (Forall_drop _ (st + len) _ Hr)) as H2. rewrite length_take in H1. rewrite length_drop in H2.
    change (length (segments a)) with 8%nat in *. lia.
  - specialize (Hs _ Hr). change (length (segments a)) with 8%nat in *. lia.
Qed.
Lemma show_ip_target dest : sa_wf dest -> target_ok (Domain (show_ip (sa_ip dest)) (sa_port dest)).
Proof.
  intros [_ Hp]. split_and!; [pose proof (show_ip_short (sa_ip dest)); unfold zlen; lia| |done].
  apply utf8_ascii. eapply Forall_impl; [exact (show_ip_chars (sa_ip dest))|]. intros b Hb. unfold addr_char in Hb. lia.
Qed.

(** C24.  A chain of two.  What the SOCKS outbound sends is understood by the mixed
    inbound of another instance: it dials the port and, as a name, the text of the
    address; its answers let the client through; and the bytes of both directions
    behind the handshake are untouched.  Credentials of the client are never sent, since
    the inbound asks for none.  When the dial fails the client gets an error. *)
Theorem socks_client_served dest user pass : sa_wf dest ->
  exists sent,
    (forall more, socks5_connect dest user pass ([x05; x00] ++ socks_reply ++ more) = (Ok (tt, more), sent))
    /\ (exists e, socks5_connect dest user pass [x05; x00] = (Err e, sent))
    /\ forall open payload cm,
         handle_socks5 open (sent ++ payload) cm
         = match open (unspecified (sa_port dest)) (Some (show_ip (sa_ip dest))) cm with
           | (Ok (Some _), cm) =>
               mkHandled [Inbound.ToClient [x05; x00]; Inbound.ToClient socks_reply] (Ok tt) (Some payload) cm
           | (Ok None, cm) => mkHandled [Inbound.ToClient [x05; x00]] (Ok tt) None cm
           | (r, cm) => stop [Inbound.ToClient [x05; x00]] r cm
           end.
Proof.
  intros Hd. exists ([x05; x01; if bool_decide (is_Some user) then x02 else x00] ++ socks_request dest). split_and!.
  - intros more. unfold socks5_connect. rewrite (run_bind _ _ _ _ _ _ (auth_free user pass _)).
    rewrite run_write. change socks_reply with ([x05; x00; x00; x01] ++ [x00; x00; x00; x00; x00; x00]). rewrite <-app_assoc, run_read by done.
    change (index [x05; x00; x00; x01] 1) with (Ok x00). rewrite run_lift. change (index [x05; x00; x00; x01] 3) with (Ok x01).
    cbn match. rewrite bool_decide_eq_true_2 by done. cbn [negb]. rewrite run_lift. unfold skip_socks_addr. change (bz x01 =? 1) with true. cbn match.
    rewrite run_read by done. cbn. by rewrite app_nil_r.
  - unfold socks5_connect. rewrite <-(app_nil_r [x05; x00]). rewrite (run_bind _ _ _ _ _ _ (auth_free user pass [])).
    rewrite run_write. destruct (run_short 4 (fun header => status ← lift (index header 1);
      if negb (bool_decide (status = x00)) then bail "socks connect failed"
      else atyp ← lift (index header 3); skip_socks_addr atyp) [] ltac:(done)) as [e He].
    rewrite He. exists e. by rewrite app_nil_r.
  - intros open payload cm. pose proof (socks_handshake open [if bool_decide (is_Some user) then x02 else x00] x05 x01 x00
      (Domain (show_ip (sa_ip dest)) (sa_port dest)) payload cm ltac:(done) (show_ip_target dest Hd)) as Hs.
    cbn [target_addr fst snd socks_type socks_rest] in Hs. rewrite <-Hs. unfold socks_request. cbn [app]. by rewrite <-!app_assoc.
Qed.

(** ** HTTP: a client and the mixed inbound *)

Lemma format_address_word a : sa_wf a -> word_ok (format_address a).
Proof.
  intros Ha. assert (Hc : forall ip, Forall printable (show_ip ip)).
  { intros ip. eapply Forall_impl; [exact (show_ip_chars ip)|]. intros b Hb. unfold addr_char in Hb. unfold printable. lia. }
  assert (Hn : Forall printable (show_uint (sa_port a))).
  { eapply Forall_impl; [apply show_uint_digits; apply Ha|]. intros b Hb. unfold is_digit in Hb. unfold printable. lia. }
  unfold format_address. destruct (sa_ip a) as [v|v] eqn:E; (split; [|by destruct (show_ip _)]); rewrite !Forall_app; split_and!; try done;
    by repeat constructor.
Qed.
Definition basic_header (b64_encode : list byte -> list byte) (o : HttpOutbound) : list (list byte) :=
  match ho_username o, ho_password o with
  | Some u, Some p => [str "Proxy-Authorization: Basic " ++ b64_encode (u ++ str ":" ++ p)]
  | _, _ => []
  end.
Lemma connect_request_form b64 o dest :
  connect_request b64 o dest
  = http_request (str "CONNECT") (format_address dest) (str "HTTP/1.1") ((str "Host: " ++ format_address dest) :: basic_header b64 o).
Proof.
  unfold connect_request, http_request, request_line, header_text, basic_header. cbn [map concat].
  destruct (ho_username o), (ho_password o); cbn [map concat]; rewrite ?app_nil_r, <-?app_assoc; done.
Qed.

(** A CONNECT request of the HTTP outbound is understood by the mixed inbound of
    another instance, however it is cut: the destination is dialled and the bytes behind
    the request are sent on.  The inbound's answer lets the client through; but the client
    makes one read for the answer and drops what else it returned, so data of the
    destination that arrives together with the answer is lost. *)
Theorem http_client_served b64_encode o dest : (forall s, Forall line_char (b64_encode s)) -> sa_wf dest ->
  let request := connect_request b64_encode o dest in
  (forall open timed reads body ts cm cm', Forall (fun c => c <> []) reads -> concat reads = request ++ body ->
     timed dest None cm = (Some (Ok (Some ts)), cm') ->
     exists buffered rest, body = buffered ++ concat rest
       /\ handle_http_connect open timed reads cm
          = mkHandled ([Inbound.ToClient established] ++ (if bool_decide (buffered = []) then [] else [Inbound.ToRemote buffered]))
              (Ok tt) (Some rest) cm')
  /\ forall early rest, utf8_valid (established ++ early) = true ->
       http_dial_tcp b64_encode o dest ((established ++ early) :: rest) = (Ok rest, request).
Proof.
  intros Hb Hd request. split.
  - intros open timed reads body ts cm cm' Hr Hc Ho. unfold request in Hc. rewrite connect_request_form in Hc.
    pose proof (format_address_word dest Hd) as Hw. assert (Hline : Forall line_char (format_address dest)) by apply (printable_line_char _ (proj1 Hw)).
    eapply (connect_tunnel open timed reads (format_address dest) (str "HTTP/1.1") _ body dest None ts cm cm' Hr Hw); [| |exact Hc| |exact Ho].
    + split; [by repeat constructor|done].
    + constructor.
      * split; [|done]. apply Forall_app. split; [by repeat constructor|done].
      * unfold basic_header. destruct (ho_username o), (ho_password o); constructor; [|constructor].
        split; [|done]. apply Forall_app. split; [by repeat constructor|apply Hb].
    + unfold parse_connect_target. by rewrite parse_format_address.
  - intros early rest Hu. unfold http_dial_tcp. cbn [head tail default]. unfold from_utf8. change (id (established ++ early)) with (established ++ early).
    rewrite Hu. cbn [mbind result_bind]. rewrite (proj2 (contains_spec _ _)); [done|].
    exists (str "HTTP/1.1 "), (str " Connection Established" ++ crlf ++ crlf ++ early). reflexivity.
Qed.
(** A refusal that mentions the digits is taken for an acceptance. *)
Example http_refusal_accepted b64_encode o dest :
  (http_dial_tcp b64_encode o dest [http_error 407 (str "Proxy Authentication Required") (replicate 200 x2e)]).1 = Ok [].
Proof. vm_compute. reflexivity. Qed.

(** ** TUIC: both ends *)

Section TuicProofs.
Context `{UserCrypto}.
Lemma parse_tuic_request users uuid password dest early : zlen uuid = 16 -> zlen password < 256 -> utf8_valid password = true -> sa_wf dest ->
  parse_tuic users (build_tuic_connect uuid password dest ++ early)
  = if bool_decide ((uuid, password) ∈ users) then Ok (TuicDest uuid dest) else Ok TuicRefused.
Proof.
  intros Hu Hp Hutf [Hip Hport]. pose proof (zlen_nonneg password). unfold build_tuic_connect, build_tuic_header, parse_tuic. rewrite <-!app_assoc. cbn [app].
  rewrite bool_decide_eq_true_2 by done. cbn [negb].
  set (rest := u8 (zlen password) :: _). rewrite (proj2 (Z.ltb_ge _ _)) by (rewrite zlen_app; pose proof (zlen_nonneg rest); lia).
  rewrite slice_to_app_eq by done. cbn [mbind result_bind]. rewrite slice_from_app_eq by done. cbn [mbind result_bind]. unfold rest.
  rewrite bz_u8_small by lia. set (tail := _ :: ip_octets _ ++ _). rewrite (proj2 (Z.ltb_ge _ _)) by (unfold tail; rewrite zlen_app, zlen_cons; pose proof (zlen_nonneg (ip_octets (sa_ip dest) ++ be_encode 2 (sa_port dest) ++ early)); lia).
  rewrite slice_to_app_eq by done. cbn [mbind result_bind]. rewrite from_utf8_valid by done. cbn [mbind result_bind].
  rewrite slice_from_app_eq by done. cbn [mbind result_bind]. case_bool_decide as Hin; cbn [negb]; [|done].
  unfold tail. change (index (?x :: ?l) 0) with (Ok x). cbn [mbind result_bind].
  assert (Hs : forall x (l : list byte), slice_from (x :: l) 1 = Ok l).
  { intros x l. apply (slice_from_app_eq [x] l). done. }
  rewrite Hs. cbn [mbind result_bind]. unfold read_tuic_dest.
  pose proof (zlen_ip_octets (sa_ip dest)) as Hl. pose proof (zlen_nonneg early). pose proof (zlen_be_encode 2 (sa_port dest)) as Hb.
  pose proof (u16_at_app (ip_octets (sa_ip dest)) (sa_port dest) early Hport) as Hu16. rewrite Hl in Hu16.
  destruct dest as [[a|a] port]; cbn [sa_ip sa_port] in *.
  - change (bz x01 =? 1) with true. cbn match. rewrite (proj2 (Z.ltb_ge _ _)) by (rewrite !zlen_app; lia).
    rewrite slice_to_app_eq by done. cbn [mbind result_bind]. rewrite Hu16. cbn [mbind result_bind]. by rewrite (ip_octets_decode (V4 a) Hip).
  - change (bz x03 =? 1) with false. change (bz x03 =? 3) with true. cbn match. rewrite (proj2 (Z.ltb_ge _ _)) by (rewrite !zlen_app; lia).
    rewrite slice_to_app_eq by done. cbn [mbind result_bind]. rewrite Hu16. cbn [mbind result_bind]. by rewrite (ip_octets_decode (V6 a) Hip).
Qed.
Lemma tuic_asked header refused status more :
  tuic_ask header refused (status :: more) = (if bool_decide (status = x00) then Ok (tt, more) else Err refused, header).
Proof.
  unfold tuic_ask. rewrite run_write. change (status :: more) with ([status] ++ more). rewrite run_read by done.
  change (index [status] 0) with (Ok status). rewrite run_lift. case_bool_decide; cbn; by rewrite app_nil_r.
Qed.

(** TUIC.  A request of a configured user with its password, read in one piece, is
    answered and its destination connected, and the client goes on with the stream behind
    the answer; but what the read returned behind the request is lost.  With another
    password the server answers a refusal, which the client reports.  Requests for UDP
    are never understood: the server drops the stream without an answer. *)
Theorem tuic_request_served connect now users tag o dest cm early :
  zlen (tu_uuid o) = 16 -> zlen (tu_password o) < 256 -> utf8_valid (tu_password o) = true -> sa_wf dest ->
  let request := build_tuic_connect (tu_uuid o) (tu_password o) dest in
  let served := handle_tuic_stream connect now users tag (request ++ early) cm in
  ((tu_uuid o, tu_password o) ∈ users ->
     served = match connect dest with
              | Ok _ => start_relay [ToClient [x00]; Connect dest] (begin_for_uuid cm now tag (Some dest) None (tu_uuid o))
              | r => fail [ToClient [x00]] r cm
              end
     /\ forall more, tuic_dial_tcp o dest ([x00] ++ more) = (Ok (tt, more), request))
  /\ ((tu_uuid o, tu_password o) ∉ users ->
     served = fail [ToClient [x01]] (Err "tuic auth failed" : result unit) cm
     /\ forall more, tuic_dial_tcp o dest ([x01] ++ more) = (Err "tuic connect rejected", request))
  /\ exists e, handle_tuic_stream connect now users tag (tuic_dial_udp o dest []).2 cm = fail [] (Err e : result unit) cm
       /\ is_ok (tuic_dial_udp o dest []).1 = false.
Proof.
  intros Hu Hp Hutf Hd request served. unfold served, request, handle_tuic_stream. rewrite parse_tuic_request by done. split_and!.
  - intros Hin. rewrite bool_decide_eq_true_2 by done. split; [by destruct (connect dest)|]. intros more. apply tuic_asked.
  - intros Hin. rewrite bool_decide_eq_false_2 by done. split; [done|]. intros more. apply tuic_asked.
  - eexists. split; [reflexivity|reflexivity].
Qed.
End TuicProofs.

(** The inbound takes every command for CONNECT, so that a client that asks it for UDP is
    sent to the address 0.0.0.0:0. *)
Lemma socks_udp_misunderstood lookup_host user pass open ts cm cm' :
  open (unspecified 0) None cm = (Ok (Some ts), cm') ->
  let ask := (_ ← socks5_auth user pass; socks5_udp_associate lookup_host) in
  exists sent, ask ([x05; x00] ++ socks_reply) = (Ok (unspecified 0, []), sent)
    /\ h_events (handle_socks5 open sent cm) = [Inbound.ToClient [x05; x00]; Inbound.ToClient socks_reply].
Proof.
  intros Ho ask. exists ([x05; x01; if bool_decide (is_Some user) then x02 else x00] ++ [x05; x03; x00; x01; x00; x00; x00; x00; x00; x00]). split.
  - unfold ask. rewrite (run_bind _ _ _ _ _ _ (auth_free user pass socks_reply)). reflexivity.
  - pose proof (socks_handshake open [if bool_decide (is_Some user) then x02 else x00] x05 x03 x00 (Ip (unspecified 0)) [] cm ltac:(done) ltac:(done)) as Hs.
    cbn [target_addr fst snd] in Hs. rewrite Ho in Hs. cbn [app socks_type socks_rest unspecified sa_ip sa_port] in Hs |- *.
    change (ip_octets (V4 0)) with [x00; x00; x00; x00] in Hs. change (be_encode 2 0) with [x00; x00] in Hs. cbn [app] in Hs.
    change (u8 (zlen [if bool_decide (is_Some user) then x02 else x00])) with x01 in Hs. by rewrite Hs.
Qed.

(** ** Direct *)

Section DirectProofs.
Variable lookup_host : list byte -> Z -> Z * result (list SocketAddr).
Variable attempt : SocketAddr -> Attempt.
Hypothesis attempt_time : forall a, 0 <= at_ms (attempt a).
Hypothesis lookup_time : forall h p, 0 <= (lookup_host h p).1.

Definition answers_in_time (a : SocketAddr) : Prop := at_ms (attempt a) <= PER_CANDIDATE /\ at_error (attempt a) = None.
Lemma direct_loop_spec cs : forall err ms,
  let '(ms', r) := direct_loop attempt err ms cs in
  ms <= ms' <= ms + PER_CANDIDATE * Z.of_nat (length cs)
  /\ forall a, r = Ok a <-> exists pre post, cs = pre ++ a :: post /\ answers_in_time a /\ Forall (fun x => ~ answers_in_time x) pre.
Proof.
  induction cs as [|c cs IH]; intros err ms; cbn [direct_loop length].
  - split; [cbn; lia|]. intros a. split; [done|]. intros (pre & post & He & _). by destruct pre.
  - assert (Hskip : forall ms1 err1, ~ answers_in_time c -> ms <= ms1 <= ms + PER_CANDIDATE ->
      let '(ms', r) := direct_loop attempt err1 ms1 cs in
      ms <= ms' <= ms + PER_CANDIDATE * Z.of_nat (S (length cs))
      /\ forall a, r = Ok a <-> exists pre post, c :: cs = pre ++ a :: post /\ answers_in_time a /\ Forall (fun x => ~ answers_in_time x) pre).
    { intros ms1 err1 Hc Hms. specialize (IH err1 ms1). destruct (direct_loop attempt err1 ms1 cs) as [ms' r]. destruct IH as [Hb Hr]. split; [unfold PER_CANDIDATE in *; lia|].
      intros a. rewrite Hr. split.
      - intros (pre & post & -> & Ha & Hp). exists (c :: pre), post. split_and!; [done|done|by constructor].
      - intros (pre & post & He & Ha & Hp). destruct Hp as [|x pre Hx Hp]; cbn in He; injection He as -> ->; [done|]. by exists pre, post. }
    pose proof (attempt_time c) as Ht. destruct (PER_CANDIDATE <? at_ms (attempt c)) eqn:E.
    + bool_props. apply Hskip; [unfold answers_in_time; lia|unfold PER_CANDIDATE in *; lia].
    + bool_props. destruct (at_error (attempt c)) as [e|] eqn:Ee.
      * apply Hskip; [unfold answers_in_time; rewrite Ee; by intros [_ ?]|unfold PER_CANDIDATE in *; lia].
      * split; [unfold PER_CANDIDATE in *; lia|]. intros a. split.
        -- intros [= <-]. exists [], cs. split_and!; [done|done|constructor].
        -- intros (pre & post & He & Ha & Hp). destruct Hp as [|x pre Hx Hp]; cbn in He; injection He as -> ->; [done|].
           exfalso. apply Hx. by split.
Qed.

Lemma candidates_spec destination domain cs ms0 : direct_candidates lookup_host destination domain = (ms0, Ok cs) ->
  0 <= ms0 <= DNS_TIMEOUT /\ cs <> []
  /\ (is_unspecified (sa_ip destination) = false -> cs = [destination])
  /\ (is_unspecified (sa_ip destination) = true -> exists host addrs, domain = Some host
        /\ (lookup_host host (sa_port destination)).2 = Ok addrs
        /\ (cs = List.filter sa_is_ipv4 addrs \/ List.filter sa_is_ipv4 addrs = [] /\ cs = addrs)).
Proof.
  unfold direct_candidates. intros Hc. destruct (is_unspecified (sa_ip destination)); [|injection Hc as <- <-; by unfold DNS_TIMEOUT].
  destruct domain as [host|]; [|done]. pose proof (lookup_time host (sa_port destination)) as Hl.
  destruct (lookup_host host (sa_port destination)) as [lms la] eqn:El. cbn [fst snd] in *. destruct (DNS_TIMEOUT <? lms) eqn:E; [done|]. bool_props.
  injection Hc as -> Hc. destruct la as [addrs|?|?]; [|done..]. split; [lia|].
  destruct (List.filter sa_is_ipv4 addrs) as [|x l] eqn:Ef.
  - destruct addrs as [|y addrs]; [done|]. injection Hc as <-. split_and!; [done|done|]. intros _. exists host, (y :: addrs). rewrite El, Ef. by auto.
  - injection Hc as <-. split_and!; [done|done|]. intros _. exists host, addrs. rewrite El, Ef. by auto.
Qed.
#[local] Instance answers_dec a : Decision (answers_in_time a).
Proof. unfold answers_in_time. apply _. Defined.
Lemma first_answer cs x : x ∈ cs -> answers_in_time x ->
  exists a pre post, cs = pre ++ a :: post /\ answers_in_time a /\ Forall (fun y => ~ answers_in_time y) pre.
Proof.
  induction cs as [|c cs IH]; [by intros ?%elem_of_nil|]. intros [->|Hx]%elem_of_cons Ha; [by exists c, [], cs|].
  destruct (decide (answers_in_time c)) as [Hc|Hc]; [by exists c, [], cs|].
  destruct (IH Hx Ha) as (a & pre & post & -> & Haa & Hp). exists a, (c :: pre), post. split_and!; [done|done|by constructor].
Qed.

(** A direct dial.  A name is looked up for at most two seconds, and IPv6 addresses are
    tried only when it has no IPv4 ones; the first address, in the resolver's order, that
    answers within 800 milliseconds is connected; a dial fails exactly when none does; and it
    ends within two seconds and 800 milliseconds for each address. *)
Theorem direct_dial_outcome destination domain cs ms0 :
  direct_candidates lookup_host destination domain = (ms0, Ok cs) ->
  let '(ms, r) := direct_dial_tcp lookup_host attempt destination domain in
  0 <= ms <= DNS_TIMEOUT + PER_CANDIDATE * Z.of_nat (length cs)
  /\ cs <> []
  /\ (is_unspecified (sa_ip destination) = false -> cs = [destination])
  /\ (is_unspecified (sa_ip destination) = true -> exists host addrs, domain = Some host
        /\ (lookup_host host (sa_port destination)).2 = Ok addrs
        /\ (cs = List.filter sa_is_ipv4 addrs \/ List.filter sa_is_ipv4 addrs = [] /\ cs = addrs))
  /\ (forall a, r = Ok a <-> exists pre post, cs = pre ++ a :: post /\ answers_in_time a /\ Forall (fun x => ~ answers_in_time x) pre)
  /\ (is_ok r = false <-> Forall (fun x => ~ answers_in_time x) cs).
Proof.
  intros Hc. unfold direct_dial_tcp. rewrite Hc. pose proof (direct_loop_spec cs None ms0) as Hs.
  destruct (direct_loop attempt None ms0 cs) as [ms r]. destruct Hs as [Hb Hr]. destruct (candidates_spec _ _ _ _ Hc) as (Hms & Hne & H1 & H2).
  split_and!; [lia|unfold DNS_TIMEOUT in *; lia|done|done|done|done|]. split.
  - intros Hno. apply Forall_forall. intros x Hx Ha. destruct (first_answer cs x Hx Ha) as (a & Hf). apply Hr in Hf as ->. done.
  - intros Hall. destruct r as [a|?|?]; [|done..]. destruct (proj1 (Hr a) eq_refl) as (pre & post & -> & Ha & _).
    rewrite Forall_app, Forall_cons in Hall. by destruct Hall as (_ & Hn & _).
Qed.
End DirectProofs.

(** ** VLESS and links *)

Section LinkProofs.
Context `{UserCrypto}.
(** A flow of XTLS Vision is announced in the request whatever the link is, but the stream is
    padded only over a direct TLS link. *)
Lemma vision_announced lookup_host shared o dest link header tail :
  vless_connect lookup_host shared o dest = Ok (link, header, tail) -> is_vision_flow (vl_flow o) = true ->
  header = build_vless_request (vl_uuid o) dest (vl_flow o) x01
  /\ (tail = VisionTail <-> vl_detour o = None /\ use_tls o = true) /\ tail <> AckedTail.
Proof.
  unfold vless_connect. intros Hc Hv. rewrite Hv, andb_true_r in Hc. case_bool_decide as Hd; cbn [andb] in Hc.
  - destruct (use_tls o); cbn [andb negb] in Hc; [by injection Hc as <- <- <-|].
    destruct (dial_server_link _ _ _ _ _ _ _); [|done..]. injection Hc as <- <- <-. split_and!; [done| |done]. by split; [|intros [_ ?]].
  - destruct (dial_server_link _ _ _ _ _ _ _); [|done..]. cbn [mbind result_bind] in Hc. rewrite andb_false_r in Hc.
    injection Hc as <- <- <-. split_and!; [done| |done]. by split; [|intros [? _]].
Qed.
(** Behind a detour neither REALITY nor a fingerprint can be used. *)
Lemma detour_tls_limits lookup_host shared tag server port tls sni link : tls_enabled tls = true ->
  dial_server_link lookup_host shared (Some tag) server port tls sni = Ok link ->
  is_reality tls = false /\ utls_enabled tls = false
  /\ exists addr, link = DetourLink tag addr sni (Some (tls_server_name tls server sni)).
Proof.
  unfold dial_server_link, tls_over_stream. intros He Hl. rewrite He in Hl.
  destruct (first_address lookup_host server port) as [addr|?|?]; [|done..]. cbn [mbind result_bind] in Hl.
  destruct (dial_tcp_via_detour shared tag); [|done..]. cbn [mbind result_bind] in Hl.
  destruct (is_reality tls); [done|]. destruct (utls_enabled tls); [done|]. cbn [mbind result_bind] in Hl. injection Hl as <-. by eauto.
Qed.
End LinkProofs.

(** ** Witnesses *)

Lemma socks_client_served_witness :
  exists sent,
    (forall more, socks5_connect demo_dest (Some (str "u")) None ([x05; x00] ++ socks_reply ++ more) = (Ok (tt, more), sent))
    /\ (exists e, socks5_connect demo_dest (Some (str "u")) None [x05; x00] = (Err e, sent))
    /\ h_relay (handle_socks5 demo_open (sent ++ str "GET") (with_registry new_registry)) = Some (str "GET").
Proof.
  destruct (socks_client_served demo_dest (Some (str "u")) None ltac:(by vm_compute)) as (sent & H1 & H2 & H3).
  exists sent. split_and!; [exact H1|exact H2|]. rewrite (H3 demo_open (str "GET") (with_registry new_registry)). reflexivity.
Defined.

Definition demo_http : HttpOutbound := mkHttpOutbound (str "proxy") 8080 (Some (str "u")) (Some (str "p")) None.
Lemma http_client_served_witness :
  http_dial_tcp (map (fun _ => x61)) demo_http demo_dest [established ++ str "220 ready"; str "next"]
  = (Ok [str "next"], connect_request (map (fun _ => x61)) demo_http demo_dest).
Proof.
  refine (proj2 (http_client_served (map (fun _ => x61)) demo_http demo_dest _ _) (str "220 ready") [str "next"] _).
  - intros s. induction s; constructor; [by vm_compute|done].
  - by vm_compute.
  - by vm_compute.
Defined.

Definition demo_tuic : TuicOutbound := mkTuicOutbound (str "s") 443 demo_uuid (str "pass") (str "s") false.
Lemma tuic_request_served_witness :
  let request := build_tuic_connect demo_uuid (str "pass") demo_dest in
  sv_events (handle_tuic_stream (H := demo_crypto) (fun _ => Err "refused") 0 [(demo_uuid, str "pass")] (str "in") (request ++ str "early")
    (with_registry new_registry)) = [ToClient [x00]]
  /\ forall more, tuic_dial_tcp demo_tuic demo_dest ([x00] ++ more) = (Ok (tt, more), request).
Proof.
  pose proof (proj1 (tuic_request_served (H := demo_crypto) (fun _ => Err "refused") 0 [(demo_uuid, str "pass")] (str "in") demo_tuic demo_dest
    (with_registry new_registry) (str "early") eq_refl eq_refl eq_refl ltac:(by vm_compute)) ltac:(by left)) as [H1 H2].
  split; [|exact H2]. etrans; [exact (f_equal sv_events H1)|]. reflexivity.
Defined.

Lemma direct_dial_outcome_witness :
  let v6 := mkSocketAddr (V6 1) 443 in
  let r := direct_dial_tcp (fun _ _ => (30, Ok [v6; demo_dest])) (fun _ => mkAttempt 900 None) (unspecified 443) (Some (str "h")) in
  is_ok r.2 = false.
Proof.
  refine (proj2 (proj2 (proj2 (proj2 (proj2 (proj2
    (direct_dial_outcome (fun _ _ => (30, Ok [mkSocketAddr (V6 1) 443; demo_dest])) (fun _ => mkAttempt 900 None) _ _
      (unspecified 443) (Some (str "h")) [demo_dest] 30 _)))))) _).
  - intros _. cbn. lia.
  - intros _ _. cbn. lia.
  - reflexivity.
  - constructor; [|constructor]. intros [Hm _]. by vm_compute in Hm.
Defined.
