(* ===== verification/Derp.v ===== *)
(** * The DERP relay

    [rsb-protocol/src/services/derp.rs]: frames, the hub that knows which connection has
    which key, the two kinds of connections (WebSocket and binary TCP), the mesh with other
    relays, and the configuration with [services/listen.rs] and [services/tls_util.rs].

    A connection is a task with a channel: its number names both.  Events of all connections
    are interleaved freely: a run is a list of them.  The peers of the hub are a map from
    keys to channels. *)
From stdpp Require Import base tactics gmap list strings.
From Stdlib Require Import ZArith Lia.
From Stdlib Require Import Strings.Byte.
From S2P Require Import Prelude Json Text Ip DnsWire DnsRouter Codec Config.

Local Open Scope Z_scope.

Definition FRAME_SERVER_KEY : byte := x01.
Definition FRAME_CLIENT_KEY : byte := x02.
Definition FRAME_SERVER_INFO : byte := x03.
Definition FRAME_SEND_PACKET : byte := x04.
Definition FRAME_KEEP_ALIVE : byte := x06.
Definition FRAME_PEER_GONE : byte := x08.
Definition FRAME_PEER_PRESENT : byte := x09.

Definition frame_server_key (public : list byte) : list byte := FRAME_SERVER_KEY :: public.
Definition frame_server_info : list byte := [FRAME_SERVER_INFO; x01] ++ be_encode 4 1.
Definition frame_peer_present (key : list byte) : list byte := FRAME_PEER_PRESENT :: key.
Definition frame_peer_gone (key : list byte) : list byte := FRAME_PEER_GONE :: key.

(** ** Frames of the binary connection *)

Definition write_framed (data : list byte) : list byte := be_encode 4 (zlen data) ++ data.
(** [read_framed] on the bytes that have arrived; nothing while it waits for more. *)
Definition derp_read_framed (s : list byte) : result (option (list byte * list byte)) :=
  if zlen s <? 4 then Ok None
  else
    let len := be_decode (take 4 s) in
    if 65536 <? len then Err "derp frame too large"
    else if zlen s <? 4 + len then Ok None
    else Ok (Some (take (Z.to_nat len) (drop 4 s), drop (4 + Z.to_nat len) s)).
(** What the loop of a binary connection waits for: bytes of the peer, or a frame to send. *)
Inductive derp_input := Bytes (bs : list byte) | Outgoing (frame : list byte).
(** The frames among the bytes, and what is left of them; nothing when the connection failed. *)
Fixpoint read_all (fuel : nat) (s : list byte) : list (list byte) * option (list byte) :=
  match fuel with
  | O => ([], Some s)
  | S fuel =>
      match derp_read_framed s with
      | Ok (Some (frame, s)) => let '(frames, s) := read_all fuel s in (frame :: frames, s)
      | Ok None => ([], Some s)
      | _ => ([], None)
      end
  end.
(** [select!]: a frame to send drops the read that is under way, with the bytes it has
    taken from the socket. *)
Fixpoint derp_select (taken : list byte) (inputs : list derp_input) : list (list byte) :=
  match inputs with
  | [] => []
  | Bytes bs :: inputs =>
      match read_all (length (taken ++ bs)) (taken ++ bs) with
      | (frames, Some taken) => frames ++ derp_select taken inputs
      | (frames, None) => frames
      end
  | Outgoing _ :: inputs => derp_select [] inputs
  end.

(** ** The hub *)

Record DerpClient := mkDerpClient {
  dc_binary : bool;
  dc_key : list byte;
  dc_registered : bool;
  dc_queue : list (list byte);
  dc_written : list (list byte);
}.
Record DerpHub := mkDerpHub {
  server_public : list byte;
  hub_peers : gmap (list byte) nat;
  hub_mesh : list (list byte);
  hub_clients : gmap nat DerpClient;
  hub_next : nat;
}.
Definition hub_new (public : list byte) : DerpHub := mkDerpHub public ∅ [] ∅ 0.

Definition push (msgs : list (list byte)) (c : DerpClient) : DerpClient :=
  mkDerpClient (dc_binary c) (dc_key c) (dc_registered c) (dc_queue c ++ msgs) (dc_written c).
Definition with_clients (h : DerpHub) (cs : gmap nat DerpClient) : DerpHub :=
  mkDerpHub (server_public h) (hub_peers h) (hub_mesh h) cs (hub_next h).
Definition with_peers (h : DerpHub) (ps : gmap (list byte) nat) : DerpHub :=
  mkDerpHub (server_public h) ps (hub_mesh h) (hub_clients h) (hub_next h).
(** [tx.send]: nothing happens when the task has ended. *)
Definition channel_send (h : DerpHub) (id : nat) (msg : list byte) : DerpHub :=
  with_clients h (alter (push [msg]) id (hub_clients h)).
Definition broadcast_except (h : DerpHub) (except msg : list byte) : DerpHub :=
  foldr (fun p h => if bool_decide (p.1 = except) then h else channel_send h p.2 msg) h (map_to_list (hub_peers h)).
Definition route_packet (h : DerpHub) (data : list byte) : DerpHub :=
  if zlen data <? 34 then h
  else
    match hub_peers h !! take 32 (drop 1 data) with
    | Some id => channel_send h id data
    | None => mkDerpHub (server_public h) (hub_peers h) (hub_mesh h ++ [data]) (hub_clients h) (hub_next h)
    end.

(** A connection: the server speaks first. *)
Definition derp_join (binary : bool) (h : DerpHub) : DerpHub :=
  mkDerpHub (server_public h) (hub_peers h) (hub_mesh h)
    (<[hub_next h := mkDerpClient binary (replicate 32 x00) false [] [frame_server_key (server_public h); frame_server_info]]>
       (hub_clients h)) (S (hub_next h)).
(** The end of the loop: the task ends, and the key it had last is taken back. *)
Definition derp_leave (id : nat) (h : DerpHub) : DerpHub :=
  match hub_clients h !! id with
  | None => h
  | Some c =>
      let h := with_clients h (delete id (hub_clients h)) in
      if dc_registered c
      then broadcast_except (with_peers h (delete (dc_key c) (hub_peers h))) (dc_key c) (frame_peer_gone (dc_key c))
      else h
  end.
(** A read that fails leaves the loop of a WebSocket, and the whole function of a binary
    connection. *)
Definition derp_gone (id : nat) (h : DerpHub) : DerpHub :=
  match hub_clients h !! id with
  | None => h
  | Some c => if dc_binary c then with_clients h (delete id (hub_clients h)) else derp_leave id h
  end.
Definition derp_register (id : nat) (c : DerpClient) (key : list byte) (h : DerpHub) : DerpHub :=
  let c := mkDerpClient (dc_binary c) key true (dc_queue c) (dc_written c) in
  let h := mkDerpHub (server_public h) (<[key := id]> (hub_peers h)) (hub_mesh h) (<[id := c]> (hub_clients h)) (hub_next h) in
  broadcast_except h key (frame_peer_present key).
(** A frame of a client. *)
Definition derp_frame (id : nat) (data : list byte) (h : DerpHub) : DerpHub :=
  match hub_clients h !! id with
  | None => h
  | Some c =>
      match data with
      | [] => if dc_binary c then derp_leave id h else h
      | t :: _ =>
          if bool_decide (t = FRAME_CLIENT_KEY) && (33 <=? zlen data) then derp_register id c (take 32 (drop 1 data)) h
          else if bool_decide (t = FRAME_SEND_PACKET) && (33 <? zlen data) then route_packet h data
          else if bool_decide (t = FRAME_KEEP_ALIVE) then
            with_clients h (<[id := mkDerpClient (dc_binary c) (dc_key c) (dc_registered c) (dc_queue c)
                                      (dc_written c ++ [[FRAME_KEEP_ALIVE]])]> (hub_clients h))
          else h
      end
  end.
(** A message of the channel is written. *)
Definition derp_deliver (id : nat) (h : DerpHub) : DerpHub :=
  match hub_clients h !! id with
  | Some (mkDerpClient b k r (msg :: q) w) => with_clients h (<[id := mkDerpClient b k r q (w ++ [msg])]> (hub_clients h))
  | _ => h
  end.

Inductive derp_event := Join (binary : bool) | Frame (id : nat) (data : list byte) | Deliver (id : nat) | Gone (id : nat).
Definition derp_step (h : DerpHub) (e : derp_event) : DerpHub :=
  match e with
  | Join binary => derp_join binary h
  | Frame id data => derp_frame id data h
  | Deliver id => derp_deliver id h
  | Gone id => derp_gone id h
  end.
Definition derp_run (es : list derp_event) (h : DerpHub) : DerpHub := foldl derp_step h es.

(** A message of the mesh: only packets for peers of this relay are taken. *)
Definition mesh_receive (data : list byte) (h : DerpHub) : DerpHub :=
  if (33 <? zlen data) && bool_decide (data !! 0%nat = Some FRAME_SEND_PACKET) then
    match hub_peers h !! take 32 (drop 1 data) with Some id => channel_send h id data | None => h end
  else h.
Definition mesh_url (peer_url : list byte) : list byte :=
  if starts_with peer_url (str "ws://") || starts_with peer_url (str "wss://") then peer_url
  else str "wss://" ++ peer_url ++ str "/derp".

(** The answer of the STUN port. *)
Definition stun_reply (datagram : list byte) : option (list byte) :=
  if (20 <=? zlen datagram) && bool_decide (take 4 (drop 4 datagram) = [x21; x12; xa4; x42]) then Some datagram else None.

(** ** Configuration *)

(** [services/listen.rs]. *)
Definition service_listen (raw : Value) : result SocketAddr :=
  let host := default (str "127.0.0.1") (text raw "listen") in
  let port := u16 (default 8080 (number raw "listen_port")) in
  ok_or "parse service listen" (parse_socket_addr (host ++ str ":" ++ show_uint port)).
(** [services/tls_util.rs]. *)
Definition service_tls_enabled (raw : Value) : bool :=
  default (bool_decide (is_Some (get raw "cert_path")) || bool_decide (is_Some (get raw "certificate_path")))
    (t ← get raw "tls"; flag t "enabled").
Definition service_tls_paths (raw : Value) : option (list byte) * option (list byte) :=
  let tls := get raw "tls" in
  (v ← or_else (t ← tls; or_else (get t "certificate_path") (get t "cert_path"))
               (or_else (get raw "cert_path") (get raw "certificate_path")); as_str v,
   v ← or_else (t ← tls; or_else (get t "key_path") (get t "private_key_path"))
               (or_else (get raw "key_path") (get raw "private_key_path")); as_str v).
Definition derp_stun_port (raw : Value) : option Z :=
  s ← get raw "stun";
  u16 <$> or_else (as_u64 s) (number s "listen_port").
Definition derp_binary_listen (raw : Value) : option SocketAddr :=
  or_else (v ← get raw "binary_listen"; match service_listen v with Ok a => Some a | _ => None end)
    (port ← number raw "binary_listen_port";
     parse_socket_addr (default (str "0.0.0.0") (text raw "listen") ++ str ":" ++ show_uint (u16 port))).
Definition derp_mesh_peers (raw : Value) : list (list byte) :=
  match (v ← or_else (get raw "mesh_with") (get raw "mesh_peers"); as_array v) with
  | Some l => omap as_str l
  | None => []
  end.
Section Key.
(** The curve, the base64 crate, and the 32 bytes drawn for a new key. *)
Variable x25519_public : list byte -> list byte.
Variable b64_decode : list byte -> option (list byte).
Variable draw : list byte.
(** [load_derp_key], given what the file holds: the public key, and what is written. *)
Definition load_derp_key (file : option (list byte)) : result (list byte * option (list byte)) :=
  match file with
  | None => Ok (x25519_public draw, Some draw)
  | Some data =>
      if zlen data =? 32 then Ok (x25519_public data, None)
      else
        match (if utf8_valid data then b64_decode (trim data) else None) with
        | Some decoded => if zlen decoded =? 32 then Ok (x25519_public decoded, None) else Err "invalid derp key format"
        | None => Err "invalid derp key format"
        end
  end.

Record DerpService := mkDerpService {
  ds_listen : SocketAddr;
  ds_binary_listen : option SocketAddr;
  ds_home : option (list byte);
  ds_stun_port : option Z;
  ds_tls : bool;
  ds_paths : option (list byte) * option (list byte);
  ds_mesh_peers : list (list byte);
  ds_public : list byte;
}.
(** [DerpService::new]; [default_certs] are the files written when one of the two is not
    named. *)
Definition derp_service_new (file : option (list byte)) (default_certs : list byte * list byte) (raw : Value) : result DerpService :=
  '(public, _) ← load_derp_key file;
  let tls := service_tls_enabled raw in
  let paths := if tls then
                 match service_tls_paths raw with
                 | (Some cert, Some key) => (Some cert, Some key)
                 | _ => (Some default_certs.1, Some default_certs.2)
                 end
               else (None, None) in
  listen ← service_listen raw;
  Ok (mkDerpService listen (derp_binary_listen raw) (text raw "home") (derp_stun_port raw) tls paths (derp_mesh_peers raw) public).
End Key.
Inductive HomePage := BlankPage | RedirectTo (url : list byte) | DefaultPage.
Definition home_page (home : option (list byte)) : HomePage :=
  match home with
  | Some url =>
      if bool_decide (url = str "blank") then BlankPage
      else if starts_with url (str "http://") || starts_with url (str "https://") then RedirectTo url
      else DefaultPage
  | None => DefaultPage
  end.

(** ** Framing *)

Definition wire (frames : list (list byte)) : list byte := concat (map write_framed frames).
Definition frame_ok (f : list byte) : Prop := zlen f <= 65536.
(** What waits is shorter than the next frame. *)
Definition waits (t : list byte) (frames : list (list byte)) : Prop :=
  match frames with [] => t = [] | f :: _ => (length t < length (write_framed f))%nat end.

Lemma length_framed f : length (write_framed f) = (4 + length f)%nat.
Proof. unfold write_framed. by rewrite length_app, length_be_encode. Qed.
Lemma read_framed_short t f : frame_ok f -> (exists more, t ++ more = write_framed f) -> (length t < length (write_framed f))%nat ->
  derp_read_framed t = Ok None.
Proof.
  intros Hf [more Ht] Hl. unfold derp_read_framed. destruct (zlen t <? 4) eqn:E; [done|]. bool_props.
  assert (H4 : take 4 t = be_encode 4 (zlen f)).
  { rewrite <-(take_app_le t more) by (unfold zlen in E; lia). rewrite Ht. unfold write_framed. by rewrite take_app_length' by (by rewrite length_be_encode). }
  pose proof (zlen_nonneg f). unfold frame_ok in Hf. rewrite H4, be_decode_encode by lia. rewrite (proj2 (Z.ltb_ge _ _)) by lia.
  rewrite (proj2 (Z.ltb_lt _ _)); [done|]. rewrite length_framed in Hl. unfold zlen. lia.
Qed.
Lemma read_framed_whole f s : frame_ok f -> derp_read_framed (write_framed f ++ s) = Ok (Some (f, s)).
Proof.
  intros Hf. pose proof (zlen_nonneg f). pose proof (zlen_nonneg s). unfold frame_ok in Hf. unfold derp_read_framed.
  rewrite (proj2 (Z.ltb_ge _ _)) by (unfold zlen; rewrite length_app, length_framed; lia).
  unfold write_framed. rewrite <-app_assoc. rewrite take_app_length' by (by rewrite length_be_encode). rewrite be_decode_encode by lia.
  rewrite (proj2 (Z.ltb_ge _ _)) by lia. rewrite (proj2 (Z.ltb_ge _ _)) by (rewrite !zlen_app, zlen_be_encode; lia).
  rewrite <-drop_drop. rewrite drop_app_length' by (by rewrite length_be_encode). unfold zlen. rewrite Nat2Z.id.
  by rewrite take_app_length, drop_app_length.
Qed.
Lemma read_all_prefix frames : Forall frame_ok frames -> forall fuel s rest, s ++ rest = wire frames -> (length s <= fuel)%nat ->
  exists fs1 fs2 t, read_all fuel s = (fs1, Some t) /\ frames = fs1 ++ fs2 /\ t ++ rest = wire fs2 /\ waits t fs2.
Proof.
  induction 1 as [|f frames Hf _ IH]; intros fuel s rest Hs Hl.
  { cbn in Hs. apply app_nil in Hs as [-> ->]. exists [], [], []. by destruct fuel. }
  destruct (decide (length s < length (write_framed f))%nat) as [Hlt|Hge].
  - exists [], (f :: frames), s. split_and!; [|done|done|done]. destruct fuel as [|fuel]; [done|]. cbn [read_all].
    unfold wire in Hs. cbn [map concat] in Hs. rewrite (read_framed_short s f Hf); [done| |done].
    exists (drop (length s) (write_framed f)). rewrite <-(take_drop (length s) (write_framed f)) at 2. f_equal.
    apply (f_equal (take (length s))) in Hs. by rewrite take_app_length, take_app_le in Hs by lia.
  - assert (Hsplit : s = write_framed f ++ drop (length (write_framed f)) s).
    { rewrite <-(take_drop (length (write_framed f)) s) at 1. f_equal. unfold wire in Hs. cbn [map concat] in Hs.
      apply (f_equal (take (length (write_framed f)))) in Hs. by rewrite take_app_length, take_app_le in Hs by lia. }
    set (s2 := drop _ s) in *. rewrite Hsplit in *. pose proof (length_framed f) as Hlf. rewrite length_app in Hl.
    destruct fuel as [|fuel]; [lia|]. cbn [read_all]. rewrite read_framed_whole by done.
    unfold wire in Hs. cbn [map concat] in Hs. rewrite <-app_assoc in Hs. apply app_inv_head in Hs.
    destruct (IH fuel s2 rest Hs ltac:(lia)) as (fs1 & fs2 & t & -> & -> & Ht & Hw). by exists (f :: fs1), fs2, t.
Qed.
Lemma select_frames cuts : forall taken frames, Forall frame_ok frames -> taken ++ concat cuts = wire frames -> waits taken frames ->
  derp_select taken (map Bytes cuts) = frames.
Proof.
  induction cuts as [|c cuts IH]; intros taken frames Hf Hw Ht.
  - cbn in Hw |- *. rewrite app_nil_r in Hw. destruct frames as [|f frames]; [done|]. unfold waits in Ht. rewrite Hw in Ht.
    unfold wire in Ht. cbn [map concat] in Ht. rewrite length_app in Ht. lia.
  - cbn [map derp_select concat] in *. rewrite app_assoc in Hw.
    destruct (read_all_prefix frames Hf (length (taken ++ c)) (taken ++ c) (concat cuts) Hw ltac:(done)) as (fs1 & fs2 & t & -> & -> & Hr & Hs).
    apply Forall_app in Hf as [_ Hf]. by rewrite (IH t fs2).
Qed.

(** Frames of a binary connection.  However the bytes are cut, the server reads the
    frames the peer wrote, as long as it has nothing to send itself while it reads.  When
    it has, in the middle of a frame, the bytes already taken are dropped, and reading goes
    on behind them as if a frame began there. *)
Theorem derp_framing frames cuts : Forall frame_ok frames -> concat cuts = wire frames ->
  derp_select [] (map Bytes cuts) = frames
  /\ forall f p1 p2 out more, frame_ok f -> p1 ++ p2 = write_framed f -> p2 <> [] ->
       derp_select [] ([Bytes p1; Outgoing out; Bytes p2] ++ more) = derp_select [] (Bytes p2 :: more).
Proof.
  intros Hf Hc. split.
  - apply select_frames; [done|done|]. destruct frames as [|f frames]; [done|]. cbn [waits length]. rewrite length_framed. lia.
  - intros f p1 p2 out more Hfr Hp Hne. cbn [app derp_select].
    destruct (read_all_prefix [f] ltac:(by constructor) (length p1) p1 p2) as (fs1 & fs2 & t & Hr & Hs & Ht & Hw); [|done|].
    { unfold wire. cbn. by rewrite app_nil_r. }
    rewrite Hr. destruct fs1 as [|g fs1]; [done|]. injection Hs as <- Hs. symmetry in Hs. apply app_nil in Hs as [-> ->].
    cbn in Ht. apply app_nil in Ht as [_ ->]. done.
Qed.

(** ** The hub *)

Lemma broadcast_clients h except msg : exists n : nat -> nat,
  (forall i, hub_clients (broadcast_except h except msg) !! i = push (replicate (n i) msg) <$> hub_clients h !! i)
  /\ hub_peers (broadcast_except h except msg) = hub_peers h
  /\ hub_mesh (broadcast_except h except msg) = hub_mesh h
  /\ hub_next (broadcast_except h except msg) = hub_next h.
Proof.
  unfold broadcast_except. induction (map_to_list (hub_peers h)) as [|p l IH].
  - exists (fun _ => 0%nat). split; [|done]. intros i. cbn. destruct (hub_clients h !! i) as [[]|]; [|done].
    unfold push. cbn. by rewrite app_nil_r.
  - destruct IH as (n & Hn & Hp & Hm & Hx). cbn [foldr]. case_bool_decide; [by exists n|].
    exists (fun i => if decide (i = p.2) then S (n i) else n i). split_and!; [|done..]. intros i. unfold channel_send, with_clients. cbn [hub_clients].
    destruct (decide (i = p.2)) as [->|Hi].
    + rewrite lookup_alter_eq, Hn. destruct (hub_clients h !! p.2) as [[]|]; [|done]. unfold push. cbn.
      f_equal. f_equal. rewrite <-app_assoc. f_equal. change (msg :: replicate (n p.2) msg) with (replicate (S (n p.2)) msg).
      by rewrite replicate_S_end.
    + by rewrite lookup_alter_ne.
Qed.
(** What a connection is, apart from its channel. *)
Definition identity (c : DerpClient) : bool * list byte * bool := (dc_binary c, dc_key c, dc_registered c).
Lemma broadcast_identity h except msg i :
  identity <$> hub_clients (broadcast_except h except msg) !! i = identity <$> hub_clients h !! i.
Proof. destruct (broadcast_clients h except msg) as (n & Hn & _). rewrite Hn. by destruct (hub_clients h !! i). Qed.

Definition key_of (data : list byte) : list byte := take 32 (drop 1 data).
Definition registers (data : list byte) : bool :=
  match data with t :: _ => bool_decide (t = FRAME_CLIENT_KEY) && (33 <=? zlen data) | [] => false end.
(** Every entry is a live connection that has the key. *)
Definition registry_exact (h : DerpHub) : Prop :=
  forall k i, hub_peers h !! k = Some i -> exists b, identity <$> hub_clients h !! i = Some (b, k, true).

Section Registry.
(** The events of a run. *)
Variable all : list derp_event.
Hypothesis all_websockets : Join true ∉ all.
Hypothesis one_key : forall i d1 d2, Frame i d1 ∈ all -> Frame i d2 ∈ all -> registers d1 = true -> registers d2 = true -> key_of d1 = key_of d2.

Record hub_inv (h : DerpHub) : Prop := {
  hi_exact : registry_exact h;
  hi_kinds : forall i b k r, identity <$> hub_clients h !! i = Some (b, k, r) -> b = false /\ (i < hub_next h)%nat;
  hi_keys : forall i b k, identity <$> hub_clients h !! i = Some (b, k, true) ->
            exists d, Frame i d ∈ all /\ registers d = true /\ key_of d = k;
}.
(** Only identities, peers and the counter matter. *)
Lemma hub_inv_same h h' : (forall i, identity <$> hub_clients h' !! i = identity <$> hub_clients h !! i) ->
  hub_peers h' = hub_peers h -> hub_next h' = hub_next h -> hub_inv h -> hub_inv h'.
Proof.
  intros Hc Hp Hn [H1 H2 H3]. split.
  - intros k i. rewrite Hp, Hc. apply H1.
  - intros i b k r. rewrite Hc, Hn. apply H2.
  - intros i b k. rewrite Hc. apply H3.
Qed.
Lemma send_identity h id msg i : identity <$> hub_clients (channel_send h id msg) !! i = identity <$> hub_clients h !! i.
Proof.
  unfold channel_send, with_clients. cbn. destruct (decide (i = id)) as [->|Hi]; [rewrite lookup_alter_eq|by rewrite lookup_alter_ne].
  by destruct (hub_clients h !! id).
Qed.
Lemma leave_inv id h : hub_inv h -> hub_inv (derp_leave id h).
Proof.
  intros Hi. unfold derp_leave. destruct (hub_clients h !! id) as [c|] eqn:Ec; [|done]. cbv zeta.
  destruct Hi as [H1 H2 H3].
  assert (Hne : forall i v, identity <$> delete id (hub_clients h) !! i = Some v -> i <> id /\ identity <$> hub_clients h !! i = Some v).
  { intros i v Hv. destruct (decide (i = id)) as [->|Hi]; [by rewrite lookup_delete_eq in Hv|]. by rewrite lookup_delete_ne in Hv. }
  destruct (dc_registered c) eqn:Er.
  - set (h1 := with_peers _ _). destruct (broadcast_clients h1 (dc_key c) (frame_peer_gone (dc_key c))) as (n & _ & Hp & _ & Hx).
    apply (hub_inv_same h1); [intros i; apply broadcast_identity|done|done|]. split.
    + intros k i Hk. cbn in Hk. destruct (decide (k = dc_key c)) as [->|Hkc]; [by rewrite lookup_delete_eq in Hk|].
      rewrite lookup_delete_ne in Hk by done. destruct (H1 k i Hk) as [b Hb]. exists b. cbn.
      rewrite lookup_delete_ne; [done|]. intros ->. rewrite Ec in Hb. injection Hb as _ Hkk _. by destruct Hkc.
    + intros i b k r Hv. cbn in Hv |- *. apply Hne in Hv as [_ Hv]. eauto.
    + intros i b k Hv. cbn in Hv. apply Hne in Hv as [_ Hv]. eauto.
  - split.
    + intros k i Hk. cbn in Hk |- *. destruct (H1 k i Hk) as [b Hb]. exists b. rewrite lookup_delete_ne; [done|].
      intros ->. rewrite Ec in Hb. injection Hb as _ _ Hr. by rewrite Er in Hr.
    + intros i b k r Hv. cbn in Hv |- *. apply Hne in Hv as [_ Hv]. eauto.
    + intros i b k Hv. cbn in Hv. apply Hne in Hv as [_ Hv]. eauto.
Qed.
Lemma register_inv id c d h : hub_clients h !! id = Some c -> Frame id d ∈ all -> registers d = true -> hub_inv h ->
  hub_inv (derp_register id c (key_of d) h).
Proof.
  intros Hc Hd Hreg [H1 H2 H3]. unfold derp_register. set (h1 := mkDerpHub _ _ _ _ _).
  destruct (broadcast_clients h1 (key_of d) (frame_peer_present (key_of d))) as (n & _ & Hp & _ & Hx).
  apply (hub_inv_same h1); [intros i; apply broadcast_identity|done|done|].
  assert (Hid : identity <$> hub_clients h1 !! id = Some (dc_binary c, key_of d, true)) by (unfold h1; cbn; by rewrite lookup_insert_eq).
  assert (Hother : forall i, i <> id -> hub_clients h1 !! i = hub_clients h !! i) by (intros i Hi; unfold h1; cbn; by rewrite lookup_insert_ne).
  split.
  - intros k i Hk. unfold h1 in Hk. cbn in Hk. destruct (decide (k = key_of d)) as [->|Hkd].
    { rewrite lookup_insert_eq in Hk. injection Hk as <-. by eauto. }
    rewrite lookup_insert_ne in Hk by done. destruct (H1 k i Hk) as [b Hb]. destruct (decide (i = id)) as [->|Hi].
    + destruct (H3 id b k Hb) as (d' & Hd' & Hr' & Hk'). destruct Hkd. rewrite <-Hk'. by apply (one_key id).
    + exists b. by rewrite Hother.
  - intros i b k r Hv. destruct (decide (i = id)) as [->|Hi].
    + rewrite Hid in Hv. injection Hv as <- _ _. apply (H2 id _ (dc_key c) (dc_registered c)). by rewrite Hc.
    + rewrite Hother in Hv by done. eauto.
  - intros i b k Hv. destruct (decide (i = id)) as [->|Hi].
    + rewrite Hid in Hv. injection Hv as <- <-. by eauto.
    + rewrite Hother in Hv by done. eauto.
Qed.
Lemma frame_inv id d h : Frame id d ∈ all -> hub_inv h -> hub_inv (derp_frame id d h).
Proof.
  intros Hd Hi. unfold derp_frame. destruct (hub_clients h !! id) as [c|] eqn:Ec; [|done]. destruct d as [|t d'].
  { destruct (dc_binary c); [by apply leave_inv|done]. }
  set (d := t :: d') in *. destruct (bool_decide (t = FRAME_CLIENT_KEY) && (33 <=? zlen d)) eqn:Er; [by apply register_inv|].
  destruct (bool_decide (t = FRAME_SEND_PACKET) && (33 <? zlen d)).
  - unfold route_packet. destruct (zlen d <? 34); [done|]. destruct (hub_peers h !! _); [|by apply (hub_inv_same h)].
    apply (hub_inv_same h); [intros i; apply send_identity|done..].
  - destruct (bool_decide (t = FRAME_KEEP_ALIVE)); [|done]. apply (hub_inv_same h); [|done..]. intros i. cbn. destruct (decide (i = id)) as [->|Hne].
    + by rewrite lookup_insert_eq, Ec.
    + by rewrite lookup_insert_ne.
Qed.
Lemma step_inv e h : e ∈ all -> hub_inv h -> hub_inv (derp_step h e).
Proof.
  intros He Hi. destruct e as [b|id d|id|id]; cbn [derp_step].
  - destruct b; [by destruct all_websockets|]. destruct Hi as [H1 H2 H3].
    assert (Hnew : hub_clients h !! hub_next h = None).
    { destruct (hub_clients h !! hub_next h) as [c|] eqn:E; [|done].
      destruct (H2 (hub_next h) (dc_binary c) (dc_key c) (dc_registered c)) as [_ Hl]; [by rewrite E|lia]. }
    split; unfold derp_join; cbn.
    + intros k i Hk. destruct (H1 k i Hk) as [b Hb]. exists b. cbn. rewrite lookup_insert_ne; [done|]. intros <-. by rewrite Hnew in Hb.
    + intros i b k r Hv. destruct (decide (i = hub_next h)) as [->|Hne]; [rewrite lookup_insert_eq in Hv; injection Hv as <- _ _; split; [done|lia]|].
      rewrite lookup_insert_ne in Hv by done. destruct (H2 _ _ _ _ Hv). split; [done|lia].
    + intros i b k Hv. destruct (decide (i = hub_next h)) as [->|Hne]; [by rewrite lookup_insert_eq in Hv|].
      rewrite lookup_insert_ne in Hv by done. eauto.
  - by apply frame_inv.
  - unfold derp_deliver. destruct (hub_clients h !! id) as [[b k r [|msg q] w]|] eqn:Ec; [done| |done].
    apply (hub_inv_same h); [|done..]. intros i. cbn. destruct (decide (i = id)) as [->|Hne]; [by rewrite lookup_insert_eq, Ec|by rewrite lookup_insert_ne].
  - unfold derp_gone. destruct (hub_clients h !! id) as [c|] eqn:Ec; [|done]. destruct (dc_binary c) eqn:Eb; [|by apply leave_inv].
    destruct (hi_kinds h Hi id (dc_binary c) (dc_key c) (dc_registered c)) as [Hb _]; [by rewrite Ec|]. by rewrite Hb in Eb.
Qed.
End Registry.

(** The peers of the hub.  In every run of WebSocket connections that use one key
    each, joining, sending and leaving in any order, every peer the hub knows is a
    connection that is still there and has announced that key. *)
Theorem derp_registry es public : Join true ∉ es ->
  (forall i d1 d2, Frame i d1 ∈ es -> Frame i d2 ∈ es -> registers d1 = true -> registers d2 = true -> key_of d1 = key_of d2) ->
  registry_exact (derp_run es (hub_new public)).
Proof.
  intros Hw Hk. assert (Hrun : forall l h, l ⊆ es -> hub_inv es h -> hub_inv es (derp_run l h)).
  { induction l as [|e l IH]; intros h Hl Hh; [done|]. cbn. apply IH; [set_solver|]. apply step_inv; [done|done|set_solver|done]. }
  apply (hi_exact es). apply Hrun; [done|]. split.
  - intros k i Hn. cbn in Hn. by rewrite lookup_empty in Hn.
  - intros i b k r Hn. cbn in Hn. by rewrite lookup_empty in Hn.
  - intros i b k Hn. cbn in Hn. by rewrite lookup_empty in Hn.
Qed.

(** ** Delivery *)

Definition packet_for (dst data : list byte) : bool :=
  bool_decide (data !! 0%nat = Some FRAME_SEND_PACKET) && (33 <? zlen data) && bool_decide (key_of data = dst).
(** The packets for a key that a connection has got, written or not yet. *)
Definition packets (dst : list byte) (c : DerpClient) : list (list byte) :=
  List.filter (packet_for dst) (dc_written c ++ dc_queue c).
(** The packets for a key that are sent in a run. *)
Fixpoint sent_to (dst : list byte) (es : list derp_event) (h : DerpHub) : list (list byte) :=
  match es with
  | [] => []
  | e :: es =>
      match e with
      | Frame i data => if bool_decide (is_Some (hub_clients h !! i)) && packet_for dst data then [data] else []
      | _ => []
      end ++ sent_to dst es (derp_step h e)
  end.
(** An event that takes neither the connection nor its key away. *)
Definition derp_quiet (i : nat) (dst : list byte) (e : derp_event) : Prop :=
  match e with
  | Join _ | Deliver _ => True
  | Frame j data => (j = i -> data <> [] /\ registers data = false) /\ (registers data = true -> key_of data <> dst)
  | Gone j => j <> i
  end.
(** The key belongs to the connection, and to no other. *)
Record owns (i : nat) (dst : list byte) (h : DerpHub) : Prop := {
  ow_peer : hub_peers h !! dst = Some i;
  ow_old : (i < hub_next h)%nat;
  ow_only : forall j b, identity <$> hub_clients h !! j = Some (b, dst, true) -> j = i;
}.

Lemma packets_push dst c msgs : packets dst (push msgs c) = packets dst c ++ List.filter (packet_for dst) msgs.
Proof. unfold packets, push. cbn. by rewrite app_assoc, List.filter_app. Qed.
Lemma packets_notice dst c n msg : packet_for dst msg = false -> packets dst (push (replicate n msg) c) = packets dst c.
Proof.
  intros Hm. rewrite packets_push. replace (List.filter _ (replicate n msg)) with (@nil (list byte)); [by rewrite app_nil_r|].
  induction n as [|n IH]; [done|]. cbn. by rewrite Hm.
Qed.
(** A broadcast of a notice changes nothing that matters here. *)
Lemma owns_broadcast i dst h except msg : owns i dst h -> owns i dst (broadcast_except h except msg).
Proof.
  intros [H1 H2 H3]. destruct (broadcast_clients h except msg) as (n & _ & Hp & _ & Hx). split; [by rewrite Hp|by rewrite Hx|].
  intros j b. rewrite broadcast_identity. apply H3.
Qed.
Lemma packets_broadcast i dst h except msg c : hub_clients h !! i = Some c -> packet_for dst msg = false ->
  exists c', hub_clients (broadcast_except h except msg) !! i = Some c' /\ packets dst c' = packets dst c.
Proof.
  intros Hc Hm. destruct (broadcast_clients h except msg) as (n & Hn & _). rewrite Hn, Hc. cbn. eexists. split; [done|]. by apply packets_notice.
Qed.
Lemma notice_no_packet dst key : packet_for dst (frame_peer_gone key) = false /\ packet_for dst (frame_peer_present key) = false.
Proof. done. Qed.

(** One event. *)
Definition keeps (i : nat) (dst : list byte) (h h' : DerpHub) (got : list (list byte)) : Prop :=
  owns i dst h' /\ forall c, hub_clients h !! i = Some c -> exists c', hub_clients h' !! i = Some c' /\ packets dst c' = packets dst c ++ got.
Lemma keeps_leave i dst j h : owns i dst h -> j <> i -> keeps i dst h (derp_leave j h) [].
Proof.
  intros Ho Hj. unfold derp_leave. destruct (hub_clients h !! j) as [cj|] eqn:Ej.
  2: { split; [done|]. intros c Hc. exists c. by rewrite app_nil_r. }
  cbv zeta. destruct Ho as [H1 H2 H3].
  assert (Hdel : forall j' b, identity <$> delete j (hub_clients h) !! j' = Some (b, dst, true) -> j' = i).
  { intros j' b Hv. destruct (decide (j' = j)) as [->|Hne]; [by rewrite lookup_delete_eq in Hv|]. rewrite lookup_delete_ne in Hv by done. eauto. }
  destruct (dc_registered cj) eqn:Er.
  - assert (Hk : dc_key cj <> dst).
    { intros Hk. apply Hj. apply (H3 j (dc_binary cj)). rewrite Ej. cbn. unfold identity. by rewrite Hk, Er. }
    set (h1 := with_peers _ _). assert (Ho1 : owns i dst h1).
    { split; [unfold h1; cbn; by rewrite lookup_delete_ne|done|exact Hdel]. }
    split; [by apply owns_broadcast|]. intros c Hc.
    destruct (packets_broadcast i dst h1 (dc_key cj) (frame_peer_gone (dc_key cj)) c) as (c' & Hc' & Hpk); [unfold h1; cbn; by rewrite lookup_delete_ne|done|].
    exists c'. by rewrite app_nil_r.
  - split; [by split|]. intros c Hc. exists c. cbn. by rewrite lookup_delete_ne, app_nil_r.
Qed.
Lemma keeps_refl i dst h : owns i dst h -> keeps i dst h h [].
Proof. intros Ho. split; [done|]. intros c Hc. exists c. by rewrite app_nil_r. Qed.
Lemma keeps_send i dst h j msg : owns i dst h -> keeps i dst h (channel_send h j msg) (if bool_decide (j = i) && packet_for dst msg then [msg] else []).
Proof.
  intros [H1 H2 H3]. split.
  - split; [done|done|]. intros k b. rewrite send_identity. apply H3.
  - intros c Hc. unfold channel_send, with_clients. cbn. case_bool_decide as Hj; cbn [andb].
    + subst. rewrite lookup_alter_eq, Hc. cbn. eexists. split; [done|]. rewrite packets_push. cbn. by destruct (packet_for dst msg).
    + rewrite lookup_alter_ne by done. exists c. by rewrite app_nil_r.
Qed.
(** Replacing another connection, or this one by one with the same packets. *)
Lemma keeps_insert i dst h j c0 cj : owns i dst h -> hub_clients h !! j = Some c0 ->
  (dc_key cj = dst -> dc_registered cj = true -> j = i) -> packets dst cj = packets dst c0 ->
  keeps i dst h (with_clients h (<[j := cj]> (hub_clients h))) [].
Proof.
  intros [H1 H2 H3] Hj Hk Hp. split.
  - split; [done|done|]. intros k b. cbn. destruct (decide (k = j)) as [->|Hne].
    + rewrite lookup_insert_eq. cbn. intros [= _ Hk1 Hk2]. by apply Hk.
    + rewrite lookup_insert_ne by done. apply H3.
  - intros c Hc. cbn. rewrite app_nil_r. destruct (decide (i = j)) as [->|Hne].
    + rewrite lookup_insert_eq. exists cj. rewrite Hj in Hc. injection Hc as <-. done.
    + rewrite lookup_insert_ne by done. by exists c.
Qed.
Lemma keeps_register i dst h j c key : owns i dst h -> hub_clients h !! j = Some c -> j <> i -> key <> dst ->
  keeps i dst h (derp_register j c key h) [].
Proof.
  intros [H1 H2 H3] Hc Hj Hk. unfold derp_register. set (h1 := mkDerpHub _ _ _ _ _).
  assert (Ho : owns i dst h1).
  { split; [unfold h1; cbn; by rewrite lookup_insert_ne|done|]. intros j' b. unfold h1. cbn. destruct (decide (j' = j)) as [->|Hne].
    - rewrite lookup_insert_eq. by intros [= _ ?].
    - rewrite lookup_insert_ne by done. apply H3. }
  split; [by apply owns_broadcast|]. intros c' Hc'.
  destruct (packets_broadcast i dst h1 key (frame_peer_present key) c') as (c2 & Hc2 & Hp); [unfold h1; cbn; by rewrite lookup_insert_ne|done|].
  exists c2. by rewrite app_nil_r.
Qed.
Lemma keeps_frame i dst h j data : owns i dst h -> derp_quiet i dst (Frame j data) ->
  keeps i dst h (derp_frame j data h) (if bool_decide (is_Some (hub_clients h !! j)) && packet_for dst data then [data] else []).
Proof.
  intros Ho [Hq1 Hq2]. unfold derp_frame. destruct (hub_clients h !! j) as [c|] eqn:Ec; [|by apply keeps_refl].
  rewrite (bool_decide_eq_true_2 (is_Some (Some c))) by done. cbn [andb]. destruct data as [|t d].
  { destruct (dc_binary c); [|by apply keeps_refl]. apply keeps_leave; [done|]. intros ->. by destruct (Hq1 eq_refl). }
  set (data := t :: d) in *. assert (Hhead : data !! 0%nat = Some t) by done.
  destruct (bool_decide (t = FRAME_CLIENT_KEY) && (33 <=? zlen data)) eqn:Er.
  { assert (Hpk : packet_for dst data = false).
    { unfold packet_for. rewrite Hhead. bool_props. apply bool_decide_eq_true in H as ->. done. }
    rewrite Hpk. assert (Hr : registers data = true) by exact Er. apply keeps_register; [done|done| |by apply Hq2].
    intros ->. destruct (Hq1 eq_refl) as [_ Hn]. by rewrite Hn in Hr. }
  destruct (bool_decide (t = FRAME_SEND_PACKET) && (33 <? zlen data)) eqn:Es.
  { bool_props. apply bool_decide_eq_true in H as ->. unfold route_packet. rewrite (proj2 (Z.ltb_ge _ _)) by lia.
    assert (Hpk : packet_for dst data = bool_decide (key_of data = dst)).
    { unfold packet_for. rewrite Hhead, (bool_decide_eq_true_2 (Some FRAME_SEND_PACKET = _)), (proj2 (Z.ltb_lt _ _)) by (done || lia). done. }
    rewrite Hpk. fold (key_of data). destruct (hub_peers h !! key_of data) as [id|] eqn:Ep.
    - pose proof (keeps_send i dst h id data Ho) as Hs. rewrite Hpk in Hs. destruct (bool_decide (key_of data = dst)) eqn:Hk; [|by rewrite andb_false_r in Hs].
      apply bool_decide_eq_true in Hk. destruct Ho as [Hp _ _]. rewrite Hk, Hp in Ep. injection Ep as <-. by rewrite (bool_decide_eq_true_2 (i = i)) in Hs.
    - rewrite bool_decide_eq_false_2 by (intros Hk; destruct Ho as [Hp _ _]; by rewrite Hk, Hp in Ep). destruct (keeps_refl i dst h Ho) as [[Ha Hb Hd] Hc]. split; [constructor; [exact Ha|exact Hb|exact Hd]|exact Hc]. }
  assert (Hpk : packet_for dst data = false).
  { unfold packet_for. rewrite Hhead. apply andb_false_iff. left. apply andb_false_iff. apply andb_false_iff in Es as [Es|Es]; [left|right; done].
    apply bool_decide_eq_false. intros [= Ht]. by apply bool_decide_eq_false in Es. }
  rewrite Hpk. destruct (bool_decide (t = FRAME_KEEP_ALIVE)); [|by apply keeps_refl].
  apply (keeps_insert i dst h j c); [done|done| |].
  - cbn. intros Hk Hr. apply (ow_only i dst h Ho j (dc_binary c)). rewrite Ec. cbn. unfold identity. by rewrite Hk, Hr.
  - unfold packets. cbn. rewrite !List.filter_app. cbn. by rewrite app_nil_r.
Qed.
Lemma keeps_step i dst h e : owns i dst h -> derp_quiet i dst e ->
  keeps i dst h (derp_step h e)
    match e with Frame j data => if bool_decide (is_Some (hub_clients h !! j)) && packet_for dst data then [data] else [] | _ => [] end.
Proof.
  intros Ho Hq. destruct e as [b|j data|j|j]; cbn [derp_step].
  - destruct Ho as [H1 H2 H3]. split.
    + split; [done|cbn; lia|]. intros j b'. cbn. destruct (decide (j = hub_next h)) as [->|Hne]; [by rewrite lookup_insert_eq|].
      rewrite lookup_insert_ne by done. apply H3.
    + intros c Hc. exists c. cbn. rewrite lookup_insert_ne by lia. by rewrite app_nil_r.
  - by apply keeps_frame.
  - unfold derp_deliver. destruct (hub_clients h !! j) as [[b k r [|msg q] w]|] eqn:Ec; [by apply keeps_refl| |by apply keeps_refl].
    apply (keeps_insert i dst h j _ _ Ho Ec).
    + cbn. intros -> ->. apply (ow_only i dst h Ho j b). by rewrite Ec.
    + unfold packets. cbn. by rewrite <-app_assoc.
  - unfold derp_gone. destruct (hub_clients h !! j) as [c|] eqn:Ec; [|by apply keeps_refl].
    destruct (dc_binary c); [|by apply keeps_leave]. destruct Ho as [H1 H2 H3]. split.
    + split; [done|done|]. intros j' b. cbn. destruct (decide (j' = j)) as [->|Hne]; [by rewrite lookup_delete_eq|].
      rewrite lookup_delete_ne by done. apply H3.
    + intros c' Hc'. exists c'. cbn. rewrite lookup_delete_ne by done. by rewrite app_nil_r.
Qed.

(** C25.  Delivery.  As long as a connection stays and no other one announces its key, it
    gets every packet sent to the key, once and in the order of sending, in whatever way
    the events of all connections are interleaved. *)
Theorem derp_delivery i dst es h c : owns i dst h -> Forall (derp_quiet i dst) es -> hub_clients h !! i = Some c ->
  exists c', hub_clients (derp_run es h) !! i = Some c' /\ packets dst c' = packets dst c ++ sent_to dst es h.
Proof.
  intros Ho Hq. revert h c Ho. induction Hq as [|e es He _ IH]; intros h c Ho Hc.
  - exists c. cbn. by rewrite app_nil_r.
  - destruct (keeps_step i dst h e Ho He) as [Ho' Hk]. destruct (Hk c Hc) as (c1 & Hc1 & Hp1).
    destruct (IH _ c1 Ho' Hc1) as (c2 & Hc2 & Hp2). exists c2. split; [done|]. rewrite Hp2, Hp1. cbn [sent_to]. by rewrite <-app_assoc.
Qed.

(** ** What is left behind *)

(** Peers that are gone.  A binary connection that is closed leaves its key behind:
    packets for it go to a channel nobody reads, and not to the mesh.  And a client that
    reconnects before its old connection is closed loses its key when that happens:
    packets for it go to the mesh although it is there. *)
Theorem derp_stale_peers h i j ci cj key data : hub_peers h !! key = Some i -> zlen data = 34 + zlen (drop 34 data) ->
  key_of data = key -> hub_clients h !! i = Some ci -> dc_key ci = key -> dc_registered ci = true ->
  (dc_binary ci = true ->
     let h' := derp_gone i h in
     hub_peers h' = hub_peers h /\ route_packet h' data = h')
  /\ (dc_binary ci = false -> i <> j -> hub_clients h !! j = Some cj ->
     forall d, registers d = true -> key_of d = key ->
     let h' := derp_gone i (derp_frame j d h) in
     is_Some (hub_clients h' !! j) /\ hub_peers h' !! key = None
     /\ route_packet h' data = mkDerpHub (server_public h') (hub_peers h') (hub_mesh h' ++ [data]) (hub_clients h') (hub_next h')).
Proof.
  intros Hp Hl Hk Hi Hkey Hreg. pose proof (zlen_nonneg (drop 34 data)) as Hnn.
  assert (Hroute : forall h1, route_packet h1 data = match hub_peers h1 !! key with
    | Some id => channel_send h1 id data
    | None => mkDerpHub (server_public h1) (hub_peers h1) (hub_mesh h1 ++ [data]) (hub_clients h1) (hub_next h1) end).
  { intros h1. unfold route_packet. rewrite (proj2 (Z.ltb_ge _ _)) by lia. fold (key_of data). by rewrite Hk. }
  split.
  - intros Hb h'. unfold h', derp_gone. rewrite Hi, Hb. split; [done|]. rewrite Hroute. cbn [with_clients hub_peers]. rewrite Hp.
    unfold channel_send, with_clients. cbn. f_equal. apply map_eq. intros k. destruct (decide (k = i)) as [->|Hne].
    + by rewrite lookup_alter_eq, lookup_delete_eq.
    + by rewrite lookup_alter_ne.
  - intros Hb Hij Hj d Hd Hdk h'.
    assert (Hreg1 : derp_frame j d h = derp_register j cj key h).
    { unfold derp_frame. rewrite Hj. destruct d as [|t d]; [done|]. cbn [registers] in Hd. rewrite Hd. fold (key_of (t :: d)). by rewrite Hdk. }
    unfold h'. rewrite Hreg1. set (h1 := derp_register j cj key h).
    assert (H1 : identity <$> hub_clients h1 !! i = identity <$> hub_clients h !! i).
    { unfold h1, derp_register. rewrite broadcast_identity. cbn. by rewrite lookup_insert_ne. }
    assert (H2 : identity <$> hub_clients h1 !! j = Some (dc_binary cj, key, true)).
    { unfold h1, derp_register. rewrite broadcast_identity. cbn. by rewrite lookup_insert_eq. }
    rewrite Hi in H1. destruct (hub_clients h1 !! i) as [c1|] eqn:E1; [|done]. cbn in H1. injection H1 as Hb1 Hk1 Hr1.
    assert (Hg : derp_gone i h1 = broadcast_except (mkDerpHub (server_public h1) (delete key (hub_peers h1)) (hub_mesh h1) (delete i (hub_clients h1)) (hub_next h1)) key (frame_peer_gone key)).
    { unfold derp_gone. rewrite E1, Hb1, Hb. unfold derp_leave. rewrite E1, Hr1, Hreg, Hk1, Hkey. done. }
    rewrite Hg. set (h2 := mkDerpHub _ _ _ _ _). destruct (broadcast_clients h2 key (frame_peer_gone key)) as (n & Hn & Hpe & _).
    assert (Hnone : hub_peers h2 !! key = None) by (unfold h2; cbn; by rewrite lookup_delete_eq).
    split_and!; [| |].
    + rewrite Hn. unfold h2. cbn. rewrite lookup_delete_ne by done. destruct (hub_clients h1 !! j); [by eexists|done].
    + by rewrite Hpe.
    + rewrite Hroute, Hpe, Hnone. done.
Qed.

(** ** The mesh *)

(** Two relays that mesh with each other: what one puts on its mesh reaches the other over a
    WebSocket connection, whose number there is given.  After a number of hops, what is under
    way. *)
Fixpoint bounce (n : nat) (here there : nat * DerpHub) (flight : list (list byte)) : list (list byte) :=
  match n with
  | O => flight
  | S n =>
      let h := foldl (fun h data => derp_frame here.1 data h) here.2 flight in
      bounce n there (here.1, h) (drop (length (hub_mesh here.2)) (hub_mesh h))
  end.

(** A packet for a key that neither of two meshed relays knows is sent back and forth
    between them without end. *)
Theorem mesh_bounces n link_a link_b a b data : packet_for (key_of data) data = true ->
  is_Some (hub_clients a !! link_a) -> is_Some (hub_clients b !! link_b) ->
  hub_peers a !! key_of data = None -> hub_peers b !! key_of data = None ->
  bounce n (link_b, b) (link_a, a) [data] = [data].
Proof.
  intros Hpk. revert link_a link_b a b. induction n as [|n IH]; intros link_a link_b a b Ha Hb Hka Hkb; [done|]. cbn [bounce foldl fst snd].
  assert (Hhop : derp_frame link_b data b = mkDerpHub (server_public b) (hub_peers b) (hub_mesh b ++ [data]) (hub_clients b) (hub_next b)).
  { destruct Hb as [c Hc]. unfold derp_frame. rewrite Hc. unfold packet_for in Hpk. rewrite (bool_decide_eq_true_2 (key_of data = key_of data)), andb_true_r in Hpk by done.
    destruct data as [|t d]; [done|]. apply andb_true_iff in Hpk as [Ht Hl]. apply bool_decide_eq_true in Ht. injection Ht as ->.
    rewrite (bool_decide_eq_true_2 (FRAME_SEND_PACKET = FRAME_SEND_PACKET)) by done. rewrite Hl.
    rewrite (bool_decide_eq_false_2 (FRAME_SEND_PACKET = FRAME_CLIENT_KEY)) by done. cbn [andb]. unfold route_packet.
    apply Z.ltb_lt in Hl. rewrite (proj2 (Z.ltb_ge _ _)) by lia. unfold key_of in Hkb. by rewrite Hkb. }
  rewrite Hhop. cbn [hub_mesh]. rewrite drop_app_length. by apply IH.
Qed.

(** ** Witnesses *)

Definition demo_key (b : byte) : list byte := replicate 32 b.
Definition demo_register (b : byte) : list byte := FRAME_CLIENT_KEY :: demo_key b.
Definition demo_packet (b : byte) (s : string) : list byte := FRAME_SEND_PACKET :: demo_key b ++ str s.

Lemma derp_framing_witness :
  derp_select [] (map Bytes [take 3 (wire [str "ab"; str "c"]); drop 3 (wire [str "ab"; str "c"])]) = [str "ab"; str "c"].
Proof.
  refine (proj1 (derp_framing [str "ab"; str "c"] _ _ _)).
  - repeat constructor; by vm_compute.
  - reflexivity.
Defined.
Lemma derp_registry_witness :
  registry_exact (derp_run [Join false; Join false; Frame 0 (demo_register x01); Frame 1 (demo_register x02); Gone 0] (hub_new (demo_key x00))).
Proof.
  apply derp_registry.
  - intros Hn. rewrite !elem_of_cons, elem_of_nil in Hn. naive_solver.
  - intros i d1 d2 H1 H2 _ _. rewrite !elem_of_cons, elem_of_nil in H1, H2. naive_solver.
Defined.
Definition demo_hub : DerpHub :=
  derp_run [Join false; Join true; Frame 0 (demo_register x01)] (hub_new (demo_key x00)).
Lemma derp_delivery_witness :
  exists c', hub_clients (derp_run [Frame 1 (demo_packet x01 "a"); Frame 1 [FRAME_KEEP_ALIVE]; Deliver 0; Frame 1 (demo_packet x01 "b")] demo_hub) !! 0%nat = Some c'
    /\ packets (demo_key x01) c' = [demo_packet x01 "a"; demo_packet x01 "b"].
Proof.
  refine (derp_delivery 0 (demo_key x01) [Frame 1 (demo_packet x01 "a"); Frame 1 [FRAME_KEEP_ALIVE]; Deliver 0; Frame 1 (demo_packet x01 "b")] demo_hub
    (mkDerpClient false (demo_key x01) true [] [frame_server_key (demo_key x00); frame_server_info]) _ _ _).
  - assert (Hc : hub_clients demo_hub = <[0%nat := mkDerpClient false (demo_key x01) true [] [frame_server_key (demo_key x00); frame_server_info]]>
      (<[1%nat := mkDerpClient true (demo_key x00) false [] [frame_server_key (demo_key x00); frame_server_info]]> ∅)) by reflexivity.
    split; [by vm_compute|vm_compute; lia|]. intros j b. rewrite Hc. destruct (decide (j = 0%nat)) as [->|H0]; [done|].
    rewrite lookup_insert_ne by done. destruct (decide (j = 1%nat)) as [->|H1]; [by rewrite lookup_insert_eq|].
    rewrite lookup_insert_ne, lookup_empty by done. done.
  - repeat constructor; done.
  - by vm_compute.
Defined.
Lemma derp_stale_peers_witness :
  let h := derp_run [Join true; Frame 0 (demo_register x01)] (hub_new (demo_key x00)) in
  route_packet (derp_gone 0 h) (demo_packet x01 "lost") = derp_gone 0 h.
Proof.
  refine (proj2 (proj1 (derp_stale_peers (derp_run [Join true; Frame 0 (demo_register x01)] (hub_new (demo_key x00))) 0 1
    (mkDerpClient true (demo_key x01) true [] [frame_server_key (demo_key x00); frame_server_info])
    (mkDerpClient true (demo_key x01) true [] []) (demo_key x01) (demo_packet x01 "lost") _ _ _ _ _ _) _)).
  all: by vm_compute.
Defined.
Lemma mesh_bounces_witness :
  bounce 100 (0%nat, derp_run [Join false] (hub_new (demo_key x01))) (0%nat, derp_run [Join false] (hub_new (demo_key x02))) [demo_packet x03 "?"]
  = [demo_packet x03 "?"].
Proof.
  refine (mesh_bounces 100 0 0 (derp_run [Join false] (hub_new (demo_key x02))) (derp_run [Join false] (hub_new (demo_key x01))) (demo_packet x03 "?") _ _ _ _ _).
  - by vm_compute.
  - by eexists.
  - by eexists.
  - by vm_compute.
  - by vm_compute.
Defined.
