(* ===== verification/Tun.v ===== *)
(** * Traffic of the whole machine

    The inbounds that take connections without being asked: [rsb-protocol/src/tun_mode.rs]
    (the TUN device with its routes and flows, the redirect and tproxy listeners),
    [original_dest.rs], and the routes of [rsb-core/src/platform/mod.rs] and [linux.rs],
    down to the netlink messages.

    The kernel is an argument as far as it may refuse a request; what it does with one it
    takes is decided by the bytes of the message.  The device and the userspace stack are
    the flows they hand over. *)
From stdpp Require Import base tactics gmap list strings.
From Stdlib Require Import ZArith Lia.
From Stdlib Require Import Strings.Byte.
From S2P Require Import Prelude Json Text Ip Route DnsWire Codec Sniff Users Connections Groups Dial Config Engine.

Local Open Scope Z_scope.

(** ** Netlink *)

Definition le_encode (n : nat) (v : Z) : list byte := rev (be_encode n v).
Definition le_decode (l : list byte) : Z := be_decode (rev l).

Definition NLMSG_HDRLEN : Z := 16.
Definition NLM_F_REPLACE : Z := 256.
Definition NLM_F_CREATE : Z := 1024.
Definition RTA_DST : Z := 1.
Definition RTA_OIF : Z := 4.
Definition RTM_NEWROUTE : Z := 24.
Definition RTM_DELROUTE : Z := 25.
Definition AF_INET : Z := 2.
Definition AF_INET6 : Z := 10.

(** [RtRequest]: header, then [rtmsg] with the main table, static, universe, unicast. *)
Definition rt_request_new (kind flags : Z) : list byte :=
  le_encode 4 28 ++ le_encode 2 kind ++ le_encode 2 (Z.lor 5 flags) ++ le_encode 4 1 ++ le_encode 4 0
  ++ map u8 [AF_INET; 0; 0; 0; 254; 4; 0; 1] ++ le_encode 4 1.
Definition set_family (family : Z) (buf : list byte) : list byte := <[16%nat := u8 family]> buf.
Definition push_attr (kind : Z) (payload : list byte) (buf : list byte) : list byte :=
  let len := 4 + zlen payload in
  let pad := (4 - len `mod` 4) `mod` 4 in
  let buf := buf ++ le_encode 2 len ++ le_encode 2 kind ++ payload ++ replicate (Z.to_nat pad) x00 in
  le_encode 4 (zlen buf) ++ drop 4 buf.
Definition set_dst_prefix (dest : IpAddr) (prefix : Z) (buf : list byte) : list byte :=
  push_attr RTA_DST (ip_octets dest) (<[17%nat := u8 prefix]> buf).
Definition set_oif (ifindex : Z) (buf : list byte) : list byte := push_attr RTA_OIF (le_encode 4 ifindex) buf.
Definition route_family (dest : IpAddr) : Z := match dest with V4 _ => AF_INET | V6 _ => AF_INET6 end.
Definition rt_request (kind flags : Z) (dest : IpAddr) (prefix ifindex : Z) : list byte :=
  set_oif ifindex (set_dst_prefix dest prefix (set_family (route_family dest) (rt_request_new kind flags))).

(** The platform's [parse_cidr]: an address alone is a block of 32 bits, in both families. *)
Definition route_cidr (cidr : list byte) : result (IpAddr * Z) :=
  match split_once x2f cidr with
  | Some (ip, prefix) =>
      addr ← ok_or "cidr ip" (parse_ip ip);
      prefix ← ok_or "cidr prefix" (parse_uint 8 prefix);
      Ok (addr, prefix)
  | None => addr ← ok_or "cidr ip" (parse_ip cidr); Ok (addr, 32)
  end.

(** The end of [RtRequest::send]: what the answer says. *)
Definition read_netlink_reply (reply : list byte) : result unit :=
  if (NLMSG_HDRLEN <=? zlen reply) && (le_decode (take 2 (drop 4 reply)) =? 2)
     && negb (le_decode (take 4 (drop 16 reply)) =? 0)
  then Err "netlink error" else Ok tt.

(** *** The kernel's side *)

(** A message as [linux/netlink.h] and [linux/rtnetlink.h] lay it out. *)
Record RtMessage := mkRtMessage {
  rm_kind : Z;
  rm_flags : Z;
  rm_family : Z;
  rm_dst_len : Z;
  rm_attrs : list (Z * list byte);
}.
Fixpoint read_attrs (fuel : nat) (buf : list byte) : option (list (Z * list byte)) :=
  match fuel, buf with
  | _, [] => Some []
  | O, _ => None
  | S fuel, _ =>
      let len := le_decode (take 2 buf) in
      if (len <? 4) || (zlen buf <? len) then None
      else
        attrs ← read_attrs fuel (drop (Z.to_nat ((len + 3) / 4 * 4)) buf);
        Some ((le_decode (take 2 (drop 2 buf)), take (Z.to_nat (len - 4)) (drop 4 buf)) :: attrs)
  end.
Definition read_rt_message (buf : list byte) : option RtMessage :=
  if (zlen buf <? 28) || negb (le_decode (take 4 buf) =? zlen buf) then None
  else
    attrs ← read_attrs (length buf) (drop 28 buf);
    family ← buf !! 16%nat;
    dst_len ← buf !! 17%nat;
    Some (mkRtMessage (le_decode (take 2 (drop 4 buf))) (le_decode (take 2 (drop 6 buf))) (bz family) (bz dst_len) attrs).

(** What a request asks for: a route of a block through an interface, replacing one if
    there is one, or the end of such a route. *)
Abbreviation Block := (list byte * Z)%type.
Inductive RtOp := NewRoute (block : Block) (oif : Z) | DelRoute (block : Block) (oif : Z).
Fixpoint attr (kind : Z) (attrs : list (Z * list byte)) : option (list byte) :=
  match attrs with
  | [] => None
  | (k, v) :: attrs => if k =? kind then Some v else attr kind attrs
  end.
Definition rt_meaning (req : list byte) : option RtOp :=
  m ← read_rt_message req;
  dst ← attr RTA_DST (rm_attrs m);
  oif ← attr RTA_OIF (rm_attrs m);
  let block := (dst, rm_dst_len m) in
  if (rm_kind m =? RTM_NEWROUTE) && negb (Z.land (rm_flags m) NLM_F_CREATE =? 0) && negb (Z.land (rm_flags m) NLM_F_REPLACE =? 0)
  then Some (NewRoute block (le_decode oif))
  else if rm_kind m =? RTM_DELROUTE then Some (DelRoute block (le_decode oif))
  else None.
(** An acknowledgement: an error message with the negated error number. *)
Definition netlink_ack (errno : Z) : list byte :=
  le_encode 4 36 ++ le_encode 2 2 ++ le_encode 2 0 ++ le_encode 4 1 ++ le_encode 4 0
  ++ le_encode 4 (u32 (- errno)) ++ replicate 16 x00.

(** How many routes the main table has for a block through an interface, before and after
    a request that was acknowledged (rtnetlink(7), ip-route(8)).  A new route takes the
    place of at most one other of its block (the one of its metric); an end takes one
    route of the block and the interface away.  Nothing else changes. *)
Definition one (b : bool) : Z := if b then 1 else 0.
Definition carried_out (op : RtOp) (before after : Block -> Z -> Z) : Prop :=
  match op with
  | NewRoute block oif =>
      exists replaced : option Z, (forall j, replaced = Some j -> 0 < before block j)
        /\ forall b j, after b j = before b j
             + (if bool_decide (b = block) then one (j =? oif) - one (bool_decide (replaced = Some j)) else 0)
  | DelRoute block oif =>
      0 < before block oif
      /\ forall b j, after b j = before b j - (if bool_decide (b = block) then one (j =? oif) else 0)
  end.
(** The kernel: what it answers a request with, if a socket to it can be had.  A request
    that it refuses, for whatever reason and as often as it likes, changes nothing. *)
Class RouteKernel := {
  kernel : Type;
  netlink : list byte -> kernel -> option (list byte) * kernel;
  route_count : kernel -> Block -> Z -> Z;
  route_count_nonneg : forall k b i, 0 <= route_count k b i;
  netlink_answers : forall req op k, rt_meaning req = Some op ->
    match netlink req k with
    | (Some reply, k') => exists errno, 0 <= errno < 2 ^ 31 /\ reply = netlink_ack errno
        /\ if errno =? 0 then carried_out op (route_count k) (route_count k') else k' = k
    | (None, k') => k' = k
    end;
}.

(** ** Routes *)

(** The state outside the program: the time slept, the kernel, and the requests sent to
    it, each with whether it was acknowledged. *)
Record RouteOs `{RouteKernel} := mkRouteOs {
  os_slept : Z;
  os_kernel : kernel;
  os_sent : list (list byte * bool);
}.
Section Routes.
Context `{RouteKernel}.
Variable if_nametoindex : list byte -> option Z.

Definition rt_send (req : list byte) (os : RouteOs) : result unit * RouteOs :=
  let '(reply, k) := netlink req (os_kernel os) in
  let r := match reply with Some reply => read_netlink_reply reply | None => Err "netlink socket failed" end in
  (r, mkRouteOs _ (os_slept os) k (os_sent os ++ [(req, is_ok r)])).
Definition route_change (cidr iface : list byte) (kind flags : Z) (os : RouteOs) : result unit * RouteOs :=
  match route_cidr cidr with
  | Ok (dest, prefix) =>
      match (if bool_decide (x00 ∈ iface) then None else if_nametoindex iface) with
      | Some ifindex => rt_send (rt_request kind flags dest prefix ifindex) os
      | None => (Err "interface not found", os)
      end
  | Err e => (Err e, os)
  | Panic e => (Panic e, os)
  end.
Definition route_add (cidr iface : list byte) : RouteOs -> result unit * RouteOs :=
  route_change cidr iface RTM_NEWROUTE (Z.lor NLM_F_REPLACE NLM_F_CREATE).
Definition route_delete (cidr iface : list byte) : RouteOs -> result unit * RouteOs :=
  route_change cidr iface RTM_DELROUTE 0.

(** [install_routes] of a WireGuard interface: what fails is left out. *)
Definition install_routes (raw : Value) (os : RouteOs) : RouteOs :=
  let iface := default (str "wg0") (text raw "interface_name") in
  match (v ← get raw "peers"; as_array v) with
  | None => os
  | Some peers =>
      foldl (fun os cidr => (route_add cidr iface os).2) os
        (concat (map (fun peer => match (v ← get peer "allowed_ips"; as_array v) with
                                  | Some l => omap as_str l
                                  | None => []
                                  end) peers))
  end.

(** *** The routes of a TUN device *)

Definition tun_route_targets (strict_route : bool) : list (list byte) :=
  if strict_route then [str "0.0.0.0/1"; str "128.0.0.0/1"] else [str "0.0.0.0/0"].
(** Ten attempts, 200 milliseconds apart. *)
Fixpoint try_route_add (attempts : nat) (cidr name : list byte) (os : RouteOs) : result unit * RouteOs :=
  match attempts with
  | O => (Err "", os)
  | S k =>
      match route_add cidr name os with
      | (Ok _, os) => (Ok tt, os)
      | (r, os) =>
          match k with
          | O => (r, os)
          | S _ => try_route_add k cidr name (mkRouteOs _ (os_slept os + 200) (os_kernel os) (os_sent os))
          end
      end
  end.
Definition remove_tun_routes (name : list byte) (routes : list (list byte)) (os : RouteOs) : RouteOs :=
  foldl (fun os cidr => (route_delete cidr name os).2) os routes.
Fixpoint install_targets (name : list byte) (targets installed : list (list byte)) (os : RouteOs)
  : result (list (list byte)) * RouteOs :=
  match targets with
  | [] => (Ok installed, os)
  | cidr :: targets =>
      match try_route_add 10 cidr name os with
      | (Ok _, os) => install_targets name targets (installed ++ [cidr]) os
      | (_, os) => (Err "install route", remove_tun_routes name installed os)
      end
  end.
Definition install_tun_routes (name : list byte) (strict_route : bool) : RouteOs -> result (list (list byte)) * RouteOs :=
  install_targets name (tun_route_targets strict_route) [].

(** [start] and [close] of the inbound, as far as the machine sees them: whether the device
    could be made, whether the stack takes the size of its packets.  The routes are noted
    before the stack is asked. *)
Record TunRun := mkTunRun {
  tr_serving : bool;
  tr_routes : list (list byte);
}.
Definition tun_start (device : bool) (mtu_ok : Z -> bool) (cfg : TunCfg) (run : TunRun) (os : RouteOs)
  : result unit * TunRun * RouteOs :=
  if negb device then (Err "tun create", run, os)
  else
    let '(r, os) := if tn_auto_route cfg then install_tun_routes (tn_name cfg) (tn_strict_route cfg) os else (Ok (tr_routes run), os) in
    match r with
    | Ok routes =>
        if mtu_ok (tn_mtu cfg) then (Ok tt, mkTunRun true routes, os) else (Err "ipstack mtu", mkTunRun (tr_serving run) routes, os)
    | _ => (Err "tun routes", run, os)
    end.
Definition tun_close (cfg : TunCfg) (run : TunRun) (os : RouteOs) : TunRun * RouteOs :=
  (mkTunRun false [], remove_tun_routes (tn_name cfg) (tr_routes run) os).
End Routes.

(** ** Flows *)

Section Flows.
Context `{Regex}.
Variables (router : RuleRouter) (manager : OutboundManager).
Variable dial : Outbound -> SocketAddr -> option (list byte) -> result unit.
Variable dial_udp : Outbound -> SocketAddr -> result unit.
Variable dns_lookup : list byte -> result (list IpAddr).
Variable now : Z.

(** [Dialer::dial_udp]. *)
Definition dialer_dial_udp (md : Metadata) (destination : SocketAddr) : result Outbound :=
  t ← route router md;
  ob ← manager_get manager t;
  _ ← context "dial udp via outbound" (dial_udp ob destination);
  Ok ob.

Definition tun_metadata (network : Network) (src resolved : SocketAddr) (sniff : SniffResult)
    (process : option (list byte) * option (list byte)) (tag : list byte) : Metadata :=
  mkMetadata network (Some src) (Some resolved) (sn_domain sniff) (sn_protocol sniff)
    process.1 process.2 tag.

(** [handle_tun_tcp]: [first] is what the first read yields (the flow waits for it), [rest]
    what the application sends after that.  The stream that is copied to the outbound. *)
Definition handle_tun_tcp (src dst : SocketAddr) (first rest : list byte)
    (process : option (list byte) * option (list byte)) (tag : list byte) (cm : ConnectionManager)
  : result (TrackedStream * PrefixedStream) * ConnectionManager :=
  match ('(sniff, prefix) ← read_sniff_tcp first;
         resolved ← resolve_destination dns_lookup dst (sn_domain sniff);
         Ok (sniff, prefix, resolved)) with
  | Ok (sniff, prefix, resolved) =>
      let '(r, cm) := dialer_dial_tcp router manager dial now (tun_metadata Tcp src resolved sniff process tag) resolved cm in
      ((fun remote => (remote, prefixed_new rest prefix)) <$> r, cm)
  | Err e => (Err e, cm)
  | Panic e => (Panic e, cm)
  end.

(** [handle_tun_udp] up to its pumps: where the flow is sent, if it lives. *)
Definition handle_tun_udp (src dst : SocketAddr) (first : option (list byte)) (tag : list byte)
    (send : Outbound -> list byte -> SocketAddr -> bool) : result (option (Outbound * SocketAddr)) :=
  match first with
  | None | Some [] => Ok None
  | Some first =>
      sniff ← sniff_udp first (sa_port dst);
      resolved ← resolve_destination dns_lookup dst (sn_domain sniff);
      ob ← dialer_dial_udp (tun_metadata Udp src resolved sniff (None, None) tag) resolved;
      Ok (if send ob first resolved then Some (ob, resolved) else None)
  end.
End Flows.

(** What happens to a datagram flow: a read from the application and whether sending it on
    succeeded, a datagram from the outbound and whether writing it back succeeded. *)
Inductive flow_event :=
| FromApp (data : option (list byte)) (sent : bool)
| FromOutbound (data : option (list byte * SocketAddr)) (written : bool).
Record UdpFlow := mkUdpFlow {
  uf_up : bool;
  uf_down : bool;
  uf_sent : list (list byte);
  uf_written : list (list byte);
}.
Definition flow_start (first : list byte) : UdpFlow := mkUdpFlow true true [first] [].
(** The task that sends, and the loop that receives; when the loop ends the task is
    stopped. *)
Definition flow_step (f : UdpFlow) (e : flow_event) : UdpFlow :=
  match e with
  | FromApp data sent =>
      if negb (uf_up f) then f
      else
        match data with
        | None | Some [] => mkUdpFlow false (uf_down f) (uf_sent f) (uf_written f)
        | Some d => if sent then mkUdpFlow true (uf_down f) (uf_sent f ++ [d]) (uf_written f)
                    else mkUdpFlow false (uf_down f) (uf_sent f) (uf_written f)
        end
  | FromOutbound data written =>
      if negb (uf_down f) then f
      else
        match data with
        | None => mkUdpFlow false false (uf_sent f) (uf_written f)
        | Some ([], _) => f
        | Some (d, _) => if written then mkUdpFlow (uf_up f) true (uf_sent f) (uf_written f ++ [d])
                         else mkUdpFlow false false (uf_sent f) (uf_written f)
        end
  end.
Definition flow_run (first : list byte) (es : list flow_event) : UdpFlow := foldl flow_step (flow_start first) es.

(** ** Transparent listeners *)

(** [linux_original_dest]: the answer of [SO_ORIGINAL_DST], asked in the family of the
    client's address; a [sockaddr_in] or [sockaddr_in6]. *)
Definition linux_original_dest (peer : SocketAddr) (getsockopt : bool -> option (list byte)) : result SocketAddr :=
  match sa_ip peer with
  | V4 _ =>
      addr ← ok_or "SO_ORIGINAL_DST failed" (getsockopt false);
      Ok (mkSocketAddr (V4 (be_decode (take 4 (drop 4 addr)))) (be_decode (take 2 (drop 2 addr))))
  | V6 _ =>
      addr ← ok_or "IPV6 SO_ORIGINAL_DST failed" (getsockopt true);
      Ok (mkSocketAddr (V6 (be_decode (take 16 (drop 8 addr)))) (be_decode (take 2 (drop 2 addr))))
  end.
Definition sockaddr_bytes (a : SocketAddr) : list byte :=
  match sa_ip a with
  | V4 ip => le_encode 2 AF_INET ++ be_encode 2 (sa_port a) ++ be_encode 4 ip ++ replicate 8 x00
  | V6 ip => le_encode 2 AF_INET6 ++ be_encode 2 (sa_port a) ++ replicate 4 x00 ++ be_encode 16 ip ++ replicate 4 x00
  end.

(** [macos_original_dest]: the [PfNatLook] that is asked with, and the address in the
    answer. *)
Definition pad_to (n : nat) (l : list byte) : list byte := l ++ replicate (n - length l) x00.
Definition pf_request (ra la : SocketAddr) : result (list byte) :=
  match sa_ip ra, sa_ip la with
  | V4 _, V4 _ | V6 _, V6 _ =>
      Ok (pad_to 16 (ip_octets (sa_ip ra)) ++ pad_to 16 (ip_octets (sa_ip la)) ++ replicate 32 x00
          ++ pad_to 4 (be_encode 2 (sa_port ra)) ++ pad_to 4 (be_encode 2 (sa_port la)) ++ replicate 8 x00
          ++ map u8 [match sa_ip ra with V4 _ => 2 | V6 _ => 30 end; 6; 0; 2])
  | _, _ => Err "address family mismatch on redirect socket"
  end.
Definition pf_answer (nl : list byte) : SocketAddr :=
  let rdaddr := take 16 (drop 48 nl) in
  let port := be_decode (take 2 (drop 76 nl)) in
  if bool_decide (nl !! 80%nat = Some x02) then mkSocketAddr (V4 (be_decode (take 4 rdaddr))) port
  else mkSocketAddr (V6 (be_decode rdaddr)) port.

(** One connection of [spawn_transparent_listener], through [handle_redirect_stream] and the
    dial of [dial_and_relay]. *)
Definition transparent_dest (peer : SocketAddr) (original : result SocketAddr) : SocketAddr :=
  match original with Ok d => d | _ => peer end.
Definition handle_redirect_stream `{Regex} (router : RuleRouter) (manager : OutboundManager)
    (dial : Outbound -> SocketAddr -> option (list byte) -> result unit) (dns_lookup : list byte -> result (list IpAddr))
    (now : Z) (w : Watch) (peer : SocketAddr) (tag : list byte) (original : result SocketAddr)
    (process : option (list byte) * option (list byte)) (cm : ConnectionManager)
  : result (option TrackedStream) * ConnectionManager :=
  dial_tcp_only router manager dial dns_lookup now w peer tag (transparent_dest peer original) None process.1 process.2 cm.

(** ** Messages are read as they are written *)

Lemma length_le_encode n v : length (le_encode n v) = n.
Proof. unfold le_encode. by rewrite length_rev, length_be_encode. Qed.
Lemma le_decode_encode n v : 0 <= v < 2 ^ (8 * Z.of_nat n) -> le_decode (le_encode n v) = v.
Proof. intros Hv. unfold le_decode, le_encode. rewrite rev_involutive. by apply be_decode_encode. Qed.

(** A list of a known length, element by element. *)
Ltac explode l H :=
  repeat (destruct l as [|? l]; [discriminate H|]);
  destruct l; [clear H|discriminate H].

(** A request says what it was made from: the kind with its flags, the block and the
    interface, and the length the header announces is its own. *)
Lemma read_rt_request kind flags dest prefix ifindex :
  (kind, flags) ∈ [(RTM_NEWROUTE, Z.lor NLM_F_REPLACE NLM_F_CREATE); (RTM_DELROUTE, 0)] -> in_u8 prefix ->
  read_rt_message (rt_request kind flags dest prefix ifindex)
  = Some (mkRtMessage kind (Z.lor 5 flags) (route_family dest) prefix
      [(RTA_DST, ip_octets dest); (RTA_OIF, le_encode 4 ifindex)]).
Proof.
  intros Hk Hp. unfold rt_request, set_oif, set_dst_prefix.
  assert (Hi : length (le_encode 4 ifindex) = 4%nat) by apply length_le_encode.
  assert (Hb : bz (u8 prefix) = prefix) by (apply bz_u8_small; exact Hp). revert Hb.
  generalize (u8 prefix) as pb. intros pb Hb. revert Hi. generalize (le_encode 4 ifindex) as oif. intros oif Hi. explode oif Hi.
  destruct dest as [a|a].
  - assert (Hd : length (ip_octets (V4 a)) = 4%nat) by (unfold ip_octets; apply length_be_encode).
    revert Hd. generalize (ip_octets (V4 a)) as o. intros o Hd. explode o Hd.
    apply elem_of_cons in Hk as [[= -> ->]|Hk]; [|apply list_elem_of_singleton in Hk as [= -> ->]]; rewrite <-Hb; reflexivity.
  - assert (Hd : length (ip_octets (V6 a)) = 16%nat) by (unfold ip_octets; apply length_be_encode).
    revert Hd. generalize (ip_octets (V6 a)) as o. intros o Hd. explode o Hd.
    apply elem_of_cons in Hk as [[= -> ->]|Hk]; [|apply list_elem_of_singleton in Hk as [= -> ->]]; rewrite <-Hb; reflexivity.
Qed.

(** What the two requests mean. *)
Definition route_key (dest : IpAddr) (prefix : Z) : Block := (ip_octets dest, prefix).
Lemma add_meaning dest prefix ifindex : in_u8 prefix -> in_u32 ifindex ->
  rt_meaning (rt_request RTM_NEWROUTE (Z.lor NLM_F_REPLACE NLM_F_CREATE) dest prefix ifindex)
  = Some (NewRoute (route_key dest prefix) ifindex).
Proof.
  intros Hp Hi. unfold rt_meaning. rewrite read_rt_request by (try done; by constructor). cbn.
  by rewrite le_decode_encode by exact Hi.
Qed.
Lemma delete_meaning dest prefix ifindex : in_u8 prefix -> in_u32 ifindex ->
  rt_meaning (rt_request RTM_DELROUTE 0 dest prefix ifindex) = Some (DelRoute (route_key dest prefix) ifindex).
Proof.
  intros Hp Hi. unfold rt_meaning. rewrite read_rt_request by (try done; by repeat constructor). cbn.
  by rewrite le_decode_encode by exact Hi.
Qed.
Lemma read_ack errno : 0 <= errno < 2 ^ 32 -> read_netlink_reply (netlink_ack errno) = if errno =? 0 then Ok tt else Err "netlink error".
Proof.
  intros He. unfold read_netlink_reply, netlink_ack.
  assert (Hl : length (le_encode 4 (u32 (- errno))) = 4%nat) by apply length_le_encode.
  assert (Hv : (le_decode (le_encode 4 (u32 (- errno))) =? 0) = (errno =? 0)).
  { rewrite le_decode_encode by (unfold u32, wrap; apply Z.mod_pos_bound; lia). unfold u32, wrap.
    destruct (Z.eqb_spec errno 0) as [->|Hne]; [done|]. apply Z.eqb_neq. intros Hz. apply Z.mod_divide in Hz; [|lia].
    destruct Hz as [q Hq]. assert (q = 0 \/ q <= -1 \/ 1 <= q) as [-> | [Hq'|Hq']] by lia; lia. }
  revert Hl Hv. generalize (le_encode 4 (u32 (- errno))) as l. intros l Hl Hv. explode l Hl.
  cbn [app]. change (drop 16 _) with ([b; b0; b1; b2] ++ replicate 16 x00).
  change (take 4 _) with [b; b0; b1; b2]. rewrite Hv. by destruct (errno =? 0).
Qed.

(** ** Routes are installed together or not at all *)

Definition block_ok (cidr : list byte) : Prop := exists dest prefix, route_cidr cidr = Ok (dest, prefix) /\ in_u8 prefix.
Definition target_key (cidr : list byte) : Block :=
  match route_cidr cidr with Ok (dest, prefix) => route_key dest prefix | _ => ([], 0) end.
Definition keys (l : list (list byte)) : list Block := map target_key l.
Definition delete_request (idx : Z) (cidr : list byte) : list byte :=
  match route_cidr cidr with Ok (dest, prefix) => rt_request RTM_DELROUTE 0 dest prefix idx | _ => [] end.

Section Install.
Context `{RouteKernel}.
Variable if_nametoindex : list byte -> option Z.
Variables (name : list byte) (idx : Z).
Hypothesis name_index : if_nametoindex name = Some idx.
Hypothesis name_text : x00 ∉ name.
Hypothesis idx_u32 : in_u32 idx.

Definition counts (os : RouteOs) : Block -> Z -> Z := route_count (os_kernel os).

Lemma send_effect req op os : rt_meaning req = Some op ->
  let '(r, os') := rt_send req os in
  os_slept os' = os_slept os /\ os_sent os' = os_sent os ++ [(req, is_ok r)]
  /\ if is_ok r then carried_out op (counts os) (counts os') else os_kernel os' = os_kernel os.
Proof.
  intros Hm. unfold rt_send. pose proof (netlink_answers req op (os_kernel os) Hm) as Hk.
  destruct (netlink req (os_kernel os)) as [[reply|] k']; [|by rewrite Hk].
  destruct Hk as (errno & He & -> & Hk). rewrite read_ack by lia. cbn [os_slept os_sent os_kernel].
  split_and!; [done|done|]. by destruct (errno =? 0).
Qed.
Lemma add_effect cidr os : block_ok cidr ->
  let '(r, os') := route_add if_nametoindex cidr name os in
  os_slept os' = os_slept os
  /\ if is_ok r then carried_out (NewRoute (target_key cidr) idx) (counts os) (counts os') else os_kernel os' = os_kernel os.
Proof.
  intros (dest & prefix & Hc & Hp). unfold route_add, route_change, target_key.
  rewrite Hc, bool_decide_eq_false_2, name_index by done.
  pose proof (send_effect _ _ os (add_meaning dest prefix idx Hp idx_u32)) as Hs.
  destruct (rt_send _ os) as [r os']. tauto.
Qed.
Lemma delete_effect cidr os : block_ok cidr ->
  let '(r, os') := route_delete if_nametoindex cidr name os in
  os_slept os' = os_slept os /\ os_sent os' = os_sent os ++ [(delete_request idx cidr, is_ok r)]
  /\ if is_ok r then carried_out (DelRoute (target_key cidr) idx) (counts os) (counts os') else os_kernel os' = os_kernel os.
Proof.
  intros (dest & prefix & Hc & Hp). unfold route_delete, route_change, target_key, delete_request.
  rewrite Hc, bool_decide_eq_false_2, name_index by done.
  exact (send_effect _ _ os (delete_meaning dest prefix idx Hp idx_u32)).
Qed.

(** Up to ten attempts: a route is there or nothing has changed. *)
Lemma try_add_effect attempts cidr os : block_ok cidr -> (0 < attempts)%nat ->
  let '(r, os') := try_route_add if_nametoindex attempts cidr name os in
  os_slept os <= os_slept os' <= os_slept os + 200 * (Z.of_nat attempts - 1)
  /\ if is_ok r then carried_out (NewRoute (target_key cidr) idx) (counts os) (counts os') else os_kernel os' = os_kernel os.
Proof.
  intros Hc. revert os. induction attempts as [|k IH]; intros os Ha; [lia|]. cbn [try_route_add].
  pose proof (add_effect cidr os Hc) as He. destruct (route_add if_nametoindex cidr name os) as [r os1]. destruct He as [Hs He].
  assert (Hagain : is_ok r = false ->
    let '(r', os') := match k with O => (r, os1) | S _ => try_route_add if_nametoindex k cidr name
                        (mkRouteOs _ (os_slept os1 + 200) (os_kernel os1) (os_sent os1)) end in
    os_slept os <= os_slept os' <= os_slept os + 200 * (Z.of_nat (S k) - 1)
    /\ if is_ok r' then carried_out (NewRoute (target_key cidr) idx) (counts os) (counts os') else os_kernel os' = os_kernel os).
  { intros Hr. rewrite Hr in He. destruct k as [|k]; [rewrite Hr; split; [lia|done]|].
    set (os2 := mkRouteOs _ _ _ _). specialize (IH os2 ltac:(lia)).
    destruct (try_route_add if_nametoindex (S k) cidr name os2) as [r' os']. destruct IH as [H1 H2].
    unfold os2, counts in *. cbn [os_slept os_kernel] in *. rewrite He in H2. split; [lia|exact H2]. }
  destruct r as [[]|e|e]; [|by apply Hagain..]. cbn [is_ok] in *. split; [lia|exact He].
Qed.

(** The end of routes: one request for each, and a route stays if its request was refused. *)
Lemma remove_effect routes os : Forall block_ok routes -> NoDup (keys routes) ->
  (forall c, c ∈ routes -> counts os (target_key c) idx = 1) ->
  exists acks, length acks = length routes
    /\ let os' := remove_tun_routes if_nametoindex name routes os in
       os_slept os' = os_slept os
       /\ os_sent os' = os_sent os ++ zip_with (fun c ok => (delete_request idx c, ok)) routes acks
       /\ (forall i c ok, routes !! i = Some c -> acks !! i = Some ok -> counts os' (target_key c) idx = one (negb ok))
       /\ (forall b j, b ∉ keys routes \/ j <> idx -> counts os' b j = counts os b j).
Proof.
  intros Hok. revert os. induction Hok as [|c routes Hc Hok IH]; intros os Hnd Hin.
  { exists []. cbn. split_and!; [done|done|by rewrite app_nil_r|done|done]. }
  cbn [keys map] in Hnd. apply NoDup_cons in Hnd as [Hnew Hnd]. cbn [remove_tun_routes foldl].
  pose proof (delete_effect c os Hc) as He. destruct (route_delete if_nametoindex c name os) as [r os1]. destruct He as (Hs & Hl & He). cbn [snd].
  assert (Hsame : forall b j, b <> target_key c \/ j <> idx -> counts os1 b j = counts os b j).
  { intros b j Hbj. destruct (is_ok r); [|unfold counts; by rewrite He]. destruct He as [_ He]. rewrite He.
    case_bool_decide; [|lia]. destruct (Z.eqb_spec j idx); [|unfold one; lia]. subst. by destruct Hbj. }
  assert (Hone : counts os1 (target_key c) idx = one (negb (is_ok r))).
  { pose proof (Hin c ltac:(apply elem_of_cons; by left)) as H1.
    destruct (is_ok r); [|unfold counts in *; by rewrite He]. destruct He as [_ He]. rewrite He, bool_decide_eq_true_2, Z.eqb_refl by done. cbn. lia. }
  destruct (IH os1 Hnd) as (acks & Hlen & Hs' & Hl' & Hown & Hrest).
  { intros c' Hc'. rewrite Hsame; [apply Hin, elem_of_cons; by right|]. left. intros E. apply Hnew. rewrite <-E. by apply list_elem_of_fmap_2. }
  exists (is_ok r :: acks). fold (remove_tun_routes if_nametoindex name routes os1). split; [cbn; by rewrite Hlen|]. cbv zeta. split_and!.
  - congruence.
  - rewrite Hl', Hl, <-app_assoc. done.
  - intros [|i] c' ok Hc' Hack; cbn in Hc', Hack; [|by eapply Hown]. injection Hc' as <-. injection Hack as <-. rewrite Hrest; [exact Hone|by left].
  - intros b j Hbj. cbn [keys map] in Hbj. rewrite elem_of_cons in Hbj. rewrite Hrest by tauto. apply Hsame. tauto.
Qed.

(** What is known when [installed] have routes, and [os0] was at first. *)
Record added (os0 : RouteOs) (installed : list (list byte)) (os : RouteOs) : Prop := {
  ad_own : forall c, c ∈ installed -> counts os (target_key c) idx = 1;
  ad_rest : forall b j, b ∉ keys installed -> counts os b j = counts os0 b j;
  ad_others : forall b j, j <> idx -> counts os0 b j - 1 <= counts os b j <= counts os0 b j;
}.
Lemma added_more os0 installed c os os1 : added os0 installed os -> target_key c ∉ keys installed ->
  counts os0 (target_key c) idx = 0 -> carried_out (NewRoute (target_key c) idx) (counts os) (counts os1) ->
  added os0 (installed ++ [c]) os1.
Proof.
  intros [Hown Hrest Hothers] Hnew H0 (replaced & Hrep & Ho). split.
  - intros c' [Hc' | ->%list_elem_of_singleton]%elem_of_app; rewrite Ho.
    + rewrite bool_decide_eq_false_2 by (intros E; apply Hnew; rewrite <-E; by apply list_elem_of_fmap_2). rewrite Hown by done. lia.
    + rewrite bool_decide_eq_true_2, Z.eqb_refl, Hrest, H0 by done.
      rewrite bool_decide_eq_false_2; [done|]. intros E. specialize (Hrep idx E). rewrite Hrest, H0 in Hrep by done. lia.
  - intros b j Hb. unfold keys in Hb. rewrite map_app, elem_of_app in Hb. cbn [map] in Hb. rewrite list_elem_of_singleton in Hb.
    rewrite Ho, bool_decide_eq_false_2 by tauto. rewrite Hrest by tauto. lia.
  - intros b j Hj. rewrite Ho. pose proof (Hothers b j Hj). case_bool_decide as Hb; [|lia]. subst b.
    rewrite (proj2 (Z.eqb_neq _ _)) by done. rewrite Hrest by done. unfold one. case_bool_decide; lia.
Qed.

(** What is left of the other blocks and interfaces after a roll-back. *)
Lemma added_left targets k os0 os1 os : NoDup (keys targets) -> (forall c, c ∈ targets -> counts os0 (target_key c) idx = 0) ->
  added os0 (take k targets) os1 ->
  (forall b j, b ∉ keys (take k targets) \/ j <> idx -> counts os b j = counts os1 b j) ->
  (forall b j, b ∉ keys targets -> counts os b j = counts os0 b j)
  /\ (forall b j, j <> idx -> counts os0 b j - 1 <= counts os b j <= counts os0 b j)
  /\ (forall c, c ∈ drop k targets -> counts os (target_key c) idx = 0).
Proof.
  intros Hnd H0 [_ Hrest Hothers] Hsame.
  assert (Hsub : forall b, b ∈ keys (take k targets) -> b ∈ keys targets).
  { intros b. rewrite <-(take_drop k targets) at 2. unfold keys. rewrite map_app, elem_of_app. tauto. }
  split_and!.
  - intros b j Hb. assert (b ∉ keys (take k targets)) by (intros Hin; by apply Hb, Hsub). rewrite Hsame by (by left). by apply Hrest.
  - intros b j Hj. rewrite Hsame by tauto. by apply Hothers.
  - intros c Hc. rewrite <-(take_drop k targets) in Hnd. unfold keys in Hnd. rewrite map_app, NoDup_app in Hnd. destruct Hnd as (_ & Hdis & _).
    assert (Hn : target_key c ∉ keys (take k targets)) by (intros Hin; apply (Hdis _ Hin), list_elem_of_fmap_2, Hc).
    rewrite Hsame, Hrest by tauto. apply H0. rewrite <-(take_drop k targets). apply elem_of_app. by right.
Qed.

Lemma install_effect os0 targets : forall installed os, Forall block_ok (installed ++ targets) -> NoDup (keys (installed ++ targets)) ->
  (forall c, c ∈ targets -> counts os0 (target_key c) idx = 0) -> added os0 installed os ->
  let '(r, os') := install_targets if_nametoindex name targets installed os in
  os_slept os' <= os_slept os + 1800 * zlen targets
  /\ match r with
     | Ok rs => rs = installed ++ targets /\ added os0 rs os'
     | _ => exists k os1 acks, (k < length targets)%nat /\ added os0 (installed ++ take k targets) os1
         /\ length acks = (length installed + k)%nat
         /\ os_sent os' = os_sent os1 ++ zip_with (fun c ok => (delete_request idx c, ok)) (installed ++ take k targets) acks
         /\ (forall i c ok, (installed ++ take k targets) !! i = Some c -> acks !! i = Some ok ->
               counts os' (target_key c) idx = one (negb ok))
         /\ (forall b j, b ∉ keys (installed ++ take k targets) \/ j <> idx -> counts os' b j = counts os1 b j)
     end.
Proof.
  induction targets as [|c targets IH]; intros installed os Hok Hnd H0 Hadd; cbn [install_targets].
  - rewrite app_nil_r. split; [unfold zlen; cbn [length]; lia|done].
  - assert (Hc : block_ok c) by (rewrite Forall_app, Forall_cons in Hok; tauto).
    pose proof (try_add_effect 10 c os Hc ltac:(lia)) as Ht. destruct (try_route_add if_nametoindex 10 c name os) as [r os1].
    destruct Ht as [Hs Ht]. rewrite zlen_cons. pose proof (zlen_nonneg targets).
    assert (Hi : Forall block_ok installed /\ NoDup (keys installed) /\ target_key c ∉ keys installed).
    { rewrite Forall_app in Hok. unfold keys in Hnd |- *. rewrite fmap_app, NoDup_app in Hnd. destruct Hnd as (N1 & N2 & _).
      split_and!; [tauto|done|]. intros Hin. apply (N2 _ Hin). cbn. apply elem_of_cons. by left. }
    destruct Hi as (Hi1 & Hi2 & Hi3). destruct (is_ok r) eqn:Er.
    + destruct r as [[]|?|?]; [|done..].
      pose proof (added_more os0 installed c os os1 Hadd Hi3 (H0 c ltac:(apply elem_of_cons; by left)) Ht) as Hadd1.
      specialize (IH (installed ++ [c]) os1). rewrite <-app_assoc in IH. cbn [app] in IH.
      specialize (IH Hok Hnd (fun c' Hc' => H0 c' ltac:(apply elem_of_cons; by right)) Hadd1).
      destruct (install_targets if_nametoindex name targets (installed ++ [c]) os1) as [r os2]. destruct IH as [Hs2 IH]. split; [lia|].
      destruct r as [rs|e|e]; [exact IH|..]; destruct IH as (k & os3 & acks & Hk & Ha & Hla & Hrest); exists (S k), os3, acks;
        cbn [take]; rewrite <-app_assoc in Ha, Hrest; cbn [app] in Ha, Hrest; (split; [cbn; lia|]);
        (split; [exact Ha|]); (split; [rewrite Hla, length_app; cbn; lia|exact Hrest]).
    + assert (Hadd1 : added os0 installed os1).
      { destruct Hadd as [A1 A2 A3]. split; unfold counts in *; rewrite Ht; done. }
      destruct (remove_effect installed os1 Hi1 Hi2 (ad_own _ _ _ Hadd1)) as (acks & Hl & Hs' & Hsent & Hown & Hrest).
      assert (Hgoal : os_slept (remove_tun_routes if_nametoindex name installed os1) <= os_slept os + 1800 * (1 + zlen targets)
        /\ exists k os2 acks, (k < length (c :: targets))%nat /\ added os0 (installed ++ take k (c :: targets)) os2
           /\ length acks = (length installed + k)%nat
           /\ os_sent (remove_tun_routes if_nametoindex name installed os1)
              = os_sent os2 ++ zip_with (fun c ok => (delete_request idx c, ok)) (installed ++ take k (c :: targets)) acks
           /\ (forall i c' ok, (installed ++ take k (c :: targets)) !! i = Some c' -> acks !! i = Some ok ->
                 counts (remove_tun_routes if_nametoindex name installed os1) (target_key c') idx = one (negb ok))
           /\ (forall b j, b ∉ keys (installed ++ take k (c :: targets)) \/ j <> idx ->
                 counts (remove_tun_routes if_nametoindex name installed os1) b j = counts os2 b j)).
      { split; [lia|]. exists 0%nat, os1, acks. cbn [take]. rewrite app_nil_r.
        split; [cbn; lia|]. split; [done|]. split; [lia|]. split; [done|]. split; [exact Hown|exact Hrest]. }
      destruct r as [?|?|?]; [done|exact Hgoal..].
Qed.
End Install.

Lemma targets_ok strict : Forall block_ok (tun_route_targets strict) /\ NoDup (keys (tun_route_targets strict)).
Proof.
  destruct strict; (split; [repeat constructor; (eexists _, _; split; [by vm_compute|vm_compute; split; done])|]).
  - vm_compute. apply NoDup_cons. split; [by rewrite list_elem_of_singleton|]. apply NoDup_singleton.
  - apply NoDup_singleton.
Qed.

(** C26.  The routes of the TUN inbound, on a device that has none yet.  Whatever the kernel
    refuses and however often, the program waits at most 3.6 seconds.  It reports success
    only when every block has its route.  When one is refused ten times, it asks once for
    the end of each route it had installed, and so does [close]; the answers to these
    requests are ignored, so that a route is gone exactly when its request was
    acknowledged, and stays otherwise.  No block but these is touched; but in each of them
    a route through another interface (a default route, without [strict_route]) may have
    been replaced, and is not put back. *)
Theorem tun_routes_transaction `{RouteKernel} if_nametoindex name idx strict os :
  if_nametoindex name = Some idx -> x00 ∉ name -> in_u32 idx ->
  (forall c, c ∈ tun_route_targets strict -> route_count (os_kernel os) (target_key c) idx = 0) ->
  let targets := tun_route_targets strict in
  let deletes_of l acks := zip_with (fun c ok => (delete_request idx c, ok)) l acks in
  let gone_if_acked l acks os := forall i c ok, l !! i = Some c -> acks !! i = Some ok ->
    route_count (os_kernel os) (target_key c) idx = one (negb ok) in
  let '(r, os') := install_tun_routes if_nametoindex name strict os in
  os_slept os' <= os_slept os + 3600
  /\ (forall b j, b ∉ keys targets -> route_count (os_kernel os') b j = route_count (os_kernel os) b j)
  /\ (forall b j, j <> idx ->
        route_count (os_kernel os) b j - 1 <= route_count (os_kernel os') b j <= route_count (os_kernel os) b j)
  /\ match r with
     | Ok rs =>
         rs = targets
         /\ (forall c, c ∈ targets -> route_count (os_kernel os') (target_key c) idx = 1)
         /\ let closed := remove_tun_routes if_nametoindex name rs os' in
            (forall b j, b ∉ keys targets \/ j <> idx ->
               route_count (os_kernel closed) b j = route_count (os_kernel os') b j)
            /\ exists acks, length acks = length targets
                 /\ os_sent closed = os_sent os' ++ deletes_of targets acks /\ gone_if_acked targets acks closed
     | _ =>
         exists k before acks, (k < length targets)%nat /\ length acks = k
           /\ os_sent os' = before ++ deletes_of (take k targets) acks /\ gone_if_acked (take k targets) acks os'
           /\ forall c, c ∈ drop k targets -> route_count (os_kernel os') (target_key c) idx = 0
     end.
Proof.
  intros Hn Ht Hi H0 targets deletes_of gone_if_acked. destruct (targets_ok strict) as [Hok Hnd].
  assert (Hadd : added idx os [] os) by (split; [by intros c ?%elem_of_nil|done|intros; lia]).
  pose proof (install_effect if_nametoindex name idx Hn Ht Hi os targets [] os Hok Hnd H0 Hadd) as He.
  unfold install_tun_routes. fold targets. destruct (install_targets if_nametoindex name targets [] os) as [r os'].
  destruct He as [Hs He]. cbn [app length] in He. assert (Hz : zlen targets <= 2) by (unfold targets; by destruct strict).
  split; [lia|]. destruct r as [rs|e|e].
  - destruct He as [-> [Hown Hrest Hothers]]. split; [exact Hrest|]. split; [exact Hothers|]. split; [done|]. split; [exact Hown|]. cbv zeta.
    destruct (remove_effect if_nametoindex name idx Hn Ht Hi targets os' Hok Hnd Hown) as (acks & Hl & _ & Hsent & Hgone & Hsame).
    split; [exact Hsame|]. by exists acks.
  - destruct He as (k & os1 & acks & Hk & Ha & Hl & Hsent & Hgone & Hsame).
    destruct (added_left idx targets k os os1 os' Hnd H0 Ha Hsame) as (L1 & L2 & L3). split_and!; [exact L1|exact L2|].
    by exists k, (os_sent os1), acks.
  - destruct He as (k & os1 & acks & Hk & Ha & Hl & Hsent & Hgone & Hsame).
    destruct (added_left idx targets k os os1 os' Hnd H0 Ha Hsame) as (L1 & L2 & L3). split_and!; [exact L1|exact L2|].
    by exists k, (os_sent os1), acks.
Qed.

(** The blocks together are all of IPv4; no IPv6 address is in any of them. *)
Lemma tun_routes_cover strict ip : ip_wf ip ->
  existsb (fun c => match route_cidr c with
                    | Ok (V4 net, p) => match ip with V4 a => a / 2 ^ (32 - p) =? net / 2 ^ (32 - p) | V6 _ => false end
                    | _ => false
                    end) (tun_route_targets strict)
  = match ip with V4 _ => true | V6 _ => false end.
Proof.
  intros Hw. destruct strict; cbn [tun_route_targets existsb].
  - change (route_cidr (str "0.0.0.0/1")) with (Ok (V4 0, 1)). change (route_cidr (str "128.0.0.0/1")) with (Ok (V4 (2 ^ 31), 1)).
    cbv match. destruct ip as [a|a]; [|done]. cbn in Hw. rewrite orb_false_r, orb_true_iff, !Z.eqb_eq.
    change (2 ^ (32 - 1)) with (2 ^ 31). Z.to_euclidean_division_equations. lia.
  - change (route_cidr (str "0.0.0.0/0")) with (Ok (V4 0, 0)). cbv match. destruct ip as [a|a]; [|done]. cbn in Hw.
    rewrite orb_false_r, Z.eqb_eq. change (2 ^ (32 - 0)) with (2 ^ 32). by rewrite !Z.div_small by lia.
Qed.

(** ** Flows *)

Section FlowFacts.
Context `{Regex}.
Variables (router : RuleRouter) (manager : OutboundManager).
Variable dial : Outbound -> SocketAddr -> option (list byte) -> result unit.
Variable dial_udp : Outbound -> SocketAddr -> result unit.
Variable dns_lookup : list byte -> result (list IpAddr).
Variable now : Z.

(** A TCP flow of the device.  It is routed by the name in its first bytes, if they
    have one, and dialled at the first address that name has now, whatever address the
    application connected to; without a name, at that address.  When the dial succeeds one
    entry is in the connection table, and the stream copied to the outbound holds what the
    application sent: the bytes read for sniffing first, nothing lost or repeated. *)
Theorem tun_tcp_flow src dst first rest process tag cm sniff :
  (forall o d dm, is_panic (dial o d dm) = false) -> (forall t, is_panic (manager_get manager t) = false) ->
  active cm !! next_id cm = None -> sniff_tcp first = Ok sniff ->
  let '(r, cm') := handle_tun_tcp router manager dial dns_lookup now src dst first rest process tag cm in
  let target := match sn_domain sniff with
                | None => Some dst
                | Some host => match dns_lookup host with
                               | Ok (ip :: _) => Some (mkSocketAddr ip (sa_port dst))
                               | _ => None
                               end
                end in
  match r with
  | Ok (remote, local) => exists to t, target = Some to
      /\ route router (tun_metadata Tcp src to sniff process tag) = Ok t
      /\ active cm' = <[next_id cm := conn_entry now (next_id cm) (tun_metadata Tcp src to sniff process tag) t to]> (active cm)
      /\ active (tracked_drop remote cm') = active cm
      /\ ps_remaining local = first ++ rest
  | _ => target = None -> cm' = cm
  end.
Proof.
  intros Hd Hm Hf Hs. unfold handle_tun_tcp, read_sniff_tcp. rewrite Hs. cbn [mbind result_bind].
  set (target := match sn_domain sniff with None => _ | Some _ => _ end).
  assert (Hres : match resolve_destination dns_lookup dst (sn_domain sniff) with Ok to => target = Some to | _ => target = None end).
  { unfold target, resolve_destination. destruct (sn_domain sniff) as [host|]; [|done].
    destruct (dns_lookup host) as [[|ip addrs]|e|e]; done. }
  destruct (resolve_destination dns_lookup dst (sn_domain sniff)) as [to|e|e]; cbn [mbind result_bind]; [|done..].
  pose proof (dialer_dial_tcp_tracks router manager dial now Hd Hm (tun_metadata Tcp src to sniff process tag) to cm Hf) as Ht.
  destruct (dialer_dial_tcp router manager dial now (tun_metadata Tcp src to sniff process tag) to cm) as [[ts|e|e] cm']; cbn [fmap result_fmap].
  - destruct Ht as (t & Hr & -> & Ha & Hdrop). exists to, t. split_and!; done.
  - rewrite Hres. done.
  - rewrite Hres. done.
Qed.

(** Queries of the machine's resolver are not sent to the server they are for.  The
    name inside a query to port 53 is taken for the flow's destination: the query goes to
    the first address of the host it asks about, and when that name does not resolve here
    it is dropped. *)
Theorem tun_dns_misdirected src dst id labels rest tag send : in_u16 id -> labels <> [] -> Forall label_ok labels -> sa_port dst = 53 ->
  let query := dns_query id labels rest in
  let r := handle_tun_udp router manager dial_udp dns_lookup src dst (Some query) tag send in
  match dns_lookup (join x2e labels) with
  | Ok (ip :: _) =>
      let to := mkSocketAddr ip 53 in
      let sniff := mkSniffResult (Some (join x2e labels)) (Some (if Z.shiftr id 14 =? 1 then str "dns" else str "quic")) in
      r = (ob ← dialer_dial_udp router manager dial_udp (tun_metadata Udp src to sniff (None, None) tag) to;
           Ok (if send ob query to then Some (ob, to) else None))
  | Ok [] => r = Err "dns lookup returned no addresses"
  | Err e => r = Err e
  | Panic e => r = Panic e
  end.
Proof.
  intros Hid Hne Hl Hp query r. unfold r, handle_tun_udp.
  destruct query as [|b q] eqn:Eq.
  { exfalso. unfold query, dns_query in Eq. apply app_nil in Eq as [Eq _]. apply (f_equal length) in Eq. rewrite length_app, length_be_encode in Eq. done. }
  rewrite <-Eq. unfold resolve_destination. rewrite Hp.
  pose proof (sniff_dns_query id labels rest Hid Hne Hl) as Hq. fold query in Hq. rewrite Hq. cbn [mbind result_bind sn_domain].
  by destruct (dns_lookup (join x2e labels)) as [[|ip addrs]|e|e].
Qed.
End FlowFacts.

(** ** Datagram flows *)

Definition app_sends (es : list flow_event) : list (list byte) :=
  omap (fun e => match e with FromApp (Some (b :: d)) true => Some (b :: d) | _ => None end) es.
Definition app_receives (es : list flow_event) : list (list byte) :=
  omap (fun e => match e with FromOutbound (Some (b :: d, _)) true => Some (b :: d) | _ => None end) es.
Definition app_stops (e : flow_event) : Prop :=
  match e with FromApp (Some (_ :: _)) sent => sent = false | FromApp _ _ => True | _ => False end.
Definition outbound_stops (e : flow_event) : Prop :=
  match e with FromOutbound None _ => True | FromOutbound (Some (_ :: _, _)) written => written = false | _ => False end.
#[local] Instance app_stops_dec e : Decision (app_stops e).
Proof. destruct e as [[[|b d]|] sent|[[[|b d] a]|] w]; cbn; apply _. Defined.
#[local] Instance outbound_stops_dec e : Decision (outbound_stops e).
Proof. destruct e as [[[|b d]|] sent|[[[|b d] a]|] w]; cbn; apply _. Defined.

Lemma flow_run_snoc first es e : flow_run first (es ++ [e]) = flow_step (flow_run first es) e.
Proof. unfold flow_run. by rewrite foldl_app. Qed.

(** A datagram flow.  As long as sending and receiving succeed, what the application
    sends goes out in order after the first datagram, and what comes back, from whichever
    address, is handed to the application in order.  The flow ends with an error of the
    outbound or of a write to the application, and with nothing else: when the application
    closes its end only the sending stops. *)
Theorem tun_udp_flow first es : Forall (fun e => ~ outbound_stops e) es ->
  let f := flow_run first es in
  uf_down f = true /\ uf_written f = app_receives es
  /\ (uf_up f = true <-> Forall (fun e => ~ app_stops e) es)
  /\ (uf_up f = true -> uf_sent f = first :: app_sends es)
  /\ forall e more, outbound_stops e ->
       let g := flow_run first (es ++ e :: more) in uf_up g = false /\ uf_down g = false /\ uf_written g = app_receives es.
Proof.
  intros Hes f.
  assert (Hinv : uf_down f = true /\ uf_written f = app_receives es /\ (uf_up f = true <-> Forall (fun e => ~ app_stops e) es)
                 /\ (uf_up f = true -> uf_sent f = first :: app_sends es)).
  { unfold f. clear f. induction es as [|e es IH] using rev_ind; [repeat split; (done || by constructor)|].
    apply Forall_app in Hes as [Hes He]. rewrite Forall_singleton in He. destruct (IH Hes) as (I1 & I2 & I3 & I4).
    rewrite flow_run_snoc. unfold app_sends, app_receives in *. rewrite !omap_app, Forall_app, Forall_singleton, <-I3, <-I2.
    destruct (flow_run first es) as [up down sent written]. cbn [uf_up uf_down uf_sent uf_written] in *. subst down.
    destruct e as [[[|b d]|] []|[[[|b d] a]|] []]; cbn [outbound_stops] in He; try tauto; destruct up;
      cbn [flow_step negb uf_up uf_down uf_sent uf_written omap list_omap app_stops app]; rewrite ?app_nil_r;
      (split_and!; [done|done|naive_solver|]); first [done|intros _; rewrite I4 by done; by rewrite ?app_nil_r]. }
  destruct Hinv as (I1 & I2 & I3 & I4). split_and!; [done..|].
  intros e more He g. unfold g. rewrite (app_assoc es [e] more : es ++ e :: more = _).
  unfold flow_run at 1 2 3. rewrite foldl_app. fold (flow_run first (es ++ [e])). rewrite flow_run_snoc. fold f.
  assert (Hdead : forall l fl, uf_up fl = false -> uf_down fl = false -> foldl flow_step fl l = fl).
  { induction l as [|x l IHl]; intros fl H1 H2; [done|]. cbn [foldl]. rewrite <-(IHl fl H1 H2) at 2. f_equal.
    destruct x; unfold flow_step; [by rewrite H1|by rewrite H2]. }
  rewrite Hdead; destruct f as [up down sent written]; cbn [uf_up uf_down uf_sent uf_written] in *; subst down;
    destruct e as [[[|b d]|] s|[[[|b d] a]|] w]; cbn in He; try done; subst; done.
Qed.

(** ** Transparent listeners *)

Lemma drop_take_mid (a b c : list byte) n m : length a = n -> length b = m -> take m (drop n (a ++ b ++ c)) = b.
Proof. intros <- <-. by rewrite drop_app_length, take_app_length. Qed.

(** What the kernel writes is read back, when it is asked in the family of the destination. *)
Lemma original_dest_read peer d v6 : sa_wf d -> v6 = match sa_ip d with V4 _ => false | V6 _ => true end ->
  (match sa_ip peer with V4 _ => false | V6 _ => true end) = v6 ->
  linux_original_dest peer (fun f => if bool_decide (f = v6) then Some (sockaddr_bytes d) else None) = Ok d.
Proof.
  intros [Hip Hport] -> Hp. unfold linux_original_dest. destruct d as [ip port]. cbn [sa_ip sa_port] in *.
  destruct (sa_ip peer) as [pa|pa]; destruct ip as [a|a]; try done; unfold sockaddr_bytes; cbn [sa_ip sa_port]; rewrite bool_decide_eq_true_2 by done; cbn [ok_or mbind result_bind].
  - set (tail := be_encode 4 a ++ replicate 8 x00).
    assert (E1 : take 2 (drop 2 (le_encode 2 AF_INET ++ be_encode 2 port ++ tail)) = be_encode 2 port)
      by (apply drop_take_mid; [done|apply length_be_encode]).
    assert (E2 : take 4 (drop 4 (le_encode 2 AF_INET ++ be_encode 2 port ++ tail)) = be_encode 4 a).
    { unfold tail. rewrite app_assoc. apply drop_take_mid; [rewrite length_app, length_be_encode; done|apply length_be_encode]. }
    by rewrite E1, E2, !be_decode_encode.
  - set (tail := replicate 4 x00 ++ be_encode 16 a ++ replicate 4 x00).
    assert (E1 : take 2 (drop 2 (le_encode 2 AF_INET6 ++ be_encode 2 port ++ tail)) = be_encode 2 port)
      by (apply drop_take_mid; [done|apply length_be_encode]).
    assert (E2 : take 16 (drop 8 (le_encode 2 AF_INET6 ++ be_encode 2 port ++ tail)) = be_encode 16 a).
    { unfold tail. rewrite app_assoc, (app_assoc (_ ++ _)).
      apply drop_take_mid; [rewrite !length_app, length_be_encode; done|apply length_be_encode]. }
    by rewrite E1, E2, !be_decode_encode.
Qed.

(** When the lookup fails the connection is dialled back to the client's own address. *)
Lemma redirect_dials_back `{Regex} router manager dial dns_lookup now w peer tag process cm e :
  handle_redirect_stream router manager dial dns_lookup now w peer tag (Err e) process cm
  = handle_redirect_stream router manager dial dns_lookup now w peer tag (Ok peer) process cm.
Proof. done. Qed.

(** A client in the IPv6 form of an IPv4 address is such a case: the lookup is made in the
    other family. *)
Example mapped_client_dials_back d a : let peer := mkSocketAddr (V6 (65535 * 2 ^ 32 + a)) 40000 in
  transparent_dest peer (linux_original_dest peer (fun v6 => if v6 then None else Some (sockaddr_bytes d))) = peer.
Proof. done. Qed.

(** ** Witnesses *)

(** A kernel with one route for a block, and the error numbers it will answer with first. *)
Definition toy_kernel_apply (op : RtOp) (table : gmap Block Z) : option (gmap Block Z) :=
  match op with
  | NewRoute b i => Some (<[b := i]> table)
  | DelRoute b i => if bool_decide (table !! b = Some i) then Some (delete b table) else None
  end.
Definition toy_netlink (req : list byte) (k : gmap Block Z * list Z) : option (list byte) * (gmap Block Z * list Z) :=
  let errno := default 0 (head k.2) `mod` 2 ^ 31 in
  match (if errno =? 0 then op ← rt_meaning req; toy_kernel_apply op k.1 else None) with
  | Some table => (Some (netlink_ack 0), (table, tail k.2))
  | None => (None, k)
  end.
Definition toy_count (k : gmap Block Z * list Z) (b : Block) (i : Z) : Z := one (bool_decide (k.1 !! b = Some i)).
Definition toy_kernel : RouteKernel.
Proof.
  refine {| kernel := gmap Block Z * list Z; netlink := toy_netlink; route_count := toy_count |}.
  - intros k b i. unfold toy_count, one. by case_bool_decide.
  - intros req op [table refusals] Hop. unfold toy_netlink. rewrite Hop. cbn [fst snd mbind option_bind].
    destruct (_ =? 0); [|done]. destruct op as [b i|b i]; cbn [toy_kernel_apply].
    + exists 0. split; [lia|]. split; [done|]. cbn [Z.eqb]. exists (table !! b). split.
      { intros j Hj. unfold toy_count. cbn [fst]. by rewrite bool_decide_eq_true_2. }
      intros b' j. unfold toy_count. cbn [fst]. destruct (decide (b' = b)) as [->|Hne].
      * rewrite lookup_insert_eq, (bool_decide_eq_true_2 (b = b)) by done. rewrite Z.eqb_sym.
        rewrite (bool_decide_ext _ (i = j)) by naive_solver. destruct (Z.eqb_spec i j); case_bool_decide; by try lia.
      * rewrite lookup_insert_ne, (bool_decide_eq_false_2 (b' = b)) by done. lia.
    + case_bool_decide as Hin; [|done]. exists 0. split; [lia|]. split; [done|]. cbn [Z.eqb]. unfold toy_count. cbn [fst].
      cbn [carried_out]. rewrite (bool_decide_eq_true_2 (table !! b = Some i)) by done. split; [done|]. intros b' j. destruct (decide (b' = b)) as [->|Hne].
      * rewrite lookup_delete_eq, Hin, (bool_decide_eq_true_2 (b = b)), (bool_decide_eq_false_2 (None = _)) by done. rewrite Z.eqb_sym.
        rewrite (bool_decide_ext _ (i = j)) by naive_solver. destruct (Z.eqb_spec i j); case_bool_decide; by try lia.
      * rewrite lookup_delete_ne, (bool_decide_eq_false_2 (b' = b)) by done. lia.
Defined.

Definition demo_ifindex : list byte -> option Z := fun _ => Some 7.
Definition demo_route_os : RouteOs (H := toy_kernel) :=
  mkRouteOs toy_kernel 0 ({[ target_key (str "0.0.0.0/0") := 2 ]}, []) [].
Lemma tun_routes_transaction_witness :
  let r := install_tun_routes (H := toy_kernel) demo_ifindex (str "tun0") false demo_route_os in
  r.1 = Ok [str "0.0.0.0/0"]
  /\ toy_count (os_kernel (H := toy_kernel) r.2) (target_key (str "0.0.0.0/0")) 7 = 1
  /\ toy_count (os_kernel (H := toy_kernel) r.2) (target_key (str "0.0.0.0/0")) 2 = 0.
Proof.
  pose proof (tun_routes_transaction (H := toy_kernel) demo_ifindex (str "tun0") 7 false demo_route_os) as H.
  cbv zeta in H |- *. destruct (install_tun_routes _ _ _ _) as [r os'] eqn:E.
  assert (Hr : r = Ok [str "0.0.0.0/0"] /\ toy_count (os_kernel (H := toy_kernel) os') (target_key (str "0.0.0.0/0")) 2 = 0).
  { split; [apply (f_equal fst) in E; vm_compute in E; by rewrite <-E|].
    apply (f_equal (fun p => toy_count (os_kernel (H := toy_kernel) p.2) (target_key (str "0.0.0.0/0")) 2)) in E. by vm_compute in E. }
  destruct Hr as [-> Hs]. destruct H as (_ & _ & _ & _ & Hk & _).
  - done.
  - change (str "tun0") with [x74; x75; x6e; x30]. rewrite !elem_of_cons, elem_of_nil. naive_solver.
  - vm_compute. done.
  - intros c Hc. cbn [tun_route_targets] in Hc. apply list_elem_of_singleton in Hc as ->. by vm_compute.
  - split_and!; [done| |done]. cbn [fst snd]. apply Hk. cbn [tun_route_targets]. by apply list_elem_of_singleton.
Defined.

Definition demo_get : list byte := str "GET / HTTP/1.1" ++ [x0d; x0a] ++ str "Host: example.com" ++ [x0d; x0a; x0d; x0a].
Definition demo_tun_flow :=
  handle_tun_tcp (H := no_regex) (mkRuleRouter [] (str "proxy") ∅) leak_manager (fun _ _ _ => Ok tt) (fun _ => Ok [V4 16843009]) 0
    demo_peer (mkSocketAddr (V4 134744072) 80) demo_get (str "more") (None, None) (str "tun") (with_registry new_registry).
Lemma tun_tcp_flow_witness : exists remote local cm', demo_tun_flow = (Ok (remote, local), cm')
  /\ ps_remaining local = demo_get ++ str "more" /\ active (tracked_drop remote cm') = ∅.
Proof.
  pose proof (tun_tcp_flow (H := no_regex) (mkRuleRouter [] (str "proxy") ∅) leak_manager (fun _ _ _ => Ok tt) (fun _ => Ok [V4 16843009]) 0
    demo_peer (mkSocketAddr (V4 134744072) 80) demo_get (str "more") (None, None) (str "tun") (with_registry new_registry)
    (mkSniffResult (Some (str "example.com")) (Some (str "http"))) ltac:(done) leak_manager_safe ltac:(done) ltac:(by vm_compute)) as H.
  fold demo_tun_flow in H. destruct demo_tun_flow as [r cm'] eqn:E.
  assert (Hr : is_ok r = true) by (apply (f_equal (fun p => is_ok p.1)) in E; vm_compute in E; symmetry; exact E).
  destruct r as [[remote local]|e|e]; [|done..]. exists remote, local, cm'. destruct H as (to & t & _ & _ & _ & Ha & Hs). done.
Defined.

Lemma tun_dns_misdirected_witness :
  handle_tun_udp (H := no_regex) (mkRuleRouter [] (str "proxy") ∅) leak_manager (fun _ _ => Ok tt) (fun _ => Ok [V4 1572395042])
    demo_peer (mkSocketAddr (V4 134744072) 53) (Some (dns_query 4660 [str "example"; str "com"] [x00; x01; x00; x01])) (str "tun") (fun _ _ _ => true)
  = Ok (Some (mkOutbound (str "proxy") (Leaf (str "vless")), mkSocketAddr (V4 1572395042) 53)).
Proof.
  pose proof (tun_dns_misdirected (H := no_regex) (mkRuleRouter [] (str "proxy") ∅) leak_manager (fun _ _ => Ok tt) (fun _ => Ok [V4 1572395042])
    demo_peer (mkSocketAddr (V4 134744072) 53) 4660 [str "example"; str "com"] [x00; x01; x00; x01] (str "tun") (fun _ _ _ => true)
    ltac:(done) ltac:(done) ltac:(by repeat constructor) eq_refl) as H.
  cbv beta match zeta in H. rewrite H. by vm_compute.
Defined.

Lemma tun_udp_flow_witness :
  uf_written (flow_run (str "q") [FromApp (Some (str "r")) true; FromOutbound (Some (str "a", demo_peer)) true; FromApp None true;
    FromOutbound (Some (str "b", demo_peer)) true]) = [str "a"; str "b"].
Proof.
  refine (proj1 (proj2 (tun_udp_flow (str "q") [FromApp (Some (str "r")) true; FromOutbound (Some (str "a", demo_peer)) true; FromApp None true;
    FromOutbound (Some (str "b", demo_peer)) true] _))).
  repeat constructor; cbn; intros ?; done.
Defined.
