(* ===== verification/Listener.v ===== *)
(** * The listener of the mixed inbound

    [MixedInbound::start] and [close] of [rsb-protocol/src/inbound_proxy.rs]: the socket that
    is made, the loop that accepts, and the two limits every connection passes: the counter
    of active connections ([Dial] has its atomic operations) and the permits for
    handshakes; with the helpers that end a connection.  What a connection does once it has
    a permit is in [Inbound]. *)
From stdpp Require Import base tactics list strings.
From Stdlib Require Import ZArith Lia.
From Stdlib Require Import Strings.Byte.
From S2P Require Import Prelude Json Text Ip Dial Inbound Engine.

Local Open Scope Z_scope.

(** ** The socket *)

Definition TCP_FASTOPEN : Z := 23.
Definition MPTCP_ENABLED : Z := 42.
(** [setsockopt]: level, option, value; [IPPROTO_TCP] is 6 and [SOL_SOCKET] 1. *)
Record SockOpt := mkSockOpt {
  so_level : Z;
  so_name : Z;
  so_value : Z;
}.
(** The options of the listening socket on Linux, in order. *)
Definition listen_options (cfg : MixedCfg) : list SockOpt :=
  (if mx_tcp_fast_open cfg then [mkSockOpt 6 TCP_FASTOPEN 256] else [])
  ++ (if mx_tcp_multi_path cfg then [] else [mkSockOpt 6 MPTCP_ENABLED 0])
  ++ [mkSockOpt 1 2 1; mkSockOpt 1 9 1; mkSockOpt 6 4 60; mkSockOpt 6 5 10].
(** The options of an accepted one ([tune_accepted_stream]): no delay, keep-alive after 15
    seconds, every 5, three times; and lingering for no time. *)
Definition accepted_options : list SockOpt :=
  [mkSockOpt 6 1 1; mkSockOpt 1 9 1; mkSockOpt 6 4 15; mkSockOpt 6 5 5; mkSockOpt 6 6 3; mkSockOpt 1 13 0].
(** The socket is made for IPv4, so an address of the other family cannot be bound to it. *)
Definition mixed_bind (free : SocketAddr -> bool) (cfg : MixedCfg) : result (list SockOpt) :=
  match sa_ip (mx_listen cfg) with
  | V4 _ => if free (mx_listen cfg) then Ok (listen_options cfg) else Err "address in use"
  | V6 _ => Err "address family not supported"
  end.

(** ** Connections *)

Definition MAX_CONCURRENT_INBOUND : Z := 256.
Definition INBOUND_ACQUIRE_TIMEOUT : Z := 2000.

(** The task of a connection: spawned by the accept loop; waiting for a permit since a time;
    with a permit; without it again, relaying or about to end; refused, while it is sent
    the answer 503 and its stream is closed.  All of them hold a guard of the counter. *)
Inductive conn_phase := Spawned | Waiting (since : Z) | Handshake | Relaying | Refusing.
(** The connections that hold a guard; those that have asked for a permit are in the order
    in which they asked, in which the semaphore serves them. *)
Record Listener := mkListener {
  ln_accepting : bool;
  ln_now : Z;
  ln_permits : Z;
  ln_conns : list conn_phase;
}.
Definition listener_new (now : Z) : Listener := mkListener true now MAX_CONCURRENT_INBOUND [].

Definition is_waiting (p : conn_phase) : bool := match p with Waiting _ => true | _ => false end.
Definition is_handshake (p : conn_phase) : bool := match p with Handshake => true | _ => false end.
(** A permit that comes back goes to the first that waits. *)
Fixpoint grant_first (conns : list conn_phase) : option (list conn_phase) :=
  match conns with
  | [] => None
  | Waiting _ :: conns => Some (Handshake :: conns)
  | p :: conns => cons p <$> grant_first conns
  end.
Definition give_back (permits : Z) (conns : list conn_phase) : Z * list conn_phase :=
  match grant_first conns with
  | Some conns => (permits, conns)
  | None => (permits + 1, conns)
  end.

(** The accept loop takes a connection; a task asks for its permit, sees the deadline of
    [INBOUND_ACQUIRE_TIMEOUT], gives its permit back ([release_handshake_permit], or the
    drop after [handle_client]), ends; time passes; [close]. *)
Inductive listener_event :=
| Accept
| Ask (i : nat)
| TimeoutAt (i : nat)
| Release (i : nat)
| Finish (i : nat)
| Tick (ms : Z)
| CloseListener.
(** What the client sees. *)
Inductive answer := ResetAtCap | Saturated503 | Quiet.

(** One step; [None] when it cannot happen.  A deadline is seen at some time after it has
    come, and a refused connection keeps its guard until it ends. *)
Definition listener_step (l : Listener) (e : listener_event) : option (Listener * answer) :=
  match l with
  | mkListener accepting now permits conns =>
    match e with
    | Accept =>
        if negb accepting then None
        else if MAX_ACTIVE_CONNECTIONS <=? zlen conns then Some (l, ResetAtCap)
        else Some (mkListener true now permits (conns ++ [Spawned]), Quiet)
    | Ask i =>
        match conns !! i with
        | Some Spawned =>
            if 0 <? permits then Some (mkListener accepting now (permits - 1) (delete i conns ++ [Handshake]), Quiet)
            else Some (mkListener accepting now permits (delete i conns ++ [Waiting now]), Quiet)
        | _ => None
        end
    | TimeoutAt i =>
        match conns !! i with
        | Some (Waiting since) =>
            if since + INBOUND_ACQUIRE_TIMEOUT <=? now
            then Some (mkListener accepting now permits (<[i := Refusing]> conns), Saturated503) else None
        | _ => None
        end
    | Release i =>
        match conns !! i with
        | Some Handshake =>
            let '(permits, conns) := give_back permits (<[i := Relaying]> conns) in
            Some (mkListener accepting now permits conns, Quiet)
        | _ => None
        end
    | Finish i =>
        match conns !! i with
        | Some Relaying | Some Refusing => Some (mkListener accepting now permits (delete i conns), Quiet)
        | _ => None
        end
    | Tick ms => if 0 <=? ms then Some (mkListener accepting (now + ms) permits conns, Quiet) else None
    | CloseListener => Some (mkListener false now permits conns, Quiet)
    end
  end.
Fixpoint listener_run (es : list listener_event) (l : Listener) : option Listener :=
  match es with
  | [] => Some l
  | e :: es => '(l, _) ← listener_step l e; listener_run es l
  end.

(** ** Endings *)

Definition INBOUND_DRAIN_TIMEOUT : Z := 50.
(** [close_inbound_stream]: reads that yield something, each within 20 milliseconds, all
    within 50; the pairs are the time a read takes and whether it yields bytes.  How long it
    takes. *)
Fixpoint drain_ms (elapsed : Z) (reads : list (Z * bool)) : Z :=
  match reads with
  | [] => Z.min (elapsed + 20) INBOUND_DRAIN_TIMEOUT
  | (ms, more) :: reads =>
      if 20 <=? ms then Z.min (elapsed + 20) INBOUND_DRAIN_TIMEOUT
      else if INBOUND_DRAIN_TIMEOUT <=? elapsed + ms then INBOUND_DRAIN_TIMEOUT
      else if more then drain_ms (elapsed + ms) reads
      else elapsed + ms
  end.
Inductive PeekOutcome := PeekBytes (n : Z) | PeekGone | PeekError | PeekTimeout.
(** [client_is_closed]: the end of the stream and a broken connection, not other errors. *)
Definition client_is_closed (p : PeekOutcome) : bool :=
  match p with PeekBytes n => n =? 0 | PeekGone => true | PeekError | PeekTimeout => false end.

(** ** Limits *)

Definition handshakes (conns : list conn_phase) : Z := foldr (fun p n => (if is_handshake p then 1 else 0) + n) 0 conns.
Lemma handshakes_app a b : handshakes (a ++ b) = handshakes a + handshakes b.
Proof. unfold handshakes. induction a as [|p a IH]; [done|]. cbn [app foldr]. rewrite IH. lia. Qed.
Lemma handshakes_cons p l : handshakes (p :: l) = (if is_handshake p then 1 else 0) + handshakes l.
Proof. done. Qed.
Lemma handshakes_nonneg conns : 0 <= handshakes conns.
Proof. induction conns as [|p conns IH]; [done|]. rewrite handshakes_cons. destruct (is_handshake p); lia. Qed.

Definition asked_before (now : Z) (p : conn_phase) : Prop := match p with Waiting since => since <= now | _ => True end.
Record listener_ok (l : Listener) : Prop := {
  lo_permits : ln_permits l + handshakes (ln_conns l) = MAX_CONCURRENT_INBOUND;
  lo_nonneg : 0 <= ln_permits l;
  lo_cap : zlen (ln_conns l) <= MAX_ACTIVE_CONNECTIONS;
  lo_waiting : 0 < ln_permits l -> Forall (fun p => is_waiting p = false) (ln_conns l);
  lo_time : Forall (asked_before (ln_now l)) (ln_conns l);
}.

Lemma grant_first_spec conns : match grant_first conns with
  | Some conns' => exists a s b, conns = a ++ Waiting s :: b /\ conns' = a ++ Handshake :: b
      /\ Forall (fun p => is_waiting p = false) a
  | None => Forall (fun p => is_waiting p = false) conns
  end.
Proof.
  induction conns as [|p conns IH]; [by constructor|]. destruct p as [|s| | |]; cbn [grant_first]; [|by exists [], s, conns; repeat constructor|..].
  all: destruct (grant_first conns) as [c|]; cbn [fmap option_fmap option_map].
  all: try (by constructor).
  all: destruct IH as (a & s & b & -> & -> & Ha); eexists (_ :: a), s, b; repeat split; by constructor.
Qed.

(** Giving a permit back keeps the balance: one more permit than before is out or free. *)
Lemma give_back_ok accepting now permits conns :
  permits + handshakes conns = MAX_CONCURRENT_INBOUND - 1 -> 0 <= permits -> zlen conns <= MAX_ACTIVE_CONNECTIONS ->
  (0 < permits -> Forall (fun p => is_waiting p = false) conns) -> Forall (asked_before now) conns ->
  let '(permits', conns') := give_back permits conns in listener_ok (mkListener accepting now permits' conns').
Proof.
  intros Hp Hn Hc Hw Ht. unfold give_back. pose proof (grant_first_spec conns) as Hg. destruct (grant_first conns) as [c|].
  - destruct Hg as (a & s & b & -> & -> & _). apply Forall_app in Ht as [Ha Ht]. apply Forall_cons in Ht as [_ Hb].
    split; cbn [ln_permits ln_conns ln_now].
    + rewrite handshakes_app, handshakes_cons in *. cbn [is_handshake] in *. lia.
    + done.
    + rewrite zlen_app, zlen_cons in *. done.
    + intros H0. specialize (Hw H0). apply Forall_app in Hw as [_ Hw]. apply Forall_cons in Hw as [Hw _]. done.
    + apply Forall_app. split; [done|]. by constructor.
  - split; cbn [ln_permits ln_conns ln_now]; [lia|lia|done|done|done].
Qed.

(** A connection among the others: what taking it out or changing it leaves. *)
Lemma conn_split (conns : list conn_phase) i p : conns !! i = Some p ->
  exists x y, conns = x ++ p :: y /\ delete i conns = x ++ y /\ forall q, <[i := q]> conns = x ++ q :: y.
Proof.
  intros Hi. exists (take i conns), (drop (S i) conns). split; [symmetry; by apply take_drop_middle|]. split; [apply delete_take_drop|].
  intros q. apply insert_take_drop. by eapply lookup_lt_Some.
Qed.
Ltac conn_parts :=
  rewrite ?handshakes_app, ?handshakes_cons, ?zlen_app, ?zlen_cons, ?Forall_app, ?Forall_cons, ?Forall_nil in *;
  cbn [is_handshake is_waiting asked_before] in *; change (handshakes []) with 0 in *; change (zlen []) with 0 in *.

Lemma listener_step_ok l e l' a : listener_step l e = Some (l', a) -> listener_ok l -> listener_ok l'.
Proof.
  destruct l as [acc now permits conns]. intros Hs [Hp Hn Hc Hw Ht]. cbn [ln_permits ln_conns ln_now] in *.
  destruct e as [|i|i|i|i|ms|]; cbn [listener_step] in Hs.
  - destruct acc; [|done]. cbn [negb] in Hs. destruct (MAX_ACTIVE_CONNECTIONS <=? zlen conns) eqn:E1; injection Hs as <- <-; [by split|].
    apply Z.leb_gt in E1. split; cbn [ln_permits ln_conns ln_now]; conn_parts; try lia; tauto.
  - destruct (conns !! i) as [[| | | |]|] eqn:Ei; try done. destruct (conn_split _ _ _ Ei) as (x & y & -> & Hdel & _). rewrite Hdel in Hs.
    destruct (0 <? permits) eqn:E2; injection Hs as <- <-; [apply Z.ltb_lt in E2|apply Z.ltb_ge in E2];
      (split; cbn [ln_permits ln_conns ln_now]; conn_parts; try lia); split_and?; try tauto; try lia.
  - destruct (conns !! i) as [[|since| | |]|] eqn:Ei; try done. destruct (since + INBOUND_ACQUIRE_TIMEOUT <=? now); [|done].
    destruct (conn_split _ _ _ Ei) as (x & y & -> & _ & Hins). rewrite Hins in Hs. injection Hs as <- <-.
    split; cbn [ln_permits ln_conns ln_now]; conn_parts; try lia; tauto.
  - destruct (conns !! i) as [[| | | |]|] eqn:Ei; try done. destruct (conn_split _ _ _ Ei) as (x & y & -> & _ & Hins). rewrite Hins in Hs.
    pose proof (give_back_ok acc now permits (x ++ Relaying :: y)) as Hg.
    destruct (give_back permits (x ++ Relaying :: y)) as [permits' conns']. injection Hs as <- <-.
    apply Hg; conn_parts; try lia; tauto.
  - destruct (conns !! i) as [[| | | |]|] eqn:Ei; try done; destruct (conn_split _ _ _ Ei) as (x & y & -> & Hdel & _); rewrite Hdel in Hs;
      injection Hs as <- <-; split; cbn [ln_permits ln_conns ln_now]; conn_parts; try lia; tauto.
  - destruct (0 <=? ms) eqn:E; [|done]. injection Hs as <- <-. apply Z.leb_le in E.
    split; cbn [ln_permits ln_conns ln_now]; [done..|]. eapply Forall_impl; [exact Ht|]. intros [] Hin; cbn in *; lia || done.
  - injection Hs as <- <-. by split.
Qed.

Lemma listener_run_ok es : forall l l', listener_run es l = Some l' -> listener_ok l -> listener_ok l'.
Proof.
  induction es as [|e es IH]; intros l l' Hr Hl; cbn [listener_run] in Hr; [by injection Hr as <-|].
  destruct (listener_step l e) as [[l1 a]|] eqn:E; [|done]. cbn in Hr. eauto using listener_step_ok.
Qed.

(** C27.  The limits of the listener, in every run of the accept loop and the tasks it
    spawns.  At most 512 connections hold a guard, among them those that are being refused,
    and 256 permits are free or held.  The loop resets a new connection exactly when 512 hold
    a guard.  A connection that asks for a permit gets one unless 256 are held, however many
    tunnels are open, and waits only while 256 are held: then a permit that is given back
    goes straight to the one that has asked first.  A connection is refused with 503 only
    after it has waited two seconds, and keeps its guard until the answer is sent and its
    stream is closed. *)
Theorem listener_limits now es l : listener_run es (listener_new now) = Some l ->
  let held := handshakes (ln_conns l) in
  zlen (ln_conns l) <= 512 /\ ln_permits l + held = 256 /\ 0 <= held <= 256
  /\ (ln_accepting l = true ->
        exists l' a, listener_step l Accept = Some (l', a) /\ (a = ResetAtCap <-> zlen (ln_conns l) = 512)
          /\ ln_conns l' = if zlen (ln_conns l) =? 512 then ln_conns l else ln_conns l ++ [Spawned])
  /\ (forall i, ln_conns l !! i = Some Spawned ->
        exists l', listener_step l (Ask i) = Some (l', Quiet)
          /\ ln_conns l' = delete i (ln_conns l) ++ [if held <? 256 then Handshake else Waiting (ln_now l)])
  /\ (forall i since, ln_conns l !! i = Some (Waiting since) ->
        held = 256 /\ since <= ln_now l
        /\ (forall j, ln_conns l !! j = Some Handshake ->
              exists l' a s b, listener_step l (Release j) = Some (l', Quiet) /\ <[j := Relaying]> (ln_conns l) = a ++ Waiting s :: b
                /\ Forall (fun p => is_waiting p = false) a /\ ln_conns l' = a ++ Handshake :: b)
        /\ listener_step l (TimeoutAt i)
           = if since + 2000 <=? ln_now l
             then Some (mkListener (ln_accepting l) (ln_now l) (ln_permits l) (<[i := Refusing]> (ln_conns l)), Saturated503) else None).
Proof.
  intros Hr held. assert (Hok : listener_ok l).
  { apply (listener_run_ok es _ _ Hr). split; cbn; [done|done|done|by constructor|by constructor]. }
  destruct l as [acc tm permits conns]. destruct Hok as [Hp Hn Hc Hw Ht].
  unfold MAX_ACTIVE_CONNECTIONS, MAX_CONCURRENT_INBOUND in *. cbn [ln_permits ln_conns ln_now ln_accepting] in *.
  fold held in Hp. pose proof (handshakes_nonneg conns) as H0. fold held in H0.
  split; [done|]. split; [lia|]. split; [lia|]. split; [|split].
  - intros ->. cbn [listener_step negb]. unfold MAX_ACTIVE_CONNECTIONS. destruct (512 <=? zlen conns) eqn:E1; [apply Z.leb_le in E1|apply Z.leb_gt in E1].
    + eexists _, _. split; [done|]. rewrite (proj2 (Z.eqb_eq _ _)) by lia. split; [|done]. split; [lia|done].
    + eexists _, _. split; [done|]. rewrite (proj2 (Z.eqb_neq _ _)) by lia. split; [|done]. split; [done|lia].
  - intros i Hi. cbn [listener_step]. rewrite Hi. destruct (0 <? permits) eqn:E; [apply Z.ltb_lt in E|apply Z.ltb_ge in E].
    + rewrite (proj2 (Z.ltb_lt held 256)) by lia. by eexists.
    + rewrite (proj2 (Z.ltb_ge held 256)) by lia. by eexists.
  - intros i since Hi. assert (Hz : permits = 0).
    { destruct (decide (0 < permits)) as [Hz|]; [|lia]. specialize (Hw Hz). rewrite Forall_forall in Hw.
      specialize (Hw _ (list_elem_of_lookup_2 _ _ _ Hi)). done. }
    rewrite Forall_forall in Ht. pose proof (Ht _ (list_elem_of_lookup_2 _ _ _ Hi)) as Hti. cbn in Hti.
    split; [lia|]. split; [done|]. split; [|cbn [listener_step]; by rewrite Hi].
    intros j Hj. cbn [listener_step]. rewrite Hj. unfold give_back.
    pose proof (grant_first_spec (<[j := Relaying]> conns)) as Hg. destruct (grant_first (<[j := Relaying]> conns)) as [c|].
    + destruct Hg as (a & s & b & Hins & -> & Ha). by exists (mkListener acc tm permits (a ++ Handshake :: b)), a, s, b.
    + rewrite Forall_forall in Hg. specialize (Hg (Waiting since)). exfalso. cut (true = false); [done|]. apply Hg.
      apply list_elem_of_lookup. exists i. rewrite list_lookup_insert_ne; [done|]. intros ->. congruence.
Qed.

(** [close] stops accepting and leaves the connections as they are. *)
Lemma close_keeps_connections l : exists l', listener_step l CloseListener = Some (l', Quiet)
  /\ ln_conns l' = ln_conns l /\ listener_step l' Accept = None.
Proof. destruct l. by eexists. Qed.

(** The drain takes no longer than its deadline, whatever the client sends. *)
Lemma drain_bounded reads : forall elapsed, 0 <= elapsed <= INBOUND_DRAIN_TIMEOUT -> Forall (fun r => 0 <= r.1) reads ->
  elapsed <= drain_ms elapsed reads <= INBOUND_DRAIN_TIMEOUT.
Proof.
  unfold INBOUND_DRAIN_TIMEOUT. induction reads as [|[ms more] reads IH]; intros elapsed He Hr; cbn [drain_ms]; unfold INBOUND_DRAIN_TIMEOUT; [lia|].
  apply Forall_cons in Hr as [H0 Hr]. cbn in H0. destruct (20 <=? ms) eqn:E1; [lia|]. destruct (50 <=? elapsed + ms) eqn:E2; [lia|]. apply Z.leb_gt in E2.
  destruct more; [|lia]. specialize (IH (elapsed + ms) ltac:(lia) Hr). lia.
Qed.

(** An IPv6 address to listen on is refused, whatever else is configured. *)
Lemma mixed_bind_v4_only free cfg opts : mixed_bind free cfg = Ok opts -> exists a, sa_ip (mx_listen cfg) = V4 a.
Proof. unfold mixed_bind. destruct (sa_ip (mx_listen cfg)) as [a|a]; [by exists a|done]. Qed.

(** ** Witness *)

Definition demo_listener_run : list listener_event := replicate 257 Accept ++ replicate 257 (Ask 0) ++ [Tick 2000].
Lemma listener_limits_witness : exists l, listener_run demo_listener_run (listener_new 0) = Some l
  /\ listener_step l (TimeoutAt 256) = Some (mkListener true 2000 0 (replicate 256 Handshake ++ [Refusing]), Saturated503).
Proof.
  eexists (mkListener true 2000 0 (replicate 256 Handshake ++ [Waiting 0])).
  assert (Hr : listener_run demo_listener_run (listener_new 0) = Some (mkListener true 2000 0 (replicate 256 Handshake ++ [Waiting 0])))
    by (by vm_compute).
  split; [exact Hr|].
  destruct (listener_limits 0 _ _ Hr) as (_ & _ & _ & _ & _ & Hwait).
  destruct (Hwait 256%nat 0 ltac:(by vm_compute)) as (_ & _ & _ & Hd). rewrite Hd. by vm_compute.
Defined.
