(* ===== verification/WireGuard.v ===== *)
(** * WireGuard

    [rsb-wireguard/src/lib.rs]: the configuration, which peer a packet of the device goes to,
    which peer a datagram is from, and where datagrams are sent; with [endpoints.rs] and the
    part of [tailscale_embedded.rs] that completes a configuration.

    The protocol itself is the boringtun crate, an argument ([Boringtun]); the clock and the
    random numbers it uses belong to the state of a tunnel.  The peers are a hash map, which
    is visited in an order that is arbitrary but stays the same while no key is added or
    removed: here a list. *)
From stdpp Require Import base tactics gmap list strings.
From Stdlib Require Import ZArith Lia.
From Stdlib Require Import Strings.Byte.
From S2P Require Import Prelude Json Text Ip Route Codec DnsRouter Config.

Local Open Scope Z_scope.

(** ** Blocks of addresses *)

Record IpCidr := mkIpCidr {
  cidr_addr : IpAddr;
  cidr_prefix : Z;
}.
Definition ipv4_match (net addr prefix : Z) : bool :=
  if prefix =? 0 then true
  else
    let mask := if 32 <=? prefix then 2 ^ 32 - 1 else u32 (Z.shiftl (2 ^ 32 - 1) (32 - prefix)) in
    Z.land net mask =? Z.land addr mask.
(** The first bytes, then the bits of the next one; the slice and the index are checked. *)
Definition ipv6_match (net addr prefix : Z) : result bool :=
  if prefix =? 0 then Ok true
  else
    let net_bits := be_encode 16 net in
    let addr_bits := be_encode 16 addr in
    let full_bytes := prefix / 8 in
    let rem_bits := prefix `mod` 8 in
    a ← slice_to net_bits full_bytes;
    b ← slice_to addr_bits full_bytes;
    if negb (bool_decide (a = b)) then Ok false
    else if rem_bits =? 0 then Ok true
    else
      let mask := wrap 8 (Z.shiftl 255 (8 - rem_bits)) in
      x ← index net_bits full_bytes;
      y ← index addr_bits full_bytes;
      Ok (Z.land (bz x) mask =? Z.land (bz y) mask).
Definition cidr_contains (c : IpCidr) (ip : IpAddr) : result bool :=
  match cidr_addr c, ip with
  | V4 net, V4 addr => Ok (ipv4_match net addr (cidr_prefix c))
  | V6 net, V6 addr => ipv6_match net addr (cidr_prefix c)
  | _, _ => Ok false
  end.
(** An address alone is a block of 32 bits; what is not a number gives the whole address. *)
Definition wg_parse_cidr (s : list byte) : result IpCidr :=
  let '(ip_s, prefix_s) := match split_once x2f s with Some p => p | None => (s, str "32") end in
  addr ← ok_or "cidr ip" (parse_ip ip_s);
  Ok (mkIpCidr addr (default (match addr with V4 _ => 32 | V6 _ => 128 end) (parse_uint 8 prefix_s))).

(** ** Configuration *)

Section WgConfig.
(** The base64 crate, and [ToSocketAddrs] of a text. *)
Variable b64_decode : list byte -> option (list byte).
Variable to_socket_addrs : list byte -> option (list SocketAddr).

Record WgPeer := mkWgPeer {
  wp_public_key : list byte;
  wp_allowed : list IpCidr;
  wp_endpoint : option SocketAddr;
  wp_keepalive : Z;
}.
Record WgConfig := mkWgConfig {
  wc_private_key : list byte;
  wc_listen_port : Z;
  wc_interface_name : list byte;
  wc_address : list byte;
  wc_mtu : Z;
  wc_peers : list WgPeer;
}.
(** [decode_secret] and [decode_pubkey]. *)
Definition decode_wg_key (b64 : list byte) : result (list byte) :=
  bytes ← ok_or "invalid base64" (b64_decode (trim b64));
  if zlen bytes =? 32 then Ok bytes else Err "Condition failed".
Fixpoint parse_cidrs (l : list Value) : result (list IpCidr) :=
  match l with
  | [] => Ok []
  | v :: l =>
      match as_str v with
      | Some s => c ← wg_parse_cidr s; cs ← parse_cidrs l; Ok (c :: cs)
      | None => parse_cidrs l
      end
  end.
Definition parse_allowed_ips (peer : Value) : result (list IpCidr) :=
  out ← parse_cidrs (default [] (v ← get peer "allowed_ips"; as_array v));
  match out with [] => Err "allowed_ips required" | _ => Ok out end.
Definition parse_peer_endpoint (peer : Value) : option SocketAddr :=
  let by_host :=
    host ← (v ← or_else (get peer "address") (get peer "server"); as_str v);
    let port := u16 (default 51820 (v ← or_else (get peer "port") (get peer "server_port"); as_u64 v)) in
    addrs ← to_socket_addrs (host ++ str ":" ++ show_uint port);
    head addrs in
  match text peer "endpoint" with
  | Some ep =>
      match parse_socket_addr ep with
      | Some addr => Some addr
      | None => match to_socket_addrs ep with Some addrs => head addrs | None => by_host end
      end
  | None => by_host
  end.
Definition parse_wg_peer (p : Value) : result WgPeer :=
  pk ← ok_or "public_key" (text p "public_key");
  pk ← decode_wg_key pk;
  allowed ← parse_allowed_ips p;
  Ok (mkWgPeer pk allowed (parse_peer_endpoint p) (u16 (default 25 (number p "persistent_keepalive_interval")))).
Fixpoint parse_wg_peers (l : list Value) : result (list WgPeer) :=
  match l with
  | [] => Ok []
  | p :: l => p ← parse_wg_peer p; ps ← parse_wg_peers l; Ok (p :: ps)
  end.
Definition parse_wg_config (raw : Value) : result WgConfig :=
  key ← ok_or "private_key" (text raw "private_key");
  key ← decode_wg_key key;
  let address :=
    default (str "10.0.0.1/32")
      (or_else (text raw "address") (v ← get raw "addresses"; l ← as_array v; x ← head l; as_str x)) in
  peers ← parse_wg_peers (default [] (v ← get raw "peers"; as_array v));
  Ok (mkWgConfig key (u16 (default 51820 (number raw "listen_port"))) (default (str "wg0") (text raw "interface_name")) address
        (u16 (default 1420 (number raw "mtu"))) peers).
(** Clients dial in: there is a port and no peer has an address. *)
Definition is_server_mode (raw : Value) : bool :=
  match get raw "listen_port" with
  | None => false
  | Some _ =>
      match (v ← get raw "peers"; as_array v) with
      | None | Some [] => false
      | Some peers => forallb (fun p => match get p "endpoint", get p "address", get p "server" with None, None, None => true | _, _, _ => false end) peers
      end
  end.
(** [apply_tun_address]: the address and, for IPv4 with a prefix, the mask. *)
Definition apply_tun_address (address : list byte) : result (IpAddr * option Z) :=
  let '(ip_s, prefix_s) := match split_once x2f address with Some (a, p) => (a, Some p) | None => (address, None) end in
  ip ← ok_or "wireguard tun address" (parse_ip ip_s);
  Ok (ip, match ip, prefix_s with
          | V4 _, Some p =>
              let prefix := default 32 (parse_uint 8 p) in
              Some (if 32 <=? prefix then 2 ^ 32 - 1 else u32 (Z.shiftl (2 ^ 32 - 1) ((32 - prefix) `mod` 32)))
          | _, _ => None
          end).
(** [enable_server_nat]: the commands that are run. *)
Definition server_nat_commands (address : list byte) : list (list (list byte)) :=
  [str "sysctl"; str "-w"; str "net.ipv4.ip_forward=1"]
  :: map (fun iface => [str "iptables"; str "-t"; str "nat"; str "-A"; str "POSTROUTING"; str "-s"; address; str "-o"; iface;
                        str "-j"; str "MASQUERADE"]) [str "eth0"; str "ens3"; str "enp0s3"].
End WgConfig.

(** ** The tunnels *)

Inductive TunnResult :=
| TunnDone
| TunnErr
| WriteToNetwork (packet : list byte)
| WriteToTunnelV4 (packet : list byte) (src : IpAddr)
| WriteToTunnelV6 (packet : list byte) (src : IpAddr).

(** boringtun's [Tunn]. *)
Class Boringtun := {
  Tunn : Type;
  tunn_new : list byte -> list byte -> Z -> Z -> result Tunn;
  decapsulate : Tunn -> option IpAddr -> list byte -> TunnResult * Tunn;
  encapsulate : Tunn -> list byte -> TunnResult * Tunn;
  update_timers : Tunn -> TunnResult * Tunn;
  (** How many packets a tunnel has to send before it says that it is done. *)
  backlog : Tunn -> nat;
}.
(** What its documentation says: a call with no datagram sends what is queued and is repeated
    until the tunnel is done, and so are the timers. *)
Class BoringtunLaws `{Boringtun} := {
  flush_progress t src p t' : decapsulate t src [] = (WriteToNetwork p, t') -> (backlog t' < backlog t)%nat;
  timer_progress t p t' : update_timers t = (WriteToNetwork p, t') -> (backlog t' < backlog t)%nat;
  flush_outcome t src : match (decapsulate t src []).1 with TunnDone | WriteToNetwork _ => True | _ => False end;
}.

(** What leaves: a datagram to an address, or a packet into the device. *)
Inductive wg_output :=
| SendTo (packet : list byte) (addr : SocketAddr)
| IntoDevice (packet : list byte).

Section Loop.
Context `{Boringtun}.

Record PeerState := mkPeerState {
  pe_tunn : Tunn;
  pe_allowed : list IpCidr;
  pe_endpoint : option SocketAddr;
}.
(** A loop of [drain_tunn]: packets are sent until there is another answer. *)
Fixpoint drain_loop (call : Tunn -> TunnResult * Tunn) (fuel : nat) (t : Tunn) (endpoint : SocketAddr) : Tunn * list wg_output :=
  match fuel with
  | O => (t, [])
  | S fuel =>
      match call t with
      | (WriteToNetwork p, t) => let '(t, out) := drain_loop call fuel t endpoint in (t, SendTo p endpoint :: out)
      | (_, t) => (t, [])
      end
  end.
Definition drain_tunn (t : Tunn) (endpoint : SocketAddr) : Tunn * list wg_output :=
  let '(t, out) := drain_loop (fun t => decapsulate t None []) (S (backlog t)) t endpoint in
  let '(t, out') := drain_loop update_timers (S (backlog t)) t endpoint in
  (t, out ++ out').
Definition handle_datagram (t : Tunn) (src_ip : option IpAddr) (datagram : list byte) (reply_to : SocketAddr)
  : bool * Tunn * list wg_output :=
  match decapsulate t src_ip datagram with
  | (WriteToNetwork p, t) => let '(t, out) := drain_tunn t reply_to in (true, t, SendTo p reply_to :: out)
  | (WriteToTunnelV4 p _, t) | (WriteToTunnelV6 p _, t) => let '(t, out) := drain_tunn t reply_to in (true, t, IntoDevice p :: out)
  | (TunnDone, t) => let '(t, out) := drain_tunn t reply_to in (true, t, out)
  | (TunnErr, t) => (false, t, [])
  end.
Definition encapsulate_to_peer (t : Tunn) (endpoint : SocketAddr) (packet : list byte) : Tunn * list wg_output :=
  match encapsulate t packet with
  | (WriteToNetwork p, t) => let '(t, out) := drain_tunn t endpoint in (t, SendTo p endpoint :: out)
  | (_, t) => (t, [])
  end.
Definition parse_ip_dest (packet : list byte) : option IpAddr :=
  match packet with
  | [] => None
  | b :: _ =>
      let version := Z.shiftr (bz b) 4 in
      if (version =? 4) && (20 <=? zlen packet) then Some (V4 (be_decode (take 4 (drop 16 packet))))
      else if (version =? 6) && (40 <=? zlen packet) then Some (V6 (be_decode (take 16 (drop 24 packet))))
      else None
  end.

Abbreviation Peers := (list (list byte * PeerState)).
(** [any] stops at the first that contains the address. *)
Fixpoint any_contains (cs : list IpCidr) (ip : IpAddr) : result bool :=
  match cs with
  | [] => Ok false
  | c :: cs => b ← cidr_contains c ip; if (b : bool) then Ok true else any_contains cs ip
  end.
Fixpoint find_peer (peers : Peers) (ip : IpAddr) : result (option (list byte)) :=
  match peers with
  | [] => Ok None
  | (k, p) :: peers => b ← any_contains (pe_allowed p) ip; if (b : bool) then Ok (Some k) else find_peer peers ip
  end.

(** A second passes. *)
Fixpoint wg_tick (peers : Peers) : Peers * list wg_output :=
  match peers with
  | [] => ([], [])
  | (k, p) :: peers =>
      let '(p, out) := match pe_endpoint p with
                       | Some ep => let '(t, out) := drain_tunn (pe_tunn p) ep in (mkPeerState t (pe_allowed p) (pe_endpoint p), out)
                       | None => (p, [])
                       end in
      let '(peers, out') := wg_tick peers in
      ((k, p) :: peers, out ++ out')
  end.
(** A datagram: the first tunnel that does not refuse it is its peer. *)
Fixpoint wg_recv (peers : Peers) (src : SocketAddr) (datagram : list byte) : Peers * list wg_output :=
  match peers with
  | [] => ([], [])
  | (k, p) :: peers =>
      match handle_datagram (pe_tunn p) (Some (sa_ip src)) datagram src with
      | (true, t, out) => ((k, mkPeerState t (pe_allowed p) (Some src)) :: peers, out)
      | (false, t, out) =>
          let '(peers, out') := wg_recv peers src datagram in
          ((k, mkPeerState t (pe_allowed p) (pe_endpoint p)) :: peers, out ++ out')
      end
  end.
Fixpoint send_via (peers : Peers) (key : list byte) (packet : list byte) : Peers * list wg_output :=
  match peers with
  | [] => ([], [])
  | (k, p) :: peers =>
      if bool_decide (k = key) then
        match pe_endpoint p with
        | Some ep => let '(t, out) := encapsulate_to_peer (pe_tunn p) ep packet in ((k, mkPeerState t (pe_allowed p) (pe_endpoint p)) :: peers, out)
        | None => ((k, p) :: peers, [])
        end
      else let '(peers, out) := send_via peers key packet in ((k, p) :: peers, out)
  end.
(** A packet of the device. *)
Definition wg_device (peers : Peers) (packet : list byte) : result (Peers * list wg_output) :=
  match parse_ip_dest packet with
  | None => Ok (peers, [])
  | Some dest =>
      key ← find_peer peers dest;
      Ok (match key with Some key => send_via peers key packet | None => (peers, []) end)
  end.

Inductive wg_event :=
| SecondPassed
| Datagram (src : SocketAddr) (datagram : list byte)
| RecvFailed
| DevicePacket (packet : list byte)
| DeviceFailed
| ShutdownSignal (value : bool).
Inductive wg_status := Running | Stopped | Panicked.
Definition wg_step (s : wg_status * Peers) (e : wg_event) : wg_status * Peers * list wg_output :=
  match s with
  | (Running, peers) =>
      match e with
      | SecondPassed => let '(peers, out) := wg_tick peers in (Running, peers, out)
      | Datagram src d => let '(peers, out) := wg_recv peers src d in (Running, peers, out)
      | RecvFailed => (Stopped, peers, [])
      | DevicePacket p =>
          match wg_device peers p with
          | Ok (peers, out) => (Running, peers, out)
          | _ => (Panicked, peers, [])
          end
      | DeviceFailed => (Running, peers, [])
      | ShutdownSignal v => (if v then Stopped else Running, peers, [])
      end
  | (st, peers) => (st, peers, [])
  end.
Fixpoint wg_run (es : list wg_event) (s : wg_status * Peers) : wg_status * Peers * list wg_output :=
  match es with
  | [] => (s, [])
  | e :: es => let '(s, out) := wg_step s e in let '(s, out') := wg_run es s in (s, out ++ out')
  end.

(** [start]: a tunnel per peer, by public key; a later peer with the same key replaces an
    earlier one. *)
Fixpoint peer_map (private_key : list byte) (i : Z) (peers : list WgPeer) (m : gmap (list byte) PeerState)
  : result (gmap (list byte) PeerState) :=
  match peers with
  | [] => Ok m
  | p :: peers =>
      t ← context "wireguard tunn init" (tunn_new private_key (wp_public_key p) (wp_keepalive p) i);
      peer_map private_key (i + 1) peers (<[wp_public_key p := mkPeerState t (wp_allowed p) (wp_endpoint p)]> m)
  end.
Definition wg_start (b64_decode : list byte -> option (list byte)) (to_socket_addrs : list byte -> option (list SocketAddr))
    (port_free : Z -> bool) (device : bool) (raw : Value) : result (gmap (list byte) PeerState) :=
  cfg ← parse_wg_config b64_decode to_socket_addrs raw;
  if negb (port_free (wc_listen_port cfg)) then Err "wireguard bind"
  else
    _ ← apply_tun_address (wc_address cfg);
    if negb device then Err "wireguard tun"
    else peer_map (wc_private_key cfg) 0 (wc_peers cfg) ∅.
End Loop.

(** ** Membership *)

Lemma take_be_encode n v : forall k, (k <= n)%nat -> take k (be_encode n v) = be_encode k (v / 2 ^ (8 * Z.of_nat (n - k))).
Proof.
  induction n as [|n IH]; intros [|k] Hk; [done|lia|done|].
  change (take (S k) (be_encode (S n) v)) with (u8 (Z.shiftr v (8 * Z.of_nat n)) :: take k (be_encode n v)).
  change (be_encode (S k) ?w) with (u8 (Z.shiftr w (8 * Z.of_nat k)) :: be_encode k w).
  rewrite IH by lia. replace (S n - S k)%nat with (n - k)%nat by lia. f_equal. f_equal.
  rewrite <-Z.shiftr_div_pow2, Z.shiftr_shiftr by lia. f_equal. lia.
Qed.
Lemma lookup_be_encode n v : forall k, (k < n)%nat -> be_encode n v !! k = Some (u8 (v / 2 ^ (8 * Z.of_nat (n - 1 - k)))).
Proof.
  induction n as [|n IH]; intros [|k] Hk; [lia|lia| |].
  - change (be_encode (S n) v !! 0%nat) with (Some (u8 (Z.shiftr v (8 * Z.of_nat n)))). rewrite Z.shiftr_div_pow2 by lia. do 5 f_equal. lia.
  - change (be_encode (S n) v !! S k) with (be_encode n v !! k). rewrite IH by lia. do 5 f_equal. lia.
Qed.
Lemma be_encode_inj k v w : 0 <= v < 2 ^ (8 * Z.of_nat k) -> 0 <= w < 2 ^ (8 * Z.of_nat k) -> be_encode k v = be_encode k w -> v = w.
Proof. intros Hv Hw He. rewrite <-(be_decode_encode k v Hv), <-(be_decode_encode k w Hw). by rewrite He. Qed.

Lemma ipv4_match_spec net a p : 0 <= net < 2 ^ 32 -> 0 <= a < 2 ^ 32 -> 0 <= p ->
  ipv4_match net a p = bool_decide (net / 2 ^ (32 - Z.min p 32) = a / 2 ^ (32 - Z.min p 32)).
Proof.
  intros Hn Ha Hp. unfold ipv4_match. destruct (Z.eqb_spec p 0) as [->|H0].
  { rewrite bool_decide_eq_true_2; [done|]. change (32 - Z.min 0 32) with 32. by rewrite !Z.div_small by lia. }
  assert (Hm : (if 32 <=? p then 2 ^ 32 - 1 else u32 (Z.shiftl (2 ^ 32 - 1) (32 - p))) = cidr_mask 32 p).
  { unfold cidr_mask, u32. destruct (32 <=? p) eqn:E; [done|]. apply Z.leb_gt in E. by rewrite (Z.mod_small (32 - p) 32) by lia. }
  rewrite Hm. apply eq_true_iff_eq. rewrite bool_decide_eq_true, (same_block_spec 32 p net a) by (lia || done). unfold same_block. destruct (decide (0 < p < 32)).
  - by rewrite Z.min_l by lia.
  - rewrite Z.min_r, Z.sub_diag, !Z.div_1_r by lia. done.
Qed.

(** A division by a power in two steps, byte and bits. *)
Lemma div_byte_bits v s r : 0 <= v -> 0 <= s -> 0 <= r <= 8 ->
  v / 2 ^ (s + (8 - r)) = 2 ^ r * (v / 2 ^ (s + 8)) + (v / 2 ^ s) `mod` 256 / 2 ^ (8 - r).
Proof.
  intros Hv Hs Hr. rewrite !Z.pow_add_r, <-!Z.div_div by lia. set (q := v / 2 ^ s). change (2 ^ 8) with 256.
  rewrite (Z.div_mod q 256) at 1 by lia. replace (256 * (q / 256)) with ((2 ^ r * (q / 256)) * 2 ^ (8 - r)).
  - rewrite Z.div_add_l by lia. done.
  - transitivity (2 ^ r * 2 ^ (8 - r) * (q / 256)); [ring|]. rewrite <-Z.pow_add_r by lia. replace (r + (8 - r)) with 8 by lia. done.
Qed.

Lemma ipv6_match_spec net a p : 0 <= net < 2 ^ 128 -> 0 <= a < 2 ^ 128 -> 0 <= p <= 128 ->
  ipv6_match net a p = Ok (bool_decide (net / 2 ^ (128 - p) = a / 2 ^ (128 - p))).
Proof.
  intros Hn Ha Hp. unfold ipv6_match. destruct (Z.eqb_spec p 0) as [->|H0].
  { rewrite bool_decide_eq_true_2; [done|]. change (128 - 0) with 128. by rewrite !Z.div_small by lia. }
  set (k := p / 8). set (r := p `mod` 8). assert (Hkr : p = 8 * k + r /\ 0 <= r < 8 /\ 0 <= k <= 16).
  { unfold k, r. Z.to_euclidean_division_equations. lia. }
  destruct Hkr as (Hpk & Hr & Hk). cbv zeta.
  assert (Hl : forall v, zlen (be_encode 16 v) = 16) by (intros v; unfold zlen; by rewrite length_be_encode).
  rewrite !slice_to_ok by (rewrite Hl; lia). cbn [mbind result_bind]. rewrite !take_be_encode by lia.
  replace (8 * Z.of_nat (16 - Z.to_nat k)) with (8 * (16 - k)) by lia.
  assert (Hrange : forall v, 0 <= v < 2 ^ 128 -> 0 <= v / 2 ^ (8 * (16 - k)) < 2 ^ (8 * Z.of_nat (Z.to_nat k))).
  { intros v Hv. split; [apply Z.div_pos; lia|]. apply Z.div_lt_upper_bound; [lia|]. rewrite <-Z.pow_add_r by lia.
    replace (8 * (16 - k) + 8 * Z.of_nat (Z.to_nat k)) with 128 by lia. lia. }
  assert (Hhigh : be_encode (Z.to_nat k) (net / 2 ^ (8 * (16 - k))) = be_encode (Z.to_nat k) (a / 2 ^ (8 * (16 - k)))
    <-> net / 2 ^ (8 * (16 - k)) = a / 2 ^ (8 * (16 - k))).
  { split; [apply be_encode_inj; auto|by intros ->]. }
  destruct (Z.eqb_spec r 0) as [Hr0|Hr0].
  { replace (128 - p) with (8 * (16 - k)) by lia. rewrite (bool_decide_ext _ _ Hhigh). by case_bool_decide. }
  assert (Hix : forall v, 0 <= v < 2 ^ 128 -> exists x, index (be_encode 16 v) k = Ok x /\ bz x = (v / 2 ^ (8 * (15 - k))) `mod` 256).
  { intros v Hv. eexists. split.
    - unfold index. rewrite lookup_be_encode by lia. done.
    - rewrite bz_u8. do 3 f_equal. lia. }
  assert (Hdiv : forall v, 0 <= v < 2 ^ 128 ->
    v / 2 ^ (128 - p) = 2 ^ r * (v / 2 ^ (8 * (16 - k))) + (v / 2 ^ (8 * (15 - k))) `mod` 256 / 2 ^ (8 - r)).
  { intros v Hv. replace (128 - p) with (8 * (15 - k) + (8 - r)) by lia. rewrite div_byte_bits by lia.
    replace (8 * (15 - k) + 8) with (8 * (16 - k)) by lia. done. }
  assert (Hsmall : forall v, 0 <= (v / 2 ^ (8 * (15 - k))) `mod` 256 / 2 ^ (8 - r) < 2 ^ r).
  { intros v. pose proof (Z.mod_pos_bound (v / 2 ^ (8 * (15 - k))) 256 ltac:(lia)). split; [apply Z.div_pos; lia|].
    apply Z.div_lt_upper_bound; [lia|]. rewrite <-Z.pow_add_r by lia. replace (8 - r + r) with 8 by lia. lia. }
  pose proof (Hsmall net). pose proof (Hsmall a). rewrite (Hdiv net Hn), (Hdiv a Ha).
  rewrite (bool_decide_ext _ _ Hhigh). case_bool_decide as Hh; cbn [negb].
  - destruct (Hix net Hn) as (x & Hx & Hbx). destruct (Hix a Ha) as (y & Hy & Hby). rewrite Hx, Hy. cbn [mbind result_bind]. f_equal.
    replace (wrap 8 (Z.shiftl 255 (8 - r))) with (cidr_mask 8 r)
      by (unfold cidr_mask; rewrite (proj2 (Z.leb_gt _ _)), (Z.mod_small (8 - r) 8) by lia; done).
    apply eq_true_iff_eq. rewrite bool_decide_eq_true, same_block_spec by (try apply bz_range; lia). unfold same_block.
    rewrite decide_True by lia. rewrite Hbx, Hby, Hh. lia.
  - rewrite bool_decide_eq_false_2; [done|]. intros He. apply Hh. nia.
Qed.

(** Which addresses a peer may have.  An address is in a block exactly when it is of
    the same family and agrees with it on the prefix, the two methods (masks for IPv4,
    bytes for IPv6) alike; a prefix of more than 32 bits is the whole IPv4 address.  The
    configuration accepts prefixes up to 255: for IPv6, one above 128 compares all sixteen
    bytes and then reads past them, and one from 136 always does. *)
Theorem wg_allowed_block c ip : ip_wf (cidr_addr c) -> ip_wf ip -> in_u8 (cidr_prefix c) ->
  match cidr_addr c, ip with
  | V4 net, V4 a => let s := 32 - Z.min (cidr_prefix c) 32 in
      cidr_contains c ip = Ok (bool_decide (net / 2 ^ s = a / 2 ^ s))
  | V6 net, V6 a =>
      (cidr_prefix c <= 128 -> let s := 128 - cidr_prefix c in cidr_contains c ip = Ok (bool_decide (net / 2 ^ s = a / 2 ^ s)))
      /\ (128 < cidr_prefix c < 136 -> cidr_contains c ip = if bool_decide (net = a) then Panic "index out of bounds" else Ok false)
      /\ (136 <= cidr_prefix c -> is_panic (cidr_contains c ip) = true)
  | _, _ => cidr_contains c ip = Ok false
  end.
Proof.
  intros Hn Hi Hp. destruct c as [net p]. unfold cidr_contains. cbn [cidr_addr cidr_prefix] in *. unfold in_u8 in Hp.
  destruct net as [net|net], ip as [a|a]; cbn [ip_wf] in Hn, Hi; [|done..|].
  { cbv zeta. by rewrite ipv4_match_spec by lia. }
  assert (Hl : forall v, zlen (be_encode 16 v) = 16) by (intros v; unfold zlen; by rewrite length_be_encode).
  split_and!; intros H0.
  - apply ipv6_match_spec; lia.
  - unfold ipv6_match. rewrite (proj2 (Z.eqb_neq p 0)) by lia. assert (Hk : p / 8 = 16) by (Z.to_euclidean_division_equations; lia).
    assert (Hr : (p `mod` 8 =? 0) = false) by (apply Z.eqb_neq; Z.to_euclidean_division_equations; lia).
    rewrite Hk, Hr. rewrite !slice_to_ok by (rewrite Hl; lia). cbn [mbind result_bind]. rewrite !take_ge by (by rewrite length_be_encode).
    assert (Heq : be_encode 16 net = be_encode 16 a <-> net = a) by (split; [apply be_encode_inj; lia|by intros ->]).
    rewrite (bool_decide_ext _ _ Heq). case_bool_decide; [|done]. cbn [negb]. unfold index at 1. change (Z.to_nat 16) with 16%nat.
    rewrite lookup_ge_None_2 by (by rewrite length_be_encode). done.
  - unfold ipv6_match. rewrite (proj2 (Z.eqb_neq p 0)) by lia. assert (Hk : 17 <= p / 8) by (Z.to_euclidean_division_equations; lia).
    unfold slice_to. rewrite !Hl, (proj2 (Z.ltb_lt 16 (p / 8))) by lia. reflexivity.
Qed.

(** An IPv6 address without a prefix stands for a block of 2^96 addresses. *)
Example bare_ipv6_block :
  wg_parse_cidr (str "2001:db8::1") = Ok (mkIpCidr (V6 42540766411282592856903984951653826561) 32)
  /\ cidr_contains (mkIpCidr (V6 42540766411282592856903984951653826561) 32) (V6 42540766411282592856903984951653826562) = Ok true.
Proof. split; by vm_compute. Qed.

Section Runs.
Context `{Boringtun}.

(** ** Which peer *)

Definition allows (p : PeerState) (ip : IpAddr) : Prop := any_contains (pe_allowed p) ip = Ok true.
Lemma find_peer_some peers ip k : find_peer peers ip = Ok (Some k) -> exists p, (k, p) ∈ peers /\ allows p ip.
Proof.
  induction peers as [|[k' p] peers IH]; cbn [find_peer]; [done|]. destruct (any_contains (pe_allowed p) ip) as [[]|e|e] eqn:E; cbn [mbind result_bind]; try done.
  - intros [= ->]. exists p. split; [apply elem_of_cons; by left|done].
  - intros Hf. destruct (IH Hf) as (q & Hq & Ha). exists q. split; [apply elem_of_cons; by right|done].
Qed.
Lemma find_peer_total peers ip : (forall k p, (k, p) ∈ peers -> exists b, any_contains (pe_allowed p) ip = Ok b) ->
  exists o, find_peer peers ip = Ok o /\ (o = None -> forall k p, (k, p) ∈ peers -> ~ allows p ip).
Proof.
  induction peers as [|[k' p] peers IH]; intros Hall; cbn [find_peer].
  - exists None. split; [done|]. intros _ k p Hin. by apply elem_of_nil in Hin.
  - destruct (Hall k' p ltac:(apply elem_of_cons; by left)) as [b Hb]. rewrite Hb. cbn [mbind result_bind]. destruct b; [by exists (Some k')|].
    destruct IH as (o & Ho & Hnone); [intros; apply (Hall k), elem_of_cons; by right|]. exists o. split; [done|].
    intros -> k q Hin. apply elem_of_cons in Hin as [[= -> ->]|Hin]; [unfold allows; by rewrite Hb|by eapply Hnone].
Qed.
(** When at most one key allows an address, the order of the map does not matter. *)
Lemma find_peer_order peers peers' ip : peers ≡ₚ peers' ->
  (forall k p, (k, p) ∈ peers -> exists b, any_contains (pe_allowed p) ip = Ok b) ->
  (forall k p k' p', (k, p) ∈ peers -> (k', p') ∈ peers -> allows p ip -> allows p' ip -> k = k') ->
  find_peer peers ip = find_peer peers' ip.
Proof.
  intros Hperm Hall Huniq.
  destruct (find_peer_total peers ip Hall) as (o & Ho & Hn).
  destruct (find_peer_total peers' ip) as (o' & Ho' & Hn'); [intros k p Hin; apply (Hall k); by rewrite Hperm|].
  rewrite Ho, Ho'. f_equal. destruct o as [k|], o' as [k'|]; [|exfalso..|done].
  - destruct (find_peer_some _ _ _ Ho) as (p & Hp & Ha). destruct (find_peer_some _ _ _ Ho') as (p' & Hp' & Ha').
    rewrite <-Hperm in Hp'. f_equal. eauto.
  - destruct (find_peer_some _ _ _ Ho) as (p & Hp & Ha). rewrite Hperm in Hp. by apply (Hn' eq_refl k p Hp).
  - destruct (find_peer_some _ _ _ Ho') as (p & Hp & Ha). rewrite <-Hperm in Hp. by apply (Hn eq_refl k' p Hp).
Qed.

(** ** Where datagrams go *)

Definition sent_only_to (addrs : list SocketAddr) (out : list wg_output) : Prop :=
  Forall (fun o => match o with SendTo _ a => a ∈ addrs | IntoDevice _ => True end) out.
Lemma drain_loop_to call fuel t ep : sent_only_to [ep] (drain_loop call fuel t ep).2.
Proof.
  revert t. induction fuel as [|fuel IH]; intros t; cbn [drain_loop]; [constructor|].
  destruct (call t) as [[| |p|p s|p s] t']; try constructor. specialize (IH t').
  destruct (drain_loop call fuel t' ep) as [t'' out]. constructor; [by apply list_elem_of_singleton|done].
Qed.
Lemma drain_tunn_to t ep : sent_only_to [ep] (drain_tunn t ep).2.
Proof.
  unfold drain_tunn. pose proof (drain_loop_to (fun t => decapsulate t None []) (S (backlog t)) t ep) as H1.
  destruct (drain_loop _ (S (backlog t)) t ep) as [t1 o1]. pose proof (drain_loop_to update_timers (S (backlog t1)) t1 ep) as H2.
  destruct (drain_loop update_timers (S (backlog t1)) t1 ep) as [t2 o2]. by apply Forall_app.
Qed.
Lemma handle_datagram_to t ip d ep : sent_only_to [ep] (handle_datagram t ip d ep).2.
Proof.
  unfold handle_datagram. destruct (decapsulate t ip d) as [[| |p|p s|p s] t']; pose proof (drain_tunn_to t' ep) as Hd;
    destruct (drain_tunn t' ep) as [t2 out]; [done|constructor|..]; (constructor; [|done]); cbn; [by apply list_elem_of_singleton|done..].
Qed.
Lemma encapsulate_to t ep pkt : sent_only_to [ep] (encapsulate_to_peer t ep pkt).2.
Proof.
  unfold encapsulate_to_peer. destruct (encapsulate t pkt) as [[| |p|p s|p s] t']; try constructor.
  pose proof (drain_tunn_to t' ep) as Hd. destruct (drain_tunn t' ep) as [t2 out]. constructor; [by apply list_elem_of_singleton|done].
Qed.
Lemma sent_only_weaken a b out : a ⊆ b -> sent_only_to a out -> sent_only_to b out.
Proof. intros Hab Hs. eapply Forall_impl; [exact Hs|]. intros [p x|p]; cbn; [apply Hab|done]. Qed.
Lemma sent_only_app a o1 o2 : sent_only_to a o1 -> sent_only_to a o2 -> sent_only_to a (o1 ++ o2).
Proof. intros H1 H2. by apply Forall_app. Qed.

Abbreviation Peers := (list (list byte * PeerState)).
(** What stays of a peer. *)
Definition peer_identity (kp : list byte * PeerState) : list byte * list IpCidr := (kp.1, pe_allowed kp.2).
Definition endpoints_in (addrs : list SocketAddr) (peers : Peers) : Prop :=
  Forall (fun kp => match pe_endpoint kp.2 with Some a => a ∈ addrs | None => True end) peers.
(** A step keeps the peers, and endpoints and destinations stay within [addrs]. *)
Definition step_within (addrs : list SocketAddr) (peers peers' : Peers) (out : list wg_output) : Prop :=
  map peer_identity peers' = map peer_identity peers /\ endpoints_in addrs peers' /\ sent_only_to addrs out.

Lemma tick_within addrs peers : endpoints_in addrs peers -> let '(peers', out) := wg_tick peers in step_within addrs peers peers' out.
Proof.
  induction 1 as [|[k p] peers Hp _ IH]; cbn [wg_tick]; [repeat split; constructor|]. cbn in Hp.
  destruct (wg_tick peers) as [peers' out]. destruct IH as (I1 & I2 & I3).
  destruct (pe_endpoint p) as [ep|] eqn:E.
  - pose proof (drain_tunn_to (pe_tunn p) ep) as Hd. destruct (drain_tunn (pe_tunn p) ep) as [t o].
    split_and!; [cbn; by rewrite I1|constructor; [by cbn|done]|]. apply sent_only_app; [|done].
    apply (sent_only_weaken [ep]); [|done]. intros x Hx. apply list_elem_of_singleton in Hx as ->. done.
  - split_and!; [cbn; by rewrite I1|constructor; [cbn; by rewrite E|done]|done].
Qed.
Lemma recv_within addrs peers src d : src ∈ addrs -> endpoints_in addrs peers ->
  let '(peers', out) := wg_recv peers src d in step_within addrs peers peers' out.
Proof.
  intros Hs. induction 1 as [|[k p] peers Hp Hps IH]; cbn [wg_recv]; [repeat split; constructor|]. cbn in Hp.
  pose proof (handle_datagram_to (pe_tunn p) (Some (sa_ip src)) d src) as Hd.
  destruct (handle_datagram (pe_tunn p) (Some (sa_ip src)) d src) as [[[] t] out].
  - split_and!; [done|constructor; done|]. apply (sent_only_weaken [src]); [|done]. intros x Hx. apply list_elem_of_singleton in Hx as ->. done.
  - destruct (wg_recv peers src d) as [peers' out']. destruct IH as (I1 & I2 & I3). split_and!; [cbn; by rewrite I1|constructor; done|].
    apply sent_only_app; [|done]. apply (sent_only_weaken [src]); [|done]. intros x Hx. apply list_elem_of_singleton in Hx as ->. done.
Qed.
Lemma send_via_within addrs peers key pkt : endpoints_in addrs peers -> let '(peers', out) := send_via peers key pkt in step_within addrs peers peers' out.
Proof.
  induction 1 as [|[k p] peers Hp Hps IH]; cbn [send_via]; [repeat split; constructor|]. cbn in Hp. case_bool_decide.
  - destruct (pe_endpoint p) as [ep|] eqn:E; [|split_and!; [done|constructor; [cbn; by rewrite E|done]|constructor]].
    pose proof (encapsulate_to (pe_tunn p) ep pkt) as Hd. destruct (encapsulate_to_peer (pe_tunn p) ep pkt) as [t o].
    split_and!; [done|constructor; done|]. apply (sent_only_weaken [ep]); [|done]. intros x Hx. apply list_elem_of_singleton in Hx as ->. done.
  - destruct (send_via peers key pkt) as [peers' out]. destruct IH as (I1 & I2 & I3). split_and!; [cbn; by rewrite I1|constructor; done|done].
Qed.
Definition sources (es : list wg_event) : list SocketAddr := omap (fun e => match e with Datagram src _ => Some src | _ => None end) es.
Lemma step_within_ok addrs st peers e : endpoints_in addrs peers -> (forall src d, e = Datagram src d -> src ∈ addrs) ->
  let '(_, peers', out) := wg_step (st, peers) e in step_within addrs peers peers' out.
Proof.
  intros He Hs. destruct st; [|by split_and!; [|done|constructor]..].
  destruct e as [|src d| |pkt| |v]; cbn [wg_step]; try (by split_and!; [|done|constructor]).
  - pose proof (tick_within addrs peers He) as Ht. by destruct (wg_tick peers).
  - pose proof (recv_within addrs peers src d (Hs _ _ eq_refl) He) as Ht. by destruct (wg_recv peers src d).
  - unfold wg_device. destruct (parse_ip_dest pkt) as [dest|]; [|by split_and!; [|done|constructor]].
    destruct (find_peer peers dest) as [[key|]|e|e]; cbn [mbind result_bind]; try (by split_and!; [|done|constructor]).
    pose proof (send_via_within addrs peers key pkt He) as Ht. by destruct (send_via peers key pkt).
Qed.

(** Where a tunnel sends.  Whatever happens, the peers keep their keys and blocks, and
    nothing is sent anywhere but to the configured endpoints and to addresses datagrams came
    from; so are the endpoints the peers have at the end. *)
Theorem wg_destinations es st peers :
  let addrs := omap (fun kp => pe_endpoint kp.2) peers ++ sources es in
  let '(_, peers', out) := wg_run es (st, peers) in
  map peer_identity peers' = map peer_identity peers /\ endpoints_in addrs peers' /\ sent_only_to addrs out.
Proof.
  cbv zeta. set (addrs := omap _ peers ++ sources es).
  assert (Hsrc : sources es ⊆ addrs) by (intros x Hx; apply elem_of_app; by right).
  assert (He : endpoints_in addrs peers).
  { apply Forall_forall. intros kp Hin. destruct (pe_endpoint kp.2) as [a|] eqn:E; [|done]. apply elem_of_app. left.
    apply list_elem_of_omap. by exists kp. }
  clearbody addrs. revert st peers He. induction es as [|e es IH]; intros st peers He; cbn [wg_run]; [split_and!; [done|done|constructor]|].
  pose proof (step_within_ok addrs st peers e He) as Hstep. destruct (wg_step (st, peers) e) as [[st1 peers1] out1].
  destruct Hstep as (S1 & S2 & S3).
  { intros src d ->. apply Hsrc. unfold sources. cbn. apply elem_of_cons. by left. }
  assert (Hsrc' : sources es ⊆ addrs).
  { intros x Hx. apply Hsrc. unfold sources in *. cbn. destruct e; try done. apply elem_of_cons. by right. }
  specialize (IH Hsrc' st1 peers1 S2). destruct (wg_run es (st1, peers1)) as [[st2 peers2] out2].
  destruct IH as (I1 & I2 & I3). split_and!; [by rewrite I1|done|by apply sent_only_app].
Qed.

(** The loops of [drain_tunn] are left because the tunnel has nothing more to send. *)
Lemma drain_loop_ends call fuel t ep :
  (forall t p t', call t = (WriteToNetwork p, t') -> (backlog t' < backlog t)%nat) -> (backlog t < fuel)%nat ->
  exists t0 r, call t0 = (r, (drain_loop call fuel t ep).1) /\ forall p, r <> WriteToNetwork p.
Proof.
  intros Hdec. revert t. induction fuel as [|fuel IH]; intros t Hf; [lia|]. cbn [drain_loop].
  destruct (call t) as [[| |p|p s|p s] t'] eqn:E; try (by exists t; eexists; split; [exact E|]).
  specialize (Hdec _ _ _ E). destruct (IH t' ltac:(lia)) as (t0 & r & Hr & Hn). exists t0, r.
  by destruct (drain_loop call fuel t' ep).
Qed.

(** The blocks of a peer are not looked at when its packets come in: what is written into
    the device does not depend on them. *)
Lemma recv_ignores_blocks src d (f : list IpCidr -> list IpCidr) peers :
  let relax kp := (kp.1, mkPeerState (pe_tunn kp.2) (f (pe_allowed kp.2)) (pe_endpoint kp.2)) in
  (wg_recv (map relax peers) src d).2 = (wg_recv peers src d).2.
Proof.
  intros relax. induction peers as [|[k p] peers IH]; [done|]. cbn [map relax fst snd wg_recv pe_tunn pe_allowed pe_endpoint].
  destruct (handle_datagram (pe_tunn p) (Some (sa_ip src)) d src) as [[[] t] out]; [done|].
  fold relax. destruct (wg_recv (map relax peers) src d) as [p1 o1]. destruct (wg_recv peers src d) as [p2 o2]. cbn in *. by rewrite IH.
Qed.

(** Endpoints are taken without proof.  An empty datagram, which a tunnel answers with
    what it has queued and never refuses, makes its sender the endpoint of the first peer:
    from then on the packets of the device for that peer are sent to it. *)
Theorem wg_empty_datagram `{!BoringtunLaws} k p peers src :
  exists t out, wg_recv ((k, p) :: peers) src [] = ((k, mkPeerState t (pe_allowed p) (Some src)) :: peers, out)
  /\ forall packet dest sealed t2, parse_ip_dest packet = Some dest -> allows p dest -> encapsulate t packet = (WriteToNetwork sealed, t2) ->
       exists peers2 out2, wg_device ((k, mkPeerState t (pe_allowed p) (Some src)) :: peers) packet = Ok (peers2, SendTo sealed src :: out2).
Proof.
  assert (Hd : exists t out, handle_datagram (pe_tunn p) (Some (sa_ip src)) [] src = (true, t, out)).
  { unfold handle_datagram. pose proof (flush_outcome (pe_tunn p) (Some (sa_ip src))) as Hf.
    destruct (decapsulate (pe_tunn p) (Some (sa_ip src)) []) as [[| |q|q s|q s] t]; cbn in Hf; try done; destruct (drain_tunn t src); by eexists _, _. }
  destruct Hd as (t & out & Hd). exists t, out. cbn [wg_recv]. rewrite Hd. split; [done|].
  intros packet dest sealed t2 Hp Ha He. unfold wg_device. rewrite Hp. cbn [find_peer pe_allowed]. rewrite Ha. cbn [mbind result_bind send_via].
  rewrite bool_decide_eq_true_2 by done. cbn [pe_endpoint pe_tunn]. unfold encapsulate_to_peer. rewrite He. destruct (drain_tunn t2 src). by eexists _, _.
Qed.

(** A block of more than 135 bits ends the tunnel with the first IPv6 packet of the device:
    the task is gone, and nothing is sent or received any more. *)
Lemma wg_long_prefix es k p peers packet net prefix rest a : in_u8 prefix -> 136 <= prefix -> 0 <= net < 2 ^ 128 -> 0 <= a < 2 ^ 128 ->
  pe_allowed p = mkIpCidr (V6 net) prefix :: rest -> parse_ip_dest packet = Some (V6 a) ->
  wg_run (DevicePacket packet :: es) (Running, (k, p) :: peers) = (Panicked, (k, p) :: peers, []).
Proof.
  intros Hu Hp Hn Ha Hal Hd. cbn [wg_run wg_step]. unfold wg_device. rewrite Hd. cbn [find_peer]. rewrite Hal. cbn [any_contains].
  assert (Hpan : is_panic (cidr_contains (mkIpCidr (V6 net) prefix) (V6 a)) = true).
  { unfold cidr_contains. cbn [cidr_addr cidr_prefix]. unfold ipv6_match. rewrite (proj2 (Z.eqb_neq prefix 0)) by lia.
    assert (Hk : 17 <= prefix / 8) by (Z.to_euclidean_division_equations; lia).
    unfold slice_to. unfold zlen. rewrite !length_be_encode, (proj2 (Z.ltb_lt (Z.of_nat 16) (prefix / 8))) by lia. reflexivity. }
  destruct (cidr_contains (mkIpCidr (V6 net) prefix) (V6 a)) as [b|e|e]; [done..|]. cbn [mbind result_bind].
  assert (Hdead : forall l, wg_run l (Panicked, (k, p) :: peers) = (Panicked, (k, p) :: peers, [])).
  { induction l as [|e' l IH]; [done|]. cbn [wg_run wg_step]. by rewrite IH. }
  by rewrite Hdead.
Qed.
End Runs.

(** ** The outbound *)

(** [WireGuardOutbound]: whether [ensure_started] has succeeded, and whether the task of the
    tunnel runs. *)
Record WgOutbound := mkWgOutbound {
  wo_started : bool;
  wo_running : bool;
}.
Definition wireguard_outbound_new (raw : Value) : result (list byte * WgOutbound) :=
  _ ← ok_or "wireguard outbound: private_key required" (get raw "private_key");
  Ok (default (str "wg0") (text raw "interface_name"), mkWgOutbound false false).
Definition ensure_started (start : result unit) (o : WgOutbound) : result unit * WgOutbound :=
  if wo_started o then (Ok tt, o)
  else match start with Ok _ => (Ok tt, mkWgOutbound true true) | r => (r, o) end.
Definition wg_outbound_close (o : WgOutbound) : WgOutbound := mkWgOutbound (wo_started o) false.
(** Once started, the tunnel is never started again, also when its task has ended. *)
Lemma wg_never_restarted start o : wo_started o = true -> ensure_started start (wg_outbound_close o) = (Ok tt, mkWgOutbound true false).
Proof. intros Hs. unfold ensure_started, wg_outbound_close. cbn. by rewrite Hs. Qed.

(** ** Tailscale *)

(** [value[key] = v]: a key of an object is set, null becomes an object, anything else
    panics. *)
Definition json_set (raw : Value) (k : string) (v : Value) : result Value :=
  match raw with
  | Object fields => Ok (Object (set_assoc (str k) v fields))
  | Null => Ok (Object [(str k, v)])
  | _ => Panic "cannot access key in JSON"
  end.
Definition set_missing (raw : Value) (k : string) (v : Value) : result Value :=
  match get raw k with Some _ => Ok raw | None => json_set raw k v end.
Definition normalize_wireguard (raw : Value) : result Value :=
  out ← set_missing raw "listen_port" (Num (PosInt 41641));
  out ← set_missing out "interface_name" (Str (str "tailscale0"));
  set_missing out "addresses" (Array [Str (str "100.64.0.1/32")]).
(** [&auth_key[..auth_key.len().min(8)]]: panics inside a character. *)
Definition auth_key_hint (auth_key : list byte) : result (list byte) :=
  match auth_key !! 8%nat with
  | Some b => if utf8_cont b then Panic "byte index 8 is not a char boundary" else Ok (take 8 auth_key)
  | None => Ok auth_key
  end.
Definition parse_headscale_node (json : Value) : option Value :=
  pubkey ← (v ← or_else (get json "WireGuardPublicKey") (or_else (get json "node_key") (get json "public_key")); as_str v);
  let endpoint := default [] (v ← or_else (get json "Endpoint") (get json "endpoint"); as_str v) in
  let allowed := default (Array [Str (str "0.0.0.0/0"); Str (str "::/0")]) (or_else (get json "AllowedIPs") (get json "allowed_ips")) in
  Some (Object [(str "public_key", Str pubkey); (str "endpoint", Str endpoint); (str "allowed_ips", allowed);
                (str "persistent_keepalive_interval", Num (PosInt 25))]).

(** A configuration that is an object is completed: every key it has is kept, and the three
    that are needed are there. *)
Lemma normalize_completes fields : exists out, normalize_wireguard (Object fields) = Ok out
  /\ (forall k v, assoc (str k) fields = Some v -> get out k = Some v)
  /\ is_Some (get out "listen_port") /\ is_Some (get out "interface_name") /\ is_Some (get out "addresses").
Proof.
  assert (Hset : forall fields k v, exists out, set_missing (Object fields) k v = Ok (Object out) /\ is_Some (assoc (str k) out)
    /\ forall j w, assoc j fields = Some w -> assoc j out = Some w).
  { intros fs k v. unfold set_missing, get, json_set. destruct (assoc (str k) fs) as [w|] eqn:E; [by exists fs; eauto|].
    eexists. split; [done|]. rewrite assoc_set. split; [done|]. intros j w Hj.
    destruct (decide (str k = j)) as [<-|Hne]; [congruence|]. by rewrite assoc_set_ne. }
  unfold normalize_wireguard. destruct (Hset fields "listen_port" (Num (PosInt 41641))) as (o1 & -> & [v1 H1] & K1). cbn [mbind result_bind].
  destruct (Hset o1 "interface_name" (Str (str "tailscale0"))) as (o2 & -> & [v2 H2] & K2). cbn [mbind result_bind].
  destruct (Hset o2 "addresses" (Array [Str (str "100.64.0.1/32")])) as (o3 & -> & H3 & K3). exists (Object o3). unfold get. split_and!; eauto.
Qed.

(** ** Witnesses *)

(** A tunnel with a key byte and packets that wait. *)
#[local] Instance toy_tunn : Boringtun := {|
  Tunn := byte * nat;
  tunn_new sk pk ka i := Ok (default x00 (head pk), 0%nat);
  decapsulate t src d := match d with
                         | [] => match t.2 with O => (TunnDone, t) | S n => (WriteToNetwork [t.1], (t.1, n)) end
                         | b :: d => if bool_decide (b = t.1) then (WriteToTunnelV4 d (V4 0), t) else (TunnErr, t)
                         end;
  encapsulate t p := (WriteToNetwork (t.1 :: p), t);
  update_timers t := (TunnDone, t);
  backlog t := t.2;
|}.
#[local] Instance toy_tunn_laws : BoringtunLaws.
Proof.
  split.
  - intros [k [|n]] src p t' Ht; cbn in Ht; [done|]. injection Ht as _ <-. cbn. lia.
  - done.
  - intros [k [|n]] src; cbn; done.
Qed.

Definition demo_wg_peer (key : byte) (block : IpCidr) : list byte * PeerState :=
  ([key], mkPeerState (key, 1%nat) [block] (Some (mkSocketAddr (V4 (bz key)) 51820))).
Definition demo_wg_packet : list byte := x45 :: replicate 15 x00 ++ [x0a; x00; x00; x07] ++ str "payload".
Definition demo_attacker : SocketAddr := mkSocketAddr (V4 3405803777) 9.
(** With overlapping blocks the order of the map decides, not the longer prefix. *)
Example overlapping_blocks :
  let wide := demo_wg_peer x01 (mkIpCidr (V4 0) 0) in
  let narrow := demo_wg_peer x02 (mkIpCidr (V4 167772160) 8) in
  find_peer [wide; narrow] (V4 167772167) = Ok (Some [x01]) /\ find_peer [narrow; wide] (V4 167772167) = Ok (Some [x02]).
Proof. split; by vm_compute. Qed.

Lemma wg_allowed_block_witness : cidr_contains (mkIpCidr (V4 167772160) 8) (V4 167772167) = Ok true.
Proof.
  pose proof (wg_allowed_block (mkIpCidr (V4 167772160) 8) (V4 167772167) ltac:(cbn; lia) ltac:(cbn; lia) ltac:(vm_compute; split; done)) as H.
  exact H.
Defined.
Lemma wg_destinations_witness :
  sent_only_to [mkSocketAddr (V4 1) 51820; demo_attacker]
    (wg_run [Datagram demo_attacker []; DevicePacket demo_wg_packet; SecondPassed] (Running, [demo_wg_peer x01 (mkIpCidr (V4 0) 0)])).2.
Proof.
  pose proof (wg_destinations [Datagram demo_attacker []; DevicePacket demo_wg_packet; SecondPassed] Running [demo_wg_peer x01 (mkIpCidr (V4 0) 0)]) as H.
  cbv zeta in H. destruct (wg_run _ _) as [[st peers'] out]. destruct H as (_ & _ & H). exact H.
Defined.
Lemma wg_empty_datagram_witness : exists peers2 out2,
  wg_device (wg_recv [demo_wg_peer x01 (mkIpCidr (V4 0) 0)] demo_attacker []).1 demo_wg_packet
  = Ok (peers2, SendTo (x01 :: demo_wg_packet) demo_attacker :: out2).
Proof.
  destruct (wg_empty_datagram [x01] (demo_wg_peer x01 (mkIpCidr (V4 0) 0)).2 [] demo_attacker) as (t & out & Hr & Hs).
  change ([x01], (demo_wg_peer x01 (mkIpCidr (V4 0) 0)).2) with (demo_wg_peer x01 (mkIpCidr (V4 0) 0)) in Hr. rewrite Hr. cbn [fst].
  assert (Ht : t = (x01, 0%nat)).
  { apply (f_equal (fun r => (fun kp => pe_tunn kp.2) <$> head r.1)) in Hr. cbn in Hr. by injection Hr as <-. }
  subst t. apply (Hs demo_wg_packet (V4 167772167) (x01 :: demo_wg_packet) (x01, 0%nat)); [by vm_compute|by vm_compute|done].
Defined.
