(* ===== verification/Control.v ===== *)
(** * Control

    The interfaces a running program is controlled by: [services/listen.rs] (who may ask),
    [services/api.rs] (the API service), [rsb-api/src/lib.rs] (the Clash and V2Ray
    interfaces and the file that keeps choices), [services/ssm_api.rs] (managed servers)
    and [services/multiplexer.rs] (the credential proxy).

    HTTP is the axum crate: a request is its headers and what its handler takes of the path
    and the body; a reply is a JSON value, a status code, or nothing when the handler
    panics.  The state they act on is the program of [Engine]. *)
From stdpp Require Import base tactics gmap list strings.
From Stdlib Require Import ZArith Lia.
From Stdlib Require Import Strings.Byte.
From S2P Require Import Prelude Json Text Ip Srs Route RuleSets Users Connections DnsRouter Groups Dial Inbound RsqSession Config Engine Derp.

Local Open Scope Z_scope.

(** ** Who may ask *)

(** Header names are in lower case; [get] yields the first of a name. *)
Abbreviation Headers := (list (list byte * list byte)).
(** [HeaderValue::to_str]: visible characters and tabs. *)
Definition header_to_str (v : list byte) : option (list byte) :=
  if forallb (fun b => in_range 32 126 b || (bz b =? 9)) v then Some v else None.
Definition header_str (h : Headers) (name : string) : option (list byte) := v ← assoc (str name) h; header_to_str v.
(** [trim_start_matches] of a text: as often as it is there. *)
Fixpoint trim_start_str (fuel : nat) (pat s : list byte) : list byte :=
  match fuel with
  | O => s
  | S fuel => match strip_prefix s pat with Some s => trim_start_str fuel pat s | None => s end
  end.
Definition without_bearer (s : list byte) : list byte := trim_start_str (length s) (str "Bearer ") s.

Abbreviation Tokens := (list (list byte * list byte)).
Definition parse_user_tokens (raw : Value) : Tokens :=
  match (v ← get raw "users"; as_array v) with
  | Some arr => omap (fun u => name ← text u "name"; token ← text u "token"; Some (name, token)) arr
  | None => []
  end.
(** The token of a request: of the first of three headers that has one. *)
Definition presented_token (h : Headers) : option (list byte) :=
  or_else ((fun v => trim (without_bearer v)) <$> header_str h "authorization")
    (or_else (header_str h "x-api-key") (header_str h "anthropic-auth-token")).
Definition auth_token (h : Headers) (users : Tokens) : option (list byte) :=
  match users with
  | [] => Some []
  | _ => t ← presented_token h; if existsb (fun u => bool_decide (u.2 = t)) users then Some t else None
  end.
Definition api_auth (h : Headers) (users : Tokens) : bool :=
  match users with [] => true | _ => match auth_token h users with Some _ => true | None => false end end.

(** ** The API service *)

Inductive Reply :=
| Json (v : Value)
| Status (code : Z)
| Dropped.
Definition UNAUTHORIZED : Z := 401.

Record ApiConfig := mkApiConfig {
  ac_listen : SocketAddr;
  ac_grpc_listen : option SocketAddr;
  ac_users : Tokens;
}.
Definition set_field (k : string) (v : Value) (raw : Value) : Value :=
  match raw with Object fields => Object (set_assoc (str k) v fields) | _ => raw end.
Definition parse_grpc_listen (raw : Value) : option SocketAddr :=
  match get raw "grpc_listen_port", text raw "grpc_listen" with
  | None, None => None
  | port, _ =>
      let grpc_raw := match port with Some p => set_field "listen_port" p raw | None => raw end in
      let grpc_raw := match get raw "grpc_listen" with Some host => set_field "listen" host grpc_raw | None => grpc_raw end in
      match service_listen grpc_raw with Ok a => Some a | _ => None end
  end.
Definition api_service_new (raw : Value) : result ApiConfig :=
  let users := parse_user_tokens raw in
  let users := match users, text raw "secret" with [], Some s => [(str "api", s)] | _, _ => users end in
  listen ← service_listen raw;
  Ok (mkApiConfig listen (parse_grpc_listen raw) users).

Definition json_text (s : option (list byte)) : Value := match s with Some s => Str s | None => Null end.
Definition json_number (n : Z) : Value := Num (PosInt n).
Definition field (k : string) (v : Value) : list byte * Value := (str k, v).
Definition connection_json (c : ConnectionInfo) : Value :=
  Object [field "id" (Str (show_uint (ci_id c))); field "inbound" (Str (ci_inbound_tag c)); field "outbound" (Str (ci_outbound_tag c));
          field "network" (Str (ci_network c)); field "source" (json_text (format_address <$> ci_source c));
          field "destination" (json_text (format_address <$> ci_destination c)); field "domain" (json_text (ci_domain c));
          field "started_at" (json_number (ci_started_at c))].
(** [ConnectionManager::list]. *)
Definition list_connections (cm : ConnectionManager) : list ConnectionInfo := map snd (map_to_list (active cm)).
Definition stat_json (e : list byte * Z) : Value := Object [field "name" (Str e.1); field "value" (json_number e.2)].
Definition untrack_all (ids : list Z) (cm : ConnectionManager) : ConnectionManager := foldl untrack cm ids.

(** What axum makes of the body of a request before the handler is called. *)
Inductive Body (A : Type) := Extracted (a : A) | Rejected (code : Z).
Arguments Extracted {A}.
Arguments Rejected {A}.
Inductive ApiRequest :=
| GetStatus
| GetVersion
| GetOutbounds
| GetConnections
| CloseConnection (body : Body Z)
| CloseAllConnections
| GetStats
| Reload (body : Body (option Options))
| SelectOutbound (body : Body (list byte * list byte))
| UrlTest (body : Body (list byte)).

Definition set_connections (b : RsBox) (cm : ConnectionManager) : RsBox :=
  mkRsBox (bx_options b) (bx_inbound b) (bx_outbound b) (bx_cells b) (bx_router b) cm (bx_dns b) (bx_world b).
Definition set_cells (b : RsBox) (c : Cells) : RsBox :=
  mkRsBox (bx_options b) (bx_inbound b) (bx_outbound b) c (bx_router b) (bx_connections b) (bx_dns b) (bx_world b).

Section Api.
Context `{UserCrypto} `{RuleSets.World} `{Zlib}.
Variable binds : InboundObj -> result unit.
Variable to_socket_addrs : list byte -> result (list SocketAddr).
(** What the program was built with: its version, its controller, whether it can reload. *)
Variable version : list byte.
Variable controller : OutboundController.
Variable reloads : bool.
(** The delays a test of a group measures. *)
Variable probe_all : list byte -> list (list byte * option Z).

Definition outbound_entries (o : Options) : list (list byte * list byte) :=
  imap (fun i ob => (outbound_tag ob (Z.of_nat i), oc_kind ob)) (o_outbounds o).
(** [for id in list: untrack(id)] *)
Definition untrack_everything (b : RsBox) : RsBox :=
  set_connections b (untrack_all (map ci_id (list_connections (bx_connections b))) (bx_connections b)).

(** The handlers; each checks the token itself. *)
Definition handle_status (users : Tokens) (h : Headers) (b : RsBox) : Reply * RsBox :=
  if negb (api_auth h users) then (Status UNAUTHORIZED, b)
  else (Json (Object [field "status" (Str (str "running")); field "version" (Str version)]), b).
Definition handle_version (users : Tokens) (h : Headers) (b : RsBox) : Reply * RsBox :=
  if negb (api_auth h users) then (Status UNAUTHORIZED, b)
  else (Json (Object [field "version" (Str version); field "experimental" (Bool true)]), b).
Definition handle_outbounds (users : Tokens) (h : Headers) (b : RsBox) : Reply * RsBox :=
  if negb (api_auth h users) then (Status UNAUTHORIZED, b)
  else
    let entry := fun e => Object [field "tag" (Str e.1); field "type" (Str e.2)] in
    (Json (Object [field "outbounds" (Array (map entry (outbound_entries (bx_options b))))]), b).
Definition handle_connections (users : Tokens) (h : Headers) (b : RsBox) : Reply * RsBox :=
  if negb (api_auth h users) then (Status UNAUTHORIZED, b)
  else (Json (Object [field "connections" (Array (map connection_json (list_connections (bx_connections b))))]), b).
Definition handle_close (users : Tokens) (h : Headers) (id : Z) (b : RsBox) : Reply * RsBox :=
  if negb (api_auth h users) then (Status UNAUTHORIZED, b)
  else (Json (Object [field "closed" (json_number id)]), set_connections b (untrack (bx_connections b) id)).
Definition handle_close_all (users : Tokens) (h : Headers) (b : RsBox) : Reply * RsBox :=
  if negb (api_auth h users) then (Status UNAUTHORIZED, b)
  else (Json (Object [field "closed" (json_number (zlen (list_connections (bx_connections b))))]), untrack_everything b).
Definition handle_stats (users : Tokens) (h : Headers) (b : RsBox) : Reply * RsBox :=
  if negb (api_auth h users) then (Status UNAUTHORIZED, b)
  else
    let cm := bx_connections b in
    let '(stat, cm') := v2ray_stat_entries cm in
    (Json (Object [field "connections" (json_number (zlen (list_connections cm))); field "outbounds" (json_number (zlen (o_outbounds (bx_options b))));
                   field "inbounds" (json_number (zlen (o_inbounds (bx_options b)))); field "stat" (Array (map stat_json stat))]),
     set_connections b cm').
Definition handle_reload (users : Tokens) (h : Headers) (body : option Options) (b : RsBox) : Reply * RsBox :=
  if negb (api_auth h users) then (Status UNAUTHORIZED, b)
  else if negb reloads then (Status 501, b)
  else
    let ok := Json (Object [field "ok" (Bool true)]) in
    match body with
    | None => (ok, reload_current_users b)
    | Some o =>
        match reload binds to_socket_addrs b o with
        | (Ok _, b) => (ok, b)
        | (Err _, b) => (Status 400, b)
        | (Panic _, b) => (Dropped, b)
        end
    end.
Definition handle_select (users : Tokens) (h : Headers) (group outbound : list byte) (b : RsBox) : Reply * RsBox :=
  if negb (api_auth h users) then (Status UNAUTHORIZED, b)
  else
    match controller_select controller group outbound (bx_cells b) with
    | Ok c => (Json (Object [field "group" (Str group); field "selected" (Str outbound)]), set_cells b c)
    | _ => (Status 400, b)
    end.
Definition handle_url_test (users : Tokens) (h : Headers) (group : list byte) (b : RsBox) : Reply * RsBox :=
  if negb (api_auth h users) then (Status UNAUTHORIZED, b)
  else
    match run_url_test controller group (probe_all group) (bx_cells b) with
    | (Ok (selected, delays), c) =>
        (Json (Object [field "group" (Str group); field "selected" (Str selected);
                       field "delays" (Array (map (fun d => Object [field "tag" (Str d.1); field "delay_ms" (json_number d.2)]) delays))]),
         set_cells b c)
    | (_, c) => (Status 400, set_cells b c)
    end.

(** A body that cannot be extracted is refused before the handler, and its check, run. *)
Definition with_body {A : Type} (body : Body A) (b : RsBox) (handler : A -> RsBox -> Reply * RsBox) : Reply * RsBox :=
  match body with
  | Extracted a => handler a b
  | Rejected code => (Status code, b)
  end.
Definition api_handle (users : Tokens) (h : Headers) (r : ApiRequest) (b : RsBox) : Reply * RsBox :=
  match r with
  | GetStatus => handle_status users h b
  | GetVersion => handle_version users h b
  | GetOutbounds => handle_outbounds users h b
  | GetConnections => handle_connections users h b
  | CloseConnection body => with_body body b (handle_close users h)
  | CloseAllConnections => handle_close_all users h b
  | GetStats => handle_stats users h b
  | Reload body => with_body body b (handle_reload users h)
  | SelectOutbound body => with_body body b (fun tags => handle_select users h tags.1 tags.2)
  | UrlTest body => with_body body b (handle_url_test users h)
  end.

(** *** The gRPC listener of the same service *)

Record GrpcConnection := mkGrpcConnection {
  gc_id : Z;
  gc_inbound : list byte;
  gc_outbound : list byte;
  gc_network : list byte;
  gc_source : list byte;
  gc_destination : list byte;
  gc_domain : list byte;
  gc_started_at : Z;
}.
Definition grpc_connection (c : ConnectionInfo) : GrpcConnection :=
  mkGrpcConnection (ci_id c) (ci_inbound_tag c) (ci_outbound_tag c) (ci_network c) (default [] (format_address <$> ci_source c))
    (default [] (format_address <$> ci_destination c)) (default [] (ci_domain c)) (ci_started_at c).
Inductive GrpcRequest :=
| GrpcGetVersion
| GrpcGetConnections
| GrpcCloseConnection (id : Z)
| GrpcCloseAllConnections
| GrpcGetStats
| GrpcGroupList
| GrpcSelect (group_tag outbound_tag : list byte)
| GrpcUrlTest (group_tag : list byte)
| GrpcOutboundList.
Inductive GrpcReply :=
| GrpcVersion (version : list byte)
| GrpcConnections (l : list GrpcConnection)
| GrpcEmpty
| GrpcStats (connections outbounds : Z)
| GrpcOutbounds (l : list (list byte * list byte))
| GrpcUrlTestResult (selected : list byte) (delays : list (list byte * Z))
| GrpcInternal.
(** [GrpcApi]: no token is asked for. *)
Definition grpc_handle (r : GrpcRequest) (b : RsBox) : GrpcReply * RsBox :=
  match r with
  | GrpcGetVersion => (GrpcVersion version, b)
  | GrpcGetConnections => (GrpcConnections (map grpc_connection (list_connections (bx_connections b))), b)
  | GrpcCloseConnection id => (GrpcEmpty, set_connections b (untrack (bx_connections b) id))
  | GrpcCloseAllConnections => (GrpcEmpty, untrack_everything b)
  | GrpcGetStats => (GrpcStats (zlen (list_connections (bx_connections b))) (zlen (o_outbounds (bx_options b))), b)
  | GrpcGroupList | GrpcOutboundList => (GrpcOutbounds (outbound_entries (bx_options b)), b)
  | GrpcSelect group outbound =>
      match controller_select controller group outbound (bx_cells b) with
      | Ok c => (GrpcEmpty, set_cells b c)
      | _ => (GrpcInternal, b)
      end
  | GrpcUrlTest group =>
      match run_url_test controller group (probe_all group) (bx_cells b) with
      | (Ok (selected, delays), c) => (GrpcUrlTestResult selected delays, set_cells b c)
      | (_, c) => (GrpcInternal, set_cells b c)
      end
  end.

(** [ApiService::start]: the HTTP routes, and the gRPC listener if it has an address. *)
Inductive Incoming := OverHttp (h : Headers) (r : ApiRequest) | OverGrpc (r : GrpcRequest).
Inductive ApiAnswer := HttpAnswer (r : Reply) | GrpcAnswer (r : GrpcReply) | NotListening.
Definition api_serve (cfg : ApiConfig) (i : Incoming) (b : RsBox) : ApiAnswer * RsBox :=
  match i with
  | OverHttp h r => let '(reply, b) := api_handle (ac_users cfg) h r b in (HttpAnswer reply, b)
  | OverGrpc r =>
      match ac_grpc_listen cfg with
      | Some _ => let '(reply, b) := grpc_handle r b in (GrpcAnswer reply, b)
      | None => (NotListening, b)
      end
  end.
End Api.

(** ** The Clash interface *)

(** [OutboundController::list_proxies]: groups, then the outbounds that are none. *)
Definition group_entry (kind : string) (now : list byte) (all : list (list byte)) : Value :=
  Object [field "type" (Str (str kind)); field "now" (Str now); field "all" (Array (map Str all))].
Definition list_proxies (oc : OutboundController) (c : Cells) (m : OutboundManager) : list (list byte * Value) :=
  let proxies := foldl (fun ps s => set_assoc s.1 (group_entry "Selector" (group_selected s.2 (cell c s.1)) s.2) ps) [] (map_to_list (oc_selectors oc)) in
  let proxies := foldl (fun ps s => set_assoc s.1 (group_entry "Fallback" (fallback_selected s.2 (cell c s.1)) s.2) ps) proxies (map_to_list (oc_fallbacks oc)) in
  foldl (fun ps o => match assoc o.1 ps with
                     | Some _ => ps
                     | None => set_assoc o.1 (Object [field "type" (Str o.2); field "history" (Array [])]) ps
                     end) proxies (outbound_kinds m).

(** [CacheFileService]: the choices by group, and the file; writing the choices as JSON and
    reading them back is serde's. *)
Abbreviation CacheState := (gmap (list byte) (list byte)).
Class CacheCodec := {
  cache_encode : CacheState -> list byte;
  cache_decode : list byte -> option CacheState;
  cache_decode_encode m : cache_decode (cache_encode m) = Some m;
}.
Record ClashState := mkClashState {
  cl_cells : Cells;
  cl_cache : option CacheState;
  cl_file : option (list byte);
}.
Section Clash.
Context `{CacheCodec}.
Variable controller : OutboundController.
Variable manager : OutboundManager.
Variable secret : option (list byte).

Definition clash_auth_ok (h : Headers) : bool :=
  match secret with
  | None => true
  | Some s => match header_str h "authorization" with Some v => bool_decide (without_bearer v = s) | None => false end
  end.
Definition cache_start (file : option (list byte)) : CacheState :=
  match file with
  | Some text => default ∅ (cache_decode text)
  | None => ∅
  end.
Inductive ClashRequest :=
| ListProxies
| GetProxy (name : list byte)
| SelectProxy (selector name : list byte)
| ListClashConnections.
Definition clash_connection_json (c : ConnectionInfo) : Value :=
  Object [field "id" (Str (show_uint (ci_id c)));
          field "metadata" (Object [field "network" (Str (ci_network c)); field "sourceIP" (json_text ((fun a => show_ip (sa_ip a)) <$> ci_source c));
            field "destinationIP" (json_text ((fun a => show_ip (sa_ip a)) <$> ci_destination c));
            field "destinationPort" (match ci_destination c with Some a => json_number (sa_port a) | None => Null end);
            field "host" (json_text (ci_domain c))]);
          field "chains" (Array [Str (ci_outbound_tag c)]); field "rule" (Str []); field "start" (json_number (ci_started_at c))].
(** [select_proxy]: the choice is made, noted and written to the file; a write that fails is
    ignored. *)
Definition select_proxy (write_ok : bool) (selector name : list byte) (s : ClashState) : Reply * ClashState :=
  match controller_select controller selector name (cl_cells s) with
  | Ok c =>
      match cl_cache s with
      | None => (Status 204, mkClashState c None (cl_file s))
      | Some cache =>
          let cache := <[selector := name]> cache in
          (Status 204, mkClashState c (Some cache) (if write_ok then Some (cache_encode cache) else cl_file s))
      end
  | _ => (Status 400, s)
  end.
Definition clash_handle (cm : ConnectionManager) (write_ok : bool) (h : Headers) (r : ClashRequest) (s : ClashState) : Reply * ClashState :=
  if negb (clash_auth_ok h) then (Status UNAUTHORIZED, s)
  else
    match r with
    | ListProxies => (Json (Object (list_proxies controller (cl_cells s) manager)), s)
    | GetProxy name => (match assoc name (list_proxies controller (cl_cells s) manager) with Some v => Json v | None => Status 404 end, s)
    | SelectProxy selector name => select_proxy write_ok selector name s
    | ListClashConnections => (Json (Object [field "connections" (Array (map clash_connection_json (list_connections cm)))]), s)
    end.
(** The beginning of a run ([main.rs]): the file is read and the choices in it are made
    again, in the order the map is visited. *)
Definition clash_restart (file : option (list byte)) (order : CacheState -> list (list byte * list byte)) (initial : Cells) : ClashState :=
  let cache := cache_start file in
  mkClashState (restore_selectors controller (order cache) initial) (Some cache) file.
End Clash.

(** [v2ray_stats_json]. *)
Definition v2ray_stats_json (pattern : option (list byte)) (reset : option bool) (cm : ConnectionManager) : Reply * ConnectionManager :=
  let '(stat, cm) := query_v2ray_stats cm (default [] pattern) (default false reset) in
  (Json (Object [field "stat" (Array (map stat_json stat))]), cm).
(** The addresses [V2RayApiServer::start] listens on: for HTTP, and for gRPC, which takes
    the other's when that is switched off. *)
Definition v2ray_listen (options : Value) : result (option SocketAddr * option SocketAddr) :=
  match options with
  | Null => Ok (None, None)
  | _ =>
      addr ← ok_or "invalid socket address syntax" (parse_socket_addr (default (str "127.0.0.1:8080") (text options "listen")));
      let http := default true (flag options "http") in
      grpc ← match text options "grpc_listen" with
             | Some s => Some <$> ok_or "invalid socket address syntax" (parse_socket_addr s)
             | None => Ok None
             end;
      Ok (if http then Some addr else None, or_else grpc (if http then None else Some addr))
  end.

(** ** Managed servers *)

Definition object_set (k : list byte) (v : Value) (o : Value) : option Value :=
  match o with Object fields => Some (Object (set_assoc k v fields)) | _ => None end.
Definition value_get (k : list byte) (v : Value) : option Value :=
  match v with Object fields => assoc k fields | _ => None end.
(** The value behind the lock; a handler that panics holding the lock leaves it poisoned,
    and then every handler that takes it panics. *)
Record SsmState := mkSsmState {
  ss_servers : Value;
  ss_poisoned : bool;
}.
Definition ssm_new (raw : Value) : SsmState := mkSsmState (default (Object []) (get raw "servers")) false.
Definition managed_inbounds (o : Options) : list Value :=
  omap (fun x => let '(i, ib) := x in
    if bool_decide (ib_kind ib = str "shadowsocks") && default false (flag (ib_raw ib) "managed") then
      Some (Object [field "tag" (Str (inbound_tag ib (Z.of_nat i))); field "type" (Str (ib_kind ib));
                    field "listen" (default Null (get (ib_raw ib) "listen")); field "listen_port" (default Null (get (ib_raw ib) "listen_port"));
                    field "method" (default Null (get (ib_raw ib) "method"))])
    else None) (zip (seq 0 (length (o_inbounds o))) (o_inbounds o)).
Inductive SsmRequest :=
| SsmList
| SsmGet (path : list byte)
| SsmCreate (body : Value)
| SsmUpdate (path : list byte) (body : Value)
| SsmDelete (path : list byte).
Definition ssm_tag (body : Value) : list byte := default (str "ssm-server") (text body "tag").
Definition ssm_handle (o : Options) (users : Tokens) (h : Headers) (r : SsmRequest) (s : SsmState) : Reply * SsmState :=
  if negb (match users with [] => true | _ => bool_decide (is_Some (auth_token h users)) end) then (Status UNAUTHORIZED, s)
  else if ss_poisoned s then (Dropped, s)
  else
    let servers := ss_servers s in
    match r with
    | SsmList => (Json (Object [field "servers" servers; field "managed_inbounds" (Array (managed_inbounds o))]), s)
    | SsmGet path =>
        (match value_get path servers with
         | Some v => Json v
         | None =>
             match List.find (fun v => bool_decide (text v "tag" = Some path)) (managed_inbounds o) with
             | Some found => Json found
             | None => Status 404
             end
         end, s)
    | SsmCreate body =>
        let tag := ssm_tag body in
        let servers := match servers with Object _ => servers | _ => Object [] end in
        match value_get tag servers with
        | Some _ => (Status 409, mkSsmState servers false)
        | None =>
            match object_set tag body servers with
            | Some servers => (Json (Object [field "created" (Str tag)]), mkSsmState servers false)
            | None => (Dropped, mkSsmState servers true)
            end
        end
    | SsmUpdate path body =>
        match value_get path servers with
        | None => (Status 404, s)
        | Some _ =>
            match object_set path body servers with
            | Some servers => (Json (Object [field "updated" (Str path)]), mkSsmState servers false)
            | None => (Dropped, mkSsmState servers true)
            end
        end
    | SsmDelete path =>
        match servers with
        | Object fields =>
            match assoc path fields with
            | Some _ => (Json (Object [field "deleted" (Str path)]), mkSsmState (Object (del_assoc path fields)) false)
            | None => (Status 404, s)
            end
        | _ => (Dropped, mkSsmState servers true)
        end
    end.

(** ** The credential proxy *)

Record Multiplexer := mkMultiplexer {
  mp_kind : list byte;
  mp_auto_refresh : bool;
  mp_oauth_client_id : list byte;
  mp_users : Tokens;
  mp_credential_path : option (list byte);
  mp_upstream_base : list byte;
  mp_auth_header : list byte;
  mp_oauth_field : list byte;
}.
Definition multiplexer_new (kind : list byte) (raw : Value) (upstream auth_header oauth_field : list byte) : result (SocketAddr * Multiplexer) :=
  listen ← service_listen raw;
  Ok (listen, mkMultiplexer kind (default false (flag raw "auto_refresh"))
    (default (if bool_decide (kind = str "ocm") then str "app_rsbox" else str "claude-code")
       (v ← or_else (get raw "oauth_client_id") (get raw "client_id"); as_str v))
    (parse_user_tokens raw) (text raw "credential_path") upstream auth_header oauth_field).
Definition ccm_new (raw : Value) : result (SocketAddr * Multiplexer) :=
  multiplexer_new (str "ccm") raw (str "https://api.anthropic.com") (str "x-api-key") (str "accessToken").
Definition ocm_new (raw : Value) : result (SocketAddr * Multiplexer) :=
  multiplexer_new (str "ocm") raw (str "https://api.openai.com") (str "authorization") (str "access_token").

(** [Router::route] of axum 0.8: the old forms of captures are refused. *)
Definition axum_route (path : string) : result unit :=
  if existsb (fun seg => match seg with x3a :: _ | x2a :: _ => true | _ => false end) (split x2f (str path))
  then Panic "Path segments must not start with a capture of the old form" else Ok tt.
Definition multiplexer_start : result unit :=
  _ ← axum_route "/health"; axum_route "/*path".

(** [Value::pointer] with two names. *)
Definition pointer2 (v : Value) (a b : string) : option Value := x ← get v a; get x b.
Definition extract_oauth_token (m : Multiplexer) (json : Value) : result (list byte) :=
  match (v ← value_get (mp_oauth_field m) json; as_str v) with
  | Some t => Ok t
  | None =>
      match (v ← pointer2 json "claudeAiOauth" "accessToken"; as_str v) with
      | Some t => Ok t
      | None =>
          match (v ← pointer2 json "tokens" "access_token"; as_str v) with
          | Some t => Ok t
          | None => Err "oauth token not found in credential file"
          end
      end
  end.
Definition saturating_add64 (a b : Z) : Z := Z.min (a + b) u64_max.
Definition token_expired (now : Z) (json : Value) : bool :=
  match (v ← get json "expires_at"; as_u64 v) with
  | Some exp => exp <=? saturating_add64 now 60
  | None =>
      match (v ← pointer2 json "claudeAiOauth" "expiresAt"; as_u64 v) with
      | Some exp => exp <=? saturating_add64 (saturating_mul64 now 1000) 60000
      | None =>
          match (v ← pointer2 json "tokens" "expires_at"; as_u64 v) with
          | Some exp => exp <=? saturating_add64 now 60
          | None => false
          end
      end
  end.
Definition refresh_token (json : Value) : option (list byte) :=
  v ← or_else (get json "refresh_token") (pointer2 json "tokens" "refresh_token"); as_str v.
(** What is kept of the answer, at the time it is read. *)
Definition merge_refreshed (m : Multiplexer) (now : Z) (json refreshed : Value) : Value :=
  match json with
  | Object obj =>
      let obj := match text refreshed "access_token" with
                 | Some t => set_assoc (str "access_token") (Str t) (set_assoc (mp_oauth_field m) (Str t) obj)
                 | None => obj
                 end in
      let obj := match number refreshed "expires_in" with
                 | Some e => set_assoc (str "expires_at") (json_number (saturating_add64 now e)) obj
                 | None => obj
                 end in
      let obj := match text refreshed "refresh_token" with
                 | Some t => set_assoc (str "refresh_token") (Str t) obj
                 | None => obj
                 end in
      Object obj
  | _ => json
  end.
Section Credentials.
(** The file system, the JSON of a text, the answer of the token server to a form, the home
    directory and the clock. *)
Variable write_ok : bool.
Variable read_file : list byte -> option (list byte).
Variable parse_json : list byte -> option Value.
Variable post : list byte -> list (list byte * list byte) -> option Value.
Variable home : option (list byte).
Variable now : Z.

Definition default_credential_path : option (list byte) := (fun h => h ++ str "/.claude/.credentials.json") <$> home.
Definition token_url (m : Multiplexer) : list byte :=
  if bool_decide (mp_kind m = str "ocm") then str "https://auth.openai.com/oauth/token" else str "https://console.anthropic.com/v1/oauth/token".
(** The new credentials, once they are written to the file. *)
Definition refresh_oauth_token (m : Multiplexer) (json : Value) : result Value :=
  refresh ← ok_or "refresh_token missing" (refresh_token json);
  refreshed ← ok_or "oauth refresh" (post (token_url m) [(str "grant_type", str "refresh_token"); (str "refresh_token", refresh);
                                       (str "client_id", mp_oauth_client_id m)]);
  if write_ok then Ok (merge_refreshed m now json refreshed) else Err "write credential".
Definition load_oauth_token (m : Multiplexer) : result (list byte) :=
  path ← ok_or "credential_path not configured" (or_else (mp_credential_path m) default_credential_path);
  data ← ok_or "read credential" (read_file path);
  json ← ok_or "invalid json" (parse_json data);
  json ← (if mp_auto_refresh m && token_expired now json then refresh_oauth_token m json else Ok json);
  extract_oauth_token m json.

Definition credential_headers : list (list byte) := map str ["host"; "authorization"; "x-api-key"; "anthropic-auth-token"]%string.
Definition upstream_headers (m : Multiplexer) (token : list byte) (h : Headers) : Headers :=
  List.filter (fun kv => negb (bool_decide (kv.1 ∈ credential_headers))) h
  ++ [if bool_decide (mp_auth_header m = str "authorization") then (str "authorization", str "Bearer " ++ token) else (mp_auth_header m, token)].
(** [proxy_request], up to the request that is sent: its address and its headers. *)
Definition proxy_request (m : Multiplexer) (path : list byte) (query : option (list byte)) (h : Headers) (body_size : Z)
  : Z + (list byte * Headers) :=
  if negb (bool_decide (mp_users m = [])) && negb (bool_decide (is_Some (auth_token h (mp_users m)))) then inl UNAUTHORIZED
  else
    match load_oauth_token m with
    | Ok token =>
        let url := mp_upstream_base m ++ path ++ match query with Some q => str "?" ++ q | None => [] end in
        if 16 * 1024 * 1024 <? body_size then inl 400 else inr (url, upstream_headers m token h)
    | _ => inl 503
    end.
End Credentials.

(** ** Access *)

Lemma auth_token_spec h users t : users <> [] ->
  auth_token h users = Some t <-> presented_token h = Some t /\ t ∈ map snd users.
Proof.
  intros Hu. unfold auth_token. destruct users as [|u users]; [done|]. destruct (presented_token h) as [t'|]; cbn [mbind option_bind]; [|split; [done|by intros [? _]]].
  destruct (existsb _ _) eqn:E.
  - apply existsb_exists in E as (x & Hx & Ht). apply bool_decide_eq_true in Ht. split.
    + intros [= <-]. split; [done|]. rewrite <-Ht. apply list_elem_of_In, in_map, Hx.
    + by intros [[= ->] _].
  - split; [done|]. intros [[= ->] Hin]. apply list_elem_of_In, in_map_iff in Hin as (x & Hx & Hin).
    assert (existsb (fun u => bool_decide (u.2 = t)) (u :: users) = true); [|congruence]. apply existsb_exists. exists x. split; [done|]. by apply bool_decide_eq_true.
Qed.

Section ApiFacts.
Context `{UserCrypto} `{RuleSets.World} `{Zlib}.
Variable binds : InboundObj -> result unit.
Variable to_socket_addrs : list byte -> result (list SocketAddr).
Variables (version : list byte) (controller : OutboundController) (reloads : bool).
Variable probe_all : list byte -> list (list byte * option Z).
Abbreviation handle := (api_handle binds to_socket_addrs version controller reloads probe_all).

(** The status a request is refused with because of its body. *)
Definition body_refused (r : ApiRequest) : option Z :=
  match r with
  | CloseConnection (Rejected c) | Reload (Rejected c) | SelectOutbound (Rejected c) | UrlTest (Rejected c) => Some c
  | _ => None
  end.
(** The HTTP request that does what a gRPC request does, for those that change anything. *)
Definition http_twin (r : GrpcRequest) : option ApiRequest :=
  match r with
  | GrpcCloseConnection id => Some (CloseConnection (Extracted id))
  | GrpcCloseAllConnections => Some CloseAllConnections
  | GrpcSelect group outbound => Some (SelectOutbound (Extracted (group, outbound)))
  | GrpcUrlTest group => Some (UrlTest (Extracted group))
  | _ => None
  end.

Lemma api_auth_spec h users : api_auth h users
  = bool_decide (users = []) || match presented_token h with Some t => bool_decide (t ∈ map snd users) | None => false end.
Proof.
  unfold api_auth. destruct users as [|u us]; [done|]. rewrite (bool_decide_eq_false_2 (u :: us = [])) by done. cbn [orb].
  destruct (auth_token h (u :: us)) as [t|] eqn:E.
  - apply auth_token_spec in E as [-> Hin]; [|done]. by rewrite bool_decide_eq_true_2.
  - destruct (presented_token h) as [t|] eqn:Ep; [|done]. rewrite bool_decide_eq_false_2; [done|]. intros Hin.
    assert (auth_token h (u :: us) = Some t) by (by apply auth_token_spec). congruence.
Qed.
(** Every handler: past its body, it is the check that decides. *)
Lemma handler_checks users h r b : body_refused r = None ->
  handle users h r b = if api_auth h users then handle [] h r b else (Status UNAUTHORIZED, b).
Proof.
  intros Hb. destruct r as [| | | |[]| | |[]|[]|[]]; cbn [body_refused] in Hb; try discriminate Hb; cbn [api_handle with_body];
    unfold handle_status, handle_version, handle_outbounds, handle_connections, handle_close, handle_close_all, handle_stats,
      handle_reload, handle_select, handle_url_test; change (api_auth h []) with true; by destruct (api_auth h users).
Qed.

(** C28.  Access to the API service.  Over HTTP, with users configured, a request takes
    effect only when the token of its first legible header (authorization, then x-api-key,
    then anthropic-auth-token) is that of a user; any other request, whatever it asks for,
    is answered with 401 and changes nothing.  Only a body that axum cannot extract is
    refused earlier, with its own status, and changes nothing either.  A secret alone makes
    one such user; with neither, everybody is let in.  The gRPC listener of the same
    service, started whenever an address for it is configured, asks for no token at all:
    whatever the users are, anybody's request to close connections, to select an outbound
    or to test a group changes what the HTTP request of a user changes. *)
Theorem api_access raw h r g b :
  match api_service_new raw with
  | Ok cfg =>
      let users := ac_users cfg in
      let serve := api_serve binds to_socket_addrs version controller reloads probe_all cfg in
      let known := match presented_token h with Some t => bool_decide (t ∈ map snd users) | None => false end in
      serve (OverHttp h r) b
      = match body_refused r with
        | Some code => (HttpAnswer (Status code), b)
        | None => if bool_decide (users = []) || known then (HttpAnswer (handle [] h r b).1, (handle [] h r b).2)
                  else (HttpAnswer (Status UNAUTHORIZED), b)
        end
      /\ (users = [] <-> parse_user_tokens raw = [] /\ text raw "secret" = None)
      /\ match ac_grpc_listen cfg with
         | None => serve (OverGrpc g) b = (NotListening, b)
         | Some _ => (serve (OverGrpc g) b).2 = match http_twin g with Some r => (handle [] h r b).2 | None => b end
         end
  | _ => True
  end.
Proof.
  unfold api_service_new. destruct (service_listen raw) as [l|e|e]; cbn [mbind result_bind]; [|done..]. cbn [ac_users ac_grpc_listen]. cbv zeta.
  set (users := match parse_user_tokens raw, text raw "secret" with [], Some s => _ | _, _ => _ end). split; [|split].
  - unfold api_serve. cbn [ac_users]. destruct (body_refused r) as [code|] eqn:Eb.
    + destruct r as [| | | |[]| | |[]|[]|[]]; cbn in Eb; simplify_eq; done.
    + rewrite handler_checks, api_auth_spec by done. destruct (_ || _); [|done]. by destruct (handle [] h r b).
  - unfold users. destruct (parse_user_tokens raw); [|naive_solver]. destruct (text raw "secret"); naive_solver.
  - unfold api_serve. cbn [ac_grpc_listen]. destruct (parse_grpc_listen raw); [|done].
    destruct g; cbn [grpc_handle http_twin api_handle with_body fst snd]; try done;
      unfold handle_select, handle_url_test; change (api_auth h []) with true; cbn [negb fst snd].
    + by destruct (controller_select controller group_tag outbound_tag (bx_cells b)).
    + by destruct (run_url_test controller group_tag (probe_all group_tag) (bx_cells b)) as [[[]|?|?] c].
Qed.

(** Closing connections through the API takes them off the table and nothing else: what they
    carry afterwards is counted as before. *)
Lemma write_untracked ts n cm ids : tracked_write ts n (untrack_all ids cm) = untrack_all ids (tracked_write ts n cm).
Proof. revert cm. unfold untrack_all. induction ids as [|id ids IH]; intros cm; [done|]. cbn [foldl]. rewrite IH. f_equal. unfold tracked_write. by destruct (0 <? n). Qed.
Lemma untrack_all_active ids cm id : active (untrack_all ids cm) !! id = if bool_decide (id ∈ ids) then None else active cm !! id.
Proof.
  revert cm. unfold untrack_all. induction ids as [|j ids IH]; intros cm; [done|]. cbn [foldl]. rewrite IH. unfold untrack at 1. cbn [active].
  destruct (decide (id = j)) as [->|Hne].
  - rewrite lookup_delete_eq. rewrite (bool_decide_eq_true_2 (j ∈ j :: ids)) by (apply elem_of_cons; by left). by case_bool_decide.
  - rewrite lookup_delete_ne by done. erewrite bool_decide_ext; [reflexivity|]. rewrite elem_of_cons. naive_solver.
Qed.
Lemma close_all_closes_nothing b : (forall id c, active (bx_connections b) !! id = Some c -> ci_id c = id) ->
  active (bx_connections (untrack_everything b)) = ∅
  /\ forall ts n, active (tracked_write ts n (bx_connections (untrack_everything b))) = ∅
       /\ global (tracked_write ts n (bx_connections (untrack_everything b))) = global (tracked_write ts n (bx_connections b)).
Proof.
  intros Hid. unfold untrack_everything. cbn [set_connections bx_connections]. set (ids := map ci_id _). set (cm := bx_connections b) in *.
  assert (Ha : active (untrack_all ids cm) = ∅).
  { apply map_eq. intros id. rewrite untrack_all_active, lookup_empty. case_bool_decide as Hin; [done|].
    destruct (active cm !! id) as [c|] eqn:E; [|done]. destruct Hin. unfold ids, list_connections. rewrite map_map.
    apply list_elem_of_In, in_map_iff. exists (id, c). split; [by apply Hid|]. by apply list_elem_of_In, elem_of_map_to_list. }
  split; [done|]. intros ts n. split.
  - transitivity (active (untrack_all ids cm)); [|done]. unfold tracked_write, record_traffic. by repeat case_match.
  - rewrite write_untracked. generalize (tracked_write ts n cm). intros c. clear. revert c. unfold untrack_all.
    induction ids as [|id ids IH]; intros c; [done|]. cbn [foldl]. by rewrite IH.
Qed.
End ApiFacts.

(** ** Choices outlive the program *)

Lemma restore_other oc saved c g : g ∉ map fst saved -> restore_selectors oc saved c !! g = c !! g.
Proof.
  revert c. unfold restore_selectors. induction saved as [|[g' n'] saved IH]; intros c Hg; [done|]. cbn [map fst] in Hg. apply not_elem_of_cons in Hg as [Hne Hg].
  cbn [foldl fst snd]. rewrite IH by done. destruct (oc_selectors oc !! g') as [outs|]; [|done]. unfold selector_select.
  destruct (position n' outs); cbn; [|done]. by rewrite lookup_insert_ne.
Qed.
Lemma restore_chosen oc saved c g n outs i : NoDup (map fst saved) -> (g, n) ∈ saved -> oc_selectors oc !! g = Some outs -> position n outs = Some i ->
  restore_selectors oc saved c !! g = Some i.
Proof.
  intros Hnd Hin Hg Hp. revert c. induction saved as [|[g' n'] saved IH]; intros c; [by apply elem_of_nil in Hin|].
  cbn [map fst] in Hnd. apply NoDup_cons in Hnd as [Hnew Hnd]. apply elem_of_cons in Hin as [[= <- <-]|Hin].
  - change (restore_selectors oc ((g, n) :: saved) c !! g) with (restore_selectors oc saved (match oc_selectors oc !! g with
      | Some outs => match selector_select g outs n c with Ok c => c | _ => c end | None => c end) !! g).
    rewrite restore_other by done. rewrite Hg. unfold selector_select. rewrite Hp. cbn. by rewrite lookup_insert_eq.
  - unfold restore_selectors. cbn [foldl]. by apply IH.
Qed.

(** A choice made through the Clash interface is kept.  It takes effect at once, and
    when the program is started again with the same groups, whatever choice a group begins
    with and in whatever order the file's are made again, the group has it; so have the
    other groups in the file. *)
Theorem selection_survives `{CacheCodec} oc selector name s cache order initial : cl_cache s = Some cache ->
  (forall m, order m ≡ₚ map_to_list m) ->
  let '(reply, s') := select_proxy oc true selector name s in
  match oc_selectors oc !! selector with
  | Some outs =>
      if bool_decide (name ∈ outs) then
        reply = Status 204 /\ controller_selected oc selector (cl_cells s') = Some name
        /\ forall g n outs', (<[selector := name]> cache : CacheState) !! g = Some n -> oc_selectors oc !! g = Some outs' -> n ∈ outs' ->
             controller_selected oc g (cl_cells (clash_restart oc (cl_file s') order initial)) = Some n
      else reply = Status 400 /\ s' = s
  | None => reply = Status 400 /\ s' = s
  end.
Proof.
  intros Hc Ho. unfold select_proxy, controller_select. destruct (oc_selectors oc !! selector) as [outs|] eqn:Es; [|done].
  cbn [ok_or mbind result_bind]. unfold selector_select. case_bool_decide as Hin.
  - apply position_elem in Hin as [i Hi]. rewrite Hi. cbn [ok_or mbind result_bind]. rewrite Hc. split; [done|]. cbn [cl_cells cl_file].
    split.
    + unfold controller_selected. rewrite Es. unfold cell. rewrite lookup_insert_eq. cbn. unfold group_selected.
      by rewrite (position_lookup _ _ _ Hi).
    + intros g n outs' Hg Hs Hn. set (m := <[selector := name]> cache) in *.
      assert (Hr : cl_cells (clash_restart oc (Some (cache_encode m)) order initial) = restore_selectors oc (order m) initial)
        by (unfold clash_restart, cache_start; by rewrite cache_decode_encode).
      rewrite Hr. apply position_elem in Hn as [j Hj]. unfold controller_selected. rewrite Hs. unfold cell.
      rewrite (restore_chosen oc (order m) initial g n outs' j); [|..].
      * cbn. unfold group_selected. by rewrite (position_lookup _ _ _ Hj).
      * assert (Hp : map fst (order m) ≡ₚ map fst (map_to_list m)) by (by apply fmap_Permutation). rewrite Hp. apply NoDup_fst_map_to_list.
      * rewrite (Ho m). by apply elem_of_map_to_list.
      * done.
      * done.
  - destruct (position name outs) as [i|] eqn:Ei; [|done]. destruct Hin. apply position_elem. by eexists.
Qed.

(** ** Managed servers are a finite map *)

Inductive SsmOutcome := Listed | Found (v : option Value) | Created (tag : list byte) | Conflict | Updated (path : list byte) | Deleted (path : list byte) | Missing.
(** The specification. *)
Definition ssm_spec (r : SsmRequest) (m : gmap (list byte) Value) : SsmOutcome * gmap (list byte) Value :=
  match r with
  | SsmList => (Listed, m)
  | SsmGet path => (Found (m !! path), m)
  | SsmCreate body => match m !! ssm_tag body with Some _ => (Conflict, m) | None => (Created (ssm_tag body), <[ssm_tag body := body]> m) end
  | SsmUpdate path body => match m !! path with Some _ => (Updated path, <[path := body]> m) | None => (Missing, m) end
  | SsmDelete path => match m !! path with Some _ => (Deleted path, delete path m) | None => (Missing, m) end
  end.
Definition ssm_reply (o : Options) (path : list byte) (s : SsmState) (out : SsmOutcome) : Reply :=
  match out with
  | Listed => Json (Object [field "servers" (ss_servers s); field "managed_inbounds" (Array (managed_inbounds o))])
  | Found (Some v) => Json v
  | Found None => match List.find (fun v => bool_decide (text v "tag" = Some path)) (managed_inbounds o) with Some f => Json f | None => Status 404 end
  | Created tag => Json (Object [field "created" (Str tag)])
  | Conflict => Status 409
  | Updated path => Json (Object [field "updated" (Str path)])
  | Deleted path => Json (Object [field "deleted" (Str path)])
  | Missing => Status 404
  end.
(** A state stands for a map: an object with each key once, behind a lock that is whole. *)
Definition ssm_abs (s : SsmState) (m : gmap (list byte) Value) : Prop :=
  exists fields, s = mkSsmState (Object fields) false /\ NoDup (map fst fields) /\ forall k, assoc k fields = m !! k.
Lemma set_assoc_keys {A} k (v : A) l x : x ∈ map fst (set_assoc k v l) <-> x = k \/ x ∈ map fst l.
Proof.
  induction l as [|[k' v'] l IH]; cbn [set_assoc map fst].
  - rewrite list_elem_of_singleton, elem_of_nil. tauto.
  - case_bool_decide as E; cbn [map fst]; rewrite !elem_of_cons; [subst; tauto|]. rewrite IH. tauto.
Qed.
Lemma set_assoc_nodup {A} k (v : A) l : NoDup (map fst l) -> NoDup (map fst (set_assoc k v l)).
Proof.
  induction l as [|[k' v'] l IH]; cbn [set_assoc map fst]; [intros _; apply NoDup_singleton|]. intros Hnd. apply NoDup_cons in Hnd as [Hn Hnd].
  case_bool_decide as E; cbn [map fst]; apply NoDup_cons; [subst; done|]. split; [|auto]. rewrite set_assoc_keys. naive_solver.
Qed.
Lemma assoc_none {A} k (l : list (list byte * A)) : k ∉ map fst l -> assoc k l = None.
Proof.
  induction l as [|[k' v'] l IH]; cbn [map fst assoc]; [done|]. intros Hn. apply not_elem_of_cons in Hn as [H1 H2].
  rewrite bool_decide_eq_false_2 by done. auto.
Qed.
Lemma del_assoc_spec {A} k (l : list (list byte * A)) : NoDup (map fst l) ->
  NoDup (map fst (del_assoc k l)) /\ (forall x, x ∈ map fst (del_assoc k l) -> x ∈ map fst l)
  /\ forall x, assoc x (del_assoc k l) = if bool_decide (x = k) then None else assoc x l.
Proof.
  induction l as [|[k' v'] l IH]; cbn [del_assoc map fst]; intros Hnd.
  { split_and!; [constructor|done|]. intros x. by case_bool_decide. }
  apply NoDup_cons in Hnd as [Hn Hnd]. case_bool_decide as E.
  - subst k'. split_and!; [done|intros x Hx; apply elem_of_cons; by right|]. intros x. cbn [assoc]. case_bool_decide as Ex.
    + subst x. by rewrite assoc_none.
    + by rewrite bool_decide_eq_false_2.
  - destruct (IH Hnd) as (I1 & I2 & I3). cbn [map fst assoc]. split_and!.
    + apply NoDup_cons. split; [|done]. intros Hin. apply Hn, I2, Hin.
    + intros x Hx. apply elem_of_cons in Hx as [->|Hx]; apply elem_of_cons; auto.
    + intros x. rewrite I3. destruct (bool_decide (k' = x)) eqn:E1; [|done]. apply bool_decide_eq_true in E1 as ->. by rewrite (bool_decide_eq_false_2 (x = k)).
Qed.

(** The managed servers are a finite map.  As long as the configured value is an
    object, every request of a user does what it says to the map and is answered
    accordingly; nothing is dropped. *)
Theorem ssm_refinement o users h r s m : auth_token h users <> None -> ssm_abs s m ->
  let '(reply, s') := ssm_handle o users h r s in
  let '(out, m') := ssm_spec r m in
  ssm_abs s' m' /\ reply = ssm_reply o (match r with SsmGet p => p | _ => [] end) s out.
Proof.
  intros Ha (fields & -> & Hnd & Hm).
  assert (Hauth : negb (match users with [] => true | _ => bool_decide (is_Some (auth_token h users)) end) = false).
  { destruct users; [done|]. rewrite bool_decide_eq_true_2; [done|]. by apply not_eq_None_Some. }
  unfold ssm_handle. rewrite Hauth. cbn [ss_poisoned ss_servers value_get object_set].
  assert (Hsame : ssm_abs (mkSsmState (Object fields) false) m) by (by exists fields).
  assert (Hset : forall k v, ssm_abs (mkSsmState (Object (set_assoc k v fields)) false) (<[k := v]> m)).
  { intros k v. exists (set_assoc k v fields). split_and!; [done|by apply set_assoc_nodup|]. intros j.
    destruct (decide (k = j)) as [<-|Hne]; [by rewrite assoc_set, lookup_insert_eq|]. by rewrite assoc_set_ne, lookup_insert_ne. }
  destruct r as [|path|body|path body|path]; cbn [ssm_spec].
  - done.
  - split; [done|]. rewrite Hm. by destruct (m !! path).
  - rewrite Hm. destruct (m !! ssm_tag body); [done|]. split; [apply Hset|done].
  - rewrite Hm. destruct (m !! path); [|done]. split; [apply Hset|done].
  - rewrite Hm. destruct (m !! path); [|done]. split; [|done]. exists (del_assoc path fields).
    destruct (del_assoc_spec path fields Hnd) as (D1 & _ & D3). split_and!; [done|done|]. intros k. rewrite D3.
    destruct (decide (k = path)) as [->|Hne]; [by rewrite bool_decide_eq_true_2, lookup_delete_eq|].
    rewrite bool_decide_eq_false_2, lookup_delete_ne by done. apply Hm.
Qed.

(** When it is no object (a list of servers, say), one deletion poisons the lock and every
    later request is dropped. *)
Lemma ssm_poisoned o users h l path r : auth_token h users <> None ->
  let s := mkSsmState (Array l) false in
  let s' := (ssm_handle o users h (SsmDelete path) s).2 in
  (ssm_handle o users h (SsmDelete path) s).1 = Dropped /\ ssm_handle o users h r s' = (Dropped, s').
Proof.
  intros Ha. assert (Hauth : negb (match users with [] => true | _ => bool_decide (is_Some (auth_token h users)) end) = false).
  { destruct users; [done|]. rewrite bool_decide_eq_true_2; [done|]. by apply not_eq_None_Some. }
  cbv zeta. unfold ssm_handle. rewrite Hauth. done.
Qed.

(** ** Credentials *)

(** The client's own credentials are not passed on; the service's are, once. *)
Lemma upstream_header_spec m token h k v : mp_auth_header m ∈ map str ["authorization"; "x-api-key"]%string -> k ∈ credential_headers ->
  (k, v) ∈ upstream_headers m token h <->
  k = mp_auth_header m /\ v = if bool_decide (mp_auth_header m = str "authorization") then str "Bearer " ++ token else token.
Proof.
  intros Hm Hk. unfold upstream_headers. rewrite elem_of_app, list_elem_of_singleton.
  assert (Hf : (k, v) ∈ List.filter (fun kv => negb (bool_decide (kv.1 ∈ credential_headers))) h -> False).
  { intros Hin. apply list_elem_of_In, filter_In in Hin as [_ Hin]. cbn in Hin. by rewrite bool_decide_eq_true_2 in Hin. }
  case_bool_decide as E; split; [intros [?|[= -> ->]]; [by destruct Hf|by rewrite E]|intros [-> ->]; right; by rewrite E|
    intros [?|[= -> ->]]; [by destruct Hf|done]|intros [-> ->]; by right].
Qed.

(** Refreshed credentials are used.  When the token server answers with a token and a
    lifetime, the token that is found in the merged credentials is the new one, whatever
    the file held before, and they count as expired only from a minute before the lifetime
    ends. *)
Theorem refresh_takes_effect m now fields refreshed t e : mp_oauth_field m ∈ map str ["accessToken"; "access_token"]%string ->
  text refreshed "access_token" = Some t -> number refreshed "expires_in" = Some e -> 0 <= now -> 0 <= e -> now + e < 2 ^ 64 ->
  let merged := merge_refreshed m now (Object fields) refreshed in
  extract_oauth_token m merged = Ok t
  /\ forall later, 0 <= later -> later + 60 < 2 ^ 64 -> (token_expired later merged = true <-> now + e <= later + 60).
Proof.
  intros Hf Ht He Hn He0 Hb. cbv zeta. unfold merge_refreshed. rewrite Ht, He.
  set (o1 := set_assoc (str "access_token") (Str t) (set_assoc (mp_oauth_field m) (Str t) fields)).
  set (exp := json_number (saturating_add64 now e)). set (o2 := set_assoc (str "expires_at") exp o1).
  set (o3 := match text refreshed "refresh_token" with Some t => set_assoc (str "refresh_token") (Str t) o2 | None => o2 end).
  assert (Hkeep : forall k, k <> str "refresh_token" -> assoc k o3 = assoc k o2).
  { intros k Hk. unfold o3. destruct (text refreshed "refresh_token"); [|done]. by rewrite assoc_set_ne. }
  assert (Hfield : assoc (mp_oauth_field m) o1 = Some (Str t)).
  { unfold o1. destruct (decide (mp_oauth_field m = str "access_token")) as [->|Hne]; [apply assoc_set|]. by rewrite assoc_set_ne, assoc_set. }
  assert (Hne : mp_oauth_field m <> str "refresh_token" /\ str "expires_at" <> mp_oauth_field m).
  { cbn in Hf. rewrite !elem_of_cons, elem_of_nil in Hf. destruct Hf as [->|[->|[]]]; split; by vm_compute. }
  destruct Hne as [Hne1 Hne2]. split.
  - unfold extract_oauth_token, value_get. rewrite Hkeep by done. unfold o2. rewrite assoc_set_ne by done. rewrite Hfield. done.
  - intros later Hl Hl2. unfold token_expired, get. rewrite Hkeep by (by vm_compute). unfold o2. rewrite assoc_set. cbn.
    unfold saturating_add64, u64_max. rewrite !Z.min_l by lia. apply Z.leb_le.
Qed.

(** Credentials in the form of the default file, with the refresh token inside
    [claudeAiOauth], cannot be refreshed: once expired, every request is refused. *)
Example default_file_not_refreshed token expires later write_ok read_file parse_json post home m h path query size :
  let json := Object [field "claudeAiOauth" (Object [field "accessToken" (Str token); field "refreshToken" (Str token); field "expiresAt" (json_number expires)])] in
  mp_users m = [] -> mp_auto_refresh m = true -> mp_credential_path m = Some path -> read_file path = Some [] -> parse_json [] = Some json ->
  expires <= saturating_add64 (saturating_mul64 later 1000) 60000 ->
  proxy_request write_ok read_file parse_json post home later m path query h size = inl 503.
Proof.
  intros json Hu Ha Hp Hr Hj He. unfold proxy_request. rewrite Hu. cbn [negb andb bool_decide]. unfold load_oauth_token.
  rewrite Hp. cbn [or_else ok_or mbind result_bind]. rewrite Hr. cbn [ok_or mbind result_bind]. rewrite Hj. cbn [ok_or mbind result_bind].
  assert (Hx : token_expired later json = true) by (unfold token_expired; cbn; by apply Z.leb_le).
  rewrite Ha, Hx. done.
Qed.

(** The routes of the multiplexer are in the form of an older axum: starting it panics. *)
Example multiplexer_never_starts : is_panic multiplexer_start = true.
Proof. by vm_compute. Qed.

(** ** Witnesses *)

Definition demo_oc : OutboundController := mkController {[ str "main" := [str "a"; str "b"] ]} ∅ ∅.
Fixpoint pos_bytes (p : BinNums.positive) : list byte :=
  match p with xH => [] | xO p => x00 :: pos_bytes p | xI p => x01 :: pos_bytes p end.
Fixpoint bytes_pos (l : list byte) : BinNums.positive :=
  match l with [] => xH | x00 :: l => xO (bytes_pos l) | _ :: l => xI (bytes_pos l) end.
Lemma bytes_pos_bytes p : bytes_pos (pos_bytes p) = p.
Proof. induction p as [p IH|p IH|]; cbn; by rewrite ?IH. Qed.
#[local] Instance toy_cache : CacheCodec.
Proof.
  refine {| cache_encode m := pos_bytes (encode m); cache_decode l := decode (bytes_pos l) |}.
  intros m. rewrite bytes_pos_bytes. apply decode_encode.
Defined.

Lemma selection_survives_witness :
  let s := mkClashState ∅ (Some ∅) None in
  let s' := (select_proxy demo_oc true (str "main") (str "b") s).2 in
  controller_selected demo_oc (str "main") (cl_cells (clash_restart demo_oc (cl_file s') map_to_list ∅)) = Some (str "b").
Proof.
  cbv zeta.
  pose proof (selection_survives demo_oc (str "main") (str "b") (mkClashState ∅ (Some ∅) None) ∅ map_to_list ∅ eq_refl ltac:(done)) as H.
  destruct (select_proxy demo_oc true (str "main") (str "b") (mkClashState ∅ (Some ∅) None)) as [reply s'].
  change (oc_selectors demo_oc !! str "main") with (Some [str "a"; str "b"]) in H. cbv match in H. rewrite bool_decide_eq_true_2 in H by (by vm_compute; repeat constructor).
  destruct H as (_ & _ & H). apply (H (str "main") (str "b") [str "a"; str "b"]); [by rewrite lookup_insert_eq|done|]. right. left.
Defined.

Lemma ssm_refinement_witness :
  ssm_abs (ssm_handle (mkOptions None [] [] None []) [] [] (SsmDelete (str "x")) (mkSsmState (Object [(str "x", Null)]) false)).2 ∅.
Proof.
  pose proof (ssm_refinement (mkOptions None [] [] None []) [] [] (SsmDelete (str "x")) (mkSsmState (Object [(str "x", Null)]) false) {[ str "x" := Null ]}) as H.
  destruct (ssm_handle _ _ _ _ _) as [reply s']. cbn [ssm_spec] in H. rewrite lookup_singleton_eq, delete_singleton_eq in H.
  refine (proj1 (H _ _)); [done|]. exists [(str "x", Null)]. split_and!; [done|apply NoDup_singleton|].
  intros k. cbn [assoc]. case_bool_decide as E; [subst; by rewrite lookup_singleton_eq|by rewrite lookup_singleton_ne].
Defined.

Lemma refresh_takes_effect_witness :
  let m := mkMultiplexer (str "ocm") true [] [] None [] (str "authorization") (str "access_token") in
  let merged := merge_refreshed m 1000 (Object [field "access_token" (Str (str "old"))])
    (Object [field "access_token" (Str (str "new")); field "expires_in" (json_number 3600)]) in
  extract_oauth_token m merged = Ok (str "new").
Proof.
  refine (proj1 (refresh_takes_effect (mkMultiplexer (str "ocm") true [] [] None [] (str "authorization") (str "access_token")) 1000
    [field "access_token" (Str (str "old"))] (Object [field "access_token" (Str (str "new")); field "expires_in" (json_number 3600)]) (str "new") 3600 _ _ _ _ _ _));
    [right; left|by vm_compute|by vm_compute|lia..].
Defined.
