(* ===== verification/Tailscale.v ===== *)
(** * Tailscale control connections

    [rsb-protocol/src/tailscale_noise.rs]: the Noise_IK client and its records; and
    [tailscale_control.rs]: the answers of a control server as a WireGuard configuration.

    Hashes, the AEAD and the curve are arguments ([NoiseCrypto]).  A stream is the bytes that
    arrive; what is written is returned. *)
From stdpp Require Import base tactics gmap list strings.
From Stdlib Require Import ZArith Lia.
From Stdlib Require Import Strings.Byte.
From S2P Require Import Prelude Json Text Ip DnsWire Codec Config RsqUdpFragment Hello WireGuard.

Local Open Scope Z_scope.

(** ** Handshake *)

(** BLAKE2s, its keyed form, ChaCha20-Poly1305 and X25519. *)
Class NoiseCrypto := {
  blake2s : list byte -> list byte;
  blake2s_mac : list byte -> list byte -> list byte;
  cp_seal : list byte -> list byte -> list byte -> list byte -> list byte;
  cp_open : list byte -> list byte -> list byte -> list byte -> option (list byte);
  nx_public : list byte -> list byte;
  nx_dh : list byte -> list byte -> list byte;
  blake2s_mac_length : forall k m, length (blake2s_mac k m) = 32%nat;
  cp_seal_length : forall k n m aad, length (cp_seal k n m aad) = (length m + 16)%nat;
  cp_open_seal : forall k n m aad, cp_open k n (cp_seal k n m aad) aad = Some m;
  nx_public_length : forall s, length s = 32%nat -> length (nx_public s) = 32%nat;
  nx_dh_agree : forall a b, nx_dh a (nx_public b) = nx_dh b (nx_public a);
}.

Definition PROTOCOL_NAME : list byte := str "Noise_IK_25519_ChaChaPoly_BLAKE2s".
Definition DEFAULT_PROTOCOL_VERSION : Z := 115.
Definition MSG_INIT : byte := x01.
Definition MSG_RESP : byte := x02.
Definition MSG_RECORD : byte := x04.
Definition INIT_MSG_LEN : Z := 101.
Definition RESP_MSG_LEN : Z := 51.
Definition MAX_PLAINTEXT : Z := 4096 - 3 - 16.

(** [SymmetricState] *)
Record SymmetricState := mkSymmetricState {
  ss_h : list byte;
  ss_ck : list byte;
  ss_finished : bool;
}.
Record NoiseConn := mkNoiseConn {
  nc_tx_key : list byte;
  nc_rx_key : list byte;
  nc_tx_nonce : Z;
  nc_rx_nonce : Z;
}.

Section Noise.
Context `{NoiseCrypto}.

(** The loop of [hkdf_blake2s]: each round adds 32 bytes, so [len] rounds are enough. *)
Fixpoint blake2s_expand (fuel len : nat) (prk : list byte) (counter : Z) (prev out : list byte) : list byte :=
  match fuel with
  | O => take len out
  | S fuel =>
      if (length out <? len)%nat then
        let counter := counter + 1 in
        let prev := blake2s_mac prk (prev ++ [u8 counter]) in
        blake2s_expand fuel len prk counter prev (out ++ prev)
      else take len out
  end.
Definition hkdf_blake2s (salt : option (list byte)) (ikm : list byte) (len : nat) : list byte :=
  let prk := blake2s_mac (default (replicate 32 x00) salt) ikm in
  blake2s_expand len len prk 0 [] [].

Definition ss_initialize : SymmetricState :=
  let h := blake2s PROTOCOL_NAME in mkSymmetricState h h false.
Definition assert_open (s : SymmetricState) : result unit :=
  if ss_finished s then Panic "assertion failed: !self.finished" else Ok tt.
Definition mix_hash (s : SymmetricState) (data : list byte) : result SymmetricState :=
  _ ← assert_open s;
  Ok (mkSymmetricState (blake2s (ss_h s ++ data)) (ss_ck s) (ss_finished s)).
Definition mix_dh (s : SymmetricState) (priv_key pub_key : list byte) : result (list byte * SymmetricState) :=
  _ ← assert_open s;
  let okm := hkdf_blake2s (Some (ss_ck s)) (nx_dh priv_key pub_key) 64 in
  Ok (drop 32 okm, mkSymmetricState (ss_h s) (take 32 okm) (ss_finished s)).
Definition zero_nonce : list byte := replicate 12 x00.
Definition encrypt_and_hash (s : SymmetricState) (key plaintext : list byte) : result (list byte * SymmetricState) :=
  let ct := cp_seal key zero_nonce plaintext (ss_h s) in
  s ← mix_hash s ct; Ok (ct, s).
Definition decrypt_and_hash (s : SymmetricState) (key ciphertext : list byte) : result (list byte * SymmetricState) :=
  pt ← ok_or "noise decrypt: aead::Error" (cp_open key zero_nonce ciphertext (ss_h s));
  s ← mix_hash s ciphertext; Ok (pt, s).
Definition noise_split (s : SymmetricState) : result (list byte * list byte) :=
  _ ← assert_open s;
  let okm := hkdf_blake2s None (ss_ck s) 64 in
  Ok (take 32 okm, drop 32 okm).
Definition protocol_prologue (version : Z) : list byte := str "Tailscale Control Protocol v" ++ show_uint version.

(** The state after [-> e, es, s, ss], with the two sealed parts. *)
Definition initiation_state (machine_key control_key eph_sk : list byte) (protocol_version : Z)
  : result (list byte * list byte * SymmetricState) :=
  s ← mix_hash ss_initialize (protocol_prologue protocol_version);
  s ← mix_hash s control_key;
  s ← mix_hash s (nx_public eph_sk);
  '(k_es, s) ← mix_dh s eph_sk control_key;
  '(enc_machine, s) ← encrypt_and_hash s k_es (nx_public machine_key);
  '(k_ss, s) ← mix_dh s machine_key control_key;
  '(tag, s) ← encrypt_and_hash s k_ss [];
  Ok (enc_machine, tag, s).
(** [client_initiation]; [eph_sk] is the 32 bytes drawn.  The checks on lengths are made
    between the steps, which have no effects outside the state that is thrown away. *)
Definition client_initiation (machine_key control_key : list byte) (protocol_version : Z) (eph_sk : list byte) : result (list byte) :=
  '(enc_machine, tag, _) ← initiation_state machine_key control_key eph_sk protocol_version;
  if negb (zlen enc_machine =? 48) then Err "bad encrypted machine key size"
  else if negb (zlen tag =? 16) then Err "bad initiation tag size"
  else Ok (be_encode 2 protocol_version ++ [MSG_INIT] ++ be_encode 2 96 ++ nx_public eph_sk ++ enc_machine ++ tag).
Definition client_state_for_finish (machine_key control_key : list byte) (protocol_version : Z) (eph_sk : list byte) : result SymmetricState :=
  '(_, _, s) ← initiation_state machine_key control_key eph_sk protocol_version; Ok s.
Definition client_finish (s : SymmetricState) (eph_sk machine_key response : list byte) : result NoiseConn :=
  if negb (zlen response =? RESP_MSG_LEN) then Err "bad noise response size"
  else
    ty ← index response 0;
    if negb (bool_decide (ty = MSG_RESP)) then
      if bool_decide (ty = x03) then Err "control server noise error" else Err "unexpected noise response type"
    else
      server_eph ← slice_at response 3 32;
      s ← mix_hash s server_eph;
      '(_, s) ← mix_dh s eph_sk server_eph;
      '(k_se, s) ← mix_dh s machine_key server_eph;
      tag ← slice_at response 35 16;
      '(_, s) ← decrypt_and_hash s k_se tag;
      '(tx_key, rx_key) ← noise_split s;
      Ok (mkNoiseConn tx_key rx_key 0 0).
(** [client_handshake] on what the server sends: the initiation is written first, whatever
    happens then. *)
Definition client_handshake (machine_key control_key : list byte) (protocol_version : Z) (eph_sk input : list byte)
  : result (NoiseConn * list byte) * list byte :=
  match client_initiation machine_key control_key protocol_version eph_sk with
  | Ok init =>
      ('(resp, rest) ← read_exact RESP_MSG_LEN input;
       s ← client_state_for_finish machine_key control_key protocol_version eph_sk;
       conn ← client_finish s eph_sk machine_key resp;
       Ok (conn, rest), init)
  | Err e => (Err e, [])
  | Panic e => (Panic e, [])
  end.

(** ** Records *)

Definition noise_record_nonce (seq : Z) : list byte := replicate 4 x00 ++ be_encode 8 seq.
Definition write_record (c : NoiseConn) (chunk : list byte) : list byte * NoiseConn :=
  let ct := cp_seal (nc_tx_key c) (noise_record_nonce (nc_tx_nonce c)) chunk [] in
  ([MSG_RECORD] ++ be_encode 2 (u16 (zlen ct)) ++ ct,
   mkNoiseConn (nc_tx_key c) (nc_rx_key c) (u64 (nc_tx_nonce c + 1)) (nc_rx_nonce c)).
Fixpoint write_records (c : NoiseConn) (l : list (list byte)) : list byte * NoiseConn :=
  match l with
  | [] => ([], c)
  | chunk :: l =>
      let '(out, c) := write_record c chunk in
      let '(more, c) := write_records c l in (out ++ more, c)
  end.
Definition noise_write_all (c : NoiseConn) (data : list byte) : list byte * NoiseConn :=
  write_records c (chunks (Z.to_nat MAX_PLAINTEXT) data).
Definition read_record (c : NoiseConn) (stream : list byte) : result (list byte * NoiseConn * list byte) :=
  '(hdr, stream) ← read_exact 3 stream;
  ty ← index hdr 0;
  if negb (bool_decide (ty = MSG_RECORD)) then Err "unexpected noise message type"
  else
    len ← u16_at hdr 1;
    '(ct, stream) ← read_exact len stream;
    pt ← ok_or "noise record decrypt: aead::Error" (cp_open (nc_rx_key c) (noise_record_nonce (nc_rx_nonce c)) ct []);
    Ok (pt, mkNoiseConn (nc_tx_key c) (nc_rx_key c) (nc_tx_nonce c) (u64 (nc_rx_nonce c + 1)), stream).
End Noise.

Section Session.
Context `{NoiseCrypto}.

(** Each side's transport keys are the other's. *)
Definition conn_paired (a b : NoiseConn) : Prop :=
  nc_tx_key a = nc_rx_key b /\ nc_rx_key a = nc_tx_key b
  /\ nc_tx_nonce a = nc_rx_nonce b /\ nc_rx_nonce a = nc_tx_nonce b.

(** ** The first message *)

Lemma mix_dh_open s a b : ss_finished s = false -> exists k s', mix_dh s a b = Ok (k, s') /\ ss_finished s' = false
  /\ forall a' b', nx_dh a' b' = nx_dh a b -> mix_dh s a' b' = Ok (k, s').
Proof.
  intros Hf. unfold mix_dh, assert_open. rewrite Hf. cbn [mbind result_bind]. do 2 eexists. split_and!; [done..|]. by intros a' b' ->.
Qed.
Lemma mix_hash_open s d : ss_finished s = false -> exists s', mix_hash s d = Ok s' /\ ss_finished s' = false.
Proof. intros Hf. unfold mix_hash, assert_open. rewrite Hf. by eexists. Qed.
(** What one side seals the other opens, and both mix in the same bytes. *)
Lemma seal_then_open s k m : ss_finished s = false -> exists ct s', encrypt_and_hash s k m = Ok (ct, s')
  /\ decrypt_and_hash s k ct = Ok (m, s') /\ length ct = (length m + 16)%nat /\ ss_finished s' = false.
Proof.
  intros Hf. unfold encrypt_and_hash, decrypt_and_hash. set (ct := cp_seal k zero_nonce m (ss_h s)).
  destruct (mix_hash_open s ct Hf) as (s' & E & Hf'). exists ct, s'. rewrite (cp_open_seal k zero_nonce m (ss_h s) : cp_open k zero_nonce ct (ss_h s) = Some m). cbn [ok_or mbind result_bind].
  rewrite E. split_and!; [done..|apply cp_seal_length|done].
Qed.
End Session.

(** The steps of a handshake on states that are still open. *)
Ltac noise_step :=
  match goal with
  | F : ss_finished ?s = false |- context [mix_hash ?s ?d] =>
      let s' := fresh "s" in let E := fresh "E" in let F' := fresh "F" in
      destruct (mix_hash_open s d F) as (s' & E & F'); rewrite ?E; cbn [mbind result_bind]
  | F : ss_finished ?s = false |- context [mix_dh ?s ?a ?b] =>
      let k := fresh "k" in let s' := fresh "s" in let E := fresh "E" in let F' := fresh "F" in let D := fresh "D" in
      destruct (mix_dh_open s a b F) as (k & s' & E & F' & D); rewrite ?E; cbn [mbind result_bind]
  | F : ss_finished ?s = false |- context [encrypt_and_hash ?s ?k ?m] =>
      let ct := fresh "ct" in let s' := fresh "s" in let E := fresh "E" in let F' := fresh "F" in let O := fresh "O" in let L := fresh "L" in
      destruct (seal_then_open s k m F) as (ct & s' & E & O & L & F'); rewrite ?E; cbn [mbind result_bind]
  end.

Section Agreement.
Context `{NoiseCrypto}.

(** The client begins with one message of 101 bytes. *)
Lemma initiation_sent machine control eph version :
  length machine = 32%nat -> length eph = 32%nat -> exists enc tag s init,
    initiation_state machine (nx_public control) eph version = Ok (enc, tag, s) /\ ss_finished s = false
    /\ client_initiation machine (nx_public control) version eph = Ok init /\ zlen init = INIT_MSG_LEN.
Proof.
  intros Hm He. apply nx_public_length in Hm, He.
  unfold client_initiation, initiation_state. assert (F : ss_finished ss_initialize = false) by done.
  do 7 noise_step. rewrite Hm in L. do 4 eexists. split_and!; [done|done| |].
  - unfold zlen. by rewrite L, L0.
  - unfold zlen. rewrite !length_app, !length_be_encode, He, L, L0. done.
Qed.

(** ** Records *)

Lemma record_arrives c d m rest : zlen m <= MAX_PLAINTEXT -> nc_tx_key c = nc_rx_key d -> nc_tx_nonce c = nc_rx_nonce d ->
  let '(out, c') := write_record c m in
  exists d', read_record d (out ++ rest) = Ok (m, d', rest) /\ nc_tx_key c' = nc_rx_key d' /\ nc_tx_nonce c' = nc_rx_nonce d'
    /\ nc_rx_key c' = nc_rx_key c /\ nc_tx_key d' = nc_tx_key d /\ nc_rx_nonce c' = nc_rx_nonce c /\ nc_tx_nonce d' = nc_tx_nonce d.
Proof.
  intros Hm Hk Hn. unfold write_record, read_record. set (ct := cp_seal _ _ m []).
  assert (Hl : 0 <= zlen ct < 2 ^ 16) by (unfold ct, zlen, MAX_PLAINTEXT in *; rewrite cp_seal_length; lia).
  assert (Hu : u16 (zlen ct) = zlen ct) by (unfold u16, wrap; by rewrite Z.mod_small).
  eexists. rewrite <-app_assoc, <-app_assoc, (app_assoc [MSG_RECORD]). rewrite (read_bytes_app _ _ 3) by done. cbn [mbind result_bind].
  change (index ([MSG_RECORD] ++ be_encode 2 (u16 (zlen ct))) 0) with (@Ok byte MSG_RECORD). cbn [mbind result_bind].
  rewrite bool_decide_eq_true_2 by done. cbn [negb app]. rewrite u16_at_next, <-(app_nil_r (be_encode 2 _)), u16_at_here, Hu by (rewrite ?Hu; done || lia).
  cbn [mbind result_bind]. rewrite (read_bytes_app ct rest) by done. cbn [mbind result_bind]. rewrite <-Hk, <-Hn.
  unfold ct. rewrite cp_open_seal. cbn [ok_or mbind result_bind]. done.
Qed.
(** [n] records in a row. *)
Fixpoint read_records (n : nat) (c : NoiseConn) (stream : list byte) : result (list byte * NoiseConn * list byte) :=
  match n with
  | O => Ok ([], c, stream)
  | S n =>
      '(m, c, stream) ← read_record c stream;
      '(more, c, stream) ← read_records n c stream;
      Ok (m ++ more, c, stream)
  end.
Lemma records_arrive : forall l c d rest, Forall (fun m => zlen m <= MAX_PLAINTEXT) l -> conn_paired c d ->
  let '(out, c') := write_records c l in
  exists d', read_records (length l) d (out ++ rest) = Ok (concat l, d', rest) /\ conn_paired c' d'.
Proof.
  induction l as [|m l IH]; intros c d rest Hl Hp; cbn [write_records read_records length concat]; [by eexists|].
  apply Forall_cons in Hl as [Hm Hl]. destruct Hp as (Hk & Hk' & Hn & Hn').
  pose proof (fun rest => record_arrives c d m rest Hm Hk Hn) as Hr. destruct (write_record c m) as [out c'].
  destruct (write_records c' l) as [more c''] eqn:Ew. rewrite <-app_assoc. destruct (Hr (more ++ rest)) as (d' & -> & K & N & K1 & K2 & N1 & N2).
  cbn [mbind result_bind]. specialize (IH c' d' rest Hl). rewrite Ew in IH. destruct IH as (d'' & -> & Hp); [|by eexists].
  unfold conn_paired. rewrite K1, K2, N1, N2. done.
Qed.
Lemma write_all_arrives c d data rest : conn_paired c d ->
  let '(out, c') := noise_write_all c data in
  exists n d', read_records n d (out ++ rest) = Ok (data, d', rest) /\ conn_paired c' d'.
Proof.
  intros Hp. unfold noise_write_all. set (l := chunks _ data).
  destruct (chunks_go_spec (Z.to_nat MAX_PLAINTEXT) (length data) data) as (Hc & Hf & _); [by apply Nat.ltb_lt|lia|].
  pose proof (records_arrive l c d rest) as Hr. destruct (write_records c l) as [out c']. exists (length l).
  destruct Hr as (d' & E & Hp'); [|done|].
  - eapply Forall_impl; [exact Hf|]. intros m Hm. unfold zlen. cbv beta in Hm. change (Z.to_nat MAX_PLAINTEXT) with 4077%nat in Hm. change MAX_PLAINTEXT with 4077. lia.
  - exists d'. rewrite E. unfold l, chunks. by rewrite Hc.
Qed.

(** A reply of type 3 is an error whose text the server sends; unless it has exactly 48 bytes of
    it the client reports the end of the stream, or hangs, instead. *)
Lemma error_reply_lost machine control eph version text :
  length machine = 32%nat -> length eph = 32%nat -> zlen text < 48 ->
  (client_handshake machine (nx_public control) version eph ([x03] ++ be_encode 2 (zlen text) ++ text)).1 = Err "early eof".
Proof.
  intros Hm He Ht. destruct (initiation_sent machine control eph version Hm He) as (enc & tag & s & init & _ & _ & Ei & _).
  unfold client_handshake. rewrite Ei. cbn [fst]. unfold read_exact.
  rewrite (proj2 (Z.ltb_lt _ RESP_MSG_LEN)); [done|]. rewrite !zlen_app. unfold zlen in *. rewrite length_be_encode. cbn [length]. unfold RESP_MSG_LEN. lia.
Qed.

End Agreement.

(** ** Registration *)

(** The HTTP client (a status that is a success or not, and the text of the answer), TLS
    connections by name and port (the bytes that will arrive), serde_json and base64. *)
Class ControlWorld := {
  http_get : list byte -> result (list byte);
  http_post : list byte -> list byte -> result (bool * result (list byte));
  tls_connect_plain : list byte -> result (list byte);
  json_parse : list byte -> option Value;
  json_print : Value -> list byte;
  json_pretty : Value -> list byte;
  b64_encode : list byte -> list byte;
  b64_decode : list byte -> option (list byte);
  os_name : list byte;
}.
(** Reading back what was printed of a value. *)
Definition reads_back `{ControlWorld} (v : Value) : Prop := utf8_valid (json_pretty v) = true /\ json_parse (json_pretty v) = Some v.

Definition TAILSCALE_DEFAULT : list byte := str "https://controlplane.tailscale.com".

(** [ControlRegistration]: the two secrets drawn, and the ephemeral of the handshake. *)
Record ControlRegistration := mkControlRegistration {
  node_private : list byte;
  machine_private : list byte;
  cr_ephemeral : list byte;
}.

(** [str::trim_end_matches('/')], and [trim_start_matches] of a text. *)
Definition trim_slashes (s : list byte) : list byte := rev (trim_start_matches x2f (rev s)).
Fixpoint drop_prefixes (fuel : nat) (pat s : list byte) : list byte :=
  match fuel with
  | O => s
  | S fuel => if starts_with s pat then drop_prefixes fuel pat (drop (length pat) s) else s
  end.
Definition jstr (s : string) : Value := Str (str s).
Definition jnum (n : Z) : Value := Num (PosInt n).

Section Registration.
Context `{NoiseCrypto} `{ControlWorld}.

Definition registration_body (reg : ControlRegistration) (auth_key : list byte) (hostname : option (list byte)) : Value :=
  Object [(str "Version", jnum 35);
          (str "AuthKey", Str auth_key);
          (str "NodeKey", Str (b64_encode (nx_public (node_private reg))));
          (str "MachineKey", Str (b64_encode (nx_public (machine_private reg))));
          (str "Hostinfo", Object [(str "OS", Str os_name); (str "Hostname", Str (default (str "rsbox") hostname))]);
          (str "Ephemeral", Bool false)].

Definition fetch_control_key (base : list byte) : result (list byte * Z) :=
  txt ← context "fetch control key" (http_get (trim_slashes base ++ str "/key?v=115"));
  json ← ok_or "json" (json_parse txt);
  key_b64 ← ok_or "control PublicKey" (text json "PublicKey");
  bytes ← ok_or "base64" (b64_decode (trim key_b64));
  if negb (zlen bytes =? 32) then Err "Condition failed"
  else Ok (bytes, u16 (default DEFAULT_PROTOCOL_VERSION (number json "Version"))).

Definition parse_noise_register_payload (payload : list byte) : result Value :=
  let whole := ok_or "parse noise register response" (json_parse payload) in
  if 4 <=? zlen payload then
    let len := be_decode (take 4 payload) in
    if (0 <? len) && (4 + len <=? zlen payload) then
      body ← slice_at payload 4 len; ok_or "json" (json_parse body)
    else whole
  else whole.

(** The name in a URL, by text. *)
Definition control_host (base : list byte) : list byte :=
  let s := drop_prefixes (length base) (str "https://") base in
  let s := drop_prefixes (length s) (str "http://") s in
  match split x2f s with host :: _ => host | [] => [] end.
Definition noise_register (base server_key : list byte) (protocol_version : Z) (reg : ControlRegistration) (body : Value) : result Value :=
  input ← tls_connect_plain (control_host base);
  let '(shaken, _) := client_handshake (machine_private reg) server_key protocol_version (cr_ephemeral reg) input in
  '(conn, input) ← shaken;
  let '(_, conn) := noise_write_all conn (json_print body) in
  '(payload, _, _) ← read_record conn input;
  parse_noise_register_payload payload.

(** A request whose answer is JSON. *)
Definition post_json (url : list byte) (body : Value) : result Value :=
  '(success, txt) ← http_post url (json_print body);
  if (success : bool) then txt ← txt; ok_or "json" (json_parse txt) else Err "http status".
Definition fetch_map_peers (base : list byte) (reg : ControlRegistration) : result Value :=
  post_json (trim_slashes base ++ str "/machine/map")
    (Object [(str "Version", jnum 35);
             (str "NodeKey", Str (b64_encode (nx_public (node_private reg))));
             (str "MachineKey", Str (b64_encode (nx_public (machine_private reg))))]).
Definition http_register (base : list byte) (body : Value) : result Value :=
  post_json (trim_slashes base ++ str "/machine/register") body.

Definition parse_local_wg (reg : ControlRegistration) (auth_key : list byte) : result Value :=
  hint ← auth_key_hint auth_key;
  Ok (Object [(str "private_key", Str (b64_encode (node_private reg)));
              (str "listen_port", jnum 41641);
              (str "interface_name", jstr "tailscale0");
              (str "addresses", Array [jstr "100.64.0.2/32"]);
              (str "peers", Array []);
              (str "rsbox_auth_key_hint", Str hint)]).
Definition parse_register_response (resp : Value) (reg : ControlRegistration) : Value :=
  let peers := match get resp "Peers" with Some (Array (p :: l)) => Array (p :: l) | _ => Array [] end in
  Object [(str "private_key", Str (b64_encode (node_private reg)));
          (str "listen_port", jnum 41641);
          (str "interface_name", jstr "tailscale0");
          (str "addresses", default (Array [jstr "100.64.0.2/32"]) (get resp "Addresses"));
          (str "peers", peers);
          (str "control_response", resp)].

(** Either spelling of a key: the first that is there, whatever it holds. *)
Definition get2 (v : Value) (a b : string) : option Value := or_else (get v a) (get v b).
Definition texts (l : list Value) : list (list byte) := omap as_str l.
Definition convert_tailscale_peer (p : Value) : option Value :=
  node_key ← (v ← get2 p "NodeKey" "node_key"; as_str v);
  let endpoint := or_else (v ← get2 p "Endpoints" "endpoints"; l ← as_array v; x ← head l; as_str x)
                    (h ← get p "Hostinfo"; text h "HostName") in
  let allowed_ips := match (v ← get2 p "AllowedIPs" "allowed_ips"; as_array v) with
                     | Some arr => texts arr
                     | None => match (v ← get2 p "Addresses" "addresses"; as_array v) with Some arr => texts arr | None => [] end
                     end in
  Some (Object ([(str "public_key", Str node_key); (str "allowed_ips", Array (map Str allowed_ips)); (str "persistent_keepalive", jnum 25)]
                ++ match endpoint with Some ep => [(str "endpoint", Str ep)] | None => [] end)).
Definition map_to_wg_peers (m : Value) : list Value :=
  omap convert_tailscale_peer (default [] (v ← get2 m "Peers" "peers"; as_array v)).

Definition register_peers (control_url : option (list byte)) (auth_key : list byte) (hostname : option (list byte)) (reg : ControlRegistration)
  : result Value :=
  let base := default TAILSCALE_DEFAULT control_url in
  '(server_key, protocol_version) ← fetch_control_key base;
  let body := registration_body reg auth_key hostname in
  match noise_register base server_key protocol_version reg body with
  | Ok resp =>
      let wg := parse_register_response resp reg in
      match fetch_map_peers base reg with
      | Ok m => match map_to_wg_peers m with [] => Ok wg | peers => json_set wg "peers" (Array peers) end
      | Err _ => Ok wg
      | Panic e => Panic e
      end
  | Err _ =>
      match http_register base body with
      | Ok resp => Ok resp
      | Err _ => parse_local_wg reg auth_key
      | Panic e => Panic e
      end
  | Panic e => Panic e
  end.
End Registration.

(** ** The embedded client *)

(** [Path::join] with a file name. *)
Definition dir_join (dir file : list byte) : list byte :=
  match last dir with
  | None => file
  | Some b => if bool_decide (b = x2f) then dir ++ file else dir ++ [x2f] ++ file
  end.
(** What is drawn: the secret of the configuration made here, and those of a registration. *)
Record EmbeddedDraws := mkEmbeddedDraws {
  ed_secret : list byte;
  ed_registration : ControlRegistration;
}.

Section Embedded.
Context `{NoiseCrypto} `{ControlWorld}.
(** Whether a file can be written. *)
Variable can_write : list byte -> bool.

Fixpoint headscale_urls (urls : list (list byte)) (body : Value) : result Value :=
  match urls with
  | [] => Err "headscale register failed"
  | url :: urls =>
      '(success, txt) ← http_post url (json_print body);
      if negb success then headscale_urls urls body
      else match json_parse (match txt with Ok t => t | _ => [] end) with
           | Some json =>
               match get json "peers" with
               | Some peers => Ok peers
               | None => match parse_headscale_node json with
                         | Some peer => Ok (Array [peer])
                         | None => headscale_urls urls body
                         end
               end
           | None => headscale_urls urls body
           end
  end.
Definition headscale_register (control_url auth_key node_key : list byte) : result Value :=
  let base := trim_slashes control_url in
  headscale_urls [base ++ str "/machine/register"; base ++ str "/api/v1/register"]
    (Object [(str "AuthKey", Str auth_key); (str "NodeKey", Str node_key); (str "Hostinfo", Object [(str "OS", Str os_name)])]).

(** The configuration before the control server is asked. *)
Definition local_config (raw : Value) (auth_key secret : list byte) : result Value :=
  hint ← auth_key_hint auth_key;
  Ok (Object [(str "private_key", Str (b64_encode secret));
              (str "listen_port", jnum (default 41641 (number raw "listen_port")));
              (str "interface_name", Str (default (str "tailscale0") (text raw "interface_name")));
              (str "addresses", default (Array [jstr "100.64.0.1/32"]) (get raw "addresses"));
              (str "peers", default (Array []) (get raw "peers"));
              (str "rsbox_public_key", Str (b64_encode (nx_public secret)));
              (str "rsbox_auth_key_hint", Str hint)]).
Definition bootstrap_config (raw : Value) (d : EmbeddedDraws) : result Value :=
  auth_key ← ok_or "auth_key" (text raw "auth_key");
  wg ← local_config raw auth_key (ed_secret d);
  match text raw "control_url" with
  | None => Ok wg
  | Some control_url =>
      match register_peers (Some control_url) auth_key (text raw "hostname") (ed_registration d) with
      | Ok wg_config => Ok wg_config
      | Err _ =>
          match headscale_register control_url auth_key (b64_encode (nx_public (ed_secret d))) with
          | Ok peers => json_set wg "peers" peers
          | Err _ => Ok wg
          | Panic e => Panic e
          end
      | Panic e => Panic e
      end
  end.
Definition STATE_FILE : list byte := str "rsbox-tailscale.json".
Definition bootstrap_from_auth_key (raw : Value) (d : EmbeddedDraws) (fs : gmap (list byte) (list byte)) : result Value * gmap (list byte) (list byte) :=
  match bootstrap_config raw d with
  | Ok wg =>
      match text raw "state_directory" with
      | Some dir =>
          let path := dir_join dir STATE_FILE in
          if can_write path then (normalize_wireguard wg, <[path := json_pretty wg]> fs)
          else (Err "write tailscale state", fs)
      | None => (normalize_wireguard wg, fs)
      end
  | r => (r, fs)
  end.
Definition load_state_file (path : list byte) (fs : gmap (list byte) (list byte)) : result Value :=
  txt ← ok_or "read tailscale state" (fs !! path);
  txt ← context "read tailscale state" (from_utf8 txt);
  json ← ok_or "json" (json_parse txt);
  normalize_wireguard json.
(** The state in the directory of the configuration, when there is one. *)
Definition saved_state (raw : Value) (fs : gmap (list byte) (list byte)) : option (list byte) :=
  dir ← text raw "state_directory";
  match fs !! dir_join dir STATE_FILE with Some _ => Some (dir_join dir STATE_FILE) | None => None end.
Definition resolve_wireguard_config (raw : Value) (d : EmbeddedDraws) (fs : gmap (list byte) (list byte)) : result Value * gmap (list byte) (list byte) :=
  match text raw "state_file" with
  | Some path => (load_state_file path fs, fs)
  | None =>
      match get raw "private_key" with
      | Some _ => (normalize_wireguard raw, fs)
      | None =>
          match saved_state raw fs with
          | Some path => (load_state_file path fs, fs)
          | None =>
              match get raw "auth_key" with
              | Some _ => bootstrap_from_auth_key raw d fs
              | None => (Err "tailscale: set state_file, private_key, state_directory, or auth_key", fs)
              end
          end
      end
  end.
End Embedded.

(** ** Properties *)

Section EmbeddedProps.
Context `{NoiseCrypto}.

(** What a start has resolved with a state directory, the next start resolves again: the same
    keys, whatever is drawn and whatever the network answers then. *)
Theorem state_survives (w w' : ControlWorld) cw cw' raw d d' fs cfg fs' :
  @json_parse w' = @json_parse w ->
  (forall v, bootstrap_config (H0 := w) raw d = Ok v -> reads_back (H := w) v) ->
  is_Some (text raw "state_directory") ->
  resolve_wireguard_config (H0 := w) cw raw d fs = (Ok cfg, fs') ->
  resolve_wireguard_config (H0 := w') cw' raw d' fs' = (Ok cfg, fs').
Proof.
  intros Hj Hb [dir Hd] E. unfold resolve_wireguard_config, load_state_file in *. rewrite Hj.
  destruct (text raw "state_file") as [p|]; [injection E as E ->; by rewrite E|].
  destruct (get raw "private_key"); [injection E as E ->; by rewrite E|].
  unfold saved_state in *. rewrite Hd in *. cbn [mbind option_bind] in *. set (path := dir_join dir STATE_FILE) in *.
  destruct (fs !! path) as [t|] eqn:Ef.
  - injection E as E ->. rewrite Ef. by rewrite E.
  - destruct (get raw "auth_key"); [|done]. unfold bootstrap_from_auth_key in E.
    destruct (bootstrap_config raw d) as [wg|e|e]; [|done..]. destruct (Hb wg eq_refl) as [Hu Hr]. rewrite Hd in E. fold path in E. destruct (cw path); [|done].
    injection E as E <-. rewrite lookup_insert_eq. cbn match. rewrite lookup_insert_eq. cbn [ok_or mbind result_bind].
    rewrite from_utf8_valid by exact Hu. cbn [context mbind result_bind]. rewrite Hr. cbn [ok_or mbind result_bind].
    by rewrite E.
Qed.

(** A peer of the map is one the tunnel takes: its node key as the public key, the blocks of
    addresses that are texts, and a keepalive of 25 seconds. *)
Lemma convert_understood b64 lookup p q : convert_tailscale_peer p = Some q -> exists k allowed,
  (v ← get2 p "NodeKey" "node_key"; as_str v) = Some k
  /\ parse_wg_peer b64 lookup q
     = (pk ← decode_wg_key b64 k; al ← parse_allowed_ips (Object [(str "allowed_ips", Array (map Str allowed))]);
        Ok (mkWgPeer pk al (parse_peer_endpoint lookup q) 25)).
Proof.
  unfold convert_tailscale_peer. destruct (get2 p "NodeKey" "node_key" ≫= _) as [k|]; [|done]. cbn [mbind option_bind].
  set (ep := or_else _ _). set (al := match _ ≫= as_array with Some _ => _ | None => _ end). intros [= <-]. exists k, al. split; [done|].
  unfold parse_wg_peer, parse_allowed_ips, text, number. by destruct ep.
Qed.
(** The peers of an answer to the registration are passed on as they are: without a map to
    replace them, a tunnel refuses the configuration. *)
Lemma raw_peers_refused `{ControlWorld} b64 lookup resp reg p l : get resp "Peers" = Some (Array (p :: l)) -> get p "public_key" = None ->
  is_ok (parse_wg_config b64 lookup (parse_register_response resp reg)) = false.
Proof.
  intros Hp Hk. unfold parse_register_response. rewrite Hp. unfold parse_wg_config.
  change (text _ "private_key") with (Some (b64_encode (node_private reg))). cbn [ok_or mbind result_bind].
  destruct (decode_wg_key b64 _); [|done..]. cbn [mbind result_bind].
  match goal with |- context [parse_wg_peers _ _ (default [] ?x)] => change x with (Some (p :: l)) end.
  assert (Hw : parse_wg_peer b64 lookup p = Err "public_key") by (unfold parse_wg_peer, text; by rewrite Hk).
  cbn [default id parse_wg_peers]. by rewrite Hw.
Qed.
(** A registration nobody answers is reported as done once the control key was read, so the
    older registration is tried only when it was not. *)
Lemma unanswered_registration `{ControlWorld} control_url auth_key hostname reg key version :
  let base := default TAILSCALE_DEFAULT control_url in let body := registration_body reg auth_key hostname in
  fetch_control_key base = Ok (key, version) -> is_ok (noise_register base key version reg body) = false ->
  is_panic (noise_register base key version reg body) = false -> http_register base body = Err "http status" ->
  (length auth_key <= 8)%nat -> exists wg, register_peers control_url auth_key hostname reg = Ok wg /\ get wg "peers" = Some (Array []).
Proof.
  intros base body Hf Hn Hp Hh Hk. unfold register_peers. fold base body. rewrite Hf. cbn [mbind result_bind].
  destruct (noise_register base key version reg body); [done| |done]. rewrite Hh. unfold parse_local_wg, auth_key_hint.
  rewrite lookup_ge_None_2 by done. by eexists.
Qed.
End EmbeddedProps.

(** ** Witnesses *)

Definition toy_noise : NoiseCrypto.
Proof.
  refine {| blake2s := take 8; blake2s_mac := fun k m => take 32 (m ++ k ++ replicate 32 x00); cp_seal := toy_seal; cp_open := toy_unseal;
            nx_public := id; nx_dh := zip_with bxor |}.
  - intros k m. rewrite length_take, !length_app, length_replicate. lia.
  - intros k n m aad. unfold toy_seal. by rewrite length_app, length_replicate.
  - apply toy_unseal_seal.
  - done.
  - intros a b. unfold id. revert b. induction a as [|x a IH]; intros [|y b]; [done..|]. cbn. by rewrite bxor_comm, IH.
Defined.
(** A world where nothing answers, with the text of one value. *)
Definition demo_raw : Value := Object [(str "auth_key", jstr "tskey"); (str "state_directory", jstr "/var/lib/rsbox")].
Definition demo_config : Value :=
  Object [(str "private_key", Str (replicate 32 x61)); (str "listen_port", jnum 41641); (str "interface_name", jstr "tailscale0");
          (str "addresses", Array [jstr "100.64.0.1/32"]); (str "peers", Array []); (str "rsbox_public_key", Str (replicate 32 x61));
          (str "rsbox_auth_key_hint", jstr "tskey")].
Definition silent_world : ControlWorld := {|
  http_get := fun _ => Err "offline"; http_post := fun _ _ => Err "offline"; tls_connect_plain := fun _ => Err "offline";
  json_parse := fun t => if bool_decide (t = str "saved") then Some demo_config else None; json_print := fun _ => []; json_pretty := fun _ => str "saved";
  b64_encode := id; b64_decode := Some; os_name := str "linux" |}.
Definition demo_embedded (b : byte) : EmbeddedDraws :=
  mkEmbeddedDraws (replicate 32 b) (mkControlRegistration (replicate 32 b) (replicate 32 b) (replicate 32 b)).
Lemma state_survives_witness :
  let first := resolve_wireguard_config (H := toy_noise) (H0 := silent_world) (fun _ => true) demo_raw (demo_embedded x61) ∅ in
  first.1 = Ok demo_config
  /\ resolve_wireguard_config (H := toy_noise) (H0 := silent_world) (fun _ => false) demo_raw (demo_embedded x62) first.2 = (Ok demo_config, first.2).
Proof.
  split; [reflexivity|].
  apply (state_survives (H := toy_noise) silent_world silent_world (fun _ => true) (fun _ => false) demo_raw (demo_embedded x61) (demo_embedded x62) ∅ demo_config).
  - reflexivity.
  - intros v E. vm_compute in E. injection E as <-. split; reflexivity.
  - by eexists.
  - reflexivity.
Defined.
