(* ===== verification/QuicBlock.v ===== *)
(** * The QUIC switch of browsers

    [rsb-core/src/quic_block.rs]: while the program runs, the flag that turns QUIC off is set
    in the Local State files of Chromium browsers; afterwards they are put back.

    The files are a map from paths to contents; serde_json is an argument, and that a printed
    value is read back is a hypothesis about the values at hand.  [resolve_allow_hosts], which nothing calls, is left out, and so are the
    firewall rules of older versions that are removed on Windows. *)
From stdpp Require Import base tactics gmap countable list strings.
From Stdlib Require Import ZArith Lia.
From Stdlib Require Import Strings.Byte Floats.SpecFloat.
From S2P Require Import Prelude Json Text.

Local Open Scope Z_scope.

Class LocalStateJson := {
  ls_parse : list byte -> option Value;
  ls_print : Value -> list byte;
  ls_print_utf8 : forall v, utf8_valid (ls_print v) = true;
}.
(** A value that is read back as it was printed.  Not every value is: serde_json rounds the
    floating-point numbers it reads, keeps one of two equal keys and sorts them. *)
Definition reads_back `{LocalStateJson} (v : Value) : Prop := ls_parse (ls_print v) = Some v.

Definition QUIC_DISABLED_FLAG : list byte := str "enable-quic@2".
Definition QUIC_PREFIX : list byte := str "enable-quic@".
Definition EXPERIMENTS : list byte := str "enabled_labs_experiments".
Definition BROWSER : list byte := str "browser".

(** [LocalStateRestore] *)
Record LocalStateRestore := mkLocalStateRestore {
  lr_path : list byte;
  lr_previous : option Value;
}.

(** [Path::with_extension] on a file name: what follows its last dot is replaced, unless the
    name begins with that dot. *)
Definition is_separator (b : byte) : bool := bool_decide (b = x2f) || bool_decide (b = x5c).
Fixpoint last_component (s : list byte) : list byte * list byte :=
  match s with
  | [] => ([], [])
  | b :: s =>
      let '(dir, name) := last_component s in
      match dir with
      | [] => if is_separator b then ([b], name) else ([], b :: name)
      | _ => (b :: dir, name)
      end
  end.
Definition with_extension (path ext : list byte) : list byte :=
  let '(dir, name) := last_component path in
  let stem := match rsplit_once x2e name with Some ([], _) | None => name | Some (stem, _) => stem end in
  dir ++ stem ++ [x2e] ++ ext.
Definition tmp_path (path : list byte) : list byte := with_extension path (str "rsbox-tmp").

Section Files.
Context `{LocalStateJson}.
(** Which files can be written and which can be replaced. *)
Variables can_write can_rename : list byte -> bool.

Definition write_atomic (path contents : list byte) (fs : gmap (list byte) (list byte)) : result unit * gmap (list byte) (list byte) :=
  let tmp := tmp_path path in
  if negb (can_write tmp) then (Err "write", fs)
  else
    let fs := <[tmp := contents]> fs in
    if negb (can_rename path) then (Err "rename onto", fs)
    else (Ok tt, <[path := contents]> (delete tmp fs)).
Definition read_local_state (path : list byte) (fs : gmap (list byte) (list byte)) : result (list byte) :=
  t ← ok_or "No such file" (fs !! path); from_utf8 t.

(** Whether an experiment is the switch, and whether it is the switch turned otherwise. *)
Definition is_quic (v : Value) : bool :=
  match as_str v with
  | Some s => bool_decide (s = QUIC_DISABLED_FLAG) || starts_with s QUIC_PREFIX
  | None => false
  end.
Definition other_quic (v : Value) : bool :=
  match as_str v with
  | Some s => starts_with s QUIC_PREFIX && negb (bool_decide (s = QUIC_DISABLED_FLAG))
  | None => false
  end.
(** The experiments with QUIC off, unless it is off. *)
Definition disable_quic (experiments : list Value) : option (list Value) :=
  if existsb is_quic experiments then
    if existsb other_quic experiments
    then Some (map (fun v => if other_quic v then Str QUIC_DISABLED_FLAG else v) experiments)
    else None
  else Some (experiments ++ [Str QUIC_DISABLED_FLAG]).

(** The value of [patch_local_state]: what was there and the file's new value. *)
Definition patch_value (root : Value) : result (option (option Value * Value)) :=
  match root with
  | Object fields =>
      match default (Object []) (assoc BROWSER fields) with
      | Object browser_obj =>
          let previous := assoc EXPERIMENTS browser_obj in
          let experiments := match previous with Some (Array a) => a | _ => [] end in
          Ok (match disable_quic experiments with
              | Some new => Some (previous, Object (set_assoc BROWSER (Object (set_assoc EXPERIMENTS (Array new) browser_obj)) fields))
              | None => None
              end)
      | _ => Err "browser not object"
      end
  | _ => Err "Local State root not object"
  end.
Definition patch_local_state (path : list byte) (fs : gmap (list byte) (list byte)) : result (option (option Value)) * gmap (list byte) (list byte) :=
  match (t ← context "read" (read_local_state path fs); root ← ok_or "parse" (ls_parse t); patch_value root) with
  | Ok (Some (previous, root)) =>
      match write_atomic path (ls_print root) fs with
      | (Ok _, fs) => (Ok (Some previous), fs)
      | (Err e, fs) => (Err e, fs)
      | (Panic e, fs) => (Panic e, fs)
      end
  | Ok None => (Ok None, fs)
  | Err e => (Err e, fs)
  | Panic e => (Panic e, fs)
  end.

(** The value of [restore_local_state]; nothing is written without a browser object. *)
Definition restore_value (previous : option Value) (root : Value) : option Value :=
  match root with
  | Object fields =>
      match assoc BROWSER fields with
      | Some (Object browser) =>
          let browser :=
            match previous with
            | Some prev => set_assoc EXPERIMENTS prev browser
            | None =>
                match assoc EXPERIMENTS browser with
                | Some (Array arr) =>
                    match List.filter (fun v => negb (bool_decide (as_str v = Some QUIC_DISABLED_FLAG))) arr with
                    | [] => del_assoc EXPERIMENTS browser
                    | arr => set_assoc EXPERIMENTS (Array arr) browser
                    end
                | _ => browser
                end
            end in
          Some (Object (set_assoc BROWSER (Object browser) fields))
      | _ => None
      end
  | _ => None
  end.
Definition restore_local_state (item : LocalStateRestore) (fs : gmap (list byte) (list byte)) : result unit * gmap (list byte) (list byte) :=
  match fs !! lr_path item with
  | None => (Ok tt, fs)
  | Some _ =>
      match (t ← read_local_state (lr_path item) fs; ok_or "json" (ls_parse t)) with
      | Ok root =>
          match restore_value (lr_previous item) root with
          | Some root => write_atomic (lr_path item) (ls_print root) fs
          | None => (Ok tt, fs)
          end
      | Err e => (Err e, fs)
      | Panic e => (Panic e, fs)
      end
  end.

(** [install]: each file in turn; one that fails is passed over. *)
Fixpoint patch_all (paths : list (list byte)) (fs : gmap (list byte) (list byte)) : list LocalStateRestore * Z * gmap (list byte) (list byte) :=
  match paths with
  | [] => ([], 0, fs)
  | path :: paths =>
      let '(r, fs) := patch_local_state path fs in
      let '(restores, already_ok, fs) := patch_all paths fs in
      match r with
      | Ok (Some prev) => (mkLocalStateRestore path prev :: restores, already_ok, fs)
      | Ok None => (restores, already_ok + 1, fs)
      | _ => (restores, already_ok, fs)
      end
  end.
Definition install (paths : list (list byte)) (fs : gmap (list byte) (list byte)) : result (list LocalStateRestore) * gmap (list byte) (list byte) :=
  match paths with
  | [] => (Err "no Chromium Local State found", fs)
  | _ =>
      let '(restores, already_ok, fs) := patch_all paths fs in
      if bool_decide (restores = [] /\ already_ok = 0) then (Err "no Chromium Local State patched", fs)
      else (Ok restores, fs)
  end.
(** [Drop]: each file in turn, errors only logged. *)
Definition drop_quic_guard (restores : list LocalStateRestore) (fs : gmap (list byte) (list byte)) : gmap (list byte) (list byte) :=
  foldl (fun fs item => (restore_local_state item fs).2) fs restores.
End Files.

(** [PathBuf::join] on Windows, where the variables are set: a separator unless the base ends
    with one or is a drive. *)
Definition win_join (base rel : list byte) : list byte :=
  match last base with
  | None => rel
  | Some b => if is_separator b || ((zlen base =? 2) && bool_decide (b = x3a)) then base ++ rel else base ++ [x5c] ++ rel
  end.
Definition chromium_local_state_paths (local_app_data app_data : option (list byte)) (is_file : list byte -> bool) : list (list byte) :=
  let candidates :=
    match local_app_data with
    | Some local => map (fun p => win_join local (str p))
        ["Google\Chrome\User Data\Local State"; "Google\Chrome Beta\User Data\Local State"; "Microsoft\Edge\User Data\Local State";
         "Microsoft\Edge Beta\User Data\Local State"; "BraveSoftware\Brave-Browser\User Data\Local State"; "Chromium\User Data\Local State";
         "Vivaldi\User Data\Local State"]%string
    | None => []
    end ++
    match app_data with
    | Some roaming => map (fun p => win_join roaming (str p))
        ["Opera Software\Opera Stable\Local State"; "Opera Software\Opera GX Stable\Local State"; "Opera Software\Opera Next\Local State"]%string
    | None => []
    end in
  List.filter is_file candidates.

(** ** One file *)

(** A key of the file, and a key of its browser object (an object that is not there has none). *)
Definition top_key (root : Value) (k : list byte) : option Value :=
  match root with Object fields => assoc k fields | _ => None end.
Definition browser_key (root : Value) (j : list byte) : option Value :=
  b ← top_key root BROWSER; top_key b j.
Definition same_state (root root' : Value) : Prop :=
  (forall k, k <> BROWSER -> top_key root' k = top_key root k) /\ forall j, browser_key root' j = browser_key root j.
(** QUIC is off, whatever else is set. *)
Definition quic_off (root : Value) : Prop :=
  exists l, browser_key root EXPERIMENTS = Some (Array l) /\ Str QUIC_DISABLED_FLAG ∈ l /\ existsb other_quic l = false.

Lemma del_set_absent {A} k (v : A) l : assoc k l = None -> del_assoc k (set_assoc k v l) = l.
Proof.
  induction l as [|[k' w] l IH]; cbn [assoc set_assoc del_assoc]; [by rewrite bool_decide_eq_true_2|].
  destruct (bool_decide (k' = k)) eqn:E; [done|]. intros Ha. cbn [del_assoc]. by rewrite E, IH.
Qed.

Lemma disable_quic_off l l' : disable_quic l = Some l' -> Str QUIC_DISABLED_FLAG ∈ l' /\ existsb other_quic l' = false.
Proof.
  unfold disable_quic. destruct (existsb is_quic l) eqn:Eq.
  - destruct (existsb other_quic l) eqn:Eo; [|done]. intros [= <-]. split.
    + apply existsb_exists in Eo as (v & Hv & Ho). apply list_elem_of_In, in_map_iff. exists v. by rewrite Ho.
    + clear. induction l as [|v l IH]; [done|]. cbn [map existsb]. rewrite IH. destruct (other_quic v) eqn:E; [done|]. by rewrite E.
  - intros [= <-]. split; [apply elem_of_app; right; by apply list_elem_of_singleton|].
    rewrite existsb_app. cbn [existsb]. change (other_quic (Str QUIC_DISABLED_FLAG)) with false. cbn [orb]. rewrite orb_false_r.
    induction l as [|v l IH]; [done|]. cbn [existsb] in *. apply orb_false_iff in Eq as [Ev El]. rewrite (IH El), orb_false_r.
    unfold is_quic, other_quic in *. destruct (as_str v); [|done]. apply orb_false_iff in Ev as [_ ->]. done.
Qed.

Lemma patch_then_restore root prev root' : patch_value root = Ok (Some (prev, root')) ->
  quic_off root' /\ exists root'', restore_value prev root' = Some root'' /\ same_state root root''.
Proof.
  unfold patch_value. destruct root as [| | | | |fields]; try done.
  destruct (default (Object []) (assoc BROWSER fields)) as [| | | | |b] eqn:Eb; try done.
  set (old := match assoc EXPERIMENTS b with Some (Array a) => a | _ => [] end).
  destruct (disable_quic old) as [new|] eqn:Ed; [|done]. intros [= <- <-].
  assert (Hb : forall j, browser_key (Object fields) j = assoc j b).
  { intros j. unfold browser_key, top_key. destruct (assoc BROWSER fields); cbn [default from_option id] in Eb; [by subst|by injection Eb as <-]. }
  assert (Hk : forall b' k, k <> BROWSER -> assoc k (set_assoc BROWSER (Object b') fields) = assoc k fields) by (intros; by apply assoc_set_ne).
  split.
  - exists new. unfold browser_key, top_key. rewrite assoc_set. cbn [mbind option_bind]. rewrite assoc_set. split; [done|]. by apply disable_quic_off in Ed.
  - unfold restore_value. rewrite assoc_set.
    destruct (assoc EXPERIMENTS b) as [p|] eqn:Ee.
    + eexists. split; [done|]. split; [intros k Hne; unfold top_key; by rewrite assoc_set_ne, Hk by done|].
      intros j. rewrite Hb. unfold browser_key, top_key. rewrite assoc_set. cbn [mbind option_bind].
      destruct (decide (j = EXPERIMENTS)) as [->|Hj]; [by rewrite assoc_set|]. by rewrite !assoc_set_ne by done.
    + rewrite assoc_set. assert (new = [Str QUIC_DISABLED_FLAG]) as -> by (unfold old in Ed; vm_compute in Ed; by injection Ed as <-).
      change (List.filter _ [Str QUIC_DISABLED_FLAG]) with (@nil Value). cbn match. rewrite del_set_absent by done.
      eexists. split; [done|]. split; [intros k Hne; unfold top_key; by rewrite assoc_set_ne, Hk by done|].
      intros j. rewrite Hb. unfold browser_key, top_key. by rewrite assoc_set.
Qed.

(** ** All files *)

Section Restored.
Context `{LocalStateJson}.

(** Two contents of a file that are the same, or hold the same state. *)
Definition same_file (a b : option (list byte)) : Prop :=
  a = b \/ exists t t' root root', a = Some t /\ b = Some t' /\ ls_parse t = Some root /\ ls_parse t' = Some root' /\ same_state root root'.

Lemma write_atomic_cases (cw cr : list byte -> bool) (path t : list byte) (fs : gmap (list byte) (list byte)) : tmp_path path <> path ->
  let '(r, fs') := write_atomic cw cr path t fs in
  (forall q, q <> path -> q <> tmp_path path -> fs' !! q = fs !! q)
  /\ (r = Ok tt /\ fs' !! path = Some t \/ (exists e, r = Err e) /\ fs' !! path = fs !! path).
Proof.
  intros Ht. unfold write_atomic. destruct (cw (tmp_path path)); cbn [negb]; [|split; [done|right; by eauto]].
  destruct (cr path); cbn [negb].
  - split; [intros q H1 H2; rewrite lookup_insert_ne, lookup_delete_ne, lookup_insert_ne by done; done|].
    left. split; [done|]. by rewrite lookup_insert_eq.
  - split; [intros q H1 H2; by rewrite lookup_insert_ne|]. right. split; [by eauto|]. by rewrite lookup_insert_ne.
Qed.
Lemma write_atomic_ok (cw cr : list byte -> bool) (path t : list byte) (fs : gmap (list byte) (list byte)) : cw (tmp_path path) = true -> cr path = true -> (write_atomic cw cr path t fs).1 = Ok tt.
Proof. intros H1 H2. unfold write_atomic. by rewrite H1, H2. Qed.

(** A file that was patched: what it held, and what it holds. *)
Definition patched (fs fs' : gmap (list byte) (list byte)) (q : list byte) (prev : option Value) : Prop :=
  exists t root root', fs !! q = Some t /\ ls_parse t = Some root /\ patch_value root = Ok (Some (prev, root')) /\ fs' !! q = Some (ls_print root').

Lemma patch_local_state_cases (cw cr : list byte -> bool) (path : list byte) (fs : gmap (list byte) (list byte)) : tmp_path path <> path ->
  let '(r, fs') := patch_local_state cw cr path fs in
  (forall q, q <> path -> q <> tmp_path path -> fs' !! q = fs !! q)
  /\ match r with Ok (Some prev) => patched fs fs' path prev | _ => fs' !! path = fs !! path end.
Proof.
  intros Ht. unfold patch_local_state, read_local_state.
  destruct (fs !! path) as [t|] eqn:Ef; [|done]. cbn [ok_or mbind result_bind]. unfold from_utf8. destruct (utf8_valid t); [|done].
  cbn [context mbind result_bind]. destruct (ls_parse t) as [root|] eqn:Ep; [|done]. cbn [ok_or mbind result_bind].
  destruct (patch_value root) as [[[prev root']|]|e|e] eqn:Ev; [|done..].
  pose proof (write_atomic_cases cw cr path (ls_print root') fs Ht) as Hw. destruct (write_atomic _ _ _ _ _) as [r fs'].
  destruct Hw as [Hq [[-> Hp]|[[e ->] Hp]]]; (split; [done|]); [by exists t, root, root'|]. by rewrite Hp.
Qed.

Lemma patch_all_cases (cw cr : list byte -> bool) : forall paths (fs : gmap (list byte) (list byte)), NoDup paths -> (forall p, p ∈ paths -> tmp_path p ∉ paths) ->
  let '(restores, _, fs') := patch_all cw cr paths fs in
  NoDup (map lr_path restores) /\ (forall p, p ∈ map lr_path restores -> p ∈ paths)
  /\ forall q, q ∉ map tmp_path paths ->
       (q ∉ map lr_path restores -> fs' !! q = fs !! q)
       /\ forall prev, mkLocalStateRestore q prev ∈ restores -> patched fs fs' q prev.
Proof.
  induction paths as [|p paths IH]; intros fs Hn Ht; cbn [patch_all].
  { split_and!; [constructor|done|]. intros q _. split; [done|]. intros prev Hi. by apply not_elem_of_nil in Hi. }
  apply NoDup_cons in Hn as [Hp Hn]. assert (Hself : tmp_path p <> p) by (intros E; eapply (Ht p); [left|rewrite E; left]).
  pose proof (patch_local_state_cases cw cr p fs Hself) as Hc. destruct (patch_local_state cw cr p fs) as [r fs1]. destruct Hc as [Hq Hr].
  specialize (IH fs1 Hn). destruct (patch_all cw cr paths fs1) as [[restores n] fs2].
  destruct IH as (Hnd & Hsub & Hall); [intros p' Hp' Hx; eapply Ht; [right; exact Hp'|by right]|].
  assert (Hpt : p ∉ map tmp_path paths).
  { intros (p' & -> & Hp')%list_elem_of_fmap. eapply Ht; [right; exact Hp'|left]. }
  assert (Hp1 : fs2 !! p = fs1 !! p) by (apply (Hall p Hpt); intros Hx; by apply Hp, Hsub).
  assert (Hrest : forall q, q <> p -> q ∉ map tmp_path (p :: paths) -> (q ∉ map lr_path restores -> fs2 !! q = fs !! q)
    /\ forall prev, mkLocalStateRestore q prev ∈ restores -> patched fs fs2 q prev).
  { intros q Hne Hqt. cbn [map] in Hqt. apply not_elem_of_cons in Hqt as [Hqp Hqt]. destruct (Hall q Hqt) as [Ha Hb]. rewrite <-(Hq q Hne Hqp).
    split; [done|]. intros prev Hi. destruct (Hb prev Hi) as (t & root & root' & Hx). exists t, root, root'. by rewrite <-(Hq q Hne Hqp). }
  assert (Hold : (forall prev, r <> Ok (Some prev)) -> NoDup (map lr_path restores) /\ (forall p', p' ∈ map lr_path restores -> p' ∈ p :: paths)
    /\ forall q, q ∉ map tmp_path (p :: paths) -> (q ∉ map lr_path restores -> fs2 !! q = fs !! q)
       /\ forall prev, mkLocalStateRestore q prev ∈ restores -> patched fs fs2 q prev).
  { intros Hnot. split_and!; [done|intros; right; by apply Hsub|]. intros q Hqt. destruct (decide (q = p)) as [->|Hne]; [|by apply Hrest].
    split; [intros _; rewrite Hp1; destruct r as [[prev|]|e|e]; [by destruct (Hnot prev)|done..]|].
    intros prev Hi. exfalso. apply Hp, Hsub, list_elem_of_fmap. by exists (mkLocalStateRestore p prev). }
  destruct r as [[prev|]|e|e]; [|by apply Hold..].
  cbn [map lr_path]. split_and!.
  - apply NoDup_cons. split; [intros Hx; by apply Hp, Hsub|done].
  - intros p' [->|Hx]%elem_of_cons; [left|right; by apply Hsub].
  - intros q Hqt. destruct (decide (q = p)) as [->|Hne].
    + split; [intros Hx; destruct Hx; left|]. intros prev' [[= ->]|Hi]%elem_of_cons.
      * destruct Hr as (t & root & root' & Hx). exists t, root, root'. by rewrite Hp1.
      * exfalso. apply Hp, Hsub, list_elem_of_fmap. by exists (mkLocalStateRestore p prev').
    + destruct (Hrest q Hne Hqt) as [Ha Hb]. split; [intros Hx; apply Ha; intros Hy; apply Hx; by right|].
      intros prev' [[= -> ->]|Hi]%elem_of_cons; [done|by apply Hb].
Qed.

(** What the program writes into the files of [fs] is read back. *)
Definition files_read_back (fs : gmap (list byte) (list byte)) : Prop :=
  forall p t root prev root', fs !! p = Some t -> ls_parse t = Some root -> patch_value root = Ok (Some (prev, root')) ->
    reads_back root' /\ forall root'', restore_value prev root' = Some root'' -> reads_back root''.

Lemma drop_quic_guard_cases (cw cr : list byte -> bool) (fs0 : gmap (list byte) (list byte)) : files_read_back fs0 -> forall restores (fs : gmap (list byte) (list byte)), NoDup (map lr_path restores) ->
  (forall p, p ∈ map lr_path restores -> (tmp_path p ∉ map lr_path restores) /\ cw (tmp_path p) = true /\ cr p = true) ->
  forall q, q ∉ map (fun i => tmp_path (lr_path i)) restores ->
    (q ∉ map lr_path restores -> (drop_quic_guard cw cr restores fs) !! q = fs !! q)
    /\ forall prev, mkLocalStateRestore q prev ∈ restores -> patched fs0 fs q prev -> same_file (fs0 !! q) ((drop_quic_guard cw cr restores fs) !! q).
Proof.
  intros Hback. induction restores as [|[p prev] restores IH]; intros fs Hn Ht q Hq; cbn [drop_quic_guard foldl].
  { split; [done|]. intros prev Hi. by apply not_elem_of_nil in Hi. }
  cbn [map lr_path] in *. apply NoDup_cons in Hn as [Hp Hn]. apply not_elem_of_cons in Hq as [Hqp Hq].
  destruct (Ht p) as (Hself & Hw & Hr); [left|]. assert (Hself' : tmp_path p <> p) by (intros E; apply Hself; rewrite E; left).
  assert (Ht' : forall p', p' ∈ map lr_path restores -> (tmp_path p' ∉ map lr_path restores) /\ cw (tmp_path p') = true /\ cr p' = true).
  { intros p' Hp'. destruct (Ht p') as (Hx & Hy); [by right|]. split; [intros Hz; apply Hx; by right|done]. }
  assert (Hkeep : forall q, q <> p -> q <> tmp_path p -> (restore_local_state cw cr (mkLocalStateRestore p prev) fs).2 !! q = fs !! q).
  { intros q' Hne Hne'. unfold restore_local_state. cbn [lr_path lr_previous]. destruct (fs !! p) eqn:Ef; [|done].
    destruct (_ ≫= _) as [root|e|e]; [|done..]. destruct (restore_value prev root) as [r|]; [|done].
    pose proof (write_atomic_cases cw cr p (ls_print r) fs Hself') as Hc. destruct (write_atomic _ _ _ _ _) as [x fs']. by apply Hc. }
  set (fs1 := (restore_local_state cw cr (mkLocalStateRestore p prev) fs).2) in *.
  destruct (IH fs1 Hn Ht' q Hq) as [Ha Hb]. unfold drop_quic_guard in Ha, Hb. split.
  - intros Hx. apply not_elem_of_cons in Hx as [Hne Hx]. rewrite Ha by done. by apply Hkeep.
  - intros prev' [[= -> ->]|Hi]%elem_of_cons Hpat.
    + rewrite Ha by done. destruct Hpat as (t & root & root' & Hf & Hpr & Hv & Hf').
      destruct (patch_then_restore _ _ _ Hv) as (_ & root'' & Hrv & Hs). unfold fs1, restore_local_state, read_local_state. cbn [lr_path lr_previous].
      rewrite Hf'. cbn [ok_or mbind result_bind]. rewrite from_utf8_valid by apply ls_print_utf8. cbn [mbind result_bind].
      destruct (Hback p t root prev root' Hf Hpr Hv) as [Hb1 Hb2]. rewrite Hb1. cbn [ok_or]. rewrite Hrv. right.
      pose proof (write_atomic_cases cw cr p (ls_print root'') fs Hself') as Hc. pose proof (write_atomic_ok cw cr p (ls_print root'') fs Hw Hr) as Hok.
      destruct (write_atomic _ _ _ _ _) as [x fs']. cbn [fst] in Hok. subst x. destruct Hc as [_ [[_ Hl]|[[e He] _]]]; [|done]. cbn [snd].
      exists t, (ls_print root''), root, root''. rewrite Hf, Hl. split_and!; [done..|by apply Hb2|done].
    + apply (Hb prev' Hi). destruct Hpat as (t & root & root' & Hf & Hpr & Hv & Hf'). exists t, root, root'. split_and!; [done..|].
      rewrite <-Hf'. apply Hkeep; [|done]. intros ->. apply Hp, list_elem_of_fmap. by exists (mkLocalStateRestore p prev').
Qed.

(** After [install] the files it changed have QUIC off; when the guard is dropped, nobody has
    written them in between and they can be written, every file (but the temporary ones) is
    as it was or holds the same state.  The values written are those that serde_json reads
    back. *)
Theorem quic_restored (cw cr cw' cr' : list byte -> bool) (paths : list (list byte)) (fs : gmap (list byte) (list byte)) restores fs1 :
  NoDup paths -> (forall p, p ∈ paths -> tmp_path p ∉ paths) ->
  (forall p, p ∈ paths -> cw' (tmp_path p) = true /\ cr' p = true) ->
  files_read_back fs -> install cw cr paths fs = (Ok restores, fs1) ->
  (forall i, i ∈ restores -> exists root, ls_parse <$> (fs1 !! lr_path i) = Some (Some root) /\ quic_off root)
  /\ forall q, q ∉ map tmp_path paths -> same_file (fs !! q) ((drop_quic_guard cw' cr' restores fs1) !! q).
Proof.
  intros Hn Ht Hw Hback Hi. assert (Hall : exists n, patch_all cw cr paths fs = (restores, n, fs1)).
  { unfold install in Hi. destruct paths as [|p0 paths]; [done|]. destruct (patch_all _ _ _ _) as [[l n] f]. case_bool_decide; [done|]. simplify_eq. by eexists. }
  destruct Hall as [n Hall]. pose proof (patch_all_cases cw cr paths fs Hn Ht) as Hc. rewrite Hall in Hc. destruct Hc as (Hnd & Hsub & Hq).
  assert (Hnt : forall p, p ∈ paths -> p ∉ map tmp_path paths).
  { intros p Hp (p' & -> & Hp')%list_elem_of_fmap. by eapply Ht. }
  split.
  - intros [p prev] Hp. destruct (Hq p) as [_ Hpat]; [apply Hnt, Hsub, list_elem_of_fmap; by exists (mkLocalStateRestore p prev)|].
    destruct (Hpat prev Hp) as (t & root & root' & Ht0 & Hp0 & Hv & Hf). exists root'. cbn [lr_path]. rewrite Hf. cbn.
    destruct (Hback p t root prev root' Ht0 Hp0 Hv) as [-> _].
    split; [done|]. by apply patch_then_restore in Hv as [Hv _].
  - intros q Hqt. destruct (Hq q Hqt) as [Ha Hb].
    destruct (drop_quic_guard_cases cw' cr' fs Hback restores fs1 Hnd) with (q := q) as [Hc Hd].
    + intros p Hp. split; [intros Hx; eapply Ht; [by apply Hsub, Hp|by apply Hsub]|by apply Hw, Hsub].
    + intros (i & -> & Hx)%list_elem_of_fmap. apply Hqt, list_elem_of_fmap. exists (lr_path i). split; [done|]. apply Hsub, list_elem_of_fmap. by exists i.
    + destruct (decide (q ∈ map lr_path restores)) as [Hx|Hx]; [|left; rewrite Hc, Ha by done; done].
      apply list_elem_of_fmap in Hx as ([p prev] & -> & Hx). cbn [lr_path] in *. eauto.
Qed.
End Restored.

(** ** Witnesses *)

(** A text for every value: the bits of its code. *)
#[export] Instance spec_float_eq_dec : EqDecision spec_float.
Proof. solve_decision. Defined.
#[export] Instance spec_float_countable : Countable spec_float.
Proof.
  refine (inj_countable'
    (fun f => match f with
              | S754_zero s => inl (inl s) | S754_infinity s => inl (inr s)
              | S754_nan => inr (inl tt) | S754_finite s m e => inr (inr (s, m, e)) end)
    (fun x => match x with
              | inl (inl s) => S754_zero s | inl (inr s) => S754_infinity s
              | inr (inl tt) => S754_nan | inr (inr (s, m, e)) => S754_finite s m e end) _).
  by intros [].
Defined.
#[export] Instance json_number_eq_dec : EqDecision Number.
Proof. solve_decision. Defined.
#[export] Instance json_number_countable : Countable Number.
Proof.
  refine (inj_countable'
    (fun n => match n with PosInt z => inl (inl z) | NegInt z => inl (inr z) | Float f => inr f end)
    (fun x => match x with inl (inl z) => PosInt z | inl (inr z) => NegInt z | inr f => Float f end) _).
  by intros [].
Defined.
Definition json_leaf : Type := bool + Number + list byte.
Fixpoint tree_of (v : Value) : gen_tree json_leaf :=
  match v with
  | Null => GenNode 0 []
  | Bool b => GenLeaf (inl (inl b))
  | Num n => GenLeaf (inl (inr n))
  | Str s => GenLeaf (inr s)
  | Array l => GenNode 1 (map tree_of l)
  | Object fields => GenNode 2 (map (fun '(k, v) => GenNode 3 [GenLeaf (inr k); tree_of v]) fields)
  end.
Fixpoint of_tree (t : gen_tree json_leaf) : Value :=
  match t with
  | GenLeaf (inl (inl b)) => Bool b
  | GenLeaf (inl (inr n)) => Num n
  | GenLeaf (inr s) => Str s
  | GenNode 1 l => Array (map of_tree l)
  | GenNode 2 l => Object (map (fun t => match t with GenNode _ [GenLeaf (inr k); v] => (k, of_tree v) | _ => ([], Null) end) l)
  | GenNode _ _ => Null
  end.
Lemma of_tree_of : forall v, of_tree (tree_of v) = v.
Proof.
  fix IH 1. intros [|b|n|s|l|fields]; [done..| |]; cbn [tree_of of_tree]; f_equal.
  - induction l as [|v l IHl]; cbn [map]; [done|]. by rewrite IH, IHl.
  - induction fields as [|[k v] l IHl]; cbn [map]; [done|]. by rewrite IH, IHl.
Qed.
Fixpoint bits_text (p : BinNums.positive) : list byte :=
  match p with xH => [] | xO p => x30 :: bits_text p | xI p => x31 :: bits_text p end.
Fixpoint text_bits (t : list byte) : BinNums.positive :=
  match t with [] => xH | b :: t => if bool_decide (b = x30) then xO (text_bits t) else xI (text_bits t) end.
Lemma text_bits_text p : text_bits (bits_text p) = p.
Proof. induction p as [p IH|p IH|]; cbn; by rewrite ?IH. Qed.
Definition bit_json : LocalStateJson.
Proof.
  refine {| ls_parse := fun t => of_tree <$> decode (text_bits t); ls_print := fun v => bits_text (encode (tree_of v)) |}.
  - intros v. apply utf8_ascii. induction (encode (tree_of v)) as [p IH|p IH|]; cbn; constructor; done.
Defined.
Lemma bit_json_reads_back v : reads_back (H := bit_json) v.
Proof. unfold reads_back. cbn. rewrite text_bits_text, decode_encode. cbn. by rewrite of_tree_of. Qed.
Definition demo_state : Value :=
  Object [(str "browser", Object [(str "hovercard", Bool true)]); (str "uid", Str (str "7"))].
Definition demo_chrome : list byte := str "C:\u\Google\Chrome\User Data\Local State".
Definition demo_files : gmap (list byte) (list byte) := {[demo_chrome := ls_print (LocalStateJson := bit_json) demo_state]}.
Lemma quic_restored_witness :
  let installed := install (H := bit_json) (fun _ => true) (fun _ => true) [demo_chrome] demo_files in
  installed.1 = Ok [mkLocalStateRestore demo_chrome None]
  /\ same_file (H := bit_json) (demo_files !! demo_chrome)
       ((drop_quic_guard (H := bit_json) (fun _ => true) (fun _ => true) [mkLocalStateRestore demo_chrome None] installed.2) !! demo_chrome).
Proof.
  set (r := install _ _ _ _). assert (E : r.1 = Ok [mkLocalStateRestore demo_chrome None]) by (vm_compute; reflexivity). split; [exact E|].
  apply (quic_restored (H := bit_json) (fun _ => true) (fun _ => true) (fun _ => true) (fun _ => true) [demo_chrome] demo_files).
  - apply NoDup_singleton.
  - intros p ->%list_elem_of_singleton. intros F%list_elem_of_singleton. vm_compute in F. discriminate F.
  - done.
  - split; intros; apply bit_json_reads_back.
  - fold r. rewrite (surjective_pairing r), E. reflexivity.
  - intros F%list_elem_of_singleton. vm_compute in F. discriminate F.
Defined.
Example chrome_and_opera : chromium_local_state_paths (Some (str "C:\L")) (Some (str "C:\R\"))
    (fun p => bool_decide (p = str "C:\L\Microsoft\Edge\User Data\Local State") || bool_decide (p = str "C:\R\Opera Software\Opera Stable\Local State"))
  = [str "C:\L\Microsoft\Edge\User Data\Local State"; str "C:\R\Opera Software\Opera Stable\Local State"].
Proof. reflexivity. Qed.
