(* ===== verification/Process.v ===== *)
(** * The process behind a connection

    [rsb-core/src/process.rs] on Linux, where /proc is read, and on Windows, where the system's
    table of connections is searched.

    The tables, the directories in the order they are listed, and what can be read of a
    process are arguments ([ProcFs], [WinTables]). *)
From stdpp Require Import base tactics list strings.
From Stdlib Require Import ZArith Lia.
From Stdlib Require Import Strings.Byte.
From S2P Require Import Prelude Json Text Ip DnsWire Codec Srs Inbound.

Local Open Scope Z_scope.

Record ProcessInfo := mkProcessInfo {
  pi_name : option (list byte);
  pi_path : option (list byte);
}.
Definition no_process : ProcessInfo := mkProcessInfo None None.

(** ** Linux *)

(** [uN::from_str_radix]. *)
Fixpoint radix_digits (radix w acc : Z) (s : list byte) : option Z :=
  match s with
  | [] => Some acc
  | b :: s =>
      d ← to_digit radix b;
      if acc * radix + d <? 2 ^ w then radix_digits radix w (acc * radix + d) s else None
  end.
Definition from_str_radix (radix w : Z) (s : list byte) : option Z :=
  match s with
  | [] => None
  | [b] => if bool_decide (b = x2b) || bool_decide (b = x2d) then None else radix_digits radix w 0 s
  | b :: s' => if bool_decide (b = x2b) then radix_digits radix w 0 s' else radix_digits radix w 0 s
  end.

(** The 16 pairs of digits of an IPv6 address, each read by itself. *)
Fixpoint hex_octets (s : list byte) : option (list byte) :=
  match s with
  | [] => Some []
  | [a] => v ← from_str_radix 16 8 [a]; Some [u8 v]
  | a :: b :: s => v ← from_str_radix 16 8 [a; b]; l ← hex_octets s; Some (u8 v :: l)
  end.
Definition decode_proc_addr (raw : list byte) : option SocketAddr :=
  '(ip_hex, port_hex) ← split_once x3a raw;
  port ← from_str_radix 16 16 port_hex;
  if zlen ip_hex =? 8 then
    n ← from_str_radix 16 32 ip_hex;
    Some (mkSocketAddr (V4 (be_decode (rev (be_encode 4 n)))) port)
  else if zlen ip_hex =? 32 then
    o ← hex_octets ip_hex; Some (mkSocketAddr (V6 (be_decode o)) port)
  else None.

(** The loop over the lines: the first that has both addresses. *)
Fixpoint find_in_lines (ls : list (list byte)) (local remote : SocketAddr) : option Z :=
  match ls with
  | [] => None
  | line :: ls =>
      match split_whitespace line with
      | _ :: c1 :: c2 :: _ :: _ :: _ :: _ :: _ :: _ :: c9 :: _ =>
          match decode_proc_addr c1, decode_proc_addr c2 with
          | Some loc, Some rem =>
              if bool_decide (loc = local) && bool_decide (rem = remote) then parse_uint 64 c9 else find_in_lines ls local remote
          | _, _ => find_in_lines ls local remote
          end
      | _ => find_in_lines ls local remote
      end
  end.
Definition find_tcp_inode (file : option (list byte)) (local remote : SocketAddr) : option Z :=
  txt ← file; if utf8_valid txt then find_in_lines (drop 1 (lines txt)) local remote else None.

(** An entry of /proc: its name and, when they can be listed, the targets of its descriptors
    ([None] for one that cannot be read). *)
Record ProcEntry := mkProcEntry {
  en_name : list byte;
  en_fds : option (list (option (list byte)));
}.
Record ProcFs := mkProcFs {
  pf_tcp : option (list byte);
  pf_tcp6 : option (list byte);
  pf_entries : option (list ProcEntry);
  pf_comm : Z -> option (list byte);
  pf_exe : Z -> option (list byte);
}.
Definition read_process_info_linux (p : ProcFs) (pid : Z) : ProcessInfo :=
  mkProcessInfo
    (comm ← pf_comm p pid;
     if utf8_valid comm then match trim comm with [] => None | s => Some s end else None)
    (from_utf8_lossy <$> pf_exe p pid).
Definition socket_name (inode : Z) : list byte := str "socket:[" ++ show_uint inode ++ str "]".
Definition holds_socket (inode : Z) (fds : list (option (list byte))) : bool :=
  existsb (fun fd => match fd with Some target => bool_decide (from_utf8_lossy target = socket_name inode) | None => false end) fds.
(** The loop over /proc: an entry whose name is not a number ends the search. *)
Fixpoint find_in_entries (p : ProcFs) (inode : Z) (entries : list ProcEntry) : option ProcessInfo :=
  match entries with
  | [] => None
  | e :: entries =>
      pid ← parse_uint 32 (from_utf8_lossy (en_name e));
      match en_fds e with
      | Some fds => if holds_socket inode fds then Some (read_process_info_linux p pid) else find_in_entries p inode entries
      | None => find_in_entries p inode entries
      end
  end.
Definition find_process_by_inode (p : ProcFs) (inode : Z) : option ProcessInfo :=
  entries ← pf_entries p; find_in_entries p inode entries.

Definition lookup_process_for_tuple (p : ProcFs) (local remote : SocketAddr) : ProcessInfo :=
  match or_else (find_tcp_inode (pf_tcp p) local remote) (find_tcp_inode (pf_tcp6 p) local remote) with
  | Some inode => default no_process (find_process_by_inode p inode)
  | None => no_process
  end.
(** Of a connection that was accepted, from the addresses the socket reports. *)
Definition lookup_process_for_tcp_stream (p : ProcFs) (local_addr peer_addr : option SocketAddr) : ProcessInfo :=
  match local_addr, peer_addr with
  | Some local, Some remote => lookup_process_for_tuple p local remote
  | _, _ => no_process
  end.

(** ** Windows *)

Record TcpRow := mkTcpRow {
  row_local_addr : list byte;
  row_local_port : Z;
  row_remote_addr : list byte;
  row_remote_port : Z;
  row_pid : Z;
}.
(** The tables of both families, the addresses as bytes in the order they are sent, and what
    the system says of a process. *)
Record WinTables := mkWinTables {
  wt_v4 : option (list TcpRow);
  wt_v6 : option (list TcpRow);
  wt_info : Z -> ProcessInfo;
}.
Definition ntohs (v : Z) : Z := Z.lor (u16 (Z.shiftr v 8)) (u16 (Z.shiftl (u16 (Z.land v 255)) 8)).
Definition row_matches (local_ip : Z) (local_port : Z) (remote_ip : Z) (remote_port : Z) (row : TcpRow) : bool :=
  (be_decode (row_local_addr row) =? local_ip) && (ntohs (row_local_port row) =? local_port)
  && ((remote_port =? 0) || ((be_decode (row_remote_addr row) =? remote_ip) && (ntohs (row_remote_port row) =? remote_port))).
(** [tcp_owner_pid_v4] and [tcp_owner_pid_v6]: the first row that matches. *)
Definition tcp_owner_pid (rows : option (list TcpRow)) (local_ip local_port remote_ip remote_port : Z) : option Z :=
  rows ← rows; row_pid <$> List.find (row_matches local_ip local_port remote_ip remote_port) rows.
Definition lookup_windows (t : WinTables) (local remote : SocketAddr) : ProcessInfo :=
  let pid := match sa_ip local, sa_ip remote with
             | V4 l, V4 r => tcp_owner_pid (wt_v4 t) l (sa_port local) r (sa_port remote)
             | V6 l, V6 r => tcp_owner_pid (wt_v6 t) l (sa_port local) r (sa_port remote)
             | _, _ => None
             end in
  match pid with Some pid => wt_info t pid | None => no_process end.

(** ** Tables as the kernel prints them *)

Definition hex_char (d : Z) : byte := u8 (if d <? 10 then 48 + d else 55 + d).
Fixpoint hex_pad (n : nat) (v : Z) : list byte :=
  match n with O => [] | S n => hex_char ((v / 16 ^ Z.of_nat n) `mod` 16) :: hex_pad n v end.
(** [%08X:%04X]: the bytes of the address in memory as one number of a little-endian machine. *)
Definition proc_addr4 (a port : Z) : list byte := hex_pad 8 (be_decode (rev (be_encode 4 a))) ++ x3a :: hex_pad 4 port.

Lemma foldl_be_acc l : forall acc, foldl (fun acc b => acc * 256 + bz b) acc l = acc * 2 ^ (8 * zlen l) + be_decode l.
Proof.
  unfold be_decode. induction l as [|b l IH]; intros acc; cbn [foldl]; [unfold zlen; cbn; lia|].
  rewrite IH, (IH (0 * 256 + bz b)), zlen_cons. replace (8 * (1 + zlen l)) with (8 + 8 * zlen l) by lia.
  pose proof (zlen_nonneg l). rewrite Z.pow_add_r by lia. change (2 ^ 8) with 256. ring.
Qed.
Lemma be_encode_S n v : be_encode (S n) v = u8 (Z.shiftr v (8 * Z.of_nat n)) :: be_encode n v.
Proof. done. Qed.
Lemma be_encode_decode l : be_encode (length l) (be_decode l) = l.
Proof.
  enough (Hg : forall acc, 0 <= acc -> be_encode (length l) (foldl (fun acc b => acc * 256 + bz b) acc l) = l) by (by apply Hg).
  induction l as [|b l IH]; intros acc Ha; [done|]. cbn [foldl length]. rewrite be_encode_S. pose proof (bz_range b). rewrite IH by lia. f_equal.
  rewrite foldl_be_acc, Z.shiftr_div_pow2 by lia. pose proof (be_decode_range l) as Hr. change (8 * Z.of_nat (length l)) with (8 * zlen l).
  rewrite Z.div_add_l by lia. rewrite (Z.div_small (be_decode l)) by done. rewrite Z.add_0_r.
  apply bz_inj. rewrite bz_u8. rewrite <-(Z.mod_small (bz b) 256) at 2 by done. rewrite Z.add_comm. apply Z.mod_add. lia.
Qed.

Lemma hex_char_props d : 0 <= d < 16 -> to_digit 16 (hex_char d) = Some d /\ printable (hex_char d) /\ hex_char d <> x2b /\ hex_char d <> x2d /\ hex_char d <> x3a.
Proof.
  intros Hd. unfold printable.
  assert (Hc : d = 0 \/ d = 1 \/ d = 2 \/ d = 3 \/ d = 4 \/ d = 5 \/ d = 6 \/ d = 7 \/ d = 8 \/ d = 9 \/ d = 10 \/ d = 11 \/ d = 12 \/ d = 13 \/ d = 14 \/ d = 15) by lia.
  repeat (destruct Hc as [->|Hc]; [split_and!; by vm_compute|]). subst d. split_and!; by vm_compute.
Qed.
Lemma hex_pad_length n v : length (hex_pad n v) = n.
Proof. induction n; cbn [hex_pad length]; congruence. Qed.
Lemma hex_pad_chars n v : Forall (fun b => printable b /\ b <> x2b /\ b <> x2d /\ b <> x3a) (hex_pad n v).
Proof.
  induction n as [|n IH]; cbn [hex_pad]; constructor; [|done].
  destruct (hex_char_props ((v / 16 ^ Z.of_nat n) `mod` 16)) as (_ & H); [apply Z.mod_pos_bound; lia|exact H].
Qed.
Lemma radix_digits_hex w v : 0 <= v < 2 ^ w -> forall n acc, 0 <= acc -> acc * 16 ^ Z.of_nat n + v `mod` 16 ^ Z.of_nat n < 2 ^ w ->
  radix_digits 16 w acc (hex_pad n v) = Some (acc * 16 ^ Z.of_nat n + v `mod` 16 ^ Z.of_nat n).
Proof.
  intros Hv. induction n as [|n IH]; intros acc Ha Hw; cbn [hex_pad radix_digits].
  { rewrite Z.mod_1_r. f_equal. lia. }
  set (d := (v / 16 ^ Z.of_nat n) `mod` 16). assert (Hd : 0 <= d < 16) by (apply Z.mod_pos_bound; lia).
  destruct (hex_char_props d Hd) as [-> _]. cbn [mbind option_bind].
  assert (Hp : 0 < 16 ^ Z.of_nat n) by (apply Z.pow_pos_nonneg; lia).
  assert (E : acc * 16 ^ Z.of_nat (S n) + v `mod` 16 ^ Z.of_nat (S n) = (acc * 16 + d) * 16 ^ Z.of_nat n + v `mod` 16 ^ Z.of_nat n).
  { rewrite Nat2Z.inj_succ, Z.pow_succ_r by lia. rewrite (Z.mul_comm 16 (16 ^ _)), Z.rem_mul_r by lia. unfold d. ring. }
  pose proof (Z.mod_pos_bound v (16 ^ Z.of_nat n) Hp) as Hm. rewrite E in Hw |- *.
  rewrite (proj2 (Z.ltb_lt (acc * 16 + d) (2 ^ w))) by nia. by apply IH; [lia|].
Qed.
Lemma from_str_radix_hex w n v : 0 <= v < 2 ^ w -> v < 16 ^ Z.of_nat n -> n <> O -> from_str_radix 16 w (hex_pad n v) = Some v.
Proof.
  intros Hv Hn Hne. assert (Hd : radix_digits 16 w 0 (hex_pad n v) = Some v).
  { rewrite radix_digits_hex; rewrite ?Z.mod_small by lia; [f_equal; lia|done|lia|lia]. }
  pose proof (hex_pad_chars n v) as Hc. destruct n as [|n]; [done|]. cbn [hex_pad] in *. apply Forall_cons in Hc as [(_ & H1 & H2 & _) _].
  unfold from_str_radix. destruct (hex_pad n v); rewrite !bool_decide_eq_false_2 by done; done.
Qed.

(** The addresses of IPv4 connections are read as the kernel prints them. *)
Lemma decode_proc_addr4 a port : 0 <= a < 2 ^ 32 -> in_u16 port -> decode_proc_addr (proc_addr4 a port) = Some (mkSocketAddr (V4 a) port).
Proof.
  intros Ha Hp. unfold decode_proc_addr, proc_addr4. set (n := be_decode _).
  assert (Hn : 0 <= n < 2 ^ 32).
  { unfold n. pose proof (be_decode_range (rev (be_encode 4 a))) as Hr. unfold zlen in Hr. rewrite length_rev, length_be_encode in Hr. exact Hr. }
  rewrite split_once_app.
  2:{ intros Hx. pose proof (hex_pad_chars 8 n) as Hc. rewrite Forall_forall in Hc. destruct (Hc x3a Hx) as (_ & _ & _ & He). done. }
  cbn [mbind option_bind]. rewrite (from_str_radix_hex 16 4 port Hp (proj2 Hp)) by done. cbn [mbind option_bind].
  unfold zlen. rewrite hex_pad_length. change (Z.of_nat 8 =? 8) with true. cbn match.
  rewrite (from_str_radix_hex 32 8 n Hn (proj2 Hn)) by done. cbn [mbind option_bind].
  assert (E : be_encode 4 n = rev (be_encode 4 a)).
  { pose proof (be_encode_decode (rev (be_encode 4 a))) as E. rewrite length_rev, length_be_encode in E. exact E. }
  rewrite E, rev_involutive, be_decode_encode by (exact Ha). done.
Qed.

(** ** Properties *)

Record SockRow := mkSockRow {
  sr_local : Z * Z;
  sr_remote : Z * Z;
  sr_inode : Z;
}.
Definition row_wf (r : SockRow) : Prop :=
  0 <= (sr_local r).1 < 2 ^ 32 /\ in_u16 (sr_local r).2 /\ 0 <= (sr_remote r).1 < 2 ^ 32 /\ in_u16 (sr_remote r).2 /\ in_u64 (sr_inode r).
(** A line of /proc/net/tcp: ten columns or more, among them the addresses and the inode. *)
Definition line_of (line : list byte) (r : SockRow) : Prop :=
  exists c0 c3 c4 c5 c6 c7 c8 rest,
    split_whitespace line = c0 :: proc_addr4 (sr_local r).1 (sr_local r).2 :: proc_addr4 (sr_remote r).1 (sr_remote r).2
      :: c3 :: c4 :: c5 :: c6 :: c7 :: c8 :: show_uint (sr_inode r) :: rest.
Definition sock_addr (e : Z * Z) : SocketAddr := mkSocketAddr (V4 e.1) e.2.
Definition is_row (local remote : SocketAddr) (r : SockRow) : bool :=
  bool_decide (sock_addr (sr_local r) = local) && bool_decide (sock_addr (sr_remote r) = remote).

Lemma find_in_lines_rows local remote ls rows : Forall2 line_of ls rows -> Forall row_wf rows ->
  find_in_lines ls local remote = sr_inode <$> List.find (is_row local remote) rows.
Proof.
  induction 1 as [|line r ls rows (c0 & c3 & c4 & c5 & c6 & c7 & c8 & rest & E) _ IH]; intros Hw; [done|].
  apply Forall_cons in Hw as [(H1 & H2 & H3 & H4 & H5) Hw]. cbn [find_in_lines List.find]. rewrite E, !decode_proc_addr4 by done.
  change (mkSocketAddr (V4 (sr_local r).1) (sr_local r).2) with (sock_addr (sr_local r)).
  change (mkSocketAddr (V4 (sr_remote r).1) (sr_remote r).2) with (sock_addr (sr_remote r)).
  unfold is_row at 1. destruct (_ && _); [|by apply IH]. by rewrite parse_show_uint.
Qed.

(** Entries of processes that do not have the socket. *)
Definition passed_over (inode : Z) (e : ProcEntry) : Prop :=
  is_Some (parse_uint 32 (from_utf8_lossy (en_name e))) /\ match en_fds e with Some fds => holds_socket inode fds = false | None => True end.
Lemma find_in_entries_skip p inode pre rest : Forall (passed_over inode) pre ->
  find_in_entries p inode (pre ++ rest) = find_in_entries p inode rest.
Proof.
  induction 1 as [|e pre [[pid Hp] Hf] _ IH]; [done|]. cbn [app find_in_entries]. rewrite Hp. cbn [mbind option_bind].
  destruct (en_fds e); [by rewrite Hf|done].
Qed.

Section Lookup.
Variables (p : ProcFs) (txt hdr : list byte) (ls : list (list byte)) (rows : list SockRow) (local remote : SocketAddr) (row : SockRow).
Hypothesis Htcp : pf_tcp p = Some txt.
Hypothesis Hutf8 : utf8_valid txt = true.
Hypothesis Hlines : lines txt = hdr :: ls.
Hypothesis Hrows : Forall2 line_of ls rows.
Hypothesis Hwf : Forall row_wf rows.
Hypothesis Hrow : List.find (is_row local remote) rows = Some row.

Lemma tuple_inode : lookup_process_for_tuple p local remote = default no_process (find_process_by_inode p (sr_inode row)).
Proof.
  unfold lookup_process_for_tuple, find_tcp_inode. rewrite Htcp. cbn [mbind option_bind]. rewrite Hutf8, Hlines. change (drop 1 (hdr :: ls)) with ls.
  rewrite (find_in_lines_rows local remote ls rows Hrows Hwf), Hrow. done.
Qed.

(** A connection in the table is traced to the first process that has its socket, when only
    processes are listed before it. *)
Theorem process_found pre e post pid fds : pf_entries p = Some (pre ++ e :: post) -> Forall (passed_over (sr_inode row)) pre ->
  parse_uint 32 (from_utf8_lossy (en_name e)) = Some pid -> en_fds e = Some fds -> holds_socket (sr_inode row) fds = true ->
  lookup_process_for_tuple p local remote = read_process_info_linux p pid.
Proof.
  intros He Hpre Hn Hf Hs. rewrite tuple_inode. unfold find_process_by_inode. rewrite He. cbn [mbind option_bind].
  rewrite find_in_entries_skip by done. cbn [find_in_entries]. rewrite Hn. cbn [mbind option_bind]. by rewrite Hf, Hs.
Qed.
(** An entry that is not a process (/proc has several, and the kernel lists them first) ends
    the search: nothing is found, whoever has the socket. *)
Lemma other_entry_ends pre e post : pf_entries p = Some (pre ++ e :: post) -> Forall (passed_over (sr_inode row)) pre ->
  parse_uint 32 (from_utf8_lossy (en_name e)) = None -> lookup_process_for_tuple p local remote = no_process.
Proof.
  intros He Hpre Hn. rewrite tuple_inode. unfold find_process_by_inode. rewrite He. cbn [mbind option_bind].
  rewrite find_in_entries_skip by done. cbn [find_in_entries]. by rewrite Hn.
Qed.
End Lookup.

(** An IPv6 address is printed as four numbers of 32 bits, each in the order of the machine;
    its bytes are read in the order they are printed: ::1 is taken for another address. *)
Example loopback6_misread : decode_proc_addr (str "00000000000000000000000001000000:1F90") = Some (mkSocketAddr (V6 (2 ^ 24)) 8080).
Proof. reflexivity. Qed.
Example loopback4_read : decode_proc_addr (str "0100007F:1F90") = Some (mkSocketAddr (V4 (127 * 2 ^ 24 + 1)) 8080).
Proof. reflexivity. Qed.

(** A port as the tables have it: its two bytes as sent, read by a little-endian machine. *)
Definition port_dword (port : Z) : Z := port / 256 + 256 * (port `mod` 256).
Lemma ntohs_port port : in_u16 port -> ntohs (port_dword port) = port.
Proof.
  intros Hp. unfold in_u16 in Hp. unfold ntohs, port_dword. set (h := port / 256). set (l := port `mod` 256).
  assert (Hh : 0 <= h < 256) by (unfold h; Z.to_euclidean_division_equations; lia).
  assert (Hl : 0 <= l < 256) by (unfold l; apply Z.mod_pos_bound; lia).
  rewrite Z.shiftr_div_pow2 by lia. change (2 ^ 8) with 256. rewrite (Z.mul_comm 256 l), Z.div_add, (Z.div_small h) by lia.
  change 255 with (Z.ones 8). rewrite Z.land_ones by lia. change (2 ^ 8) with 256. rewrite Z.mod_add, (Z.mod_small h) by lia.
  unfold u16, wrap. rewrite Z.shiftl_mul_pow2, (Z.mod_small h) by lia. change (2 ^ 8) with 256. rewrite !Z.mod_small by lia.
  rewrite Z.lor_comm. change (h * 256) with (h * 2 ^ 8). rewrite <-Z.shiftl_mul_pow2 by lia. rewrite lor_shiftl_add by (done || lia). unfold h, l. Z.to_euclidean_division_equations. lia.
Qed.
(** The upper half of a port's field is undefined, but it is not masked. *)
Example ntohs_upper_half : ntohs (port_dword 8080 + 2 ^ 16) = Z.lor 8080 256 /\ ntohs (port_dword 443 + 2 ^ 17) <> 443.
Proof. by split. Qed.

Record WinRow := mkWinRow {
  wr_local : Z * Z;
  wr_remote : Z * Z;
  wr_pid : Z;
}.
Definition win_row (octets : nat) (r : WinRow) : TcpRow :=
  mkTcpRow (be_encode octets (wr_local r).1) (port_dword (wr_local r).2) (be_encode octets (wr_remote r).1) (port_dword (wr_remote r).2) (wr_pid r).
Definition win_wf (octets : nat) (r : WinRow) : Prop :=
  0 <= (wr_local r).1 < 2 ^ (8 * Z.of_nat octets) /\ in_u16 (wr_local r).2
  /\ 0 <= (wr_remote r).1 < 2 ^ (8 * Z.of_nat octets) /\ in_u16 (wr_remote r).2.
(** The owner is that of the first row with both ends, or with the local end when no remote
    port is given. *)
Lemma owner_of_row octets rows lip lport rip rport : Forall (win_wf octets) rows ->
  tcp_owner_pid (Some (map (win_row octets) rows)) lip lport rip rport
  = wr_pid <$> List.find (fun r => bool_decide (wr_local r = (lip, lport)) && (bool_decide (rport = 0) || bool_decide (wr_remote r = (rip, rport)))) rows.
Proof.
  unfold tcp_owner_pid. cbn [mbind option_bind]. induction 1 as [|r rows (H1 & H2 & H3 & H4) _ IH]; [done|]. cbn [map List.find].
  assert (E : row_matches lip lport rip rport (win_row octets r)
    = bool_decide (wr_local r = (lip, lport)) && (bool_decide (rport = 0) || bool_decide (wr_remote r = (rip, rport)))).
  { unfold row_matches, win_row. cbn [row_local_addr row_local_port row_remote_addr row_remote_port]. rewrite !be_decode_encode, !ntohs_port by done.
    destruct (wr_local r) as [a b], (wr_remote r) as [c d]. cbn [fst snd]. apply eq_bool_prop_intro.
    rewrite !Is_true_true, !andb_true_iff, !orb_true_iff, !andb_true_iff, !Z.eqb_eq, !bool_decide_eq_true. naive_solver. }
  rewrite E. destruct (_ && _); [done|exact IH].
Qed.

(** ** Witnesses *)

Definition demo_table : list byte :=
  str "  sl  local_address rem_address   st tx_queue rx_queue tr tm->when retrnsmt   uid  timeout inode" ++ [x0a]
  ++ str "   0: 0100007F:1F90 0100007F:C001 01 00000000:00000000 00:00000000 00000000  1000        0 4711 1" ++ [x0a].
Definition demo_row : SockRow := mkSockRow (127 * 2 ^ 24 + 1, 8080) (127 * 2 ^ 24 + 1, 49153) 4711.
Definition demo_proc : ProcFs :=
  mkProcFs (Some demo_table) None (Some [mkProcEntry (str "1") None; mkProcEntry (str "42") (Some [None; Some (str "socket:[4711]")])])
    (fun pid => if pid =? 42 then Some (str "curl" ++ [x0a]) else None) (fun pid => Some (str "/usr/bin/curl")).
Lemma process_found_witness :
  lookup_process_for_tuple demo_proc (sock_addr (sr_local demo_row)) (sock_addr (sr_remote demo_row))
  = mkProcessInfo (Some (str "curl")) (Some (str "/usr/bin/curl")).
Proof.
  refine (process_found demo_proc demo_table _ (drop 1 (lines demo_table)) [demo_row] _ _ demo_row _ _ _ _ _ _ [mkProcEntry (str "1") None]
    (mkProcEntry (str "42") (Some [None; Some (str "socket:[4711]")])) [] 42 [None; Some (str "socket:[4711]")] _ _ _ _ _); try reflexivity.
  - constructor; [|constructor]. do 8 eexists. vm_compute. reflexivity.
  - repeat constructor; vm_compute; done.
  - constructor; [|constructor]. split; [by eexists|done].
Defined.
